(* ===== verification/_CoqProject ===== *)
-Q . S2P
Prelude.v
State.v
Rconn.v
Wire.v
Csum.v
DList.v
HMap.v
MacTable.v
Oxm.v
MatchStd.v
OflTypes.v
ActCodec.v
ActionSet.v
Buffers.v
Meter.v
Group.v
Ofpbuf.v
Packet.v
FlowTable.v
Crc32.v
DpActions.v
Ports.v
StructCodec.v
StructWire.v
MatchWire.v
MsgCodec.v
MsgWire.v
MsgSafe.v
Datapath.v
Forward.v
Ehddp.v
Pipeline.v
Progress.v
Explore.v
Remotes.v
Control.v
Stp.v
StpNet.v
