(* ===== verification/Prelude.v ===== *)
(** Verification of the ieHDDP software switch: an OpenFlow 1.3 datapath (a fork of
    ofsoftswitch13) with the eHDDP protocol for in-band control of hybrid networks.

    * The program

    A packet comes in through a port (udatapath/dp_ports.c) and is parsed into headers and
    match fields (packet_handle_std.c, nbee_link). The pipeline (pipeline.c) looks it up in up
    to 64 flow tables (flow_table.c, flow_entry.c, match_std.c), executes the instructions of
    the entry it finds, which apply actions (dp_actions.c), write to the action set of the
    packet (action_set.c) and meter it (meter_table.c, meter_entry.c), and at the end the
    action set is executed, possibly through groups (group_table.c, group_entry.c). A packet
    no entry matches is given to eHDDP: requests of the exploration are recorded in a table of
    addresses (dp_ports.c), flooded or answered, ARP frames are learned and forwarded.
    Packets for the controller are kept in buffers (dp_buffers.c). The controllers change
    the tables, groups, meters, ports and queues with messages.

    * The files

    - [Prelude] machine integers with their wrap-around, byte sequences, and the lemmas, hints
      and tactics the other files share.
    - [Csum] lib/csum.c. [Crc32] udatapath/crc32.c.
    - [DList] lib/list.c, doubly linked rings in an explicit heap. [HMap] lib/hmap.c and
      hash.h, hash tables as arrays of buckets; the class [IdTable] is what the tables with
      numbered entries (groups, meters) are used through.
    - [MacTable] the singly linked tables of addresses of eHDDP (dp_ports.c), in a heap where
      a freed cell cannot be read.
    - [Oxm] oflib/oxm-match.c and ofl-structs-match.c: matches on the wire and in memory.
      [MatchStd] match_std.c.
    - [OflTypes] actions, instructions, buckets and messages of oflib. [ActionSet] the action
      set. [Buffers] the ring of packet buffers. [Meter] and [Group] their entries and tables.
    - [Wire] results of the functions that take messages apart, reads within the bytes that were
      received, counting and unpacking loops. [ActCodec], [StructCodec] and [MsgCodec] actions,
      structures and messages on the wire (ofl-actions-*.c, ofl-structs-*.c, ofl-messages-*.c,
      oflib-exp); [StructWire], [MatchWire] and [MsgWire] their round trips; [MsgSafe] what any
      bytes do that are received.
    - [State] computations on a state that can fail. [Rconn] lib/rconn.c, connections that are
      kept up, with their queues and timers.
    - [Ofpbuf] lib/ofpbuf.c: a buffer is its memory with an address; growing moves it.
      [Packet] packets and their handler. [DpActions] every action on the bytes of a packet.
    - [FlowTable] entries, tables, timeouts, lookup and statistics.
    - [Ports] ports, queues and what goes out on the wire.
    - [Datapath] the state of the whole datapath and the computations on it: an outcome is
      [Done], a [Fault] (memory that is not there is read or written) or [Fuel].
    - [Forward] outputs, action lists and sets, groups and meters on packets.
    - [Ehddp] the packets and handlers of eHDDP. [Pipeline] packets through the tables, flow
      messages and timeouts.
    - [Progress] the work a packet can cause is bounded. [Explore] the exploration.
    - [Remotes] the controllers of a datapath (datapath.c): roles, generations, asynchronous
      configurations, queues, and messages to one or to all of them. [Control] every message of
      a controller with its handler (dp_control.c, dp_exp.c, and the requests of pipeline.c,
      group_table.c, meter_table.c and dp_ports.c), and the main loop dp_run.
    - [Stp] lib/stp.c, a bridge of the spanning tree protocol: what is received, its timers and
      its settings. [StpNet] networks of such bridges.

    Names of definitions are those of the C functions they translate, loops of a function are
    Fixpoints named after it. Pointers into buffers are addresses, as the code keeps them
    across changes of the buffer. Uninitialised memory, new addresses, the answers of devices
    and the clock are arguments, so the theorems hold whatever they are.

    * What the theorems show

    - Whole switch: a packet makes the pipeline do a bounded amount of work
      ([Progress.pipeline_terminates]); of the copies of an exploration request that go through
      the pipeline at most one is passed on and the others are answered
      ([Explore.request_passed_once]); timeouts reach every table
      ([Pipeline.pipeline_timeout_clears]). However the program runs, at most one controller is
      master and the queues of the controllers stay within their limit ([Control.one_master]).
    - Controllers: a role request does what the specification of roles says
      ([Remotes.role_request]), an asynchronous message is handed to exactly the controllers that
      ask for it, but for those the code overlooks ([Remotes.asynchronous_once]), the modifications
      of a slave change nothing, and a request for flow statistics is answered to the one who asked
      with exactly the entries it is about ([Control.flow_stats_answered]).
    - Tables, groups, meters: each message refines an abstract specification of what it does to
      a map or a sorted list, with every error branch, and keeps the invariants the rest relies
      on (sorted by priority, counters right, no loops through groups). Which entries a flow
      modification selects is stated as the code compares matches, and as OpenFlow defines it for
      matches without masks ([FlowTable.flow_mod_refines]).
    - Matching, lookup and actions: a lookup finds the entry of highest priority whose fields
      agree; every action that has its header and its room succeeds within the buffer
      ([DpActions.action_keeps_buffer]); the checksum of the TTL stays right.
    - Containers: rings, hash maps and address tables refine lists and maps.
    - Codecs: a message is received as it was sent, but for the four kinds of message the code
      alters ([MsgWire.altered]); the loops that take bytes apart end but for the messages with
      lists of instructions ([MsgSafe.has_instructions]); an accepted group-mod is what the group
      table relies on.
    - Spanning tree: within the bounds in which int does not overflow ([Stp.op_ok]) only root and
      designated ports forward ([Stp.bridge_roles]), and a network
      in which nothing changes any more has one root and no loops ([StpNet.spanning_tree]).
    - Connections: the state machine keeps its invariant and its queue stays within its limit.

    Statements are about all states that satisfy an invariant the operations are shown to
    keep. Where the code is wrong the theorem says exactly when it is right, or a lemma shows
    the failure.

    * Bounds and fuel

    A recursion through groups has as much fuel as there are groups, which is enough because
    the groups have no loops; the tables have fuel 64, enough because flows go forward; a
    packet is sent back to the tables once, so depth 1 is enough. Lists in a heap are walked
    with fuel the size of the heap. Loops with a counter are Fixpoints on it.

    * Not modelled

    The packet parser calls the NetBee library, which is not part of the repository: it is an
    argument ([Packet.Parser]). So is qsort of the C library ([Datapath.qsort]), which sorts the
    instructions of a flow: what it does with [inst_compare], which is not an order, is not
    defined. Network devices, sockets and the clock are arguments. Printing
    and logging leave no state. The hardware variants under OF_HW_PLAT are not built. Releasing
    memory is modelled where a use after free or a double free is possible (address tables,
    instructions of flows, buffered packets). *)
From Stdlib Require Export ZArith Lia Sorting.Sorted.
From stdpp Require Export base numbers gmap list strings.
Open Scope Z_scope.

Coercion Z.of_nat : nat >-> Z.

Ltac Zify.zify_post_hook ::= Z.div_mod_to_equations.

Declare Scope sw_scope.
Delimit Scope sw_scope with sw.

(** * Machine integers

    An unsigned C integer of [w] bits is a [Z] in [0, 2^w); every operation of
    the source that can leave that range is followed by [wrap]. *)

Definition wrap (w z : Z) : Z := z mod 2 ^ w.

Abbreviation u8 := (wrap 8).
Abbreviation u16 := (wrap 16).
Abbreviation u32 := (wrap 32).
Abbreviation u64 := (wrap 64).

(** The value of a [w]-bit pattern read as a two's complement integer. *)
Definition signed (w z : Z) : Z :=
  if wrap w z <? 2 ^ (w - 1) then wrap w z else wrap w z - 2 ^ w.

Definition in_range (w z : Z) : Prop := 0 <= z < 2 ^ w.

(** [~ x] on [w] bits. *)
Definition compl (w z : Z) : Z := wrap w (Z.lnot z).

Create HintDb sw.
Create Rewrite HintDb sw.

Section machine_ints.
Context (w : Z) (Hw : 0 <= w).

Lemma wrap_range z : in_range w (wrap w z).
Proof using Hw. unfold in_range, wrap. apply Z.mod_pos_bound. lia. Qed.

Lemma wrap_small z : in_range w z -> wrap w z = z.
Proof using. intros H. apply Z.mod_small, H. Qed.

Lemma wrap_idemp z : wrap w (wrap w z) = wrap w z.
Proof using Hw. apply wrap_small, wrap_range. Qed.

Lemma wrap_testbit z i :
  0 <= i -> Z.testbit (wrap w z) i = (i <? w) && Z.testbit z i.
Proof using Hw.
  intros Hi. unfold wrap. destruct (Z.ltb_spec i w).
  - rewrite Z.mod_pow2_bits_low; [done | lia].
  - rewrite Z.mod_pow2_bits_high; [done | lia].
Qed.

Lemma in_range_testbit z i : in_range w z -> w <= i -> Z.testbit z i = false.
Proof using Hw.
  intros Hz Hi. rewrite <- (wrap_small z Hz), wrap_testbit by lia.
  destruct (Z.ltb_spec i w); [lia | done].
Qed.

Lemma compl_eq z : in_range w z -> compl w z = 2 ^ w - 1 - z.
Proof using Hw.
  unfold in_range, compl, wrap, Z.lnot. intros Hz.
  rewrite <- (Z.mod_add _ 1) by lia. rewrite Z.mod_small; lia.
Qed.

Lemma compl_involutive z : in_range w z -> compl w (compl w z) = z.
Proof using Hw.
  intros Hz. rewrite (compl_eq (compl w z)) by apply wrap_range.
  rewrite compl_eq by done. lia.
Qed.
End machine_ints.

Lemma in_range_bits w z :
  0 <= w -> 0 <= z -> (forall i, w <= i -> Z.testbit z i = false) -> in_range w z.
Proof.
  intros Hw Hz Hb. split; [done |].
  assert (Z.shiftr z w = 0) as Hs.
  { apply Z.bits_inj'. intros i Hi. rewrite Z.bits_0, Z.shiftr_spec by lia.
    apply Hb; lia. }
  rewrite Z.shiftr_div_pow2 in Hs by lia.
  apply Z.div_small_iff in Hs; lia.
Qed.

Lemma in_range_land w a b : 0 <= w -> in_range w a -> 0 <= b -> in_range w (Z.land a b).
Proof.
  intros Hw Ha Hb. apply in_range_bits; [done | apply Z.land_nonneg; lia |].
  intros i Hi. rewrite Z.land_spec, (in_range_testbit w Hw a i Ha Hi). done.
Qed.

Lemma in_range_lxor w a b :
  0 <= w -> in_range w a -> in_range w b -> in_range w (Z.lxor a b).
Proof.
  intros Hw Ha Hb.
  apply in_range_bits; [done | apply Z.lxor_nonneg; unfold in_range in *; lia |].
  intros i Hi. by rewrite Z.lxor_spec, (in_range_testbit w Hw a i Ha Hi),
    (in_range_testbit w Hw b i Hb Hi).
Qed.

Lemma in_range_lor w a b :
  0 <= w -> in_range w a -> in_range w b -> in_range w (Z.lor a b).
Proof.
  intros Hw Ha Hb.
  apply in_range_bits; [done | apply Z.lor_nonneg; unfold in_range in *; lia |].
  intros i Hi. by rewrite Z.lor_spec, (in_range_testbit w Hw a i Ha Hi),
    (in_range_testbit w Hw b i Hb Hi).
Qed.

#[export] Hint Resolve wrap_range in_range_land in_range_lxor in_range_lor : sw.
#[export] Hint Extern 1 (0 <= _)%Z => lia : sw.

(** Goals that are equalities of bit patterns: compare the bits. *)
Ltac bitwise :=
  apply Z.bits_inj'; intros ?i ?Hi;
  repeat first
    [ rewrite Z.land_spec | rewrite Z.lor_spec | rewrite Z.lxor_spec
    | rewrite Z.ldiff_spec | rewrite Z.bits_0
    | rewrite Z.shiftl_spec by lia | rewrite Z.shiftr_spec by lia
    | rewrite wrap_testbit by lia ];
  repeat match goal with |- context [Z.testbit ?a ?b] => destruct (Z.testbit a b) end;
  try reflexivity.

(** * Byte strings *)

Abbreviation byte_ok := (in_range 8).
Definition bytes_ok (bs : list Z) : Prop := Forall byte_ok bs.

(** A little-endian load of all the bytes of [bs], and the store of [n] bytes. *)
Fixpoint le_load (bs : list Z) : Z :=
  match bs with
  | [] => 0
  | b :: r => b + 256 * le_load r
  end.

Fixpoint le_store (n : nat) (z : Z) : list Z :=
  match n with
  | O => []
  | S k => z mod 256 :: le_store k (z / 256)
  end.

(** Network order. *)
Definition be_load (bs : list Z) : Z := le_load (rev bs).
Definition be_store (n : nat) (z : Z) : list Z := rev (le_store n z).

(** [htons], [htonl], [hton64] on a little-endian host. *)
Definition bswap (n : nat) (z : Z) : Z := be_load (le_store n z).
Definition htons (z : Z) : Z := bswap 2 z.
Definition htonl (z : Z) : Z := bswap 4 z.
Definition hton64 (z : Z) : Z := bswap 8 z.
Abbreviation ntohs := htons.
Abbreviation ntohl := htonl.
Abbreviation ntoh64 := hton64.

(** The [n] bytes at offset [i]; a write of [new] at offset [i]. *)
Definition slice (i n : nat) (bs : list Z) : list Z := take n (drop i bs).
Definition patch (i : nat) (new bs : list Z) : list Z :=
  take i bs ++ new ++ drop (i + length new) bs.
Notation "bs .[ i , n ]" := (slice i n bs) (at level 1, left associativity,
  format "bs .[ i ,  n ]") : sw_scope.

Lemma le_store_length n z : length (le_store n z) = n.
Proof. revert z; induction n; intros; simpl; auto. Qed.

Lemma le_store_ok n z : bytes_ok (le_store n z).
Proof.
  revert z; induction n; intros z; constructor; [| apply IHn].
  unfold in_range. change (2 ^ 8) with 256. lia.
Qed.

Lemma le_load_range bs : bytes_ok bs -> in_range (8 * length bs) (le_load bs).
Proof.
  induction 1 as [| b r Hb Hr IH]; [unfold in_range; simpl; lia |].
  unfold in_range in *. change (2 ^ 8) with 256 in *.
  simpl le_load. simpl length.
  replace (8 * Z.of_nat (S (length r))) with (8 + 8 * length r) by lia.
  rewrite Z.pow_add_r by lia. change (2 ^ 8) with 256. nia.
Qed.

Lemma le_load_store (n : nat) z : le_load (le_store n z) = wrap (8 * n) z.
Proof.
  revert z; induction n as [| n IH]; intros z; simpl le_load.
  - unfold wrap. simpl. lia.
  - rewrite IH. unfold wrap.
    replace (8 * Z.of_nat (S n)) with (8 + 8 * Z.of_nat n) by lia.
    rewrite Z.pow_add_r by lia. change (2 ^ 8) with 256.
    assert (0 < 2 ^ (8 * n)) by (apply Z.pow_pos_nonneg; lia).
    rewrite (Z.rem_mul_r z 256 (2 ^ (8 * n))) by lia. reflexivity.
Qed.

Lemma le_store_load bs : bytes_ok bs -> le_store (length bs) (le_load bs) = bs.
Proof.
  induction 1 as [| b r Hb Hr IH]; [done |]. simpl.
  unfold in_range in Hb. change (2 ^ 8) with 256 in Hb.
  assert ((b + 256 * le_load r) / 256 = le_load r) as -> by lia.
  assert ((b + 256 * le_load r) mod 256 = b) as -> by lia. by rewrite IH.
Qed.

Lemma le_load_inj a b :
  bytes_ok a -> bytes_ok b -> length a = length b -> le_load a = le_load b -> a = b.
Proof.
  intros Ha Hb Hl He. rewrite <- (le_store_load a Ha), <- (le_store_load b Hb). congruence.
Qed.

Lemma be_load_store (n : nat) z : be_load (be_store n z) = wrap (8 * n) z.
Proof. unfold be_load, be_store. by rewrite rev_involutive, le_load_store. Qed.

Lemma bswap_range (n : nat) z : in_range (8 * n) (bswap n z).
Proof.
  unfold bswap, be_load.
  replace (8 * Z.of_nat n) with (8 * Z.of_nat (length (rev (le_store n z)))).
  - apply le_load_range, Forall_rev, le_store_ok.
  - by rewrite length_rev, le_store_length.
Qed.

Lemma bswap_involutive (n : nat) z : in_range (8 * n) z -> bswap n (bswap n z) = z.
Proof.
  intros Hz. unfold bswap at 1.
  assert (le_store n (bswap n z) = rev (le_store n z)) as ->.
  { unfold bswap, be_load. etransitivity; [| apply (le_store_load (rev (le_store n z)))].
    - by rewrite length_rev, le_store_length.
    - apply Forall_rev, le_store_ok. }
  unfold be_load. rewrite rev_involutive, le_load_store. by apply wrap_small.
Qed.

Lemma slice_length i n bs : (i + n <= length bs)%nat -> length (slice i n bs) = n.
Proof. intros H. unfold slice. rewrite length_take, length_drop. lia. Qed.

Lemma patch_length i new bs :
  (i + length new <= length bs)%nat -> length (patch i new bs) = length bs.
Proof.
  intros H. unfold patch. rewrite !length_app, length_take, length_drop. lia.
Qed.

Lemma slice_patch_eq i new bs :
  (i <= length bs)%nat -> slice i (length new) (patch i new bs) = new.
Proof.
  intros H. unfold slice, patch.
  rewrite drop_app_ge by (rewrite length_take; lia).
  rewrite length_take, Nat.min_l by lia. rewrite Nat.sub_diag. simpl.
  by rewrite drop_0, take_app_length.
Qed.

#[export] Hint Resolve le_store_ok le_load_range bswap_range : sw.
#[export] Hint Rewrite le_store_length le_load_store be_load_store : sw.

(** * Lists *)

Section lists.
Context {A : Type} (P : A -> Prop) `{!forall x, Decision (P x)}.

Lemma filter_none (l : list A) : (forall x, x ∈ l -> ~ P x) -> filter P l = [].
Proof using.
  induction l as [| x l IH]; intros Hl; [done |].
  rewrite filter_cons, decide_False by (apply Hl; set_solver). apply IH. set_solver.
Qed.

Lemma filter_all (l : list A) : (forall x, x ∈ l -> P x) -> filter P l = l.
Proof using.
  induction l as [| x l IH]; intros Hl; [done |].
  rewrite filter_cons, decide_True by (apply Hl; set_solver). f_equal. apply IH. set_solver.
Qed.
End lists.

Lemma filter_ext_in {A} (P Q : A -> Prop) `{!forall x, Decision (P x)} `{!forall x, Decision (Q x)} (l : list A) :
  (forall x, x ∈ l -> P x <-> Q x) -> filter P l = filter Q l.
Proof.
  induction l as [| x l IH]; intros Hl; [done |]. rewrite !filter_cons.
  rewrite IH by (intros; apply Hl; by right).
  destruct (Hl x) as [HP HQ]; [by left |]. do 2 case_decide; naive_solver.
Qed.

Lemma filter_fmap_comm {A B} (f : A -> B) (P : B -> Prop) `{!forall x, Decision (P x)} (l : list A) :
  filter P (f <$> l) = f <$> filter (fun x => P (f x)) l.
Proof.
  induction l as [| x l IH]; [done |]. rewrite fmap_cons, !filter_cons.
  destruct (decide (P (f x))); [rewrite fmap_cons; by f_equal | done].
Qed.

Lemma filter_swap {A} (P Q : A -> Prop) `{!forall x, Decision (P x)} `{!forall x, Decision (Q x)} (l : list A) :
  filter P (filter Q l) = filter Q (filter P l).
Proof.
  induction l as [| x l IH]; [done |]. rewrite !filter_cons.
  destruct (decide (P x)), (decide (Q x)); rewrite ?filter_cons, ?decide_True, ?decide_False by done; congruence.
Qed.

Lemma SSorted_sublist {A} (R : A -> A -> Prop) l k : sublist l k -> StronglySorted R k -> StronglySorted R l.
Proof.
  induction 1 as [| x l k Hs IH | x l k Hs IH]; intros Hk; [done | |]; inversion Hk as [| ? ? Hk' Hf]; subst.
  - constructor; [by apply IH |]. rewrite Forall_forall in *. intros y Hy. apply Hf.
    apply (sublist_subseteq _ _ Hs), Hy.
  - by apply IH.
Qed.

Lemma SSorted_filter {A} (R : A -> A -> Prop) (P : A -> Prop) `{!forall x, Decision (P x)} l :
  StronglySorted R l -> StronglySorted R (filter P l).
Proof. apply SSorted_sublist, sublist_filter. Qed.

Lemma NoDup_fmap_filter {A B} (f : A -> B) (P : A -> Prop) `{!forall x, Decision (P x)} l :
  NoDup (f <$> l) -> NoDup (f <$> filter P l).
Proof.
  intros Hnd. eapply sublist_NoDup; [exact Hnd |].
  induction l as [| x l IH]; [constructor |]. inversion Hnd; subst. rewrite filter_cons, fmap_cons.
  destruct (decide (P x)); [rewrite fmap_cons; apply sublist_skip | apply sublist_cons]; auto.
Qed.

Lemma SSorted_app_iff {A} (R : A -> A -> Prop) l k :
  StronglySorted R (l ++ k) <->
  StronglySorted R l /\ StronglySorted R k /\ (forall x y, x ∈ l -> y ∈ k -> R x y).
Proof.
  induction l as [| a l IH]; cbn [app].
  - split; [intros H; split_and!; [constructor | done | by intros x y ?%elem_of_nil] | by intros (_ & ? & _)].
  - split.
    + intros H. inversion H as [| ? ? H1 H2]; subst. apply IH in H1 as (Ha & Hb & Hc).
      rewrite Forall_app in H2. destruct H2 as [H2 H3]. rewrite Forall_forall in H3. split_and!; [by constructor | done |].
      intros x y [-> | Hx]%elem_of_cons Hy; auto.
    + intros (H1 & H2 & H3). inversion H1 as [| ? ? H4 H5]; subst. constructor.
      * apply IH. split_and!; [done | done |]. intros x y Hx Hy. apply H3; [by right | done].
      * rewrite Forall_app, !Forall_forall in *. split; [done |]. intros y Hy. apply H3; [by left | done].
Qed.

(** * Bits of byte strings *)

Lemma byte_cons_testbit b r i :
  byte_ok b -> 0 <= i ->
  Z.testbit (b + 256 * r) i = if i <? 8 then Z.testbit b i else Z.testbit r (i - 8).
Proof.
  intros Hb Hi. assert (b + 256 * r = Z.lor b (Z.shiftl r 8)) as ->.
  { rewrite Z.shiftl_mul_pow2 by lia. change (2 ^ 8) with 256. rewrite (Z.mul_comm r).
    assert (Z.land b (256 * r) = 0) as Hz.
    { apply Z.bits_inj'. intros j Hj. rewrite Z.bits_0, Z.land_spec, Z.mul_comm.
      change 256 with (2 ^ 8). rewrite Z.mul_pow2_bits by lia. destruct (Z.ltb_spec j 8).
      - rewrite (Z.testbit_neg_r r) by lia. apply andb_false_r.
      - by rewrite (in_range_testbit 8 ltac:(lia) b j Hb) by lia. }
    by rewrite Z.add_nocarry_lxor, Z.lxor_lor. }
  rewrite Z.lor_spec, Z.shiftl_spec by done. destruct (Z.ltb_spec i 8).
  - rewrite (Z.testbit_neg_r r) by lia. apply orb_false_r.
  - by rewrite (in_range_testbit 8 ltac:(lia) b i Hb) by lia.
Qed.

Lemma le_load_testbit bs i :
  bytes_ok bs -> 0 <= i ->
  Z.testbit (le_load bs) i = Z.testbit (nth (Z.to_nat (i / 8)) bs 0) (i mod 8).
Proof.
  intros Hb. revert i. induction Hb as [| b r Hb Hr IH]; intros i Hi.
  - simpl. destruct (Z.to_nat _); by rewrite !Z.bits_0.
  - cbn [le_load]. rewrite byte_cons_testbit by done. destruct (Z.ltb_spec i 8).
    + rewrite Z.div_small, Z.mod_small by lia. done.
    + rewrite IH by lia. replace (Z.to_nat (i / 8)) with (S (Z.to_nat ((i - 8) / 8))) by lia.
      simpl. f_equal. lia.
Qed.

Lemma le_store_nth n z k : (k < n)%nat -> nth k (le_store n z) 0 = (z / 2 ^ (8 * k)) mod 256.
Proof.
  revert z k. induction n as [| n IH]; intros z k Hk; [lia |]. destruct k as [| k]; simpl nth.
  - by rewrite Z.mul_0_r, Z.pow_0_r, Z.div_1_r.
  - rewrite IH by lia. rewrite Z.div_div by lia. f_equal. f_equal.
    rewrite <- (Z.pow_add_r 2 8) by lia. f_equal. lia.
Qed.

Lemma bswap_testbit (n : nat) z i :
  0 <= i < 8 * n -> Z.testbit (bswap n z) i = Z.testbit z (8 * (n - 1 - i / 8) + i mod 8).
Proof.
  intros Hi. unfold bswap, be_load.
  rewrite le_load_testbit; [| apply Forall_rev, le_store_ok | lia].
  rewrite rev_nth by (rewrite le_store_length; lia). rewrite le_store_length, le_store_nth by lia.
  change 256 with (2 ^ 8). rewrite Z.mod_pow2_bits_low by lia.
  rewrite <- Z.shiftr_div_pow2, Z.shiftr_spec by lia. f_equal. lia.
Qed.

Lemma bits_ext w a b :
  0 <= w -> in_range w a -> in_range w b ->
  (forall i, 0 <= i < w -> Z.testbit a i = Z.testbit b i) -> a = b.
Proof.
  intros Hw Ha Hb H. apply Z.bits_inj'. intros i Hi.
  destruct (Z.lt_ge_cases i w); [by apply H |]. by rewrite !(in_range_testbit w) by done.
Qed.

Lemma le_load_app a b : le_load (a ++ b) = le_load a + 2 ^ (8 * length a) * le_load b.
Proof.
  induction a as [| x a IH]; cbn [app le_load length].
  - rewrite Z.mul_0_r, Z.pow_0_r. lia.
  - rewrite IH. replace (8 * Z.of_nat (S (length a))) with (8 + 8 * length a) by lia.
    rewrite Z.pow_add_r by lia. change (2 ^ 8) with 256. lia.
Qed.

Lemma le_store_snoc n z : le_store (S n) z = le_store n z ++ [(z / 2 ^ (8 * n)) mod 256].
Proof.
  revert z. induction n as [| n IH]; intros z.
  - simpl. by rewrite Z.div_1_r.
  - change (le_store (S (S n)) z) with (z mod 256 :: le_store (S n) (z / 256)).
    rewrite IH. simpl app. do 3 f_equal. rewrite Z.div_div by lia. f_equal. f_equal.
    change 256 with (2 ^ 8). rewrite <- Z.pow_add_r by lia. f_equal. lia.
Qed.

(** Setting bits below those of a multiple of a power of two. *)
Lemma lor_low_add a b k : 0 <= k -> in_range k b -> Z.lor (a * 2 ^ k) b = a * 2 ^ k + b.
Proof.
  intros Hk Hb. rewrite Z.add_nocarry_lxor; [rewrite Z.lxor_lor; [done |] |];
    apply Z.bits_inj'; intros i Hi; rewrite Z.bits_0, Z.land_spec, Z.mul_pow2_bits by done;
    (destruct (Z.lt_ge_cases i k);
      [by rewrite Z.testbit_neg_r by lia | by rewrite (in_range_testbit k Hk b i Hb), andb_false_r]).
Qed.


(** * Sums over finite maps *)

Section msum.
Context {A : Type} (f : A -> Z).

Definition msum (m : gmap Z A) : Z := map_fold (fun _ x s => f x + s) 0 m.

Lemma msum_empty : msum ∅ = 0.
Proof. done. Qed.

Lemma msum_insert m k x : m !! k = None -> msum (<[k := x]> m) = f x + msum m.
Proof. intros Hk. apply (map_fold_insert_L (fun _ x s => f x + s)); [intros; lia | done]. Qed.

Lemma msum_delete m k x : m !! k = Some x -> msum (delete k m) = msum m - f x.
Proof.
  intros Hk. rewrite <- (insert_delete_id m k x Hk) at 2. rewrite msum_insert by apply lookup_delete_eq. lia.
Qed.

Lemma msum_replace m k x y : m !! k = Some x -> msum (<[k := y]> m) = msum m - f x + f y.
Proof.
  intros Hk. rewrite <- insert_delete_eq, msum_insert, (msum_delete m k x Hk) by apply lookup_delete_eq. lia.
Qed.

Lemma msum_nonneg m : (forall x, 0 <= f x) -> 0 <= msum m.
Proof.
  intros Hf. induction m as [| k x m Hk IH] using map_ind; [done |]. rewrite msum_insert by done.
  specialize (Hf x). lia.
Qed.

Lemma msum_lookup_le m k x : (forall x, 0 <= f x) -> m !! k = Some x -> f x <= msum m.
Proof.
  intros Hf Hk. pose proof (msum_nonneg (delete k m) Hf). rewrite (msum_delete m k x Hk) in *. lia.
Qed.
End msum.
