(* ===== verification/State.v ===== *)
(** Computations with a state that may fail, for the components that are state machines, with
    rules for total correctness: a computation ends and does not fail. *)
From S2P Require Import Prelude.
Open Scope Z_scope.

Definition prog (S A : Type) : Type := S -> option (A * S).

Section prog.
Context {S : Type}.

Definition pret {A} (x : A) : prog S A := fun s => Some (x, s).
Definition pbind {A B} (c : prog S A) (k : A -> prog S B) : prog S B :=
  fun s => match c s with Some (x, s') => k x s' | None => None end.
Definition pfail {A} : prog S A := fun _ => None.
Definition pget {A} (f : S -> A) : prog S A := fun s => Some (f s, s).
Definition pmod (f : S -> S) : prog S unit := fun s => Some (tt, f s).
Definition plift {A} (x : option A) : prog S A := fun s => match x with Some y => Some (y, s) | None => None end.
Definition pwhen (b : bool) (c : prog S unit) : prog S unit := if b then c else pret tt.

(** From a state of [P] the computation ends with a result and a state of [Q]. *)
Definition total {A} (P : S -> Prop) (c : prog S A) (Q : A -> S -> Prop) : Prop :=
  forall s, P s -> exists x s', c s = Some (x, s') /\ Q x s'.

Lemma total_ret {A} (P : S -> Prop) (x : A) : total P (pret x) (fun y s => y = x /\ P s).
Proof. intros s Hs. by exists x, s. Qed.

Lemma total_bind {A B} P (c : prog S A) R (k : A -> prog S B) Q :
  total P c R -> (forall x, total (R x) (k x) Q) -> total P (pbind c k) Q.
Proof.
  intros Hc Hk s Hs. destruct (Hc s Hs) as (x & s1 & E & HR). destruct (Hk x s1 HR) as (y & s2 & E2 & HQ).
  exists y, s2. unfold pbind. by rewrite E.
Qed.

Lemma total_conseq {A} (P P' : S -> Prop) (c : prog S A) (Q Q' : A -> S -> Prop) :
  (forall s, P s -> P' s) -> (forall x s, Q' x s -> Q x s) -> total P' c Q' -> total P c Q.
Proof. intros HP HQ Hc s Hs. destruct (Hc s (HP s Hs)) as (x & s' & ? & ?). exists x, s'. auto. Qed.

Lemma total_mod (P : S -> Prop) f (Q : unit -> S -> Prop) : (forall s, P s -> Q tt (f s)) -> total P (pmod f) Q.
Proof. intros Hf s Hs. exists tt, (f s). auto. Qed.

Lemma total_get {A} (P : S -> Prop) (f : S -> A) : total P (pget f) (fun x s => x = f s /\ P s).
Proof. intros s Hs. by exists (f s), s. Qed.

Lemma total_when (P : S -> Prop) b c (Q : unit -> S -> Prop) :
  (b = true -> total P c Q) -> (b = false -> forall s, P s -> Q tt s) -> total P (pwhen b c) Q.
Proof. intros H1 H2. destruct b; [by apply H1 |]. intros s Hs. exists tt, s. auto. Qed.

(** An invariant of a computation. *)
Definition keeps (I : S -> Prop) {A} (c : prog S A) : Prop := total I c (fun _ => I).

Lemma keeps_ret I {A} (x : A) : keeps I (pret x).
Proof. intros s Hs. by exists x, s. Qed.
Lemma keeps_get I {A} (f : S -> A) : keeps I (pget f).
Proof. intros s Hs. by exists (f s), s. Qed.
Lemma keeps_bind I {A B} (c : prog S A) (k : A -> prog S B) : keeps I c -> (forall x, keeps I (k x)) -> keeps I (pbind c k).
Proof. intros Hc Hk. by eapply total_bind. Qed.
Lemma keeps_mod (I : S -> Prop) f : (forall s, I s -> I (f s)) -> keeps I (pmod f).
Proof. apply (total_mod I f (fun _ => I)). Qed.
Lemma keeps_when I b c : keeps I c -> keeps I (pwhen b c).
Proof. intros Hc. destruct b; [done | apply keeps_ret]. Qed.

(** A property of the state that a computation keeps if it ends. *)
Definition preserved (I : S -> Prop) {A} (c : prog S A) : Prop :=
  forall s x s', I s -> c s = Some (x, s') -> I s'.

Lemma preserved_use (I : S -> Prop) {A} (c : prog S A) s x s' : preserved I c -> I s -> c s = Some (x, s') -> I s'.
Proof. intros Hc. apply Hc. Qed.
Lemma preserved_ret I {A} (x : A) : preserved I (pret x).
Proof. by intros s y s' Hs [= <- <-]. Qed.
Lemma preserved_get I {A} (f : S -> A) : preserved I (pget f).
Proof. by intros s y s' Hs [= <- <-]. Qed.
Lemma preserved_fail I {A} : preserved I (@pfail A).
Proof. by intros s y s' Hs E. Qed.
Lemma preserved_lift I {A} (x : option A) : preserved I (plift x).
Proof. destruct x; [apply preserved_ret | apply preserved_fail]. Qed.
Lemma preserved_bind I {A B} (c : prog S A) (k : A -> prog S B) : preserved I c -> (forall x, preserved I (k x)) -> preserved I (pbind c k).
Proof. unfold preserved, pbind. intros Hc Hk s y s' Hs E. destruct (c s) as [[x s1] |] eqn:E1; [| done]. eauto. Qed.
Lemma preserved_mod (I : S -> Prop) f : (forall s, I s -> I (f s)) -> preserved I (pmod f).
Proof. intros Hf s y s' Hs [= <- <-]. auto. Qed.
Lemma preserved_when I b c : preserved I c -> preserved I (pwhen b c).
Proof. intros Hc. destruct b; [done | apply preserved_ret]. Qed.
Lemma keeps_preserved I {A} (c : prog S A) : keeps I c -> preserved I c.
Proof. intros Hc s x s' Hs E. destruct (Hc s Hs) as (y & s2 & E2 & HI). congruence. Qed.

End prog.

#[global] Hint Resolve keeps_ret keeps_get keeps_when : sw.
Create HintDb preserved.
#[global] Hint Resolve preserved_ret preserved_get preserved_fail preserved_lift : preserved.

(** Goes through the binds and branches of a computation. *)
Ltac preserved_step :=
  first [ solve [eauto with preserved]
        | match goal with |- preserved _ (pbind _ _) => apply preserved_bind; [| intros ?] end
        | match goal with |- preserved _ (pwhen _ _) => apply preserved_when end
        | match goal with |- preserved _ (match ?x with _ => _ end) => destruct x end ].
Ltac preserved_tac := repeat preserved_step.
(** The same, with the hints for what is not a bind or a branch only. *)
Ltac preserved_deep :=
  repeat lazymatch goal with
    | |- preserved _ (pbind _ _) => apply preserved_bind; [| intros ?]
    | |- preserved _ (pwhen _ _) => apply preserved_when
    | |- preserved _ (match ?x with _ => _ end) => destruct x
    | |- preserved _ _ => solve [eauto with preserved]
    end.

Declare Scope prog_scope.
Delimit Scope prog_scope with prog.
Notation "x <- c ;; k" := (pbind c (fun x => k)) (at level 62, c at next level, right associativity,
  format "x  <-  c ;;  '/' k") : prog_scope.
Notation "' p <- c ;; k" := (pbind c (fun x => let p := x in k)) (at level 62, p strict pattern,
  c at next level, right associativity) : prog_scope.
Notation "c ;;; k" := (pbind c (fun _ => k)) (at level 62, right associativity, format "c ;;;  '/' k") : prog_scope.
