(* ===== verification/Rconn.v ===== *)
(** Reliable connections (lib/rconn.c): the state machine that keeps a connection to a
    controller, with its queue of messages. The connections below (vconn) answer the calls;
    what they answer is an argument. *)
From S2P Require Import Prelude State.
Open Scope Z_scope.
Open Scope prog_scope.

(** * Saturating arithmetic (lib/sat-math.h) *)

Definition UINT_MAX : Z := 2 ^ 32 - 1.
Definition sat_add (x y : Z) : Z := if x <=? u32 (x + y) then u32 (x + y) else UINT_MAX.
Definition sat_sub (x y : Z) : Z := if y <=? x then u32 (x - y) else 0.
Definition sat_mul (x y : Z) : Z :=
  if y =? 0 then 0 else if x <=? UINT_MAX / y then u32 (x * y) else UINT_MAX.

Module Rconn.

(** * State *)

Inductive rstate := S_VOID | S_BACKOFF | S_CONNECTING | S_ACTIVE | S_IDLE.

#[global] Instance rstate_eq_dec : EqDecision rstate.
Proof. solve_decision. Defined.

(** A connection below, and the counter of packets in flight of a client. *)
Abbreviation vref := positive.
Abbreviation cref := positive.

(** A packet in the queue, with the counter it is counted in. *)
Record packet := Pkt { bytes : list Z; private_p : option cref }.

(** [struct rconn] *)
Record rconn := RC {
  state : rstate;
  state_entered : Z;
  vconn : option vref;
  name : string;
  reliable : bool;
  txq : list packet;
  backoff : Z;
  max_backoff : Z;
  backoff_deadline : Z;
  last_received : Z;
  last_connected : Z;
  packets_sent : Z;
  seqno : Z;
  probably_admitted : bool;
  last_admitted : Z;
  packets_received : Z;
  n_attempted_connections : Z;
  n_successful_connections : Z;
  creation_time : Z;
  total_time_connected : Z;
  questionable_connectivity : bool;
  last_questioned : Z;
  probe_interval : Z;
  monitors : list vref;
  idle_echo_xid : Z }.
Definition set_state (v : rstate) (r : rconn) : rconn :=
  RC v (state_entered r) (vconn r) (name r) (reliable r) (txq r) (backoff r) (max_backoff r)
    (backoff_deadline r) (last_received r) (last_connected r) (packets_sent r) (seqno r)
    (probably_admitted r) (last_admitted r) (packets_received r) (n_attempted_connections r)
    (n_successful_connections r) (creation_time r) (total_time_connected r) (questionable_connectivity r)
    (last_questioned r) (probe_interval r) (monitors r) (idle_echo_xid r).
Definition set_state_entered (v : Z) (r : rconn) : rconn :=
  RC (state r) v (vconn r) (name r) (reliable r) (txq r) (backoff r) (max_backoff r) (backoff_deadline r)
    (last_received r) (last_connected r) (packets_sent r) (seqno r) (probably_admitted r)
    (last_admitted r) (packets_received r) (n_attempted_connections r) (n_successful_connections r)
    (creation_time r) (total_time_connected r) (questionable_connectivity r) (last_questioned r)
    (probe_interval r) (monitors r) (idle_echo_xid r).
Definition set_vconn (v : option vref) (r : rconn) : rconn :=
  RC (state r) (state_entered r) v (name r) (reliable r) (txq r) (backoff r) (max_backoff r)
    (backoff_deadline r) (last_received r) (last_connected r) (packets_sent r) (seqno r)
    (probably_admitted r) (last_admitted r) (packets_received r) (n_attempted_connections r)
    (n_successful_connections r) (creation_time r) (total_time_connected r) (questionable_connectivity r)
    (last_questioned r) (probe_interval r) (monitors r) (idle_echo_xid r).
Definition set_name (v : string) (r : rconn) : rconn :=
  RC (state r) (state_entered r) (vconn r) v (reliable r) (txq r) (backoff r) (max_backoff r)
    (backoff_deadline r) (last_received r) (last_connected r) (packets_sent r) (seqno r)
    (probably_admitted r) (last_admitted r) (packets_received r) (n_attempted_connections r)
    (n_successful_connections r) (creation_time r) (total_time_connected r) (questionable_connectivity r)
    (last_questioned r) (probe_interval r) (monitors r) (idle_echo_xid r).
Definition set_reliable (v : bool) (r : rconn) : rconn :=
  RC (state r) (state_entered r) (vconn r) (name r) v (txq r) (backoff r) (max_backoff r)
    (backoff_deadline r) (last_received r) (last_connected r) (packets_sent r) (seqno r)
    (probably_admitted r) (last_admitted r) (packets_received r) (n_attempted_connections r)
    (n_successful_connections r) (creation_time r) (total_time_connected r) (questionable_connectivity r)
    (last_questioned r) (probe_interval r) (monitors r) (idle_echo_xid r).
Definition set_txq (v : list packet) (r : rconn) : rconn :=
  RC (state r) (state_entered r) (vconn r) (name r) (reliable r) v (backoff r) (max_backoff r)
    (backoff_deadline r) (last_received r) (last_connected r) (packets_sent r) (seqno r)
    (probably_admitted r) (last_admitted r) (packets_received r) (n_attempted_connections r)
    (n_successful_connections r) (creation_time r) (total_time_connected r) (questionable_connectivity r)
    (last_questioned r) (probe_interval r) (monitors r) (idle_echo_xid r).
Definition set_backoff (v : Z) (r : rconn) : rconn :=
  RC (state r) (state_entered r) (vconn r) (name r) (reliable r) (txq r) v (max_backoff r)
    (backoff_deadline r) (last_received r) (last_connected r) (packets_sent r) (seqno r)
    (probably_admitted r) (last_admitted r) (packets_received r) (n_attempted_connections r)
    (n_successful_connections r) (creation_time r) (total_time_connected r) (questionable_connectivity r)
    (last_questioned r) (probe_interval r) (monitors r) (idle_echo_xid r).
Definition set_max_backoff (v : Z) (r : rconn) : rconn :=
  RC (state r) (state_entered r) (vconn r) (name r) (reliable r) (txq r) (backoff r) v
    (backoff_deadline r) (last_received r) (last_connected r) (packets_sent r) (seqno r)
    (probably_admitted r) (last_admitted r) (packets_received r) (n_attempted_connections r)
    (n_successful_connections r) (creation_time r) (total_time_connected r) (questionable_connectivity r)
    (last_questioned r) (probe_interval r) (monitors r) (idle_echo_xid r).
Definition set_backoff_deadline (v : Z) (r : rconn) : rconn :=
  RC (state r) (state_entered r) (vconn r) (name r) (reliable r) (txq r) (backoff r) (max_backoff r) v
    (last_received r) (last_connected r) (packets_sent r) (seqno r) (probably_admitted r)
    (last_admitted r) (packets_received r) (n_attempted_connections r) (n_successful_connections r)
    (creation_time r) (total_time_connected r) (questionable_connectivity r) (last_questioned r)
    (probe_interval r) (monitors r) (idle_echo_xid r).
Definition set_last_received (v : Z) (r : rconn) : rconn :=
  RC (state r) (state_entered r) (vconn r) (name r) (reliable r) (txq r) (backoff r) (max_backoff r)
    (backoff_deadline r) v (last_connected r) (packets_sent r) (seqno r) (probably_admitted r)
    (last_admitted r) (packets_received r) (n_attempted_connections r) (n_successful_connections r)
    (creation_time r) (total_time_connected r) (questionable_connectivity r) (last_questioned r)
    (probe_interval r) (monitors r) (idle_echo_xid r).
Definition set_last_connected (v : Z) (r : rconn) : rconn :=
  RC (state r) (state_entered r) (vconn r) (name r) (reliable r) (txq r) (backoff r) (max_backoff r)
    (backoff_deadline r) (last_received r) v (packets_sent r) (seqno r) (probably_admitted r)
    (last_admitted r) (packets_received r) (n_attempted_connections r) (n_successful_connections r)
    (creation_time r) (total_time_connected r) (questionable_connectivity r) (last_questioned r)
    (probe_interval r) (monitors r) (idle_echo_xid r).
Definition set_packets_sent (v : Z) (r : rconn) : rconn :=
  RC (state r) (state_entered r) (vconn r) (name r) (reliable r) (txq r) (backoff r) (max_backoff r)
    (backoff_deadline r) (last_received r) (last_connected r) v (seqno r) (probably_admitted r)
    (last_admitted r) (packets_received r) (n_attempted_connections r) (n_successful_connections r)
    (creation_time r) (total_time_connected r) (questionable_connectivity r) (last_questioned r)
    (probe_interval r) (monitors r) (idle_echo_xid r).
Definition set_seqno (v : Z) (r : rconn) : rconn :=
  RC (state r) (state_entered r) (vconn r) (name r) (reliable r) (txq r) (backoff r) (max_backoff r)
    (backoff_deadline r) (last_received r) (last_connected r) (packets_sent r) v (probably_admitted r)
    (last_admitted r) (packets_received r) (n_attempted_connections r) (n_successful_connections r)
    (creation_time r) (total_time_connected r) (questionable_connectivity r) (last_questioned r)
    (probe_interval r) (monitors r) (idle_echo_xid r).
Definition set_probably_admitted (v : bool) (r : rconn) : rconn :=
  RC (state r) (state_entered r) (vconn r) (name r) (reliable r) (txq r) (backoff r) (max_backoff r)
    (backoff_deadline r) (last_received r) (last_connected r) (packets_sent r) (seqno r) v
    (last_admitted r) (packets_received r) (n_attempted_connections r) (n_successful_connections r)
    (creation_time r) (total_time_connected r) (questionable_connectivity r) (last_questioned r)
    (probe_interval r) (monitors r) (idle_echo_xid r).
Definition set_last_admitted (v : Z) (r : rconn) : rconn :=
  RC (state r) (state_entered r) (vconn r) (name r) (reliable r) (txq r) (backoff r) (max_backoff r)
    (backoff_deadline r) (last_received r) (last_connected r) (packets_sent r) (seqno r)
    (probably_admitted r) v (packets_received r) (n_attempted_connections r) (n_successful_connections r)
    (creation_time r) (total_time_connected r) (questionable_connectivity r) (last_questioned r)
    (probe_interval r) (monitors r) (idle_echo_xid r).
Definition set_packets_received (v : Z) (r : rconn) : rconn :=
  RC (state r) (state_entered r) (vconn r) (name r) (reliable r) (txq r) (backoff r) (max_backoff r)
    (backoff_deadline r) (last_received r) (last_connected r) (packets_sent r) (seqno r)
    (probably_admitted r) (last_admitted r) v (n_attempted_connections r) (n_successful_connections r)
    (creation_time r) (total_time_connected r) (questionable_connectivity r) (last_questioned r)
    (probe_interval r) (monitors r) (idle_echo_xid r).
Definition set_n_attempted_connections (v : Z) (r : rconn) : rconn :=
  RC (state r) (state_entered r) (vconn r) (name r) (reliable r) (txq r) (backoff r) (max_backoff r)
    (backoff_deadline r) (last_received r) (last_connected r) (packets_sent r) (seqno r)
    (probably_admitted r) (last_admitted r) (packets_received r) v (n_successful_connections r)
    (creation_time r) (total_time_connected r) (questionable_connectivity r) (last_questioned r)
    (probe_interval r) (monitors r) (idle_echo_xid r).
Definition set_n_successful_connections (v : Z) (r : rconn) : rconn :=
  RC (state r) (state_entered r) (vconn r) (name r) (reliable r) (txq r) (backoff r) (max_backoff r)
    (backoff_deadline r) (last_received r) (last_connected r) (packets_sent r) (seqno r)
    (probably_admitted r) (last_admitted r) (packets_received r) (n_attempted_connections r) v
    (creation_time r) (total_time_connected r) (questionable_connectivity r) (last_questioned r)
    (probe_interval r) (monitors r) (idle_echo_xid r).
Definition set_creation_time (v : Z) (r : rconn) : rconn :=
  RC (state r) (state_entered r) (vconn r) (name r) (reliable r) (txq r) (backoff r) (max_backoff r)
    (backoff_deadline r) (last_received r) (last_connected r) (packets_sent r) (seqno r)
    (probably_admitted r) (last_admitted r) (packets_received r) (n_attempted_connections r)
    (n_successful_connections r) v (total_time_connected r) (questionable_connectivity r)
    (last_questioned r) (probe_interval r) (monitors r) (idle_echo_xid r).
Definition set_total_time_connected (v : Z) (r : rconn) : rconn :=
  RC (state r) (state_entered r) (vconn r) (name r) (reliable r) (txq r) (backoff r) (max_backoff r)
    (backoff_deadline r) (last_received r) (last_connected r) (packets_sent r) (seqno r)
    (probably_admitted r) (last_admitted r) (packets_received r) (n_attempted_connections r)
    (n_successful_connections r) (creation_time r) v (questionable_connectivity r) (last_questioned r)
    (probe_interval r) (monitors r) (idle_echo_xid r).
Definition set_questionable_connectivity (v : bool) (r : rconn) : rconn :=
  RC (state r) (state_entered r) (vconn r) (name r) (reliable r) (txq r) (backoff r) (max_backoff r)
    (backoff_deadline r) (last_received r) (last_connected r) (packets_sent r) (seqno r)
    (probably_admitted r) (last_admitted r) (packets_received r) (n_attempted_connections r)
    (n_successful_connections r) (creation_time r) (total_time_connected r) v (last_questioned r)
    (probe_interval r) (monitors r) (idle_echo_xid r).
Definition set_last_questioned (v : Z) (r : rconn) : rconn :=
  RC (state r) (state_entered r) (vconn r) (name r) (reliable r) (txq r) (backoff r) (max_backoff r)
    (backoff_deadline r) (last_received r) (last_connected r) (packets_sent r) (seqno r)
    (probably_admitted r) (last_admitted r) (packets_received r) (n_attempted_connections r)
    (n_successful_connections r) (creation_time r) (total_time_connected r) (questionable_connectivity r)
    v (probe_interval r) (monitors r) (idle_echo_xid r).
Definition set_probe_interval (v : Z) (r : rconn) : rconn :=
  RC (state r) (state_entered r) (vconn r) (name r) (reliable r) (txq r) (backoff r) (max_backoff r)
    (backoff_deadline r) (last_received r) (last_connected r) (packets_sent r) (seqno r)
    (probably_admitted r) (last_admitted r) (packets_received r) (n_attempted_connections r)
    (n_successful_connections r) (creation_time r) (total_time_connected r) (questionable_connectivity r)
    (last_questioned r) v (monitors r) (idle_echo_xid r).
Definition set_monitors (v : list vref) (r : rconn) : rconn :=
  RC (state r) (state_entered r) (vconn r) (name r) (reliable r) (txq r) (backoff r) (max_backoff r)
    (backoff_deadline r) (last_received r) (last_connected r) (packets_sent r) (seqno r)
    (probably_admitted r) (last_admitted r) (packets_received r) (n_attempted_connections r)
    (n_successful_connections r) (creation_time r) (total_time_connected r) (questionable_connectivity r)
    (last_questioned r) (probe_interval r) v (idle_echo_xid r).
Definition set_idle_echo_xid (v : Z) (r : rconn) : rconn :=
  RC (state r) (state_entered r) (vconn r) (name r) (reliable r) (txq r) (backoff r) (max_backoff r)
    (backoff_deadline r) (last_received r) (last_connected r) (packets_sent r) (seqno r)
    (probably_admitted r) (last_admitted r) (packets_received r) (n_attempted_connections r)
    (n_successful_connections r) (creation_time r) (total_time_connected r) (questionable_connectivity r)
    (last_questioned r) (probe_interval r) (monitors r) v.

Definition TIME_MAX : Z := 2 ^ 63 - 1.
Definition TIME_MIN : Z := - 2 ^ 63.
Definition EAGAIN : Z := 11.
Definition ENOTCONN : Z := 107.

(** The calls to connections, with the results that matter. *)
Inductive vcall :=
  | VOpen (name : string) (err : Z) | VConnect (v : vref) (err : Z) | VSend (v : vref) (bs : list Z) (err : Z)
  | VRecv (v : vref) (err : Z) | VClose (v : vref).

(** What the connections answer, given the calls before. *)
Class Vconn := {
  open_result : list vcall -> string -> Z * vref * bool;
  connect_result : list vcall -> vref -> Z;
  send_result : list vcall -> vref -> list Z -> Z;
  recv_result : list vcall -> vref -> Z * list Z;
  random_uint32 : list vcall -> Z }.

(** A reliable connection with the counters of its clients, the calls so far and the time. *)
Record link := Link { rc : rconn; counters : gmap cref Z; calls : list vcall; now : Z }.

Definition with_rc (f : rconn -> rconn) (l : link) : link := Link (f (rc l)) (counters l) (calls l) (now l).
Definition with_call (c : vcall) (l : link) : link := Link (rc l) (counters l) (calls l ++ [c]) (now l).
(** [++*n_queued] and [--*n_queued], when there is a counter. *)
Definition count (c : option cref) (d : Z) (l : link) : link :=
  match c with
  | Some c => Link (rc l) (<[c := (counters l !!! c) + d]> (counters l)) (calls l) (now l)
  | None => l
  end.

Definition upd (f : rconn -> rconn) : prog link unit := pmod (with_rc f).
Definition the {A} (f : rconn -> A) : prog link A := pget (fun l => f (rc l)).

Section rconn.
Context `{!Vconn}.

(** * Calls to the connection *)

Definition vconn_close (v : option vref) : prog link unit :=
  match v with Some v => pmod (with_call (VClose v)) | None => pret tt end.
(** A call through a NULL pointer fails. *)
Definition vconn_send (v : option vref) (bs : list Z) : prog link Z :=
  v <- plift v;; e <- pget (fun l => send_result (calls l) v bs);; pmod (with_call (VSend v bs e));;; pret e.
Definition vconn_connect (v : option vref) : prog link Z :=
  v <- plift v;; e <- pget (fun l => connect_result (calls l) v);; pmod (with_call (VConnect v e));;; pret e.
Definition vconn_recv (v : option vref) : prog link (Z * list Z) :=
  v <- plift v;; r <- pget (fun l => recv_result (calls l) v);; pmod (with_call (VRecv v (fst r)));;; pret r.
Definition vconn_open (nm : string) : prog link (Z * option vref * bool) :=
  r <- pget (fun l => open_result (calls l) nm);;
  let '(e, v, reconnectable) := r in
  pmod (with_call (VOpen nm e));;;
  pret (e, if e =? 0 then Some v else None, reconnectable).

(** * Time *)

Definition is_connected_state (s : rstate) : bool :=
  match s with S_ACTIVE | S_IDLE => true | _ => false end.
Definition rconn_is_connected (r : rconn) : bool := is_connected_state (state r).
Definition rconn_is_alive (r : rconn) : bool := negb (bool_decide (state r = S_VOID)).

Definition elapsed_in_this_state (t : Z) (r : rconn) : Z := u32 (t - state_entered r).

Definition timeout_BACKOFF (r : rconn) : Z := u32 (backoff r).
Definition timeout_CONNECTING (r : rconn) : Z := u32 (Z.max 1 (backoff r)).
Definition timeout_ACTIVE (r : rconn) : Z :=
  if negb (probe_interval r =? 0) then
    let base := u32 (Z.max (last_received r) (state_entered r)) in
    u32 (u32 (base + probe_interval r) - state_entered r)
  else UINT_MAX.
Definition timeout_IDLE (r : rconn) : Z := u32 (probe_interval r).

Definition timeout (r : rconn) : Z :=
  match state r with
  | S_VOID => UINT_MAX
  | S_BACKOFF => timeout_BACKOFF r
  | S_CONNECTING => timeout_CONNECTING r
  | S_ACTIVE => timeout_ACTIVE r
  | S_IDLE => timeout_IDLE r
  end.

Definition timed_out (t : Z) (r : rconn) : bool := sat_add (u32 (state_entered r)) (timeout r) <=? t.

(** * Transitions *)

Definition enter (t : Z) (s : rstate) (r : rconn) : rconn :=
  let r := set_seqno (u32 (seqno r + (if Bool.eqb (bool_decide (state r = S_ACTIVE)) (bool_decide (s = S_ACTIVE)) then 0 else 1))) r in
  let r := if is_connected_state s && negb (is_connected_state (state r)) then set_probably_admitted false r else r in
  let r := if rconn_is_connected r
           then set_total_time_connected (u64 (total_time_connected r + elapsed_in_this_state t r)) r else r in
  set_state_entered t (set_state s r).

Definition state_transition (s : rstate) : prog link unit := t <- pget now;; upd (enter t s).

Definition question (t : Z) (r : rconn) : rconn :=
  if 60 <? t - last_questioned r then set_last_questioned t (set_questionable_connectivity true r) else r.
Definition question_connectivity : prog link unit := t <- pget now;; upd (question t).

(** [flush_queue]: every packet is counted out. *)
Definition flush_queue : prog link unit :=
  pmod (fun l => with_rc (set_txq []) (fold_left (fun l p => count (private_p p) (-1) l) (txq (rc l)) l)).

Definition rconn_disconnect : prog link unit :=
  s <- the state;;
  if bool_decide (s = S_VOID) then pret tt
  else
    v <- the vconn;;
    vconn_close v;;;
    upd (fun r => set_backoff_deadline TIME_MIN (set_backoff 0 (set_reliable false (set_name "void" (set_vconn None r)))));;;
    state_transition S_VOID.

(** The wait before the next attempt. *)
Definition back_off (t : Z) (r : rconn) : rconn :=
  let r := set_backoff (if backoff_deadline r <=? t then 1 else Z.min (max_backoff r) (Z.max 1 (2 * backoff r))) r in
  set_backoff_deadline (t + backoff r) r.

Definition disconnect : prog link unit :=
  rel <- the reliable;;
  if (rel : bool) then
    t <- pget now;; s <- the state;;
    pwhen (match s with S_CONNECTING | S_ACTIVE | S_IDLE => true | _ => false end)
      (v <- the vconn;; vconn_close v;;; upd (set_vconn None);;; flush_queue);;;
    upd (back_off t);;;
    state_transition S_BACKOFF;;;
    last <- the last_connected;;
    pwhen (60 <? t - last) question_connectivity
  else rconn_disconnect.

Definition reconnect : prog link Z :=
  upd (fun r => set_n_attempted_connections (u32 (n_attempted_connections r + 1)) r);;;
  nm <- the name;; t <- pget now;;
  '(e, v, reconnectable) <- vconn_open nm;;
  upd (set_vconn v);;;
  (if e =? 0 then
     upd (fun r => set_backoff_deadline (t + backoff r) (if (reconnectable : bool) then r else set_reliable false r));;;
     state_transition S_CONNECTING
   else upd (set_backoff_deadline TIME_MAX);;; disconnect);;;
  pret e.

(** * Sending *)

(** [h->xid], as it is read from the packet. *)
Definition xid_of (bs : list Z) : Z := le_load (take 4 (drop 4 bs)).

Definition try_send : prog link Z :=
  q <- the txq;;
  match q with
  | [] => pfail
  | p :: rest =>
      v <- the vconn;;
      upd (set_idle_echo_xid (xid_of (bytes p)));;;
      e <- vconn_send v (bytes p);;
      if negb (e =? 0) then
        upd (set_idle_echo_xid 0);;;
        pwhen (negb (e =? EAGAIN)) disconnect;;;
        pret e
      else
        upd (fun r => set_packets_sent (u32 (packets_sent r + 1)) r);;;
        pmod (count (private_p p) (-1));;;
        upd (set_txq rest);;;
        pret 0
  end.

(** The loop of [do_tx_work]; every packet that is sent makes the queue shorter. *)
Fixpoint tx_loop (n : nat) : prog link unit :=
  match n with
  | O => pret tt
  | S n =>
      q <- the txq;;
      match q with
      | [] => pret tt
      | _ => e <- try_send;; if negb (e =? 0) then pret tt else tx_loop n
      end
  end.
Definition do_tx_work : prog link unit := q <- the txq;; tx_loop (length q).

(** The loop of [copy_to_monitor] over the monitors from the [i]-th on: one that fails is
    replaced by the last. *)
Fixpoint monitor_loop (fuel : nat) (i : nat) (bs : list Z) : prog link unit :=
  match fuel with
  | O => pret tt
  | S fuel =>
      ms <- the monitors;;
      match ms !! i with
      | None => pret tt
      | Some v =>
          e <- vconn_send (Some v) bs;;
          if (e =? 0) || (e =? EAGAIN) then monitor_loop fuel (S i) bs
          else
            let m := (length ms - 1)%nat in
            upd (set_monitors (take m (<[i := nth m ms v]> ms)));;; monitor_loop fuel i bs
      end
  end.
Definition copy_to_monitor (bs : list Z) : prog link unit := ms <- the monitors;; monitor_loop (length ms) 0 bs.

Definition rconn_send (bs : list Z) (n_queued : option cref) : prog link Z :=
  r <- the (fun r => r);;
  if rconn_is_connected r then
    copy_to_monitor bs;;;
    pmod (count n_queued 1);;;
    upd (fun r => set_txq (txq r ++ [Pkt bs n_queued]) r);;;
    q <- the txq;;
    (if (length q =? 1)%nat then _ <- try_send;; pret tt else pret tt);;;
    pret 0
  else pret ENOTCONN.

Definition rconn_send_with_limit (bs : list Z) (n_queued : cref) (queue_limit : Z) : prog link Z :=
  n <- pget (fun l => counters l !!! n_queued);;
  if queue_limit <=? n then pret EAGAIN else rconn_send bs (Some n_queued).

(** * Running *)

Definition OFP_VERSION : Z := 4.
Definition OFPT_ECHO_REQUEST : Z := 2.
Definition OFPT_ECHO_REPLY : Z := 3.

Definition make_echo_request (xid : Z) : list Z := [OFP_VERSION; OFPT_ECHO_REQUEST; 0; 8] ++ le_store 4 xid.

Definition run_BACKOFF : prog link unit :=
  t <- pget now;; r <- the (fun r => r);;
  if timed_out t r then _ <- reconnect;; pret tt else pret tt.

Definition run_CONNECTING : prog link unit :=
  v <- the vconn;; e <- vconn_connect v;;
  if e =? 0 then
    upd (fun r => set_n_successful_connections (u32 (n_successful_connections r + 1)) r);;;
    state_transition S_ACTIVE;;;
    upd (fun r => set_last_connected (state_entered r) r)
  else if negb (e =? EAGAIN) then disconnect
  else
    t <- pget now;; r <- the (fun r => r);;
    if timed_out t r then upd (set_backoff_deadline TIME_MAX);;; disconnect else pret tt.

Definition run_ACTIVE : prog link unit :=
  t <- pget now;; r <- the (fun r => r);;
  if timed_out t r then
    state_transition S_IDLE;;;
    x <- pget (fun l => random_uint32 (calls l));;
    _ <- rconn_send (make_echo_request x) None;; pret tt
  else do_tx_work.

Definition run_IDLE : prog link unit :=
  t <- pget now;; r <- the (fun r => r);;
  if timed_out t r then question_connectivity;;; disconnect else do_tx_work.

Definition run_state : prog link unit :=
  s <- the state;;
  match s with
  | S_VOID => pret tt
  | S_BACKOFF => run_BACKOFF
  | S_CONNECTING => run_CONNECTING
  | S_ACTIVE => run_ACTIVE
  | S_IDLE => run_IDLE
  end.

(** [rconn_run]: until the state stays. [None] of the result is a loop that has not ended. *)
Fixpoint rconn_run (fuel : nat) : prog link (option unit) :=
  match fuel with
  | O => pret None
  | S fuel =>
      old <- the state;;
      run_state;;;
      new <- the state;;
      if bool_decide (new = old) then pret (Some tt) else rconn_run fuel
  end.

(** * Receiving *)

Definition msg_type (bs : list Z) : Z := nth 1 bs 0.

Definition is_admitted_msg (bs : list Z) : bool :=
  existsb (Z.eqb (msg_type bs)) [0; 2; 3; 4; 5; 7; 9; 11; 13; 14; 15; 16; 17; 18; 20; 22].

(** The end of [rconn_recv]: an answer ends the wait of an idle connection. *)
Definition leave_idle (bs : list Z) : prog link unit :=
  r <- the (fun r => r);;
  pwhen (bool_decide (state r = S_IDLE))
    (if msg_type bs =? OFPT_ECHO_REPLY then
       if idle_echo_xid r =? 0 then state_transition S_ACTIVE
       else pwhen (idle_echo_xid r =? xid_of bs) (state_transition S_ACTIVE);;; upd (set_idle_echo_xid 0)
     else state_transition S_ACTIVE).

Definition rconn_recv : prog link (option (list Z)) :=
  r <- the (fun r => r);;
  if rconn_is_connected r then
    v <- the vconn;; '(e, bs) <- vconn_recv v;;
    if e =? 0 then
      t <- pget now;;
      copy_to_monitor bs;;;
      upd (fun r => if is_admitted_msg bs || (30 <=? t - last_connected r)
                    then set_last_admitted t (set_probably_admitted true r) else r);;;
      upd (fun r => set_packets_received (u32 (packets_received r + 1)) (set_last_received t r));;;
      leave_idle bs;;;
      pret (Some bs)
    else pwhen (negb (e =? EAGAIN)) disconnect;;; pret None
  else pret None.

(** * Connecting *)

Definition rconn_create (t probe max : Z) : rconn :=
  RC S_VOID t None "void" false [] 0 (if max =? 0 then 60 else max) TIME_MIN t t 0 0 false t 0 0 0 t 0 false t
    (if probe =? 0 then 0 else Z.max 1 probe) [] 0.

Definition rconn_connect (nm : string) : prog link Z :=
  rconn_disconnect;;;
  upd (fun r => set_reliable true (set_name nm r));;;
  reconnect.

Definition rconn_connect_unreliably (nm : string) (v : vref) : prog link unit :=
  rconn_disconnect;;;
  t <- pget now;;
  upd (fun r => set_last_connected t (set_vconn (Some v) (set_reliable false (set_name nm r))));;;
  state_transition S_ACTIVE.

Definition rconn_add_monitor (v : vref) : prog link unit :=
  ms <- the monitors;;
  if (length ms <? 8)%nat then upd (set_monitors (ms ++ [v])) else vconn_close (Some v).

(** [rconn_destroy], up to the release of the memory. *)
Definition rconn_destroy : prog link unit :=
  v <- the vconn;; vconn_close v;;; flush_queue;;;
  ms <- the monitors;;
  fold_left (fun c v => c;;; vconn_close (Some v)) ms (pret tt).

Definition rconn_failure_duration (t : Z) (r : rconn) : Z := if rconn_is_connected r then 0 else t - last_admitted r.
Definition rconn_is_connectivity_questionable : prog link bool :=
  q <- the questionable_connectivity;; upd (set_questionable_connectivity false);;; pret q.
Definition rconn_get_total_time_connected (t : Z) (r : rconn) : Z :=
  u64 (total_time_connected r + (if rconn_is_connected r then elapsed_in_this_state t r else 0)).

(** * The invariant *)

(** How many packets of the queue are counted in [c]. *)
Definition queued (c : cref) (q : list packet) : Z :=
  length (filter (fun p => private_p p = Some c) q).
Definition balance (c : cref) (l : link) : Z := counters l !!! c - queued c (txq (rc l)).

(** The numbers are in their ranges at time [t], and the counters of the clients count the
    packets in the queue, up to what they counted elsewhere. *)
Record frame (t : Z) (base : cref -> Z) (l : link) : Prop := {
  fr_now : now l = t;
  fr_time : 0 <= t < 2 ^ 31;
  fr_max : 1 <= max_backoff (rc l) < 2 ^ 30;
  fr_backoff : 0 <= backoff (rc l) <= max_backoff (rc l);
  fr_probe : 0 <= probe_interval (rc l) < 2 ^ 30;
  fr_entered : 0 <= state_entered (rc l) <= t;
  fr_received : 0 <= last_received (rc l) <= t;
  fr_balance c : balance c l = base c }.

(** There is a connection below exactly in the states that use it. *)
Record good (t : Z) (base : cref -> Z) (l : link) : Prop := {
  gd_frame : frame t base l;
  gd_linked : match state (rc l) with S_VOID | S_BACKOFF => vconn (rc l) = None | _ => is_Some (vconn (rc l)) end;
  gd_backoff : state (rc l) = S_BACKOFF -> 1 <= backoff (rc l) /\ reliable (rc l) = true;
  gd_idle : state (rc l) = S_IDLE -> 1 <= probe_interval (rc l) }.

Lemma total_upd (P : link -> Prop) f (Q : unit -> link -> Prop) :
  (forall l, P l -> Q tt (with_rc f l)) -> total P (upd f) Q.
Proof. apply total_mod. Qed.

Lemma total_the {A} (P : link -> Prop) (f : rconn -> A) : total P (the f) (fun x l => x = f (rc l) /\ P l).
Proof. apply total_get. Qed.

Lemma total_close (P : link -> Prop) v : (forall l c, P l -> P (with_call c l)) -> total P (vconn_close v) (fun _ => P).
Proof. intros HP l Hl. destruct v; [| by exists tt, l]. eexists _, _. split; [done |]. by apply HP. Qed.

(** A change that keeps the ranges, the queue and the counters. *)
Lemma frame_rc t base f l :
  frame t base l -> txq (f (rc l)) = txq (rc l) -> 1 <= max_backoff (f (rc l)) < 2 ^ 30 ->
  0 <= backoff (f (rc l)) <= max_backoff (f (rc l)) -> 0 <= probe_interval (f (rc l)) < 2 ^ 30 ->
  0 <= state_entered (f (rc l)) <= t -> 0 <= last_received (f (rc l)) <= t -> frame t base (with_rc f l).
Proof. intros [H1 H2 H3 H4 H5 H6 H7 H8] Hq. split; try done. intros c. unfold balance. cbn. rewrite Hq. apply H8. Qed.

Lemma frame_call t base c l : frame t base l -> frame t base (with_call c l).
Proof. by intros [H1 H2 H3 H4 H5 H6 H7 H8]. Qed.

Lemma enter_keeps t s r :
  state (enter t s r) = s /\ state_entered (enter t s r) = t /\ vconn (enter t s r) = vconn r /\
  backoff (enter t s r) = backoff r /\ reliable (enter t s r) = reliable r /\ txq (enter t s r) = txq r /\
  probe_interval (enter t s r) = probe_interval r /\ last_received (enter t s r) = last_received r /\
  max_backoff (enter t s r) = max_backoff r.
Proof. unfold enter. by repeat case_match. Qed.

Lemma frame_enter t base s l : frame t base l -> frame t base (with_rc (enter t s) l).
Proof.
  intros Hf. pose proof Hf as [H1 H2 H3 H4 H5 H6 H7 H8].
  destruct (enter_keeps t s (rc l)) as (E1 & E2 & E3 & E4 & E5 & E6 & E7 & E8 & E9).
  apply frame_rc; rewrite ?E2, ?E4, ?E6, ?E7, ?E8, ?E9; (done || lia).
Qed.

Lemma total_transition t base s (P : rconn -> Prop) :
  total (fun l => frame t base l /\ P (rc l)) (state_transition s)
    (fun _ l => frame t base l /\ exists r, P r /\ rc l = enter t s r).
Proof.
  unfold state_transition. eapply total_bind; [apply total_get |]. intros t'. apply total_upd.
  intros l [-> [Hf HP]]. rewrite (fr_now _ _ _ Hf). split; [by apply frame_enter |]. by exists (rc l).
Qed.

(** ** Counting *)

Lemma count_rc c d l : rc (count c d l) = rc l.
Proof. by destruct c. Qed.
Lemma count_now c d l : now (count c d l) = now l.
Proof. by destruct c. Qed.

Lemma count_counter c d l c' :
  counters (count c d l) !!! c' = counters l !!! c' + (if decide (c = Some c') then d else 0).
Proof.
  destruct c as [c |]; cbn; [| rewrite decide_False by done; lia].
  destruct (decide (Some c = Some c')) as [[= ->] | Hne].
  - by rewrite lookup_total_insert_eq.
  - rewrite lookup_total_insert_ne by congruence. lia.
Qed.

Lemma queued_cons c p q : queued c (p :: q) = (if decide (private_p p = Some c) then 1 else 0) + queued c q.
Proof. unfold queued. rewrite filter_cons. case_decide; cbn; lia. Qed.

Lemma queued_snoc c p q : queued c (q ++ [p]) = queued c q + (if decide (private_p p = Some c) then 1 else 0).
Proof. unfold queued. rewrite filter_app, length_app, filter_cons. case_decide; cbn; lia. Qed.

Lemma flush_counts q l :
  let l' := fold_left (fun l p => count (private_p p) (-1) l) q l in
  rc l' = rc l /\ now l' = now l /\ forall c, counters l' !!! c = counters l !!! c - queued c q.
Proof.
  revert l. induction q as [| p q IH]; intros l; cbn [fold_left]; [split_and!; [done.. |]; intros c; unfold queued; cbn; lia |].
  destruct (IH (count (private_p p) (-1) l)) as (H1 & H2 & H3). cbv zeta in *. rewrite count_rc in H1. rewrite count_now in H2.
  split_and!; [done.. |]. intros c. rewrite H3, count_counter, queued_cons. case_decide; lia.
Qed.

Lemma total_flush t base (P : rconn -> Prop) :
  (forall r, P r -> P (set_txq [] r)) ->
  total (fun l => frame t base l /\ P (rc l)) flush_queue (fun _ l => frame t base l /\ P (rc l) /\ txq (rc l) = []).
Proof.
  intros HP l [Hf Hl]. eexists tt, _. split; [done |].
  destruct (flush_counts (txq (rc l)) l) as (H1 & H2 & H3). cbv zeta in *. destruct Hf as [F1 F2 F3 F4 F5 F6 F7 F8].
  split; [split |]; cbn; rewrite ?H1, ?H2; try done; [| split; [by apply HP | done]].
  intros c. unfold balance. cbn. rewrite H3. specialize (F8 c). unfold balance, queued in *. cbn. lia.
Qed.

(** ** Disconnecting *)

Definition loose (r : rconn) : Prop :=
  match state r with S_VOID | S_BACKOFF => vconn r = None | _ => True end.

(** Out of use: nothing can happen before some time has passed. *)
Definition at_rest (t : Z) (r : rconn) : Prop :=
  state r = S_VOID \/ state r = S_BACKOFF /\ state_entered r = t.

Lemma good_entered t base l s r :
  frame t base l -> rc l = enter t s r ->
  match s with S_VOID | S_BACKOFF => vconn r = None | _ => is_Some (vconn r) end ->
  (s = S_BACKOFF -> 1 <= backoff r /\ reliable r = true) -> (s = S_IDLE -> 1 <= probe_interval r) ->
  good t base l.
Proof.
  intros Hf Hl Hv Hb Hi. destruct (enter_keeps t s r) as (E1 & E2 & E3 & E4 & E5 & E6 & E7 & E8 & E9).
  split; rewrite ?Hl, ?E1, ?E3, ?E4, ?E5, ?E7; done.
Qed.

Lemma total_rconn_disconnect t base :
  total (fun l => frame t base l /\ (state (rc l) = S_VOID -> vconn (rc l) = None)) rconn_disconnect
    (fun _ l => good t base l /\ state (rc l) = S_VOID).
Proof.
  unfold rconn_disconnect. eapply total_bind; [apply total_the |]. intros s.
  destruct (bool_decide_reflect (s = S_VOID)) as [-> | Hne].
  - intros l [Hs [Hf Hv]]. exists tt, l. split; [done |]. symmetry in Hs.
    split; [| done]. split; [done | rewrite Hs; auto | by rewrite Hs | by rewrite Hs].
  - eapply total_bind; [apply total_the |]. intros v.
    apply total_bind with (R := fun _ => frame t base).
    + eapply total_conseq; [| | apply (total_close (frame t base))]; [by intros l (_ & _ & Hf & _) | done |].
      intros; by apply frame_call.
    + intros []. eapply total_bind; [apply total_upd with (Q := fun _ l => frame t base l /\ vconn (rc l) = None) |].
      * intros l Hf. split; [| done]. pose proof Hf as []. apply frame_rc; cbn; (done || lia).
      * intros []. eapply total_conseq; [| | apply (total_transition t base S_VOID (fun r => vconn r = None))]; [done |].
        intros [] l (Hf & r & Hr & Hl). split; [by eapply good_entered | by rewrite Hl; apply enter_keeps].
Qed.

Lemma question_keeps t r :
  state (question t r) = state r /\ state_entered (question t r) = state_entered r /\ vconn (question t r) = vconn r /\
  backoff (question t r) = backoff r /\ reliable (question t r) = reliable r /\ txq (question t r) = txq r /\
  probe_interval (question t r) = probe_interval r /\ last_received (question t r) = last_received r /\
  max_backoff (question t r) = max_backoff r.
Proof. unfold question. by case_match. Qed.

(** Good, and settled or not, but for a change of other fields. *)
Lemma good_same t base f l :
  good t base l ->
  state (f (rc l)) = state (rc l) /\ state_entered (f (rc l)) = state_entered (rc l) /\ vconn (f (rc l)) = vconn (rc l) /\
  backoff (f (rc l)) = backoff (rc l) /\ reliable (f (rc l)) = reliable (rc l) /\ txq (f (rc l)) = txq (rc l) /\
  probe_interval (f (rc l)) = probe_interval (rc l) /\ last_received (f (rc l)) = last_received (rc l) /\
  max_backoff (f (rc l)) = max_backoff (rc l) ->
  good t base (with_rc f l).
Proof.
  intros [Hf Hl Hb Hi] (E1 & E2 & E3 & E4 & E5 & E6 & E7 & E8 & E9). pose proof Hf as [].
  split; cbn; rewrite ?E1, ?E3, ?E4, ?E5, ?E7; try done.
  apply frame_rc; rewrite ?E2, ?E4, ?E6, ?E7, ?E8, ?E9; done.
Qed.

Lemma back_off_spec t r :
  0 <= t < 2 ^ 31 -> 1 <= max_backoff r < 2 ^ 30 -> 0 <= backoff r <= max_backoff r ->
  1 <= backoff (back_off t r) <= max_backoff r.
Proof. intros. unfold back_off. cbn. destruct (_ <=? _); lia. Qed.

Lemma total_disconnect t base :
  total (fun l => frame t base l /\ loose (rc l)) disconnect (fun _ l => good t base l /\ at_rest t (rc l)).
Proof.
  unfold disconnect. eapply total_bind; [apply total_the |]. intros rel. destruct rel.
  2: { eapply total_conseq; [| | apply (total_rconn_disconnect t base)].
       - intros l (_ & Hf & Hl). split; [done |]. intros Hs. unfold loose in Hl. by rewrite Hs in Hl.
       - intros [] l [Hg Hs]. split; [done | by left]. }
  eapply total_bind; [apply total_get |]. intros t'. eapply total_bind; [apply total_the |]. intros s.
  eapply total_bind; [apply total_when with (Q := fun _ l => t' = t /\ frame t base l /\ vconn (rc l) = None /\ reliable (rc l) = true) |].
  - intros _. eapply total_bind; [apply total_the |]. intros v.
    apply total_bind with (R := fun _ l => t' = t /\ frame t base l /\ reliable (rc l) = true).
    + eapply total_conseq; [| | apply (total_close (fun l => t' = t /\ frame t base l /\ reliable (rc l) = true))];
        [| done |].
      * intros l (_ & _ & -> & Hrel & Hf & _). split; [apply Hf | done].
      * intros l c (? & ? & ?). split_and!; [done | by apply frame_call | done].
    + intros []. eapply total_bind; [apply total_upd with (Q := fun _ l => frame t base l /\ (t' = t /\ vconn (rc l) = None /\ reliable (rc l) = true)) |].
      * intros l (? & Hf & ?). split; [| done]. pose proof Hf as []. apply frame_rc; cbn; (done || lia).
      * intros []. eapply total_conseq; [| | apply (total_flush t base (fun r => t' = t /\ vconn r = None /\ reliable r = true))];
          [done | by intros [] l (? & (? & ? & ?) & _) | done].
  - intros Hs l (-> & -> & Hrel & Hf & Hl). split; [apply Hf |]. split; [done |]. split; [| done].
    unfold loose in Hl. by destruct (state (rc l)).
  - intros []. eapply total_bind; [apply total_upd with (Q := fun _ l => frame t base l /\ (vconn (rc l) = None /\
      reliable (rc l) = true /\ 1 <= backoff (rc l))) |].
    + intros l (-> & Hf & Hv & Hrel). pose proof Hf as []. pose proof (back_off_spec t (rc l) fr_time0 fr_max0 fr_backoff0).
      unfold back_off in *. cbn in *. split; [apply frame_rc; cbn; (done || lia) | split_and!; [done.. | cbn; lia]].
    + intros []. eapply total_bind; [apply (total_transition t base S_BACKOFF (fun r => vconn r = None /\ reliable r = true /\ 1 <= backoff r)) |].
      intros []. eapply total_bind; [apply total_the |]. intros last.
      assert (Hend : forall l, (frame t base l /\ exists r, (vconn r = None /\ reliable r = true /\ 1 <= backoff r) /\
        rc l = enter t S_BACKOFF r) -> good t base l /\ at_rest t (rc l)).
      { intros l (Hf & r & (Hv & Hrel & Hb) & Hl). split; [by eapply good_entered |]. right. rewrite Hl. split; apply enter_keeps. }
      apply total_when; [intros _ | intros _ l [_ Hl]; by apply Hend].
      unfold question_connectivity. eapply total_bind; [apply total_get |]. intros t2. apply total_upd.
      intros l (_ & _ & Hl). apply Hend in Hl as [Hg Hr]. split; [by apply good_same; [| apply question_keeps] |].
      unfold at_rest in *. cbn. destruct (question_keeps t2 (rc l)) as (-> & -> & _). done.
Qed.

(** ** Connecting *)

Definition fresh_in (t : Z) (s : rstate) (r : rconn) : Prop := state r = s /\ state_entered r = t.

Lemma total_reconnect t base :
  total (fun l => frame t base l /\ (state (rc l) = S_VOID \/ state (rc l) = S_BACKOFF)) reconnect
    (fun _ l => good t base l /\ (at_rest t (rc l) \/ fresh_in t S_CONNECTING (rc l))).
Proof.
  unfold reconnect. set (I := fun l => frame t base l /\ (state (rc l) = S_VOID \/ state (rc l) = S_BACKOFF)).
  eapply total_bind; [apply total_upd with (Q := fun _ => I) |].
  { intros l [Hf Hs]. split; [| done]. pose proof Hf as []. by apply frame_rc. }
  intros []. eapply total_bind; [apply total_the |]. intros nm. eapply total_bind; [apply total_get |]. intros t'.
  apply total_bind with (R := fun x l => I l /\ match x with (e, v, _) => if e =? 0 then is_Some v else v = None end).
  { intros l (_ & _ & Hf & Hs). unfold vconn_open, pbind, pget, pmod, pret.
    destruct (open_result (calls l) nm) as [[e v] re]. eexists _, _. split; [done |].
    split; [split; [by apply frame_call | done] |]. by destruct (e =? 0). }
  intros [[e v] re]. eapply total_bind; [apply total_upd with (Q := fun _ l => I l /\
    if e =? 0 then is_Some (vconn (rc l)) else vconn (rc l) = None) |].
  { intros l [[Hf Hs] Hv]. split; [| done]. split; [| done]. pose proof Hf as []. by apply frame_rc. }
  intros []. apply total_bind with (R := fun _ l => good t base l /\ (at_rest t (rc l) \/ fresh_in t S_CONNECTING (rc l)));
    [| intros []; intros l Hl; by exists e, l].
  destruct (e =? 0).
  - eapply total_bind; [apply total_upd with (Q := fun _ l => frame t base l /\ is_Some (vconn (rc l))) |].
    + intros l [[Hf Hs] Hv]. pose proof Hf as []. split; [| by destruct re]. apply frame_rc; cbn; by destruct re.
    + intros []. eapply total_conseq; [| | apply (total_transition t base S_CONNECTING (fun r => is_Some (vconn r)))]; [done |].
      intros [] l (Hf & r & Hr & Hl). split; [by eapply good_entered |]. right. rewrite Hl. split; apply enter_keeps.
  - eapply total_bind; [apply total_upd with (Q := fun _ l => frame t base l /\ loose (rc l)) |].
    + intros l [[Hf Hs] Hv]. pose proof Hf as []. split; [by apply frame_rc |]. unfold loose. cbn. by destruct (state (rc l)).
    + intros []. eapply total_conseq; [| | apply (total_disconnect t base)]; [done |]. intros [] l [? ?]. split; [done | by left].
Qed.

(** ** Sending *)

(** The state is kept, or the connection is lost. *)
Definition stays (t : Z) (s : rstate) (l : link) : Prop := at_rest t (rc l) \/ state (rc l) = s.

Lemma total_try_send t base s :
  is_connected_state s = true ->
  total (fun l => good t base l /\ state (rc l) = s /\ txq (rc l) <> []) try_send
    (fun e l => good t base l /\ stays t s l /\ (e = 0 -> state (rc l) = s)).
Proof.
  intros Hs l (Hg & Hst & Hq). unfold try_send, upd, the, pbind, pget, pmod, pret.
  destruct (txq (rc l)) as [| p rest] eqn:Eq; [done |].
  pose proof (gd_linked _ _ _ Hg) as Hv. rewrite Hst in Hv.
  assert (exists v, vconn (rc l) = Some v) as [v Ev] by (destruct s; [done.. | exact Hv | exact Hv]).
  unfold vconn_send, plift, pbind, pget, pmod, pret. rewrite Ev. cbn [with_rc with_call calls].
  set (l1 := with_rc (set_idle_echo_xid (xid_of (bytes p))) l).
  assert (Hg1 : good t base l1) by (by apply good_same).
  set (e := send_result _ v (bytes p)). set (l2 := with_call _ l1).
  assert (Hg2 : good t base l2) by (destruct Hg1; split; [by apply frame_call | done..]).
  destruct (Z.eqb_spec e 0) as [He | Hne]; cbn [negb].
  - eexists 0, _. split; [done |]. split; [| split; [right | intros _]; cbn; by rewrite count_rc].
    destruct Hg2 as [[F1 F2 F3 F4 F5 F6 F7 F8] Hl Hb Hi]. split; cbn; rewrite ?count_rc; try done.
    split; cbn; rewrite ?count_rc, ?count_now; try done.
    intros c. specialize (F8 c). unfold balance in *. cbn in *. rewrite count_counter. rewrite Eq, queued_cons in F8. cbn.
    destruct (decide (private_p p = Some c)); lia.
  - set (l3 := with_rc (set_idle_echo_xid 0) l2). assert (Hg3 : good t base l3) by (by apply good_same).
    destruct (Z.eqb_spec e EAGAIN) as [Ha | Ha]; cbn [negb pwhen].
    + eexists e, l3. split; [done |]. split; [done |]. split; [by right | by intros ?].
    + destruct (total_disconnect t base l3) as (u & l4 & E & Hg4 & Hr4).
      * split; [apply Hg3 |]. unfold loose. change (state (rc l3)) with (state (rc l)). rewrite Hst. by destruct s.
      * rewrite E. eexists e, l4. split; [done |]. split; [done |]. split; [by left | by intros ?].
Qed.

Lemma total_tx_loop t base s n :
  is_connected_state s = true ->
  total (fun l => good t base l /\ state (rc l) = s) (tx_loop n) (fun _ l => good t base l /\ stays t s l).
Proof.
  intros Hs. induction n as [| n IH]; cbn [tx_loop].
  { intros l [Hg Hl]. exists tt, l. split; [done |]. split; [done | by right]. }
  eapply total_bind; [apply total_the |]. intros q. destruct q as [| p q].
  { intros l (_ & Hg & Hl). exists tt, l. split; [done |]. split; [done | by right]. }
  eapply total_bind; [eapply total_conseq; [| | apply (total_try_send t base s Hs)] |].
  - intros l (Hq & Hg & Hl). split_and!; [done.. |]. by rewrite <- Hq.
  - intros e l Hl. exact Hl.
  - intros e. destruct (Z.eqb_spec e 0) as [-> | Hne]; cbn [negb].
    + eapply total_conseq; [| | exact IH]; [| done]. intros l (Hg & _ & Hl). split; [done | by apply Hl].
    + intros l (Hg & Hst & _). by exists tt, l.
Qed.

Lemma total_tx_work t base s :
  is_connected_state s = true ->
  total (fun l => good t base l /\ state (rc l) = s) do_tx_work (fun _ l => good t base l /\ stays t s l).
Proof.
  intros Hs. unfold do_tx_work. eapply total_bind; [apply total_the |]. intros q.
  eapply total_conseq; [| | apply (total_tx_loop t base s _ Hs)]; [by intros l (_ & ? & ?) | done].
Qed.

(** Copies to monitors change only the list of monitors. *)
Definition mon_same (l l' : link) : Prop := exists ms cs, l' = Link (set_monitors ms (rc l)) (counters l) cs (now l).

Lemma monitor_loop_same n : forall i bs l, exists l', monitor_loop n i bs l = Some (tt, l') /\ mon_same l l'.
Proof.
  assert (Hrefl : forall l, mon_same l l) by (intros l; exists (monitors (rc l)), (calls l); by destruct l as [[]]).
  induction n as [| n IH]; intros i bs l; cbn [monitor_loop]; [by exists l |].
  unfold the, pbind, pget. destruct (monitors (rc l) !! i) as [v |]; [| by exists l].
  unfold vconn_send, plift, pbind, pget, pmod, pret. cbn [with_call].
  match goal with |- context [(?e =? 0) || _] => set (err := e) end.
  destruct ((err =? 0) || (err =? EAGAIN)).
  - destruct (IH (S i) bs (with_call (VSend v bs err) l)) as (l' & E & ms & cs & ->). rewrite E.
    eexists. split; [done |]. by exists ms, cs.
  - unfold upd, pmod. match goal with |- context [monitor_loop n i bs ?x] => set (l1 := x) end.
    destruct (IH i bs l1) as (l' & E & ms & cs & ->). rewrite E. eexists. split; [done |]. by exists ms, cs.
Qed.

Lemma good_mon t base l l' : mon_same l l' -> good t base l -> good t base l'.
Proof. intros (ms & cs & ->) [[] Hl Hb Hi]. by split; [split |..]. Qed.

Lemma total_copy (P : link -> Prop) bs : (forall l l', mon_same l l' -> P l -> P l') -> total P (copy_to_monitor bs) (fun _ => P).
Proof.
  intros HP l Hl. unfold copy_to_monitor, the, pbind, pget.
  destruct (monitor_loop_same (length (monitors (rc l))) 0 bs l) as (l' & -> & Hm). exists tt, l'. split; [done |]. by eapply HP.
Qed.

Lemma total_rconn_send t base s bs c :
  is_connected_state s = true ->
  total (fun l => good t base l /\ state (rc l) = s) (rconn_send bs c) (fun e l => e = 0 /\ good t base l /\ stays t s l).
Proof.
  intros Hs. unfold rconn_send. eapply total_bind; [apply total_the |]. intros r.
  destruct (rconn_is_connected r) eqn:Hc.
  2: { intros l (-> & _ & Hl). unfold rconn_is_connected in Hc. rewrite Hl in Hc. congruence. }
  set (I := fun l => good t base l /\ state (rc l) = s).
  apply total_bind with (R := fun _ => I).
  { eapply total_conseq; [| | apply (total_copy I)]; [by intros l [_ ?] | done |].
    intros l l' Hm [Hg Hl]. split; [by eapply good_mon |]. by destruct Hm as (ms & cs & ->). }
  intros [] l [Hg Hl]. unfold upd, the, pbind, pmod, pget.
  set (l1 := with_rc _ (count c 1 l)). assert (Hg1 : good t base l1).
  { destruct Hg as [[F1 F2 F3 F4 F5 F6 F7 F8] Hli Hb Hi]. split; cbn; rewrite ?count_rc; try done.
    split; cbn; rewrite ?count_rc, ?count_now; try done.
    intros c'. specialize (F8 c'). unfold balance in *. cbn. rewrite count_counter, count_rc, queued_snoc. cbn.
    destruct (decide (c = Some c')); lia. }
  assert (Hl1 : state (rc l1) = s) by (cbn; by rewrite count_rc).
  destruct (length (txq (rc l1)) =? 1)%nat.
  - destruct (total_try_send t base s Hs l1) as (e & l2 & E & Hg2 & Hst & _).
    + split_and!; [done.. |]. cbn. by destruct (txq _).
    + rewrite E. exists 0, l2. by split_and!.
  - exists 0, l1. split; [done |]. split_and!; [done.. | by right].
Qed.

(** ** Running *)

Lemma rest_waits t base l : good t base l -> at_rest t (rc l) -> state (rc l) = S_BACKOFF -> timed_out t (rc l) = false.
Proof.
  intros [[F1 F2 F3 F4 F5 F6 F7 F8] _ Hb _] Hr Hs. destruct (Hb Hs) as [Hb1 _]. destruct Hr as [Hr | [_ He]]; [congruence |].
  unfold timed_out, timeout, timeout_BACKOFF, sat_add. rewrite Hs, He.
  rewrite (wrap_small 32 t), (wrap_small 32 (backoff (rc l))), (wrap_small 32 (t + backoff (rc l)))
    by (unfold in_range; lia). apply Z.leb_gt.
  destruct (Z.leb_spec t (t + backoff (rc l))); lia.
Qed.

Lemma active_without_probe t r :
  state r = S_ACTIVE -> probe_interval r = 0 -> 0 <= state_entered r <= t -> 0 <= t < 2 ^ 31 -> timed_out t r = false.
Proof.
  intros Hs Hp He Ht. unfold timed_out, timeout, timeout_ACTIVE. rewrite Hs, Hp. cbn [negb Z.eqb].
  rewrite (wrap_small 32 (state_entered r)) by (unfold in_range; lia).
  assert (sat_add (state_entered r) UINT_MAX = UINT_MAX) as ->; [| unfold UINT_MAX; lia].
  unfold sat_add, UINT_MAX, wrap. destruct (Z.eq_dec (state_entered r) 0) as [-> | Hne]; [done |].
  replace (state_entered r + (2 ^ 32 - 1)) with (state_entered r - 1 + 1 * 2 ^ 32) by lia.
  rewrite Z.mod_add, Z.mod_small by lia. by destruct (Z.leb_spec (state_entered r) (state_entered r - 1)); [lia |].
Qed.

(** How many more states there can be at one time. *)
Definition rank (t : Z) (r : rconn) : nat :=
  match state r with
  | S_VOID => 0
  | S_BACKOFF => if timed_out t r then 4 else 0
  | S_CONNECTING => 3
  | S_ACTIVE => 2
  | S_IDLE => 1
  end.

Lemma rest_rank t base l : good t base l -> at_rest t (rc l) -> rank t (rc l) = 0%nat.
Proof.
  intros Hg Hr. unfold rank. pose proof (rest_waits t base l Hg Hr) as Hw.
  destruct Hr as [Hr | [Hr _]]; rewrite Hr in *; [done | by rewrite Hw].
Qed.

(** One turn of the loop: the state stays, or there is less to come. *)
Definition progress_from (t : Z) (base : cref -> Z) (l l' : link) : Prop :=
  good t base l' /\ (state (rc l') = state (rc l) \/ (rank t (rc l') < rank t (rc l))%nat).

Lemma stays_progress t base s l l' :
  good t base l' -> stays t s l' -> state (rc l) = s -> (0 < rank t (rc l))%nat -> progress_from t base l l'.
Proof.
  intros Hg [Hr | Hl] Hs Hrk; split; [done | right | done | left; congruence].
  by rewrite (rest_rank t base l' Hg Hr).
Qed.

Lemma rest_progress t base l l' :
  good t base l' -> at_rest t (rc l') -> (0 < rank t (rc l))%nat -> progress_from t base l l'.
Proof. intros Hg Hr Hrk. split; [done |]. right. by rewrite (rest_rank t base l' Hg Hr). Qed.

Lemma run_BACKOFF_progress t base l :
  good t base l -> state (rc l) = S_BACKOFF -> exists l', run_BACKOFF l = Some (tt, l') /\ progress_from t base l l'.
Proof.
  intros Hg Hs. unfold run_BACKOFF, the, pbind, pget, pret. rewrite (fr_now _ _ _ (gd_frame _ _ _ Hg)).
  destruct (timed_out t (rc l)) eqn:Ht; [| exists l; split; [done | split; [done | by left]]].
  destruct (total_reconnect t base l) as (e & l' & E & Hg' & Hpost); [split; [apply Hg | by right] |].
  rewrite E. exists l'. split; [done |].
  assert (Hrk : rank t (rc l) = 4%nat) by (unfold rank; by rewrite Hs, Ht).
  destruct Hpost as [Hr | [Hc _]]; [apply rest_progress; [done.. | lia] |].
  split; [done |]. right. rewrite Hrk. unfold rank. rewrite Hc. lia.
Qed.

Lemma run_CONNECTING_progress t base l :
  good t base l -> state (rc l) = S_CONNECTING -> exists l', run_CONNECTING l = Some (tt, l') /\ progress_from t base l l'.
Proof.
  intros Hg Hs. assert (Hrk : rank t (rc l) = 3%nat) by (unfold rank; by rewrite Hs).
  pose proof (gd_linked _ _ _ Hg) as Hv. rewrite Hs in Hv. destruct Hv as [v Hv].
  unfold run_CONNECTING, the, vconn_connect, plift, upd, pbind, pget, pmod, pret. rewrite Hv.
  set (e := connect_result _ _). set (l1 := with_call _ l).
  assert (Hg1 : good t base l1) by (destruct Hg; split; [by apply frame_call | done..]).
  assert (Hdis : forall l2, frame t base l2 -> state (rc l2) = S_CONNECTING -> exists l', disconnect l2 = Some (tt, l') /\ progress_from t base l l').
  { intros l2 Hf Hs2. destruct (total_disconnect t base l2) as ([] & l' & E & Hg' & Hr); [split; [done |]; unfold loose; by rewrite Hs2 |].
    exists l'. split; [done |]. apply rest_progress; [done.. | lia]. }
  destruct (e =? 0); [| destruct (negb (e =? EAGAIN)); [apply Hdis; [apply Hg1 | done] |]].
  - set (l2 := with_rc _ l1). destruct (total_transition t base S_ACTIVE (fun r => r = rc l2) l2) as ([] & l3 & E & Hf3 & r & -> & Hl3).
    { split; [| done]. pose proof (gd_frame _ _ _ Hg1) as Hf. pose proof Hf as []. by apply frame_rc. }
    rewrite E. eexists. split; [done |].
    assert (Hg3 : good t base l3) by (eapply good_entered; [done | exact Hl3 | cbn; rewrite Hv; by eexists | done | done]).
    split; [by apply good_same |]. right. rewrite Hrk. unfold rank. cbn. rewrite Hl3.
    destruct (enter_keeps t S_ACTIVE (rc l2)) as (-> & _). lia.
  - destruct (timed_out _ _); [| exists l1; split; [done |]; split; [done | by left]].
    apply Hdis; [| done]. pose proof (gd_frame _ _ _ Hg1) as Hf. pose proof Hf as []. by apply frame_rc.
Qed.

Lemma run_ACTIVE_progress t base l :
  good t base l -> state (rc l) = S_ACTIVE -> exists l', run_ACTIVE l = Some (tt, l') /\ progress_from t base l l'.
Proof.
  intros Hg Hs. assert (Hrk : rank t (rc l) = 2%nat) by (unfold rank; by rewrite Hs).
  pose proof (gd_frame _ _ _ Hg) as Hf. pose proof (gd_linked _ _ _ Hg) as Hv. rewrite Hs in Hv.
  unfold run_ACTIVE, the, pbind, pget, pret. rewrite (fr_now _ _ _ Hf). destruct (timed_out t (rc l)) eqn:Ht.
  - destruct (total_transition t base S_IDLE (fun r => r = rc l) l) as ([] & l1 & E & Hf1 & r & -> & Hl1); [done |]. rewrite E.
    assert (Hp : 1 <= probe_interval (rc l)).
    { destruct (Z.eq_dec (probe_interval (rc l)) 0) as [Hp | Hp]; [| pose proof (fr_probe _ _ _ Hf); lia].
      rewrite (active_without_probe t (rc l) Hs Hp) in Ht; [done | apply Hf | apply Hf]. }
    assert (Hg1 : good t base l1) by (by eapply good_entered).
    assert (Hs1 : state (rc l1) = S_IDLE) by (rewrite Hl1; apply enter_keeps).
    destruct (total_rconn_send t base S_IDLE (make_echo_request (random_uint32 (calls l1))) None eq_refl l1)
      as (e & l2 & E2 & _ & Hg2 & Hst); [done |]. rewrite E2. exists l2. split; [done |]. split; [done |]. right. rewrite Hrk.
    destruct Hst as [Hr | Hs2]; [rewrite (rest_rank t base l2 Hg2 Hr); lia | unfold rank; rewrite Hs2; lia].
  - destruct (total_tx_work t base S_ACTIVE eq_refl l) as ([] & l1 & E & Hg1 & Hst); [done |]. rewrite E.
    exists l1. split; [done |]. eapply stays_progress; [done.. | lia].
Qed.

Lemma run_IDLE_progress t base l :
  good t base l -> state (rc l) = S_IDLE -> exists l', run_IDLE l = Some (tt, l') /\ progress_from t base l l'.
Proof.
  intros Hg Hs. assert (Hrk : rank t (rc l) = 1%nat) by (unfold rank; by rewrite Hs).
  unfold run_IDLE, question_connectivity, upd, the, pbind, pget, pmod, pret. destruct (timed_out _ _).
  - set (l1 := with_rc _ l). assert (Hg1 : good t base l1) by (apply good_same; [done | apply question_keeps]).
    assert (Hs1 : state (rc l1) = S_IDLE) by (cbn; destruct (question_keeps (now l) (rc l)) as (-> & _); done).
    destruct (total_disconnect t base l1) as ([] & l' & E & Hg' & Hr); [split; [apply Hg1 | unfold loose; by rewrite Hs1] |].
    exists l'. split; [done |]. apply rest_progress; [done.. | lia].
  - destruct (total_tx_work t base S_IDLE eq_refl l) as ([] & l1 & E & Hg1 & Hst); [done |].
    exists l1. split; [done |]. eapply stays_progress; [done.. | lia].
Qed.

Lemma run_state_progress t base l :
  good t base l -> exists l', run_state l = Some (tt, l') /\ progress_from t base l l'.
Proof.
  intros Hg. unfold run_state, the, pbind, pget. destruct (state (rc l)) eqn:Hs.
  - exists l. split; [done |]. split; [done | by left].
  - by apply run_BACKOFF_progress.
  - by apply run_CONNECTING_progress.
  - by apply run_ACTIVE_progress.
  - by apply run_IDLE_progress.
Qed.

Lemma rconn_run_good t base fuel : forall l,
  good t base l -> (rank t (rc l) < fuel)%nat -> exists l', rconn_run fuel l = Some (Some tt, l') /\ good t base l'.
Proof.
  induction fuel as [| fuel IH]; intros l Hg Hf; [lia |]. cbn [rconn_run].
  destruct (run_state_progress t base l Hg) as (l1 & E & Hg1 & Hp). unfold the, pbind, pget. rewrite E.
  case_bool_decide as Hs; [by exists l1 |]. apply IH; [done |]. destruct Hp; [congruence | lia].
Qed.

(** ** Receiving and connecting *)

Lemma good_call t base c l : good t base l -> good t base (with_call c l).
Proof. intros [Hf Hl Hb Hi]. split; [by apply frame_call | done..]. Qed.

(** From a good connection whose vconn is open to another state that uses it. *)
Lemma transition_active t base l :
  good t base l -> is_Some (vconn (rc l)) -> exists l', state_transition S_ACTIVE l = Some (tt, l') /\ good t base l'.
Proof.
  intros Hg Hv. destruct (total_transition t base S_ACTIVE (fun r => r = rc l) l) as ([] & l1 & E & Hf1 & r & -> & Hl1).
  { split; [apply Hg | done]. }
  exists l1. split; [done |]. by eapply good_entered.
Qed.

Lemma good_leave_idle t base bs l : good t base l -> exists l', leave_idle bs l = Some (tt, l') /\ good t base l'.
Proof.
  intros Hg. unfold leave_idle, upd, the, pbind, pget, pmod, pret, pwhen.
  destruct (bool_decide_reflect (state (rc l) = S_IDLE)) as [Hs |]; [| by exists l].
  assert (is_Some (vconn (rc l))) as Hv by (pose proof (gd_linked _ _ _ Hg) as Hv; by rewrite Hs in Hv).
  destruct (transition_active t base l Hg Hv) as (l1 & E & Hg1).
  destruct (msg_type bs =? OFPT_ECHO_REPLY); [| by exists l1]. destruct (idle_echo_xid (rc l) =? 0); [by exists l1 |].
  destruct (_ =? xid_of bs); rewrite ?E; eexists; (split; [done |]); by apply good_same.
Qed.

Lemma good_rconn_recv t base l : good t base l -> exists m l', rconn_recv l = Some (m, l') /\ good t base l'.
Proof.
  intros Hg. unfold rconn_recv, the. unfold pbind at 1, pget at 1.
  destruct (rconn_is_connected (rc l)) eqn:Hc; [| by exists None, l].
  assert (is_Some (vconn (rc l))) as [v Hv].
  { pose proof (gd_linked _ _ _ Hg) as Hv. unfold rconn_is_connected in Hc. by destruct (state (rc l)). }
  unfold pbind at 1, pget at 1. unfold vconn_recv, plift. rewrite Hv.
  unfold pbind at 1 2 3 4, pget at 1, pmod at 1, pret at 1 2. destruct (recv_result (calls l) v) as [e bs]. cbn [fst].
  set (l1 := with_call _ l). assert (Hg1 : good t base l1) by (by apply good_call).
  destruct (e =? 0).
  - unfold pbind at 1, pget at 1. rewrite (fr_now _ _ _ (gd_frame _ _ _ Hg1)).
    destruct (total_copy (good t base) bs (fun l l' H Hg => good_mon t base l l' H Hg) l1 Hg1) as ([] & l2 & E & Hg2).
    unfold pbind at 1. rewrite E. unfold pbind at 1 2, upd, pmod.
    match goal with |- exists m l', pbind _ _ ?x = _ /\ _ => set (l3 := x) end.
    assert (Hg3 : good t base l3).
    { destruct Hg2 as [[F1 F2 F3 F4 F5 F6 F7 F8] Hl Hb Hi]. unfold l3, with_rc. cbn [rc counters calls now].
      destruct (is_admitted_msg bs || (30 <=? t - last_connected (rc l2))); split; try done; split; cbn; (done || lia). }
    destruct (good_leave_idle t base bs l3 Hg3) as (l4 & E4 & Hg4).
    exists (Some bs), l4. split; [| done]. unfold pbind. by rewrite E4.
  - destruct (Z.eqb_spec e EAGAIN); cbn [negb pwhen]; [by exists None, l1 |].
    destruct (total_disconnect t base l1) as ([] & l2 & E & Hg2 & _).
    { split; [apply Hg1 |]. unfold loose. change (state (rc l1)) with (state (rc l)).
      unfold rconn_is_connected in Hc. by destruct (state (rc l)). }
    exists None, l2. split; [| done]. unfold pbind. by rewrite E.
Qed.

Lemma void_first t base l :
  good t base l -> exists l', rconn_disconnect l = Some (tt, l') /\ good t base l' /\ state (rc l') = S_VOID.
Proof.
  intros Hg. destruct (total_rconn_disconnect t base l) as ([] & l' & E & Hg' & Hs); [| by exists l'].
  split; [apply Hg |]. intros Hs. pose proof (gd_linked _ _ _ Hg) as Hv. by rewrite Hs in Hv.
Qed.

Lemma good_rconn_connect t base nm l : good t base l -> exists e l', rconn_connect nm l = Some (e, l') /\ good t base l'.
Proof.
  intros Hg. destruct (void_first t base l Hg) as (l1 & E & Hg1 & Hs1).
  unfold rconn_connect, upd, pmod, pbind. rewrite E.
  match goal with |- exists e l', reconnect ?x = _ /\ _ => set (l2 := x) end.
  destruct (total_reconnect t base l2) as (e & l3 & E3 & Hg3 & _); [| by exists e, l3].
  split; [| by left]. pose proof (gd_frame _ _ _ Hg1) as Hf. pose proof Hf as []. by apply frame_rc.
Qed.

Lemma good_connect_unreliably t base nm v l :
  good t base l -> exists l', rconn_connect_unreliably nm v l = Some (tt, l') /\ good t base l'.
Proof.
  intros Hg. destruct (void_first t base l Hg) as (l1 & E & Hg1 & Hs1).
  unfold rconn_connect_unreliably, upd, pmod. unfold pbind at 1. rewrite E. unfold pbind, pget.
  match goal with |- exists l', state_transition _ ?x = _ /\ _ => set (l2 := x) end.
  destruct (total_transition t base S_ACTIVE (fun r => r = rc l2) l2) as ([] & l3 & E3 & Hf3 & r & -> & Hl3).
  { split; [| done]. pose proof (gd_frame _ _ _ Hg1) as Hf. pose proof Hf as []. by apply frame_rc. }
  exists l3. split; [done |]. eapply good_entered; [done | exact Hl3 | by eexists | done | done].
Qed.

Lemma good_rconn_send t base bs c l : good t base l -> exists e l', rconn_send bs c l = Some (e, l') /\ good t base l'.
Proof.
  intros Hg. destruct (rconn_is_connected (rc l)) eqn:Hc.
  - destruct (total_rconn_send t base _ bs c Hc l) as (e & l' & E & _ & Hg' & _); [done | by exists e, l'].
  - exists ENOTCONN, l. unfold rconn_send, the, pbind, pget. by rewrite Hc.
Qed.

(** * Sequences of operations *)

Inductive op :=
  | Run | Recv | Send (bs : list Z) (c : option cref) | SendLimit (bs : list Z) (c : cref) (limit : Z)
  | Connect (nm : string) | ConnectUnreliably (nm : string) (v : vref) | Disconnect | AddMonitor (v : vref)
  | Questionable.

(** The loop of [rconn_run] is given five turns. *)
Definition perform (o : op) : prog link unit :=
  match o with
  | Run => r <- rconn_run 5;; plift r
  | Recv => _ <- rconn_recv;; pret tt
  | Send bs c => _ <- rconn_send bs c;; pret tt
  | SendLimit bs c limit => _ <- rconn_send_with_limit bs c limit;; pret tt
  | Connect nm => _ <- rconn_connect nm;; pret tt
  | ConnectUnreliably nm v => rconn_connect_unreliably nm v
  | Disconnect => rconn_disconnect
  | AddMonitor v => rconn_add_monitor v
  | Questionable => _ <- rconn_is_connectivity_questionable;; pret tt
  end.

Definition at_time (t : Z) (l : link) : link := Link (rc l) (counters l) (calls l) t.

Fixpoint play (os : list (Z * op)) : prog link unit :=
  match os with
  | [] => pret tt
  | (t, o) :: os => pmod (at_time t);;; perform o;;; play os
  end.

(** The clock does not go back. *)
Fixpoint ticks (t : Z) (os : list (Z * op)) : bool :=
  match os with
  | [] => true
  | (t', _) :: os => (t <=? t') && (t' <? 2 ^ 31) && ticks t' os
  end.

Lemma rank_bound t r : (rank t r < 5)%nat.
Proof. unfold rank. repeat case_match; lia. Qed.

Lemma perform_good t base o l : good t base l -> exists l', perform o l = Some (tt, l') /\ good t base l'.
Proof.
  intros Hg. destruct o; cbn [perform].
  - destruct (rconn_run_good t base 5 l Hg (rank_bound _ _)) as (l' & E & Hg'). unfold pbind. rewrite E. by exists l'.
  - destruct (good_rconn_recv t base l Hg) as (m & l' & E & Hg'). unfold pbind. rewrite E. by exists l'.
  - destruct (good_rconn_send t base bs c l Hg) as (e & l' & E & Hg'). unfold pbind. rewrite E. by exists l'.
  - unfold rconn_send_with_limit, pbind, pget. destruct (_ <=? _); [by exists l |].
    destruct (good_rconn_send t base bs (Some c) l Hg) as (e & l' & E & Hg'). rewrite E. by exists l'.
  - destruct (good_rconn_connect t base nm l Hg) as (e & l' & E & Hg'). unfold pbind. rewrite E. by exists l'.
  - by apply good_connect_unreliably.
  - destruct (void_first t base l Hg) as (l' & E & Hg' & _). by exists l'.
  - unfold rconn_add_monitor, the, pbind, pget. destruct (_ <? _)%nat; eexists; (split; [done |]); [by apply good_same | by apply good_call].
  - eexists. split; [done |]. by apply good_same.
Qed.

Lemma good_later t t' base l : good t base l -> t <= t' < 2 ^ 31 -> good t' base (at_time t' l).
Proof. intros [[F1 F2 F3 F4 F5 F6 F7 F8] Hl Hb Hi] Ht. split; [split; first [exact F8 | cbn; (done || lia)] | done..]. Qed.

Lemma play_good base os : forall t l,
  good t base l -> ticks t os = true -> exists t' l', play os l = Some (tt, l') /\ good t' base l'.
Proof.
  induction os as [| [t' o] os IH]; intros t l Hg Ht; cbn [play]; [by exists t, l |].
  cbn [ticks] in Ht. apply andb_prop in Ht as [Ht1 Ht2]. apply andb_prop in Ht1 as [Ht0 Ht1].
  apply Z.leb_le in Ht0. apply Z.ltb_lt in Ht1.
  destruct (perform_good t' base o (at_time t' l)) as (l1 & E & Hg1); [apply (good_later t); [done | lia] |].
  destruct (IH t' l1 Hg1 Ht2) as (t2 & l2 & E2 & Hg2). exists t2, l2. split; [| done].
  unfold pbind, pmod. by rewrite E.
Qed.

Lemma good_create t probe max cs calls :
  0 <= t < 2 ^ 31 -> 0 <= probe < 2 ^ 30 -> 0 <= max < 2 ^ 30 ->
  good t (fun c => cs !!! c) (Link (rconn_create t probe max) cs calls t).
Proof.
  intros Ht Hp Hm. split; [| done..]. split; cbn; try done; try lia.
  - destruct (Z.eqb_spec max 0); lia.
  - destruct (Z.eqb_spec max 0); lia.
  - destruct (Z.eqb_spec probe 0); lia.
  - intros c. unfold balance, queued. cbn. lia.
Qed.

(** ** The limit of a queue *)

(** At most [n] packets that are counted in [c] are queued. *)
Definition within (c : cref) (n : Z) (l : link) : Prop := queued c (txq (rc l)) <= n.

Lemma queued_nonneg c q : 0 <= queued c q.
Proof. unfold queued. lia. Qed.

Lemma within_upd c n f : (forall r, txq (f r) = txq r) -> preserved (within c n) (upd f).
Proof. intros Hf. apply preserved_mod. intros l. unfold within. cbn. by rewrite Hf. Qed.

Lemma within_the {A} c n (f : rconn -> A) : preserved (within c n) (the f).
Proof. apply preserved_get. Qed.

Lemma within_call c n k : preserved (within c n) (pmod (with_call k)).
Proof. by apply preserved_mod. Qed.

Lemma within_transition c n s : preserved (within c n) (state_transition s).
Proof. unfold state_transition. apply preserved_bind; [apply preserved_get |]. intros t. apply within_upd. intros r. apply enter_keeps. Qed.

Lemma within_question c n : preserved (within c n) question_connectivity.
Proof. apply preserved_bind; [apply preserved_get |]. intros t. apply within_upd. intros r. apply question_keeps. Qed.

Hint Resolve within_the within_call within_transition within_question : preserved.
Hint Extern 2 (preserved (within _ _) (upd _)) => (apply within_upd; by intros []) : preserved.

Lemma within_flush c n : preserved (within c n) flush_queue.
Proof.
  intros l x l' Hl [= <- <-]. unfold within in *. pose proof (queued_nonneg c (txq (rc l))). unfold queued in *. cbn. lia.
Qed.
Hint Resolve within_flush : preserved.

Lemma within_close c n v : preserved (within c n) (vconn_close v).
Proof. unfold vconn_close. preserved_tac. Qed.
Hint Resolve within_close : preserved.

Lemma within_rconn_disconnect c n : preserved (within c n) rconn_disconnect.
Proof. unfold rconn_disconnect. preserved_tac. Qed.
Hint Resolve within_rconn_disconnect : preserved.

Lemma within_disconnect c n : preserved (within c n) disconnect.
Proof. unfold disconnect. preserved_tac. Qed.
Hint Resolve within_disconnect : preserved.

Lemma within_reconnect c n : preserved (within c n) reconnect.
Proof. unfold reconnect, vconn_open. preserved_tac. apply within_upd. intros r. by destruct b. Qed.
Hint Resolve within_reconnect : preserved.

Lemma within_send c n v bs : preserved (within c n) (vconn_send v bs).
Proof. unfold vconn_send. preserved_tac. Qed.
Lemma within_monitors c n k : forall i bs, preserved (within c n) (monitor_loop k i bs).
Proof. induction k as [| k IH]; intros i bs; cbn [monitor_loop]; [preserved_tac |]. preserved_tac; apply within_send. Qed.
Lemma within_copy c n bs : preserved (within c n) (copy_to_monitor bs).
Proof. apply preserved_bind; [apply preserved_get |]. intros ms. apply within_monitors. Qed.
Hint Resolve within_send within_copy : preserved.

Lemma within_count c n k d : preserved (within c n) (pmod (count k d)).
Proof. apply preserved_mod. intros l. unfold within. by rewrite count_rc. Qed.
Hint Resolve within_count : preserved.

Lemma within_try_send c n : preserved (within c n) try_send.
Proof.
  intros l x l' Hl. unfold try_send. unfold the at 1, pbind at 1, pget at 1. destruct (txq (rc l)) as [| p rest] eqn:Eq; [done |].
  revert l x l' Hl Eq. (* the queue is only cut at its head *)
  set (P := fun l => within c n l /\ (queued c rest <= n)).
  assert (HP : forall A (k : prog link A), preserved (within c n) k -> preserved P k).
  { intros A k Hk l x l' [H1 H2] E. split; [by eapply Hk | done]. }
  intros l x l' Hl Eq. enough (Hst : preserved P (v <- the vconn;; upd (set_idle_echo_xid (xid_of (bytes p)));;; e <- vconn_send v (bytes p);;
    if negb (e =? 0) then upd (set_idle_echo_xid 0);;; pwhen (negb (e =? EAGAIN)) disconnect;;; pret e
    else upd (fun r => set_packets_sent (u32 (packets_sent r + 1)) r);;; pmod (count (private_p p) (-1));;; upd (set_txq rest);;; pret 0)).
  { intros E. eapply Hst; [| exact E]. split; [done |]. unfold within in Hl. rewrite Eq, queued_cons in Hl. case_decide; lia. }
  repeat (apply preserved_bind; [apply HP; preserved_tac | intros ?]). destruct (negb _); [apply HP; preserved_tac |].
  repeat (apply preserved_bind; [apply HP; solve [preserved_tac] | intros ?]). apply preserved_bind; [| intros ?; apply preserved_ret].
  apply preserved_mod. intros l0 [H1 H2]. by split.
Qed.
Hint Resolve within_try_send : preserved.

Lemma within_tx_loop c n k : preserved (within c n) (tx_loop k).
Proof. induction k as [| k IH]; cbn [tx_loop]; preserved_tac. Qed.
Hint Resolve within_tx_loop : preserved.
Lemma within_tx_work c n : preserved (within c n) do_tx_work.
Proof. unfold do_tx_work. preserved_tac. Qed.
Hint Resolve within_tx_work : preserved.
Lemma within_more c n m l : within c n l -> n <= m -> within c m l.
Proof. unfold within. lia. Qed.

(** A message adds one packet to those counted in its counter. *)
Lemma within_rconn_send c n bs k l x l' :
  within c n l -> rconn_send bs k l = Some (x, l') -> within c (n + (if decide (k = Some c) then 1 else 0)) l'.
Proof.
  intros Hl. unfold rconn_send, the. unfold pbind at 1, pget at 1. set (m := n + _). assert (Hm : n <= m) by (unfold m; case_decide; lia).
  destruct (rconn_is_connected (rc l)); [| intros [= <- <-]; by eapply within_more].
  unfold pbind at 1. destruct (copy_to_monitor bs l) as [[[] l1] |] eqn:E1; [| done].
  pose proof (within_copy c n bs l _ _ Hl E1) as Hl1. unfold pbind at 1 2, upd, pmod. intros E.
  match type of E with pbind _ _ ?x = _ => assert (Hl2 : within c m x) end.
  { unfold within, m in *. cbn. rewrite count_rc, queued_snoc. cbn. case_decide; lia. }
  refine (preserved_use _ _ _ _ _ _ Hl2 E). preserved_tac.
Qed.

Lemma within_rconn_send_other c n bs k : k <> Some c -> preserved (within c n) (rconn_send bs k).
Proof. intros Hk l x l' Hl E. eapply within_rconn_send in E; [| done]. rewrite decide_False in E by done. by rewrite Z.add_0_r in E. Qed.

Lemma within_run_state c n : preserved (within c n) run_state.
Proof.
  unfold run_state, run_BACKOFF, run_CONNECTING, run_ACTIVE, run_IDLE, vconn_connect. preserved_tac.
  by apply within_rconn_send_other.
Qed.
Lemma within_rconn_run c n k : preserved (within c n) (rconn_run k).
Proof. induction k as [| k IH]; cbn [rconn_run]; preserved_tac. apply within_run_state. Qed.
Lemma within_rconn_recv c n : preserved (within c n) rconn_recv.
Proof. unfold rconn_recv, leave_idle, vconn_recv. preserved_tac. apply within_upd. intros r. by case_match. Qed.
Hint Resolve within_rconn_run within_rconn_recv : preserved.

(** The messages that are counted in [c] are all sent with a limit of at most [n]. *)
Definition limited (c : cref) (n : Z) (o : op) : bool :=
  match o with
  | Send _ k => negb (bool_decide (k = Some c))
  | SendLimit _ k limit => negb (bool_decide (k = c)) || (limit <=? n)
  | _ => true
  end.

Lemma within_perform t base c n o l l' :
  good t base l -> base c = 0 -> limited c n o = true -> within c n l -> perform o l = Some (tt, l') -> within c n l'.
Proof.
  intros Hg Hb Ho Hl. destruct o; cbn [perform limited] in *.
  5-9: intros E; refine (preserved_use _ _ _ _ _ _ Hl E);
    unfold rconn_connect, rconn_connect_unreliably, rconn_add_monitor, rconn_is_connectivity_questionable; preserved_tac.
  - intros E. refine (preserved_use _ _ _ _ _ _ Hl E). preserved_tac.
  - intros E. refine (preserved_use _ _ _ _ _ _ Hl E). preserved_tac.
  - intros E. refine (preserved_use _ _ _ _ _ _ Hl E). apply preserved_bind; [| intros ?; apply preserved_ret].
    apply within_rconn_send_other. by destruct (bool_decide_reflect (c0 = Some c)).
  - unfold rconn_send_with_limit, pbind, pget. destruct (Z.leb_spec limit (counters l !!! c0)) as [Hle | Hlt]; [by intros [= <-] |].
    destruct (rconn_send bs (Some c0) l) as [[e l1] |] eqn:E; [| done]. intros [= <-].
    destruct (bool_decide_reflect (c0 = c)) as [-> | Hne]; cbn [negb orb] in Ho.
    + apply Z.leb_le in Ho. pose proof (fr_balance _ _ _ (gd_frame _ _ _ Hg) c) as Hbal. unfold balance in Hbal.
      apply (within_rconn_send c (n - 1)) in E; [| unfold within; lia]. rewrite decide_True in E by done. by replace n with (n - 1 + 1) by lia.
    + eapply within_rconn_send in E; [| done]. rewrite decide_False in E by congruence. by rewrite Z.add_0_r in E.
Qed.

Lemma within_play base c n os : forall t l l',
  good t base l -> base c = 0 -> ticks t os = true -> forallb (fun o => limited c n (snd o)) os = true ->
  within c n l -> play os l = Some (tt, l') -> within c n l'.
Proof.
  induction os as [| [t' o] os IH]; intros t l l' Hg Hb Ht Ho Hl; cbn [play]; [by intros [= <-] |].
  cbn [ticks] in Ht. apply andb_prop in Ht as [Ht1 Ht2]. apply andb_prop in Ht1 as [Ht0 Ht1].
  apply Z.leb_le in Ht0. apply Z.ltb_lt in Ht1. cbn [forallb snd] in Ho. apply andb_prop in Ho as [Ho1 Ho2].
  assert (Hg' : good t' base (at_time t' l)) by (apply (good_later t); [done | lia]).
  destruct (perform_good t' base o _ Hg') as (l1 & E & Hg1).
  unfold pbind, pmod. rewrite E. apply (IH t'); try done. by apply (within_perform t' base c n o (at_time t' l)).
Qed.

(** C17. Whatever the connections below answer and whatever is done with a reliable connection in
    whatever order, from the time it is created: every operation returns (no call through a
    NULL connection, and [rconn_run] ends within five turns), a connection below is held exactly
    in the states that use it, the backoff stays between 0 and its maximum and is at least one
    second while backing off, and the counter of every client is what it was at the start plus
    the number of its packets that are still queued. *)
Theorem rconn_invariant t probe max cs cl os :
  0 <= t < 2 ^ 31 -> 0 <= probe < 2 ^ 30 -> 0 <= max < 2 ^ 30 -> ticks t os = true ->
  exists l, play os (Link (rconn_create t probe max) cs cl t) = Some (tt, l) /\
    (is_Some (vconn (rc l)) <-> state (rc l) <> S_VOID /\ state (rc l) <> S_BACKOFF) /\
    0 <= backoff (rc l) <= max_backoff (rc l) /\ (state (rc l) = S_BACKOFF -> 1 <= backoff (rc l)) /\
    forall c, counters l !!! c = cs !!! c + queued c (txq (rc l)).
Proof.
  intros Ht Hp Hm Hos. destruct (play_good _ os _ _ (good_create t probe max cs cl Ht Hp Hm) Hos) as (t' & l & E & [[] Hl Hb _]).
  exists l. split; [done |]. split_and!.
  - destruct (state (rc l)); split; first [done | rewrite Hl; by intros [? [=]] | by intros [? ?]].
  - apply fr_backoff0.
  - apply fr_backoff0.
  - intros Hs. by apply Hb.
  - intros c. specialize (fr_balance0 c). unfold balance in fr_balance0. lia.
Qed.

(** C36. A client that sends all its messages with a limit never has more than that many packets in
    the queue, in whatever order the operations come, whatever the other clients send and
    whatever the connection below answers. *)
Theorem rconn_queue_limit t probe max cs cl os c limit :
  0 <= t < 2 ^ 31 -> 0 <= probe < 2 ^ 30 -> 0 <= max < 2 ^ 30 -> ticks t os = true ->
  cs !!! c = 0 -> 0 <= limit -> forallb (fun o => limited c limit (snd o)) os = true ->
  exists l, play os (Link (rconn_create t probe max) cs cl t) = Some (tt, l) /\
    queued c (txq (rc l)) <= limit /\ counters l !!! c = queued c (txq (rc l)).
Proof.
  intros Ht Hp Hm Hos Hc Hn Ho. pose proof (good_create t probe max cs cl Ht Hp Hm) as Hg.
  destruct (play_good _ os _ _ Hg Hos) as (t' & l & E & Hg').
  exists l. split; [done |]. split.
  - eapply (within_play _ c limit os _ _ _ Hg); [exact Hc | done | done | | exact E]. unfold within, queued. cbn. lia.
  - pose proof (fr_balance _ _ _ (gd_frame _ _ _ Hg') c) as Hb. unfold balance in Hb. cbn in Hb. lia.
Qed.

End rconn.

(** * An example *)

(** A connection below that opens and connects at once, whose buffer takes the first two
    messages and no more, and that answers nothing. *)
#[local] Instance demo_vconn : Vconn := {
  open_result _ _ := (0, 1%positive, true);
  connect_result _ _ := 0;
  send_result cs _ _ := if (length (filter (fun c => match c with VSend _ _ 0 => true | _ => false end = true) cs) <? 2)%nat then 0 else EAGAIN;
  recv_result _ _ := (EAGAIN, []);
  random_uint32 _ := 7 }.

Definition demo_counters : gmap cref Z := {[ 5%positive := 0 ]}.

Definition demo_ops : list (Z * op) :=
  [(1000, Connect "tcp:10.0.0.1"); (1000, Run); (1001, SendLimit [4; 10; 0; 8; 0; 0; 0; 1] 5%positive 1);
   (1001, SendLimit [4; 10; 0; 8; 0; 0; 0; 2] 5%positive 1); (1001, SendLimit [4; 10; 0; 8; 0; 0; 0; 3] 5%positive 1);
   (1002, SendLimit [4; 10; 0; 8; 0; 0; 0; 4] 5%positive 1); (1003, Recv); (1004, Run)].

Lemma rconn_queue_limit_witness :
  exists l, play demo_ops (Link (rconn_create 999 15 8) demo_counters [] 999) = Some (tt, l) /\
    queued 5%positive (txq (rc l)) <= 1 /\ counters l !!! 5%positive = queued 5%positive (txq (rc l)).
Proof.
  apply (rconn_queue_limit 999 15 8 demo_counters [] demo_ops 5%positive 1); [lia | lia | lia | reflexivity | reflexivity | lia | reflexivity].
Defined.

(** The same run, and then silence: the connection is given up after two probe intervals. *)
Definition demo_silence : list (Z * op) := demo_ops ++ [(1020, Run); (1040, Run)].

Lemma rconn_invariant_witness :
  exists l, play demo_silence (Link (rconn_create 999 15 8) demo_counters [] 999) = Some (tt, l) /\
    (is_Some (vconn (rc l)) <-> state (rc l) <> S_VOID /\ state (rc l) <> S_BACKOFF) /\
    0 <= backoff (rc l) <= max_backoff (rc l) /\ (state (rc l) = S_BACKOFF -> 1 <= backoff (rc l)) /\
    forall c, counters l !!! c = demo_counters !!! c + queued c (txq (rc l)).
Proof. apply (rconn_invariant 999 15 8 demo_counters [] demo_silence); [lia | lia | lia | reflexivity]. Defined.

(** What the two runs give. *)
Lemma demo_run :
  option_map (fun x => (state (rc (snd x)), length (txq (rc (snd x))))) (play demo_ops (Link (rconn_create 999 15 8) demo_counters [] 999)) = Some (S_ACTIVE, 1%nat) /\
  option_map (fun x => (state (rc (snd x)), backoff (rc (snd x)), length (txq (rc (snd x))))) (play demo_silence (Link (rconn_create 999 15 8) demo_counters [] 999)) = Some (S_BACKOFF, 1, 0%nat).
Proof. split; vm_compute; reflexivity. Qed.

End Rconn.
