(* ===== verification/Wire.v ===== *)
(** Reading and writing OpenFlow messages (oflib): results of the functions that take a message
    apart, reads that stay within the bytes that were received, and the fields of a message in
    network order. *)
From S2P Require Import Prelude.
Open Scope Z_scope.

(** * Results *)

(** A value, an error word, a read or write outside the memory of the message, or a loop that
    has not ended when its fuel has. *)
Inductive res (A : Type) := Ok (x : A) | Err (e : Z) | Oob | Loop.
Arguments Ok {A}. Arguments Err {A}. Arguments Oob {A}. Arguments Loop {A}.

Definition rbind {A B} (c : res A) (k : A -> res B) : res B :=
  match c with Ok x => k x | Err e => Err e | Oob => Oob | Loop => Loop end.
(** [if (bad) return e;] *)
Definition refuse (bad : bool) (e : Z) : res unit := if bad then Err e else Ok tt.

Declare Scope wire_scope.
Delimit Scope wire_scope with wire.
Notation "x <- c ;; k" := (rbind c (fun x => k)) (at level 62, c at next level, right associativity,
  format "x  <-  c ;;  '/' k") : wire_scope.
Notation "' p <- c ;; k" := (rbind c (fun x => let p := x in k)) (at level 62, p strict pattern,
  c at next level, right associativity) : wire_scope.
Notation "c ;;; k" := (rbind c (fun _ => k)) (at level 62, right associativity, format "c ;;;  '/' k") : wire_scope.
Open Scope wire_scope.

(** * Memory *)

(** [n] bytes at an offset of the memory that starts at a pointer. *)
Definition rd (m : list Z) (off n : nat) : res (list Z) :=
  if (off + n <=? length m)%nat then Ok (slice off n m) else Oob.
(** The same as a number in network order, and in the order of the host. *)
Definition get (n : nat) (m : list Z) (off : nat) : res Z := bs <- rd m off n;; Ok (be_load bs).

(** What new memory holds is an argument. *)
Definition fresh (junk : nat -> Z) (n : nat) : list Z := map junk (seq 0 n).

(** [n] bytes of new memory of which the first are written; more than that do not fit. *)
Definition region (junk : nat -> Z) (n : nat) (bs : list Z) : res (list Z) :=
  if (length bs <=? n)%nat then Ok (bs ++ fresh junk (n - length bs)) else Oob.

Definition zeros (n : nat) : list Z := replicate n 0.

(** ** Strings *)

Definition str_bytes (s : string) : list Z := map (fun a => Z.of_N (Ascii.N_of_ascii a)) (String.list_ascii_of_string s).
Definition bytes_str (bs : list Z) : string := String.string_of_list_ascii (map (fun b => Ascii.ascii_of_N (Z.to_N b)) bs).

(** The bytes before the first zero, [None] when there is none. *)
Fixpoint c_string (bs : list Z) : option (list Z) :=
  match bs with
  | [] => None
  | b :: bs => if b =? 0 then Some [] else option_map (cons b) (c_string bs)
  end.
(** [strcpy] from an offset: reads up to a zero. *)
Definition rd_string (m : list Z) (off : nat) : res (list Z) :=
  match c_string (drop off m) with Some s => Ok s | None => Oob end.
(** [strncpy] of a string into [n] bytes: what is before a zero, and zeros. *)
Definition strncpy (n : nat) (s : list Z) : list Z := take n (default s (c_string s) ++ zeros n).

(** * Counting *)

(** The [ofl_utils_count_ofp_*] functions over items with a length field: while [more] of the
    length that is left, an item shorter than [low] or longer than what is left is refused, and
    the next item is [step] of its length further. *)
Section count.
Context (more : Z -> bool) (at_ : nat) (low : Z) (step : Z -> Z) (e : Z).

Fixpoint count_ofp (fuel : nat) (m : list Z) (len : Z) (count : nat) : res nat :=
  if more len then
    match fuel with
    | O => Loop
    | S fuel =>
        n <- get 2 m at_;;
        refuse ((len <? n) || (n <? low)) e;;;
        count_ofp fuel (drop (Z.to_nat (step n)) m) (u64 (len - step n)) (S count)
    end
  else Ok count.

End count.

(** One step of the fuel for each byte of the memory: with an item of at least a byte in every
    step, the memory has ended by then and the read of the next length is outside of it. *)
Definition count_items (more : Z -> bool) (at_ : nat) (low : Z) (step : Z -> Z) (e : Z) (m : list Z) (len : Z) : res nat :=
  count_ofp more at_ low step e (S (length m)) m len 0.

(** * Sequences *)

(** The loops that unpack a number of items, each of which takes its part of the length, and
    whose pointer goes on by what [next] reads. *)
Fixpoint unpack_seq {A} (unp : list Z -> Z -> res (A * Z)) (next : list Z -> res Z) (count : nat) (m : list Z) (len : Z)
    : res (list A * Z) :=
  match count with
  | O => Ok ([], len)
  | S count =>
      '(a, len) <- unp m len;;
      n <- next m;;
      '(l, len) <- unpack_seq unp next count (drop (Z.to_nat n) m) len;;
      Ok (a :: l, len)
  end.

(** [count] items of [size] bytes. A count larger than the memory gets no further than one item
    for each byte, which reads outside of it. *)
Definition unpack_fixed {A} (unp : list Z -> Z -> res (A * Z)) (size count : Z) (m : list Z) (len : Z) : res (list A * Z) :=
  unpack_seq unp (fun _ => Ok size) (Z.to_nat (Z.min count (length m + 1))) m len.

(** * Laws *)

Lemma be_store_length n z : length (be_store n z) = n.
Proof. unfold be_store. by rewrite length_rev, le_store_length. Qed.

Lemma be_store_ok n z : bytes_ok (be_store n z).
Proof. unfold be_store, bytes_ok. apply Forall_rev, le_store_ok. Qed.

Lemma be_load_store_small (n : nat) z : in_range (8 * n) z -> be_load (be_store n z) = z.
Proof. intros. rewrite be_load_store. by apply wrap_small. Qed.

Lemma zeros_length n : length (zeros n) = n.
Proof. apply length_replicate. Qed.

Lemma slice_first (a b : list Z) n : length a = n -> slice 0 n (a ++ b) = a.
Proof. intros <-. unfold slice. rewrite drop_0. apply take_app_length. Qed.

Lemma slice_app_r (a b : list Z) off n : (length a <= off)%nat -> slice off n (a ++ b) = slice (off - length a) n b.
Proof. intros H. unfold slice. by rewrite drop_app_ge. Qed.

Lemma rd_app_l (a b : list Z) n : length a = n -> rd (a ++ b) 0 n = Ok a.
Proof.
  intros Ha. unfold rd. rewrite length_app. destruct (Nat.leb_spec (0 + n) (length a + length b)); [| lia].
  by rewrite slice_first.
Qed.

Lemma rd_app_r (a b : list Z) off n : (length a <= off)%nat -> rd (a ++ b) off n = rd b (off - length a) n.
Proof.
  intros H. unfold rd. rewrite length_app, slice_app_r by done.
  destruct (Nat.leb_spec (off + n) (length a + length b)), (Nat.leb_spec (off - length a + n) (length b)); (done || lia).
Qed.

Lemma get_app_l (n : nat) z (b : list Z) : get n (be_store n z ++ b) 0 = Ok (wrap (8 * n) z).
Proof. unfold get. rewrite rd_app_l by apply be_store_length. cbn. by rewrite be_load_store. Qed.

Lemma get_app_r n (a b : list Z) off : (length a <= off)%nat -> get n (a ++ b) off = get n b (off - length a).
Proof. intros H. unfold get. by rewrite rd_app_r. Qed.

Lemma get_Ok n m off z : get n m off = Ok z -> (off + n <= length m)%nat /\ z = be_load (slice off n m).
Proof. unfold get, rd. destruct (Nat.leb_spec (off + n) (length m)); [by intros [= <-] | done]. Qed.

Lemma get_in n m off : (off + n <= length m)%nat -> get n m off = Ok (be_load (slice off n m)).
Proof. intros H. unfold get, rd. by destruct (Nat.leb_spec (off + n) (length m)); [| lia]. Qed.

Lemma rd_in m off n : (off + n <= length m)%nat -> rd m off n = Ok (slice off n m).
Proof. intros H. unfold rd. by destruct (Nat.leb_spec (off + n) (length m)); [| lia]. Qed.

Lemma bytes_ok_slice off n m : bytes_ok m -> bytes_ok (slice off n m).
Proof. intros H. apply Forall_take, Forall_drop, H. Qed.

Lemma be_load_range bs : bytes_ok bs -> in_range (8 * length bs) (be_load bs).
Proof. intros H. unfold be_load. rewrite <- length_rev. apply le_load_range. by apply Forall_rev. Qed.

(** ** Numbers in their ranges *)

Definition fits (n : nat) (z : Z) : bool := (0 <=? z) && (z <? 2 ^ (8 * n)).

Lemma fits_range n z : fits n z = true -> in_range (8 * n) z.
Proof. unfold fits, in_range. intros H. apply andb_prop in H as [H1 H2]. apply Z.leb_le in H1. apply Z.ltb_lt in H2. lia. Qed.

Lemma fits_wrap n z : fits n z = true -> wrap (8 * n) z = z.
Proof. intros H. by apply wrap_small, fits_range. Qed.

Lemma get_here n z (b : list Z) : fits n z = true -> get n (be_store n z ++ b) 0 = Ok z.
Proof. intros H. rewrite get_app_l. by rewrite fits_wrap. Qed.

Lemma range_fits (n : nat) z : 0 <= z < 2 ^ (8 * n) -> fits n z = true.
Proof. intros [H1 H2]. unfold fits. apply andb_true_intro. split; [by apply Z.leb_le | by apply Z.ltb_lt]. Qed.

Lemma refuse_len a b e : b <= a -> refuse (a <? b) e = Ok tt.
Proof. intros H. by destruct (Z.ltb_spec a b); [lia |]. Qed.

Lemma get_fits n m off z : bytes_ok m -> get n m off = Ok z -> fits n z = true.
Proof.
  intros Hm Hg. apply get_Ok in Hg as [Hl ->]. apply range_fits.
  pose proof (be_load_range _ (bytes_ok_slice off n m Hm)) as Hr. rewrite slice_length in Hr by done. apply Hr.
Qed.

Lemma refuse_Ok b e (x : unit) : refuse b e = Ok x -> b = false.
Proof. by destruct b. Qed.

(** Takes the steps of an unpacking function apart. *)
Ltac unstep :=
  repeat match goal with
  | H : rbind ?c _ = Ok _ |- _ => let E := fresh "E" in destruct c eqn:E; cbn [rbind] in H; [| discriminate | discriminate | discriminate]
  | H : refuse _ _ = Ok _ |- _ => apply refuse_Ok in H
  end.

(** ** Strings *)

Definition no_zero (bs : list Z) : bool := forallb (fun b => negb (b =? 0)) bs.

Lemma c_string_here s rest : no_zero s = true -> c_string (s ++ 0 :: rest) = Some s.
Proof.
  induction s as [| b s IH]; intros Hs; [done |]. cbn [no_zero forallb] in Hs. apply andb_prop in Hs as [Hb Hs]. apply negb_true_iff in Hb.
  cbn [app c_string]. rewrite Hb. by rewrite IH.
Qed.

Lemma c_string_none s : no_zero s = true -> c_string s = None.
Proof.
  induction s as [| b s IH]; intros Hs; [done |]. cbn [no_zero forallb] in Hs. apply andb_prop in Hs as [Hb Hs]. apply negb_true_iff in Hb.
  cbn [c_string]. rewrite Hb. by rewrite IH.
Qed.

Lemma strncpy_length n s : length (strncpy n s) = n.
Proof. unfold strncpy. rewrite length_take, length_app, zeros_length. lia. Qed.

Lemma strncpy_short n s : no_zero s = true -> (length s < n)%nat -> strncpy n s = s ++ 0 :: zeros (n - length s - 1).
Proof.
  intros Hs Hl. unfold strncpy. rewrite c_string_none by done. cbn [default].
  rewrite take_app_ge by lia. f_equal. replace n with (length s + S (n - length s - 1))%nat at 1 2 by lia.
  replace (length s + S (n - length s - 1) - length s)%nat with (S (n - length s - 1)) by lia.
  unfold zeros. rewrite take_replicate. by rewrite Nat.min_l by lia.
Qed.

Lemma bytes_str_bytes s : bytes_str (str_bytes s) = s.
Proof.
  unfold bytes_str, str_bytes. rewrite map_map. erewrite map_ext; [rewrite map_id |].
  - apply String.string_of_list_ascii_of_string.
  - intros a. cbn. rewrite N2Z.id. apply Ascii.ascii_N_embedding.
Qed.

(** ** Counting items *)

(** Items that are as long as they say, each with a whole number of bytes that the loop goes on
    by. *)
Section count_laws.
Context {A : Type} (pack : A -> list Z) (more : Z -> bool) (at_ : nat) (low e : Z).
Definition packs (l : list A) : list Z := concat (map pack l).

(** What is needed of an item. *)
Definition item_ok (x : A) : Prop :=
  (forall rest, get 2 (pack x ++ rest) at_ = Ok (Z.of_nat (length (pack x)))) /\
  low <= length (pack x) /\ (0 < length (pack x))%nat /\ forall k, 0 <= k -> more (length (pack x) + k) = true.

Lemma count_packs (l : list A) : forall rest fuel n,
  Forall item_ok l -> more 0 = false -> Z.of_nat (length (packs l)) < 2 ^ 64 -> (length l <= fuel)%nat ->
  count_ofp more at_ low (fun n => n) e fuel (packs l ++ rest) (length (packs l)) n = Ok (length l + n)%nat.
Proof.
  induction l as [| x l IH]; intros rest fuel n Hl H0 Hlen Hf.
  { destruct fuel; cbn [count_ofp]; change (Z.of_nat (length (packs []))) with 0; by rewrite H0. }
  apply Forall_cons in Hl as [Hx Hl]. destruct fuel as [| fuel]; cbn [length] in Hf; [lia |].
  change (packs (x :: l)) with (pack x ++ packs l) in *. rewrite length_app, Nat2Z.inj_add in *. cbn [count_ofp].
  pose proof Hx as (Hg & Hlow & Hpos & Hm). rewrite Hm by lia. rewrite <- app_assoc, Hg. cbn [rbind].
  destruct (Z.ltb_spec (length (pack x) + length (packs l)) (length (pack x))); [lia |].
  destruct (Z.ltb_spec (length (pack x)) low); [lia |]. cbn [orb refuse rbind].
  rewrite Nat2Z.id, drop_app_length. replace (length (pack x) + length (packs l) - length (pack x)) with (Z.of_nat (length (packs l))) by lia.
  rewrite wrap_small by (unfold in_range; lia). rewrite IH by (done || lia). f_equal. cbn [length]. lia.
Qed.

Lemma packs_count (l : list A) : Forall item_ok l -> (length l <= length (packs l))%nat.
Proof.
  induction 1 as [| x l (_ & _ & Hx & _) Hl IH]; [done |]. change (packs (x :: l)) with (pack x ++ packs l). rewrite length_app. cbn. lia.
Qed.

Lemma count_items_packs (l : list A) rest :
  Forall item_ok l -> more 0 = false -> Z.of_nat (length (packs l)) < 2 ^ 64 ->
  count_items more at_ low (fun n => n) e (packs l ++ rest) (length (packs l)) = Ok (length l).
Proof.
  intros Hl H0 Hlen. unfold count_items. rewrite count_packs, Nat.add_0_r; try done.
  pose proof (packs_count l Hl). rewrite length_app. lia.
Qed.

End count_laws.

(** With a lower bound for the length of an item the counting ends, whatever the memory holds. *)
Lemma count_ofp_ends more at_ low step e fuel m len n :
  (forall k, low <= k -> 1 <= step k) -> (length m < fuel)%nat ->
  count_ofp more at_ low step e fuel m len n <> Loop.
Proof.
  intros Hs. revert m len n. induction fuel as [| fuel IH]; intros m len n Hm; [lia |]. cbn [count_ofp].
  destruct (more len); [| done]. unfold get, rd. destruct (Nat.leb_spec (at_ + 2) (length m)) as [Hr |]; [| done]. cbn [rbind].
  destruct (len <? _); [done |]. destruct (Z.ltb_spec (be_load (slice at_ 2 m)) low) as [| Hl]; [done |]. cbn [orb refuse rbind].
  apply IH. rewrite length_drop. specialize (Hs _ Hl). lia.
Qed.

Lemma count_items_ends more at_ low step e m len :
  (forall k, low <= k -> 1 <= step k) -> count_items more at_ low step e m len <> Loop.
Proof. intros Hs. apply count_ofp_ends; [done | lia]. Qed.

(** ** Sums of lengths *)

Lemma sum_lengths {A} (pack : A -> list Z) (size : A -> Z) (l : list A) :
  Forall (fun x => Z.of_nat (length (pack x)) = size x) l -> Z.of_nat (length (packs pack l)) < 2 ^ 64 ->
  fold_left (fun sum x => u64 (sum + size x)) l 0 = length (packs pack l).
Proof.
  intros Hl Hlen. enough (H : forall n, 0 <= n -> n + length (packs pack l) < 2 ^ 64 ->
    fold_left (fun sum x => u64 (sum + size x)) l n = n + length (packs pack l)) by (rewrite H; lia).
  clear Hlen. induction Hl as [| x l Hx Hl IH]; intros n Hn Hlen; cbn [fold_left].
  { change (Z.of_nat (length (packs pack []))) with 0. lia. }
  change (packs pack (x :: l)) with (pack x ++ packs pack l) in *. rewrite length_app, Nat2Z.inj_add in *. rewrite <- Hx.
  rewrite wrap_small by (unfold in_range; lia). rewrite IH by lia. lia.
Qed.

Lemma all_ok {A} (ok : A -> bool) (P : A -> Prop) l : (forall x, ok x = true -> P x) -> forallb ok l = true -> Forall P l.
Proof. intros HP Hl. apply Forall_forall. intros x Hin. apply HP. by eapply forallb_forall in Hl; [| apply list_elem_of_In]. Qed.

(** ** Unpacking items *)

Section seq_laws.
Context {A : Type} (pack : A -> list Z) (unp : list Z -> Z -> res (A * Z)) (next : list Z -> res Z).

Definition unpacks (x : A) : Prop :=
  (forall rest len, length (pack x) <= len < 2 ^ 32 -> unp (pack x ++ rest) len = Ok (x, len - length (pack x))) /\
  (forall rest, next (pack x ++ rest) = Ok (Z.of_nat (length (pack x)))).

Lemma unpack_seq_packs (l : list A) : forall rest len,
  Forall unpacks l -> length (packs pack l) <= len < 2 ^ 32 ->
  unpack_seq unp next (length l) (packs pack l ++ rest) len = Ok (l, len - length (packs pack l)).
Proof.
  induction l as [| x l IH]; intros rest len Hl Hlen; cbn [length unpack_seq].
  { change (Z.of_nat (length (packs pack []))) with 0. by rewrite Z.sub_0_r. }
  apply Forall_cons in Hl as [[Hu Hn] Hl]. change (packs pack (x :: l)) with (pack x ++ packs pack l) in *.
  rewrite length_app, Nat2Z.inj_add in *. rewrite <- app_assoc, Hu by lia. cbn [rbind]. rewrite Hn. cbn [rbind].
  rewrite Nat2Z.id, drop_app_length, IH by (done || lia). cbn [rbind]. do 2 f_equal. lia.
Qed.

End seq_laws.

(** * Lengths, and reading what was written *)

Create HintDb wire.
#[global] Hint Rewrite be_store_length zeros_length strncpy_length le_store_length @length_app @length_nil @length_cons : wire.

(** Computes the length of concatenations of fields. *)
Ltac wire_len := autorewrite with wire; cbn [length Nat.add]; try lia.

(** The field at an offset of a concatenation of fields: here, or past the first of them. *)
Lemma bind_Ok {A B} (c : res A) (x : A) (k : A -> res B) (r : res B) : c = Ok x -> k x = r -> rbind c k = r.
Proof. by intros -> ?. Qed.

Lemma get_past n a b off k z : length a = k -> (k <=? off)%nat = true -> get n b (off - k) = Ok z -> get n (a ++ b) off = Ok z.
Proof. intros <- H. apply Nat.leb_le in H. by rewrite get_app_r. Qed.
Lemma rd_past n a b off k z : length a = k -> (k <=? off)%nat = true -> rd b (off - k) n = Ok z -> rd (a ++ b) off n = Ok z.
Proof. intros <- H. apply Nat.leb_le in H. by rewrite rd_app_r. Qed.
Lemma rd_string_past a b off k z : length a = k -> (k <=? off)%nat = true -> rd_string b (off - k) = Ok z -> rd_string (a ++ b) off = Ok z.
Proof. intros <- H. apply Nat.leb_le in H. unfold rd_string. by rewrite drop_app_ge. Qed.
Lemma rd_string_here n s b : no_zero s = true -> (length s < n)%nat -> rd_string (strncpy n s ++ b) 0 = Ok s.
Proof. intros Hs Hl. unfold rd_string. rewrite drop_0, strncpy_short, <- app_assoc by done. cbn [app]. by rewrite c_string_here. Qed.

Lemma refuse_no b e : b = false -> refuse b e = Ok tt.
Proof. by intros ->. Qed.
Lemma refuse_neg b e : negb b = true -> refuse b e = Ok tt.
Proof. by destruct b. Qed.

Ltac known_length := first [apply be_store_length | apply zeros_length | apply strncpy_length | eassumption].
Ltac read_field :=
  lazymatch goal with
  | |- get _ _ _ = Ok _ =>
      first [ apply get_here; first [eassumption | reflexivity]
            | eapply get_past; [known_length | reflexivity | cbn [Nat.sub]; read_field] ]
  | |- rd _ _ _ = Ok _ =>
      first [ apply rd_app_l; known_length
            | eapply rd_past; [known_length | reflexivity | cbn [Nat.sub]; read_field] ]
  | |- rd_string _ _ = Ok _ =>
      first [ apply rd_string_here; eassumption
            | eapply rd_string_past; [known_length | reflexivity | cbn [Nat.sub]; read_field] ]
  | |- refuse _ _ = Ok _ => first [ apply refuse_neg; eassumption | apply refuse_no; eassumption | apply refuse_len; lia ]
  end.
(** Takes the steps of an unpacking function on a concatenation of fields. *)
Ltac wire := repeat (lazymatch goal with |- rbind _ _ = _ => eapply bind_Ok; [solve [read_field] | cbv beta] end).

Lemma split_ok (a b : bool) : a && b = true -> a = true /\ b = true.
Proof. apply andb_prop. Qed.

(** Takes the conditions on the fields of a structure apart. *)
Ltac split_fields := repeat match goal with H : _ && _ = true |- _ => apply split_ok in H as [? ?] end.
