(* ===== verification/Csum.v ===== *)
(** The Internet checksum of lib/csum.c: the running sum, its folding and the
    incremental update of RFC 1624 that the set-field and TTL actions use, with
    the ones-complement arithmetic (integers modulo 65535) as specification. *)
From S2P Require Import Prelude.
Open Scope Z_scope.

Definition csum_add16 (partial new : Z) : Z := u32 (partial + new).

Definition csum_add32 (partial new : Z) : Z :=
  u32 (partial + Z.shiftr new 16 + Z.land new 0xffff).

Fixpoint csum_continue (partial : Z) (data : list Z) : Z :=
  match data with
  | b0 :: b1 :: rest => csum_continue (csum_add16 partial (le_load [b0; b1])) rest
  | [b] => u32 (partial + b)
  | [] => partial
  end.

Definition csum_finish (partial : Z) : Z :=
  u16 (Z.lnot (u32 (Z.land partial 0xffff + Z.shiftr partial 16))).

Definition csum (data : list Z) : Z := csum_finish (csum_continue 0 data).

Definition recalc_csum16 (old_csum old_u16 new_u16 : Z) : Z :=
  let hc_complement := compl 16 old_csum in
  let m_complement := compl 16 old_u16 in
  let sum := u32 (hc_complement + m_complement + new_u16) in
  let hc_prime_complement := u16 (sum + Z.shiftr sum 16) in
  compl 16 hc_prime_complement.

Definition recalc_csum32 (old_csum old_u32 new_u32 : Z) : Z :=
  recalc_csum16 (recalc_csum16 old_csum (u16 old_u32) (u16 new_u32))
    (Z.shiftr old_u32 16) (Z.shiftr new_u32 16).

Definition recalc_csum64 (old_csum old_u64 new_u64 : Z) : Z :=
  recalc_csum32 (recalc_csum32 old_csum (u32 old_u64) (u32 new_u64))
    (Z.shiftr old_u64 32) (Z.shiftr new_u64 32).

Definition recalc_csum128 (old_csum : Z) (old_u128 new_u128 : list Z) : Z :=
  let old_right := le_load (slice 8 8 old_u128) in
  let new_right := le_load (slice 8 8 new_u128) in
  let old_left := le_load (slice 0 8 old_u128) in
  let new_left := le_load (slice 0 8 new_u128) in
  recalc_csum64 (recalc_csum64 old_csum old_right new_right) old_left new_left.

(** * Specification: ones-complement sums are sums modulo 65535 *)

(** The unbounded sum of the 16-bit words of [data]; an odd last byte counts as
    the low half of a word. *)
Fixpoint word_sum (data : list Z) : Z :=
  match data with
  | b0 :: b1 :: rest => le_load [b0; b1] + word_sum rest
  | [b] => b
  | [] => 0
  end.

(** [c] is a checksum of a text whose words add up to [s]. *)
Definition checks (c s : Z) : Prop := compl 16 c mod 65535 = s mod 65535.

(** The only sum whose folding loses its carry in [recalc_csum16]. *)
Definition carry_free16 (c o n : Z) : Prop :=
  compl 16 c + compl 16 o + n <> 0x1ffff.

#[global] Instance carry_free16_dec c o n : Decision (carry_free16 c o n).
Proof. unfold carry_free16. apply _. Defined.

Lemma list_ind2 (P : list Z -> Prop) :
  P [] -> (forall b, P [b]) -> (forall a b r, P r -> P (a :: b :: r)) -> forall l, P l.
Proof.
  intros H0 H1 H2. fix IH 1. intros [| a [| b r]]; [done | apply H1 | apply H2, IH].
Qed.

Lemma bytes_ok_cons b r : bytes_ok (b :: r) <-> 0 <= b < 256 /\ bytes_ok r.
Proof.
  unfold bytes_ok. rewrite Forall_cons. unfold in_range.
  change (2 ^ 8) with 256. tauto.
Qed.

Lemma word_sum_bounds data :
  bytes_ok data -> 0 <= word_sum data <= 65535 * ((length data + 1) / 2).
Proof.
  induction data as [| b | a b r IH] using list_ind2; intros Hd.
  - simpl. lia.
  - apply bytes_ok_cons in Hd as [Hb _]. simpl. lia.
  - apply bytes_ok_cons in Hd as [Ha Hd]. apply bytes_ok_cons in Hd as [Hb Hd].
    specialize (IH Hd). cbn [word_sum le_load length]. lia.
Qed.

Lemma csum_continue_eq partial data :
  bytes_ok data -> 0 <= partial -> partial + word_sum data < 2 ^ 32 ->
  csum_continue partial data = partial + word_sum data.
Proof.
  revert partial. induction data as [| b | a b r IH] using list_ind2; intros p Hd Hp Hlt.
  - simpl. lia.
  - cbn [csum_continue word_sum] in *. apply bytes_ok_cons in Hd as [Hb _].
    apply wrap_small. unfold in_range. lia.
  - apply bytes_ok_cons in Hd as [Ha Hd]. apply bytes_ok_cons in Hd as [Hb Hd].
    pose proof (word_sum_bounds r Hd) as Hr.
    cbn [csum_continue word_sum] in *. unfold csum_add16.
    cbn [le_load] in *.
    rewrite wrap_small by (unfold in_range; lia). rewrite IH; [lia | done | lia | lia].
Qed.

Lemma compl16_eq z : compl 16 z = 65535 - z mod 65536.
Proof. unfold compl, wrap, Z.lnot. change (2 ^ 16) with 65536. lia. Qed.

Lemma compl16_range z : 0 <= compl 16 z < 65536.
Proof. rewrite compl16_eq. lia. Qed.

Lemma csum_finish_eq p :
  0 <= p < 2 ^ 32 ->
  csum_finish p = compl 16 (p mod 65536 + p / 65536).
Proof.
  intros Hp. unfold csum_finish, compl. f_equal. f_equal.
  change 0xffff with (Z.ones 16).
  rewrite (Z.land_ones p 16), Z.shiftr_div_pow2 by lia.
  apply wrap_small. unfold in_range. lia.
Qed.

Lemma csum_finish_checks p :
  0 <= p < 2 ^ 32 -> p mod 65536 + p / 65536 < 65536 -> checks (csum_finish p) p.
Proof.
  intros Hp Hc. unfold checks. rewrite csum_finish_eq, !compl16_eq by done. lia.
Qed.

Lemma recalc_csum16_unfold c o n :
  0 <= n < 65536 ->
  recalc_csum16 c o n =
    let sum := compl 16 c + compl 16 o + n in compl 16 (sum + sum / 65536).
Proof.
  intros Hn. unfold recalc_csum16. cbv zeta.
  pose proof (compl16_range c). pose proof (compl16_range o).
  rewrite Z.shiftr_div_pow2 by lia. change (2 ^ 16) with 65536.
  rewrite (wrap_small 32) by (unfold in_range; lia).
  rewrite !(compl16_eq (u16 _)), !(compl16_eq (_ + _ / _)).
  unfold wrap. change (2 ^ 16) with 65536. lia.
Qed.

Lemma recalc_csum16_checks c o n s :
  0 <= o < 65536 -> 0 <= n < 65536 -> carry_free16 c o n ->
  checks c s -> checks (recalc_csum16 c o n) (s - o + n).
Proof.
  unfold checks, carry_free16. intros Ho Hn Hcf Hc.
  rewrite recalc_csum16_unfold by done. cbv zeta.
  pose proof (compl16_range c) as Hr. rewrite (compl16_eq (compl _ _)).
  rewrite (compl16_eq (_ + _ / _)).
  rewrite (compl16_eq o) in *. lia.
Qed.

(** Which 16-bit words a wide update goes through, in order. *)
Definition words (n : nat) (z : Z) : list Z :=
  map (fun i => u16 (Z.shiftr z (16 * Z.of_nat i))) (seq 0 n).

Fixpoint recalc_words (c : Z) (os ns : list Z) : Z :=
  match os, ns with
  | o :: os', n :: ns' => recalc_words (recalc_csum16 c o n) os' ns'
  | _, _ => c
  end.

Fixpoint carry_free (c : Z) (os ns : list Z) : bool :=
  match os, ns with
  | o :: os', n :: ns' =>
      bool_decide (carry_free16 c o n) && carry_free (recalc_csum16 c o n) os' ns'
  | _, _ => true
  end.

Definition u16s (ws : list Z) : Prop := Forall (fun z => 0 <= z < 65536) ws.
Definition sum_list_Z (ws : list Z) : Z := foldr Z.add 0 ws.

Lemma recalc_words_app c os1 os2 ns1 ns2 :
  length os1 = length ns1 ->
  recalc_words c (os1 ++ os2) (ns1 ++ ns2) =
    recalc_words (recalc_words c os1 ns1) os2 ns2.
Proof.
  revert c ns1. induction os1 as [| o os IH]; intros c [| n ns] Hl; try done.
  simpl. apply IH. simpl in Hl. lia.
Qed.

Lemma words_range n z : u16s (words n z).
Proof.
  apply Forall_forall. intros x Hx. apply list_elem_of_In, in_map_iff in Hx as (i & <- & _).
  apply (wrap_range 16). lia.
Qed.

Lemma shiftr16 z : Z.shiftr z 16 = z / 65536.
Proof. by rewrite Z.shiftr_div_pow2. Qed.

Lemma recalc_csum32_words c o n :
  in_range 32 o -> in_range 32 n ->
  recalc_csum32 c o n = recalc_words c (words 2 o) (words 2 n).
Proof.
  unfold in_range. intros Ho Hn. unfold recalc_csum32, words. simpl.
  rewrite !Z.shiftr_0_r, !shiftr16.
  rewrite (wrap_small 16 (o / _)), (wrap_small 16 (n / _)) by (unfold in_range; lia).
  done.
Qed.

Lemma words_split4 z : in_range 64 z -> words 4 z = words 2 (u32 z) ++ words 2 (Z.shiftr z 32).
Proof.
  unfold in_range. intros Hz. unfold words. simpl. rewrite !Z.shiftr_0_r, !Z.shiftr_shiftr by lia.
  simpl. unfold wrap.
  repeat (apply (f_equal2 (@cons Z))); try done; rewrite ?Z.shiftr_div_pow2 by lia;
    change (2 ^ 16) with 65536; change (2 ^ 32) with 4294967296; lia.
Qed.

Lemma recalc_csum64_words c o n :
  in_range 64 o -> in_range 64 n ->
  recalc_csum64 c o n = recalc_words c (words 4 o) (words 4 n).
Proof.
  intros Ho Hn. rewrite !words_split4, recalc_words_app by done.
  unfold recalc_csum64.
  assert (forall z, in_range 64 z -> in_range 32 (Z.shiftr z 32)).
  { unfold in_range. intros z Hz. rewrite Z.shiftr_div_pow2; lia. }
  rewrite !recalc_csum32_words by (auto using wrap_range with sw). done.
Qed.

Lemma recalc_words_checks os ns c s :
  length os = length ns -> u16s os -> u16s ns -> carry_free c os ns = true ->
  checks c s ->
  checks (recalc_words c os ns) (s - sum_list_Z os + sum_list_Z ns).
Proof.
  revert ns c s. induction os as [| o os IH]; intros [| n ns] c s Hl Ho Hn Hcf Hc; try done.
  { simpl. by replace (s - 0 + 0) with s by lia. }
  inversion Ho; inversion Hn; subst. simpl in *.
  apply andb_prop in Hcf as [Hcf Hcf']. apply bool_decide_eq_true in Hcf.
  replace (s - (o + sum_list_Z os) + (n + sum_list_Z ns)) with
    ((s - o + n) - sum_list_Z os + sum_list_Z ns) by lia.
  apply IH; auto using recalc_csum16_checks.
Qed.

Lemma word_sum_app a b :
  Nat.Even (length a) -> word_sum (a ++ b) = word_sum a + word_sum b.
Proof.
  induction a as [| x | x y r IH] using list_ind2; intros He; [done | |].
  - destruct He as [k Hk]. simpl in Hk. lia.
  - cbn [app word_sum]. rewrite IH; [lia |]. destruct He as [k Hk]. exists (k - 1)%nat.
    simpl in Hk. lia.
Qed.

(** Changing the [i]-th 16-bit word of a text moves its word sum by the
    difference. *)
Lemma word_sum_patch data i new :
  (2 * i + 2 <= length data)%nat -> 0 <= new < 65536 ->
  word_sum (patch (2 * i) (le_store 2 new) data) =
    word_sum data - le_load (slice (2 * i) 2 data) + new.
Proof.
  intros Hl Hn. rewrite <- (take_drop (2 * i) data) at 2.
  rewrite <- (take_drop 2 (drop (2 * i) data)).
  unfold patch. rewrite le_store_length, drop_drop.
  assert (Nat.Even (length (take (2 * i) data))).
  { rewrite length_take, Nat.min_l by lia. by exists i. }
  rewrite !word_sum_app with (a := take (2 * i) data) by done.
  rewrite !word_sum_app by
    (first [rewrite le_store_length | rewrite length_take, length_drop, Nat.min_l by lia];
     by exists 1%nat).
  fold (slice (2 * i) 2 data).
  assert (length (slice (2 * i) 2 data) = 2%nat) as Hs by (apply slice_length; lia).
  destruct (slice (2 * i) 2 data) as [| x [| y []]]; try done.
  cbn [word_sum]. rewrite <- (wrap_small 16 new) at 2 by (unfold in_range; lia).
  change 16 with (8 * 2%nat). rewrite <- le_load_store. cbn [le_store le_load word_sum]. lia.
Qed.

(** * Properties *)

(** The incremental update is right exactly when its sum is not 0x1ffff:
    if [c] is a checksum of a text with word sum [s], then after replacing a
    word [o] by [n] the value [recalc_csum16 c o n] is a checksum of the new
    text if and only if [~c + ~o + n <> 0x1ffff]; there the folding of the
    source drops a carry. *)
Theorem recalc_csum16_correct_iff c o n s :
  in_range 16 o -> in_range 16 n -> checks c s ->
  checks (recalc_csum16 c o n) (s - o + n) <-> carry_free16 c o n.
Proof.
  unfold in_range. change (2 ^ 16) with 65536. intros Ho Hn Hc.
  split; [| intros; by apply recalc_csum16_checks].
  unfold checks, carry_free16 in *. rewrite recalc_csum16_unfold by done. cbv zeta.
  intros H He. rewrite He in H. pose proof (compl16_range c) as Hr.
  rewrite (compl16_eq (compl _ _)) in H. rewrite (compl16_eq (_ + _ / _)) in H.
  rewrite (compl16_eq o) in *. lia.
Qed.

Lemma recalc_csum16_correct_iff_witness :
  checks (csum [0x45; 0x00; 0x00; 0x54]) 0x5445 /\
  checks (recalc_csum16 (csum [0x45; 0x00; 0x00; 0x54]) 0x0045 0x1045) (0x5445 - 0x0045 + 0x1045).
Proof.
  split; [by vm_compute |].
  apply (recalc_csum16_correct_iff _ 0x0045 0x1045 0x5445); try by vm_compute.
Defined.

(** Updating the checksum of a text in place is the same as recomputing it:
    when the [i]-th 16-bit word of [data] is overwritten, [recalc_csum16] of the
    old checksum and [csum] of the new text agree in ones-complement arithmetic,
    for texts shorter than 131072 bytes whose foldings keep their carries. *)
Theorem recalc_csum16_recomputes data i new :
  let old := le_load (slice (2 * i) 2 data) in
  let data' := patch (2 * i) (le_store 2 new) data in
  bytes_ok data -> bytes_ok data' -> (2 * i + 2 <= length data)%nat -> Z.of_nat (length data) < 131072 ->
  in_range 16 new ->
  word_sum data mod 65536 + word_sum data / 65536 < 65536 ->
  word_sum data' mod 65536 + word_sum data' / 65536 < 65536 ->
  carry_free16 (csum data) old new ->
  compl 16 (recalc_csum16 (csum data) old new) mod 65535 = compl 16 (csum data') mod 65535.
Proof.
  intros old data' Hd Hd' Hl Hmax Hn Hf Hf' Hcf. unfold in_range in Hn.
  change (2 ^ 16) with 65536 in Hn.
  assert (forall t, bytes_ok t -> Z.of_nat (length t) < 131072 ->
    word_sum t mod 65536 + word_sum t / 65536 < 65536 -> checks (csum t) (word_sum t)) as Hck.
  { intros t Ht Hlt Hft. unfold csum. pose proof (word_sum_bounds t Ht).
    rewrite csum_continue_eq by (try done; lia). apply csum_finish_checks; lia. }
  assert (0 <= old < 65536) as Ho.
  { pose proof (le_load_range (slice (2 * i) 2 data)) as Hr.
    rewrite slice_length in Hr by lia. apply Hr. by apply Forall_take, Forall_drop. }
  pose proof (recalc_csum16_checks _ old new _ Ho Hn Hcf (Hck data Hd Hmax Hf)) as H1.
  assert (Z.of_nat (length data') < 131072) as Hlen'
    by (unfold data'; rewrite patch_length; rewrite ?le_store_length; lia).
  pose proof (Hck data' Hd' Hlen' Hf') as H2. unfold checks in H1, H2.
  rewrite H1, H2. unfold data'. by rewrite word_sum_patch.
Qed.

Lemma recalc_csum16_recomputes_witness :
  let data := [0x45; 0x00; 0x00; 0x54; 0x1c; 0x46; 0x40; 0x00] in
  compl 16 (recalc_csum16 (csum data) (le_load (slice 2 2 data)) 0xff01) mod 65535 =
  compl 16 (csum (patch 2 (le_store 2 0xff01) data)) mod 65535.
Proof.
  cbv zeta.
  apply (recalc_csum16_recomputes [0x45; 0x00; 0x00; 0x54; 0x1c; 0x46; 0x40; 0x00] 1 0xff01);
    try by vm_compute.
  - repeat constructor; by vm_compute.
  - cbn. repeat constructor; by vm_compute.
  - simpl. lia.
Defined.

(** The 128-bit update (IPv6 addresses) goes through the eight words of the
    field, the last four first, and is right whenever none of the eight steps
    drops a carry: a checksum of a text with word sum [s] becomes one of
    [s - sum old + sum new]. *)
Theorem recalc_csum128_correct c o n s :
  length o = 16%nat -> length n = 16%nat -> bytes_ok o -> bytes_ok n ->
  let os := words 4 (le_load (slice 8 8 o)) ++ words 4 (le_load (slice 0 8 o)) in
  let ns := words 4 (le_load (slice 8 8 n)) ++ words 4 (le_load (slice 0 8 n)) in
  carry_free c os ns = true -> checks c s ->
  recalc_csum128 c o n = recalc_words c os ns /\
  checks (recalc_csum128 c o n) (s - sum_list_Z os + sum_list_Z ns).
Proof.
  intros Hlo Hln Ho Hn os ns Hcf Hc.
  assert (forall (l : list Z) i, length l = 16%nat -> bytes_ok l -> (i <= 8)%nat ->
    in_range 64 (le_load (slice i 8 l))) as Hr.
  { intros l i Hl Hb Hi. pose proof (le_load_range (slice i 8 l)) as Hr.
    rewrite slice_length in Hr by lia. apply Hr. by apply Forall_take, Forall_drop. }
  assert (recalc_csum128 c o n = recalc_words c os ns) as Heq.
  { unfold recalc_csum128, os, ns. cbv zeta.
    rewrite recalc_words_app by done. rewrite !recalc_csum64_words by (apply Hr; auto; lia). done. }
  split; [done |]. rewrite Heq.
  apply recalc_words_checks; [done | | | done | done];
    apply Forall_app; split; apply words_range.
Qed.

Lemma recalc_csum128_correct_witness :
  let o := repeat 0 16 in let n := [0x20; 0x01; 0x0d; 0xb8; 0;0;0;0;0;0;0;0;0;0;0;1] in
  checks (recalc_csum128 0xffff o n) (0xb80d + 0x0120 + 0x0100).
Proof.
  apply (recalc_csum128_correct 0xffff (repeat 0 16)
    [0x20; 0x01; 0x0d; 0xb8; 0;0;0;0;0;0;0;0;0;0;0;1] 0);
    try by vm_compute.
  - repeat constructor; by vm_compute.
  - repeat constructor; by vm_compute.
Defined.

(** [csum_finish] folds the 32-bit partial sum once: its result is a checksum
    of the sum exactly when that one fold does not itself carry; a second fold is
    missing for the other sums (0x1ffff is the least). *)
Theorem csum_finish_correct_iff p :
  in_range 32 p ->
  checks (csum_finish p) p <-> p mod 65536 + p / 65536 < 65536.
Proof.
  unfold in_range. intros Hp. split; [| by apply csum_finish_checks].
  unfold checks. rewrite csum_finish_eq, !compl16_eq by done. lia.
Qed.

Lemma csum_finish_correct_iff_witness : ~ checks (csum_finish 0x1ffff) 0x1ffff.
Proof.
  intros H. apply (csum_finish_correct_iff 0x1ffff) in H; [| by vm_compute].
  vm_compute in H. discriminate.
Defined.
