(* ===== verification/DList.v ===== *)
(** The intrusive doubly linked lists of lib/list.c at the level of pointers: a
    heap of [prev]/[next] cells, one definition per function with its loads and
    stores in the order of the source, and the refinement of every function to
    an operation on the sequence of the elements of a ring. *)
From S2P Require Import Prelude.
Open Scope Z_scope.

(** Addresses of [struct list] cells. *)
Abbreviation loc := positive.

(** [struct list] (lib/list.h). *)
Record lnode := LNode { prev : loc; next : loc }.

(** The cells that are allocated; an access outside them is undefined behaviour
    in C and [None] here. *)
Abbreviation heap := (gmap loc lnode).

Module DList.

Definition set_prev (h : heap) (p v : loc) : option heap :=
  n ← h !! p; Some (<[p := LNode v (next n)]> h).

Definition set_next (h : heap) (p v : loc) : option heap :=
  n ← h !! p; Some (<[p := LNode (prev n) v]> h).

Definition get_prev (h : heap) (p : loc) : option loc := prev <$> h !! p.
Definition get_next (h : heap) (p : loc) : option loc := next <$> h !! p.

Definition list_init (h : heap) (list : loc) : option heap :=
  h ← set_prev h list list;
  set_next h list list.

Definition list_insert (h : heap) (before elem : loc) : option heap :=
  bp ← get_prev h before;
  h ← set_prev h elem bp;
  h ← set_next h elem before;
  bp ← get_prev h before;
  h ← set_next h bp elem;
  set_prev h before elem.

Definition list_splice (h : heap) (before first last : loc) : option heap :=
  if decide (first = last) then Some h
  else
    last ← get_prev h last;
    fp ← get_prev h first;
    ln ← get_next h last;
    h ← set_next h fp ln;
    ln ← get_next h last;
    fp ← get_prev h first;
    h ← set_prev h ln fp;
    bp ← get_prev h before;
    h ← set_prev h first bp;
    h ← set_next h last before;
    bp ← get_prev h before;
    h ← set_next h bp first;
    set_prev h before last.

Definition list_push_front (h : heap) (list elem : loc) : option heap :=
  n ← get_next h list;
  list_insert h n elem.

Definition list_push_back (h : heap) (list elem : loc) : option heap :=
  list_insert h list elem.

Definition list_replace (h : heap) (element position : loc) : option heap :=
  pn ← get_next h position;
  h ← set_next h element pn;
  en ← get_next h element;
  h ← set_prev h en element;
  pp ← get_prev h position;
  h ← set_prev h element pp;
  ep ← get_prev h element;
  set_next h ep element.

Definition list_remove (h : heap) (elem : loc) : option (heap * loc) :=
  ep ← get_prev h elem;
  en ← get_next h elem;
  h ← set_next h ep en;
  en ← get_next h elem;
  ep ← get_prev h elem;
  h ← set_prev h en ep;
  en ← get_next h elem;
  Some (h, en).

Definition list_pop_front (h : heap) (list : loc) : option (heap * loc) :=
  front ← get_next h list;
  r ← list_remove h front;
  Some (fst r, front).

Definition list_pop_back (h : heap) (list : loc) : option (heap * loc) :=
  back ← get_prev h list;
  r ← list_remove h back;
  Some (fst r, back).

Definition list_is_empty (h : heap) (list : loc) : option bool :=
  n ← get_next h list; Some (bool_decide (n = list)).

(** The assertion that fails aborts the process: [None]. *)
Definition list_front (h : heap) (list : loc) : option loc :=
  e ← list_is_empty h list;
  if (e : bool) then None else get_next h list.

Definition list_back (h : heap) (list : loc) : option loc :=
  e ← list_is_empty h list;
  if (e : bool) then None else get_prev h list.

(** The loop of [list_size]; [fuel] bounds the number of iterations. *)
Fixpoint list_size_loop (fuel : nat) (h : heap) (l e : loc) (cnt : Z) : option Z :=
  if decide (e = l) then Some cnt
  else match fuel with
       | O => None
       | S fuel => e ← get_next h e; list_size_loop fuel h l e (u64 (cnt + 1))
       end.

Definition list_size (fuel : nat) (h : heap) (l : loc) : option Z :=
  e ← get_next h l; list_size_loop fuel h l e 0.

(** The cells [LIST_FOR_EACH] gives to its body, and those of
    [LIST_FOR_EACH_REVERSE], when the body leaves the links alone. *)
Fixpoint for_each_loop (fuel : nat) (step : loc -> option loc) (l e : loc)
  : option (list loc) :=
  if decide (e = l) then Some []
  else match fuel with
       | O => None
       | S fuel => n ← step e; r ← for_each_loop fuel step l n; Some (e :: r)
       end.

Definition list_for_each (fuel : nat) (h : heap) (l : loc) : option (list loc) :=
  e ← get_next h l; for_each_loop fuel (get_next h) l e.

Definition list_for_each_reverse (fuel : nat) (h : heap) (l : loc)
  : option (list loc) :=
  e ← get_prev h l; for_each_loop fuel (get_prev h) l e.

(** * The ring of a list

    [ring h hd xs]: from the head [hd] the [next] pointers go through [xs] and
    back to [hd], and the [prev] pointers the other way. *)

Definition link (h : heap) (a b : loc) : Prop :=
  get_next h a = Some b /\ get_prev h b = Some a.

Definition ring (h : heap) (hd : loc) (xs : list loc) : Prop :=
  NoDup (hd :: xs) /\ Forall2 (link h) (hd :: xs) (xs ++ [hd]).

Lemma set_next_inv h p v h' :
  set_next h p v = Some h' ->
  (forall q, get_next h' q = if decide (q = p) then Some v else get_next h q) /\
  (forall q, get_prev h' q = get_prev h q) /\ dom h' = dom h.
Proof.
  unfold set_next, get_next, get_prev. intros H. simplify_option_eq.
  split_and!; [intros q; case_decide; subst; by simplify_map_eq |
    intros q; destruct (decide (q = p)); subst; by simplify_map_eq |
    rewrite dom_insert_lookup_L; [done | by eexists]].
Qed.

Lemma set_prev_inv h p v h' :
  set_prev h p v = Some h' ->
  (forall q, get_prev h' q = if decide (q = p) then Some v else get_prev h q) /\
  (forall q, get_next h' q = get_next h q) /\ dom h' = dom h.
Proof.
  unfold set_prev, get_next, get_prev. intros H. simplify_option_eq.
  split_and!; [intros q; case_decide; subst; by simplify_map_eq |
    intros q; destruct (decide (q = p)); subst; by simplify_map_eq |
    rewrite dom_insert_lookup_L; [done | by eexists]].
Qed.

Lemma set_next_ok h p v : p ∈ dom h -> exists h', set_next h p v = Some h'.
Proof. intros [n Hn]%elem_of_dom. unfold set_next. rewrite Hn. by eexists. Qed.

Lemma set_prev_ok h p v : p ∈ dom h -> exists h', set_prev h p v = Some h'.
Proof. intros [n Hn]%elem_of_dom. unfold set_prev. rewrite Hn. by eexists. Qed.

Lemma get_prev_dom h p v : get_prev h p = Some v -> p ∈ dom h.
Proof. unfold get_prev. intros (n & Hn & _)%fmap_Some. by apply elem_of_dom_2 in Hn. Qed.

Lemma get_next_dom h p v : get_next h p = Some v -> p ∈ dom h.
Proof. unfold get_next. intros (n & Hn & _)%fmap_Some. by apply elem_of_dom_2 in Hn. Qed.

Lemma cell_ext h h' p :
  get_next h' p = get_next h p -> get_prev h' p = get_prev h p -> h' !! p = h !! p.
Proof.
  unfold get_next, get_prev.
  destruct (h !! p) as [[]|], (h' !! p) as [[]|]; simpl; congruence.
Qed.

(** Runs the next store of an operation: names the heap after it and records
    what it does to the loads. *)
Ltac do_store :=
  let h' := fresh "h" in let E := fresh "E" in
  let N := fresh "N" in let P := fresh "P" in let D := fresh "D" in
  match goal with
  | |- context [set_next ?h ?p ?v] =>
      destruct (set_next_ok h p v) as [h' E];
      [| rewrite E; simpl; destruct (set_next_inv h p v h' E) as (N & P & D); clear E ]
  | |- context [set_prev ?h ?p ?v] =>
      destruct (set_prev_ok h p v) as [h' E];
      [| rewrite E; simpl; destruct (set_prev_inv h p v h' E) as (P & N & D); clear E ]
  end.

(** Evaluates the loads of the goal through the stores before them. *)
Ltac do_load :=
  repeat match goal with
  | H : (forall q, get_next ?h' q = _) |- context [get_next ?h' _] => rewrite H
  | H : (forall q, get_prev ?h' q = _) |- context [get_prev ?h' _] => rewrite H
  | H : get_next ?h ?p = Some _ |- context [get_next ?h ?p] => rewrite H
  | H : get_prev ?h ?p = Some _ |- context [get_prev ?h ?p] => rewrite H
  | |- context [decide (?a = ?a)] => rewrite (decide_True (P := a = a)) by done
  | |- context [decide (?a = ?b)] => rewrite (decide_False (P := a = b)) by congruence
  end; simpl.

Ltac cell_eqs :=
  let q := fresh "q" in intros q;
  repeat match goal with H : (forall q, _) |- _ => rewrite H end;
  by repeat case_decide; subst.

Lemma list_insert_eff h before elem a :
  get_prev h before = Some a -> a ∈ dom h -> elem ∈ dom h -> elem <> before -> elem <> a ->
  exists h', list_insert h before elem = Some h' /\
    (forall q, get_next h' q = if decide (q = a) then Some elem
                         else if decide (q = elem) then Some before else get_next h q) /\
    (forall q, get_prev h' q = if decide (q = before) then Some elem
                         else if decide (q = elem) then Some a else get_prev h q) /\
    dom h' = dom h.
Proof.
  intros Hb Ha He Hne Hna. pose proof (get_prev_dom _ _ _ Hb) as Hbd.
  unfold list_insert. rewrite Hb. simpl.
  do_store; [done |]. do_store; [congruence |]. do_load.
  do_store; [congruence |]. do_store; [congruence |].
  eexists. split_and!; [done | cell_eqs | cell_eqs | congruence].
Qed.

Lemma list_remove_eff h elem a b :
  get_prev h elem = Some a -> get_next h elem = Some b -> a ∈ dom h -> b ∈ dom h ->
  a <> elem -> b <> elem ->
  exists h', list_remove h elem = Some (h', b) /\
    (forall q, get_next h' q = if decide (q = a) then Some b else get_next h q) /\
    (forall q, get_prev h' q = if decide (q = b) then Some a else get_prev h q) /\
    dom h' = dom h.
Proof.
  intros Hp Hn Ha Hb Hna Hnb. unfold list_remove. rewrite Hp, Hn. simpl.
  do_store; [done |]. do_load. do_store; [congruence |]. do_load.
  eexists. split_and!; [done | cell_eqs | cell_eqs | congruence].
Qed.

(** ** Sequences of links *)

Lemma links_frame h h' ss ts :
  Forall2 (link h) ss ts ->
  (forall p, p ∈ ss -> get_next h' p = get_next h p) ->
  (forall p, p ∈ ts -> get_prev h' p = get_prev h p) ->
  Forall2 (link h') ss ts.
Proof.
  induction 1 as [| a b ss ts [Hn Hp] _ IH]; intros Hs Ht; constructor.
  - split; [rewrite Hs | rewrite Ht]; set_solver.
  - apply IH; intros; [apply Hs | apply Ht]; set_solver.
Qed.

Lemma links_split h S1 a S2 T1 b T2 :
  length S1 = length T1 ->
  Forall2 (link h) (S1 ++ a :: S2) (T1 ++ b :: T2) <->
  Forall2 (link h) S1 T1 /\ link h a b /\ Forall2 (link h) S2 T2.
Proof.
  intros Hl. split.
  - intros (l1 & l2 & H1 & H2 & Heq)%Forall2_app_inv_l.
    apply Forall2_length in H1 as Hl1.
    apply app_inj_1 in Heq as [<- <-]; [| lia].
    inversion H2; by subst.
  - intros (H1 & H2 & H3). apply Forall2_app; [done |]. by constructor.
Qed.

Lemma ring_split (hd : loc) (xs ys : list loc) :
  exists S1 a b T2,
    hd :: xs = S1 ++ [a] /\ ys ++ [hd] = b :: T2 /\ length S1 = length xs /\
    hd :: xs ++ ys = S1 ++ a :: ys /\ (xs ++ ys) ++ [hd] = xs ++ b :: T2.
Proof.
  destruct (exists_last (l := hd :: xs)) as (S1 & a & Ha); [done |].
  destruct (ys ++ [hd]) as [| b T2] eqn:Hb; [by destruct ys |].
  exists S1, a, b, T2. split_and!; try done.
  - apply (f_equal length) in Ha. rewrite length_app in Ha. simpl in Ha. lia.
  - change (hd :: xs ++ ys) with ((hd :: xs) ++ ys). rewrite Ha, <- app_assoc. done.
  - rewrite <- app_assoc, Hb. done.
Qed.

Lemma ring_targets_nodup (hd : loc) (xs : list loc) : NoDup (hd :: xs) -> NoDup (xs ++ [hd]).
Proof. intros H. by rewrite <- Permutation_cons_append. Qed.

Lemma ring_dom h hd xs p : ring h hd xs -> p ∈ hd :: xs -> p ∈ dom h.
Proof.
  intros [_ H] Hp. apply list_elem_of_lookup in Hp as [i Hi].
  destruct (Forall2_lookup_l _ _ _ _ _ H Hi) as (b & _ & [Hn _]).
  by eapply get_next_dom.
Qed.

Lemma ring_frame h h' hd xs :
  ring h hd xs -> (forall p, p ∈ hd :: xs -> h' !! p = h !! p) -> ring h' hd xs.
Proof.
  intros [Hnd H] Hf. split; [done |].
  apply (links_frame h); [done | |]; intros p Hp; unfold get_next, get_prev;
    rewrite Hf; set_solver.
Qed.

(** [h'] differs from [h] at most at the cells of [ps]. *)
Definition frame (h h' : heap) (ps : list loc) : Prop :=
  dom h' = dom h /\ forall p, p ∉ ps -> h' !! p = h !! p.

Lemma ring_init h hd :
  hd ∈ dom h -> exists h', list_init h hd = Some h' /\ ring h' hd [] /\ frame h h' [hd].
Proof.
  intros Hd. unfold list_init. do_store; [done |]. do_store; [congruence |].
  eexists. split_and!; [done | |].
  - split; [apply NoDup_singleton |]. constructor; [| constructor].
    split; do_load; done.
  - split; [congruence |]. intros p Hp. apply cell_ext; do_load;
      rewrite decide_False by set_solver; done.
Qed.

(** Frame steps of the link lemmas: the cells concerned are not those of the
    sequence. *)
Ltac links_same h :=
  apply (links_frame h); [done | |]; intros p Hp; do_load; rewrite ?decide_False; set_solver.

Lemma links_insert h h' S1 a S2 T1 b T2 e :
  length S1 = length T1 -> NoDup (S1 ++ a :: S2) -> NoDup (T1 ++ b :: T2) ->
  e ∉ S1 ++ a :: S2 -> e ∉ T1 ++ b :: T2 ->
  (forall q, get_next h' q = if decide (q = a) then Some e
                       else if decide (q = e) then Some b else get_next h q) ->
  (forall q, get_prev h' q = if decide (q = b) then Some e
                       else if decide (q = e) then Some a else get_prev h q) ->
  Forall2 (link h) (S1 ++ a :: S2) (T1 ++ b :: T2) ->
  Forall2 (link h') (S1 ++ a :: e :: S2) (T1 ++ e :: b :: T2).
Proof.
  intros El (_ & Hs1 & [Hs2 _]%NoDup_cons)%list.NoDup_app (_ & Ht1 & [Ht2 _]%NoDup_cons)%list.NoDup_app
    Hes Het N P (H1 & _ & H2)%links_split; [| done].
  assert (e <> a) by set_solver. assert (e <> b) by set_solver.
  apply links_split; [done |]. split_and!; [links_same h | split; by do_load |].
  constructor; [split; by do_load | links_same h].
Qed.

Lemma links_remove h h' S1 a S2 T1 b T2 e :
  length S1 = length T1 -> NoDup (S1 ++ a :: e :: S2) -> NoDup (T1 ++ e :: b :: T2) ->
  (forall q, get_next h' q = if decide (q = a) then Some b else get_next h q) ->
  (forall q, get_prev h' q = if decide (q = b) then Some a else get_prev h q) ->
  Forall2 (link h) (S1 ++ a :: e :: S2) (T1 ++ e :: b :: T2) ->
  Forall2 (link h') (S1 ++ a :: S2) (T1 ++ b :: T2).
Proof.
  intros El (_ & Hs1 & [Hs2 _]%NoDup_cons)%list.NoDup_app
    (_ & Ht1 & [Ht2 [Ht3 _]%NoDup_cons]%NoDup_cons)%list.NoDup_app
    N P (H1 & _ & H2)%links_split; [| done].
  inversion H2; subst.
  apply links_split; [done |]. split_and!; [links_same h | split; by do_load | links_same h].
Qed.

Lemma ring_insert h hd xs ys before e :
  ring h hd (xs ++ ys) -> head (ys ++ [hd]) = Some before ->
  e ∉ hd :: xs ++ ys -> e ∈ dom h ->
  exists h', list_insert h before e = Some h' /\ ring h' hd (xs ++ e :: ys) /\
    frame h h' (e :: hd :: xs ++ ys).
Proof.
  intros Hr Hh He Hd. pose proof Hr as [Hnd Hl].
  destruct (ring_split hd xs ys) as (S1 & a & b & T2 & E1 & E2 & El & E3 & E4).
  rewrite E2 in Hh. simplify_eq/=.
  pose proof (ring_targets_nodup _ _ Hnd) as Hnt. rewrite E4 in Hl, Hnt.
  assert (before ∈ hd :: xs ++ ys) as Hbm.
  { assert (before ∈ ys ++ [hd]) by (rewrite E2; set_solver). set_solver. }
  assert (e ∉ xs ++ before :: T2) as Het by (rewrite <- E4; set_solver).
  assert (NoDup (hd :: xs ++ e :: ys)) as Hnd'.
  { change (hd :: xs ++ e :: ys) with ((hd :: xs) ++ e :: ys).
    rewrite <- Permutation_middle. by apply NoDup_cons. }
  rewrite E3 in *. pose proof (proj1 (links_split _ _ _ _ _ _ _ El) Hl) as (_ & [Hn Hp] & _).
  destruct (list_insert_eff h before e a) as (h' & Hi & N & P & D);
    [done | by eapply get_next_dom | done | set_solver | set_solver |].
  exists h'. split_and!; [done | split; [done |] | split; [done |]].
  - replace (hd :: xs ++ e :: ys) with (S1 ++ a :: e :: ys)
      by (change (hd :: xs ++ e :: ys) with ((hd :: xs) ++ e :: ys); by rewrite E1, <- app_assoc).
    replace ((xs ++ e :: ys) ++ [hd]) with (xs ++ e :: before :: T2)
      by (rewrite <- app_assoc; simpl; by rewrite E2).
    by apply (links_insert h).
  - intros p Hp'. apply cell_ext; do_load; rewrite ?decide_False; set_solver.
Qed.

Lemma ring_remove h hd xs ys e :
  ring h hd (xs ++ e :: ys) ->
  exists h' n, list_remove h e = Some (h', n) /\ head (ys ++ [hd]) = Some n /\
    ring h' hd (xs ++ ys) /\ frame h h' (hd :: xs ++ ys).
Proof.
  intros [Hnd Hl].
  destruct (ring_split hd xs ys) as (S1 & a & b & T2 & E1 & E2 & El & E3 & E4).
  pose proof (ring_targets_nodup _ _ Hnd) as Hnt.
  assert (hd :: xs ++ e :: ys = S1 ++ a :: e :: ys) as E5
    by (change (hd :: xs ++ e :: ys) with ((hd :: xs) ++ e :: ys); by rewrite E1, <- app_assoc).
  assert ((xs ++ e :: ys) ++ [hd] = xs ++ e :: b :: T2) as E6
    by (rewrite <- app_assoc; simpl; by rewrite E2).
  assert (e ∉ hd :: xs ++ ys /\ NoDup (hd :: xs ++ ys)) as [He Hnd'].
  { change (hd :: xs ++ e :: ys) with ((hd :: xs) ++ e :: ys) in Hnd.
    rewrite <- Permutation_middle in Hnd. by apply NoDup_cons in Hnd. }
  assert (b ∈ hd :: xs ++ ys) as Hbm.
  { assert (b ∈ ys ++ [hd]) by (rewrite E2; set_solver). set_solver. }
  rewrite E5 in Hl, Hnd. rewrite E6 in Hl, Hnt. rewrite E3 in *.
  pose proof (proj1 (links_split _ _ _ _ _ _ _ El) Hl) as (_ & [Hn Hp] & H2).
  inversion H2 as [| ? ? ? ? [Hn' Hp']]; subst.
  destruct (list_remove_eff h e a b) as (h' & Hi & N & P & D);
    [done | done | by eapply get_next_dom | by eapply get_prev_dom | set_solver | set_solver |].
  exists h', b. rewrite E2. split_and!; [done | done | split; rewrite ?E3, ?E4; [done |] | split; [done |]].
  - by apply (links_remove h _ _ _ _ _ _ _ e).
  - intros p Hp''. apply cell_ext; do_load; rewrite ?decide_False; set_solver.
Qed.

Lemma list_replace_eff h e p a n :
  get_prev h p = Some a -> get_next h p = Some n -> a ∈ dom h -> n ∈ dom h -> e ∈ dom h ->
  e <> p -> n <> p -> a <> p -> e <> a -> e <> n ->
  exists h', list_replace h e p = Some h' /\
    (forall q, get_next h' q = if decide (q = a) then Some e
                         else if decide (q = e) then Some n else get_next h q) /\
    (forall q, get_prev h' q = if decide (q = n) then Some e
                         else if decide (q = e) then Some a else get_prev h q) /\
    dom h' = dom h.
Proof.
  intros Hp Hn Ha Hnd He ? ? ? ? ?. unfold list_replace. rewrite Hn. simpl.
  do_store; [done |]. do_load. do_store; [congruence |]. do_load.
  do_store; [congruence |]. do_load. do_store; [congruence |].
  eexists. split_and!; [done | cell_eqs | cell_eqs | congruence].
Qed.

(** Replacing the head of an empty list: the last two stores of [list_replace]
    see the effect of the first two and close the new head on itself. *)
Lemma ring_replace_empty h hd e :
  ring h hd [] -> e <> hd -> e ∈ dom h ->
  exists h', list_replace h e hd = Some h' /\ ring h' e [] /\ frame h h' [e; hd].
Proof.
  intros [_ Hl] Hne He. inversion Hl as [| ? ? ? ? [Hn Hp]]; subst.
  pose proof (get_next_dom _ _ _ Hn). unfold list_replace. rewrite Hn. simpl.
  do_store; [done |]. do_load. do_store; [congruence |]. do_load.
  do_store; [congruence |]. do_load. do_store; [congruence |].
  eexists. split_and!; [done | split; [apply NoDup_singleton |] | split; [congruence |]].
  - constructor; [split; by do_load | constructor].
  - intros q Hq. apply cell_ext; do_load; rewrite ?decide_False; set_solver.
Qed.

Lemma links_replace_head h h' hd e n xs S1 a :
  length S1 = length xs -> NoDup (hd :: S1 ++ [a]) -> NoDup (n :: xs ++ [hd]) ->
  e ∉ hd :: S1 ++ [a] -> e ∉ n :: xs ->
  (forall q, get_next h' q = if decide (q = a) then Some e
                       else if decide (q = e) then Some n else get_next h q) ->
  (forall q, get_prev h' q = if decide (q = n) then Some e
                       else if decide (q = e) then Some a else get_prev h q) ->
  Forall2 (link h) (hd :: S1 ++ [a]) (n :: xs ++ [hd]) ->
  Forall2 (link h') (e :: S1 ++ [a]) (n :: xs ++ [e]).
Proof.
  intros El [Hs1 (_ & Hs2 & _)%list.NoDup_app]%NoDup_cons
    [Ht1 (_ & Ht2 & _)%list.NoDup_app]%NoDup_cons Hes Het N P Hl.
  inversion Hl as [| ? ? ? ? _ Hl']; subst.
  apply links_split in Hl' as (H1 & _ & _); [| done].
  assert (e <> a) by set_solver. assert (e <> n) by set_solver.
  constructor; [split; by do_load |].
  apply links_split; [done |]. split_and!; [links_same h | split; by do_load | constructor].
Qed.

Lemma ring_replace_head h hd e xs :
  ring h hd xs -> e ∉ hd :: xs -> e ∈ dom h ->
  exists h', list_replace h e hd = Some h' /\ ring h' e xs /\ frame h h' (e :: hd :: xs).
Proof.
  destruct xs as [| n xs]; [intros; apply ring_replace_empty; set_solver |].
  intros [Hnd Hl] He Hd. pose proof (ring_targets_nodup _ _ Hnd) as Hnt.
  destruct (exists_last (l := n :: xs)) as (S1 & a & Ha); [done |].
  assert (length S1 = length xs) as El.
  { apply (f_equal length) in Ha. rewrite length_app in Ha. simpl in Ha. lia. }
  assert (a ∈ n :: xs) as Ham by (rewrite Ha; set_solver).
  assert (Forall2 (link h) (hd :: S1 ++ [a]) (n :: xs ++ [hd])) as Hl' by (by rewrite <- Ha).
  inversion Hl' as [| ? ? ? ? [Hhn Hhp] Hl'']; subst.
  apply links_split in Hl'' as (_ & [Han Hap] & _); [| done].
  assert (n <> hd /\ a <> hd) as [? ?].
  { apply NoDup_cons in Hnd as [Hnd _]. split; set_solver. }
  destruct (list_replace_eff h e hd a n) as (h' & Hr & N & P & D);
    [done | done | by eapply get_next_dom | by eapply get_prev_dom | done | set_solver..|].
  exists h'. split_and!; [done | split; [|] | split; [done |]].
  - apply NoDup_cons. split; [set_solver |]. by apply NoDup_cons in Hnd as [_ ?].
  - change ((n :: xs) ++ [e]) with (n :: xs ++ [e]). rewrite Ha at 1.
    apply (links_replace_head h h' hd); try done; rewrite <- ?Ha; set_solver.
  - intros q Hq. apply cell_ext; do_load; rewrite ?decide_False; set_solver.
Qed.

(** ** Splicing a segment into another ring *)

Lemma list_splice_eff h before f l0 l fp bp :
  f <> l0 -> get_prev h l0 = Some l -> get_prev h f = Some fp -> get_next h l = Some l0 ->
  get_prev h before = Some bp -> fp ∈ dom h -> bp ∈ dom h ->
  before <> f -> before <> l0 -> before <> l -> bp <> fp -> bp <> l -> fp <> l ->
  exists h', list_splice h before f l0 = Some h' /\
    (forall q, get_next h' q = if decide (q = bp) then Some f else if decide (q = l) then Some before
                         else if decide (q = fp) then Some l0 else get_next h q) /\
    (forall q, get_prev h' q = if decide (q = before) then Some l else if decide (q = f) then Some bp
                         else if decide (q = l0) then Some fp else get_prev h q) /\
    dom h' = dom h.
Proof.
  intros Hne Hl0 Hf Hl Hb Hfp Hbp ? ? ? ? ? ?.
  pose proof (get_prev_dom _ _ _ Hl0). pose proof (get_prev_dom _ _ _ Hf).
  pose proof (get_next_dom _ _ _ Hl). pose proof (get_prev_dom _ _ _ Hb).
  unfold list_splice. rewrite decide_False by done. rewrite Hl0. simpl. rewrite Hf, Hl. simpl.
  do_store; [done |]. do_load. do_store; [congruence |]. do_load.
  do_store; [congruence |]. do_store; [congruence |]. do_load.
  do_store; [congruence |]. do_store; [congruence |].
  eexists. split_and!; [done | cell_eqs | cell_eqs | congruence].
Qed.

(** The list operations on sequences of links: what stays of the ring the
    segment is cut from, and the ring it goes into. *)
Lemma links_cut h h' S1 a zi l S2 T1 f zt b T2 :
  length S1 = length T1 -> length zi = length zt ->
  (forall q, q ∈ S1 ++ S2 -> get_next h' q = get_next h q) ->
  (forall q, q ∈ T1 ++ T2 -> get_prev h' q = get_prev h q) ->
  get_next h' a = Some b -> get_prev h' b = Some a ->
  Forall2 (link h) (S1 ++ a :: zi ++ l :: S2) (T1 ++ f :: zt ++ b :: T2) ->
  Forall2 (link h) zi zt /\ Forall2 (link h') (S1 ++ a :: S2) (T1 ++ b :: T2).
Proof.
  intros El Ez N P Ha Hb (H1 & _ & (H2 & _ & H3)%links_split)%links_split; [| done..].
  split; [done |]. apply links_split; [done |]. split_and!; [| done |].
  - apply (links_frame h); [done | |]; intros; [apply N | apply P]; set_solver.
  - apply (links_frame h); [done | |]; intros; [apply N | apply P]; set_solver.
Qed.

Lemma links_paste h h' S1 a S2 T1 b T2 f zt zi l :
  length S1 = length T1 -> length zi = length zt ->
  (forall q, q ∈ S1 ++ S2 ++ zi -> get_next h' q = get_next h q) ->
  (forall q, q ∈ T1 ++ T2 ++ zt -> get_prev h' q = get_prev h q) ->
  get_next h' a = Some f -> get_prev h' f = Some a ->
  get_next h' l = Some b -> get_prev h' b = Some l ->
  Forall2 (link h) zi zt ->
  Forall2 (link h) (S1 ++ a :: S2) (T1 ++ b :: T2) ->
  Forall2 (link h') (S1 ++ a :: zi ++ l :: S2) (T1 ++ f :: zt ++ b :: T2).
Proof.
  intros El Ez N P Ha Hf Hl Hb Hz (H1 & _ & H2)%links_split; [| done].
  apply links_split; [done |]. split_and!; [| done |].
  - apply (links_frame h); [done | |]; intros; [apply N | apply P]; set_solver.
  - apply links_split; [done |]. split_and!; [| done |];
      (apply (links_frame h); [done | |]; intros; [apply N | apply P]; set_solver).
Qed.

Lemma NoDup_mid {A} (l1 l2 : list A) x :
  NoDup (l1 ++ x :: l2) -> x ∉ l1 /\ x ∉ l2 /\ NoDup (l1 ++ l2).
Proof.
  rewrite <- Permutation_middle. intros [H1 H2]%NoDup_cons. set_solver.
Qed.

Lemma NoDup_seg {A} (l1 zs l2 : list A) :
  NoDup (l1 ++ zs ++ l2) -> NoDup (l1 ++ l2) /\ forall z, z ∈ zs -> z ∉ l1 ++ l2.
Proof.
  rewrite (Permutation_app_swap_app l1 zs l2). intros (_ & H1 & H2)%list.NoDup_app. done.
Qed.

(** Two cells differ because a sequence holds one and not the other. *)
Ltac mem_ne :=
  repeat match goal with
  | H : context [_ ∈ _ ++ _] |- _ => rewrite elem_of_app in H
  | H : context [_ ∈ _ :: _] |- _ => rewrite elem_of_cons in H
  end;
  destruct_or?; let E := fresh in intros E;
  first [ congruence | subst; tauto
        | match goal with
          | D : (forall p q, _ -> _ -> p <> q) |- _ =>
              first [ apply (D _ _) in E; tauto | symmetry in E; apply (D _ _) in E; tauto ]
          end ].

Lemma links_splice h S1 a zi l S2 T1 f zt b T2 S1' a' S2' T1' b' T2' :
  length S1 = length T1 -> length zi = length zt -> length S1' = length T1' ->
  NoDup (S1 ++ a :: zi ++ l :: S2) -> NoDup (T1 ++ f :: zt ++ b :: T2) ->
  NoDup (S1' ++ a' :: S2') -> NoDup (T1' ++ b' :: T2') ->
  (forall p, p ∈ S1 ++ a :: zi ++ l :: S2 -> p ∉ S1' ++ a' :: S2') ->
  (forall p, p ∈ T1 ++ f :: zt ++ b :: T2 -> p ∉ T1' ++ b' :: T2') ->
  b' <> l ->
  Forall2 (link h) (S1 ++ a :: zi ++ l :: S2) (T1 ++ f :: zt ++ b :: T2) ->
  Forall2 (link h) (S1' ++ a' :: S2') (T1' ++ b' :: T2') ->
  exists h', list_splice h b' f b = Some h' /\
    Forall2 (link h') (S1 ++ a :: S2) (T1 ++ b :: T2) /\
    Forall2 (link h') (S1' ++ a' :: zi ++ l :: S2') (T1' ++ f :: zt ++ b' :: T2').
Proof.
  intros El Ez El' (Ha1 & Ha2 & Hns)%NoDup_mid (Hf1 & Hf2 & Hnt)%NoDup_mid
    (Ha1' & Ha2' & _)%NoDup_mid (Hb1' & Hb2' & _)%NoDup_mid Hds Hdt Hbl Hl Hl'.
  rewrite app_assoc in Hns, Hnt.
  apply NoDup_mid in Hns as (Hl1 & Hl2 & _). apply NoDup_mid in Hnt as (Hb1 & Hb2 & _).
  pose proof (proj1 (links_split _ _ _ _ _ _ _ El) Hl) as (_ & [Hfa Haf] & Hr).
  pose proof (proj1 (links_split _ _ _ _ _ _ _ Ez) Hr) as (_ & [Hnl Hpl] & _).
  pose proof (proj1 (links_split _ _ _ _ _ _ _ El') Hl') as (_ & [Hn2 Hp2] & _).
  assert (forall p q, p ∈ S1 ++ a :: zi ++ l :: S2 -> q ∈ S1' ++ a' :: S2' -> p <> q) as Ds
    by (intros p q Hp Hq ->; by eapply Hds).
  assert (forall p q, p ∈ T1 ++ f :: zt ++ b :: T2 -> q ∈ T1' ++ b' :: T2' -> p <> q) as Dt
    by (intros p q Hp Hq ->; by eapply Hdt).
  clear Hds Hdt Hr.
  repeat first [setoid_rewrite elem_of_app in Ds | setoid_rewrite elem_of_cons in Ds].
  repeat first [setoid_rewrite elem_of_app in Dt | setoid_rewrite elem_of_cons in Dt].
  repeat rewrite ?not_elem_of_app, ?not_elem_of_cons in *.
  destruct (list_splice_eff h b' f b l a a') as (h' & Hs & N & P & _);
    [ mem_ne | done | done | done | done | by eapply get_next_dom | by eapply get_next_dom | mem_ne ..|].
  exists h'. split; [done |].
  destruct (links_cut h h' S1 a zi l S2 T1 f zt b T2) as [Hzz Hcut]; try done;
    [intros q Hq; rewrite N, !decide_False by mem_ne; done |
     intros q Hq; rewrite P, !decide_False by mem_ne; done |
     by rewrite N, 2!decide_False, decide_True by (first [done | mem_ne]) |
     by rewrite P, 2!decide_False, decide_True by (first [done | mem_ne]) |].
  split; [done |]. apply (links_paste h); try done;
    [intros q Hq; rewrite N, !decide_False by mem_ne; done |
     intros q Hq; rewrite P, !decide_False by mem_ne; done | ..];
    rewrite ?N, ?P; repeat first [rewrite decide_True by done | rewrite decide_False by mem_ne];
    done.
Qed.

Lemma ring_splice_nodup (h1 h2 : loc) (xs1 zs ys1 xs2 ys2 : list loc) :
  NoDup (h1 :: xs1 ++ zs ++ ys1) -> NoDup (h2 :: xs2 ++ ys2) ->
  (forall p, p ∈ h1 :: xs1 ++ zs ++ ys1 -> p ∉ h2 :: xs2 ++ ys2) ->
  NoDup (h1 :: xs1 ++ ys1) /\ NoDup (h2 :: xs2 ++ zs ++ ys2).
Proof.
  intros H1 H2 Hd.
  change (h1 :: xs1 ++ zs ++ ys1) with ((h1 :: xs1) ++ zs ++ ys1) in H1.
  rewrite (Permutation_app_swap_app (h1 :: xs1) zs ys1) in H1.
  apply list.NoDup_app in H1 as (Hz & _ & H1). split; [done |].
  change (h2 :: xs2 ++ zs ++ ys2) with ((h2 :: xs2) ++ zs ++ ys2).
  rewrite (Permutation_app_swap_app (h2 :: xs2) zs ys2).
  apply list.NoDup_app. split_and!; [done | | done].
  intros z Hz'. apply Hd. set_solver.
Qed.

Lemma ring_splice h h1 xs1 zs ys1 h2 xs2 ys2 first last before :
  ring h h1 (xs1 ++ zs ++ ys1) -> ring h h2 (xs2 ++ ys2) ->
  (forall p, p ∈ h1 :: xs1 ++ zs ++ ys1 -> p ∉ h2 :: xs2 ++ ys2) ->
  head (zs ++ ys1 ++ [h1]) = Some first -> head (ys1 ++ [h1]) = Some last ->
  head (ys2 ++ [h2]) = Some before ->
  exists h', list_splice h before first last = Some h' /\
    ring h' h1 (xs1 ++ ys1) /\ ring h' h2 (xs2 ++ zs ++ ys2).
Proof.
  intros [Hnd1 Hl1] [Hnd2 Hl2] Hdis Hf Hl Hb.
  destruct zs as [| f zt].
  { simpl in Hf. rewrite Hf in Hl. simplify_eq. unfold list_splice.
    rewrite decide_True by done. exists h. split; [done |]. by split. }
  destruct (ring_splice_nodup _ _ _ _ _ _ _ Hnd1 Hnd2 Hdis) as [Hnd1' Hnd2'].
  simpl in Hf. simplify_eq.
  destruct (exists_last (l := first :: zt)) as (zi & l & Hz); [done |].
  assert (length zi = length zt) as Ez.
  { apply (f_equal length) in Hz. rewrite length_app in Hz. simpl in Hz. lia. }
  destruct (ring_split h1 xs1 ys1) as (S1 & a & b & T2 & E1 & E2 & El & E3 & E4).
  destruct (ring_split h2 xs2 ys2) as (S1' & a' & b' & T2' & E1' & E2' & El' & E3' & E4').
  rewrite E2 in Hl. rewrite E2' in Hb. simplify_eq/=.
  assert (forall hd xs ys S a, hd :: xs = S ++ [a] ->
    hd :: xs ++ first :: zt ++ ys = S ++ a :: zi ++ l :: ys) as F1.
  { intros hd xs ys S a0 E. change (hd :: xs ++ first :: zt ++ ys)
      with ((hd :: xs) ++ (first :: zt) ++ ys). rewrite E, Hz, <- !app_assoc. done. }
  assert (forall hd xs ys b T, ys ++ [hd] = b :: T ->
    (xs ++ first :: zt ++ ys) ++ [hd] = xs ++ first :: zt ++ b :: T) as F2.
  { intros hd xs ys b0 T E. rewrite <- app_assoc. simpl. by rewrite <- app_assoc, E. }
  pose proof (ring_targets_nodup _ _ Hnd1) as Hnt1. pose proof (ring_targets_nodup _ _ Hnd2) as Hnt2.
  assert (forall p, p ∈ (xs1 ++ first :: zt ++ ys1) ++ [h1] -> p ∉ (xs2 ++ ys2) ++ [h2]) as Hdt
    by (intros p; rewrite <- !Permutation_cons_append; apply Hdis).
  assert (before <> l) as Hbl.
  { intros ->. apply (Hdis l).
    - rewrite (F1 h1 xs1 ys1 S1 a E1). rewrite !elem_of_app, !elem_of_cons, elem_of_app, elem_of_cons. tauto.
    - assert (l ∈ ys2 ++ [h2]) as Hm by (rewrite E2'; by left).
      rewrite elem_of_cons, elem_of_app. rewrite elem_of_app, list_elem_of_singleton in Hm. tauto. }
  rewrite (F1 _ _ _ _ _ E1) in Hl1, Hnd1, Hdis. rewrite (F2 _ _ _ _ _ E2) in Hl1, Hnt1, Hdt.
  rewrite E3' in Hl2, Hnd2, Hdis. rewrite E4' in Hl2, Hnt2, Hdt.
  destruct (links_splice h S1 a zi l ys1 xs1 first zt last T2 S1' a' ys2 xs2 before T2')
    as (h' & Hs & Hc & Hp); try done.
  exists h'. split; [done |]. split; (split; [done |]).
  - by rewrite E3, E4.
  - simpl app. by rewrite (F1 _ _ _ _ _ E1'), (F2 _ _ _ _ _ E2').
Qed.

(** ** Iteration *)

Lemma for_each_loop_next h hd ys e fuel :
  Forall2 (link h) ys (tail (ys ++ [hd])) -> head (ys ++ [hd]) = Some e -> hd ∉ ys ->
  (length ys <= fuel)%nat -> for_each_loop fuel (get_next h) hd e = Some ys.
Proof.
  revert e fuel. induction ys as [| y ys IH]; intros e fuel Hl He Hn Hf; simplify_eq/=.
  - destruct fuel; simpl; by rewrite decide_True.
  - destruct fuel as [| fuel]; [lia |]. simpl. rewrite decide_False by set_solver.
    destruct (ys ++ [hd]) as [| n r] eqn:Hr; [by destruct ys |].
    inversion Hl as [| ? ? ? ? [Hnx _] Hl']; subst. rewrite Hnx. simpl.
    rewrite (IH n fuel); [done | done | done | set_solver | lia].
Qed.

Lemma for_each_loop_prev h hd ps b fuel :
  Forall2 (link h) (hd :: ps) (ps ++ [b]) -> hd ∉ ps -> (length ps <= fuel)%nat ->
  exists e, get_prev h b = Some e /\ for_each_loop fuel (get_prev h) hd e = Some (reverse ps).
Proof.
  revert b fuel. induction ps as [| x ps IH] using rev_ind; intros b fuel Hl Hn Hf.
  - inversion Hl as [| ? ? ? ? [_ Hp]]; subst. exists hd. split; [done |].
    destruct fuel; simpl; by rewrite decide_True.
  - rewrite app_comm_cons in Hl. apply Forall2_app_inv in Hl as [H1 H2];
      [| simpl; rewrite length_app; simpl; lia].
    inversion H2 as [| ? ? ? ? [_ Hp]]; subst. exists x. split; [done |].
    rewrite length_app in Hf. simpl in Hf. destruct fuel as [| fuel]; [lia |].
    simpl. rewrite decide_False by set_solver.
    destruct (IH x fuel H1) as (e & He & Hr); [set_solver | lia |].
    rewrite He. simpl. rewrite Hr. simpl. by rewrite reverse_app.
Qed.

Lemma list_size_loop_for_each fuel h l e cnt xs :
  for_each_loop fuel (get_next h) l e = Some xs -> 0 <= cnt -> cnt + length xs < 2 ^ 64 ->
  list_size_loop fuel h l e cnt = Some (cnt + length xs).
Proof.
  revert e cnt xs. induction fuel as [| fuel IH]; intros e cnt xs H Hc Hlt; simpl in *;
    case_decide; simplify_eq/=; [by rewrite Z.add_0_r | by rewrite Z.add_0_r |].
  destruct (get_next h e) as [n |]; simpl in *; [| done].
  destruct (for_each_loop fuel _ l n) as [r |] eqn:Hr; simplify_eq/=.
  rewrite wrap_small by (unfold in_range; lia). rewrite (IH n (cnt + 1) r); [| done | lia | lia].
  f_equal. lia.
Qed.

Lemma ring_for_each h hd xs fuel :
  ring h hd xs -> (length xs <= fuel)%nat ->
  list_for_each fuel h hd = Some xs /\ list_for_each_reverse fuel h hd = Some (reverse xs).
Proof.
  intros [[Hn _]%NoDup_cons Hl] Hf. split.
  - unfold list_for_each. destruct (xs ++ [hd]) as [| e r] eqn:Hr; [by destruct xs |].
    inversion Hl as [| ? ? ? ? [Hnx _] Hl']; subst. rewrite Hnx. simpl.
    apply for_each_loop_next; rewrite ?Hr; done.
  - unfold list_for_each_reverse.
    destruct (for_each_loop_prev h hd xs hd fuel Hl Hn Hf) as (e & He & Hr).
    rewrite He. done.
Qed.

Lemma ring_head h hd xs : ring h hd xs -> get_next h hd = head (xs ++ [hd]).
Proof. intros [_ Hl]. destruct (xs ++ [hd]); inversion Hl as [| ? ? ? ? []]; done. Qed.

Lemma ring_tail h hd xs x : ring h hd (xs ++ [x]) -> get_prev h hd = Some x.
Proof.
  intros [_ Hl]. change (hd :: xs ++ [x]) with ((hd :: xs) ++ [x]) in Hl. apply Forall2_app_inv in Hl as [_ Hl]; [| rewrite length_app; cbn; lia].
  by inversion Hl as [| ? ? ? ? []].
Qed.

Lemma ring_empty h hd xs :
  ring h hd xs -> list_is_empty h hd = Some (bool_decide (xs = [])).
Proof.
  intros Hr. unfold list_is_empty. rewrite (ring_head _ _ _ Hr).
  destruct Hr as [[Hn _]%NoDup_cons _]. destruct xs as [| x xs]; simpl.
  - by rewrite !bool_decide_eq_true_2.
  - by rewrite (bool_decide_eq_false_2 (x = hd)) by set_solver.
Qed.

(** * Properties *)

(** C27. [list_push_back], [list_push_front] and [list_insert] put a cell that is
    not in the ring at the end, at the front or just before a given element; the
    order of the others is kept and no cell outside the ring changes. *)
Theorem list_insert_refines h hd xs ys before e :
  ring h hd (xs ++ ys) -> e ∉ hd :: xs ++ ys -> e ∈ dom h ->
  head (ys ++ [hd]) = Some before ->
  (exists h', list_insert h before e = Some h' /\ ring h' hd (xs ++ e :: ys) /\
     frame h h' (e :: hd :: xs ++ ys)) /\
  (exists h', list_push_back h hd e = Some h' /\ ring h' hd ((xs ++ ys) ++ [e])) /\
  (exists h', list_push_front h hd e = Some h' /\ ring h' hd (e :: xs ++ ys)).
Proof.
  intros Hr He Hd Hb. split_and!.
  - by apply ring_insert.
  - destruct (ring_insert h hd (xs ++ ys) [] hd e) as (h' & ? & ? & _);
      rewrite ?app_nil_r; try done. by exists h'.
  - unfold list_push_front. rewrite (ring_head _ _ _ Hr).
    destruct ((xs ++ ys) ++ [hd]) as [| n r] eqn:Hn; [by destruct (xs ++ ys) |]. simpl.
    destruct (ring_insert h hd [] (xs ++ ys) n e) as (h' & ? & ? & _); try done.
    + by rewrite Hn.
    + by exists h'.
Qed.

(** C28. [list_remove] takes one cell out of its ring, keeps the order of the
    others, returns the cell that followed, and does not touch the removed cell
    or any cell outside the ring; [list_pop_front] and [list_pop_back] are that on the ends of a
    list with elements. *)
Theorem list_remove_refines h hd xs ys e :
  ring h hd (xs ++ e :: ys) ->
  (exists h' n, list_remove h e = Some (h', n) /\ head (ys ++ [hd]) = Some n /\
     ring h' hd (xs ++ ys) /\ frame h h' (hd :: xs ++ ys)) /\
  (forall x zs, xs ++ e :: ys = x :: zs ->
     exists h', list_pop_front h hd = Some (h', x) /\ ring h' hd zs) /\
  (forall x zs, xs ++ e :: ys = zs ++ [x] ->
     exists h', list_pop_back h hd = Some (h', x) /\ ring h' hd zs).
Proof.
  intros Hr. split; [by apply ring_remove |]. split; intros x zs Hx; rewrite Hx in Hr.
  - unfold list_pop_front. rewrite (ring_head _ _ _ Hr). simpl.
    destruct (ring_remove h hd [] zs x Hr) as (h' & n & Hrm & _ & Hr' & _). rewrite Hrm. simpl. by exists h'.
  - unfold list_pop_back. rewrite (ring_tail _ _ _ _ Hr). simpl.
    destruct (ring_remove h hd zs [] x Hr) as (h' & n & Hrm & _ & Hr' & _). rewrite Hrm. simpl. rewrite app_nil_r in Hr'. by exists h'.
Qed.

(** [list_splice] moves a segment of one ring to just before an element of
    another and keeps both orders. *)
Theorem list_splice_refines h h1 xs1 zs ys1 h2 xs2 ys2 first last before :
  ring h h1 (xs1 ++ zs ++ ys1) -> ring h h2 (xs2 ++ ys2) ->
  (forall p, p ∈ h1 :: xs1 ++ zs ++ ys1 -> p ∉ h2 :: xs2 ++ ys2) ->
  head (zs ++ ys1 ++ [h1]) = Some first -> head (ys1 ++ [h1]) = Some last ->
  head (ys2 ++ [h2]) = Some before ->
  exists h', list_splice h before first last = Some h' /\
    ring h' h1 (xs1 ++ ys1) /\ ring h' h2 (xs2 ++ zs ++ ys2).
Proof. apply ring_splice. Qed.

(** [list_replace] of the head of a list, as group and meter modification
    use it to hand the flow references to the new entry, moves every element
    (also none) to the new head. *)
Theorem list_replace_refines h hd e xs :
  ring h hd xs -> e ∉ hd :: xs -> e ∈ dom h ->
  exists h', list_replace h e hd = Some h' /\ ring h' e xs /\ frame h h' (e :: hd :: xs).
Proof. apply ring_replace_head. Qed.

(** C29. The loops over a ring terminate after one step per element:
    [LIST_FOR_EACH] visits the elements in order, the reverse loop visits them
    backwards, [list_size] counts them and [list_is_empty] tests for none. *)
Theorem list_loops_refine h hd xs fuel :
  ring h hd xs -> (length xs <= fuel)%nat -> Z.of_nat (length xs) < 2 ^ 64 ->
  list_for_each fuel h hd = Some xs /\
  list_for_each_reverse fuel h hd = Some (reverse xs) /\
  list_size fuel h hd = Some (Z.of_nat (length xs)) /\
  list_is_empty h hd = Some (bool_decide (xs = [])).
Proof.
  intros Hr Hf Hlt. destruct (ring_for_each _ _ _ _ Hr Hf) as [H1 H2].
  split_and!; [done | done | | by apply ring_empty].
  revert H1. unfold list_for_each, list_size. destruct (get_next h hd) as [e |]; simpl; [| done].
  intros H1. apply (list_size_loop_for_each _ _ _ _ 0) in H1; [| lia | lia]. by rewrite H1.
Qed.

(** * Witnesses *)

#[global] Instance link_dec h a b : Decision (link h a b).
Proof. unfold link. apply _. Defined.

#[global] Instance ring_dec h hd xs : Decision (ring h hd xs).
Proof. unfold ring. apply _. Defined.

(** Two rings, of cells 1, 2, 3 and of cells 5, 6, and the free cell 4. *)
Definition demo_heap : heap := list_to_map
  [(1, LNode 3 2); (2, LNode 1 3); (3, LNode 2 1); (4, LNode 4 4);
   (5, LNode 6 6); (6, LNode 5 5)]%positive.

Lemma list_insert_refines_witness :
  exists h', list_insert demo_heap 3 4 = Some h' /\ ring h' 1 [2; 4; 3]%positive.
Proof.
  destruct (list_insert_refines demo_heap 1 [2] [3] 3 4)%positive as [(h' & ? & ? & _) _];
    [by apply (bool_decide_unpack _); vm_compute | set_solver |
     by apply (bool_decide_unpack _); vm_compute | done |].
  by exists h'.
Defined.

Lemma list_remove_refines_witness :
  (exists h', list_pop_front demo_heap 1 = Some (h', 2%positive) /\ ring h' 1 [3%positive]) /\
  (exists h', list_pop_back demo_heap 1 = Some (h', 3%positive) /\ ring h' 1 [2%positive]).
Proof.
  destruct (list_remove_refines demo_heap 1 [2] [] 3)%positive as (_ & Hf & Hb); [by apply (bool_decide_unpack _); vm_compute |].
  split; [by apply Hf | by apply Hb].
Defined.

Lemma list_splice_refines_witness :
  exists h', list_splice demo_heap 5 2 1 = Some h' /\
    ring h' 1 [] /\ ring h' 5 [6; 2; 3]%positive.
Proof.
  apply (list_splice_refines demo_heap 1 [] [2; 3] [] 5 [6] [])%positive;
    try done; try by (apply (bool_decide_unpack _); vm_compute).
  set_solver.
Defined.

Lemma list_replace_refines_witness :
  exists h', list_replace demo_heap 4 1 = Some h' /\ ring h' 4 [2; 3]%positive.
Proof.
  destruct (list_replace_refines demo_heap 1 4 [2; 3])%positive as (h' & ? & ? & _);
    [by apply (bool_decide_unpack _); vm_compute | set_solver |
     by apply (bool_decide_unpack _); vm_compute |].
  by exists h'.
Defined.

Lemma list_loops_refine_witness :
  list_for_each 2 demo_heap 1 = Some [2; 3]%positive /\
  list_for_each_reverse 2 demo_heap 1 = Some [3; 2]%positive /\
  list_size 2 demo_heap 1 = Some 2 /\ list_is_empty demo_heap 1 = Some false.
Proof.
  apply (list_loops_refine demo_heap 1 [2; 3] 2)%positive;
    [by apply (bool_decide_unpack _); vm_compute | simpl; lia | simpl; lia].
Defined.

End DList.
