(* ===== verification/HMap.v ===== *)
(** The hash map of lib/hmap.c and lib/hmap.h (an array of bucket chains whose
    size is a power of two) and the integer hash of lib/hash.h.  A map with
    different hashes refines a finite map keyed by the hash, which is what the
    group, meter and match tables rely on. *)
From Stdlib Require Import Znumtheory Zpow_facts.
From S2P Require Import Prelude.
Open Scope Z_scope.

(** [struct hmap_node]: the chain pointer [next] is the tail of the bucket's
    list; [val] is the structure the node is embedded in. *)
Record hmap_node (A : Type) := HNode { hash : Z; val : A }.
Arguments HNode {A}.
Arguments hash {A}.
Arguments val {A}.

#[global] Instance hmap_node_eq_dec `{EqDecision A} : EqDecision (hmap_node A).
Proof. solve_decision. Defined.

(** [struct hmap]; the [one] bucket of an empty map is the single element of
    [buckets]. *)
Record hmap (A : Type) := HMap { buckets : list (list (hmap_node A)); mask : Z; n : Z }.
Arguments HMap {A}.
Arguments buckets {A}.
Arguments mask {A}.
Arguments n {A}.

Section hmap.
Context {A : Type} `{EqDecision A}.
Implicit Types (hm : hmap A) (nd : hmap_node A).

Definition hmap_init : hmap A := HMap [[]] 0 0.

Definition bucket_index (hash mask : Z) : nat := Z.to_nat (Z.land hash mask).

Definition hmap_count hm : Z := n hm.

Definition hmap_is_empty hm : bool := n hm =? 0.

Definition hmap_insert_fast hm (node : A) (hash : Z) : hmap A :=
  HMap (alter (cons (HNode hash node)) (bucket_index hash (mask hm)) (buckets hm))
    (mask hm) (u64 (n hm + 1)).

(** [resize]: a fresh table of [new_mask + 1] empty buckets, into which the
    nodes go bucket by bucket, each chain from its front.  The two assertions
    of the source on [new_mask] are [calc_mask_pow2] below. *)
Definition resize hm (new_mask : Z) : hmap A :=
  let tmp := HMap (replicate (Z.to_nat (new_mask + 1)) []) new_mask 0 in
  fold_left (fun t b => fold_left (fun t nd => hmap_insert_fast t (val nd) (hash nd)) b t)
    (buckets hm) tmp.

Definition calc_mask (capacity : Z) : Z :=
  let mask := capacity / 2 in
  let mask := Z.lor mask (Z.shiftr mask 1) in
  let mask := Z.lor mask (Z.shiftr mask 2) in
  let mask := Z.lor mask (Z.shiftr mask 4) in
  let mask := Z.lor mask (Z.shiftr mask 8) in
  let mask := Z.lor mask (Z.shiftr mask 16) in
  let mask := Z.lor mask (Z.shiftr mask 32) in
  Z.lor mask (Z.shiftl (Z.land mask 1) 1).

Definition hmap_expand hm : hmap A :=
  let new_mask := calc_mask (n hm) in
  if mask hm <? new_mask then resize hm new_mask else hm.

Definition hmap_shrink hm : hmap A :=
  let new_mask := calc_mask (n hm) in
  if new_mask <? mask hm then resize hm new_mask else hm.

Definition hmap_reserve hm (n : Z) : hmap A :=
  let new_mask := calc_mask n in
  if mask hm <? new_mask then resize hm new_mask else hm.

Definition hmap_insert hm (node : A) (hash : Z) : hmap A :=
  let hm := hmap_insert_fast hm node hash in
  if mask hm <? n hm / 2 then hmap_expand hm else hm.

(** The search of [hmap_remove]: it follows the chain until the node itself, and
    would run off the end ([None]) if it is not there. *)
Fixpoint chain_remove (nd : hmap_node A) (bucket : list (hmap_node A))
  : option (list (hmap_node A)) :=
  match bucket with
  | [] => None
  | x :: rest => if decide (x = nd) then Some rest
                 else rest' ← chain_remove nd rest; Some (x :: rest')
  end.

Definition hmap_remove hm nd : option (hmap A) :=
  let i := bucket_index (hash nd) (mask hm) in
  b ← buckets hm !! i;
  b' ← chain_remove nd b;
  Some (HMap (<[i := b']> (buckets hm)) (mask hm) (u64 (n hm - 1))).

Definition hmap_remove_and_shrink hm nd : option (hmap A) := hmap_remove hm nd.

(** A pointer to a node is the chain from that node on; the null pointer is the
    empty chain. *)
Fixpoint hmap_next_with_hash__ (node : list (hmap_node A)) (h : Z) : list (hmap_node A) :=
  match node with
  | [] => []
  | x :: rest => if hash x =? h then node else hmap_next_with_hash__ rest h
  end.

Definition hmap_first_with_hash hm (h : Z) : list (hmap_node A) :=
  hmap_next_with_hash__ (default [] (buckets hm !! bucket_index h (mask hm))) h.

Definition hmap_next_with_hash (node : list (hmap_node A)) : list (hmap_node A) :=
  match node with
  | [] => []
  | x :: rest => hmap_next_with_hash__ rest (hash x)
  end.

(** The nodes [HMAP_FOR_EACH_WITH_HASH] visits; every step goes to a later node
    of the chain, so the length of the chain is fuel enough. *)
Fixpoint with_hash_loop (fuel : nat) (node : list (hmap_node A)) : list (hmap_node A) :=
  match fuel, node with
  | S fuel, x :: _ => x :: with_hash_loop fuel (hmap_next_with_hash node)
  | _, _ => []
  end.

Definition hmap_for_each_with_hash hm (h : Z) : list (hmap_node A) :=
  let first := hmap_first_with_hash hm h in with_hash_loop (length first) first.

Fixpoint first_nonempty (bs : list (list (hmap_node A))) : list (hmap_node A) :=
  match bs with
  | [] => []
  | [] :: bs => first_nonempty bs
  | b :: _ => b
  end.

Definition hmap_next__ hm (start : Z) : list (hmap_node A) :=
  first_nonempty (drop (Z.to_nat start) (buckets hm)).

Definition hmap_first hm : list (hmap_node A) := hmap_next__ hm 0.

Definition hmap_next hm (node : list (hmap_node A)) : list (hmap_node A) :=
  match node with
  | [] => []
  | x :: [] => hmap_next__ hm (Z.land (hash x) (mask hm) + 1)
  | _ :: next => next
  end.

(** [HMAP_FOR_EACH]: [None] when [fuel] steps do not reach the end. *)
Fixpoint for_each_from (fuel : nat) hm (node : list (hmap_node A))
  : option (list (hmap_node A)) :=
  match node with
  | [] => Some []
  | x :: _ => match fuel with
              | O => None
              | S fuel => r ← for_each_from fuel hm (hmap_next hm node); Some (x :: r)
              end
  end.

Definition hmap_for_each (fuel : nat) hm : option (list (hmap_node A)) :=
  for_each_from fuel hm (hmap_first hm).

(** * Well-formed maps *)

(** All the nodes, in the order of iteration. *)
Definition nodes hm : list (hmap_node A) := concat (buckets hm).

Record hmap_wf hm : Prop := {
  wf_pow2 : exists k : Z, 0 <= k /\ mask hm = 2 ^ k - 1;
  wf_length : length (buckets hm) = Z.to_nat (mask hm + 1);
  wf_place : forall i b nd, buckets hm !! i = Some b -> nd ∈ b ->
               0 <= hash nd /\ bucket_index (hash nd) (mask hm) = i;
  wf_count : n hm = length (nodes hm)
}.

Lemma bucket_index_lt hm h :
  hmap_wf hm -> 0 <= h -> (bucket_index h (mask hm) < length (buckets hm))%nat.
Proof.
  intros [(k & Hk & Hm) Hl _ _] Hh. rewrite Hl, Hm. unfold bucket_index.
  replace (2 ^ k - 1) with (Z.ones k) by (rewrite Z.ones_equiv; lia).
  rewrite Z.land_ones by done. rewrite Z.ones_equiv.
  pose proof (Z.mod_pos_bound h (2 ^ k)). lia.
Qed.

Lemma concat_alter_perm {B} (f : list B -> list B) x (bs : list (list B)) i b :
  bs !! i = Some b -> (forall b, f b ≡ₚ x :: b) -> concat (alter f i bs) ≡ₚ x :: concat bs.
Proof.
  revert i. induction bs as [| b' bs IH]; intros [| i] Hi Hf; simplify_eq/=.
  - by rewrite Hf.
  - rewrite (IH i); [by rewrite Permutation_middle | done | done].
Qed.

Lemma nodes_insert_fast hm x h :
  hmap_wf hm -> 0 <= h -> nodes (hmap_insert_fast hm x h) ≡ₚ HNode h x :: nodes hm.
Proof.
  intros Hwf Hh. destruct (lookup_lt_is_Some_2 _ _ (bucket_index_lt hm h Hwf Hh)) as [b Hb].
  unfold nodes, hmap_insert_fast. simpl. by eapply concat_alter_perm.
Qed.

Lemma insert_fast_wf hm x h :
  hmap_wf hm -> 0 <= h -> n hm + 1 < 2 ^ 64 -> hmap_wf (hmap_insert_fast hm x h).
Proof.
  intros Hwf Hh Hn. pose proof (nodes_insert_fast hm x h Hwf Hh) as Hp.
  destruct Hwf as [Hk Hl Hpl Hc]. split; simpl.
  - done.
  - by rewrite length_alter.
  - intros i b nd Hi Hnd. destruct (decide (i = bucket_index h (mask hm))) as [-> | Hne].
    + rewrite list_lookup_alter_eq in Hi. destruct (buckets hm !! _) eqn:Hb; simplify_eq/=.
      apply elem_of_cons in Hnd as [-> | Hnd]; [done | by eapply Hpl].
    + rewrite list_lookup_alter_ne in Hi by done. by eapply Hpl.
  - apply Permutation_length in Hp. simpl in Hp. rewrite Hp, Hc. rewrite Hc in Hn.
    rewrite wrap_small by (unfold in_range; lia). lia.
Qed.

Lemma empty_wf k : 0 <= k -> hmap_wf (HMap (replicate (Z.to_nat (2 ^ k)) []) (2 ^ k - 1) 0).
Proof.
  intros Hk. split; simpl.
  - by exists k.
  - rewrite length_replicate. f_equal. lia.
  - intros i b nd Hi Hnd. apply lookup_replicate in Hi as [-> _]. by apply elem_of_nil in Hnd.
  - unfold nodes. simpl. induction (Z.to_nat (2 ^ k)); done.
Qed.

Lemma hmap_init_wf : hmap_wf hmap_init.
Proof. apply (empty_wf 0). lia. Qed.

Definition insert_all (l : list (hmap_node A)) hm : hmap A :=
  fold_left (fun t nd => hmap_insert_fast t (val nd) (hash nd)) l hm.

Lemma resize_insert_all hm new_mask :
  resize hm new_mask =
    insert_all (nodes hm) (HMap (replicate (Z.to_nat (new_mask + 1)) []) new_mask 0).
Proof.
  unfold resize, nodes, insert_all. generalize (HMap (replicate (Z.to_nat (new_mask + 1))
    ([] : list (hmap_node A))) new_mask 0) as t.
  induction (buckets hm) as [| b bs IH]; intros t; [done |]. simpl.
  by rewrite fold_left_app, IH.
Qed.

Lemma insert_all_wf l hm :
  hmap_wf hm -> (forall nd, nd ∈ l -> 0 <= hash nd) -> n hm + length l < 2 ^ 64 ->
  hmap_wf (insert_all l hm) /\ nodes (insert_all l hm) ≡ₚ l ++ nodes hm /\
  mask (insert_all l hm) = mask hm.
Proof.
  revert hm. induction l as [| [h x] l IH]; intros hm Hwf Hl Hn; [done |].
  simpl in Hn. assert (0 <= h) as Hh by (apply (Hl (HNode h x)); set_solver).
  pose proof (wf_count _ Hwf) as Hc.
  destruct (IH (hmap_insert_fast hm x h)) as (H1 & H2 & H3).
  - apply insert_fast_wf; [done | done | lia].
  - set_solver.
  - simpl. rewrite wrap_small by (unfold in_range; lia). lia.
  - split; [done |]. split; [| done]. unfold insert_all in *. simpl.
    rewrite H2, (nodes_insert_fast hm x h) by done. by rewrite Permutation_middle.
Qed.

Lemma wf_hash_nonneg hm nd : hmap_wf hm -> nd ∈ nodes hm -> 0 <= hash nd.
Proof.
  intros Hwf (b & Hb & Hnd)%list_elem_of_In%in_concat.
  apply list_elem_of_In, list_elem_of_lookup in Hb as [i Hi].
  destruct (wf_place hm Hwf i b nd Hi) as [? _]; [by apply list_elem_of_In | done].
Qed.

Lemma resize_wf hm k :
  hmap_wf hm -> 0 <= k -> n hm < 2 ^ 64 ->
  hmap_wf (resize hm (2 ^ k - 1)) /\ nodes (resize hm (2 ^ k - 1)) ≡ₚ nodes hm.
Proof.
  intros Hwf Hk Hn. rewrite resize_insert_all. replace (2 ^ k - 1 + 1) with (2 ^ k) by lia.
  pose proof (wf_count _ Hwf).
  destruct (insert_all_wf (nodes hm) _ (empty_wf k Hk)) as (H1 & H2 & _).
  - intros nd. by apply wf_hash_nonneg.
  - simpl. lia.
  - split; [done |]. rewrite H2. unfold nodes at 2. simpl.
    assert (forall m, concat (replicate m ([] : list (hmap_node A))) = []) as ->
      by (induction m; done). by rewrite app_nil_r.
Qed.

(** ** The size of the table *)

(** All bits from [max 0 (L - w + 1)] to [L] are set and none above. *)
Definition smeared (L w m : Z) : Prop :=
  forall i, 0 <= i -> (L - w < i <= L -> Z.testbit m i = true) /\ (L < i -> Z.testbit m i = false).

Lemma smear_step L w m : 0 <= w -> smeared L w m -> smeared L (2 * w) (Z.lor m (Z.shiftr m w)).
Proof.
  intros Hw Hs i Hi. rewrite Z.lor_spec, Z.shiftr_spec by done.
  destruct (Hs i Hi) as [H1 H2], (Hs (i + w) ltac:(lia)) as [H3 H4]. split; intros HL.
  - destruct (Z.le_gt_cases i (L - w)); [rewrite H3 by lia; apply orb_true_r |].
    by rewrite H1 by lia.
  - by rewrite H2, H4 by lia.
Qed.

Lemma smeared_ones L w m : 0 <= L -> L < w -> 0 <= m -> smeared L w m -> m = Z.ones (L + 1).
Proof.
  intros HL Hw Hm Hs. apply Z.bits_inj'. intros i Hi. destruct (Hs i Hi) as [H1 H2].
  destruct (Z.le_gt_cases i L).
  - rewrite H1 by lia. symmetry. apply Z.ones_spec_low. lia.
  - rewrite H2 by lia. symmetry. apply Z.ones_spec_high. lia.
Qed.

(** The new size of a table is always a power of two, at least four when it is
    not one: the two assertions of [resize] hold. *)
Lemma calc_mask_pow2 c :
  0 <= c < 2 ^ 64 ->
  exists k : Z, 0 <= k <= 64 /\ k <> 1 /\ calc_mask c = 2 ^ k - 1 /\ c / 2 <= calc_mask c.
Proof.
  intros Hc. unfold calc_mask. set (m := c / 2).
  assert (0 <= m < 2 ^ 63) as Hm by (unfold m; lia). clearbody m. clear Hc.
  destruct (decide (m = 0)) as [-> | Hm0]; [exists 0; split_and!; try done; lia |].
  set (L := Z.log2 m).
  assert (0 <= L < 63) as HL.
  { split; [apply Z.log2_nonneg |]. apply Z.log2_lt_pow2; lia. }
  assert (smeared L 1 m) as Hs.
  { intros i Hi. split; intros Hi'.
    - replace i with L by lia. apply Z.bit_log2. lia.
    - apply Z.bits_above_log2; unfold L in *; lia. }
  do 6 (apply smear_step in Hs; [| lia];
        match type of Hs with smeared _ ?w _ => let v := eval cbv in w in change w with v in Hs end).
  assert (forall z k, 0 <= z -> 0 <= Z.lor z (Z.shiftr z k)) as Hnn
    by (intros; apply Z.lor_nonneg; rewrite Z.shiftr_nonneg; done).
  apply smeared_ones in Hs; [| lia | lia | do 6 apply Hnn; lia].
  rewrite Hs. rewrite Z.ones_equiv.
  assert (m < 2 ^ (L + 1)) as Hlt by (apply Z.log2_lt_pow2; [lia |]; fold L; lia).
  destruct (decide (L = 0)) as [HL0 | HL0].
  - rewrite HL0 in Hlt |- *. exists 2.
    replace (Z.lor _ _) with 3 by reflexivity. split_and!; lia.
  - exists (L + 1).
    assert (2 <= 2 ^ L) by (change 2 with (2 ^ 1) at 1; apply Z.pow_le_mono_r; lia).
    assert (Z.land (Z.pred (2 ^ (L + 1))) 1 = 1) as ->.
    { change 1 with (Z.ones 1) at 2. rewrite Z.land_ones by lia.
      rewrite Z.pow_add_r by lia. change (2 ^ 1) with 2. lia. }
    assert (Z.lor (Z.pred (2 ^ (L + 1))) (Z.shiftl 1 1) = Z.pred (2 ^ (L + 1))) as ->.
    { rewrite <- Z.ones_equiv. change (Z.shiftl 1 1) with (2 ^ 1).
      apply Z.bits_inj'. intros i Hi. rewrite Z.lor_spec, Z.pow2_bits_eqb by lia.
      destruct (Z.eqb_spec 1 i) as [<- |]; [rewrite Z.ones_spec_low by lia; done |].
      apply orb_false_r. }
    split_and!; lia.
Qed.

Lemma hmap_insert_wf hm x h :
  hmap_wf hm -> 0 <= h -> n hm + 1 < 2 ^ 64 ->
  hmap_wf (hmap_insert hm x h) /\ nodes (hmap_insert hm x h) ≡ₚ HNode h x :: nodes hm.
Proof.
  intros Hwf Hh Hn. pose proof (insert_fast_wf hm x h Hwf Hh Hn) as Hwf'.
  pose proof (nodes_insert_fast hm x h Hwf Hh) as Hp.
  unfold hmap_insert, hmap_expand. cbv zeta.
  assert (0 <= n (hmap_insert_fast hm x h) < 2 ^ 64) as Hn'.
  { pose proof (wf_count _ Hwf'). split; [lia |]. simpl.
    pose proof (wrap_range 64 ltac:(lia) (n hm + 1)) as Hr. unfold in_range in Hr. lia. }
  repeat case_match; try done.
  destruct (calc_mask_pow2 (n (hmap_insert_fast hm x h))) as (k & Hk & _ & -> & _); [done |].
  destruct (resize_wf (hmap_insert_fast hm x h) k) as [? Hp']; [done | lia | lia |].
  split; [done |]. by rewrite Hp'.
Qed.

(** ** Search *)

Lemma next_with_hash_length b h : (length (hmap_next_with_hash__ b h) <= length b)%nat.
Proof. induction b as [| x b IH]; simpl; [done |]. case_match; simpl; lia. Qed.

Lemma with_hash_loop_filter b h fuel :
  (length (hmap_next_with_hash__ b h) <= fuel)%nat ->
  with_hash_loop fuel (hmap_next_with_hash__ b h) = filter (fun nd => hash nd = h) b.
Proof.
  revert fuel. induction b as [| x b IH]; intros fuel Hf; [by destruct fuel |].
  rewrite filter_cons. simpl in *. destruct (Z.eqb_spec (hash x) h) as [He | He].
  - rewrite decide_True by done. simpl in Hf. destruct fuel as [| fuel]; [lia |]. simpl.
    rewrite He, IH; [done |]. pose proof (next_with_hash_length b h). lia.
  - rewrite decide_False by done. by apply IH.
Qed.

Lemma filter_concat_at (P : hmap_node A -> Prop) `{!forall x, Decision (P x)} bs i b :
  bs !! i = Some b -> (forall j b', bs !! j = Some b' -> j <> i -> filter P b' = []) ->
  filter P (concat bs) = filter P b.
Proof.
  revert i. induction bs as [| b0 bs IH]; intros [| i] Hi Ho; simplify_eq/=; rewrite filter_app.
  - replace (filter P (concat bs)) with ([] : list (hmap_node A)); [by rewrite app_nil_r |].
    symmetry. assert (forall j b', bs !! j = Some b' -> filter P b' = []) as Ho'
      by (intros j b' Hj; apply (Ho (S j)); done).
    clear -Ho'. induction bs as [| b0 bs IH]; [done |]. simpl. rewrite filter_app.
    rewrite (Ho' 0%nat b0), IH; [done | | done]. intros j. apply (Ho' (S j)).
  - rewrite (Ho 0%nat b0) by done. simpl. apply (IH i); [done |].
    intros j b' Hj Hne. apply (Ho (S j)); [done | lia].
Qed.

Lemma for_each_with_hash_filter hm h :
  hmap_wf hm -> 0 <= h ->
  hmap_for_each_with_hash hm h = filter (fun nd => hash nd = h) (nodes hm).
Proof.
  intros Hwf Hh. destruct (lookup_lt_is_Some_2 _ _ (bucket_index_lt hm h Hwf Hh)) as [b Hb].
  unfold hmap_for_each_with_hash, hmap_first_with_hash. rewrite Hb. simpl.
  rewrite with_hash_loop_filter by done. symmetry. apply (filter_concat_at _ _ _ _ Hb).
  intros j b' Hj Hne. apply filter_none. intros nd Hnd Heq.
  destruct (wf_place hm Hwf j b' nd Hj Hnd) as [_ Hi]. subst. done.
Qed.

Lemma for_each_with_hash_all hm h (P : hmap_node A -> bool) nd :
  hmap_wf hm -> 0 <= h -> forallb (forallb P) (buckets hm) = true ->
  nd ∈ hmap_for_each_with_hash hm h -> P nd = true.
Proof.
  intros Hwf Hh Hall. rewrite for_each_with_hash_filter by done.
  intros [_ Hnd]%list_elem_of_filter. unfold nodes in Hnd.
  apply list_elem_of_In, in_concat in Hnd as (b & Hb & Hx).
  rewrite forallb_forall in Hall. apply Hall in Hb. rewrite forallb_forall in Hb. by apply Hb.
Qed.

Lemma head_next_with_hash b h :
  head (hmap_next_with_hash__ b h) = head (filter (fun nd => hash nd = h) b).
Proof.
  induction b as [| x b IH]; [done |]. rewrite filter_cons. simpl.
  destruct (Z.eqb_spec (hash x) h); [by rewrite decide_True | by rewrite decide_False].
Qed.

Lemma first_with_hash_head hm h :
  hmap_wf hm -> 0 <= h ->
  head (hmap_first_with_hash hm h) = head (filter (fun nd => hash nd = h) (nodes hm)).
Proof.
  intros Hwf Hh. destruct (lookup_lt_is_Some_2 _ _ (bucket_index_lt hm h Hwf Hh)) as [b Hb].
  unfold hmap_first_with_hash. rewrite Hb. simpl. rewrite head_next_with_hash.
  f_equal. symmetry. apply (filter_concat_at _ _ _ _ Hb).
  intros j b' Hj Hne. apply filter_none. intros nd Hnd Heq.
  destruct (wf_place hm Hwf j b' nd Hj Hnd) as [_ Hi]. subst. done.
Qed.

(** ** Iteration *)

Lemma first_nonempty_spec (bs : list (list (hmap_node A))) k :
  (first_nonempty (drop k bs) = [] /\ concat (drop k bs) = []) \/
  exists j b, bs !! j = Some b /\ b <> [] /\ first_nonempty (drop k bs) = b /\
    concat (drop k bs) = b ++ concat (drop (S j) bs).
Proof.
  remember (drop k bs) as ds eqn:Hd. revert k Hd.
  induction ds as [| b ds IH]; intros k Hd; [by left |].
  assert (bs !! k = Some b) as Hk.
  { rewrite <- (Nat.add_0_r k), <- lookup_drop, <- Hd. done. }
  assert (ds = drop (S k) bs) as Hd'.
  { rewrite (drop_S _ _ _ Hk) in Hd. congruence. }
  destruct b as [| x b].
  - destruct (IH (S k) Hd') as [H | H]; [by left | by right].
  - right. exists k, (x :: b). simpl. rewrite <- Hd'. done.
Qed.

Lemma for_each_from_spec hm fuel s i :
  hmap_wf hm -> (forall nd, nd ∈ s -> 0 <= hash nd /\ bucket_index (hash nd) (mask hm) = i) ->
  s <> [] ->
  (length (s ++ concat (drop (S i) (buckets hm))) <= fuel)%nat ->
  for_each_from fuel hm s = Some (s ++ concat (drop (S i) (buckets hm))).
Proof.
  intros Hwf. revert s i. induction fuel as [| fuel IH]; intros s i Hs Hne Hf.
  { destruct s; [done | simpl in Hf; lia]. }
  destruct s as [| x [| y s]]; [done | |].
  - simpl in *. destruct (Hs x) as [Hx Hi]; [set_solver |]. unfold hmap_next__.
    assert (Z.to_nat (Z.land (hash x) (mask hm) + 1) = S i) as ->.
    { unfold bucket_index in Hi. rewrite <- Hi, Z2Nat.inj_add; [simpl; lia | | lia].
      apply Z.land_nonneg. lia. }
    destruct (first_nonempty_spec (buckets hm) (S i)) as [[H1 H2] | (j & b & Hj & Hb & H1 & H2)].
    + rewrite H1, H2. by destruct fuel.
    + rewrite H1, H2. rewrite H2 in Hf. rewrite (IH b j); [done | | done | lia].
      intros nd Hnd. by apply (wf_place hm Hwf j b).
  - simpl in *. rewrite (IH (y :: s) i); [done | set_solver | done | simpl; lia].
Qed.

Lemma hmap_for_each_nodes hm fuel :
  hmap_wf hm -> (length (nodes hm) <= fuel)%nat -> hmap_for_each fuel hm = Some (nodes hm).
Proof.
  intros Hwf Hf. unfold hmap_for_each, hmap_first, hmap_next__, nodes in *.
  change (Z.to_nat 0) with 0%nat.
  destruct (first_nonempty_spec (buckets hm) 0) as [[H1 H2] | (j & b & Hj & Hb & H1 & H2)];
    rewrite H1; rewrite drop_0 in H2; rewrite H2 in *.
  - by destruct fuel.
  - apply for_each_from_spec; [done | | done | done].
    intros nd Hnd. by apply (wf_place hm Hwf j b).
Qed.

(** ** Removal *)

Lemma chain_remove_spec nd b :
  nd ∈ b -> exists b', chain_remove nd b = Some b' /\ b ≡ₚ nd :: b'.
Proof.
  induction b as [| x b IH]; intros Hnd; [by apply elem_of_nil in Hnd |]. simpl.
  case_decide as Hx; [subst; by exists b |].
  destruct IH as (b' & Hb' & Hp); [set_solver |]. rewrite Hb'. simpl.
  exists (x :: b'). split; [done |]. rewrite Hp. apply Permutation_swap.
Qed.

Lemma concat_insert_perm {B} (bs : list (list B)) i b b' x :
  bs !! i = Some b -> b ≡ₚ x :: b' -> concat bs ≡ₚ x :: concat (<[i := b']> bs).
Proof.
  revert i. induction bs as [| b0 bs IH]; intros [| i] Hi Hp; simplify_eq/=.
  - by rewrite Hp.
  - rewrite (IH i) by done. by rewrite Permutation_middle.
Qed.

Lemma hmap_remove_wf hm nd :
  hmap_wf hm -> nd ∈ nodes hm -> n hm < 2 ^ 64 ->
  exists hm', hmap_remove hm nd = Some hm' /\ hmap_wf hm' /\ nodes hm ≡ₚ nd :: nodes hm'.
Proof.
  intros Hwf Hnd Hn64. pose proof Hnd as (b & Hb & Hin)%list_elem_of_In%in_concat.
  apply list_elem_of_In, list_elem_of_lookup in Hb as [i Hi]. apply list_elem_of_In in Hin.
  destruct (wf_place hm Hwf i b nd Hi Hin) as [Hh Hix].
  destruct (chain_remove_spec nd b Hin) as (b' & Hb' & Hp).
  assert (nodes hm ≡ₚ nd :: concat (<[i := b']> (buckets hm))) as Hpn
    by (unfold nodes; by eapply concat_insert_perm).
  unfold hmap_remove. cbv zeta. rewrite Hix, Hi. simpl. rewrite Hb'. simpl. eexists. split; [done |].
  split; [| done]. destruct Hwf as [Hk Hl Hpl Hc]. split; simpl.
  - done.
  - by rewrite length_insert.
  - intros j c x Hj Hx. destruct (decide (i = j)) as [<- | Hne].
    + rewrite list_lookup_insert_eq in Hj by (by eapply lookup_lt_Some). injection Hj as <-.
      eapply Hpl; [exact Hi |]. rewrite Hp. set_solver.
    + rewrite list_lookup_insert_ne in Hj by done. by apply (Hpl j c).
  - unfold nodes at 1. simpl. apply Permutation_length in Hpn. simpl in Hpn.
    rewrite Hc in *. rewrite wrap_small; unfold in_range; lia.
Qed.

(** * The finite map of a hash map *)

Definition to_map hm : gmap Z A := list_to_map ((fun nd => (hash nd, val nd)) <$> nodes hm).

(** No two nodes with one hash. *)
Definition unique hm : Prop := NoDup (hash <$> nodes hm).

Lemma unique_pairs hm :
  unique hm -> NoDup (((fun nd => (hash nd, val nd)) <$> nodes hm).*1).
Proof. unfold unique. rewrite <- list_fmap_compose. done. Qed.

Lemma to_map_perm hm hm' :
  unique hm -> nodes hm ≡ₚ nodes hm' -> unique hm' /\ to_map hm = to_map hm'.
Proof.
  intros Hu Hp. split; [unfold unique; by rewrite <- Hp |].
  unfold to_map. apply list_to_map_proper; [by apply unique_pairs |]. by rewrite Hp.
Qed.

Lemma to_map_lookup hm nd : unique hm -> nd ∈ nodes hm <-> to_map hm !! hash nd = Some (val nd).
Proof.
  intros Hu. unfold to_map.
  rewrite <- elem_of_list_to_map by (by apply unique_pairs).
  rewrite list_elem_of_fmap. split; [by exists nd |].
  intros (nd' & Heq & Hin). destruct nd, nd'. by simplify_eq/=.
Qed.

Lemma to_map_first hm h :
  hmap_wf hm -> unique hm -> 0 <= h ->
  val <$> head (hmap_first_with_hash hm h) = to_map hm !! h.
Proof.
  intros Hwf Hu Hh. rewrite first_with_hash_head by done.
  destruct (filter _ (nodes hm)) as [| nd l] eqn:Hf; simpl.
  - symmetry. destruct (to_map hm !! h) as [x |] eqn:Hm; [| done].
    apply (to_map_lookup hm (HNode h x)) in Hm; [| done].
    assert (HNode h x ∈ filter (fun nd => hash nd = h) (nodes hm)) as Hin
      by (by apply list_elem_of_filter). rewrite Hf in Hin. by apply elem_of_nil in Hin.
  - assert (nd ∈ filter (fun nd => hash nd = h) (nodes hm)) as [<- Hin]%list_elem_of_filter
      by (rewrite Hf; by left). symmetry. by apply to_map_lookup.
Qed.

(** A search finds only what is in the map, also for a hash no node can have. *)
Lemma to_map_first_sound hm h x :
  hmap_wf hm -> unique hm -> val <$> head (hmap_first_with_hash hm h) = Some x -> to_map hm !! h = Some x.
Proof.
  intros Hwf Hu Hx. destruct (Z.le_gt_cases 0 h) as [Hh | Hh]; [by rewrite <- to_map_first |].
  unfold hmap_first_with_hash in Hx. rewrite head_next_with_hash in Hx.
  destruct (filter _ _) as [| nd l] eqn:Hf; [done |].
  assert (nd ∈ filter (fun nd => hash nd = h) (default [] (buckets hm !! bucket_index h (mask hm)))) as [Hnd Hin]%list_elem_of_filter
    by (rewrite Hf; by left).
  destruct (buckets hm !! bucket_index h (mask hm)) as [b |] eqn:Hb; [| by apply elem_of_nil in Hin].
  assert (0 <= hash nd); [| lia]. apply (wf_hash_nonneg hm); [done |].
  apply list_elem_of_In, in_concat. exists b. split; [| by apply list_elem_of_In].
  by apply list_elem_of_In, (list_elem_of_lookup_2 _ _ _ Hb).
Qed.

Lemma to_map_cons hm hm' h x :
  unique hm -> to_map hm !! h = None -> nodes hm' ≡ₚ HNode h x :: nodes hm ->
  unique hm' /\ to_map hm' = <[h := x]> (to_map hm).
Proof.
  intros Hu Hn Hp.
  assert (unique hm') as Hu'.
  { unfold unique. rewrite Hp. simpl. apply NoDup_cons. split; [| done].
    intros ([h' x'] & -> & Hin)%list_elem_of_fmap.
    apply (to_map_lookup hm) in Hin; [| done]. simpl in *. congruence. }
  split; [done |]. unfold to_map at 1.
  rewrite (list_to_map_proper _ ((fun nd => (hash nd, val nd)) <$> HNode h x :: nodes hm)).
  - done.
  - by apply unique_pairs.
  - by rewrite Hp.
Qed.

End hmap.

(** * The integer hash *)

Definition hash_int (x basis : Z) : Z :=
  let x := u32 (x - u32 (Z.shiftl x 6)) in
  let x := Z.lxor x (Z.shiftr x 17) in
  let x := u32 (x - u32 (Z.shiftl x 9)) in
  let x := Z.lxor x (u32 (Z.shiftl x 4)) in
  let x := u32 (x + basis) in
  let x := u32 (x - u32 (Z.shiftl x 3)) in
  let x := Z.lxor x (u32 (Z.shiftl x 10)) in
  Z.lxor x (Z.shiftr x 15).

(** Each step of the hash is injective on 32-bit words. *)
Definition inj32 (f : Z -> Z) : Prop :=
  forall x y, in_range 32 x -> in_range 32 y -> f x = f y -> x = y.

(** The steps of the hash by name, so that they can be undone one at a time. *)
Definition sub_shl (k x : Z) : Z := u32 (x - u32 (Z.shiftl x k)).
Definition xor_shl (k x : Z) : Z := Z.lxor x (u32 (Z.shiftl x k)).
Definition xor_shr (k x : Z) : Z := Z.lxor x (Z.shiftr x k).

Lemma inj32_sub_shift k :
  0 < k -> inj32 (sub_shl k).
Proof.
  intros Hk x y Hx Hy H. unfold sub_shl, in_range, wrap in *.
  rewrite !Z.shiftl_mul_pow2 in H by lia.
  rewrite !Zminus_mod_idemp_r in H.
  replace (x - x * 2 ^ k) with (x * (1 - 2 ^ k)) in H by lia.
  replace (y - y * 2 ^ k) with (y * (1 - 2 ^ k)) in H by lia.
  assert ((2 ^ 32 | (1 - 2 ^ k) * (x - y))) as Hd.
  { apply Z.mod_divide; [lia |]. rewrite (Z.mul_comm (1 - _)), Z.mul_sub_distr_r, Zminus_mod, H.
    rewrite Z.sub_diag. done. }
  apply Z.gauss in Hd.
  - destruct Hd as [q Hq]. change (2 ^ 32) with 4294967296 in *. lia.
  - apply Zgcd_1_rel_prime, rel_prime_sym, rel_prime_Zpower_r; [lia |].
    apply rel_prime_sym, prime_rel_prime; [apply prime_2 |].
    intros [q Hq]. assert (2 ^ k = 2 * 2 ^ (k - 1)) by (rewrite <- Z.pow_succ_r by lia; f_equal; lia).
    lia.
Qed.

Lemma inj32_xor_shiftr k : 0 < k -> inj32 (xor_shr k).
Proof.
  intros Hk x y Hx Hy H. unfold xor_shr in H. apply Z.bits_inj'. intros i Hi.
  destruct (Z.le_gt_cases 32 i).
  { by rewrite !(in_range_testbit 32) by (try lia; done). }
  remember (Z.to_nat (32 - i)) as m eqn:Hm. revert i Hi H0 Hm.
  induction m as [m IH] using lt_wf_ind. intros i Hi H32 Hm.
  apply (f_equal (fun z => Z.testbit z i)) in H as Hb.
  rewrite !Z.lxor_spec, !Z.shiftr_spec in Hb by lia.
  assert (Z.testbit x (i + k) = Z.testbit y (i + k)) as Hr.
  { destruct (Z.le_gt_cases 32 (i + k)).
    - by rewrite !(in_range_testbit 32) by (try lia; done).
    - eapply (IH (Z.to_nat (32 - (i + k)))); lia. }
  rewrite Hr in Hb. by destruct (Z.testbit x i), (Z.testbit y i), (Z.testbit y (i + k)).
Qed.

Lemma inj32_xor_shiftl k : 0 < k -> inj32 (xor_shl k).
Proof.
  intros Hk x y Hx Hy H. unfold xor_shl in H. apply Z.bits_inj'. intros i Hi.
  remember (Z.to_nat i) as m eqn:Hm. revert i Hi Hm.
  induction m as [m IH] using lt_wf_ind. intros i Hi Hm.
  apply (f_equal (fun z => Z.testbit z i)) in H as Hb.
  rewrite !Z.lxor_spec, !wrap_testbit, !Z.shiftl_spec in Hb by lia.
  assert (Z.testbit x (i - k) = Z.testbit y (i - k)) as Hr.
  { destruct (Z.le_gt_cases 0 (i - k)).
    - eapply (IH (Z.to_nat (i - k))); lia.
    - by rewrite !Z.testbit_neg_r by lia. }
  rewrite Hr in Hb. by destruct (Z.testbit x i), (Z.testbit y i), (_ && _).
Qed.

Lemma inj32_add b : inj32 (fun x => u32 (x + b)).
Proof.
  intros x y Hx Hy H. unfold in_range, wrap in *. change (2 ^ 32) with 4294967296 in *. lia.
Qed.

Lemma lxor_shiftr_range x k : 0 <= k -> in_range 32 x -> in_range 32 (xor_shr k x).
Proof.
  intros Hk Hx. unfold xor_shr. apply in_range_lxor; [lia | done |]. unfold in_range in *.
  rewrite Z.shiftr_div_pow2 by lia. split; [apply Z.div_pos; lia |].
  apply (Z.le_lt_trans _ x); [| lia]. apply Z.div_le_upper_bound; nia.
Qed.

Lemma lxor_shiftl_range x k : in_range 32 x -> in_range 32 (xor_shl k x).
Proof. intros Hx. unfold xor_shl. apply in_range_lxor; [lia | done | by apply wrap_range]. Qed.

Lemma hash_int_steps x b :
  hash_int x b =
  xor_shr 15 (xor_shl 10 (sub_shl 3 (u32 (xor_shl 4 (sub_shl 9 (xor_shr 17 (sub_shl 6 x))) + b)))).
Proof. cbv beta zeta delta [hash_int xor_shr xor_shl sub_shl]. reflexivity. Qed.

Lemma hash_int_inj b : inj32 (fun x => hash_int x b).
Proof.
  assert (forall k x, in_range 32 (sub_shl k x)) as Rs by (intros; by apply wrap_range).
  assert (forall k x, in_range 32 x -> in_range 32 (xor_shl k x)) as Rl
    by (intros; by apply lxor_shiftl_range).
  assert (forall k x, 0 <= k -> in_range 32 x -> in_range 32 (xor_shr k x)) as Rr
    by (intros; by apply lxor_shiftr_range).
  intros x y Hx Hy H. rewrite !hash_int_steps in H.
  apply (inj32_xor_shiftr 15) in H; [| done | apply Rl, Rs | apply Rl, Rs].
  apply (inj32_xor_shiftl 10) in H; [| done | apply Rs | apply Rs].
  apply (inj32_sub_shift 3) in H; [| done | by apply wrap_range | by apply wrap_range].
  apply (inj32_add b) in H; [| apply Rl, Rs | apply Rl, Rs].
  apply (inj32_xor_shiftl 4) in H; [| done | apply Rs | apply Rs].
  apply (inj32_sub_shift 9) in H; [| done | apply Rr, Rs; lia | apply Rr, Rs; lia].
  apply (inj32_xor_shiftr 17) in H; [| done | apply Rs | apply Rs].
  apply (inj32_sub_shift 6) in H; done.
Qed.

Lemma hash_int_range x b : in_range 32 (hash_int x b).
Proof.
  rewrite hash_int_steps. apply lxor_shiftr_range; [lia |]. apply lxor_shiftl_range.
  by apply wrap_range.
Qed.

(** * What the tables that hash by identifier use

    The group and meter tables key their entries by the identifier itself.  This
    is the interface their models are written against; [hmap] is the
    implementation. *)
Class IdTable (T A : Type) := {
  tbl_ok : T -> Prop;
  tbl_map : T -> gmap Z A;
  tbl_empty : T;
  tbl_find : T -> Z -> option A;
  tbl_insert : T -> A -> Z -> T;
  tbl_insert_fast : T -> A -> Z -> T;
  tbl_remove : T -> A -> Z -> option T;
  tbl_elems : T -> list A;
  tbl_count : T -> Z;
  tbl_update : T -> (Z -> A -> A) -> T;
  tbl_empty_ok : tbl_ok tbl_empty /\ tbl_map tbl_empty = ∅;
  tbl_find_map t h : tbl_ok t -> 0 <= h -> tbl_find t h = tbl_map t !! h;
  tbl_find_sound t h x : tbl_ok t -> tbl_find t h = Some x -> tbl_map t !! h = Some x;
  tbl_insert_map t x h :
    tbl_ok t -> 0 <= h -> tbl_map t !! h = None -> tbl_count t + 2 < 2 ^ 64 ->
    tbl_ok (tbl_insert t x h) /\ tbl_map (tbl_insert t x h) = <[h := x]> (tbl_map t);
  tbl_insert_fast_map t x h :
    tbl_ok t -> 0 <= h -> tbl_map t !! h = None -> tbl_count t + 2 < 2 ^ 64 ->
    tbl_ok (tbl_insert_fast t x h) /\ tbl_map (tbl_insert_fast t x h) = <[h := x]> (tbl_map t);
  tbl_remove_map t x h :
    tbl_ok t -> tbl_map t !! h = Some x ->
    exists t', tbl_remove t x h = Some t' /\ tbl_ok t' /\ tbl_map t' = delete h (tbl_map t);
  tbl_elems_map t : tbl_ok t -> tbl_elems t ≡ₚ (map_to_list (tbl_map t)).*2;
  tbl_count_map t : tbl_ok t -> tbl_count t = size (tbl_map t);
  tbl_update_map t f :
    tbl_ok t -> tbl_ok (tbl_update t f) /\
      forall h, tbl_map (tbl_update t f) !! h = f h <$> tbl_map t !! h;
}.

(** The replacement of an entry, as modification does it: [hmap_remove], then
    [hmap_insert_fast]. *)
Lemma tbl_replace_map `{IdTable T A} (t : T) (x y : A) h :
  tbl_ok t -> 0 <= h -> tbl_map t !! h = Some x -> tbl_count t + 2 < 2 ^ 64 ->
  exists t', tbl_remove t x h = Some t' /\ tbl_ok (tbl_insert_fast t' y h) /\
    tbl_map (tbl_insert_fast t' y h) = <[h := y]> (tbl_map t).
Proof.
  intros Hok Hh Hx Hn. destruct (tbl_remove_map t x h Hok Hx) as (t' & Hr & Hok' & Hm).
  pose proof (tbl_count_map t Hok) as Hc. pose proof (tbl_count_map t' Hok') as Hc'.
  destruct (tbl_insert_fast_map t' y h) as [Hok'' Hm''].
  - done.
  - done.
  - by rewrite Hm, lookup_delete_eq.
  - rewrite Hc', Hm, map_size_delete_Some by (by eexists). lia.
  - exists t'. by rewrite Hm'', Hm, insert_delete_eq.
Qed.

Section hmap_table.
Context {A : Type} `{EqDecision A}.
Implicit Types hm : hmap A.

Definition hmap_ok hm : Prop := hmap_wf hm /\ unique hm /\ n hm < 2 ^ 64.

(** The body of the [HMAP_FOR_EACH_WITH_HASH] searches returns at once. *)
Definition hmap_find hm (h : Z) : option A := val <$> head (hmap_first_with_hash hm h).

(** The structures [HMAP_FOR_EACH] gives to its body. *)
Definition hmap_elems hm : list A :=
  val <$> default [] (hmap_for_each (Z.to_nat (n hm)) hm).

(** The writes to the structures through the pointers a search or a loop gives. *)
Definition hmap_update hm (f : Z -> A -> A) : hmap A :=
  HMap (map (map (fun nd => HNode (hash nd) (f (hash nd) (val nd)))) (buckets hm)) (mask hm) (n hm).

Lemma update_nodes hm f :
  nodes (hmap_update hm f) = (fun nd => HNode (hash nd) (f (hash nd) (val nd))) <$> nodes hm.
Proof. unfold nodes, hmap_update. cbn [buckets]. induction (buckets hm); [done |]. simpl. by rewrite fmap_app, <- IHl. Qed.

Lemma hmap_ok_update hm f :
  hmap_ok hm -> hmap_ok (hmap_update hm f) /\
    forall h, to_map (hmap_update hm f) !! h = f h <$> to_map hm !! h.
Proof.
  intros ([Hk Hl Hpl Hc] & Hu & Hn).
  assert (unique (hmap_update hm f)) as Hu'.
  { unfold unique. rewrite update_nodes, <- list_fmap_compose. exact Hu. }
  split.
  - split_and!; [split; simpl | done | done].
    + done.
    + by rewrite length_map.
    + intros i b nd Hi Hnd. change (map ?g ?l) with (g <$> l) in Hi. rewrite list_lookup_fmap in Hi. destruct (buckets hm !! i) eqn:Hb; simplify_eq/=.
      apply list_elem_of_fmap in Hnd as (nd' & -> & Hnd'). by apply (Hpl i l nd').
    + by rewrite update_nodes, length_fmap.
  - intros h. apply option_eq. intros y. rewrite fmap_Some.
    rewrite <- (to_map_lookup (hmap_update hm f) (HNode h y) Hu'), update_nodes, list_elem_of_fmap. split.
    + intros ([h' x] & [= -> ->] & Hin). exists x. split; [by apply (to_map_lookup hm (HNode h' x)) |]. done.
    + intros (x & Hx & ->). exists (HNode h x). split; [done |]. by apply (to_map_lookup hm (HNode h x)).
Qed.

Lemma count_perm hm hm' x :
  hmap_wf hm -> hmap_wf hm' -> nodes hm' ≡ₚ x :: nodes hm -> n hm' = n hm + 1.
Proof.
  intros Hwf Hwf' Hp. rewrite (wf_count _ Hwf), (wf_count _ Hwf').
  apply Permutation_length in Hp. simpl in Hp. lia.
Qed.

Lemma hmap_ok_insert hm x h :
  hmap_ok hm -> 0 <= h -> to_map hm !! h = None -> n hm + 2 < 2 ^ 64 ->
  hmap_ok (hmap_insert hm x h) /\ to_map (hmap_insert hm x h) = <[h := x]> (to_map hm).
Proof.
  intros (Hwf & Hu & Hn) Hh Hf Hlt.
  destruct (hmap_insert_wf hm x h Hwf Hh) as [Hwf' Hp]; [lia |].
  destruct (to_map_cons hm _ h x Hu Hf Hp) as [Hu' Hm].
  split; [| done]. split_and!; [done | done |].
  rewrite (count_perm hm _ _ Hwf Hwf' Hp). lia.
Qed.

Lemma remove_perm_map (m : hmap A) m' x h :
  unique m -> nodes m ≡ₚ HNode h x :: nodes m' ->
  unique m' /\ to_map m' = delete h (to_map m).
Proof.
  intros Hu Hp.
  assert (NoDup (h :: (hash <$> nodes m'))) as [Hnot Hu']%NoDup_cons.
  { unfold unique in Hu. rewrite Hp in Hu. done. }
  assert (to_map m' !! h = None) as Hf.
  { destruct (to_map m' !! h) as [y |] eqn:Hy; [| done].
    apply (to_map_lookup m' (HNode h y) Hu') in Hy. exfalso. apply Hnot.
    apply list_elem_of_fmap. by exists (HNode h y). }
  split; [done |].
  destruct (to_map_cons m' m h x Hu' Hf Hp) as [_ ->]. by rewrite delete_insert_id.
Qed.

Lemma hmap_ok_remove hm x h :
  hmap_ok hm -> to_map hm !! h = Some x ->
  exists hm', hmap_remove hm (HNode h x) = Some hm' /\ hmap_ok hm' /\
    to_map hm' = delete h (to_map hm).
Proof.
  intros (Hwf & Hu & Hn) Hf. apply (to_map_lookup hm (HNode h x) Hu) in Hf.
  destruct (hmap_remove_wf hm _ Hwf Hf Hn) as (hm' & Hr & Hwf' & Hp).
  destruct (remove_perm_map hm hm' x h Hu Hp) as [Hu' Hm].
  exists hm'. split_and!; try done. pose proof (count_perm hm' hm _ Hwf' Hwf Hp). 
  unfold hmap_ok. split_and!; [done | done | lia].
Qed.

Lemma hmap_ok_insert_fast hm x h :
  hmap_ok hm -> 0 <= h -> to_map hm !! h = None -> n hm + 2 < 2 ^ 64 ->
  hmap_ok (hmap_insert_fast hm x h) /\ to_map (hmap_insert_fast hm x h) = <[h := x]> (to_map hm).
Proof.
  intros (Hwf & Hu & Hn) Hh Hf Hlt.
  pose proof (insert_fast_wf hm x h Hwf Hh ltac:(lia)) as Hwf'.
  pose proof (nodes_insert_fast hm x h Hwf Hh) as Hp.
  destruct (to_map_cons hm _ h x Hu Hf Hp) as [Hu' Hm].
  split; [| done]. split_and!; [done | done |].
  rewrite (count_perm hm _ _ Hwf Hwf' Hp). lia.
Qed.

Lemma hmap_elems_nodes hm : hmap_ok hm -> hmap_elems hm = val <$> nodes hm.
Proof.
  intros (Hwf & _ & _). unfold hmap_elems. rewrite hmap_for_each_nodes; [done | done |].
  rewrite (wf_count _ Hwf). lia.
Qed.

Lemma hmap_elems_map hm : hmap_ok hm -> hmap_elems hm ≡ₚ (map_to_list (to_map hm)).*2.
Proof.
  intros Hok. rewrite hmap_elems_nodes by done. destruct Hok as (_ & Hu & _).
  unfold to_map. rewrite map_to_list_to_map by (by apply unique_pairs).
  by rewrite <- list_fmap_compose.
Qed.

Lemma hmap_count_map hm : hmap_ok hm -> n hm = size (to_map hm).
Proof.
  intros Hok. pose proof (hmap_elems_map hm Hok) as Hp. apply Permutation_length in Hp.
  rewrite hmap_elems_nodes in Hp by done. rewrite !length_fmap, length_map_to_list in Hp.
  destruct Hok as (Hwf & _ & _). rewrite (wf_count _ Hwf). lia.
Qed.

#[global] Program Instance hmap_id_table : IdTable (hmap A) A := {|
  tbl_ok := hmap_ok;
  tbl_map := to_map;
  tbl_empty := hmap_init;
  tbl_find := hmap_find;
  tbl_insert := hmap_insert;
  tbl_insert_fast := hmap_insert_fast;
  tbl_remove hm x h := hmap_remove hm (HNode h x);
  tbl_elems := hmap_elems;
  tbl_count := n;
  tbl_update := hmap_update
|}.
Next Obligation.
  split; [| done]. split_and!; [apply hmap_init_wf | apply NoDup_nil_2 | done].
Qed.
Next Obligation. intros hm h (Hwf & Hu & _) Hh. by apply to_map_first. Qed.
Next Obligation. intros hm h x (Hwf & Hu & _). by apply to_map_first_sound. Qed.
Next Obligation. intros. by apply hmap_ok_insert. Qed.
Next Obligation. intros. by apply hmap_ok_insert_fast. Qed.
Next Obligation. intros. by apply hmap_ok_remove. Qed.
Next Obligation. apply hmap_elems_map. Qed.
Next Obligation. apply hmap_count_map. Qed.
Next Obligation. apply hmap_ok_update. Qed.
End hmap_table.

(** * Properties *)

(** C26. A hash map whose nodes have different hashes is a finite map keyed by
    the hash: the search for a hash is its lookup, an insertion of a new hash
    (with the growth of the table when it is due) is its update, the removal of
    a node is its deletion, and each keeps the table well formed. *)
Theorem hmap_refines_map (hm : hmap Z) h x :
  hmap_ok hm -> 0 <= h -> n hm + 2 < 2 ^ 64 ->
  val <$> head (hmap_first_with_hash hm h) = to_map hm !! h /\
  (to_map hm !! h = None ->
     hmap_ok (hmap_insert hm x h) /\ to_map (hmap_insert hm x h) = <[h := x]> (to_map hm)) /\
  (to_map hm !! h = Some x ->
     exists hm', hmap_remove hm (HNode h x) = Some hm' /\ hmap_ok hm' /\
       to_map hm' = delete h (to_map hm)).
Proof.
  intros Hok Hh Hn. split_and!.
  - destruct Hok as (Hwf & Hu & _). by apply to_map_first.
  - intros. by apply hmap_ok_insert.
  - intros. by apply hmap_ok_remove.
Qed.

Lemma hmap_refines_map_witness :
  to_map (hmap_insert (hmap_init : hmap Z) 7 5) = {[5 := 7]}.
Proof.
  destruct (hmap_refines_map hmap_init 5 7) as (_ & Hi & _);
    [split_and!; [apply hmap_init_wf | apply NoDup_nil_2 | done] | lia | done |].
  destruct (Hi eq_refl) as [_ ->]. done.
Defined.

(** [HMAP_FOR_EACH] terminates and visits every node exactly once, and
    [HMAP_FOR_EACH_WITH_HASH] visits exactly the nodes with the hash, whatever
    the table and also when several nodes share a hash. *)
Theorem hmap_iteration_complete (hm : hmap Z) h :
  hmap_wf hm -> 0 <= h ->
  hmap_for_each (Z.to_nat (hmap_count hm)) hm = Some (nodes hm) /\
  hmap_for_each_with_hash hm h = filter (fun nd => hash nd = h) (nodes hm).
Proof.
  intros Hwf Hh. split; [| by apply for_each_with_hash_filter].
  apply hmap_for_each_nodes; [done |]. unfold hmap_count. rewrite (wf_count _ Hwf). lia.
Qed.

Lemma hmap_iteration_complete_witness :
  hmap_for_each 1 (hmap_insert (hmap_init : hmap Z) 7 5) = Some [HNode 5 7].
Proof.
  apply (hmap_iteration_complete (hmap_insert hmap_init 7 5) 5); [| lia].
  apply hmap_insert_wf; [apply hmap_init_wf | lia | done].
Defined.

(** Inserting a node, with the growth that [calc_mask] decides, keeps all the
    nodes; the size of the table stays a power of two, so that the assertions of
    [resize] hold. *)
Theorem hmap_insert_keeps_nodes (hm : hmap Z) h x :
  hmap_wf hm -> 0 <= h -> n hm + 1 < 2 ^ 64 ->
  hmap_wf (hmap_insert hm x h) /\ nodes (hmap_insert hm x h) ≡ₚ HNode h x :: nodes hm /\
  (forall c, 0 <= c < 2 ^ 64 -> exists k : Z, 0 <= k <= 64 /\ calc_mask c = 2 ^ k - 1).
Proof.
  intros Hwf Hh Hn. destruct (hmap_insert_wf hm x h Hwf Hh Hn) as [H1 H2].
  split_and!; [done | done |]. intros c Hc.
  destruct (calc_mask_pow2 c Hc) as (k & ? & _ & ? & _). by exists k.
Qed.

Lemma hmap_insert_keeps_nodes_witness :
  nodes (hmap_insert (hmap_insert hmap_init 1 6) 2 8) ≡ₚ
    HNode 8 2 :: nodes (hmap_insert hmap_init 1 6).
Proof.
  apply (hmap_insert_keeps_nodes (hmap_insert hmap_init 1 6) 8 2); [| lia | done].
  apply hmap_insert_wf; [apply hmap_init_wf | lia | done].
Defined.

(** [hash_int] never maps two different 32-bit words to one hash (for a fixed
    basis): the searches that test only the hash of an OXM header, such as
    [check_present_prereq], find the header itself. *)
Theorem hash_int_injective x y basis :
  in_range 32 x -> in_range 32 y -> hash_int x basis = hash_int y basis -> x = y.
Proof. intros Hx Hy. by apply hash_int_inj. Qed.

Lemma hash_int_injective_witness : hash_int 0x80000004 0 <> hash_int 0x80000a02 0.
Proof.
  intros H. assert (0x80000004 = 0x80000a02) as E; [| discriminate].
  apply (hash_int_injective _ _ 0); [split; by vm_compute | split; by vm_compute | exact H].
Defined.
