(* ===== verification/MacTable.v ===== *)
(** The MAC tables of eHDDP (udatapath/dp_ports.c, [bt_table] and
    [learning_table]): singly linked lists of [struct mac_port_time] cells in a
    heap, every pointer operation of the source made explicit (an access to a
    cell that is not allocated, also one freed before, is [None]), and their
    refinement to operations on the sequence of entries.  Also the byte-order
    and MAC/integer conversions of the same file. *)
From S2P Require Import Prelude.
Open Scope Z_scope.

Module MacTable.

(** * Conversions *)

Definition bigtolittle16 (num : Z) : Z := u16 (Z.lor (Z.shiftr num 8) (Z.shiftl num 8)).

Definition bigtolittle32 (num : Z) : Z :=
  Z.lor (Z.lor (Z.lor
    (Z.land (Z.shiftr num 24) 0xff)
    (Z.land (u32 (Z.shiftl num 8)) 0xff0000))
    (Z.land (Z.shiftr num 8) 0xff00))
    (Z.land (u32 (Z.shiftl num 24)) 0xff000000).

Definition bigtolittle64 (num : Z) : Z :=
  Z.lor (Z.lor (Z.lor (Z.lor (Z.lor (Z.lor (Z.lor
    (Z.land (Z.shiftr num 56) 0x00000000000000FF)
    (Z.land (Z.shiftr num 40) 0x000000000000FF00))
    (Z.land (Z.shiftr num 24) 0x0000000000FF0000))
    (Z.land (Z.shiftr num 8) 0x00000000FF000000))
    (Z.land (u64 (Z.shiftl num 8)) 0x000000FF00000000))
    (Z.land (u64 (Z.shiftl num 24)) 0x0000FF0000000000))
    (Z.land (u64 (Z.shiftl num 40)) 0x00FF000000000000))
    (Z.land (u64 (Z.shiftl num 56)) 0xFF00000000000000).

(** The loop of [mac2int] from index [i] down, at byte [p]. *)
Fixpoint mac2int_loop (i : nat) (p : list Z) (ret : Z) : Z :=
  match p with
  | [] => ret
  | b :: p' =>
      let ret := Z.lor ret (u64 (Z.shiftl b (8 * i))) in
      match i with O => ret | S i' => mac2int_loop i' p' ret end
  end.

Definition mac2int (hwaddr : list Z) : Z := mac2int_loop 5 hwaddr 0.

Fixpoint int2mac_loop (i : nat) (mac : Z) : list Z :=
  u8 (Z.shiftr mac (8 * i)) :: match i with O => [] | S i' => int2mac_loop i' mac end.

Definition int2mac (mac : Z) : list Z := int2mac_loop 5 mac.

(** * The table *)

Abbreviation loc := positive.

(** [struct mac_port_time] without its [next] pointer. *)
Record mac_port_time := MPT {
  Mac : list Z;
  port_in : Z;
  valid_time_entry : Z;
  nuevo_puerto : bool;
  num_sec : Z
}.

Record cell := Cell { ent : mac_port_time; nxt : option loc }.
Abbreviation heap := (gmap loc cell).

(** [struct mac_to_port]; the null pointer is [None]. *)
Record mac_to_port := MTP { inicio : option loc; fin : option loc; num_element : Z }.

Definition ETH_ADDR_LEN : nat := 6.

(** [memcmp(a, b, ETH_ADDR_LEN) == 0]. *)
Definition mac_eqb (a b : list Z) : bool := bool_decide (take ETH_ADDR_LEN a = take ETH_ADDR_LEN b).

(** [time_msec() + (time * 0.8)] stored in a [uint64_t]; the [double] sum is
    exact up to its fraction, which the conversion drops. *)
Definition valid_until (now time : Z) : Z := u64 (now + time * 4 / 5).

Definition mac_to_port_new : mac_to_port := MTP None None 0.

(** The address [xmalloc] returns is one that is not allocated. *)
Definition mac_to_port_add (h : heap) (mac_port : mac_to_port) (mac : list Z) (port time nsec now : Z)
  : option (heap * mac_to_port * Z) :=
  let nuevo_elemento := fresh (dom h) in
  let h := <[nuevo_elemento :=
             Cell (MPT (take ETH_ADDR_LEN mac) port (valid_until now time) true nsec) None]> h in
  match inicio mac_port with
  | None => Some (h, MTP (Some nuevo_elemento) (Some nuevo_elemento) (num_element mac_port + 1), 0)
  | Some i =>
      actual ← fin mac_port;
      c ← h !! actual;
      let h := <[actual := Cell (ent c) (Some nuevo_elemento)]> h in
      Some (h, MTP (Some i) (Some nuevo_elemento) (num_element mac_port + 1), 0)
  end.

(** The searches: the first cell from [aux] on whose MAC is [mac].  [Some None]
    is the end of the list. *)
Fixpoint find_mac (fuel : nat) (h : heap) (aux : option loc) (mac : list Z) : option (option loc) :=
  match aux with
  | None => Some None
  | Some l =>
      match fuel with
      | O => None
      | S fuel =>
          c ← h !! l;
          if mac_eqb (Mac (ent c)) mac then Some (Some l) else find_mac fuel h (nxt c) mac
      end
  end.

(** No acyclic list is longer than the heap. *)
Definition fuel_of (h : heap) : nat := size h.

Definition mac_to_port_check_timeout (h : heap) (mac_port : mac_to_port) (mac : list Z) (now : Z)
  : option Z :=
  r ← find_mac (fuel_of h) h (inicio mac_port) mac;
  match r with
  | Some aux => c ← h !! aux; Some (if valid_time_entry (ent c) <? now then 1 else 0)
  | None => Some 2
  end.

Definition mac_to_port_update (h : heap) (mac_port : mac_to_port) (mac : list Z)
    (port time nsec now : Z) : option (heap * Z) :=
  if 0 <? num_element mac_port then
    r ← find_mac (fuel_of h) h (inicio mac_port) mac;
    match r with
    | Some aux =>
        c ← h !! aux;
        let e := ent c in
        let e' := MPT (Mac e) port
                    (if valid_time_entry e <=? valid_until now time
                     then valid_until now time else valid_time_entry e)
                    (negb (port_in e =? port)) nsec in
        Some (<[aux := Cell e' (nxt c)]> h, 0)
    | None => Some (h, 1)
    end
  else Some (h, 1).

Definition mac_to_port_time_refresh (h : heap) (mac_port : mac_to_port) (mac : list Z)
    (time nsec now : Z) : option (heap * Z) :=
  if 0 <? num_element mac_port then
    r ← find_mac (fuel_of h) h (inicio mac_port) mac;
    match r with
    | Some aux =>
        c ← h !! aux;
        let e := ent c in
        let e' := MPT (Mac e) (port_in e)
                    (if valid_time_entry e <? valid_until now time
                     then valid_until now time else valid_time_entry e)
                    false nsec in
        Some (<[aux := Cell e' (nxt c)]> h, 0)
    | None => Some (h, -1)
    end
  else Some (h, -1).

Definition mac_to_port_found_port (h : heap) (mac_port : mac_to_port) (mac : list Z) (nsec now : Z)
  : option Z :=
  if 0 <? num_element mac_port then
    r ← find_mac (fuel_of h) h (inicio mac_port) mac;
    match r with
    | Some aux =>
        c ← h !! aux;
        Some (if (now <=? valid_time_entry (ent c)) && (num_sec (ent c) =? nsec)
              then port_in (ent c) else 0)
    | None => Some (-1)
    end
  else Some (-1).

(** The walk of [mac_to_port_found_mac_position]; [position - 1] is computed in
    [uint64_t]. *)
Fixpoint found_position_loop (fuel : nat) (h : heap) (aux : option loc) (pos position now : Z)
  : option (Z * option (list Z)) :=
  match aux with
  | None => Some (-1, None)
  | Some l =>
      match fuel with
      | O => None
      | S fuel =>
          c ← h !! l;
          if pos =? u64 (position - 1) then
            Some (if now <=? valid_time_entry (ent c) then (pos, Some (Mac (ent c))) else (0, None))
          else found_position_loop fuel h (nxt c) (pos + 1) position now
      end
  end.

(** The second component is what is copied to the [Mac] argument, if anything. *)
Definition mac_to_port_found_mac_position (h : heap) (mac_port : mac_to_port) (position now : Z)
  : option (Z * option (list Z)) :=
  if 0 <? num_element mac_port
  then found_position_loop (fuel_of h) h (inicio mac_port) 0 position now
  else Some (-1, None).

(** The block the three deletions share: unlink [actual], whose predecessor is
    [anterior], free it and count it out.  The result has the new [anterior]
    and whether the head moved. *)
Definition unlink (h : heap) (mac_port : mac_to_port) (anterior : option loc) (actual : loc)
  : option (heap * mac_to_port * option loc * bool) :=
  r ← (if bool_decide (inicio mac_port = Some actual) && bool_decide (fin mac_port = Some actual) then
         Some (h, MTP None None 0, anterior, false)
       else if bool_decide (inicio mac_port = Some actual) then
         c ← h !! actual;
         Some (h, MTP (nxt c) (fin mac_port) (num_element mac_port), nxt c, true)
       else if bool_decide (fin mac_port = Some actual) then
         a ← anterior;
         ca ← h !! a;
         Some (<[a := Cell (ent ca) None]> h,
               MTP (inicio mac_port) (Some a) (num_element mac_port), anterior, false)
       else
         a ← anterior;
         ca ← h !! a;
         c ← h !! actual;
         Some (<[a := Cell (ent ca) (nxt c)]> h, mac_port, anterior, false));
  let '(h, t, anterior, inicial) := r in
  _ ← h !! actual;
  let h := delete actual h in
  let t := if 0 <? num_element t then MTP (inicio t) (fin t) (num_element t - 1) else t in
  Some (h, t, anterior, inicial).

(** The step to the next [actual] at the end of the loop bodies. *)
Definition advance (h : heap) (anterior : option loc) (first : option (option loc))
  : option (option loc) :=
  match anterior with
  | Some a => match first with
              | Some i => Some i
              | None => c ← h !! a; Some (nxt c)
              end
  | None => Some None
  end.

Fixpoint delete_timeout_loop (fuel : nat) (h : heap) (t : mac_to_port) (anterior actual : option loc)
    (now : Z) : option (heap * mac_to_port) :=
  match actual with
  | None => Some (h, t)
  | Some l =>
      if 0 <? num_element t then
        match fuel with
        | O => None
        | S fuel =>
            c ← h !! l;
            r ← (if valid_time_entry (ent c) <=? now then unlink h t anterior l
                 else Some (h, t, Some l, false));
            let '(h, t, anterior, inicial) := r in
            next ← advance h anterior (if (inicial : bool) then Some (inicio t) else None);
            delete_timeout_loop fuel h t anterior next now
        end
      else Some (h, t)
  end.

Definition mac_to_port_delete_timeout (h : heap) (mac_port : mac_to_port) (now : Z)
  : option (heap * mac_to_port) :=
  delete_timeout_loop (fuel_of h) h mac_port (inicio mac_port) (inicio mac_port) now.

Fixpoint delete_all_loop (fuel : nat) (h : heap) (t : mac_to_port) (anterior actual : option loc)
    (limpiar_tabla : bool) : option (heap * mac_to_port) :=
  match actual with
  | None => Some (h, t)
  | Some l =>
      if 0 <? num_element t then
        match fuel with
        | O => None
        | S fuel =>
            r ← (if limpiar_tabla then unlink h t anterior l
                 else a ← anterior; c ← h !! a; Some (h, t, nxt c, false));
            let '(h, t, anterior, inicial) := r in
            next ← advance h anterior (if (inicial : bool) then Some anterior else None);
            delete_all_loop fuel h t anterior next limpiar_tabla
        end
      else Some (h, t)
  end.

Definition mac_to_port_delete_timeout_ehddp (h : heap) (mac_port : mac_to_port) (now : Z)
  : option (heap * mac_to_port) :=
  limpiar_tabla ← (if 0 <? num_element mac_port then
                     l ← inicio mac_port; c ← h !! l;
                     Some (valid_time_entry (ent c) <? now)
                   else Some false);
  delete_all_loop (S (fuel_of h)) h mac_port (inicio mac_port) (inicio mac_port) limpiar_tabla.

Fixpoint delete_position_loop (fuel : nat) (h : heap) (t : mac_to_port)
    (anterior actual : option loc) (pos_act position : Z) : option (heap * mac_to_port) :=
  match actual with
  | None => Some (h, t)
  | Some l =>
      if 0 <? num_element t then
        match fuel with
        | O => None
        | S fuel =>
            r ← (if pos_act =? position then
                   u ← unlink h t anterior l; Some (u, pos_act)
                 else a ← anterior; c ← h !! a; Some (h, t, nxt c, false, pos_act + 1));
            let '(h, t, anterior, _, pos_act) := r in
            next ← advance h anterior None;
            delete_position_loop fuel h t anterior next pos_act position
        end
      else Some (h, t)
  end.

Definition mac_to_port_delete_position (h : heap) (mac_port : mac_to_port) (position : Z)
  : option (heap * mac_to_port) :=
  delete_position_loop (S (fuel_of h)) h mac_port (inicio mac_port) (inicio mac_port) 1 position.

(** * Representation

    [seg h p es q]: from [p] the [next] pointers go through cells that hold the
    entries [es], given with their addresses, and end at [q]. *)
Fixpoint seg (h : heap) (p : option loc) (es : list (loc * mac_port_time)) (q : option loc) : Prop :=
  match es with
  | [] => p = q
  | (l, e) :: r => p = Some l /\ exists nx, h !! l = Some (Cell e nx) /\ seg h nx r q
  end.

Record rep (h : heap) (t : mac_to_port) (es : list (loc * mac_port_time)) : Prop := {
  rep_seg : seg h (inicio t) es None;
  rep_nodup : NoDup es.*1;
  rep_fin : fin t = fst <$> last es;
  rep_num : num_element t = length es
}.

Lemma seg_app h p es1 es2 q :
  seg h p (es1 ++ es2) q <-> exists m, seg h p es1 m /\ seg h m es2 q.
Proof.
  revert p. induction es1 as [| [l e] es1 IH]; intros p; simpl; [naive_solver |].
  setoid_rewrite IH. naive_solver.
Qed.

Lemma seg_frame h h' p es q :
  seg h p es q -> (forall l, l ∈ es.*1 -> h' !! l = h !! l) -> seg h' p es q.
Proof.
  revert p. induction es as [| [l e] es IH]; intros p; simpl; [done |].
  intros (-> & nx & Hl & Hs) Hf. split; [done |]. exists nx.
  rewrite Hf by set_solver. split; [done |]. apply IH; [done | set_solver].
Qed.

Lemma seg_dom h p es q l : seg h p es q -> l ∈ es.*1 -> l ∈ dom h.
Proof.
  revert p. induction es as [| [k e] es IH]; intros p; simpl; [set_solver |].
  intros (-> & nx & Hl & Hs) Hin. apply elem_of_cons in Hin as [-> | Hin].
  - by apply elem_of_dom_2 in Hl.
  - by eapply IH.
Qed.

Lemma rep_size h t es : rep h t es -> (length es <= size h)%nat.
Proof.
  intros [Hs Hn _ _]. rewrite <- (length_fmap fst es), <- size_dom.
  rewrite <- (size_list_to_set (C := gset loc) es.*1 Hn).
  apply subseteq_size. intros l. rewrite elem_of_list_to_set. by eapply seg_dom.
Qed.

Lemma rep_new h : rep h mac_to_port_new [].
Proof. split; [done | apply NoDup_nil_2 | done | done]. Qed.

(** ** Adding *)

Lemma seg_last_update h p es l e nx q :
  NoDup (es ++ [(l, e)]).*1 -> seg h p (es ++ [(l, e)]) q ->
  seg (<[l := Cell e nx]> h) p (es ++ [(l, e)]) nx.
Proof.
  rewrite fmap_app, list.NoDup_app. simpl. intros (_ & Hn & _) (m & H1 & H2)%seg_app.
  apply seg_app. exists m. split.
  - apply (seg_frame h); [done |]. intros k Hk. rewrite lookup_insert_ne; [done |].
    intros ->. by apply (Hn k Hk), list_elem_of_singleton.
  - simpl in *. destruct H2 as (-> & _). split; [done |]. exists nx. by rewrite lookup_insert_eq.
Qed.

Lemma mac_add_rep h t es mac port time nsec now :
  rep h t es ->
  exists h' t' l,
    mac_to_port_add h t mac port time nsec now = Some (h', t', 0) /\
    rep h' t' (es ++ [(l, MPT (take 6 mac) port (valid_until now time) true nsec)]).
Proof.
  intros [Hs Hn Hf Hc]. unfold mac_to_port_add. cbv zeta.
  set (nl := fresh (dom h)). set (ne := MPT _ _ _ _ _).
  assert (nl ∉ dom h) as Hfr by apply is_fresh.
  assert (nl ∉ es.*1) as Hnl by (intros Hin; by eapply Hfr, seg_dom).
  assert (NoDup (es ++ [(nl, ne)]).*1) as Hnd.
  { rewrite fmap_app. simpl. apply list.NoDup_app. split_and!; [done | set_solver | apply NoDup_singleton]. }
  destruct es as [| [l0 e0] es0 _] using rev_ind.
  - simpl in Hs. rewrite Hs. eexists _, _, nl. split; [done |]. simpl in *.
    split; simpl; [| done | done | lia]. split; [done |]. exists None. by rewrite lookup_insert_eq.
  - rewrite last_snoc in Hf. simpl in Hf. rewrite Hf.
    assert (exists i, inicio t = Some i) as [i Hi].
    { destruct es0 as [| [] ?]; simpl in Hs; destruct Hs; eauto. }
    rewrite Hi. simpl.
    assert (l0 <> nl) as Hne by (intros ->; apply Hnl; rewrite fmap_app; set_solver).
    pose proof Hs as (m & Hs1 & Hm & nx & Hl0 & Hq)%seg_app. simpl in Hq. subst nx m.
    rewrite lookup_insert_ne, Hl0 by done. simpl. eexists _, _, nl. split; [done |].
    split; simpl; [| done | by rewrite last_snoc | rewrite Hc, !length_app; simpl; lia].
    apply seg_app. exists (Some nl). split.
    + apply (seg_last_update _ _ _ _ _ (Some nl) None); [done |]. rewrite <- Hi.
      apply (seg_frame h); [done |]. intros k Hk. apply lookup_insert_ne. set_solver.
    + simpl. split; [done |]. exists None. by rewrite lookup_insert_ne, lookup_insert_eq by done.
Qed.

(** ** Searching *)

(** The entries up to the first whose MAC is [mac]. *)
Definition first_mac (mac : list Z) (es : list (loc * mac_port_time)) : option (loc * mac_port_time) :=
  List.find (fun p => mac_eqb (Mac (snd p)) mac) es.
Arguments first_mac : simpl never.

Lemma find_mac_spec h p es mac fuel :
  seg h p es None -> (length es <= fuel)%nat ->
  find_mac fuel h p mac = Some (fst <$> first_mac mac es).
Proof.
  revert p fuel. induction es as [| [l e] es IH]; intros p fuel; simpl.
  - intros -> _. by destruct fuel.
  - intros (-> & nx & Hl & Hs) Hf. destruct fuel as [| fuel]; [lia |]. simpl. rewrite Hl. simpl.
    unfold first_mac. simpl. destruct (mac_eqb (Mac e) mac); [done |]. apply IH; [done | lia].
Qed.

Lemma first_mac_split mac es l e :
  first_mac mac es = Some (l, e) ->
  mac_eqb (Mac e) mac = true /\ exists es1 es2, es = es1 ++ (l, e) :: es2 /\ first_mac mac es1 = None.
Proof.
  unfold first_mac. induction es as [| [l0 e0] es IH]; simpl; [done |].
  destruct (mac_eqb (Mac e0) mac) eqn:Hm.
  - intros [= -> ->]. split; [done |]. by exists [], es.
  - intros H. destruct (IH H) as (H1 & es1 & es2 & -> & H2). split; [done |].
    exists ((l0, e0) :: es1), es2. split; [done |]. simpl. by rewrite Hm.
Qed.

Lemma first_mac_app m xs ys :
  first_mac m (xs ++ ys) = match first_mac m xs with Some p => Some p | None => first_mac m ys end.
Proof. unfold first_mac. induction xs as [| x xs IH]; [done |]. simpl. by destruct (mac_eqb _ m). Qed.

Lemma seg_lookup h p es1 l e es2 q :
  seg h p (es1 ++ (l, e) :: es2) q -> exists nx, h !! l = Some (Cell e nx) /\ seg h nx es2 q.
Proof. intros (m & _ & _ & nx & Hl & Hs)%seg_app. eauto. Qed.

Lemma rep_num_pos h t es : rep h t es -> 0 <? num_element t = bool_decide (es <> []).
Proof.
  intros [_ _ _ ->]. destruct es; [done |]. rewrite bool_decide_eq_true_2 by done.
  apply Z.ltb_lt. simpl. lia.
Qed.

Lemma found_port_spec h t es mac nsec now :
  rep h t es ->
  mac_to_port_found_port h t mac nsec now =
    Some (match first_mac mac es with
          | Some (_, e) => if (now <=? valid_time_entry e) && (num_sec e =? nsec) then port_in e else 0
          | None => -1
          end).
Proof.
  intros Hr. unfold mac_to_port_found_port. rewrite (rep_num_pos h t es Hr).
  destruct es as [| x es]; [done |]. rewrite bool_decide_eq_true_2 by done.
  rewrite (find_mac_spec h _ (x :: es)); [| apply Hr | by eapply rep_size]. simpl.
  destruct (first_mac mac (x :: es)) as [[l e] |] eqn:Hf; [| done]. simpl.
  apply first_mac_split in Hf as (_ & es1 & es2 & Hsp & _).
  destruct Hr as [Hs _ _ _]. rewrite Hsp in Hs. apply seg_lookup in Hs as (nx & -> & _). done.
Qed.

(** Overwriting one entry in place. *)
Lemma rep_overwrite h t es1 l e e' es2 nx :
  rep h t (es1 ++ (l, e) :: es2) -> h !! l = Some (Cell e nx) ->
  rep (<[l := Cell e' nx]> h) t (es1 ++ (l, e') :: es2).
Proof.
  intros [Hs Hn Hf Hc] Hl. split.
  - apply seg_app in Hs as (m & H1 & -> & nx' & Hl' & H2). simplify_eq.
    rewrite fmap_app in Hn. simpl in Hn. apply list.NoDup_app in Hn as (_ & Hn1 & Hn2).
    apply NoDup_cons in Hn2 as [Hn2 _].
    apply seg_app. exists (Some l). split; [| split; [done | exists nx'; split]].
    + apply (seg_frame h); [done |]. intros k Hk. rewrite lookup_insert_ne; [done |]. set_solver.
    + by rewrite lookup_insert_eq.
    + apply (seg_frame h); [done |]. intros k Hk. rewrite lookup_insert_ne; [done |]. set_solver.
  - by rewrite fmap_app in Hn |- *.
  - rewrite Hf. rewrite !last_app. simpl. by destruct es2.
  - rewrite Hc, !length_app. done.
Qed.

(** An entry is in one place. *)
Lemma rep_split h t es l e es1 es2 es3 es4 :
  rep h t es -> es = es1 ++ (l, e) :: es2 -> es = es3 ++ (l, e) :: es4 -> es1 = es3 /\ es2 = es4.
Proof.
  intros Hr He He'. pose proof (rep_nodup _ _ _ Hr) as Hnd. rewrite He in He', Hnd. rewrite fmap_app in Hnd.
  apply list.NoDup_app in Hnd as (_ & Hnd & Hnd2). apply NoDup_cons in Hnd2 as [Hnd2 _].
  clear -He' Hnd Hnd2. revert es3 He' Hnd. induction es1 as [| x es1 IH]; intros [| y es3] He Hnd;
    simplify_eq.
  - done.
  - exfalso. apply Hnd2. simpl. simplify_eq/=. apply (list_elem_of_fmap_2 fst _ (l, e)). set_solver.
  - exfalso. simplify_eq/=. apply (Hnd l); set_solver.
  - simplify_eq/=. destruct (IH es3) as [-> ->]; [done | set_solver | done].
Qed.

(** What [mac_to_port_update] and [mac_to_port_time_refresh] make of the entry. *)
Definition updated (port time nsec now : Z) (e : mac_port_time) : mac_port_time :=
  MPT (Mac e) port (Z.max (valid_time_entry e) (valid_until now time))
    (negb (port_in e =? port)) nsec.

Definition refreshed (time nsec now : Z) (e : mac_port_time) : mac_port_time :=
  MPT (Mac e) (port_in e) (Z.max (valid_time_entry e) (valid_until now time)) false nsec.

Lemma update_spec h t es mac port time nsec now :
  rep h t es ->
  match first_mac mac es with
  | Some (l, e) => exists h' es1 es2, es = es1 ++ (l, e) :: es2 /\
      mac_to_port_update h t mac port time nsec now = Some (h', 0) /\
      rep h' t (es1 ++ (l, updated port time nsec now e) :: es2)
  | None => mac_to_port_update h t mac port time nsec now = Some (h, 1)
  end.
Proof.
  intros Hr. unfold mac_to_port_update. rewrite (rep_num_pos h t es Hr).
  destruct es as [| x es]; [done |]. rewrite bool_decide_eq_true_2 by done.
  rewrite (find_mac_spec h _ (x :: es)); [| apply Hr | by eapply rep_size]. simpl.
  destruct (first_mac mac (x :: es)) as [[l e] |] eqn:Hf; [| done]. simpl.
  apply first_mac_split in Hf as (_ & es1 & es2 & Hsp & _). rewrite Hsp in *.
  destruct (seg_lookup h _ _ _ _ _ _ (rep_seg _ _ _ Hr)) as (nx & Hl & _). rewrite Hl. simpl.
  eexists _, es1, es2. split; [done |]. split; [done |].
  assert ((if valid_time_entry e <=? valid_until now time then valid_until now time
           else valid_time_entry e) = Z.max (valid_time_entry e) (valid_until now time)) as ->.
  { destruct (Z.leb_spec (valid_time_entry e) (valid_until now time)); lia. }
  by eapply rep_overwrite.
Qed.

Lemma refresh_spec h t es mac time nsec now :
  rep h t es ->
  match first_mac mac es with
  | Some (l, e) => exists h' es1 es2, es = es1 ++ (l, e) :: es2 /\
      mac_to_port_time_refresh h t mac time nsec now = Some (h', 0) /\
      rep h' t (es1 ++ (l, refreshed time nsec now e) :: es2)
  | None => mac_to_port_time_refresh h t mac time nsec now = Some (h, -1)
  end.
Proof.
  intros Hr. unfold mac_to_port_time_refresh. rewrite (rep_num_pos h t es Hr).
  destruct es as [| x es]; [done |]. rewrite bool_decide_eq_true_2 by done.
  rewrite (find_mac_spec h _ (x :: es)); [| apply Hr | by eapply rep_size]. simpl.
  destruct (first_mac mac (x :: es)) as [[l e] |] eqn:Hf; [| done]. simpl.
  apply first_mac_split in Hf as (_ & es1 & es2 & Hsp & _). rewrite Hsp in *.
  destruct (seg_lookup h _ _ _ _ _ _ (rep_seg _ _ _ Hr)) as (nx & Hl & _). rewrite Hl. simpl.
  eexists _, es1, es2. split; [done |]. split; [done |].
  assert ((if valid_time_entry e <? valid_until now time then valid_until now time
           else valid_time_entry e) = Z.max (valid_time_entry e) (valid_until now time)) as ->.
  { destruct (Z.ltb_spec (valid_time_entry e) (valid_until now time)); lia. }
  by eapply rep_overwrite.
Qed.

(** ** Unlinking *)

Lemma unlink_single h t ant l e :
  rep h t [(l, e)] -> unlink h t ant l = Some (delete l h, MTP None None 0, ant, false).
Proof.
  intros [(Hi & nx & Hl & _) _ Hf Hc]. unfold unlink. rewrite Hi, Hf. simpl.
  rewrite bool_decide_eq_true_2 by done. simpl. rewrite Hl. done.
Qed.

Lemma last_addr_elem (es : list (loc * mac_port_time)) l :
  fst <$> last es = Some l -> l ∈ es.*1.
Proof.
  intros ([l' e] & Hl & ->)%fmap_Some. apply list_elem_of_fmap. exists (l', e).
  split; [done |]. by apply last_Some_elem_of.
Qed.

Lemma unlink_head h t ant l e l2 e2 r :
  rep h t ((l, e) :: (l2, e2) :: r) ->
  exists t', unlink h t ant l = Some (delete l h, t', Some l2, true) /\
    rep (delete l h) t' ((l2, e2) :: r) /\ inicio t' = Some l2.
Proof.
  intros [(Hi & nx & Hl & Hs) Hn Hf Hc]. rewrite fmap_cons in Hn.
  apply NoDup_cons in Hn as [Hl1 Hn]. pose proof Hs as (-> & _).
  unfold unlink. rewrite Hi. rewrite (bool_decide_eq_true_2 (Some l = Some l)) by done.
  rewrite (bool_decide_eq_false_2 (fin t = Some l)).
  2:{ rewrite Hf. intros Hlast. by apply Hl1, last_addr_elem. }
  simpl. rewrite Hl. simpl. rewrite Hl. simpl.
  rewrite Hc. rewrite (proj2 (Z.ltb_lt _ _)) by (simpl; lia). eexists. split; [done |].
  split; [| done]. split; simpl; [| done | done | lia].
  change (seg (delete l h) (Some l2) ((l2, e2) :: r) None).
  apply (seg_frame h); [done |]. intros k Hk. rewrite lookup_delete_ne; [done |].
  intros ->. apply Hl1, Hk.
Qed.

(** [actual] is not the head: [anterior] is the cell before it. *)
Lemma unlink_later h t ks a ea l e rs :
  rep h t (ks ++ (a, ea) :: (l, e) :: rs) ->
  exists h' t', unlink h t (Some a) l = Some (h', t', Some a, false) /\
    rep h' t' (ks ++ (a, ea) :: rs).
Proof.
  intros [Hs Hn Hf Hc]. pose proof Hs as (m & H1 & -> & nx & Ha & -> & nl & Hl & H2)%seg_app.
  assert (a <> l /\ a ∉ ks.*1 /\ l ∉ ks.*1 /\ a ∉ rs.*1 /\ l ∉ rs.*1 /\ NoDup (ks ++ (a, ea) :: rs).*1)
    as (Hal & Hak & Hlk & Har & Hlr & Hn').
  { rewrite fmap_app, !fmap_cons in Hn |- *. simpl in *.
    apply list.NoDup_app in Hn as (Hk & Hd & Hn). apply NoDup_cons in Hn as [Hn1 Hn].
    apply NoDup_cons in Hn as [Hn2 Hn3]. split_and!; try set_solver.
    apply list.NoDup_app. split_and!; [done | set_solver |]. apply NoDup_cons. set_solver. }
  assert (inicio t <> Some l) as Hi.
  { destruct ks as [| [k ek] ks]; simpl in H1; [congruence |]. destruct H1 as [-> _]. set_solver. }
  assert (seg (delete l (<[a := Cell ea nl]> h)) (inicio t) (ks ++ (a, ea) :: rs) None) as Hs'.
  { apply seg_app. exists (Some a). split; [| split; [done | exists nl; split]].
    - apply (seg_frame h); [done |]. intros k Hk.
      rewrite lookup_delete_ne, lookup_insert_ne by set_solver. done.
    - by rewrite lookup_delete_ne, lookup_insert_eq by done.
    - apply (seg_frame h); [done |]. intros k Hk.
      rewrite lookup_delete_ne, lookup_insert_ne by set_solver. done. }
  assert (0 <? num_element t = true) as Hpos.
  { apply Z.ltb_lt. rewrite Hc, length_app. simpl. lia. }
  unfold unlink. rewrite (bool_decide_eq_false_2 (inicio t = Some l)) by done. simpl.
  destruct rs as [| [k ek] rs].
  - assert (fin t = Some l) as Hfl by (by rewrite Hf, last_app).
    rewrite bool_decide_eq_true_2 by done. rewrite Ha. simpl.
    rewrite lookup_insert_ne, Hl by done. simpl. simpl in H2. subst nl. rewrite Hpos.
    eexists _, _. split; [done |]. split; simpl; [done | done | by rewrite last_snoc |].
    rewrite Hc, !length_app. simpl. lia.
  - rewrite bool_decide_eq_false_2.
    2:{ rewrite Hf. intros Hlast. apply Hlr, last_addr_elem. by rewrite last_app_cons in Hlast. }
    rewrite Ha. simpl. rewrite Hl. simpl. rewrite lookup_insert_ne, Hl by done. simpl. rewrite Hpos.
    eexists _, _. split; [done |]. split; simpl; [done | done | |].
    + by rewrite Hf, !last_app_cons.
    + rewrite Hc, !length_app. simpl. lia.
Qed.

(** ** Deleting the expired entries *)

(** The entry outlives the sweep at time [now]. *)
Definition live (now : Z) (p : loc * mac_port_time) : Prop := now < valid_time_entry (snd p).

#[global] Instance live_dec now p : Decision (live now p).
Proof. unfold live. apply _. Defined.

Lemma seg_head h p es : seg h p es None -> p = fst <$> head es.
Proof. destruct es as [| [l e] es]; simpl; [done | by intros [-> _]]. Qed.

Lemma rep_mid h t ks l e rs :
  rep h t (ks ++ (l, e) :: rs) -> h !! l = Some (Cell e (fst <$> head rs)) /\ 0 <? num_element t = true.
Proof.
  intros [Hs _ _ Hc]. split.
  - apply seg_lookup in Hs as (nx & -> & Hs). by rewrite (seg_head _ _ _ Hs).
  - apply Z.ltb_lt. rewrite Hc, length_app. simpl. lia.
Qed.

Lemma delete_timeout_kept h t ks a ea rs now fuel :
  rep h t (ks ++ (a, ea) :: rs) -> (length rs <= fuel)%nat ->
  exists h' t', delete_timeout_loop fuel h t (Some a) (fst <$> head rs) now = Some (h', t') /\
    rep h' t' (ks ++ (a, ea) :: filter (live now) rs).
Proof.
  revert h t ks a ea fuel. induction rs as [| [l e] rs IH]; intros h t ks a ea fuel Hr Hf.
  - destruct fuel; by exists h, t.
  - destruct fuel as [| fuel]; [simpl in Hf; lia |]. cbn [length] in Hf.
    destruct (rep_mid h t (ks ++ [(a, ea)]) l e rs) as [Hl Hpos]; [by rewrite <- app_assoc |].
    simpl. rewrite Hpos, Hl. simpl. rewrite filter_cons.
    destruct (Z.leb_spec (valid_time_entry e) now) as [Hexp | Hlive].
    + rewrite decide_False by (unfold live; simpl; lia).
      destruct (unlink_later h t ks a ea l e rs Hr) as (h' & t' & -> & Hr'). simpl.
      destruct (rep_mid _ _ _ _ _ _ Hr') as [-> _]. simpl. apply IH; [done | lia].
    + rewrite decide_True by (unfold live; simpl; lia). simpl. rewrite Hl. simpl.
      destruct (IH h t (ks ++ [(a, ea)]) l e fuel) as (h' & t' & -> & Hr'); [by rewrite <- app_assoc | lia |].
      exists h', t'. split; [done |]. by rewrite <- app_assoc in Hr'.
Qed.

Lemma delete_timeout_head h t es now fuel :
  rep h t es -> (length es <= fuel)%nat -> (es = [] \/ Exists (live now) es) ->
  exists h' t', delete_timeout_loop fuel h t (inicio t) (inicio t) now = Some (h', t') /\
    rep h' t' (filter (live now) es).
Proof.
  revert h t fuel. induction es as [| [l e] es IH]; intros h t fuel Hr Hf Hlv.
  - rewrite (seg_head _ _ _ (rep_seg _ _ _ Hr)). destruct fuel; by exists h, t.
  - destruct fuel as [| fuel]; [simpl in Hf; lia |]. cbn [length] in Hf.
    rewrite (seg_head _ _ _ (rep_seg _ _ _ Hr)). simpl.
    destruct (rep_mid h t [] l e es Hr) as [Hl Hpos]. rewrite Hpos, Hl. simpl. rewrite filter_cons.
    destruct (Z.leb_spec (valid_time_entry e) now) as [Hexp | Hlive].
    + assert (~ live now (l, e)) as Hnl by (unfold live; simpl; lia). rewrite decide_False by done.
      destruct Hlv as [? | Hlv]; [done |].
      inversion Hlv as [? ? Hx | ? ? Hx]; subst; [done |].
      destruct es as [| [l2 e2] es]; [by apply Exists_nil in Hx |].
      destruct (unlink_head h t (Some l) l e l2 e2 es Hr) as (t' & -> & Hr' & Hi). simpl.
      rewrite Hi, <- Hi. apply IH; [done | simpl in *; lia | by right].
    + rewrite decide_True by (unfold live; simpl; lia). simpl. rewrite Hl. simpl.
      apply (delete_timeout_kept h t []); [done | lia].
Qed.

(** Once every entry has expired the last one is freed and then read again. *)
Lemma delete_timeout_all_expired h t es now fuel :
  rep h t es -> es <> [] -> Forall (fun p => ~ live now p) es -> (length es <= fuel)%nat ->
  delete_timeout_loop fuel h t (inicio t) (inicio t) now = None.
Proof.
  revert h t fuel. induction es as [| [l e] es IH]; intros h t fuel Hr Hne Hall Hf; [done |].
  destruct fuel as [| fuel]; [simpl in Hf; lia |]. cbn [length] in Hf.
  rewrite (seg_head _ _ _ (rep_seg _ _ _ Hr)). simpl.
  destruct (rep_mid h t [] l e es Hr) as [Hl Hpos]. rewrite Hpos, Hl. simpl.
  inversion Hall as [| ? ? Hnl Hall']; subst. unfold live in Hnl. simpl in Hnl.
  rewrite (proj2 (Z.leb_le _ _)) by lia.
  destruct es as [| [l2 e2] es].
  - rewrite (unlink_single h t (Some l) l e Hr). simpl. by rewrite lookup_delete_eq.
  - destruct (unlink_head h t (Some l) l e l2 e2 es Hr) as (t' & -> & Hr' & Hi). simpl.
    rewrite Hi, <- Hi. apply IH; [done | done | done | simpl in *; lia].
Qed.

(** ** Deleting a position *)

(** The loop once [pos_act] has reached [position]: it never moves on, so it
    unlinks every cell after [anterior]. *)
Lemma delete_position_rest h t ks a ea rs p fuel :
  rep h t (ks ++ (a, ea) :: rs) -> (length rs <= fuel)%nat ->
  exists h' t', delete_position_loop fuel h t (Some a) (fst <$> head rs) p p = Some (h', t') /\
    rep h' t' (ks ++ [(a, ea)]).
Proof.
  revert h t fuel. induction rs as [| [l e] rs IH]; intros h t fuel Hr Hf.
  - destruct fuel; by exists h, t.
  - destruct fuel as [| fuel]; [simpl in Hf; lia |]. cbn [length] in Hf.
    destruct (rep_mid h t (ks ++ [(a, ea)]) l e rs) as [Hl Hpos]; [by rewrite <- app_assoc |].
    simpl. rewrite Hpos, Z.eqb_refl.
    destruct (unlink_later h t ks a ea l e rs Hr) as (h' & t' & -> & Hr'). simpl.
    destruct (rep_mid _ _ _ _ _ _ Hr') as [-> _]. simpl. apply IH; [done | lia].
Qed.

(** The loop while [pos_act < position]: [anterior] is one cell behind. *)
Lemma delete_position_walk h t ks a ea rs i p fuel :
  rep h t (ks ++ (a, ea) :: rs) -> i <= p -> (length rs <= fuel)%nat ->
  exists h' t', delete_position_loop fuel h t (Some a) (fst <$> head rs) i p = Some (h', t') /\
    rep h' t' (ks ++ (a, ea) :: take (Z.to_nat (p - i)) rs).
Proof.
  revert h t ks a ea i fuel. induction rs as [| [l e] rs IH]; intros h t ks a ea i fuel Hr Hi Hf.
  - rewrite take_nil. destruct fuel; by exists h, t.
  - destruct (decide (i = p)) as [-> | Hne].
    { rewrite Z.sub_diag. simpl take. by apply delete_position_rest. }
    destruct fuel as [| fuel]; [simpl in Hf; lia |]. cbn [length] in Hf.
    destruct (rep_mid h t (ks ++ [(a, ea)]) l e rs) as [Hl Hpos]; [by rewrite <- app_assoc |].
    destruct (rep_mid h t ks a ea ((l, e) :: rs) Hr) as [Ha _].
    simpl. rewrite Hpos. rewrite (proj2 (Z.eqb_neq _ _)) by done. rewrite Ha. simpl. rewrite Hl. simpl.
    destruct (IH h t (ks ++ [(a, ea)]) l e (i + 1) fuel) as (h' & t' & -> & Hr');
      [by rewrite <- app_assoc | lia | lia |].
    exists h', t'. split; [done |]. rewrite <- app_assoc in Hr'. simpl in Hr'.
    replace (Z.to_nat (p - i)) with (S (Z.to_nat (p - (i + 1)))) by lia. done.
Qed.

(** ** The sweep of [bt_table] by its first entry *)

Lemma delete_all_keep h t ks a ea rs act fuel :
  rep h t (ks ++ (a, ea) :: rs) -> (S (length rs) <= fuel)%nat ->
  delete_all_loop fuel h t (Some a) act false = Some (h, t).
Proof.
  revert ks a ea act fuel. induction rs as [| [b eb] rs IH]; intros ks a ea act fuel Hr Hf;
    (destruct fuel as [| fuel]; [lia |]); cbn [length] in Hf;
    destruct (rep_mid _ _ _ _ _ _ Hr) as [Ha Hpos]; simpl; destruct act as [l |]; try done;
    rewrite Hpos, Ha; simpl.
  - by destruct fuel.
  - destruct (rep_mid h t (ks ++ [(a, ea)]) b eb rs) as [Hb _]; [by rewrite <- app_assoc |].
    rewrite Hb. simpl. apply (IH (ks ++ [(a, ea)]) b eb); [by rewrite <- app_assoc | lia].
Qed.

Lemma delete_all_clear h t es fuel :
  rep h t es -> es <> [] -> (length es <= fuel)%nat ->
  delete_all_loop fuel h t (inicio t) (inicio t) true = None.
Proof.
  revert h t fuel. induction es as [| [l e] es IH]; intros h t fuel Hr Hne Hf; [done |].
  destruct fuel as [| fuel]; [simpl in Hf; lia |]. cbn [length] in Hf.
  rewrite (seg_head _ _ _ (rep_seg _ _ _ Hr)). simpl.
  destruct (rep_mid h t [] l e es Hr) as [Hl Hpos]. rewrite Hpos. simpl.
  destruct es as [| [l2 e2] es].
  - rewrite (unlink_single h t (Some l) l e Hr). simpl. by rewrite lookup_delete_eq.
  - destruct (unlink_head h t (Some l) l e l2 e2 es Hr) as (t' & -> & Hr' & Hi). simpl.
    rewrite <- Hi. apply IH; [done | done | simpl in *; lia].
Qed.

(** * Properties *)

(** Adding and finding: after [mac_to_port_add] of a MAC that has no entry,
    [mac_to_port_found_port] with the same sequence number returns its port as
    long as 80 percent of the given time has not passed and 0 (expired) after
    that, and the entries of the other MACs are found as before. *)
Theorem mac_add_then_found h t es mac port time nsec now :
  rep h t es -> first_mac mac es = None ->
  exists h' t', mac_to_port_add h t mac port time nsec now = Some (h', t', 0) /\
    (forall later, later <= valid_until now time ->
       mac_to_port_found_port h' t' mac nsec later = Some port) /\
    (forall later, valid_until now time < later ->
       mac_to_port_found_port h' t' mac nsec later = Some 0) /\
    (forall mac' nsec' later, mac_eqb mac mac' = false ->
       mac_to_port_found_port h' t' mac' nsec' later = mac_to_port_found_port h t mac' nsec' later).
Proof.
  intros Hr Hnone.
  destruct (mac_add_rep h t es mac port time nsec now Hr) as (h' & t' & l & Hadd & Hr').
  exists h', t'. split; [done |].
  assert (forall m, mac_eqb (take 6 mac) m = mac_eqb mac m) as Htk.
  { intros m. unfold mac_eqb, ETH_ADDR_LEN. by rewrite take_idemp. }
  assert (mac_eqb mac mac = true) as Hrefl by (by apply bool_decide_eq_true_2).
  assert (forall m, first_mac m [(l, MPT (take 6 mac) port (valid_until now time) true nsec)] =
    if mac_eqb mac m then Some (l, MPT (take 6 mac) port (valid_until now time) true nsec) else None)
    as Hone by (intros m; unfold first_mac; simpl; by rewrite Htk).
  split_and!; intros *; intros Hlt; rewrite (found_port_spec h' t' _ _ _ _ Hr'), first_mac_app, Hone.
  - rewrite Hnone, Hrefl. simpl. rewrite (proj2 (Z.leb_le _ _)) by lia. by rewrite Z.eqb_refl.
  - rewrite Hnone, Hrefl. simpl. by rewrite (proj2 (Z.leb_gt _ _)) by lia.
  - rewrite (found_port_spec h t es _ _ _ Hr), Hlt. by destruct (first_mac mac' es) as [[]|].
Qed.

(** [mac_to_port_update] and [mac_to_port_time_refresh] change only the first
    entry of the MAC: the first gives it the new port and records whether that
    is a change, the second keeps the port; both set the sequence number and
    never shorten the validity.  A MAC without entry gives the error code and
    leaves the table as it is. *)
Theorem mac_update_refresh h t es mac port time nsec now :
  rep h t es ->
  match first_mac mac es with
  | Some (l, e) =>
      exists es1 es2 h1 h2, es = es1 ++ (l, e) :: es2 /\
        mac_to_port_update h t mac port time nsec now = Some (h1, 0) /\
        rep h1 t (es1 ++ (l, updated port time nsec now e) :: es2) /\
        mac_to_port_time_refresh h t mac time nsec now = Some (h2, 0) /\
        rep h2 t (es1 ++ (l, refreshed time nsec now e) :: es2)
  | None =>
      mac_to_port_update h t mac port time nsec now = Some (h, 1) /\
      mac_to_port_time_refresh h t mac time nsec now = Some (h, -1)
  end.
Proof.
  intros Hr. pose proof (update_spec h t es mac port time nsec now Hr) as Hu.
  pose proof (refresh_spec h t es mac time nsec now Hr) as Hv.
  destruct (first_mac mac es) as [[l e] |]; [| done].
  destruct Hu as (h1 & es1 & es2 & He & Hu & Hr1), Hv as (h2 & es3 & es4 & He' & Hv & Hr2).
  exists es1, es2, h1, h2. split_and!; try done.
  assert (es1 = es3 /\ es2 = es4) as [<- <-]; [| done].
  by apply (rep_split h t es l e).
Qed.

(** The sweep [mac_to_port_delete_timeout] removes exactly the expired
    entries, keeps the order of the others and a consistent list, provided at
    least one entry is still valid or the table is empty. *)
Theorem mac_delete_timeout_filters h t es now :
  rep h t es -> es = [] \/ Exists (live now) es ->
  exists h' t', mac_to_port_delete_timeout h t now = Some (h', t') /\
    rep h' t' (filter (live now) es).
Proof. intros Hr Hl. apply delete_timeout_head; [done | by eapply rep_size | done]. Qed.

(** When every entry of a non-empty table has expired, both sweeps read the
    [next] pointer of the entry they have just freed, whatever the bound on the
    iterations; the eHDDP sweep does so as soon as the first entry has expired,
    and leaves the table alone otherwise. *)
Theorem mac_delete_timeout_use_after_free h t es now fuel :
  rep h t es -> (length es <= fuel)%nat ->
  (es <> [] -> Forall (fun p => ~ live now p) es ->
     delete_timeout_loop fuel h t (inicio t) (inicio t) now = None) /\
  (es <> [] -> delete_all_loop fuel h t (inicio t) (inicio t) true = None) /\
  (forall l e, head es = Some (l, e) -> now <= valid_time_entry e ->
     mac_to_port_delete_timeout_ehddp h t now = Some (h, t)).
Proof.
  intros Hr Hf. split_and!.
  - intros. by eapply delete_timeout_all_expired.
  - intros. by eapply delete_all_clear.
  - intros l e Hh Hv. destruct es as [| p es]; simplify_eq/=.
    unfold mac_to_port_delete_timeout_ehddp. destruct (rep_mid h t [] l e es Hr) as [Hl Hpos].
    assert (S (length es) <= S (fuel_of h))%nat as Hfu by (apply rep_size in Hr; unfold fuel_of; simpl in *; lia).
    revert Hfu. generalize (S (fuel_of h)) as F. intros F HF.
    rewrite Hpos, (seg_head _ _ _ (rep_seg _ _ _ Hr)). simpl. rewrite Hl. simpl.
    rewrite (proj2 (Z.ltb_ge (valid_time_entry e) now)) by lia.
    by apply (delete_all_keep h t [] l e es).
Qed.

(** [mac_to_port_delete_position] does not delete one element: at position 1
    it keeps only the second entry, and at a later position [p] it keeps the
    first [p] entries and deletes all the others. *)
Theorem mac_delete_position_truncates h t es p :
  rep h t es ->
  (forall x y zs, es = x :: y :: zs -> p = 1 ->
     exists h' t', mac_to_port_delete_position h t p = Some (h', t') /\ rep h' t' [y]) /\
  (2 <= p -> exists h' t', mac_to_port_delete_position h t p = Some (h', t') /\
     rep h' t' (take (Z.to_nat p) es)).
Proof.
  intros Hr. pose proof (rep_size _ _ _ Hr) as Hsz. unfold mac_to_port_delete_position, fuel_of.
  split.
  - intros [l e] [l2 e2] zs -> ->. rewrite (seg_head _ _ _ (rep_seg _ _ _ Hr)). simpl.
    destruct (rep_mid h t [] l e _ Hr) as [Hl ->].
    destruct (unlink_head h t (Some l) l e l2 e2 zs Hr) as (t' & -> & Hr' & _). simpl.
    destruct (rep_mid _ _ [] _ _ _ Hr') as [-> _]. simpl.
    apply (delete_position_rest _ _ []); [done |]. simpl in Hsz. lia.
  - intros Hp. rewrite (seg_head _ _ _ (rep_seg _ _ _ Hr)).
    destruct es as [| [l e] es]; [rewrite take_nil; by exists h, t |].
    cbn [delete_position_loop fst head fmap option_fmap option_map].
    destruct (rep_mid h t [] l e _ Hr) as [Hl ->]. rewrite (proj2 (Z.eqb_neq 1 p)) by lia.
    simpl. rewrite Hl. simpl. destruct es as [| [l2 e2] zs]; simpl.
    + rewrite firstn_all2 by (simpl; lia). destruct (size h); by exists h, t.
    + destruct (rep_mid h t [(l, e)] l2 e2 zs Hr) as [-> _]. simpl.
      destruct (delete_position_walk h t [(l, e)] l2 e2 zs 2 p (size h)) as (h' & t' & Heq & Hr');
        [done | lia | simpl in Hsz; lia |].
      exists h', t'. split; [exact Heq |].
      by replace (Z.to_nat p) with (S (S (Z.to_nat (p - 2)))) by lia.
Qed.

(** ** Byte order *)

(** The bit of masked and shifted bytes, at a concrete position. *)
Ltac byte_swap_bits :=
  rewrite ?Z.lor_spec, ?Z.land_spec;
  rewrite ?wrap_testbit, ?Z.shiftr_spec, ?Z.shiftl_spec by lia;
  rewrite ?Z.lor_spec;
  rewrite ?Z.shiftr_spec, ?Z.shiftl_spec by lia;
  cbn; rewrite ?andb_true_r, ?andb_false_r, ?orb_false_r; reflexivity.

(** Two words of [w] bits agree when their bits, listed one by one, do. *)
Lemma bits_listed (w : nat) a b :
  in_range w a -> in_range w b ->
  Forall (fun i => Z.testbit a i = Z.testbit b i) (seqZ 0 w) -> a = b.
Proof.
  intros Ha Hb HF. apply (bits_ext w); [lia | done | done |]. intros i Hi.
  rewrite Forall_forall in HF. apply HF. apply elem_of_seqZ. lia.
Qed.

Lemma lor_land_range w a m b : 0 <= w -> in_range w m -> 0 <= a -> in_range w b ->
  in_range w (Z.lor b (Z.land a m)).
Proof.
  intros Hw Hm Ha Hb. apply in_range_lor; [done | done |].
  rewrite Z.land_comm. by apply in_range_land.
Qed.

Lemma bigtolittle64_bswap x : in_range 64 x -> bigtolittle64 x = bswap 8 x.
Proof.
  intros Hx. apply (bits_listed 64).
  - unfold bigtolittle64.
    assert (forall k, 0 <= Z.shiftr x k) as Hr by (intros; rewrite Z.shiftr_nonneg; apply Hx).
    assert (forall z, 0 <= u64 z) as Hu by (intros; by apply (wrap_range 64)).
    do 7 (apply lor_land_range; [done | split; by vm_compute | auto |]).
    rewrite Z.land_comm. apply in_range_land; [done | split; by vm_compute | done].
  - apply (bswap_range 8).
  - change (seqZ 0 64%nat) with (seqZ 0 64). cbv [seqZ seq Z.to_nat Pos.to_nat Pos.iter_op Nat.add fmap list_fmap].
    repeat constructor; rewrite bswap_testbit by lia; unfold bigtolittle64; byte_swap_bits.
Qed.

Lemma bigtolittle32_bswap x : in_range 32 x -> bigtolittle32 x = bswap 4 x.
Proof.
  intros Hx. apply (bits_listed 32).
  - unfold bigtolittle32.
    assert (forall k, 0 <= Z.shiftr x k) as Hr by (intros; rewrite Z.shiftr_nonneg; apply Hx).
    assert (forall z, 0 <= u32 z) as Hu by (intros; by apply (wrap_range 32)).
    do 3 (apply lor_land_range; [done | split; by vm_compute | auto |]).
    rewrite Z.land_comm. apply in_range_land; [done | split; by vm_compute | done].
  - apply (bswap_range 4).
  - change (seqZ 0 32%nat) with (seqZ 0 32).
    cbv [seqZ seq Z.to_nat Pos.to_nat Pos.iter_op Nat.add fmap list_fmap].
    repeat constructor; rewrite bswap_testbit by lia; unfold bigtolittle32; byte_swap_bits.
Qed.

Lemma bigtolittle16_bswap x : in_range 16 x -> bigtolittle16 x = bswap 2 x.
Proof.
  intros Hx. apply (bits_listed 16); [by apply wrap_range | apply (bswap_range 2) |].
  change (seqZ 0 16%nat) with (seqZ 0 16).
  cbv [seqZ seq Z.to_nat Pos.to_nat Pos.iter_op Nat.add fmap list_fmap].
  assert (forall i, 16 <= i -> Z.testbit x i = false) as Hhi
    by (intros; by apply (in_range_testbit 16)).
  repeat constructor; rewrite bswap_testbit by lia; unfold bigtolittle16;
    rewrite wrap_testbit, Z.lor_spec, Z.shiftr_spec, Z.shiftl_spec by lia; cbn;
    rewrite ?Hhi by lia; rewrite ?orb_false_r; reflexivity.
Qed.

Lemma mac2int_loop_be i p a :
  length p = S i -> bytes_ok p -> 0 <= a -> (i <= 5)%nat ->
  mac2int_loop i p (a * 2 ^ (8 * S i)) = a * 2 ^ (8 * S i) + be_load p.
Proof.
  revert i a. induction p as [| b p IH]; intros i a Hl Hb Ha Hi; [done |].
  inversion Hb as [| ? ? Hbb Hbp]; subst. simpl in Hl.
  assert (0 <= b < 256) as Hbr by exact Hbb.
  assert (be_load (b :: p) = be_load p + 2 ^ (8 * length p) * b) as Hbe.
  { unfold be_load. simpl rev. rewrite le_load_app, length_rev. simpl. lia. }
  assert (length p = i) as Hlp by lia. rewrite Hlp in Hbe.
  assert (2 ^ (8 * Z.of_nat (S i)) = 256 * 2 ^ (8 * Z.of_nat i)) as Hpow.
  { replace (8 * Z.of_nat (S i)) with (8 + 8 * Z.of_nat i) by lia. by rewrite Z.pow_add_r by lia. }
  assert (0 < 2 ^ (8 * Z.of_nat i)) as Hpp by (apply Z.pow_pos_nonneg; lia).
  assert (256 * 2 ^ (8 * Z.of_nat i) <= 2 ^ 48) as H48.
  { rewrite <- Hpow. apply Z.pow_le_mono_r; lia. }
  assert (Z.lor (a * 2 ^ (8 * S i)) (u64 (Z.shiftl b (8 * i))) = (a * 256 + b) * 2 ^ (8 * i)) as Hstep.
  { rewrite Z.shiftl_mul_pow2 by lia. rewrite wrap_small by (unfold in_range; nia).
    rewrite lor_low_add; [nia | lia |]. unfold in_range. nia. }
  assert (mac2int_loop i (b :: p) (a * 2 ^ (8 * S i)) =
    match i with O => (a * 256 + b) * 2 ^ (8 * i) | S i' => mac2int_loop i' p ((a * 256 + b) * 2 ^ (8 * i)) end)
    as -> by (rewrite <- Hstep; by destruct i).
  destruct i as [| i].
  - destruct p; [| done]. change (be_load [b]) with (b + 256 * 0). change (2 ^ (8 * 0%nat)) with 1.
    change (2 ^ (8 * 1%nat)) with 256. lia.
  - rewrite IH by (try done; lia). rewrite Hbe, Hpow. lia.
Qed.

Lemma mac2int_be mac : length mac = 6%nat -> bytes_ok mac -> mac2int mac = be_load mac.
Proof. intros Hl Hb. apply (mac2int_loop_be 5 mac 0); [done | done | lia | lia]. Qed.

Lemma int2mac_loop_be i z : int2mac_loop i z = be_store (S i) z.
Proof.
  unfold be_store. induction i as [| i IH].
  - simpl. by rewrite Z.shiftr_0_r.
  - rewrite le_store_snoc, rev_app_distr. cbn [int2mac_loop rev app].
    rewrite IH. f_equal. unfold wrap. by rewrite Z.shiftr_div_pow2 by lia.
Qed.

(** The byte-order conversions are those of the network ([htons], [htonl],
    [hton64] on this host) and so undo themselves, and [mac2int]/[int2mac] are
    the network-order reading and writing of six bytes and undo each other. *)
Theorem byte_order_roundtrip x m mac :
  in_range 64 x -> length mac = 6%nat -> bytes_ok mac -> in_range 48 m ->
  bigtolittle64 x = hton64 x /\ bigtolittle64 (bigtolittle64 x) = x /\
  bigtolittle32 (u32 x) = htonl (u32 x) /\ bigtolittle32 (bigtolittle32 (u32 x)) = u32 x /\
  bigtolittle16 (u16 x) = htons (u16 x) /\ bigtolittle16 (bigtolittle16 (u16 x)) = u16 x /\
  int2mac (mac2int mac) = mac /\ mac2int (int2mac m) = m.
Proof.
  intros Hx Hl Hb Hm.
  assert (in_range 32 (u32 x)) by (by apply wrap_range).
  assert (in_range 16 (u16 x)) by (by apply wrap_range).
  assert (length (int2mac m) = 6%nat /\ bytes_ok (int2mac m)) as [Hl' Hb'].
  { unfold int2mac. rewrite int2mac_loop_be. unfold be_store. rewrite length_rev, le_store_length.
    split; [done |]. apply Forall_rev, le_store_ok. }
  rewrite !bigtolittle64_bswap, !bigtolittle32_bswap, !bigtolittle16_bswap
    by (try done; first [apply (bswap_range 8) | apply (bswap_range 4) | apply (bswap_range 2)]).
  rewrite (bswap_involutive 8), (bswap_involutive 4), (bswap_involutive 2) by done.
  split_and!; try done.
  - rewrite mac2int_be by done. unfold int2mac. rewrite int2mac_loop_be.
    unfold be_store, be_load. rewrite <- Hl, <- (length_rev mac), le_store_load.
    + apply rev_involutive.
    + by apply Forall_rev.
  - rewrite mac2int_be by done. unfold int2mac. rewrite int2mac_loop_be, be_load_store.
    by apply wrap_small.
Qed.

Lemma byte_order_roundtrip_witness :
  bigtolittle16 (bigtolittle16 0xffaa) = 0xffaa /\ int2mac (mac2int [0;1;2;3;4;5]) = [0;1;2;3;4;5].
Proof.
  split; apply (byte_order_roundtrip 0xffaa 0x10203 [0;1;2;3;4;5]);
    try done; repeat constructor; by vm_compute.
Defined.

(** * Witnesses *)

Definition demo_mac (k : Z) : list Z := [0x02; 0; 0; 0; 0; k].
Definition demo_entry (k valid : Z) : mac_port_time := MPT (demo_mac k) k valid false 0.
Definition demo_es : list (loc * mac_port_time) :=
  [(1%positive, demo_entry 1 100); (2%positive, demo_entry 2 300); (3%positive, demo_entry 3 200)].
Definition demo_heap : heap := list_to_map
  [(1, Cell (demo_entry 1 100) (Some 2)); (2, Cell (demo_entry 2 300) (Some 3));
   (3, Cell (demo_entry 3 200) None)]%positive.
Definition demo_table : mac_to_port := MTP (Some 1%positive) (Some 3%positive) 3.

Lemma demo_rep : rep demo_heap demo_table demo_es.
Proof.
  split; [| apply (bool_decide_unpack _); by vm_compute | done | done].
  cbn. repeat (split; [done |]; eexists; split; [reflexivity |]). done.
Qed.

Lemma mac_add_then_found_witness :
  exists h' t', mac_to_port_add demo_heap demo_table (demo_mac 9) 7 4500 0 1000 = Some (h', t', 0) /\
    mac_to_port_found_port h' t' (demo_mac 9) 0 4600 = Some 7.
Proof.
  destruct (mac_add_then_found demo_heap demo_table demo_es (demo_mac 9) 7 4500 0 1000 demo_rep eq_refl)
    as (h' & t' & Ha & Hf & _ & _).
  exists h', t'. split; [exact Ha |]. apply Hf. by vm_compute.
Defined.

Lemma mac_update_refresh_witness :
  exists h', mac_to_port_update demo_heap demo_table (demo_mac 2) 5 20 1 50 = Some (h', 0).
Proof.
  pose proof (mac_update_refresh demo_heap demo_table demo_es (demo_mac 2) 5 20 1 50 demo_rep) as H.
  change (first_mac (demo_mac 2) demo_es) with (Some (2%positive, demo_entry 2 300)) in H.
  destruct H as (es1 & es2 & h1 & h2 & _ & Hu & _). by exists h1.
Defined.

Lemma mac_delete_timeout_filters_witness :
  exists h' t', mac_to_port_delete_timeout demo_heap demo_table 150 = Some (h', t') /\
    rep h' t' [(2%positive, demo_entry 2 300); (3%positive, demo_entry 3 200)].
Proof.
  apply (mac_delete_timeout_filters demo_heap demo_table demo_es 150); [apply demo_rep |].
  right. apply (bool_decide_unpack _). by vm_compute.
Defined.

Lemma mac_delete_timeout_use_after_free_witness :
  delete_timeout_loop 3 demo_heap demo_table (Some 1%positive) (Some 1%positive) 300 = None.
Proof.
  destruct (mac_delete_timeout_use_after_free demo_heap demo_table demo_es 300 3 demo_rep (le_n 3))
    as [H _].
  apply H; [done |]. apply (bool_decide_unpack _). by vm_compute.
Defined.

Lemma mac_delete_position_truncates_witness :
  exists h' t', mac_to_port_delete_position demo_heap demo_table 1 = Some (h', t') /\
    rep h' t' [(2%positive, demo_entry 2 300)].
Proof.
  destruct (mac_delete_position_truncates demo_heap demo_table demo_es 1 demo_rep) as [H _].
  exact (H _ _ _ eq_refl eq_refl).
Defined.

End MacTable.
