(* ===== verification/Oxm.v ===== *)
(** OXM matches: the TLV headers and the table of known fields
    (include/openflow/openflow.h, oflib/oxm-match.def), the matches as hash maps
    of TLVs with the functions that add to them (oflib/ofl-structs-match.c), and
    the decoder and encoder of the wire format (oflib/oxm-match.c). *)
From S2P Require Import Prelude HMap.
Open Scope Z_scope.

(** * Headers *)

Definition OXM_HEADER__ (CLASS FIELD HASMASK LENGTH : Z) : Z :=
  Z.lor (Z.lor (Z.lor (Z.shiftl CLASS 16) (Z.shiftl FIELD 9)) (Z.shiftl HASMASK 8)) LENGTH.
Definition OXM_HEADER (CLASS FIELD LENGTH : Z) : Z := OXM_HEADER__ CLASS FIELD 0 LENGTH.
Definition OXM_HEADER_W (CLASS FIELD LENGTH : Z) : Z := OXM_HEADER__ CLASS FIELD 1 (LENGTH * 2).

Definition OXM_VENDOR (HEADER : Z) : Z := Z.shiftr HEADER 16.
Definition OXM_FIELD (HEADER : Z) : Z := Z.land (Z.shiftr HEADER 9) 0x7f.
Definition OXM_TYPE (HEADER : Z) : Z := Z.land (Z.shiftr HEADER 9) 0x7fffff.
Definition OXM_HASMASK (HEADER : Z) : bool := negb (Z.land (Z.shiftr HEADER 8) 1 =? 0).
Definition OXM_LENGTH (HEADER : Z) : Z := Z.land HEADER 0xff.

Definition OXM_OF_IN_PORT : Z := OXM_HEADER 0x8000 0 4.
Definition OXM_OF_IN_PHY_PORT : Z := OXM_HEADER 0x8000 1 4.
Definition OXM_OF_METADATA : Z := OXM_HEADER 0x8000 2 8.
Definition OXM_OF_METADATA_W : Z := OXM_HEADER_W 0x8000 2 8.
Definition OXM_OF_ETH_DST : Z := OXM_HEADER 0x8000 3 6.
Definition OXM_OF_ETH_DST_W : Z := OXM_HEADER_W 0x8000 3 6.
Definition OXM_OF_ETH_SRC : Z := OXM_HEADER 0x8000 4 6.
Definition OXM_OF_ETH_SRC_W : Z := OXM_HEADER_W 0x8000 4 6.
Definition OXM_OF_ETH_TYPE : Z := OXM_HEADER 0x8000 5 2.
Definition OXM_OF_VLAN_VID : Z := OXM_HEADER 0x8000 6 2.
Definition OXM_OF_VLAN_VID_W : Z := OXM_HEADER_W 0x8000 6 2.
Definition OXM_OF_VLAN_PCP : Z := OXM_HEADER 0x8000 7 1.
Definition OXM_OF_IP_DSCP : Z := OXM_HEADER 0x8000 8 1.
Definition OXM_OF_IP_ECN : Z := OXM_HEADER 0x8000 9 1.
Definition OXM_OF_IP_PROTO : Z := OXM_HEADER 0x8000 10 1.
Definition OXM_OF_IPV4_SRC : Z := OXM_HEADER 0x8000 11 4.
Definition OXM_OF_IPV4_SRC_W : Z := OXM_HEADER_W 0x8000 11 4.
Definition OXM_OF_IPV4_DST : Z := OXM_HEADER 0x8000 12 4.
Definition OXM_OF_IPV4_DST_W : Z := OXM_HEADER_W 0x8000 12 4.
Definition OXM_OF_TCP_SRC : Z := OXM_HEADER 0x8000 13 2.
Definition OXM_OF_TCP_DST : Z := OXM_HEADER 0x8000 14 2.
Definition OXM_OF_UDP_SRC : Z := OXM_HEADER 0x8000 15 2.
Definition OXM_OF_UDP_DST : Z := OXM_HEADER 0x8000 16 2.
Definition OXM_OF_SCTP_SRC : Z := OXM_HEADER 0x8000 17 2.
Definition OXM_OF_SCTP_DST : Z := OXM_HEADER 0x8000 18 2.
Definition OXM_OF_ICMPV4_TYPE : Z := OXM_HEADER 0x8000 19 1.
Definition OXM_OF_ICMPV4_CODE : Z := OXM_HEADER 0x8000 20 1.
Definition OXM_OF_ARP_OP : Z := OXM_HEADER 0x8000 21 2.
Definition OXM_OF_ARP_SPA : Z := OXM_HEADER 0x8000 22 4.
Definition OXM_OF_ARP_SPA_W : Z := OXM_HEADER_W 0x8000 22 4.
Definition OXM_OF_ARP_TPA : Z := OXM_HEADER 0x8000 23 4.
Definition OXM_OF_ARP_TPA_W : Z := OXM_HEADER_W 0x8000 23 4.
Definition OXM_OF_ARP_SHA : Z := OXM_HEADER 0x8000 24 6.
Definition OXM_OF_ARP_SHA_W : Z := OXM_HEADER_W 0x8000 24 6.
Definition OXM_OF_ARP_THA : Z := OXM_HEADER 0x8000 25 6.
Definition OXM_OF_ARP_THA_W : Z := OXM_HEADER_W 0x8000 25 6.
Definition OXM_OF_IPV6_SRC : Z := OXM_HEADER 0x8000 26 16.
Definition OXM_OF_IPV6_SRC_W : Z := OXM_HEADER_W 0x8000 26 16.
Definition OXM_OF_IPV6_DST : Z := OXM_HEADER 0x8000 27 16.
Definition OXM_OF_IPV6_DST_W : Z := OXM_HEADER_W 0x8000 27 16.
Definition OXM_OF_IPV6_FLABEL : Z := OXM_HEADER 0x8000 28 4.
Definition OXM_OF_IPV6_FLABEL_W : Z := OXM_HEADER_W 0x8000 28 4.
Definition OXM_OF_ICMPV6_TYPE : Z := OXM_HEADER 0x8000 29 1.
Definition OXM_OF_ICMPV6_CODE : Z := OXM_HEADER 0x8000 30 1.
Definition OXM_OF_IPV6_ND_TARGET : Z := OXM_HEADER 0x8000 31 16.
Definition OXM_OF_IPV6_ND_SLL : Z := OXM_HEADER 0x8000 32 6.
Definition OXM_OF_IPV6_ND_TLL : Z := OXM_HEADER 0x8000 33 6.
Definition OXM_OF_MPLS_LABEL : Z := OXM_HEADER 0x8000 34 4.
Definition OXM_OF_MPLS_TC : Z := OXM_HEADER 0x8000 35 1.
Definition OXM_OF_MPLS_BOS : Z := OXM_HEADER 0x8000 36 1.
Definition OXM_OF_PBB_ISID : Z := OXM_HEADER 0x8000 37 3.
Definition OXM_OF_PBB_ISID_W : Z := OXM_HEADER_W 0x8000 37 3.
Definition OXM_OF_TUNNEL_ID : Z := OXM_HEADER 0x8000 38 8.
Definition OXM_OF_TUNNEL_ID_W : Z := OXM_HEADER_W 0x8000 38 8.
Definition OXM_OF_IPV6_EXTHDR : Z := OXM_HEADER 0x8000 39 2.
Definition OXM_OF_IPV6_EXTHDR_W : Z := OXM_HEADER_W 0x8000 39 2.
Definition OXM_OF_EHDDP_FLAGS : Z := OXM_HEADER 0x8000 40 1.
Definition OXM_OF_EHDDP_OPCODE : Z := OXM_HEADER 0x8000 41 1.
Definition OXM_OF_EHDDP_NUM_DEVICE : Z := OXM_HEADER 0x8000 42 1.
Definition OXM_OF_EHDDP_NUM_SEC : Z := OXM_HEADER 0x8000 43 8.
Definition OXM_OF_EHDDP_PRE_MAC_SIZ : Z := OXM_HEADER 0x8000 44 1.
Definition OXM_OF_EHDDP_PRE_MAC : Z := OXM_HEADER 0x8000 45 6.
Definition OXM_OF_EHDDP_NUM_ACK : Z := OXM_HEADER 0x8000 46 8.
Definition OXM_OF_EHDDP_SRC_MAC : Z := OXM_HEADER 0x8000 47 6.
Definition OXM_OF_EHDDP_LAS_MAC : Z := OXM_HEADER 0x8000 48 6.
Definition OXM_OF_EHDDP_TIM_BLO : Z := OXM_HEADER 0x8000 49 4.
Definition OXM_OF_EHDDP_CONFIG : Z := OXM_HEADER 0x8000 50 1.
Definition OXM_OF_EHDDP_TYPE_DEVICE : Z := OXM_HEADER 0x8000 51 2.
Definition OXM_OF_EHDDP_IDS : Z := OXM_HEADER 0x8000 52 8.
Definition OXM_OF_EHDDP_IN_PORTS : Z := OXM_HEADER 0x8000 53 4.
Definition OXM_OF_EHDDP_OUT_PORTS : Z := OXM_HEADER 0x8000 54 4.

(** [enum oxm_field_index]. *)
Inductive oxm_field_index :=
  | OFI_OXM_OF_IN_PORT | OFI_OXM_OF_IN_PHY_PORT | OFI_OXM_OF_METADATA | OFI_OXM_OF_METADATA_W
  | OFI_OXM_OF_ETH_DST | OFI_OXM_OF_ETH_DST_W | OFI_OXM_OF_ETH_SRC | OFI_OXM_OF_ETH_SRC_W
  | OFI_OXM_OF_ETH_TYPE | OFI_OXM_OF_VLAN_VID | OFI_OXM_OF_VLAN_VID_W | OFI_OXM_OF_VLAN_PCP
  | OFI_OXM_OF_PBB_ISID | OFI_OXM_OF_PBB_ISID_W | OFI_OXM_OF_MPLS_LABEL | OFI_OXM_OF_MPLS_TC
  | OFI_OXM_OF_MPLS_BOS | OFI_OXM_OF_IP_DSCP | OFI_OXM_OF_IP_ECN | OFI_OXM_OF_IPV4_SRC
  | OFI_OXM_OF_IPV4_SRC_W | OFI_OXM_OF_IPV4_DST | OFI_OXM_OF_IPV4_DST_W | OFI_OXM_OF_IPV6_SRC
  | OFI_OXM_OF_IPV6_SRC_W | OFI_OXM_OF_IPV6_DST | OFI_OXM_OF_IPV6_DST_W
  | OFI_OXM_OF_IPV6_FLABEL | OFI_OXM_OF_IPV6_FLABEL_W | OFI_OXM_OF_IPV6_EXTHDR
  | OFI_OXM_OF_IPV6_EXTHDR_W | OFI_OXM_OF_IP_PROTO | OFI_OXM_OF_TCP_SRC | OFI_OXM_OF_TCP_DST
  | OFI_OXM_OF_UDP_SRC | OFI_OXM_OF_UDP_DST | OFI_OXM_OF_SCTP_SRC | OFI_OXM_OF_SCTP_DST
  | OFI_OXM_OF_ARP_OP | OFI_OXM_OF_ARP_SPA | OFI_OXM_OF_ARP_SPA_W | OFI_OXM_OF_ARP_TPA
  | OFI_OXM_OF_ARP_TPA_W | OFI_OXM_OF_ARP_SHA | OFI_OXM_OF_ARP_SHA_W | OFI_OXM_OF_ARP_THA
  | OFI_OXM_OF_ARP_THA_W | OFI_OXM_OF_ICMPV4_TYPE | OFI_OXM_OF_ICMPV4_CODE
  | OFI_OXM_OF_ICMPV6_TYPE | OFI_OXM_OF_ICMPV6_CODE | OFI_OXM_OF_IPV6_ND_TARGET
  | OFI_OXM_OF_IPV6_ND_SLL | OFI_OXM_OF_IPV6_ND_TLL | OFI_OXM_OF_TUNNEL_ID
  | OFI_OXM_OF_TUNNEL_ID_W | OFI_OXM_OF_EHDDP_FLAGS | OFI_OXM_OF_EHDDP_OPCODE
  | OFI_OXM_OF_EHDDP_NUM_DEVICE | OFI_OXM_OF_EHDDP_NUM_SEC | OFI_OXM_OF_EHDDP_PRE_MAC_SIZ
  | OFI_OXM_OF_EHDDP_PRE_MAC | OFI_OXM_OF_EHDDP_NUM_ACK | OFI_OXM_OF_EHDDP_SRC_MAC
  | OFI_OXM_OF_EHDDP_LAS_MAC | OFI_OXM_OF_EHDDP_TIM_BLO | OFI_OXM_OF_EHDDP_CONFIG
  | OFI_OXM_OF_EHDDP_TYPE_DEVICE | OFI_OXM_OF_EHDDP_IDS | OFI_OXM_OF_EHDDP_IN_PORTS
  | OFI_OXM_OF_EHDDP_OUT_PORTS.
(** [dl_type] prerequisites, in network order ([CONSTANT_HTONS]). *)
Definition DL_CONVERT (T1 T2 : Z) : Z * Z := (htons T1, htons T2).
Definition OXM_DL_NONE : Z * Z := DL_CONVERT 0 0.
Definition OXM_DL_ARP : Z * Z := DL_CONVERT 0x0806 0.
Definition OXM_DL_PBB : Z * Z := DL_CONVERT 0x88e7 0.
Definition OXM_DL_IP : Z * Z := DL_CONVERT 0x0800 0.
Definition OXM_DL_MPLS : Z * Z := DL_CONVERT 0x8847 0x8848.
Definition OXM_DL_IPV6 : Z * Z := DL_CONVERT 0x86dd 0.
Definition OXM_DL_IP_ANY : Z * Z := DL_CONVERT 0x0800 0x86dd.
Definition OXM_DL_EHDDP : Z * Z := DL_CONVERT 0xffaa 0.

(** [struct oxm_field]. *)
Record oxm_field := OxmField {
  index : oxm_field_index;
  f_header : Z;
  dl_type : Z * Z;
  nw_proto : Z;
  maskable : bool
}.

Definition all_fields : list oxm_field := [
  OxmField OFI_OXM_OF_IN_PORT OXM_OF_IN_PORT OXM_DL_NONE 0 false;
  OxmField OFI_OXM_OF_IN_PHY_PORT OXM_OF_IN_PHY_PORT OXM_DL_NONE 0 false;
  OxmField OFI_OXM_OF_METADATA OXM_OF_METADATA OXM_DL_NONE 0 true;
  OxmField OFI_OXM_OF_METADATA_W OXM_OF_METADATA_W OXM_DL_NONE 0 true;
  OxmField OFI_OXM_OF_ETH_DST OXM_OF_ETH_DST OXM_DL_NONE 0 true;
  OxmField OFI_OXM_OF_ETH_DST_W OXM_OF_ETH_DST_W OXM_DL_NONE 0 true;
  OxmField OFI_OXM_OF_ETH_SRC OXM_OF_ETH_SRC OXM_DL_NONE 0 true;
  OxmField OFI_OXM_OF_ETH_SRC_W OXM_OF_ETH_SRC_W OXM_DL_NONE 0 true;
  OxmField OFI_OXM_OF_ETH_TYPE OXM_OF_ETH_TYPE OXM_DL_NONE 0 false;
  OxmField OFI_OXM_OF_VLAN_VID OXM_OF_VLAN_VID OXM_DL_NONE 0 true;
  OxmField OFI_OXM_OF_VLAN_VID_W OXM_OF_VLAN_VID_W OXM_DL_NONE 0 true;
  OxmField OFI_OXM_OF_VLAN_PCP OXM_OF_VLAN_PCP OXM_DL_NONE 0 false;
  OxmField OFI_OXM_OF_PBB_ISID OXM_OF_PBB_ISID OXM_DL_PBB 0 true;
  OxmField OFI_OXM_OF_PBB_ISID_W OXM_OF_PBB_ISID_W OXM_DL_PBB 0 true;
  OxmField OFI_OXM_OF_MPLS_LABEL OXM_OF_MPLS_LABEL OXM_DL_MPLS 0 false;
  OxmField OFI_OXM_OF_MPLS_TC OXM_OF_MPLS_TC OXM_DL_MPLS 0 false;
  OxmField OFI_OXM_OF_MPLS_BOS OXM_OF_MPLS_BOS OXM_DL_MPLS 0 false;
  OxmField OFI_OXM_OF_IP_DSCP OXM_OF_IP_DSCP OXM_DL_IP_ANY 0 false;
  OxmField OFI_OXM_OF_IP_ECN OXM_OF_IP_ECN OXM_DL_IP_ANY 0 false;
  OxmField OFI_OXM_OF_IPV4_SRC OXM_OF_IPV4_SRC OXM_DL_IP 0 true;
  OxmField OFI_OXM_OF_IPV4_SRC_W OXM_OF_IPV4_SRC_W OXM_DL_IP 0 true;
  OxmField OFI_OXM_OF_IPV4_DST OXM_OF_IPV4_DST OXM_DL_IP 0 true;
  OxmField OFI_OXM_OF_IPV4_DST_W OXM_OF_IPV4_DST_W OXM_DL_IP 0 true;
  OxmField OFI_OXM_OF_IPV6_SRC OXM_OF_IPV6_SRC OXM_DL_IPV6 0 true;
  OxmField OFI_OXM_OF_IPV6_SRC_W OXM_OF_IPV6_SRC_W OXM_DL_IPV6 0 true;
  OxmField OFI_OXM_OF_IPV6_DST OXM_OF_IPV6_DST OXM_DL_IPV6 0 true;
  OxmField OFI_OXM_OF_IPV6_DST_W OXM_OF_IPV6_DST_W OXM_DL_IPV6 0 true;
  OxmField OFI_OXM_OF_IPV6_FLABEL OXM_OF_IPV6_FLABEL OXM_DL_IPV6 0 true;
  OxmField OFI_OXM_OF_IPV6_FLABEL_W OXM_OF_IPV6_FLABEL_W OXM_DL_IPV6 0 true;
  OxmField OFI_OXM_OF_IPV6_EXTHDR OXM_OF_IPV6_EXTHDR OXM_DL_IPV6 0 true;
  OxmField OFI_OXM_OF_IPV6_EXTHDR_W OXM_OF_IPV6_EXTHDR_W OXM_DL_IPV6 0 true;
  OxmField OFI_OXM_OF_IP_PROTO OXM_OF_IP_PROTO OXM_DL_IP_ANY 0 false;
  OxmField OFI_OXM_OF_TCP_SRC OXM_OF_TCP_SRC OXM_DL_IP_ANY 6 false;
  OxmField OFI_OXM_OF_TCP_DST OXM_OF_TCP_DST OXM_DL_IP_ANY 6 false;
  OxmField OFI_OXM_OF_UDP_SRC OXM_OF_UDP_SRC OXM_DL_IP_ANY 17 false;
  OxmField OFI_OXM_OF_UDP_DST OXM_OF_UDP_DST OXM_DL_IP_ANY 17 false;
  OxmField OFI_OXM_OF_SCTP_SRC OXM_OF_SCTP_SRC OXM_DL_IP_ANY 132 false;
  OxmField OFI_OXM_OF_SCTP_DST OXM_OF_SCTP_DST OXM_DL_IP_ANY 132 false;
  OxmField OFI_OXM_OF_ARP_OP OXM_OF_ARP_OP OXM_DL_ARP 0 false;
  OxmField OFI_OXM_OF_ARP_SPA OXM_OF_ARP_SPA OXM_DL_ARP 0 true;
  OxmField OFI_OXM_OF_ARP_SPA_W OXM_OF_ARP_SPA_W OXM_DL_ARP 0 true;
  OxmField OFI_OXM_OF_ARP_TPA OXM_OF_ARP_TPA OXM_DL_ARP 0 true;
  OxmField OFI_OXM_OF_ARP_TPA_W OXM_OF_ARP_TPA_W OXM_DL_ARP 0 true;
  OxmField OFI_OXM_OF_ARP_SHA OXM_OF_ARP_SHA OXM_DL_ARP 0 true;
  OxmField OFI_OXM_OF_ARP_SHA_W OXM_OF_ARP_SHA_W OXM_DL_ARP 0 true;
  OxmField OFI_OXM_OF_ARP_THA OXM_OF_ARP_THA OXM_DL_ARP 0 true;
  OxmField OFI_OXM_OF_ARP_THA_W OXM_OF_ARP_THA_W OXM_DL_ARP 0 true;
  OxmField OFI_OXM_OF_ICMPV4_TYPE OXM_OF_ICMPV4_TYPE OXM_DL_IP 1 false;
  OxmField OFI_OXM_OF_ICMPV4_CODE OXM_OF_ICMPV4_CODE OXM_DL_IP 1 false;
  OxmField OFI_OXM_OF_ICMPV6_TYPE OXM_OF_ICMPV6_TYPE OXM_DL_IPV6 58 false;
  OxmField OFI_OXM_OF_ICMPV6_CODE OXM_OF_ICMPV6_CODE OXM_DL_IPV6 58 false;
  OxmField OFI_OXM_OF_IPV6_ND_TARGET OXM_OF_IPV6_ND_TARGET OXM_DL_IPV6 58 false;
  OxmField OFI_OXM_OF_IPV6_ND_SLL OXM_OF_IPV6_ND_SLL OXM_DL_IPV6 58 false;
  OxmField OFI_OXM_OF_IPV6_ND_TLL OXM_OF_IPV6_ND_TLL OXM_DL_IPV6 58 false;
  OxmField OFI_OXM_OF_TUNNEL_ID OXM_OF_TUNNEL_ID OXM_DL_NONE 0 true;
  OxmField OFI_OXM_OF_TUNNEL_ID_W OXM_OF_TUNNEL_ID_W OXM_DL_NONE 0 true;
  OxmField OFI_OXM_OF_EHDDP_FLAGS OXM_OF_EHDDP_FLAGS OXM_DL_EHDDP 0 false;
  OxmField OFI_OXM_OF_EHDDP_OPCODE OXM_OF_EHDDP_OPCODE OXM_DL_EHDDP 0 false;
  OxmField OFI_OXM_OF_EHDDP_NUM_DEVICE OXM_OF_EHDDP_NUM_DEVICE OXM_DL_EHDDP 0 false;
  OxmField OFI_OXM_OF_EHDDP_NUM_SEC OXM_OF_EHDDP_NUM_SEC OXM_DL_EHDDP 0 false;
  OxmField OFI_OXM_OF_EHDDP_PRE_MAC_SIZ OXM_OF_EHDDP_PRE_MAC_SIZ OXM_DL_EHDDP 0 false;
  OxmField OFI_OXM_OF_EHDDP_PRE_MAC OXM_OF_EHDDP_PRE_MAC OXM_DL_EHDDP 0 false;
  OxmField OFI_OXM_OF_EHDDP_NUM_ACK OXM_OF_EHDDP_NUM_ACK OXM_DL_EHDDP 0 false;
  OxmField OFI_OXM_OF_EHDDP_SRC_MAC OXM_OF_EHDDP_SRC_MAC OXM_DL_EHDDP 0 false;
  OxmField OFI_OXM_OF_EHDDP_LAS_MAC OXM_OF_EHDDP_LAS_MAC OXM_DL_EHDDP 0 false;
  OxmField OFI_OXM_OF_EHDDP_TIM_BLO OXM_OF_EHDDP_TIM_BLO OXM_DL_EHDDP 0 false;
  OxmField OFI_OXM_OF_EHDDP_CONFIG OXM_OF_EHDDP_CONFIG OXM_DL_EHDDP 0 false;
  OxmField OFI_OXM_OF_EHDDP_TYPE_DEVICE OXM_OF_EHDDP_TYPE_DEVICE OXM_DL_EHDDP 0 false;
  OxmField OFI_OXM_OF_EHDDP_IDS OXM_OF_EHDDP_IDS OXM_DL_EHDDP 0 false;
  OxmField OFI_OXM_OF_EHDDP_IN_PORTS OXM_OF_EHDDP_IN_PORTS OXM_DL_EHDDP 0 false;
  OxmField OFI_OXM_OF_EHDDP_OUT_PORTS OXM_OF_EHDDP_OUT_PORTS OXM_DL_EHDDP 0 false
].

(** * Matches *)

(** [struct ofl_match_tlv]. *)
Record ofl_match_tlv := TLV { header : Z; value : list Z }.

#[global] Instance tlv_eq_dec : EqDecision ofl_match_tlv.
Proof. solve_decision. Defined.

(** [struct ofl_match]: the length of its header and its fields. *)
Record ofl_match := Match { mlength : Z; match_fields : hmap ofl_match_tlv }.

Definition ofl_structs_match_init : ofl_match := Match 0 hmap_init.

(** What every [ofl_structs_match_put*] does: a new TLV with [bytes] as its value
    goes into the map and the length grows by [len + 4]. *)
Definition match_put (m : ofl_match) (h : Z) (bytes : list Z) (len : Z) : ofl_match :=
  Match (u16 (mlength m + (len + 4))) (hmap_insert (match_fields m) (TLV h bytes) (hash_int h 0)).

Definition ofl_structs_match_put8 m h v := match_put m h (le_store 1 v) 1.
Definition ofl_structs_match_put8m m h v k := match_put m h (le_store 1 v ++ le_store 1 k) 2.
Definition ofl_structs_match_put16 m h v := match_put m h (le_store 2 v) 2.
Definition ofl_structs_match_put16m m h v k := match_put m h (le_store 2 v ++ le_store 2 k) 4.
Definition ofl_structs_match_put32 m h v := match_put m h (le_store 4 v) 4.
Definition ofl_structs_match_put32m m h v k := match_put m h (le_store 4 v ++ le_store 4 k) 8.
Definition ofl_structs_match_put64 m h v := match_put m h (le_store 8 v) 8.
Definition ofl_structs_match_put64m m h v k := match_put m h (le_store 8 v ++ le_store 8 k) 16.

(** The two PBB functions take the length from the header, which is already
    doubled in a masked header. *)
Definition ofl_structs_match_put_pbb_isid (m : ofl_match) (h : Z) (v : list Z) :=
  match_put m h (take (Z.to_nat (OXM_LENGTH h)) v) (OXM_LENGTH h).
Definition ofl_structs_match_put_pbb_isidm (m : ofl_match) (h : Z) (v k : list Z) :=
  match_put m h (take (Z.to_nat (OXM_LENGTH h)) v ++ take (Z.to_nat (OXM_LENGTH h)) k)
    (OXM_LENGTH h * 2).

Definition ofl_structs_match_put_eth m h (v : list Z) := match_put m h (take 6 v) 6.
Definition ofl_structs_match_put_eth_m m h (v k : list Z) := match_put m h (take 6 v ++ take 6 k) 12.
Definition ofl_structs_match_put_ipv6 m h (v : list Z) := match_put m h (take 16 v) 16.
Definition ofl_structs_match_put_ipv6m m h (v k : list Z) := match_put m h (take 16 v ++ take 16 k) 32.

Definition ofl_structs_match_put_64_as_a_mac m h (v : Z) :=
  match_put m h (take 6 (le_store 8 (u64 (Z.shiftl v 16)))) 6.

Definition ntoh642 (v : Z) : Z := u64 (u64 (Z.shiftl (htonl (u32 v)) 32) + htonl (u32 (Z.shiftr v 32))).

(** The two eHDDP arrays of [EHDDP_MAX_ELEMENTS] = 31 elements. *)
Definition EHDDP_MAX_ELEMENTS : nat := 31.
Definition ofl_structs_match_put_macs m h (v : list Z) :=
  match_put m h (flat_map (fun x => le_store 8 (ntoh642 x)) (take EHDDP_MAX_ELEMENTS v)) 248.
Definition ofl_structs_match_put_port m h (v : list Z) :=
  match_put m h (flat_map (fun x => le_store 4 (htonl x)) (take EHDDP_MAX_ELEMENTS v)) 124.

#[global] Instance oxm_field_index_eq_dec : EqDecision oxm_field_index.
Proof. solve_decision. Defined.

#[global] Instance oxm_field_eq_dec : EqDecision oxm_field.
Proof. solve_decision. Defined.

(** * Searches *)

(** The TLVs [HMAP_FOR_EACH_WITH_HASH] visits for a header. *)
Definition tlvs_with_hash (m : ofl_match) (h : Z) : list ofl_match_tlv :=
  val <$> hmap_for_each_with_hash (match_fields m) (hash_int h 0).

Definition oxm_match_lookup (h : Z) (omt : ofl_match) : option ofl_match_tlv :=
  List.find (fun f => header f =? h) (tlvs_with_hash omt h).

Definition check_present_prereq (m : ofl_match) (h : Z) : bool :=
  match tlvs_with_hash m h with [] => false | _ :: _ => true end.

Definition check_oxm_dup (m : ofl_match) (om : oxm_field) : bool :=
  match tlvs_with_hash m (f_header om) with [] => false | _ :: _ => true end.

Definition get_oxm_value (m : ofl_match) (h : Z) : option (list Z) :=
  match tlvs_with_hash m h with [] => None | t :: _ => Some (value t) end.

(** [oxm_init]: the map of the known fields. *)
Definition oxm_init : hmap oxm_field :=
  fold_left (fun hm f => hmap_insert hm f (hash_int (f_header f) 0)) all_fields hmap_init.

Definition oxm_field_lookup (h : Z) : option oxm_field :=
  List.find (fun f => f_header f =? h)
    (val <$> hmap_for_each_with_hash oxm_init (hash_int h 0)).

(** * Prerequisites *)

Definition ICMPV6_NEIGHSOL : Z := 135.
Definition ICMPV6_NEIGHADV : Z := 136.

Definition byte0 (bs : list Z) : Z := nth 0 bs 0.

(** The loops of [oxm_prereqs_ok] over the TLVs of one header: [None] when one of
    them fails the test, and otherwise whether there was any. *)
Fixpoint prereq_loop (test : list Z -> bool) (ts : list ofl_match_tlv) (found : bool) : option bool :=
  match ts with
  | [] => Some found
  | t :: ts => if test (value t) then prereq_loop test ts true else None
  end.

Definition prereq_ok (r : option bool) : bool := match r with Some true => true | _ => false end.

Definition oxm_prereqs_ok (field : oxm_field) (rule : ofl_match) : bool :=
  let icmp := tlvs_with_hash rule OXM_OF_ICMPV6_TYPE in
  let is_sll := f_header field =? OXM_OF_IPV6_ND_SLL in
  let is_tll := f_header field =? OXM_OF_IPV6_ND_TLL in
  let is_target := f_header field =? OXM_OF_IPV6_ND_TARGET in
  (* a neighbour solicitation for SLL and TARGET *)
  let first := is_sll || is_target in
  let ok1 := if first then prereq_ok (prereq_loop (fun v => byte0 v =? ICMPV6_NEIGHSOL) icmp false)
             else true in
  if negb ok1 then false else
  (* an advertisement for TLL and TARGET, unless the first test already found one *)
  let ok2 := if (is_tll || is_target) && negb first
             then prereq_ok (prereq_loop (fun v => byte0 v =? ICMPV6_NEIGHADV) icmp false)
             else true in
  if negb ok2 then false else
  let ok3 := if negb (nw_proto field =? 0)
             then prereq_ok (prereq_loop (fun v => nw_proto field =? byte0 v)
                               (tlvs_with_hash rule OXM_OF_IP_PROTO) false)
             else true in
  if negb ok3 then false else
  if fst (dl_type field) =? 0 then true
  else existsb (fun t => let eth_type := le_load (take 2 (value t)) in
                 (fst (dl_type field) =? htons eth_type) ||
                 (negb (snd (dl_type field) =? 0) && (snd (dl_type field) =? htons eth_type)))
         (tlvs_with_hash rule OXM_OF_ETH_TYPE).

(** * Decoding *)

Definition OFPET_BAD_MATCH : Z := 4.
Definition OFPBRC_BAD_LEN : Z := 6.
Definition OFPBMC_BAD_LEN : Z := 1.
Definition OFPBMC_BAD_WILDCARDS : Z := 5.
Definition OFPBMC_BAD_FIELD : Z := 6.
Definition OFPBMC_BAD_VALUE : Z := 7.
Definition OFPBMC_BAD_MASK : Z := 8.
Definition OFPBMC_BAD_PREREQ : Z := 9.
Definition OFPBMC_DUP_FIELD : Z := 10.
Definition OFPVID_NONE : Z := 0.
Definition OFPVID_PRESENT : Z := 0x1000.
Definition VLAN_VID_MAX : Z := 4095.

Definition ofp_mkerr (type code : Z) : Z := Z.lor (Z.shiftl type 16) code.

(** [check_bad_wildcard] and its variants at 16, 32 and 64 bits: a value bit
    outside the mask. *)
Definition check_bad_wildcard (value mask : Z) : bool := negb (value =? Z.land value mask).
Definition check_bad_wildcard48 (value mask : list Z) : bool :=
  check_bad_wildcard (le_load (slice 0 2 value)) (le_load (slice 0 2 mask)) ||
  check_bad_wildcard (le_load (slice 2 4 value)) (le_load (slice 2 4 mask)).
Definition check_bad_wildcard128 (value mask : list Z) : bool :=
  check_bad_wildcard (le_load (slice 0 8 value)) (le_load (slice 0 8 mask)) ||
  check_bad_wildcard (le_load (slice 8 8 value)) (le_load (slice 8 8 mask)).

Definition rd16 (p : list Z) : Z := le_load (take 2 p).
Definition rd32 (p : list Z) : Z := le_load (take 4 p).
Definition rd64 (p : list Z) : Z := le_load (take 8 p).

Definition bad_match (code : Z) : Z := ofp_mkerr OFPET_BAD_MATCH code.

(** [parse_oxm_entry]: [p] and [k] are the bytes of the message from the value and
    from the mask of the entry on; [mask_addr] is the address of the mask, which
    the case of a masked PBB_ISID copies in place of the mask's bytes.  The result
    is the match and the error, 0 when there is none. *)
Definition parse_oxm_entry (m : ofl_match) (f : oxm_field) (p k : list Z) (mask_addr : Z)
  : ofl_match * Z :=
  let h := f_header f in
  match index f with
  | OFI_OXM_OF_IN_PORT => (ofl_structs_match_put32 m h (ntohl (rd32 p)), 0)
  | OFI_OXM_OF_IN_PHY_PORT =>
      if check_present_prereq m OXM_OF_IN_PORT then
        (* no break: the case of METADATA follows *)
        let m := ofl_structs_match_put32 m h (ntohl (rd32 p)) in
        (ofl_structs_match_put64 m h (ntoh64 (rd64 p)), 0)
      else (m, bad_match OFPBMC_BAD_PREREQ)
  | OFI_OXM_OF_METADATA => (ofl_structs_match_put64 m h (ntoh64 (rd64 p)), 0)
  | OFI_OXM_OF_METADATA_W =>
      if check_bad_wildcard (ntoh64 (rd64 p)) (ntoh64 (rd64 k))
      then (m, bad_match OFPBMC_BAD_WILDCARDS)
      else (ofl_structs_match_put64m m h (ntoh64 (rd64 p)) (ntoh64 (rd64 k)), 0)
  | OFI_OXM_OF_ETH_DST | OFI_OXM_OF_ETH_SRC => (ofl_structs_match_put_eth m h p, 0)
  | OFI_OXM_OF_ETH_DST_W | OFI_OXM_OF_ETH_SRC_W =>
      if check_bad_wildcard48 p k then (m, bad_match OFPBMC_BAD_WILDCARDS)
      else (ofl_structs_match_put_eth_m m h p k, 0)
  | OFI_OXM_OF_ETH_TYPE => (ofl_structs_match_put16 m h (ntohs (rd16 p)), 0)
  | OFI_OXM_OF_VLAN_VID =>
      if OFPVID_PRESENT + VLAN_VID_MAX <? ntohs (rd16 p) then (m, bad_match OFPBMC_BAD_VALUE)
      else (ofl_structs_match_put16 m h (ntohs (rd16 p)), 0)
  | OFI_OXM_OF_VLAN_VID_W =>
      if check_bad_wildcard (ntohs (rd16 p)) (ntohs (rd16 k))
      then (m, bad_match OFPBMC_BAD_WILDCARDS)
      else if OFPVID_PRESENT + VLAN_VID_MAX <? ntohs (rd16 p) then (m, bad_match OFPBMC_BAD_VALUE)
      else (ofl_structs_match_put16m m h (ntohs (rd16 p)) (ntohs (rd16 k)), 0)
  | OFI_OXM_OF_VLAN_PCP =>
      if check_present_prereq m OXM_OF_VLAN_VID then
        match get_oxm_value m OXM_OF_VLAN_VID with
        | Some v => if negb (rd16 v =? OFPVID_NONE)
                    then (ofl_structs_match_put8 m h (byte0 p), 0) else (m, 0)
        | None => (m, 0)
        end
      else (m, bad_match OFPBMC_BAD_PREREQ)
  | OFI_OXM_OF_IP_DSCP =>
      if negb (Z.land (byte0 p) 0xc0 =? 0) then (m, bad_match OFPBMC_BAD_VALUE)
      else (ofl_structs_match_put8 m h (byte0 p), 0)
  | OFI_OXM_OF_IP_ECN | OFI_OXM_OF_IP_PROTO => (ofl_structs_match_put8 m h (byte0 p), 0)
  | OFI_OXM_OF_IPV4_SRC | OFI_OXM_OF_IPV4_DST | OFI_OXM_OF_ARP_TPA | OFI_OXM_OF_ARP_SPA =>
      (ofl_structs_match_put32 m h (rd32 p), 0)
  | OFI_OXM_OF_IPV4_DST_W | OFI_OXM_OF_IPV4_SRC_W | OFI_OXM_OF_ARP_SPA_W | OFI_OXM_OF_ARP_TPA_W =>
      if check_bad_wildcard (rd32 p) (rd32 k) then (m, bad_match OFPBMC_BAD_WILDCARDS)
      else (ofl_structs_match_put32m m h (rd32 p) (rd32 k), 0)
  | OFI_OXM_OF_ARP_SHA | OFI_OXM_OF_ARP_THA => (ofl_structs_match_put_eth m h p, 0)
  | OFI_OXM_OF_ARP_SHA_W | OFI_OXM_OF_ARP_THA_W =>
      if check_bad_wildcard48 p k then (m, bad_match OFPBMC_BAD_WILDCARDS)
      else (ofl_structs_match_put_eth_m m h p k, 0)
  | OFI_OXM_OF_IPV6_SRC | OFI_OXM_OF_IPV6_DST => (ofl_structs_match_put_ipv6 m h p, 0)
  | OFI_OXM_OF_IPV6_SRC_W | OFI_OXM_OF_IPV6_DST_W =>
      if check_bad_wildcard128 p k then (m, bad_match OFPBMC_BAD_WILDCARDS)
      else (ofl_structs_match_put_ipv6m m h p k, 0)
  | OFI_OXM_OF_IPV6_FLABEL => (ofl_structs_match_put32 m h (ntohl (rd32 p)), 0)
  | OFI_OXM_OF_IPV6_FLABEL_W =>
      if check_bad_wildcard (rd32 p) (rd32 k) then (m, bad_match OFPBMC_BAD_WILDCARDS)
      else (ofl_structs_match_put32m m h (ntohl (rd32 p)) (ntohl (rd32 k)), 0)
  | OFI_OXM_OF_TCP_SRC | OFI_OXM_OF_TCP_DST | OFI_OXM_OF_UDP_SRC | OFI_OXM_OF_UDP_DST
  | OFI_OXM_OF_SCTP_SRC | OFI_OXM_OF_SCTP_DST => (ofl_structs_match_put16 m h (ntohs (rd16 p)), 0)
  | OFI_OXM_OF_ICMPV4_TYPE | OFI_OXM_OF_ICMPV4_CODE | OFI_OXM_OF_ICMPV6_TYPE
  | OFI_OXM_OF_ICMPV6_CODE => (ofl_structs_match_put8 m h (byte0 p), 0)
  | OFI_OXM_OF_IPV6_ND_TARGET => (ofl_structs_match_put_ipv6 m h p, 0)
  | OFI_OXM_OF_IPV6_ND_SLL | OFI_OXM_OF_IPV6_ND_TLL => (ofl_structs_match_put_eth m h p, 0)
  | OFI_OXM_OF_ARP_OP => (ofl_structs_match_put16 m h (ntohs (rd16 p)), 0)
  | OFI_OXM_OF_MPLS_LABEL => (ofl_structs_match_put32 m h (ntohl (rd32 p)), 0)
  | OFI_OXM_OF_MPLS_TC | OFI_OXM_OF_MPLS_BOS => (ofl_structs_match_put8 m h (byte0 p), 0)
  | OFI_OXM_OF_PBB_ISID => (ofl_structs_match_put_pbb_isid m h p, 0)
  | OFI_OXM_OF_PBB_ISID_W =>
      if check_bad_wildcard (rd32 p) (rd32 k) then (m, bad_match OFPBMC_BAD_WILDCARDS)
      else (ofl_structs_match_put_pbb_isidm m h p (le_store 8 mask_addr), 0)
  | OFI_OXM_OF_TUNNEL_ID => (ofl_structs_match_put64 m h (ntoh64 (rd64 p)), 0)
  | OFI_OXM_OF_TUNNEL_ID_W =>
      if check_bad_wildcard (rd64 p) (rd64 k) then (m, bad_match OFPBMC_BAD_WILDCARDS)
      else (ofl_structs_match_put64m m h (ntoh64 (rd64 p)) (ntoh64 (rd64 k)), 0)
  | OFI_OXM_OF_IPV6_EXTHDR => (ofl_structs_match_put16 m h (ntohs (rd16 p)), 0)
  | OFI_OXM_OF_IPV6_EXTHDR_W =>
      (ofl_structs_match_put16m m h (ntohs (rd16 p)) (ntohs (rd16 k)), 0)
  (* the eHDDP fields are accepted and ignored *)
  | OFI_OXM_OF_EHDDP_FLAGS | OFI_OXM_OF_EHDDP_OPCODE | OFI_OXM_OF_EHDDP_NUM_DEVICE
  | OFI_OXM_OF_EHDDP_PRE_MAC_SIZ | OFI_OXM_OF_EHDDP_CONFIG | OFI_OXM_OF_EHDDP_TYPE_DEVICE
  | OFI_OXM_OF_EHDDP_PRE_MAC | OFI_OXM_OF_EHDDP_LAS_MAC | OFI_OXM_OF_EHDDP_SRC_MAC
  | OFI_OXM_OF_EHDDP_NUM_SEC | OFI_OXM_OF_EHDDP_NUM_ACK | OFI_OXM_OF_EHDDP_IDS
  | OFI_OXM_OF_EHDDP_TIM_BLO | OFI_OXM_OF_EHDDP_IN_PORTS | OFI_OXM_OF_EHDDP_OUT_PORTS => (m, 0)
  end.

(** [oxm_entry_ok]: the header of the entry at [p], 0 when there is no whole
    entry in the [match_len] bytes left. *)
Definition oxm_entry_ok (p : list Z) (match_len : Z) : Z :=
  if match_len <=? 4 then 0
  else
    let h := ntohl (rd32 p) in
    let payload_len := OXM_LENGTH h in
    if payload_len =? 0 then 0
    else if match_len <? payload_len + 4 then 0
    else h.

(** The body of the loop of [oxm_pull_match]: what the entry at [p] adds to the
    match, or its error. *)
Definition pull_entry (m : ofl_match) (p : list Z) (h addr : Z) : ofl_match * Z :=
  let length := OXM_LENGTH h in
  match oxm_field_lookup h with
  | None => (m, bad_match OFPBMC_BAD_FIELD)
  | Some f =>
      if OXM_HASMASK h && negb (maskable f) then (m, bad_match OFPBMC_BAD_MASK)
      else if negb (oxm_prereqs_ok f m) then (m, bad_match OFPBMC_BAD_PREREQ)
      else if check_oxm_dup m f then (m, bad_match OFPBMC_DUP_FIELD)
      else parse_oxm_entry m f (drop 4 p) (drop (4 + Z.to_nat (length / 2)) p)
             (addr + 4 + length / 2)
  end.

(** The loop; every entry takes at least five bytes, so [match_len] is fuel
    enough.  [addr] is the address of [p]. *)
Fixpoint pull_loop (fuel : nat) (m : ofl_match) (p : list Z) (match_len addr : Z)
  : ofl_match * Z :=
  match fuel with
  | O => (m, if match_len =? 0 then 0 else bad_match OFPBMC_BAD_LEN)
  | S fuel =>
      let h := oxm_entry_ok p match_len in
      if h =? 0 then (m, if match_len =? 0 then 0 else bad_match OFPBMC_BAD_LEN)
      else
        let '(m, error) := pull_entry m p h addr in
        if negb (error =? 0) then (m, error)
        else let n := 4 + OXM_LENGTH h in
             pull_loop fuel m (drop (Z.to_nat n) p) (match_len - n) (addr + n)
  end.

(** [oxm_pull_match] on a buffer that holds [buf], at address [addr]. *)
Definition oxm_pull_match (buf : list Z) (match_len addr : Z) : ofl_match * Z :=
  if Z.of_nat (length buf) <? match_len then (ofl_structs_match_init, bad_match OFPBRC_BAD_LEN)
  else pull_loop (Z.to_nat match_len) ofl_structs_match_init buf match_len addr.

(** * Encoding

    The [oxm_put_*] functions append to the buffer; here they give the bytes they
    append. *)

Definition oxm_put_header (h : Z) : list Z := le_store 4 (htonl h).
Definition oxm_put_8 (h v : Z) : list Z := oxm_put_header h ++ le_store 1 v.
(** The mask of a masked 8-bit field is declared [uint16_t] and takes two bytes. *)
Definition oxm_put_8w (h v k : Z) : list Z := oxm_put_header h ++ le_store 1 v ++ le_store 2 k.
Definition oxm_put_16 (h v : Z) : list Z := oxm_put_header h ++ le_store 2 v.
Definition oxm_put_16w (h v k : Z) : list Z := oxm_put_header h ++ le_store 2 v ++ le_store 2 k.
Definition oxm_put_32 (h v : Z) : list Z := oxm_put_header h ++ le_store 4 v.
Definition oxm_put_32w (h v k : Z) : list Z := oxm_put_header h ++ le_store 4 v ++ le_store 4 k.
Definition oxm_put_64 (h v : Z) : list Z := oxm_put_header h ++ le_store 8 v.
Definition oxm_put_64w (h v k : Z) : list Z := oxm_put_header h ++ le_store 8 v ++ le_store 8 k.
Definition oxm_put_pbb (h : Z) (v : list Z) : list Z := oxm_put_header h ++ take 3 v.
Definition oxm_put_pbbm (h : Z) (v k : list Z) : list Z := oxm_put_header h ++ take 3 v ++ take 3 k.
Definition oxm_put_eth (h : Z) (v : list Z) : list Z := oxm_put_header h ++ take 6 v.
Definition oxm_put_ethm (h : Z) (v k : list Z) : list Z := oxm_put_header h ++ take 6 v ++ take 6 k.
Definition oxm_put_ipv6 (h : Z) (v : list Z) : list Z := oxm_put_header h ++ take 16 v.
Definition oxm_put_ipv6m (h : Z) (v k : list Z) : list Z := oxm_put_header h ++ take 16 v ++ take 16 k.

Definition is_requisite (h : Z) : bool :=
  (h =? OXM_OF_IN_PORT) || (h =? OXM_OF_ETH_TYPE) || (h =? OXM_OF_VLAN_VID) ||
  (h =? OXM_OF_IP_PROTO) || (h =? OXM_OF_ICMPV6_TYPE).

(** The cases of the second loop of [oxm_put_match]. *)
Definition put_value (t : ofl_match_tlv) : list Z :=
  let h := header t in
  let v := value t in
  let has_mask := OXM_HASMASK h in
  let len := if has_mask then OXM_LENGTH h / 2 else OXM_LENGTH h in
  let k := drop (Z.to_nat len) v in
  if len =? 1 then
    if has_mask then oxm_put_8w h (byte0 v) (byte0 k) else oxm_put_8 h (byte0 v)
  else if len =? 2 then
    if has_mask then oxm_put_16w h (htons (rd16 v)) (htons (rd16 k)) else oxm_put_16 h (htons (rd16 v))
  else if len =? 3 then
    if has_mask then oxm_put_pbbm h v k else oxm_put_pbb h v
  else if len =? 4 then
    if has_mask then
      if (h =? OXM_OF_IPV4_DST_W) || (h =? OXM_OF_IPV4_SRC_W) ||
         (h =? OXM_OF_ARP_SPA_W) || (h =? OXM_OF_ARP_TPA_W)
      then oxm_put_32w h (rd32 v) (rd32 k)
      else oxm_put_32w h (htonl (rd32 v)) (htonl (rd32 k))
    else
      if (h =? OXM_OF_IPV4_DST) || (h =? OXM_OF_IPV4_SRC) ||
         (h =? OXM_OF_ARP_SPA) || (h =? OXM_OF_ARP_TPA)
      then oxm_put_32 h (rd32 v)
      else oxm_put_32 h (htonl (rd32 v))
  else if len =? 8 then
    if has_mask then oxm_put_64w h (hton64 (rd64 v)) (hton64 (rd64 k)) else oxm_put_64 h (hton64 (rd64 v))
  else if len =? 6 then
    if has_mask then oxm_put_ethm h v k else oxm_put_eth h v
  else if len =? 16 then
    if has_mask then oxm_put_ipv6m h v k else oxm_put_ipv6 h v
  else [].

(** The body of the loop, which leaves out the requisites. *)
Definition put_field (t : ofl_match_tlv) : list Z := if is_requisite (header t) then [] else put_value t.

(** [ROUND_UP] of lib/util.h on C integers (division truncates). *)
Definition ROUND_UP (X Y : Z) : Z := Z.quot (X + (Y - 1)) Y * Y.

(** [ofl_structs_oxm_match_unpack]: [src_length] is the length field of the
    message's match, [buf] the bytes after its four-byte header, [len] what is left
    of the message. The header of the result gets the length on the wire. *)
Definition ofl_structs_oxm_match_unpack (src_length : Z) (buf : list Z) (len addr : Z)
    : ofl_match * Z * Z :=
  let len' := u64 (len - ROUND_UP src_length 8) in
  if 8 <? src_length then
    let '(m, error) := oxm_pull_match (take (Z.to_nat (src_length - 4)) buf) (src_length - 4) addr in
    (Match (u16 (src_length - 4)) (match_fields m), len', error)
  else (ofl_structs_match_init, len', 0).

(** The bytes [oxm_put_match] appends and the length it returns. *)
Definition oxm_put_match (omt : ofl_match) : list Z * Z :=
  let body :=
    flat_map (fun t => oxm_put_32 (header t) (htonl (rd32 (value t)))) (tlvs_with_hash omt OXM_OF_IN_PORT) ++
    flat_map (fun t => oxm_put_16 (header t) (htons (rd16 (value t)))) (tlvs_with_hash omt OXM_OF_ETH_TYPE) ++
    flat_map (fun t => oxm_put_16 (header t) (htons (rd16 (value t)))) (tlvs_with_hash omt OXM_OF_VLAN_VID) ++
    flat_map (fun t => oxm_put_8 (header t) (byte0 (value t))) (tlvs_with_hash omt OXM_OF_IP_PROTO) ++
    flat_map (fun t => oxm_put_8 (header t) (byte0 (value t))) (tlvs_with_hash omt OXM_OF_ICMPV6_TYPE) ++
    flat_map put_field (hmap_elems (match_fields omt)) in
  let match_len := Z.of_nat (length body) in
  let pad := ROUND_UP (match_len - 4) 8 - (match_len - 4) in
  (body ++ replicate (Z.to_nat pad) 0, match_len).

(** * Well-formed matches *)

(** The TLVs of a match, in the order of iteration. *)
Definition tlvs (m : ofl_match) : list ofl_match_tlv := val <$> nodes (match_fields m).

(** Every TLV is hashed by its 32-bit header. *)
Definition m_wf (m : ofl_match) : Prop :=
  hmap_wf (match_fields m) /\
  Forall (fun nd => hash nd = hash_int (header (val nd)) 0 /\ in_range 32 (header (val nd)))
    (nodes (match_fields m)).

Lemma hash_int_nonneg h b : 0 <= hash_int h b.
Proof. apply hash_int_range. Qed.

Lemma match_init_wf : m_wf ofl_structs_match_init /\ tlvs ofl_structs_match_init = [].
Proof. split; [split; [apply hmap_init_wf | constructor] | done]. Qed.

Lemma tlvs_with_hash_filter m h :
  m_wf m -> in_range 32 h -> tlvs_with_hash m h = filter (fun t => header t = h) (tlvs m).
Proof.
  intros [Hwf Hh] Hr. unfold tlvs_with_hash, tlvs.
  rewrite for_each_with_hash_filter by (done || apply hash_int_nonneg).
  induction (nodes (match_fields m)) as [| nd l IH]; [done |].
  inversion Hh as [| ? ? [Hnd Hrn] Hl]; subst. rewrite fmap_cons, !filter_cons, Hnd.
  destruct (decide (header (val nd) = h)) as [-> | Hne].
  - rewrite !decide_True by done. by rewrite fmap_cons, IH.
  - rewrite decide_False; [by rewrite IH |].
    intros He. by apply Hne, (hash_int_inj 0).
Qed.

(** The search is the first TLV with the header; the searches that only test the
    hash tell whether there is one. *)
Lemma find_filter_head {A} (f : A -> bool) (P : A -> Prop) `{!forall x, Decision (P x)} l :
  (forall x, f x = true <-> P x) -> List.find f (filter P l) = head (filter P l).
Proof.
  intros Hf. destruct (filter P l) as [| x r] eqn:Hl; [done |]. simpl.
  assert (x ∈ filter P l) as [Hx _]%list_elem_of_filter by (rewrite Hl; by left).
  apply Hf in Hx. by rewrite Hx.
Qed.

Lemma oxm_match_lookup_head m h :
  m_wf m -> in_range 32 h ->
  oxm_match_lookup h m = head (filter (fun t => header t = h) (tlvs m)).
Proof.
  intros Hwf Hr. unfold oxm_match_lookup. rewrite tlvs_with_hash_filter by done.
  apply find_filter_head. intros t. apply Z.eqb_eq.
Qed.

Lemma oxm_match_lookup_Some m h t :
  m_wf m -> in_range 32 h -> oxm_match_lookup h m = Some t -> t ∈ tlvs m /\ header t = h.
Proof.
  intros Hwf Hr. rewrite oxm_match_lookup_head by done. intros Hh.
  destruct (filter _ (tlvs m)) eqn:Hf; simplify_eq/=.
  assert (t ∈ filter (fun t => header t = h) (tlvs m)) as [? ?]%list_elem_of_filter
    by (rewrite Hf; by left). done.
Qed.

Lemma oxm_match_lookup_unique m h t :
  m_wf m -> in_range 32 h -> NoDup (header <$> tlvs m) ->
  t ∈ tlvs m -> header t = h -> oxm_match_lookup h m = Some t.
Proof.
  intros Hwf Hr Hnd Hin Hh. rewrite oxm_match_lookup_head by done.
  assert (t ∈ filter (fun t => header t = h) (tlvs m)) as Hf by (by apply list_elem_of_filter).
  destruct (filter _ (tlvs m)) as [| t' r] eqn:Hfl; [by apply elem_of_nil in Hf |]. simpl. f_equal.
  assert (t' ∈ filter (fun t => header t = h) (tlvs m)) as [Hh' Hin']%list_elem_of_filter
    by (rewrite Hfl; by left).
  apply list_elem_of_lookup in Hin as [i Hi], Hin' as [j Hj].
  assert (i = j) as <-.
  { apply (NoDup_lookup _ _ _ h Hnd); rewrite list_lookup_fmap;
      [rewrite Hi | rewrite Hj]; simpl; congruence. }
  congruence.
Qed.

Lemma match_put_wf m h bs len :
  m_wf m -> in_range 32 h -> n (match_fields m) + 1 < 2 ^ 64 ->
  m_wf (match_put m h bs len) /\ tlvs (match_put m h bs len) ≡ₚ TLV h bs :: tlvs m /\
  n (match_fields (match_put m h bs len)) = n (match_fields m) + 1.
Proof.
  intros [Hwf Hh] Hr Hn.
  destruct (hmap_insert_wf (match_fields m) (TLV h bs) (hash_int h 0) Hwf) as [Hwf' Hp];
    [apply hash_int_nonneg | done |].
  split_and!.
  - split; [done |]. simpl. rewrite Hp. constructor; [done | done].
  - unfold tlvs. simpl. by rewrite Hp.
  - simpl. by rewrite (count_perm _ _ _ Hwf Hwf' Hp).
Qed.

(** ** The table of fields *)

(** The header tells the field: the lookup of the header of a known field finds
    that field. *)
Lemma all_fields_lookup : Forall (fun f => oxm_field_lookup (f_header f) = Some f) all_fields.
Proof.
  assert (forallb (fun f => bool_decide (oxm_field_lookup (f_header f) = Some f)) all_fields = true)
    as H by (vm_compute; reflexivity).
  apply Forall_forall. intros f Hf. rewrite forallb_forall in H.
  apply list_elem_of_In, H in Hf. by apply bool_decide_eq_true in Hf.
Qed.

Lemma insert_fields_wf l hm :
  hmap_wf hm -> n hm + length l < 2 ^ 64 ->
  hmap_wf (fold_left (fun hm f => hmap_insert hm f (hash_int (f_header f) 0)) l hm).
Proof.
  revert hm. induction l as [| x l IH]; intros hm Hwf Hn; [done |]. cbn [length fold_left] in *.
  destruct (hmap_insert_wf hm x (hash_int (f_header x) 0) Hwf) as [Hwf' Hp];
    [apply hash_int_nonneg | lia |].
  apply IH; [done |]. rewrite (count_perm _ _ _ Hwf Hwf' Hp). lia.
Qed.

Lemma oxm_init_wf : hmap_wf oxm_init.
Proof. apply insert_fields_wf; [apply hmap_init_wf | done]. Qed.

Definition listed (f : oxm_field) : bool := bool_decide (f ∈ all_fields).

Lemma oxm_field_lookup_known h f :
  oxm_field_lookup h = Some f -> f ∈ all_fields /\ f_header f = h.
Proof.
  unfold oxm_field_lookup. intros [Hin Hh]%List.find_some. split; [| by apply Z.eqb_eq].
  apply list_elem_of_In in Hin.
  apply list_elem_of_fmap in Hin as (nd & -> & Hnd).
  apply (for_each_with_hash_all oxm_init _ (fun nd => listed (val nd))) in Hnd;
    [by apply bool_decide_eq_true in Hnd | exact oxm_init_wf | apply hash_int_nonneg |
     vm_compute; reflexivity].
Qed.

(** ** What the decoder adds *)

(** The value of a TLV has the length its header says, but for the second TLV
    the case of IN_PHY_PORT adds and for masked PBB_ISIDs. *)
Definition tlv_size_ok (h : Z) (bs : list Z) : Prop :=
  bytes_ok bs /\
  (Z.of_nat (length bs) = OXM_LENGTH h \/
   (h = OXM_OF_IN_PHY_PORT /\ length bs = 8%nat) \/
   (h = OXM_OF_PBB_ISID_W /\ length bs = 12%nat)).

Definition put_all (m : ofl_match) (h : Z) (added : list (list Z * Z)) : ofl_match :=
  fold_left (fun m b => match_put m h (fst b) (snd b)) added m.

Definition adds (f : oxm_field) : Prop :=
  forall m p k a m', bytes_ok p -> OXM_LENGTH (f_header f) <= length p ->
    k = drop (Z.to_nat (OXM_LENGTH (f_header f) / 2)) p ->
    parse_oxm_entry m f p k a = (m', 0) ->
    exists added, m' = put_all m (f_header f) added /\
      Forall (fun b => tlv_size_ok (f_header f) (fst b)) added /\
      (length added <= if (f_header f =? OXM_OF_IN_PHY_PORT)%Z then 2 else 1)%nat.

Lemma bytes_ok_app a b : bytes_ok a -> bytes_ok b -> bytes_ok (a ++ b).
Proof. intros. by apply Forall_app. Qed.

Lemma bytes_ok_take k a : bytes_ok a -> bytes_ok (take k a).
Proof. apply Forall_take. Qed.

Lemma bytes_ok_drop k a : bytes_ok a -> bytes_ok (drop k a).
Proof. apply Forall_drop. Qed.

#[export] Hint Resolve bytes_ok_app bytes_ok_take bytes_ok_drop : sw.

#[local] Arguments le_store : simpl never.

(** The length of a concrete header. *)
Ltac eval_len :=
  repeat match goal with
  | |- context [OXM_LENGTH ?x] =>
      let v := eval vm_compute in (OXM_LENGTH x) in change (OXM_LENGTH x) with v
  | H : context [OXM_LENGTH ?x] |- _ =>
      let v := eval vm_compute in (OXM_LENGTH x) in change (OXM_LENGTH x) with v in H
  end.

(** One field: run the case, then the list of what it adds and its lengths. *)
Ltac size_ok :=
  unfold tlv_size_ok; eval_len; split;
  [ auto 6 with sw
  | rewrite ?length_app, ?length_take, ?length_drop, ?le_store_length in *;
    first [ left; lia | right; left; split; [reflexivity | lia] | right; right; split; [reflexivity | lia]] ].

Ltac unfold_put :=
  unfold ofl_structs_match_put8, ofl_structs_match_put8m, ofl_structs_match_put16,
    ofl_structs_match_put16m, ofl_structs_match_put32, ofl_structs_match_put32m,
    ofl_structs_match_put64, ofl_structs_match_put64m, ofl_structs_match_put_pbb_isid,
    ofl_structs_match_put_pbb_isidm, ofl_structs_match_put_eth, ofl_structs_match_put_eth_m,
    ofl_structs_match_put_ipv6, ofl_structs_match_put_ipv6m in *.

Ltac adds_tac :=
  intros m p k a m' Hp Hl Hk H; cbn [parse_oxm_entry index f_header] in *; subst k; unfold_put;
  repeat case_match; simplify_eq;
  match goal with
  | |- context [match_put (match_put m _ ?b1 ?l1) _ ?b2 ?l2] =>
      exists [(b1, l1); (b2, l2)]; split; [reflexivity |]; split;
        [constructor; [| constructor; [| constructor]]; cbn [fst]; size_ok | vm_compute; lia]
  | |- context [match_put m _ ?b1 ?l1] =>
      exists [(b1, l1)]; split; [reflexivity |]; split;
        [constructor; [| constructor]; cbn [fst]; size_ok | vm_compute; lia]
  | |- _ => exists []; split; [reflexivity |]; split; [constructor | vm_compute; lia]
  end.

Lemma all_fields_adds : Forall adds all_fields.
Proof. unfold all_fields. repeat (apply Forall_cons; split; [adds_tac |]). constructor. Qed.

Lemma put_all_wf m h added :
  m_wf m -> in_range 32 h -> n (match_fields m) + length added < 2 ^ 64 ->
  m_wf (put_all m h added) /\
  tlvs (put_all m h added) ≡ₚ ((fun b => TLV h (fst b)) <$> added) ++ tlvs m /\
  n (match_fields (put_all m h added)) = n (match_fields m) + length added.
Proof.
  revert m. induction added as [| b l IH]; intros m Hwf Hr Hn.
  - split_and!; [done | done | simpl; lia].
  - cbn [length] in Hn.
    destruct (match_put_wf m h (fst b) (snd b) Hwf Hr) as (Hwf1 & Hp1 & Hn1); [lia |].
    destruct (IH (match_put m h (fst b) (snd b)) Hwf1 Hr) as (Hwf2 & Hp2 & Hn2); [lia |].
    split_and!; [done | | cbn [length put_all fold_left]; fold (put_all (match_put m h (fst b) (snd b)) h l); lia].
    cbn [put_all fold_left]. fold (put_all (match_put m h (fst b) (snd b)) h l).
    rewrite Hp2, Hp1. simpl. by rewrite Permutation_middle.
Qed.

Lemma all_fields_range : Forall (fun f => in_range 32 (f_header f)) all_fields.
Proof. unfold in_range. apply (bool_decide_unpack _). vm_compute. exact I. Qed.

(** The TLV of a known field, with the length the decoder gives it. *)
Definition tlv_ok (t : ofl_match_tlv) : Prop :=
  (exists f, f ∈ all_fields /\ f_header f = header t) /\ tlv_size_ok (header t) (value t).

(** Different headers, but for IN_PHY_PORT. *)
Definition headers_unique (m : ofl_match) : Prop :=
  NoDup (filter (fun h => h <> OXM_OF_IN_PHY_PORT) (header <$> tlvs m)).

Definition m_ok (m : ofl_match) : Prop := m_wf m /\ Forall tlv_ok (tlvs m) /\ headers_unique m.

Lemma check_oxm_dup_false m f :
  m_wf m -> f ∈ all_fields -> check_oxm_dup m f = false ->
  forall t, t ∈ tlvs m -> header t <> f_header f.
Proof.
  intros Hwf Hf Hd t Ht He. unfold check_oxm_dup in Hd.
  rewrite tlvs_with_hash_filter in Hd;
    [| done | pose proof all_fields_range as H; rewrite Forall_forall in H; by apply H].
  assert (t ∈ filter (fun t => header t = f_header f) (tlvs m)) as Hin
    by (by apply list_elem_of_filter).
  destruct (filter _ (tlvs m)); [by apply elem_of_nil in Hin | done].
Qed.

Lemma pull_entry_ok m p h a m' :
  m_ok m -> n (match_fields m) + 2 < 2 ^ 64 -> bytes_ok p -> OXM_LENGTH h + 4 <= length p ->
  pull_entry m p h a = (m', 0) -> m_ok m' /\ n (match_fields m') <= n (match_fields m) + 2.
Proof.
  intros (Hwf & Ht & Hu) Hn Hb Hl. unfold pull_entry.
  destruct (oxm_field_lookup h) as [f |] eqn:Hf; [| done].
  apply oxm_field_lookup_known in Hf as [Hf <-].
  destruct (OXM_HASMASK (f_header f) && negb (maskable f)); [done |].
  destruct (negb (oxm_prereqs_ok f m)); [done |].
  destruct (check_oxm_dup m f) eqn:Hd; [done |]. intros H.
  pose proof all_fields_adds as Ha. rewrite Forall_forall in Ha.
  assert (0 <= OXM_LENGTH (f_header f)) as Hl0
    by (apply Z.land_nonneg; right; lia).
  assert (OXM_LENGTH (f_header f) <= length (drop 4 p)) as Hl4 by (rewrite length_drop; lia).
  rewrite <- drop_drop in H.
  destruct (Ha f Hf m (drop 4 p) _ _ m' (bytes_ok_drop _ _ Hb) Hl4 eq_refl H)
    as (added & -> & Hsz & Hlen).
  assert (in_range 32 (f_header f)) as Hr
    by (pose proof all_fields_range as Hr; rewrite Forall_forall in Hr; by apply Hr).
  assert (length added <= 2)%nat as Hlen2 by (destruct (_ =? _); lia).
  destruct (put_all_wf m (f_header f) added Hwf Hr) as (Hwf' & Hp & Hn'); [lia |].
  split; [split_and!; [done | |] | lia].
  - rewrite Hp. apply Forall_app. split; [| done]. apply Forall_fmap.
    eapply Forall_impl; [exact Hsz |]. intros b Hb'. split; [by exists f | done].
  - unfold headers_unique in *. rewrite Hp, fmap_app, filter_app.
    destruct (decide (f_header f = OXM_OF_IN_PHY_PORT)) as [Heq | Hne].
    + rewrite (filter_none _ (header <$> _)); [done |]. intros x Hx.
      apply list_elem_of_fmap in Hx as (t & -> & (b & -> & _)%list_elem_of_fmap). simpl. naive_solver.
    + rewrite (proj2 (Z.eqb_neq _ _) Hne) in Hlen.
      destruct added as [| b [| ? ?]]; [done | | simpl in Hlen; lia]. simpl.
      rewrite filter_cons, decide_True by done. simpl. apply NoDup_cons. split; [| done].
      intros (_ & (t & He & Hin)%list_elem_of_fmap)%list_elem_of_filter.
      by apply (check_oxm_dup_false m f Hwf Hf Hd t Hin).
Qed.

Lemma oxm_entry_ok_len p match_len :
  oxm_entry_ok p match_len <> 0 -> OXM_LENGTH (oxm_entry_ok p match_len) + 4 <= match_len /\
  0 < OXM_LENGTH (oxm_entry_ok p match_len).
Proof.
  unfold oxm_entry_ok. cbv zeta. destruct (Z.leb_spec match_len 4); [done |].
  destruct (Z.eqb_spec (OXM_LENGTH (htonl (rd32 p))) 0); [done |].
  destruct (Z.ltb_spec match_len (OXM_LENGTH (htonl (rd32 p)) + 4)); [done |]. intros _.
  assert (0 <= OXM_LENGTH (htonl (rd32 p))) by (apply Z.land_nonneg; right; lia). lia.
Qed.

Lemma pull_loop_ok (fuel : nat) m p match_len a m' :
  m_ok m -> n (match_fields m) + 2 * fuel < 2 ^ 63 -> bytes_ok p -> match_len <= length p ->
  pull_loop fuel m p match_len a = (m', 0) -> m_ok m'.
Proof.
  revert m p match_len a. induction fuel as [| fuel IH]; intros m p match_len a Hok Hn Hb Hl;
    cbn [pull_loop]; [by intros [= <- _] |].
  cbv zeta. destruct (Z.eqb_spec (oxm_entry_ok p match_len) 0) as [He | He]; [by intros [= <- _] |].
  destruct (oxm_entry_ok_len p match_len He) as [Hle Hpos].
  destruct (pull_entry m p (oxm_entry_ok p match_len) a) as [m1 error] eqn:Hpe.
  destruct (Z.eqb_spec error 0) as [-> | Hne]; cbn [negb]; [| intros [= _ Hz]; contradiction].
  apply pull_entry_ok in Hpe as [Hok1 Hn1]; [| done | lia | done | lia].
  apply IH; [done | lia | by apply bytes_ok_drop | rewrite length_drop; lia].
Qed.

(** ** Encoding and decoding one field *)

Lemma take_app_exact {A} (a b : list A) k : length a = k -> take k (a ++ b) = a.
Proof. intros <-. apply take_app_length. Qed.

Lemma drop_app_exact {A} (a b : list A) k : length a = k -> drop k (a ++ b) = b.
Proof. intros <-. apply drop_app_length. Qed.

Lemma le_store_rd (k : nat) v : length v = k -> bytes_ok v -> le_store k (le_load v) = v.
Proof. intros <- Hv. by apply le_store_load. Qed.

(** Writing a number in network order and reading it back. *)
Lemma bswap_store_load (k : nat) v r :
  length v = k -> bytes_ok v ->
  bswap k (le_load (take k (le_store k (bswap k (le_load v)) ++ r))) = le_load v.
Proof.
  intros Hl Hv. rewrite take_app_exact by apply le_store_length. rewrite le_load_store.
  rewrite wrap_small by apply bswap_range. apply bswap_involutive.
  rewrite <- Hl. by apply le_load_range.
Qed.

Lemma store_load_take (k : nat) v r :
  length v = k -> bytes_ok v -> le_load (take k (le_store k (le_load v) ++ r)) = le_load v.
Proof.
  intros Hl Hv. rewrite take_app_exact by apply le_store_length. rewrite le_load_store.
  apply wrap_small. rewrite <- Hl. by apply le_load_range.
Qed.

(** The fields whose encoding the decoder reads back: not the requisites, which
    have an encoder of their own, not the eHDDP fields, which it ignores, and not
    IN_PHY_PORT and masked PBB_ISIDs. *)
Definition reads_back (f : oxm_field) : bool :=
  match index f with
  | OFI_OXM_OF_IN_PHY_PORT | OFI_OXM_OF_PBB_ISID_W => false
  | OFI_OXM_OF_EHDDP_FLAGS | OFI_OXM_OF_EHDDP_OPCODE | OFI_OXM_OF_EHDDP_NUM_DEVICE
  | OFI_OXM_OF_EHDDP_PRE_MAC_SIZ | OFI_OXM_OF_EHDDP_CONFIG | OFI_OXM_OF_EHDDP_TYPE_DEVICE
  | OFI_OXM_OF_EHDDP_PRE_MAC | OFI_OXM_OF_EHDDP_LAS_MAC | OFI_OXM_OF_EHDDP_SRC_MAC
  | OFI_OXM_OF_EHDDP_NUM_SEC | OFI_OXM_OF_EHDDP_NUM_ACK | OFI_OXM_OF_EHDDP_IDS
  | OFI_OXM_OF_EHDDP_TIM_BLO | OFI_OXM_OF_EHDDP_IN_PORTS | OFI_OXM_OF_EHDDP_OUT_PORTS => false
  | _ => negb (is_requisite (f_header f))
  end.

(** These and the requisites are read back from their value. *)
Definition decodable (f : oxm_field) : bool := reads_back f || is_requisite (f_header f).

Lemma reads_back_put f v : reads_back f = true -> put_field (TLV (f_header f) v) = put_value (TLV (f_header f) v).
Proof.
  intros H. unfold put_field. cbn [header]. destruct (is_requisite (f_header f)) eqn:E; [| done].
  unfold reads_back in H. rewrite E in H. by destruct (index f).
Qed.

Definition roundtrips (f : oxm_field) : Prop :=
  decodable f = true ->
  forall m v rest a m', bytes_ok v -> Z.of_nat (length v) = OXM_LENGTH (f_header f) ->
    let bytes := put_value (TLV (f_header f) v) ++ rest in
    take 4 bytes = oxm_put_header (f_header f) /\
    (parse_oxm_entry m f (drop 4 bytes) (drop (4 + Z.to_nat (OXM_LENGTH (f_header f) / 2)) bytes) a
       = (m', 0) ->
     m' = match_put m (f_header f) v (OXM_LENGTH (f_header f)) \/
     (index f = OFI_OXM_OF_VLAN_PCP /\ m' = m)).

(** Evaluates the tests on concrete headers. *)
Ltac eval_tests :=
  repeat match goal with
  | |- context [is_requisite ?x] =>
      let v := eval vm_compute in (is_requisite x) in change (is_requisite x) with v
  | |- context [OXM_HASMASK ?x] =>
      let v := eval vm_compute in (OXM_HASMASK x) in change (OXM_HASMASK x) with v
  | |- context [?x =? ?y] =>
      let v := eval vm_compute in (x =? y) in
      lazymatch v with true => idtac | false => idtac end; change (x =? y) with v
  | |- context [Z.to_nat ?x] =>
      let v := eval vm_compute in (Z.to_nat x) in
      lazymatch v with O => idtac | S _ => idtac end; progress change (Z.to_nat x) with v
  end; cbn [negb orb andb].

Lemma byte_roundtrip v r :
  Z.of_nat (length v) = 1 -> bytes_ok v -> le_store 1 (byte0 (le_store 1 (byte0 v) ++ r)) = v.
Proof.
  destruct v as [| b []]; try (intros; simpl in *; lia). intros _ Hb.
  inversion Hb as [| ? ? Hb0 _]; subst.
  assert (forall z, le_store 1 z = [z mod 256]) as Hs by done. rewrite !Hs. unfold byte0. cbn [app nth].
  pose proof (wrap_small 8 b Hb0) as Hm. unfold wrap in Hm. change (2 ^ 8) with 256 in Hm. by rewrite !Hm.
Qed.

(** A value of [k] bytes, and a value with its mask, through an encoder and a
    decoder of [k] bytes that undo each other. *)
Section halves.
Context (k : nat) (enc dec : list Z -> list Z).
Hypothesis enc_dec : forall u, length u = k -> bytes_ok u -> length (enc u) = k /\ dec (enc u) = u.

Lemma whole_roundtrip v r :
  Z.of_nat (length v) = k -> bytes_ok v -> dec (take k (enc (take k v) ++ r)) = v.
Proof using enc_dec.
  intros Hl Hv. rewrite (firstn_all2 v) by lia. destruct (enc_dec v) as [El Ed]; [lia | done |].
  by rewrite take_app_exact.
Qed.

Lemma masked_roundtrip v r :
  Z.of_nat (length v) = 2 * k -> bytes_ok v ->
  dec (take k (enc (take k v) ++ enc (take k (drop k v)) ++ r)) ++
  dec (take k (drop k (enc (take k v) ++ enc (take k (drop k v)) ++ r))) = v.
Proof using enc_dec.
  intros Hl Hv. rewrite (firstn_all2 (drop k v)) by (rewrite length_drop; lia).
  destruct (enc_dec (take k v)) as [El1 Ed1]; [rewrite length_take; lia | auto with sw |].
  destruct (enc_dec (drop k v)) as [El2 Ed2]; [rewrite length_drop; lia | auto with sw |].
  rewrite take_app_exact, drop_app_exact, take_app_exact, Ed1, Ed2 by done. apply take_drop.
Qed.
End halves.

(** The three encodings: network order, as it is, bytes. *)
Definition net_order (k : nat) (u : list Z) : list Z := le_store k (bswap k (le_load u)).
Definition host_order (k : nat) (u : list Z) : list Z := le_store k (le_load u).

Lemma net_order_inv (k : nat) u :
  length u = k -> bytes_ok u -> length (net_order k u) = k /\ net_order k (net_order k u) = u.
Proof.
  intros Hl Hu. split; [apply le_store_length |]. unfold net_order.
  rewrite le_load_store, wrap_small by apply bswap_range.
  assert (in_range (8 * k) (le_load u)) by (rewrite <- Hl; by apply le_load_range).
  rewrite bswap_involutive by done. by apply le_store_rd.
Qed.

Lemma host_order_inv (k : nat) u :
  length u = k -> bytes_ok u -> length (host_order k u) = k /\ host_order k (host_order k u) = u.
Proof.
  intros Hl Hu. split; [apply le_store_length |]. unfold host_order.
  rewrite le_load_store, wrap_small by (rewrite <- Hl; by apply le_load_range).
  by apply le_store_rd.
Qed.

Lemma bytes_inv (k : nat) (u : list Z) : length u = k -> bytes_ok u -> length u = k /\ u = u.
Proof. done. Qed.

Ltac halves_tac :=
  unfold ntohs, ntohl, ntoh64, rd16, rd32, rd64;
  repeat match goal with
  | |- context [le_store ?k (bswap ?k (le_load ?x))] =>
      change (le_store k (bswap k (le_load x))) with (net_order k x)
  | |- context [le_store ?k (le_load ?x)] => change (le_store k (le_load x)) with (host_order k x)
  end;
  match goal with
  | |- net_order ?k _ ++ _ = _ => apply (masked_roundtrip k (net_order k) (net_order k) (net_order_inv k))
  | |- net_order ?k _ = _ => apply (whole_roundtrip k (net_order k) (net_order k) (net_order_inv k))
  | |- host_order ?k _ ++ _ = _ =>
      apply (masked_roundtrip k (host_order k) (host_order k) (host_order_inv k))
  | |- host_order ?k _ = _ => apply (whole_roundtrip k (host_order k) (host_order k) (host_order_inv k))
  | |- take ?k _ ++ _ = _ => apply (masked_roundtrip k (fun u => u) (fun u => u) (bytes_inv k))
  | |- take ?k _ = _ => apply (whole_roundtrip k (fun u => u) (fun u => u) (bytes_inv k))
  end; assumption.

Ltac roundtrip_tac :=
  intros Hrb m v rest a m' Hv Hl; cbv zeta; unfold put_value; cbn [header value index f_header] in *;
  eval_len; eval_tests;
  unfold oxm_put_8, oxm_put_16, oxm_put_16w, oxm_put_32, oxm_put_32w, oxm_put_64, oxm_put_64w,
    oxm_put_pbb, oxm_put_eth, oxm_put_ethm, oxm_put_ipv6, oxm_put_ipv6m, oxm_put_header;
  rewrite <- ?drop_drop, <- ?app_assoc;
  split; [apply take_app_exact, le_store_length |];
  rewrite (drop_app_exact (le_store 4 _)) by apply le_store_length;
  cbn [parse_oxm_entry index f_header]; unfold_put; intros H; repeat case_match; simplify_eq; 
  first [right; split; reflexivity | left];
  match goal with |- match_put _ _ ?x _ = match_put _ _ ?y _ => assert (x = y) as -> end;
  [ eval_len; eval_tests; first [ by apply byte_roundtrip | halves_tac ] | reflexivity ].

Lemma all_fields_roundtrip : Forall roundtrips all_fields.
Proof.
  unfold all_fields.
  repeat (apply Forall_cons; split; [first [discriminate | roundtrip_tac] |]). constructor.
Qed.

(** * Properties *)

Lemma pull_match_ok buf match_len addr m :
  bytes_ok buf -> 0 <= match_len <= 65535 ->
  oxm_pull_match buf match_len addr = (m, 0) -> m_ok m.
Proof.
  intros Hb Hl. unfold oxm_pull_match.
  destruct (Z.ltb_spec (length buf) match_len) as [Hlt | Hge]; [done |].
  destruct match_init_wf as [Hwf Ht].
  apply pull_loop_ok; [| | done | done].
  - split_and!; [done | rewrite Ht; constructor |]. unfold headers_unique. rewrite Ht. apply NoDup_nil_2.
  - change (n (match_fields ofl_structs_match_init)) with 0. lia.
Qed.

(** What the decoder accepts is a well-formed match: every TLV is one of a
    known field and sits in the map under the hash of its header, its value has
    the length of the field (12 bytes for a masked PBB_ISID), and no header but
    IN_PHY_PORT occurs twice. *)
Theorem oxm_pull_match_sound buf match_len addr m :
  bytes_ok buf -> 0 <= match_len <= 65535 ->
  oxm_pull_match buf match_len addr = (m, 0) ->
  m_wf m /\ Forall tlv_ok (tlvs m) /\ headers_unique m.
Proof. apply pull_match_ok. Qed.

(** A message with ETH_TYPE = IPv4 and IPV4_DST = 10.0.0.0/8. *)
Definition demo_oxm : list Z :=
  [0x80; 0x00; 0x0a; 0x02; 0x08; 0x00;
   0x80; 0x00; 0x19; 0x08; 10; 0; 0; 0; 0xff; 0; 0; 0].

Lemma oxm_pull_match_sound_witness :
  let m := fst (oxm_pull_match demo_oxm 18 0) in
  snd (oxm_pull_match demo_oxm 18 0) = 0 /\ m_wf m /\ Forall tlv_ok (tlvs m) /\ headers_unique m.
Proof.
  split; [by vm_compute |].
  apply (oxm_pull_match_sound demo_oxm 18 0); [| lia |].
  - apply (bool_decide_unpack _). by vm_compute.
  - vm_compute. reflexivity.
Defined.

(** Encoding a field and decoding it gives the field back: for every known
    field but the ones the decoder ignores or mishandles, the bytes [oxm_put_match]
    writes for a TLV begin with its header, and if the decoder accepts them it adds
    a TLV with the same header and value (or, for VLAN_PCP under VLAN_VID "none",
    nothing). *)
Theorem oxm_field_roundtrip f m v rest a m' :
  f ∈ all_fields -> reads_back f = true ->
  bytes_ok v -> Z.of_nat (length v) = OXM_LENGTH (f_header f) ->
  let bytes := put_field (TLV (f_header f) v) ++ rest in
  take 4 bytes = oxm_put_header (f_header f) /\
  (parse_oxm_entry m f (drop 4 bytes) (drop (4 + Z.to_nat (OXM_LENGTH (f_header f) / 2)) bytes) a
     = (m', 0) ->
   m' = match_put m (f_header f) v (OXM_LENGTH (f_header f)) \/
   (index f = OFI_OXM_OF_VLAN_PCP /\ m' = m)).
Proof.
  intros Hf Hrb Hv Hl. pose proof all_fields_roundtrip as Hall. rewrite Forall_forall in Hall.
  rewrite reads_back_put by done. apply (Hall f Hf); [| done | done]. unfold decodable. by rewrite Hrb.
Qed.

Lemma oxm_field_roundtrip_witness :
  let f := OxmField OFI_OXM_OF_IPV4_DST_W OXM_OF_IPV4_DST_W OXM_DL_IP 0 true in
  take 4 (put_field (TLV OXM_OF_IPV4_DST_W [10;0;0;0;255;0;0;0]) ++ []) = oxm_put_header OXM_OF_IPV4_DST_W.
Proof.
  refine (proj1 (oxm_field_roundtrip (OxmField OFI_OXM_OF_IPV4_DST_W OXM_OF_IPV4_DST_W OXM_DL_IP 0 true)
    ofl_structs_match_init [10;0;0;0;255;0;0;0] [] 0 ofl_structs_match_init _ eq_refl _ eq_refl)).
  - apply (bool_decide_unpack _). by vm_compute.
  - apply (bool_decide_unpack _). by vm_compute.
Defined.

(** [oxm_match_lookup] and the searches by hash alone agree with a search by
    header in every well-formed match: the lookup gives the first TLV with the
    header, the presence test tells whether there is one. *)
Theorem oxm_lookup_by_header m h :
  m_wf m -> in_range 32 h ->
  oxm_match_lookup h m = head (filter (fun t => header t = h) (tlvs m)) /\
  check_present_prereq m h = bool_decide (h ∈ (header <$> tlvs m)) /\
  get_oxm_value m h = value <$> oxm_match_lookup h m.
Proof.
  intros Hwf Hr. rewrite oxm_match_lookup_head by done. split; [done |].
  unfold check_present_prereq, get_oxm_value. rewrite tlvs_with_hash_filter by done.
  destruct (filter _ (tlvs m)) as [| t r] eqn:Hf; (split; [symmetry | done]).
  - apply bool_decide_eq_false. intros (t & -> & Ht)%list_elem_of_fmap.
    assert (t ∈ filter (fun t' => header t' = header t) (tlvs m)) as Hin by (by apply list_elem_of_filter).
    rewrite Hf in Hin. by apply elem_of_nil in Hin.
  - apply bool_decide_eq_true.
    assert (t ∈ filter (fun t => header t = h) (tlvs m)) as [<- Hin]%list_elem_of_filter
      by (rewrite Hf; by left).
    by apply list_elem_of_fmap_2.
Qed.

Lemma oxm_lookup_by_header_witness :
  check_present_prereq ofl_structs_match_init OXM_OF_IN_PORT = false.
Proof.
  destruct (oxm_lookup_by_header ofl_structs_match_init OXM_OF_IN_PORT) as (_ & H & _);
    [apply match_init_wf | split; by vm_compute |].
  rewrite H. by vm_compute.
Defined.

(** ** What goes wrong *)

(** The case of IN_PHY_PORT falls through into METADATA: the field is added twice. *)
Lemma in_phy_port_added_twice m p k a :
  check_present_prereq m OXM_OF_IN_PORT = true ->
  parse_oxm_entry m (OxmField OFI_OXM_OF_IN_PHY_PORT OXM_OF_IN_PHY_PORT OXM_DL_NONE 0 false) p k a =
  (match_put (match_put m OXM_OF_IN_PHY_PORT (le_store 4 (ntohl (rd32 p))) 4)
     OXM_OF_IN_PHY_PORT (le_store 8 (ntoh64 (rd64 p))) 8, 0).
Proof. intros H. cbn [parse_oxm_entry index f_header]. by rewrite H. Qed.

(** The test of a masked PBB_ISID compares four bytes of a three-byte field: the
    mask ff:ff:ff is refused unless the byte after it is 0xff as well. *)
Lemma pbb_isid_w_refused m v0 v1 v2 next rest a :
  Forall byte_ok [v0; v1; v2; next] -> next <> 255 ->
  snd (parse_oxm_entry m (OxmField OFI_OXM_OF_PBB_ISID_W OXM_OF_PBB_ISID_W OXM_DL_PBB 0 true)
         (v0 :: v1 :: v2 :: 255 :: 255 :: 255 :: next :: rest) (255 :: 255 :: 255 :: next :: rest) a) =
  bad_match OFPBMC_BAD_WILDCARDS.
Proof.
  intros Hb Hn. rewrite !Forall_cons in Hb. destruct Hb as (H0 & H1 & H2 & H3 & _).
  cbn [parse_oxm_entry index]. unfold check_bad_wildcard, rd32. cbn [firstn]. change (take 0 rest) with (@nil Z).
  destruct (Z.eqb_spec (le_load [v0; v1; v2; 255])
    (Z.land (le_load [v0; v1; v2; 255]) (le_load [255; 255; 255; next]))) as [He |]; [| done].
  assert (byte_ok 255) as H255 by (split; by vm_compute).
  assert (bytes_ok [v0; v1; v2; 255] /\ bytes_ok [255; 255; 255; next]) as [Hb1 Hb2]
    by (unfold bytes_ok; rewrite !Forall_cons; auto 10).
  exfalso. apply Hn. assert (Z.land 255 next = 255) as Hl.
  { apply (bits_ext 8); [lia | by apply in_range_land; [lia | split; by vm_compute | apply H3] |
      split; by vm_compute |].
    intros i Hi. apply (f_equal (fun z => Z.testbit z (24 + i))) in He.
    rewrite Z.land_spec, !le_load_testbit in He by (done || lia).
    replace (Z.to_nat ((24 + i) / 8)) with 3%nat in He by lia.
    replace ((24 + i) mod 8) with i in He by lia. cbn [nth] in He. by rewrite Z.land_spec. }
  rewrite Z.land_comm in Hl. change 255 with (Z.ones 8) in Hl at 1.
  rewrite Z.land_ones in Hl by lia. rewrite (wrap_small 8 next H3 : next mod 2 ^ 8 = next) in Hl. done.
Qed.
