(* ===== verification/MatchStd.v ===== *)
(** Matching (udatapath/match_std.c): a packet against a flow entry, and flow
    entries against each other for strict and non-strict modification and for
    the overlap check. *)
From S2P Require Import Prelude HMap Oxm.
Open Scope Z_scope.

(** A pointer to bytes is the list of the bytes from there on. *)

Definition match_8 (a b : list Z) : bool := byte0 a =? byte0 b.
Definition match_mask8 (a am b : list Z) : bool :=
  Z.land (byte0 am) (Z.lxor (byte0 a) (byte0 b)) =? 0.
Definition match_16 (a b : list Z) : bool := rd16 a =? rd16 b.
Definition match_mask16 (a am b : list Z) : bool := Z.land (rd16 am) (Z.lxor (rd16 a) (rd16 b)) =? 0.
Definition match_24 (a b : list Z) : bool := match_16 a b && match_8 (drop 2 a) (drop 2 b).
Definition match_mask24 (a am b : list Z) : bool :=
  match_mask16 a am b && match_mask8 (drop 2 a) (drop 2 am) (drop 2 b).
Definition match_32 (a b : list Z) : bool := rd32 a =? rd32 b.
Definition match_mask32 (a am b : list Z) : bool := Z.land (rd32 am) (Z.lxor (rd32 a) (rd32 b)) =? 0.
Definition match_48 (a b : list Z) : bool := match_32 a b && match_16 (drop 4 a) (drop 4 b).
Definition match_mask48 (a am b : list Z) : bool :=
  match_mask32 a am b && match_mask16 (drop 4 a) (drop 4 am) (drop 4 b).
Definition match_64 (a b : list Z) : bool := rd64 a =? rd64 b.
Definition match_mask64 (a am b : list Z) : bool := Z.land (rd64 am) (Z.lxor (rd64 a) (rd64 b)) =? 0.
Definition match_128 (a b : list Z) : bool := match_64 a b && match_64 (drop 8 a) (drop 8 b).
Definition match_mask128 (a am b : list Z) : bool :=
  match_mask64 a am b && match_mask64 (drop 8 a) (drop 8 am) (drop 8 b).
(** [memcmp] of the two eHDDP arrays. *)
Definition match_port (a b : list Z) : bool :=
  bool_decide (take (4 * EHDDP_MAX_ELEMENTS) a = take (4 * EHDDP_MAX_ELEMENTS) b).
Definition match_macs (a b : list Z) : bool :=
  bool_decide (take (8 * EHDDP_MAX_ELEMENTS) a = take (8 * EHDDP_MAX_ELEMENTS) b).

Definition VLAN_VID_MASK : Z := 0x0fff.

(** The length of the field without its mask. *)
Definition field_len (h : Z) : Z := if OXM_HASMASK h then OXM_LENGTH h / 2 else OXM_LENGTH h.

(** The header of the same field without mask. *)
Definition packet_header (h : Z) : Z :=
  if OXM_HASMASK h then Z.lor (Z.land h 0xfffffe00) (field_len h) else h.

(** The body of the loop of [packet_match] for one field [f] of the flow entry:
    [false] is a [return false]. *)
Definition packet_match_field (f : ofl_match_tlv) (packet : ofl_match) : bool :=
  let has_mask := OXM_HASMASK (header f) in
  let len := field_len (header f) in
  let ph := packet_header (header f) in
  let flow_val := value f in
  let flow_mask := drop (Z.to_nat len) (value f) in
  match oxm_match_lookup ph packet with
  | None => (header f =? OXM_OF_VLAN_VID) && (rd16 (value f) =? OFPVID_NONE)
  | Some packet_f =>
      let packet_val := value packet_f in
      if len =? 1 then
        if has_mask then match_mask8 flow_val flow_mask packet_val else match_8 flow_val packet_val
      else if len =? 2 then
        if ph =? OXM_OF_VLAN_VID then
          let flow_vlan_id := rd16 flow_val in
          if flow_vlan_id =? OFPVID_NONE then false
          else if flow_vlan_id =? OFPVID_PRESENT then true
          else
            let flow_vlan_id := le_store 2 (Z.land flow_vlan_id VLAN_VID_MASK) in
            if has_mask then match_mask16 flow_vlan_id flow_mask packet_val
            else match_16 flow_vlan_id packet_val
        else if ph =? OXM_OF_IPV6_EXTHDR then
          let flow_eh := rd16 flow_val in
          let packet_eh := rd16 packet_val in
          Z.land flow_eh packet_eh =? flow_eh
        else
          if has_mask then match_mask16 flow_val flow_mask packet_val else match_16 flow_val packet_val
      else if len =? 3 then
        if has_mask then match_mask24 flow_val flow_mask packet_val else match_24 flow_val packet_val
      else if len =? 4 then
        if has_mask then match_mask32 flow_val flow_mask packet_val else match_32 flow_val packet_val
      else if len =? 6 then
        if has_mask then match_mask48 flow_val flow_mask packet_val else match_48 flow_val packet_val
      else if len =? 8 then
        if has_mask then match_mask64 flow_val flow_mask packet_val else match_64 flow_val packet_val
      else if len =? 16 then
        if has_mask then match_mask128 flow_val flow_mask packet_val else match_128 flow_val packet_val
      else if len =? 124 then match_port flow_val packet_val
      else if len =? 248 then match_macs flow_val packet_val
      else true
  end.

Definition packet_match (flow_match packet : ofl_match) : bool :=
  if mlength flow_match =? 0 then true
  else forallb (fun f => packet_match_field f packet) (hmap_elems (match_fields flow_match)).

(** * Flow entries against each other *)

(** [((am == bm) && ((a ^ b) & am)) == 0] on words. *)
Definition strict_word (a b am bm : Z) : bool :=
  negb ((am =? bm) && negb (Z.land (Z.lxor a b) am =? 0)).
Definition strict_mask8 (a b am bm : list Z) : bool :=
  strict_word (byte0 a) (byte0 b) (byte0 am) (byte0 bm).
Definition strict_mask16 (a b am bm : list Z) : bool := strict_word (rd16 a) (rd16 b) (rd16 am) (rd16 bm).
Definition strict_mask24 (a b am bm : list Z) : bool :=
  strict_mask16 a b am bm && strict_mask8 (drop 2 a) (drop 2 b) (drop 2 am) (drop 2 bm).
Definition strict_mask32 (a b am bm : list Z) : bool := strict_word (rd32 a) (rd32 b) (rd32 am) (rd32 bm).
Definition strict_mask_ip (a b am bm : list Z) : bool := strict_word (rd32 a) (rd32 b) (rd32 am) (rd32 bm).
Definition strict_mask48 (a b am bm : list Z) : bool :=
  strict_mask32 a b am bm && strict_mask16 (drop 4 a) (drop 4 b) (drop 4 am) (drop 4 bm).
Definition strict_mask64 (a b am bm : list Z) : bool := strict_word (rd64 a) (rd64 b) (rd64 am) (rd64 bm).
Definition strict_mask128 (a b am bm : list Z) : bool :=
  strict_mask64 a b am bm && strict_mask64 (drop 8 a) (drop 8 b) (drop 8 am) (drop 8 bm).

Definition is_ip_field (oxm_field : Z) : bool :=
  (oxm_field =? 11) || (oxm_field =? 12) || (oxm_field =? 22) || (oxm_field =? 23).

(** The body of the loop of [match_std_strict]. *)
Definition strict_field (fm : ofl_match_tlv) (b : ofl_match) : bool :=
  match oxm_match_lookup (header fm) b with
  | None => false
  | Some fe =>
      let has_mask := OXM_HASMASK (header fm) in
      let len := field_len (header fm) in
      let v := value fm in let e := value fe in
      let vm := drop (Z.to_nat len) v in let em := drop (Z.to_nat len) e in
      if len =? 1 then if has_mask then strict_mask8 v e vm em else match_8 v e
      else if len =? 2 then if has_mask then strict_mask16 v e vm em else match_16 v e
      else if len =? 3 then if has_mask then strict_mask24 v e vm em else match_24 v e
      else if len =? 4 then
        if has_mask then
          (if is_ip_field (OXM_FIELD (header fm)) then strict_mask_ip v e vm em else true)
          && strict_mask32 v e vm em
        else match_32 v e
      else if len =? 6 then if has_mask then strict_mask48 v e vm em else match_48 v e
      else if len =? 8 then if has_mask then strict_mask64 v e vm em else match_64 v e
      else if len =? 16 then if has_mask then strict_mask128 v e vm em else match_128 v e
      else if len =? 124 then match_port v e
      else if len =? 248 then match_macs v e
      else true
  end.

Definition match_std_strict (a b : ofl_match) : bool :=
  if (mlength a =? 0) && (mlength b =? 0) then true
  else if negb (mlength a =? mlength b) then false
  else forallb (fun fm => strict_field fm b) (hmap_elems (match_fields a)).

(** [(~am & (~a | ~b | bm) & (a | b | bm)) == 0] on words. *)
Definition nonstrict_word (a b am bm : Z) : bool :=
  Z.land (Z.land (Z.lnot am) (Z.lor (Z.lor (Z.lnot a) (Z.lnot b)) bm)) (Z.lor (Z.lor a b) bm) =? 0.
Definition nonstrict_mask8 (a b am bm : list Z) : bool :=
  nonstrict_word (byte0 a) (byte0 b) (byte0 am) (byte0 bm).
Definition nonstrict_mask16 (a b am bm : list Z) : bool :=
  nonstrict_word (rd16 a) (rd16 b) (rd16 am) (rd16 bm).
Definition nonstrict_mask24 (a b am bm : list Z) : bool :=
  nonstrict_mask16 a b am bm && nonstrict_mask8 (drop 2 a) (drop 2 b) (drop 2 am) (drop 2 bm).
Definition nonstrict_mask32 (a b am bm : list Z) : bool :=
  nonstrict_word (rd32 a) (rd32 b) (rd32 am) (rd32 bm).
Definition nonstrict_mask48 (a b am bm : list Z) : bool :=
  nonstrict_mask32 a b am bm && nonstrict_mask16 (drop 4 a) (drop 4 b) (drop 4 am) (drop 4 bm).
Definition nonstrict_mask64 (a b am bm : list Z) : bool :=
  nonstrict_word (rd64 a) (rd64 b) (rd64 am) (rd64 bm).
Definition nonstrict_mask128 (a b am bm : list Z) : bool :=
  nonstrict_mask64 a b am bm && nonstrict_mask64 (drop 8 a) (drop 8 b) (drop 8 am) (drop 8 bm).

(** The body of the loop of [match_std_nonstrict]. *)
Definition nonstrict_field (fm : ofl_match_tlv) (b : ofl_match) : bool :=
  match oxm_match_lookup (header fm) b with
  | None => false
  | Some fe =>
      let has_mask := OXM_HASMASK (header fm) in
      let len := field_len (header fm) in
      let v := value fm in let e := value fe in
      let vm := drop (Z.to_nat len) v in let em := drop (Z.to_nat len) e in
      if len =? 1 then if has_mask then nonstrict_mask8 v e vm em else match_8 v e
      else if len =? 2 then if has_mask then nonstrict_mask16 v e vm em else match_16 v e
      else if len =? 3 then if has_mask then nonstrict_mask24 v e vm em else match_24 v e
      else if len =? 4 then if has_mask then nonstrict_mask32 v e vm em else match_32 v e
      else if len =? 6 then if has_mask then nonstrict_mask48 v e vm em else match_48 v e
      else if len =? 8 then if has_mask then nonstrict_mask64 v e vm em else match_64 v e
      else if len =? 16 then if has_mask then nonstrict_mask128 v e vm em else match_128 v e
      else true
  end.

Definition match_std_nonstrict (a b : ofl_match) : bool :=
  if mlength a =? 0 then true
  else forallb (fun fm => nonstrict_field fm b) (hmap_elems (match_fields a)).

Definition incompatible_word (a b am bm : Z) : bool :=
  negb (Z.lxor (Z.land am a) (Z.land bm b) =? 0).
Definition incompatible_8 (a b am bm : list Z) : bool :=
  incompatible_word (byte0 a) (byte0 b) (byte0 am) (byte0 bm).
Definition incompatible_16 (a b am bm : list Z) : bool :=
  incompatible_word (rd16 a) (rd16 b) (rd16 am) (rd16 bm).
Definition incompatible_32 (a b am bm : list Z) : bool :=
  incompatible_word (rd32 a) (rd32 b) (rd32 am) (rd32 bm).
Definition incompatible_48 (a b am bm : list Z) : bool :=
  incompatible_32 a b am bm || incompatible_16 (drop 4 a) (drop 4 b) (drop 4 am) (drop 4 bm).
Definition incompatible_64 (a b am bm : list Z) : bool :=
  incompatible_word (rd64 a) (rd64 b) (rd64 am) (rd64 bm).
Definition incompatible_128 (a b am bm : list Z) : bool :=
  incompatible_64 a b am bm || incompatible_64 (drop 8 a) (drop 8 b) (drop 8 am) (drop 8 bm).

(** The dummy mask of [match_std_overlap]. *)
Definition all_mask : list Z := replicate 16 0xff.

(** The body of the loop of [match_std_overlap]: [false] is a [return false]. *)
Definition overlap_field (fa : ofl_match_tlv) (b : ofl_match) : bool :=
  let len := field_len (header fa) in
  let masked := OXM_HASMASK (header fa) in
  let h := packet_header (header fa) in
  let header_m := if masked then header fa
                  else Z.lor (Z.lor (Z.land (header fa) 0xfffffe00) 0x100) (Z.shiftl len 1) in
  let val_a := value fa in
  let mask_a := if masked then drop (Z.to_nat len) (value fa) else all_mask in
  match (match oxm_match_lookup h b with Some f => Some f | None => oxm_match_lookup header_m b end) with
  | None => true
  | Some fb =>
      let val_b := value fb in
      let mask_b := if OXM_HASMASK (header fb) then drop (Z.to_nat len) (value fb) else all_mask in
      if len =? 1 then negb (incompatible_8 val_a val_b mask_a mask_b)
      else if len =? 2 then negb (incompatible_16 val_a val_b mask_a mask_b)
      else if len =? 4 then negb (incompatible_32 val_a val_b mask_a mask_b)
      else if len =? 6 then negb (incompatible_48 val_a val_b mask_a mask_b)
      else if len =? 8 then negb (incompatible_64 val_a val_b mask_a mask_b)
      else if len =? 16 then negb (incompatible_128 val_a val_b mask_a mask_b)
      else true
  end.

Definition match_std_overlap (a b : ofl_match) : bool :=
  forallb (fun fa => overlap_field fa b) (hmap_elems (match_fields a)).


(** * The comparisons, byte by byte *)

(** The first [L] bytes of [a] and [b] agree where the mask [k] has ones. *)
Definition masked_eq (L : nat) (a k b : list Z) : Prop :=
  forall j, (j < L)%nat -> Z.land (nth j k 0) (Z.lxor (nth j a 0) (nth j b 0)) = 0.

Definition ones (L : nat) : list Z := replicate L 255.

Lemma masked_eq_app L1 L2 a k b :
  masked_eq (L1 + L2) a k b <-> masked_eq L1 a k b /\ masked_eq L2 (drop L1 a) (drop L1 k) (drop L1 b).
Proof.
  assert (forall l j, nth j (drop L1 l) 0 = nth (L1 + j) l 0) as Hd.
  { intros l j. revert l. induction L1 as [| m IH]; intros l; [done |].
    destruct l; [by destruct j |]. apply IH. }
  split.
  - intros H. split; intros j Hj; [apply H; lia |]. rewrite !Hd. apply H. lia.
  - intros [H1 H2] j Hj. destruct (Nat.lt_ge_cases j L1); [by apply H1 |].
    specialize (H2 (j - L1)%nat ltac:(lia)). rewrite !Hd in H2.
    by replace (L1 + (j - L1))%nat with j in H2 by lia.
Qed.

Lemma nth_take L j (l : list Z) : (j < L)%nat -> nth j (take L l) 0 = nth j l 0.
Proof.
  revert j l. induction L as [| L IH]; intros j l Hj; [lia |].
  destruct l; [done |]. destruct j; [done |]. cbn. apply IH. lia.
Qed.

Lemma nth_byte_ok l j : bytes_ok l -> byte_ok (nth j l 0).
Proof.
  intros H. revert j. assert (byte_ok 0) as H0 by (split; by vm_compute).
  induction H as [| x l Hx Hl IH]; intros j; destruct j; [done | done | done | apply IH].
Qed.

Section words.
Context (L : nat) (a k b : list Z).
Context (Ha : bytes_ok a) (Hk : bytes_ok k) (Hb : bytes_ok b).

Lemma word_masked_eq :
  Z.land (le_load (take L k)) (Z.lxor (le_load (take L a)) (le_load (take L b))) = 0 <->
  masked_eq L a k b.
Proof.
  split.
  - intros H j Hj. apply Z.bits_inj'. intros i Hi. rewrite Z.bits_0, Z.land_spec, Z.lxor_spec.
    destruct (Z.lt_ge_cases i 8).
    + apply (f_equal (fun z => Z.testbit z (8 * j + i))) in H.
      rewrite Z.bits_0, Z.land_spec, Z.lxor_spec, !le_load_testbit in H
        by (apply bytes_ok_take || lia; done).
      replace (Z.to_nat ((8 * j + i) / 8)) with j in H by lia.
      replace ((8 * j + i) mod 8) with i in H by lia. by rewrite !nth_take in H by done.
    + by rewrite !(in_range_testbit 8) by (done || by apply nth_byte_ok).
  - intros H. apply Z.bits_inj'. intros i Hi.
    rewrite Z.bits_0, Z.land_spec, Z.lxor_spec, !le_load_testbit by (done || by apply bytes_ok_take).
    destruct (Nat.lt_ge_cases (Z.to_nat (i / 8)) L) as [Hj | Hj].
    + rewrite !nth_take by done. specialize (H _ Hj).
      apply (f_equal (fun z => Z.testbit z (i mod 8))) in H.
      by rewrite Z.bits_0, Z.land_spec, Z.lxor_spec in H.
    + rewrite (nth_overflow (take L k)); [by rewrite Z.bits_0 |]. rewrite length_take. lia.
Qed.
End words.

Lemma byte_ones x : byte_ok x -> Z.land 255 x = x.
Proof.
  intros Hx. rewrite Z.land_comm. change 255 with (Z.ones 8). rewrite Z.land_ones by lia.
  by apply Z.mod_small.
Qed.

Lemma nth_ones L j : (j < L)%nat -> nth j (ones L) 0 = 255.
Proof. revert j. induction L as [| L IH]; intros j Hj; [lia |]. destruct j; [done |]. apply IH. lia. Qed.

Lemma ones_ok L : bytes_ok (ones L).
Proof. apply Forall_replicate. split; by vm_compute. Qed.

Lemma word_eq L a b :
  bytes_ok a -> bytes_ok b -> (L <= length a)%nat -> (L <= length b)%nat ->
  le_load (take L a) = le_load (take L b) <-> masked_eq L a (ones L) b.
Proof.
  intros Ha Hb Hla Hlb. split.
  - intros He%le_load_inj; [| by apply bytes_ok_take | by apply bytes_ok_take | rewrite !length_take; lia].
    intros j Hj. rewrite <- (nth_take L j a), <- (nth_take L j b), He, Z.lxor_nilpotent, Z.land_0_r by done.
    done.
  - intros H. f_equal. apply (nth_ext _ _ 0 0); [rewrite !length_take; lia |].
    intros j Hj. rewrite length_take in Hj. rewrite !nth_take by lia. specialize (H j ltac:(lia)).
    rewrite nth_ones, byte_ones in H; [by apply Z.lxor_eq | | lia].
    apply in_range_lxor; [lia | by apply nth_byte_ok ..].
Qed.


Lemma byte0_load a : byte0 a = le_load (take 1 a).
Proof. destruct a as [| x l]; [done |]. unfold byte0. cbn [nth firstn]. rewrite take_0. cbn [le_load]. lia. Qed.

Create HintDb bytes.
#[export] Hint Resolve bytes_ok_drop bytes_ok_take bytes_ok_app ones_ok le_store_ok : bytes.
#[export] Hint Extern 2 (_ <= length (drop _ _))%nat => rewrite length_drop; lia : bytes.
#[export] Hint Extern 2 (_ <= length _)%nat => lia : bytes.

Section masked_comparisons.
Context (a k b : list Z).
Context (Ha : bytes_ok a) (Hk : bytes_ok k) (Hb : bytes_ok b).

Lemma match_mask8_spec : match_mask8 a k b = true <-> masked_eq 1 a k b.
Proof. unfold match_mask8. rewrite !byte0_load, Z.eqb_eq. by apply word_masked_eq. Qed.
Lemma match_mask16_spec : match_mask16 a k b = true <-> masked_eq 2 a k b.
Proof. unfold match_mask16. rewrite Z.eqb_eq. by apply word_masked_eq. Qed.
Lemma match_mask32_spec : match_mask32 a k b = true <-> masked_eq 4 a k b.
Proof. unfold match_mask32. rewrite Z.eqb_eq. by apply word_masked_eq. Qed.
Lemma match_mask64_spec : match_mask64 a k b = true <-> masked_eq 8 a k b.
Proof. unfold match_mask64. rewrite Z.eqb_eq. by apply word_masked_eq. Qed.
End masked_comparisons.

Section exact_comparisons.
Context (a b : list Z).
Context (Ha : bytes_ok a) (Hb : bytes_ok b).

Lemma match_8_spec : (1 <= length a)%nat -> (1 <= length b)%nat -> match_8 a b = true <-> masked_eq 1 a (ones 1) b.
Proof. intros. unfold match_8. rewrite !byte0_load, Z.eqb_eq. by apply word_eq. Qed.
Lemma match_16_spec : (2 <= length a)%nat -> (2 <= length b)%nat -> match_16 a b = true <-> masked_eq 2 a (ones 2) b.
Proof. intros. unfold match_16. rewrite Z.eqb_eq. by apply word_eq. Qed.
Lemma match_32_spec : (4 <= length a)%nat -> (4 <= length b)%nat -> match_32 a b = true <-> masked_eq 4 a (ones 4) b.
Proof. intros. unfold match_32. rewrite Z.eqb_eq. by apply word_eq. Qed.
Lemma match_64_spec : (8 <= length a)%nat -> (8 <= length b)%nat -> match_64 a b = true <-> masked_eq 8 a (ones 8) b.
Proof. intros. unfold match_64. rewrite Z.eqb_eq. by apply word_eq. Qed.
End exact_comparisons.

(** The comparison a switch on the length of the field selects. *)
Definition match_by_len (L : Z) (a b : list Z) : bool :=
  if L =? 1 then match_8 a b else if L =? 2 then match_16 a b else if L =? 3 then match_24 a b
  else if L =? 4 then match_32 a b else if L =? 6 then match_48 a b else if L =? 8 then match_64 a b
  else match_128 a b.
Definition match_mask_by_len (L : Z) (a k b : list Z) : bool :=
  if L =? 1 then match_mask8 a k b else if L =? 2 then match_mask16 a k b
  else if L =? 3 then match_mask24 a k b else if L =? 4 then match_mask32 a k b
  else if L =? 6 then match_mask48 a k b else if L =? 8 then match_mask64 a k b
  else match_mask128 a k b.

Definition lengths : list Z := [1; 2; 3; 4; 6; 8; 16].

Lemma match_mask_by_len_spec L a k b :
  L ∈ lengths -> bytes_ok a -> bytes_ok k -> bytes_ok b ->
  match_mask_by_len L a k b = true <-> masked_eq (Z.to_nat L) a k b.
Proof.
  intros HL Ha Hk Hb. unfold lengths in HL. rewrite !elem_of_cons in HL.
  destruct HL as [-> | [-> | [-> | [-> | [-> | [-> | [-> | []%elem_of_nil]]]]]]]; unfold match_mask_by_len;
    cbn [Z.eqb Pos.eqb]; unfold match_mask24, match_mask48, match_mask128.
  - by apply match_mask8_spec.
  - by apply match_mask16_spec.
  - rewrite andb_true_iff, match_mask16_spec, match_mask8_spec by auto with bytes. symmetry. apply (masked_eq_app 2 1).
  - by apply match_mask32_spec.
  - rewrite andb_true_iff, match_mask32_spec, match_mask16_spec by auto with bytes. symmetry. apply (masked_eq_app 4 2).
  - by apply match_mask64_spec.
  - rewrite andb_true_iff, !match_mask64_spec by auto with bytes. symmetry. apply (masked_eq_app 8 8).
Qed.

Lemma drop_ones m L : drop m (ones L) = ones (L - m).
Proof. apply drop_replicate. Qed.

Lemma masked_eq_ones L a m b : (L <= m)%nat -> masked_eq L a (ones m) b <-> masked_eq L a (ones L) b.
Proof.
  intros Hm. split; intros H j Hj; specialize (H j Hj); rewrite nth_ones in *; done || lia.
Qed.

Lemma match_by_len_spec L a b :
  L ∈ lengths -> bytes_ok a -> bytes_ok b -> L <= length a -> L <= length b ->
  match_by_len L a b = true <-> masked_eq (Z.to_nat L) a (ones (Z.to_nat L)) b.
Proof.
  intros HL Ha Hb Hla Hlb. unfold lengths in HL. rewrite !elem_of_cons in HL.
  destruct HL as [-> | [-> | [-> | [-> | [-> | [-> | [-> | []%elem_of_nil]]]]]]]; unfold match_by_len;
    cbn [Z.eqb Pos.eqb]; unfold match_24, match_48, match_128.
  - apply match_8_spec; auto with bytes.
  - apply match_16_spec; auto with bytes.
  - rewrite andb_true_iff, match_16_spec, match_8_spec by auto with bytes.
    symmetry. etrans; [apply (masked_eq_app 2 1) |]. by rewrite masked_eq_ones, drop_ones by lia.
  - apply match_32_spec; auto with bytes.
  - rewrite andb_true_iff, match_32_spec, match_16_spec by auto with bytes.
    symmetry. etrans; [apply (masked_eq_app 4 2) |]. by rewrite masked_eq_ones, drop_ones by lia.
  - apply match_64_spec; auto with bytes.
  - rewrite andb_true_iff, !match_64_spec by auto with bytes.
    symmetry. etrans; [apply (masked_eq_app 8 8) |]. by rewrite masked_eq_ones, drop_ones by lia.
Qed.


(** * Packets against flow entries *)

(** What every header of a known field is like. *)
Definition header_shape (h : Z) : Prop :=
  field_len h ∈ lengths /\ in_range 32 (packet_header h) /\
  OXM_LENGTH (packet_header h) = field_len h /\
  OXM_LENGTH h = field_len h * (if OXM_HASMASK h then 2 else 1) /\
  (packet_header h = OXM_OF_VLAN_VID \/ packet_header h = OXM_OF_IPV6_EXTHDR -> field_len h = 2).

Lemma known_headers : Forall (fun f => header_shape (f_header f)) all_fields.
Proof. unfold header_shape, in_range. apply (bool_decide_unpack _). by vm_compute. Qed.

Lemma known_header t : tlv_ok t -> header_shape (header t).
Proof.
  intros [(f & Hf & <-) _]. pose proof known_headers as H. rewrite Forall_forall in H. by apply H.
Qed.

(** A TLV whose value has at least the bytes its header says. *)
Definition tlv_readable (t : ofl_match_tlv) : Prop :=
  bytes_ok (value t) /\ OXM_LENGTH (header t) <= length (value t).

Lemma tlv_ok_readable t : tlv_ok t -> tlv_readable t.
Proof.
  intros [_ [Hb Hl]]. split; [done |]. destruct Hl as [Hl | [[-> Hl] | [-> Hl]]].
  - lia.
  - rewrite Hl. by vm_compute.
  - rewrite Hl. by vm_compute.
Qed.

(** The fields of a packet: well-formed, each with all its bytes. *)
Definition packet_ok (pkt : ofl_match) : Prop := m_wf pkt /\ Forall tlv_readable (tlvs pkt).

(** The mask of a field: all ones if it has none. *)
Definition mask_of (t : ofl_match_tlv) : list Z :=
  if OXM_HASMASK (header t) then drop (Z.to_nat (field_len (header t))) (value t)
  else ones (Z.to_nat (field_len (header t))).

(** The bytes of the field [h] of a packet. *)
Definition pkt_value (h : Z) (pkt : ofl_match) : option (list Z) :=
  value <$> head (filter (fun t => header t = h) (tlvs pkt)).

(** What the code accepts, field by field. *)
Definition field_accepted (t : ofl_match_tlv) (pkt : ofl_match) : Prop :=
  let h := packet_header (header t) in
  match pkt_value h pkt with
  | None => header t = OXM_OF_VLAN_VID /\ rd16 (value t) = OFPVID_NONE
  | Some v =>
      if h =? OXM_OF_VLAN_VID then
        rd16 (value t) <> OFPVID_NONE /\
        (rd16 (value t) = OFPVID_PRESENT \/
         masked_eq 2 (le_store 2 (Z.land (rd16 (value t)) VLAN_VID_MASK)) (mask_of t) v)
      else if h =? OXM_OF_IPV6_EXTHDR then
        forall i, 0 <= i -> Z.testbit (rd16 (value t)) i = true -> Z.testbit (rd16 v) i = true
      else masked_eq (Z.to_nat (field_len (header t))) (value t) (mask_of t) v
  end.

Lemma land_subset a b : Z.land a b = a <-> forall i, 0 <= i -> Z.testbit a i = true -> Z.testbit b i = true.
Proof.
  split.
  - intros H i Hi Ha. rewrite <- H, Z.land_spec in Ha. by apply andb_true_iff in Ha as [_ ?].
  - intros H. apply Z.bits_inj'. intros i Hi. rewrite Z.land_spec. specialize (H i Hi).
    destruct (Z.testbit a i); [by rewrite H | done].
Qed.

(** The switch of [packet_match_field] on a known header. *)
Lemma packet_match_field_switch t pkt p :
  header_shape (header t) -> oxm_match_lookup (packet_header (header t)) pkt = Some p ->
  let h := packet_header (header t) in let L := field_len (header t) in
  let k := drop (Z.to_nat L) (value t) in
  let cmp a := if OXM_HASMASK (header t) then match_mask_by_len L a k (value p)
               else match_by_len L a (value p) in
  packet_match_field t pkt =
    if h =? OXM_OF_VLAN_VID then
      if rd16 (value t) =? OFPVID_NONE then false
      else if rd16 (value t) =? OFPVID_PRESENT then true
      else cmp (le_store 2 (Z.land (rd16 (value t)) VLAN_VID_MASK))
    else if h =? OXM_OF_IPV6_EXTHDR then Z.land (rd16 (value t)) (rd16 (value p)) =? rd16 (value t)
    else cmp (value t).
Proof.
  intros (HL & _ & _ & _ & H2) Hp h L k cmp. unfold packet_match_field. rewrite Hp. fold h L k. fold h L in H2.
  unfold cmp, match_mask_by_len, match_by_len.
  destruct (Z.eqb_spec h OXM_OF_VLAN_VID) as [He | He]; [by rewrite (H2 (or_introl He)) |].
  destruct (Z.eqb_spec h OXM_OF_IPV6_EXTHDR) as [He' | He']; [by rewrite (H2 (or_intror He')) |].
  unfold lengths in HL. rewrite !elem_of_cons in HL. fold L in HL.
  by destruct HL as [-> | [-> | [-> | [-> | [-> | [-> | [-> | []%elem_of_nil]]]]]]].
Qed.

Lemma packet_match_field_spec t pkt :
  header_shape (header t) -> tlv_readable t -> packet_ok pkt ->
  packet_match_field t pkt = true <-> field_accepted t pkt.
Proof.
  intros Hs [Hv Hlv] [Hwf Hpk]. pose proof Hs as (HL & Hr & Hlen & Hlen2 & H2).
  unfold field_accepted, pkt_value. rewrite <- oxm_match_lookup_head by done.
  destruct (oxm_match_lookup _ pkt) as [p |] eqn:Hp; cbn [fmap option_fmap option_map].
  2:{ unfold packet_match_field. rewrite Hp, andb_true_iff, !Z.eqb_eq. done. }
  rewrite (packet_match_field_switch t pkt p Hs Hp).
  apply oxm_match_lookup_Some in Hp as [Hin Hhp]; [| done | done].
  rewrite Forall_forall in Hpk. destruct (Hpk p Hin) as [Hbp Hlp]. rewrite Hhp, Hlen in Hlp.
  assert (forall a, bytes_ok a -> field_len (header t) <= length a ->
    (if OXM_HASMASK (header t)
     then match_mask_by_len (field_len (header t)) a (drop (Z.to_nat (field_len (header t))) (value t)) (value p)
     else match_by_len (field_len (header t)) a (value p)) = true <->
    masked_eq (Z.to_nat (field_len (header t))) a (mask_of t) (value p)) as Hcmp.
  { intros a Ha Hla. unfold mask_of. destruct (OXM_HASMASK (header t)).
    - apply match_mask_by_len_spec; auto with bytes.
    - by apply match_by_len_spec. }
  destruct (Z.eqb_spec (packet_header (header t)) OXM_OF_VLAN_VID) as [He | He];
    [| destruct (Z.eqb_spec (packet_header (header t)) OXM_OF_IPV6_EXTHDR)].
  - specialize (H2 (or_introl He)). rewrite H2 in Hcmp.
    specialize (Hcmp (le_store 2 (Z.land (rd16 (value t)) VLAN_VID_MASK)) (le_store_ok _ _) ltac:(by rewrite le_store_length)).
    change (Z.to_nat 2) with 2%nat in Hcmp. rewrite <- Hcmp, H2.
    destruct (Z.eqb_spec (rd16 (value t)) OFPVID_NONE); [naive_solver |].
    destruct (Z.eqb_spec (rd16 (value t)) OFPVID_PRESENT); naive_solver.
  - rewrite Z.eqb_eq. apply land_subset.
  - apply Hcmp; [done |]. destruct (OXM_HASMASK (header t)); lia.
Qed.


(** A flow entry's match as the decoder leaves it. *)
Definition flow_ok (m : ofl_match) : Prop := m_ok m /\ (mlength m = 0 -> tlvs m = []).

Lemma match_elems m : m_wf m -> hmap_elems (match_fields m) = tlvs m.
Proof.
  intros [Hwf _]. unfold hmap_elems, tlvs. rewrite hmap_for_each_nodes; [done | done |].
  rewrite (wf_count _ Hwf). lia.
Qed.

Lemma forallb_iff {A} (f : A -> bool) (P : A -> Prop) l :
  (forall x, x ∈ l -> f x = true <-> P x) -> forallb f l = true <-> (forall x, x ∈ l -> P x).
Proof.
  intros H. rewrite forallb_forall. split; intros Hx x Hin.
  - apply H; [done |]. apply Hx. by apply list_elem_of_In.
  - apply list_elem_of_In in Hin. apply H; auto.
Qed.

Lemma packet_match_spec flow pkt :
  flow_ok flow -> packet_ok pkt ->
  packet_match flow pkt = true <-> (forall t, t ∈ tlvs flow -> field_accepted t pkt).
Proof.
  intros [(Hwf & Hts & _) H0] Hp. unfold packet_match.
  destruct (Z.eqb_spec (mlength flow) 0) as [Hz |].
  - rewrite (H0 Hz). split; [intros _ t []%elem_of_nil | done].
  - rewrite match_elems by done. apply forallb_iff. intros t Ht. rewrite Forall_forall in Hts.
    apply packet_match_field_spec; [by apply known_header, Hts | by apply tlv_ok_readable, Hts | done].
Qed.

Lemma match_unpack_ok src_length buf len addr m len' :
  bytes_ok buf -> 0 <= src_length <= 65535 ->
  ofl_structs_oxm_match_unpack src_length buf len addr = (m, len', 0) ->
  flow_ok m /\ len' = u64 (len - ROUND_UP src_length 8).
Proof.
  intros Hb Hl. unfold ofl_structs_oxm_match_unpack. destruct (Z.ltb_spec 8 src_length).
  - destruct (oxm_pull_match _ _ addr) as [m0 e] eqn:Hm. intros ?; simplify_eq.
    apply pull_match_ok in Hm; [| by apply bytes_ok_take | lia].
    split; [| done]. split; [done |]. cbn [mlength]. rewrite wrap_small by (unfold in_range; lia). lia.
  - intros ?; simplify_eq. destruct match_init_wf as [Hwf Ht].
    split; [| done]. split; [| done]. split_and!; [done | rewrite Ht; constructor |].
    unfold headers_unique. rewrite Ht. apply NoDup_nil_2.
Qed.

(** Every match the decoder accepts is a well-formed flow match: known fields
    with all their bytes, no header twice (IN_PHY_PORT apart), and a header length
    of zero only when there are no fields. *)
Theorem match_unpack_flow_ok src_length buf len addr m len' :
  bytes_ok buf -> 0 <= src_length <= 65535 ->
  ofl_structs_oxm_match_unpack src_length buf len addr = (m, len', 0) ->
  flow_ok m /\ len' = u64 (len - ROUND_UP src_length 8).
Proof. apply match_unpack_ok. Qed.


(** The match the decoder makes of ETH_TYPE = IPv4, IPV4_DST = 10.0.0.0/8. *)
Definition demo_flow : ofl_match := fst (fst (ofl_structs_oxm_match_unpack 22 demo_oxm 24 0)).

(** A packet to 10.1.2.3. *)
Definition demo_packet : ofl_match :=
  match_put (match_put ofl_structs_match_init OXM_OF_ETH_TYPE [0x00; 0x08] 2) OXM_OF_IPV4_DST [10; 1; 2; 3] 4.

Lemma match_unpack_flow_ok_witness : flow_ok demo_flow.
Proof.
  refine (proj1 (match_unpack_flow_ok 22 demo_oxm 24 0 demo_flow 0 _ _ _)).
  - apply (bool_decide_unpack _). by vm_compute.
  - lia.
  - vm_compute. reflexivity.
Defined.

Lemma put_packet_ok m h bs len :
  packet_ok m -> in_range 32 h -> n (match_fields m) + 1 < 2 ^ 64 -> tlv_readable (TLV h bs) ->
  packet_ok (match_put m h bs len).
Proof.
  intros [Hwf Hr] Hh Hn Ht. destruct (match_put_wf m h bs len Hwf Hh Hn) as (Hwf' & Hp & _).
  split; [done |]. rewrite Hp. by constructor.
Qed.

Lemma init_packet_ok : packet_ok ofl_structs_match_init.
Proof. destruct match_init_wf as [Hwf Ht]. split; [done |]. rewrite Ht. constructor. Qed.

Ltac readable := split; [apply (bool_decide_unpack _); by vm_compute | by vm_compute].

Lemma demo_packet_ok : packet_ok demo_packet.
Proof.
  apply put_packet_ok; [apply put_packet_ok; [apply init_packet_ok | ..] | ..];
    first [(by vm_compute) | readable | (split; by vm_compute)].
Qed.

Lemma load_in_range n a : bytes_ok a -> in_range (8 * Z.of_nat n) (le_load (take n a)).
Proof.
  intros Ha. pose proof (le_load_range (take n a) (bytes_ok_take n a Ha)) as [H1 H2]. split; [done |]. eapply Z.lt_le_trans; [exact H2 |].
  apply Z.pow_le_mono_r; [lia |]. rewrite length_take. lia.
Qed.

Lemma pkt_value_ok h pkt v : Forall tlv_readable (tlvs pkt) -> pkt_value h pkt = Some v -> bytes_ok v.
Proof.
  intros Hpk Hv. unfold pkt_value in Hv. destruct (head _) as [x |] eqn:Hx; [| done]. injection Hv as <-. apply head_Some in Hx as [l' Hl'].
  rewrite Forall_forall in Hpk. apply Hpk. assert (Hin : x ∈ filter (fun t => header t = h) (tlvs pkt)) by (rewrite Hl'; by left).
  by apply list_elem_of_filter in Hin as [_ ?].
Qed.

(** ** What OpenFlow asks of a field *)

(** The value OpenFlow gives a field of a packet: for VLAN_VID the identifier with the bit OFPVID_PRESENT,
    OFPVID_NONE without a tag; for the others the bytes of the header. *)
Definition oxm_value (h : Z) (pkt : ofl_match) : option (list Z) :=
  if h =? OXM_OF_VLAN_VID then
    Some (le_store 2 (match pkt_value h pkt with Some v => Z.lor OFPVID_PRESENT (rd16 v) | None => OFPVID_NONE end))
  else pkt_value h pkt.

(** The packet has the field and its value agrees with that of the entry where the mask has ones. *)
Definition field_satisfied (t : ofl_match_tlv) (pkt : ofl_match) : Prop :=
  exists v, oxm_value (packet_header (header t)) pkt = Some v /\
    masked_eq (Z.to_nat (field_len (header t))) (value t) (mask_of t) v.

(** The fields whose comparison is not special, and of the special ones: VLAN_VID exactly "none", or with the
    bit OFPVID_PRESENT asked for and, if no identifier is given, none asked for; IPV6_EXTHDR when the
    extension headers it asks about are all to be there. *)
Definition comparable (t : ofl_match_tlv) : Prop :=
  let v := rd16 (value t) in let k := rd16 (mask_of t) in
  (packet_header (header t) = OXM_OF_VLAN_VID ->
    (header t = OXM_OF_VLAN_VID /\ v = OFPVID_NONE) \/
    (0x1000 <= v <= 0x1fff /\ Z.testbit k 12 = true /\ (v = OFPVID_PRESENT -> Z.land k VLAN_VID_MASK = 0))) /\
  (packet_header (header t) = OXM_OF_IPV6_EXTHDR -> v = k).

(** The identifier of a tag has 12 bits (nbee_link.cpp keeps them). *)
Definition vid_ok (pkt : ofl_match) : Prop :=
  forall v, pkt_value OXM_OF_VLAN_VID pkt = Some v -> rd16 v <= VLAN_VID_MAX.

Lemma masked_eq_word a k b : bytes_ok a -> bytes_ok k -> bytes_ok b ->
  masked_eq 2 a k b <-> Z.land (rd16 k) (Z.lxor (rd16 a) (rd16 b)) = 0.
Proof. intros Ha Hk Hb. rewrite <- match_mask16_spec by done. unfold match_mask16. apply Z.eqb_eq. Qed.

Lemma rd16_store z : rd16 (le_store 2 z) = u16 z.
Proof. unfold rd16. rewrite take_ge by (by rewrite le_store_length). apply (le_load_store 2). Qed.

Lemma rd16_range a : bytes_ok a -> 0 <= rd16 a < 65536.
Proof. intros Ha. apply (load_in_range 2 a Ha). Qed.

Lemma mask_of_ok t : bytes_ok (value t) -> bytes_ok (mask_of t).
Proof. intros Hv. unfold mask_of, ones. destruct (OXM_HASMASK _); [by apply bytes_ok_drop |]. apply Forall_replicate. split; by vm_compute. Qed.

Lemma present_bit i : Z.testbit OFPVID_PRESENT i = (12 =? i).
Proof. change OFPVID_PRESENT with (2 ^ 12). apply Z.pow2_bits_eqb. lia. Qed.

Lemma vid_split v : 0x1000 <= v <= 0x1fff ->
  exists lo, in_range 12 lo /\ v = Z.lor OFPVID_PRESENT lo /\ Z.land v VLAN_VID_MASK = lo.
Proof.
  intros Hv. exists (v - 0x1000). assert (Hr : in_range 12 (v - 0x1000)) by (unfold in_range; change (2 ^ 12) with 0x1000; lia). split_and!; [done | |].
  - change OFPVID_PRESENT with (1 * 2 ^ 12). rewrite lor_low_add by (done || lia). change (1 * 2 ^ 12) with 0x1000. lia.
  - change VLAN_VID_MASK with (Z.ones 12). rewrite Z.land_ones by lia. change (2 ^ 12) with 0x1000. symmetry. apply (Z.mod_unique v 0x1000 1); lia.
Qed.

Lemma present_lxor a b : in_range 12 a -> in_range 12 b ->
  Z.lxor (Z.lor OFPVID_PRESENT a) (Z.lor OFPVID_PRESENT b) = Z.lxor a b.
Proof.
  intros Ha Hb. apply Z.bits_inj'. intros i Hi. rewrite !Z.lxor_spec, !Z.lor_spec, present_bit. destruct (Z.eqb_spec 12 i) as [<- | _]; [| done].
  by rewrite !(in_range_testbit 12) by (done || lia).
Qed.

(** An identifier under a mask with the bit OFPVID_PRESENT. *)
Lemma vid_untagged k v : Z.testbit k 12 = true -> 0x1000 <= v <= 0x1fff -> Z.land k v <> 0.
Proof.
  intros Hk (lo & _ & -> & _)%vid_split H0. assert (Hf : Z.testbit (Z.land k (Z.lor OFPVID_PRESENT lo)) 12 = false) by (rewrite H0; apply Z.bits_0).
  by rewrite Z.land_spec, Z.lor_spec, present_bit, Hk in Hf.
Qed.

Lemma vid_tagged k v w : in_range 12 w -> 0x1000 <= v <= 0x1fff -> (v = OFPVID_PRESENT -> Z.land k VLAN_VID_MASK = 0) ->
  Z.land k (Z.lxor v (Z.lor OFPVID_PRESENT w)) = 0 <-> v = OFPVID_PRESENT \/ Z.land k (Z.lxor (Z.land v VLAN_VID_MASK) w) = 0.
Proof.
  intros Hw (lo & Hlo & Hv & Hl)%vid_split Hp. rewrite Hl, Hv, present_lxor by done. split; [by right |]. intros [Heq | ?]; [| done].
  rewrite <- Hv in Heq. specialize (Hp Heq). assert (lo = 0) as -> by (rewrite <- Hl, Heq; done). rewrite Z.lxor_0_l.
  assert (w = Z.land VLAN_VID_MASK w) as ->; [| by rewrite Z.land_assoc, Hp].
  rewrite Z.land_comm. change VLAN_VID_MASK with (Z.ones 12). rewrite Z.land_ones by lia. symmetry. by apply Z.mod_small.
Qed.

Lemma subset_word a b : Z.land a (Z.lxor a b) = 0 <-> forall i, 0 <= i -> Z.testbit a i = true -> Z.testbit b i = true.
Proof.
  split.
  - intros H i Hi Ha. assert (Hf : Z.testbit (Z.land a (Z.lxor a b)) i = false) by (by rewrite H, Z.bits_0).
    rewrite Z.land_spec, Z.lxor_spec, Ha in Hf. by destruct (Z.testbit b i).
  - intros H. apply Z.bits_inj'. intros i Hi. rewrite Z.land_spec, Z.lxor_spec, Z.bits_0. specialize (H i Hi).
    destruct (Z.testbit a i); [by rewrite H | done].
Qed.

Lemma vlan_satisfied t pkt : bytes_ok (value t) -> packet_ok pkt -> vid_ok pkt -> comparable t ->
  packet_header (header t) = OXM_OF_VLAN_VID -> field_len (header t) = 2 -> field_accepted t pkt <-> field_satisfied t pkt.
Proof.
  intros Hb [_ Hpk] Hvid [Hc _] He HL. specialize (Hc He). pose proof (mask_of_ok t Hb) as Hk. unfold field_accepted, field_satisfied, oxm_value.
  rewrite He, HL, Z.eqb_refl. change (Z.to_nat 2) with 2%nat.
  assert (Hsat : forall z, 0 <= z < 65536 -> (exists v, Some (le_store 2 z) = Some v /\ masked_eq 2 (value t) (mask_of t) v) <->
    Z.land (rd16 (mask_of t)) (Z.lxor (rd16 (value t)) z) = 0).
  { intros z Hz. transitivity (masked_eq 2 (value t) (mask_of t) (le_store 2 z)).
    - split; [by intros (v & [= <-] & Hm) | by eexists].
    - rewrite masked_eq_word, rd16_store, wrap_small by (done || apply le_store_ok). done. }
  destruct (pkt_value OXM_OF_VLAN_VID pkt) as [v |] eqn:Hv.
  - assert (Hbv : bytes_ok v) by (by eapply pkt_value_ok).
    specialize (Hvid v Hv). unfold VLAN_VID_MAX in Hvid. pose proof (rd16_range v Hbv) as Hr.
    assert (Hw : in_range 12 (rd16 v)) by (unfold in_range; change (2 ^ 12) with 4096; lia).
    assert (Hor : Z.lor OFPVID_PRESENT (rd16 v) = 0x1000 + rd16 v) by (by apply (lor_low_add 1 (rd16 v) 12)).
    rewrite Hsat by (rewrite Hor; lia).
    destruct Hc as [[Hh H0] | (Hv' & Hk12 & Hp)].
    + rewrite H0. split; [by intros [? _] |]. intros Hm. exfalso. assert (Hone : mask_of t = ones 2) by (unfold mask_of; rewrite HL, Hh; reflexivity).
      rewrite Hone in Hm. change (rd16 (ones 2)) with (Z.ones 16) in Hm. change OFPVID_NONE with 0 in Hm. rewrite Z.lxor_0_l, Z.land_comm, Z.land_ones, Hor in Hm by lia.
      rewrite Z.mod_small in Hm by (change (2 ^ 16) with 65536; lia). lia.
    + rewrite vid_tagged, masked_eq_word, rd16_store, wrap_small by (done || apply le_store_ok || (apply (in_range_land 16); [lia | apply (rd16_range _ Hb) | by vm_compute])).
      unfold OFPVID_NONE. split; [tauto |]. intros ?. split; [lia | done].
  - rewrite Hsat by (by vm_compute). change OFPVID_NONE with 0. rewrite Z.lxor_0_r. destruct Hc as [[Hh H0] | (Hv' & Hk12 & Hp)].
    + rewrite H0. change OFPVID_NONE with 0. rewrite Z.land_0_r. tauto.
    + split; [intros [_ H0]; lia |]. intros H0. by destruct (vid_untagged _ _ Hk12 Hv').
Qed.

Lemma accepted_satisfied t pkt : tlv_ok t -> packet_ok pkt -> vid_ok pkt -> comparable t -> field_accepted t pkt <-> field_satisfied t pkt.
Proof.
  intros Ht Hp Hvid Hc. pose proof (known_header t Ht) as (_ & _ & _ & _ & H2). destruct (tlv_ok_readable t Ht) as [Hb _].
  destruct (decide (packet_header (header t) = OXM_OF_VLAN_VID)) as [He | Hne]; [by apply vlan_satisfied; auto |].
  assert (Hh : header t <> OXM_OF_VLAN_VID) by (intros Heq; apply Hne; by rewrite Heq).
  unfold field_accepted, field_satisfied, oxm_value. rewrite (proj2 (Z.eqb_neq _ _) Hne).
  destruct (pkt_value _ pkt) as [v |] eqn:Hv; [| split; [by intros [? _] | by intros (v & [=] & _)]].
  transitivity (masked_eq (Z.to_nat (field_len (header t))) (value t) (mask_of t) v); [| split; [by eexists | by intros (x & [= <-] & Hm)]].
  destruct (Z.eqb_spec (packet_header (header t)) OXM_OF_IPV6_EXTHDR) as [He | _]; [| done].
  rewrite (H2 (or_intror He)). change (Z.to_nat 2) with 2%nat. assert (Hbv : bytes_ok v) by (eapply pkt_value_ok; [apply Hp | exact Hv]).
  rewrite masked_eq_word by (done || by apply mask_of_ok). rewrite <- (proj2 Hc He). symmetry. apply subset_word.
Qed.

(** C6. [packet_match] decides what OpenFlow asks: a packet matches a flow entry the decoder accepted
    exactly when it has each of its fields with the value of the entry, byte by byte, where the mask has
    ones; VLAN_VID of a packet has the bit OFPVID_PRESENT and is OFPVID_NONE without a tag. This is for
    every field but some values and masks of VLAN_VID and IPV6_EXTHDR ([comparable]); there the code
    differs, see [vlan_and_exthdr_deviate]. *)
Theorem packet_match_correct flow pkt :
  flow_ok flow -> packet_ok pkt -> vid_ok pkt -> Forall comparable (tlvs flow) ->
  packet_match flow pkt = true <-> (forall t, t ∈ tlvs flow -> field_satisfied t pkt).
Proof.
  intros Hf Hp Hv Hc. rewrite (packet_match_spec flow pkt Hf Hp). destruct Hf as [(_ & Hts & _) _]. rewrite Forall_forall in Hc, Hts.
  split; intros H t Ht; [apply accepted_satisfied | apply (accepted_satisfied t pkt)]; auto.
Qed.

Lemma demo_flow_ok : flow_ok demo_flow.
Proof.
  destruct (match_unpack_ok 22 demo_oxm 24 0 demo_flow 0) as [H _]; [| lia | by vm_compute | done].
  apply (bool_decide_unpack _). by vm_compute.
Qed.

Lemma demo_comparable : Forall comparable (tlvs demo_flow).
Proof.
  assert (Hh : forall h, h ∈ header <$> tlvs demo_flow -> h = OXM_OF_IPV4_DST_W \/ h = OXM_OF_ETH_TYPE).
  { assert (header <$> tlvs demo_flow = [OXM_OF_ETH_TYPE; OXM_OF_IPV4_DST_W]) as -> by (by vm_compute). intros h. rewrite !elem_of_cons, elem_of_nil. tauto. }
  apply Forall_forall. intros t Ht. destruct (Hh (header t)) as [He | He]; [by apply list_elem_of_fmap_2 | |]; split; rewrite He; by vm_compute.
Qed.

Lemma packet_match_correct_witness :
  packet_match demo_flow demo_packet = true /\
  (forall t, t ∈ tlvs demo_flow -> field_satisfied t demo_packet).
Proof.
  split; [by vm_compute |].
  apply (packet_match_correct demo_flow demo_packet demo_flow_ok demo_packet_ok); [by vm_compute | apply demo_comparable | by vm_compute].
Defined.


(** * Flow entries without masks against each other *)

(** The first bytes decide, and the rest of a value does not matter. *)
Lemma masked_eq_ones_take L a b :
  bytes_ok a -> bytes_ok b -> (L <= length a)%nat -> (L <= length b)%nat ->
  masked_eq L a (ones L) b <-> take L a = take L b.
Proof.
  intros Ha Hb Hla Hlb. rewrite <- word_eq by done. split; [| by intros ->].
  apply le_load_inj; [by apply bytes_ok_take | by apply bytes_ok_take |]. rewrite !length_take. lia.
Qed.

Section unmasked.
Context (t : ofl_match_tlv) (b : ofl_match).
Context (Ht : tlv_ok t) (Hm : OXM_HASMASK (header t) = false) (Hb : flow_ok b).

Lemma unmasked_len : field_len (header t) = OXM_LENGTH (header t).
Proof. unfold field_len. by rewrite Hm. Qed.

Lemma unmasked_range : in_range 32 (header t).
Proof. destruct (known_header t Ht) as (_ & Hr & _). unfold packet_header in Hr. by rewrite Hm in Hr. Qed.

(** The loops of the strict and the non-strict comparison do the same for a field
    without mask: the other entry must have it with the same bytes. *)
Definition same_field : Prop :=
  exists e, e ∈ tlvs b /\ header e = header t /\
    take (Z.to_nat (field_len (header t))) (value t) = take (Z.to_nat (field_len (header t))) (value e).

Lemma exact_field (f : ofl_match_tlv -> ofl_match -> bool) :
  f t b = match oxm_match_lookup (header t) b with
          | None => false | Some e => match_by_len (field_len (header t)) (value t) (value e) end ->
  f t b = true -> same_field.
Proof.
  intros -> Hf. destruct (oxm_match_lookup (header t) b) as [e |] eqn:He; [| done].
  destruct Hb as [(Hwf & Hts & _) _].
  apply oxm_match_lookup_Some in He as [Hin Hh]; [| done | apply unmasked_range].
  exists e. split_and!; [done | done |]. rewrite Forall_forall in Hts.
  destruct (tlv_ok_readable e (Hts e Hin)) as [Hbe Hle], (tlv_ok_readable t Ht) as [Hbt Hlt].
  destruct (known_header t Ht) as (HL & _). rewrite Hh in Hle. pose proof unmasked_len.
  rewrite match_by_len_spec in Hf by (done || lia).
  by rewrite masked_eq_ones_take in Hf by (done || lia).
Qed.

Lemma exact_field_conv (f : ofl_match_tlv -> ofl_match -> bool) :
  f t b = match oxm_match_lookup (header t) b with
          | None => false | Some e => match_by_len (field_len (header t)) (value t) (value e) end ->
  oxm_match_lookup (header t) b = Some t -> f t b = true.
Proof.
  intros -> ->. destruct (tlv_ok_readable t Ht) as [Hbt Hlt]. pose proof unmasked_len.
  destruct (known_header t Ht) as (HL & _).
  apply match_by_len_spec; try (done || lia). by apply masked_eq_ones_take; (done || lia).
Qed.

Lemma strict_field_exact :
  strict_field t b = match oxm_match_lookup (header t) b with
          | None => false | Some e => match_by_len (field_len (header t)) (value t) (value e) end.
Proof.
  unfold strict_field. rewrite Hm. destruct (oxm_match_lookup (header t) b); [| done].
  destruct (known_header t Ht) as (HL & _). unfold lengths in HL. rewrite !elem_of_cons in HL.
  by destruct HL as [-> | [-> | [-> | [-> | [-> | [-> | [-> | []%elem_of_nil]]]]]]].
Qed.

Lemma nonstrict_field_exact :
  nonstrict_field t b = match oxm_match_lookup (header t) b with
          | None => false | Some e => match_by_len (field_len (header t)) (value t) (value e) end.
Proof.
  unfold nonstrict_field. rewrite Hm. destruct (oxm_match_lookup (header t) b); [| done].
  destruct (known_header t Ht) as (HL & _). unfold lengths in HL. rewrite !elem_of_cons in HL.
  by destruct HL as [-> | [-> | [-> | [-> | [-> | [-> | [-> | []%elem_of_nil]]]]]]].
Qed.
End unmasked.

Lemma take_nth_eq (L j : nat) (a b : list Z) :
  take L a = take L b -> (j < L)%nat -> nth j a 0 = nth j b 0.
Proof. intros H Hj. by rewrite <- (nth_take L j a), <- (nth_take L j b), H. Qed.

(** Two fields with the same header and bytes ask the same of a packet. *)
Lemma field_accepted_same t e pkt :
  header_shape (header t) -> OXM_HASMASK (header t) = false -> header e = header t ->
  take (Z.to_nat (field_len (header t))) (value t) = take (Z.to_nat (field_len (header t))) (value e) ->
  field_accepted e pkt -> field_accepted t pkt.
Proof.
  intros Hs Hm Hh Hv. unfold field_accepted, mask_of. rewrite Hh, Hm.
  assert (packet_header (header t) = OXM_OF_VLAN_VID \/ packet_header (header t) = OXM_OF_IPV6_EXTHDR ->
          rd16 (value t) = rd16 (value e)) as H16.
  { intros Hc. destruct Hs as (_ & _ & _ & _ & H2). rewrite (H2 Hc) in Hv. unfold rd16. by f_equal. }
  destruct (pkt_value _ pkt) as [v |].
  - destruct (Z.eqb_spec (packet_header (header t)) OXM_OF_VLAN_VID); [rewrite H16 by auto; done |].
    destruct (Z.eqb_spec (packet_header (header t)) OXM_OF_IPV6_EXTHDR); [rewrite H16 by auto; done |].
    intros H j Hj. specialize (H j Hj). by rewrite (take_nth_eq _ _ _ _ Hv Hj).
  - intros [Hc Hz]. split; [done |]. rewrite H16; [done |]. left. unfold packet_header. by rewrite Hm.
Qed.

Definition unmasked (m : ofl_match) : Prop := Forall (fun t => OXM_HASMASK (header t) = false) (tlvs m).

(** Without masks and with the lengths on the wire, so that the header length
    counts the fields. *)
Definition plain (m : ofl_match) : Prop :=
  flow_ok m /\ unmasked m /\ NoDup (header <$> tlvs m) /\
  Forall (fun t => Z.of_nat (length (value t)) = OXM_LENGTH (header t)) (tlvs m) /\
  mlength m = foldr (fun t s => 4 + OXM_LENGTH (header t) + s) 0 (tlvs m).


Definition wire_len (ts : list ofl_match_tlv) : Z := foldr (fun t s => 4 + OXM_LENGTH (header t) + s) 0 ts.

Lemma wire_len_perm l1 l2 : l1 ≡ₚ l2 -> wire_len l1 = wire_len l2.
Proof. induction 1; simpl; lia. Qed.

Lemma wire_len_app l1 l2 : wire_len (l1 ++ l2) = wire_len l1 + wire_len l2.
Proof. induction l1; simpl; lia. Qed.

Lemma OXM_LENGTH_nonneg h : 0 <= OXM_LENGTH h.
Proof. unfold OXM_LENGTH. apply Z.land_nonneg. lia. Qed.

Lemma wire_len_zero l : wire_len l <= 0 -> l = [].
Proof.
  destruct l as [| t l]; [done |]. simpl. pose proof (OXM_LENGTH_nonneg (header t)).
  assert (0 <= wire_len l); [| lia].
  induction l as [| u l IH]; simpl; [lia |]. pose proof (OXM_LENGTH_nonneg (header u)). lia.
Qed.

Lemma same_field_elem a b t :
  plain a -> plain b -> t ∈ tlvs a -> same_field t b -> t ∈ tlvs b.
Proof.
  intros (_ & Hma & _ & Hla & _) (_ & _ & _ & Hlb & _) Ht (e & He & Hh & Hv).
  unfold unmasked in Hma. rewrite Forall_forall in Hma, Hla, Hlb.
  specialize (Hma t Ht). specialize (Hla t Ht). specialize (Hlb e He).
  rewrite (unmasked_len t Hma), !take_ge in Hv by (rewrite ?Hh in Hlb; lia).
  destruct t, e; simpl in *. by subst.
Qed.

(** Strict comparison of entries without masks is equality of their fields:
    equal lengths and every field of the first found with the same value in the
    second leave no further field in the second. *)
Theorem match_std_strict_plain a b :
  plain a -> plain b -> match_std_strict a b = true <-> tlvs a ≡ₚ tlvs b.
Proof.
  intros Ha Hb. pose proof Ha as (Hoa & Hma & Hna & _ & Hwa). pose proof Hb as (Hob & _ & Hnb & _ & Hwb).
  change (mlength a = wire_len (tlvs a)) in Hwa. change (mlength b = wire_len (tlvs b)) in Hwb.
  pose proof Hoa as [(Hwfa & Hta & _) _]. pose proof Hob as [(Hwfb & _) _].
  unfold unmasked in Hma. rewrite Forall_forall in Hma, Hta.
  unfold match_std_strict. rewrite match_elems by done. split.
  - destruct (Z.eqb_spec (mlength a) 0) as [H0 |].
    + destruct (Z.eqb_spec (mlength b) 0) as [H0' |]; [intros _ |]; simpl; [| by rewrite H0; destruct (Z.eqb_spec 0 (mlength b))].
      rewrite H0 in Hwa. rewrite H0' in Hwb. by rewrite (wire_len_zero (tlvs a)), (wire_len_zero (tlvs b)) by lia.
    + simpl. destruct (Z.eqb_spec (mlength a) (mlength b)) as [He |]; [simpl | done].
      intros Hf. rewrite forallb_forall in Hf.
      assert (tlvs a ⊆+ tlvs b) as (c & Hc)%submseteq_Permutation.
      { apply NoDup_submseteq; [by apply NoDup_fmap_1 in Hna |]. intros t Ht.
        apply (same_field_elem a); [done .. |].
        eapply (exact_field t b (Hta t Ht) (Hma t Ht) Hob strict_field);
          [apply (strict_field_exact t b (Hta t Ht) (Hma t Ht)) | by apply Hf, list_elem_of_In]. }
      assert (c = []) as ->; [| by rewrite app_nil_r in Hc].
      apply wire_len_zero. pose proof (wire_len_perm _ _ Hc) as Hw. rewrite wire_len_app in Hw. lia.
  - intros Hp. rewrite <- (wire_len_perm _ _ Hp), <- Hwa in Hwb. rewrite Hwb, Z.eqb_refl. simpl.
    destruct (_ && _); [done |]. apply forallb_forall. intros t Ht%list_elem_of_In.
    eapply (exact_field_conv t b (Hta t Ht) (Hma t Ht));
      [apply (strict_field_exact t b (Hta t Ht) (Hma t Ht)) |].
    apply oxm_match_lookup_unique; [done | by apply unmasked_range; auto | done | by rewrite <- Hp | done].
Qed.

(** Non-strict comparison is sound for entries without masks: if [a] is found
    to match [b] non-strictly, every packet that matches [b] matches [a]. *)
Theorem match_std_nonstrict_sound a b pkt :
  flow_ok a -> unmasked a -> flow_ok b -> packet_ok pkt ->
  match_std_nonstrict a b = true -> packet_match b pkt = true -> packet_match a pkt = true.
Proof.
  intros Ha Hma Hb Hpk Hn. rewrite !packet_match_spec by done. intros Hs t Ht.
  pose proof Ha as [(Hwf & Hta & _) H0]. unfold unmasked in Hma. rewrite Forall_forall in Hma, Hta.
  unfold match_std_nonstrict in Hn. destruct (Z.eqb_spec (mlength a) 0) as [Hz |].
  { rewrite (H0 Hz) in Ht. by apply elem_of_nil in Ht. }
  rewrite match_elems, forallb_forall in Hn by done. specialize (Hn t (proj1 (list_elem_of_In _ _) Ht)).
  destruct (exact_field t b (Hta t Ht) (Hma t Ht) Hb nonstrict_field
    (nonstrict_field_exact t b (Hta t Ht) (Hma t Ht)) Hn) as (e & He & Hh & Hv).
  apply (field_accepted_same t e); [by apply known_header, Hta | by apply Hma | done | done | by apply Hs].
Qed.


Lemma incompatible_word_same a m : incompatible_word a a m m = false.
Proof. unfold incompatible_word. by rewrite Z.lxor_nilpotent. Qed.

Lemma take_drop_eq i j L (a b : list Z) :
  (i + j <= L)%nat -> take L a = take L b -> take j (drop i a) = take j (drop i b).
Proof.
  intros Hij H. rewrite !take_drop_commute.
  assert (take (i + j) a = take (i + j) b) as ->; [| done].
  rewrite <- (Nat.min_l (i + j) L), <- !take_take by done. by rewrite H.
Qed.

(** The overlap test of two fields without masks whose bytes agree. *)
Lemma overlap_field_same t e b :
  OXM_HASMASK (header t) = false -> OXM_HASMASK (header e) = false ->
  oxm_match_lookup (header t) b = Some e ->
  take (Z.to_nat (field_len (header t))) (value t) = take (Z.to_nat (field_len (header t))) (value e) ->
  overlap_field t b = true.
Proof.
  intros Hm He Hl Hv. unfold overlap_field, packet_header. rewrite Hm, Hl, He.
  assert (forall i j, (i + j <= Z.to_nat (field_len (header t)))%nat ->
    le_load (take j (drop i (value t))) = le_load (take j (drop i (value e)))) as Hld
    by (intros; f_equal; by eapply take_drop_eq).
  assert (forall j, (j <= Z.to_nat (field_len (header t)))%nat ->
    le_load (take j (value t)) = le_load (take j (value e))) as Hld0
    by (intros j Hj; apply (Hld 0%nat j); lia).
  repeat (case_match; [match goal with H : (_ =? _) = true |- _ => apply Z.eqb_eq in H; rewrite H in Hld, Hld0 end;
    unfold incompatible_48, incompatible_128, incompatible_8, incompatible_16, incompatible_32, incompatible_64,
      rd16, rd32, rd64; rewrite ?byte0_load, ?Hld0, ?(Hld 4%nat), ?(Hld 8%nat) by lia;
    by rewrite !incompatible_word_same |]).
  done.
Qed.


Lemma masked_header_range h L :
  in_range 32 h -> 0 <= L < 128 -> in_range 32 (Z.lor (Z.lor (Z.land h 0xfffffe00) 0x100) (Z.shiftl L 1)).
Proof.
  intros Hh HL. assert (in_range 32 (Z.shiftl L 1)).
  { rewrite Z.shiftl_mul_pow2 by lia. split; lia. }
  apply in_range_lor; [lia | | done]. apply in_range_lor; [lia | | split; by vm_compute].
  apply in_range_land; [lia | done | lia].
Qed.

Lemma masked_header_masked h L :
  OXM_HASMASK (Z.lor (Z.lor (Z.land h 0xfffffe00) 0x100) L) = true.
Proof.
  unfold OXM_HASMASK. rewrite negb_true_iff, Z.eqb_neq. intros H.
  apply (f_equal (fun z => Z.testbit z 0)) in H.
  rewrite Z.land_spec, Z.shiftr_spec, !Z.lor_spec in H by lia. change (Z.testbit 256 (0 + 8)) with true in H.
  change (Z.testbit 1 0) with true in H. rewrite orb_true_r in H. done.
Qed.

Definition special_field (h : Z) : bool := (h =? OXM_OF_VLAN_VID) || (h =? OXM_OF_IPV6_EXTHDR).

Lemma satisfied_agree t e pkt :
  tlv_ok t -> tlv_ok e -> OXM_HASMASK (header t) = false -> header e = header t ->
  special_field (header t) = false ->
  field_accepted t pkt -> field_accepted e pkt ->
  take (Z.to_nat (field_len (header t))) (value t) = take (Z.to_nat (field_len (header t))) (value e).
Proof.
  intros Ht He Hm Hh Hsp. unfold field_accepted, mask_of. rewrite Hh, Hm.
  apply orb_false_iff in Hsp as [Hv Hx]. apply Z.eqb_neq in Hv.
  assert (packet_header (header t) = header t) as Hph by (unfold packet_header; by rewrite Hm).
  destruct (pkt_value _ pkt) as [v |]; [| naive_solver]. rewrite Hph.
  rewrite (proj2 (Z.eqb_neq _ _) Hv), Hx. intros H1 H2.
  destruct (tlv_ok_readable e He) as [Hbe Hle], (tlv_ok_readable t Ht) as [Hbt Hlt].
  rewrite Hh in Hle. pose proof (unmasked_len t Hm). apply masked_eq_ones_take; [done | done | lia | lia |].
  intros j Hj. specialize (H1 j Hj). specialize (H2 j Hj). rewrite nth_ones in * by done.
  assert (forall a x, bytes_ok a -> Z.land 255 (Z.lxor (nth j a 0) x) = 0 -> Z.land 255 x = nth j a 0) as Hb.
  { intros a x Ha H'. rewrite <- (byte_ones (nth j a 0)) by (by apply nth_byte_ok).
    apply Z.bits_inj'. intros i Hi. apply (f_equal (fun z => Z.testbit z i)) in H'.
    rewrite Z.land_spec, Z.lxor_spec, Z.bits_0 in H'. rewrite !Z.land_spec.
    by destruct (Z.testbit 255 i), (Z.testbit (nth j a 0) i), (Z.testbit x i). }
  rewrite <- (Hb _ _ Hbt H1), <- (Hb _ _ Hbe H2), Z.lxor_nilpotent. done.
Qed.

(** The overlap check is sound for entries without masks (VLAN_VID and the IPv6
    extension headers apart): two entries it reports as not overlapping have no
    packet in common. *)
Theorem match_std_overlap_sound a b pkt :
  flow_ok a -> unmasked a -> flow_ok b -> unmasked b -> packet_ok pkt ->
  Forall (fun t => special_field (header t) = false) (tlvs a) ->
  match_std_overlap a b = false -> ~ (packet_match a pkt = true /\ packet_match b pkt = true).
Proof.
  intros Ha Hma Hb Hmb Hpk Hsp Ho [H1 H2]. rewrite packet_match_spec in H1, H2 by done.
  pose proof Ha as [(Hwfa & Hta & _) _]. pose proof Hb as [(Hwfb & Htb & _) _].
  unfold unmasked in *. rewrite Forall_forall in *.
  assert (match_std_overlap a b = true) as Ht; [| congruence].
  unfold match_std_overlap. rewrite match_elems by done. apply forallb_forall.
  intros t Hin%list_elem_of_In. pose proof (unmasked_range t (Hta t Hin) (Hma t Hin)) as Hr.
  destruct (oxm_match_lookup (header t) b) as [e |] eqn:He.
  - pose proof He as Hl. apply oxm_match_lookup_Some in He as [Hie Hhe]; [| done | done].
    apply (overlap_field_same t e); [by apply Hma | by apply Hmb | done |].
    apply (satisfied_agree t e pkt); auto.
  - unfold overlap_field, packet_header. rewrite (Hma t Hin), He.
    destruct (oxm_match_lookup (Z.lor _ _) b) as [e |] eqn:He'; [| done].
    apply oxm_match_lookup_Some in He' as [Hie Hhe]; [| done | apply masked_header_range; [done |]].
    + apply Hmb in Hie. by rewrite Hhe, masked_header_masked in Hie.
    + destruct (known_header t (Hta t Hin)) as (HL & _). unfold lengths in HL.
      rewrite !elem_of_cons, elem_of_nil in HL. lia.
Qed.



(** ** The comparisons without masks *)

#[global] Instance tlv_eq_dec : EqDecision ofl_match_tlv.
Proof. solve_decision. Defined.

(** What OpenFlow asks of the comparisons of matches whose fields have no masks: every field of [a] is
    one of [b] with the same value, the fields are the same, no field is in both with different values. *)
Definition covers (a b : ofl_match) : bool := bool_decide (Forall (fun t => t ∈ tlvs b) (tlvs a)).
Definition same_fields (a b : ofl_match) : bool := covers a b && covers b a.
Definition compatible (a b : ofl_match) : bool :=
  bool_decide (Forall (fun t => Forall (fun u => header t = header u -> value t = value u) (tlvs b)) (tlvs a)).

Lemma plain_lookup b t : plain b -> t ∈ tlvs b -> oxm_match_lookup (header t) b = Some t.
Proof.
  intros (Hb & Hm & Hn & _) Ht. destruct Hb as [(Hwf & Hts & _) _]. unfold unmasked in Hm. rewrite Forall_forall in Hm, Hts.
  apply oxm_match_lookup_unique; [done | by apply unmasked_range; auto | done | done | done].
Qed.

Lemma strict_same a b : plain a -> plain b -> match_std_strict a b = same_fields a b.
Proof.
  intros Ha Hb. apply eq_true_iff_eq. rewrite (match_std_strict_plain a b Ha Hb). unfold same_fields, covers.
  rewrite andb_true_iff, !bool_decide_eq_true, !Forall_forall. split; [intros Hp; split; intros t; by rewrite Hp |]. intros [H1 H2].
  destruct Ha as (_ & _ & Hna & _), Hb as (_ & _ & Hnb & _).
  apply NoDup_Permutation; [by eapply NoDup_fmap_1 | by eapply NoDup_fmap_1 |]. intros t. split; [apply H1 | apply H2].
Qed.

Lemma nonstrict_covers a b : plain a -> plain b -> match_std_nonstrict a b = covers a b.
Proof.
  intros Ha Hb. pose proof Ha as (Hoa & Hma & _). pose proof Hoa as [(Hwf & Hta & _) H0]. pose proof Hb as (Hob & _).
  unfold unmasked in Hma. rewrite Forall_forall in Hma, Hta. unfold match_std_nonstrict, covers.
  apply eq_true_iff_eq. rewrite bool_decide_eq_true, Forall_forall.
  destruct (Z.eqb_spec (mlength a) 0) as [Hz |]; [rewrite (H0 Hz); split; [intros _ t []%elem_of_nil | done] |].
  rewrite match_elems, forallb_forall by done. split.
  - intros Hf t Ht. apply (same_field_elem a b t Ha Hb Ht).
    apply (exact_field t b (Hta t Ht) (Hma t Ht) Hob nonstrict_field (nonstrict_field_exact t b (Hta t Ht) (Hma t Ht))).
    by apply Hf, list_elem_of_In.
  - intros Hc t Ht%list_elem_of_In. apply (exact_field_conv t b (Hta t Ht) (Hma t Ht) nonstrict_field (nonstrict_field_exact t b (Hta t Ht) (Hma t Ht))).
    by apply plain_lookup, Hc.
Qed.

(** Values of 24 bits (the service instance of PBB) are not compared by the overlap check. *)
Definition no24 (m : ofl_match) : Prop := Forall (fun t => OXM_LENGTH (header t) <> 3) (tlvs m).

Lemma compatible_word w x y : 0 <= w -> in_range w x -> in_range w y -> negb (incompatible_word x y (Z.ones w) (Z.ones w)) = (x =? y).
Proof.
  intros Hw [Hx0 Hx] [Hy0 Hy]. unfold incompatible_word. rewrite negb_involutive, !(Z.land_comm (Z.ones w)), !Z.land_ones, !Z.mod_small by lia.
  apply eq_true_iff_eq. rewrite !Z.eqb_eq. apply Z.lxor_eq_0_iff.
Qed.

Lemma overlap_field_exact t b : plain b -> tlv_ok t -> OXM_HASMASK (header t) = false -> OXM_LENGTH (header t) <> 3 ->
  overlap_field t b = match oxm_match_lookup (header t) b with None => true | Some e => match_by_len (field_len (header t)) (value t) (value e) end.
Proof.
  intros (Hb & Hmb & _) Ht Hm H3. pose proof Hb as [(Hwf & Hts & _) _]. unfold unmasked in Hmb. rewrite Forall_forall in Hmb, Hts.
  pose proof (unmasked_range t Ht Hm) as Hr. unfold overlap_field, packet_header. rewrite Hm. rewrite <- (unmasked_len t Hm) in H3.
  destruct (known_header t Ht) as (HL & _). destruct (oxm_match_lookup (header t) b) as [e |] eqn:He.
  - apply oxm_match_lookup_Some in He as [Hie Hhe]; [| done | done]. rewrite (Hmb e Hie).
    destruct (tlv_ok_readable e (Hts e Hie)) as [Hbe _], (tlv_ok_readable t Ht) as [Hbt _].
    assert (Hw : forall n (i : nat), negb (incompatible_word (le_load (take n (drop i (value t)))) (le_load (take n (drop i (value e)))) (Z.ones (8 * Z.of_nat n)) (Z.ones (8 * Z.of_nat n))) =
      (le_load (take n (drop i (value t))) =? le_load (take n (drop i (value e))))).
    { intros n i. apply compatible_word; [lia | by apply load_in_range, bytes_ok_drop | by apply load_in_range, bytes_ok_drop]. }
    pose proof (Hw 1%nat 0%nat) as H1. pose proof (Hw 2%nat 0%nat) as H2. pose proof (Hw 4%nat 0%nat) as H4. pose proof (Hw 8%nat 0%nat) as H8.
    pose proof (Hw 2%nat 4%nat) as H24. pose proof (Hw 8%nat 8%nat) as H88. rewrite !drop_0 in *.
    unfold match_by_len, incompatible_8, incompatible_16, incompatible_32, incompatible_48, incompatible_64, incompatible_128, incompatible_32, incompatible_16, incompatible_64,
      match_8, match_48, match_128, match_16, match_32, match_64, rd16, rd32, rd64. rewrite !byte0_load.
    unfold lengths in HL. rewrite !elem_of_cons in HL.
    destruct HL as [-> | [-> | [? | [-> | [-> | [-> | [-> | []%elem_of_nil]]]]]]]; try done; cbn [Z.eqb Pos.eqb]; rewrite ?negb_orb; try done.
    + by rewrite <- H4, <- H24.
    + by rewrite <- H8, <- H88.
  - destruct (oxm_match_lookup (Z.lor _ _) b) as [e |] eqn:He'; [| done].
    apply oxm_match_lookup_Some in He' as [Hie Hhe]; [| done | apply masked_header_range; [done |]].
    + apply Hmb in Hie. by rewrite Hhe, masked_header_masked in Hie.
    + unfold lengths in HL. rewrite !elem_of_cons, elem_of_nil in HL. lia.
Qed.

Lemma overlap_compatible a b : plain a -> plain b -> no24 a -> match_std_overlap a b = compatible a b.
Proof.
  intros Ha Hb H24. pose proof Ha as (Hoa & Hma & _ & Hla & _). pose proof Hoa as [(Hwf & Hta & _) H0]. pose proof Hb as (Hob & Hmb & _ & Hlb & _).
  pose proof Hob as [(Hwfb & Htb & _) _].
  unfold unmasked, no24 in *. rewrite Forall_forall in Hma, Hta, H24, Htb, Hla, Hlb. unfold match_std_overlap, compatible.
  apply eq_true_iff_eq. rewrite bool_decide_eq_true, Forall_forall, match_elems, forallb_forall by done.
  assert (Hone : forall t, t ∈ tlvs a -> overlap_field t b = true <-> Forall (fun u => header t = header u -> value t = value u) (tlvs b)).
  { intros t Ht. rewrite (overlap_field_exact t b Hb (Hta t Ht) (Hma t Ht) (H24 t Ht)), Forall_forall. pose proof (unmasked_range t (Hta t Ht) (Hma t Ht)) as Hr.
    destruct (oxm_match_lookup (header t) b) as [e |] eqn:He.
    - apply oxm_match_lookup_Some in He as [Hie Hhe]; [| done | done].
      destruct (tlv_ok_readable e (Htb e Hie)) as [Hbe Hle], (tlv_ok_readable t (Hta t Ht)) as [Hbt Hlt]. destruct (known_header t (Hta t Ht)) as (HL & _).
      rewrite Hhe in Hle. pose proof (unmasked_len t (Hma t Ht)) as Hlen. specialize (Hla t Ht). specialize (Hlb e Hie). rewrite Hhe in Hlb.
      rewrite match_by_len_spec, masked_eq_ones_take by (done || lia). rewrite !take_ge by lia. split.
      + intros Hv u Hu Hh. rewrite Hv. f_equal. pose proof (plain_lookup b u Hb Hu) as Hlu. pose proof (plain_lookup b e Hb Hie) as Hleq.
        rewrite Hhe in Hleq. rewrite <- Hh in Hlu. congruence.
      + intros Hall. apply Hall; [done | by rewrite Hhe].
    - split; [| done]. intros _ u Hu Hh. pose proof (plain_lookup b u Hb Hu) as Hlu. rewrite <- Hh in Hlu. congruence. }
  split; intros Hall t Ht; [apply Hone; [done | by apply Hall, list_elem_of_In] | apply Hone; [by apply list_elem_of_In | by apply Hall, list_elem_of_In]].
Qed.

(** ** Witnesses *)

(** The match decoded from the bytes of its fields. *)
Definition decoded (l : list Z) : ofl_match :=
  fst (fst (ofl_structs_oxm_match_unpack (length l + 4) l (length l + 8) 0)).

Lemma decoded_ok l :
  bytes_ok l -> Z.of_nat (length l) <= 65000 ->
  snd (ofl_structs_oxm_match_unpack (length l + 4) l (length l + 8) 0) = 0 -> flow_ok (decoded l).
Proof.
  intros Hb Hl He. unfold decoded.
  destruct (ofl_structs_oxm_match_unpack _ l _ 0) as [[m len'] e] eqn:Hm. simpl in *. subst e.
  by apply match_unpack_ok in Hm as [? _]; [| done | lia].
Qed.

Ltac decoded_ok_tac :=
  apply decoded_ok; [apply (bool_decide_unpack _); by vm_compute | by vm_compute | by vm_compute].

(** ETH_TYPE = IPv4 and ETH_TYPE = ARP. *)
Definition flow_ipv4 : ofl_match := decoded [0x80; 0x00; 0x0a; 0x02; 0x08; 0x00].
Definition flow_arp : ofl_match := decoded [0x80; 0x00; 0x0a; 0x02; 0x08; 0x06].

Lemma flow_ipv4_ok : flow_ok flow_ipv4.
Proof. decoded_ok_tac. Qed.
Lemma flow_arp_ok : flow_ok flow_arp.
Proof. decoded_ok_tac. Qed.

Lemma flow_ipv4_plain : plain flow_ipv4.
Proof.
  split; [apply flow_ipv4_ok |]. unfold unmasked.
  split_and!; first [by vm_compute | apply (bool_decide_unpack _); by vm_compute].
Qed.

Lemma match_std_strict_plain_witness : match_std_strict flow_ipv4 flow_ipv4 = true.
Proof. apply (match_std_strict_plain flow_ipv4 flow_ipv4 flow_ipv4_plain flow_ipv4_plain). done. Defined.

Lemma match_std_nonstrict_sound_witness : packet_match flow_ipv4 demo_packet = true.
Proof.
  apply (match_std_nonstrict_sound flow_ipv4 demo_flow demo_packet flow_ipv4_ok);
    [apply flow_ipv4_plain | apply demo_flow_ok | apply demo_packet_ok | by vm_compute | by vm_compute].
Defined.

Lemma match_std_overlap_sound_witness :
  ~ (packet_match flow_ipv4 demo_packet = true /\ packet_match flow_arp demo_packet = true).
Proof.
  apply (match_std_overlap_sound flow_ipv4 flow_arp demo_packet flow_ipv4_ok);
    [apply flow_ipv4_plain | apply flow_arp_ok | | apply demo_packet_ok | | by vm_compute];
    apply (bool_decide_unpack _); by vm_compute.
Defined.

(** ** Masked fields *)

(** IPv4 entries for a destination under a mask. *)
Definition flow_dst (ip mask : list Z) : ofl_match :=
  decoded ([0x80; 0x00; 0x0a; 0x02; 0x08; 0x00; 0x80; 0x00; 0x19; 0x08] ++ ip ++ mask).

Abbreviation net10 := (flow_dst [10; 0; 0; 0] [255; 0; 0; 0]).
Abbreviation net11 := (flow_dst [11; 0; 0; 0] [255; 0; 0; 0]).
Abbreviation net10_1 := (flow_dst [10; 1; 0; 0] [255; 255; 0; 0]).
Abbreviation net192_168 := (flow_dst [192; 168; 0; 0] [255; 255; 0; 0]).

(** The strict comparison accepts masked fields with different masks, whatever
    their values: 10.0.0.0/8 and 192.168.0.0/16 are taken for the same entry. *)
Lemma strict_accepts_different_masks :
  flow_ok net10 /\ flow_ok net192_168 /\ match_std_strict net10 net192_168 = true /\
  packet_ok demo_packet /\ packet_match net10 demo_packet = true /\
  packet_match net192_168 demo_packet = false.
Proof.
  split_and!; [decoded_ok_tac | decoded_ok_tac | by vm_compute | apply demo_packet_ok | by vm_compute ..].
Qed.

(** The non-strict comparison takes the ones of a mask for wildcards: it finds that
    11.0.0.0/8 matches whenever 10.0.0.0/8 does. *)
Lemma nonstrict_ignores_masked_bits :
  flow_ok net11 /\ flow_ok net10 /\ match_std_nonstrict net11 net10 = true /\
  packet_ok demo_packet /\ packet_match net10 demo_packet = true /\ packet_match net11 demo_packet = false.
Proof.
  split_and!; [decoded_ok_tac | decoded_ok_tac | by vm_compute | apply demo_packet_ok | by vm_compute ..].
Qed.

(** The overlap check compares bits only one of the masks has: 10.0.0.0/8 and
    10.1.0.0/16 are reported as not overlapping. *)
Lemma overlap_misses_nested_prefixes :
  flow_ok net10 /\ flow_ok net10_1 /\ match_std_overlap net10 net10_1 = false /\
  packet_ok demo_packet /\ packet_match net10 demo_packet = true /\ packet_match net10_1 demo_packet = true.
Proof.
  split_and!; [decoded_ok_tac | decoded_ok_tac | by vm_compute | apply demo_packet_ok | by vm_compute ..].
Qed.

(** ** Fields compared otherwise *)

(** VLAN_VID = OFPVID_PRESENT exactly, that is a tag with the identifier 0; VLAN_VID = 0/0x0fff, no tag or
    the identifier 0; IPV6_EXTHDR = 0/1, the first kind of extension header absent. *)
Definition flow_vid0 : ofl_match := decoded [0x80; 0x00; 0x0c; 0x02; 0x10; 0x00].
Definition flow_no_vid : ofl_match := decoded [0x80; 0x00; 0x0d; 0x04; 0x00; 0x00; 0x0f; 0xff].
Definition flow_no_ext : ofl_match :=
  decoded [0x80; 0x00; 0x0a; 0x02; 0x86; 0xdd; 0x80; 0x00; 0x4f; 0x04; 0x00; 0x00; 0x00; 0x01].
Definition packet_vid5 : ofl_match := match_put ofl_structs_match_init OXM_OF_VLAN_VID [5; 0] 2.
Definition packet_ext : ofl_match :=
  match_put (match_put ofl_structs_match_init OXM_OF_ETH_TYPE [0xdd; 0x86] 2) OXM_OF_IPV6_EXTHDR [1; 0] 2.

(** The exact identifier 0 matches a tag with the identifier 5; a packet without tag is not matched by
    0/0x0fff; an extension header that is to be absent is not looked at. *)
Lemma vlan_and_exthdr_deviate :
  (packet_match flow_vid0 packet_vid5 = true /\ ~ (forall t, t ∈ tlvs flow_vid0 -> field_satisfied t packet_vid5)) /\
  (packet_match flow_no_vid ofl_structs_match_init = false /\
   forall t, t ∈ tlvs flow_no_vid -> field_satisfied t ofl_structs_match_init) /\
  (packet_match flow_no_ext packet_ext = true /\ ~ (forall t, t ∈ tlvs flow_no_ext -> field_satisfied t packet_ext)).
Proof.
  assert (tlvs flow_vid0 = [TLV OXM_OF_VLAN_VID [0; 16]]) as -> by (by vm_compute).
  assert (tlvs flow_no_vid = [TLV OXM_OF_VLAN_VID_W [0; 0; 255; 15]]) as -> by (by vm_compute).
  assert (tlvs flow_no_ext = [TLV OXM_OF_IPV6_EXTHDR_W [0; 0; 1; 0]; TLV OXM_OF_ETH_TYPE [0xdd; 0x86]]) as -> by (by vm_compute).
  split_and!; [by vm_compute | | by vm_compute | | by vm_compute |].
  - intros H. destruct (H _ ltac:(by left)) as (v & Hv & Hm). vm_compute in Hv. injection Hv as <-. by specialize (Hm 0%nat ltac:(vm_compute; lia)).
  - intros t ->%list_elem_of_singleton. eexists. split; [by vm_compute |]. intros j Hj. vm_compute in Hj. destruct j as [| [| ?]]; [by vm_compute | by vm_compute | lia].
  - intros H. destruct (H _ ltac:(by left)) as (v & Hv & Hm). vm_compute in Hv. injection Hv as <-. by specialize (Hm 0%nat ltac:(vm_compute; lia)).
Qed.
