(* ===== verification/OflTypes.v ===== *)
(** The library's own form of OpenFlow messages (oflib/ofl.h, ofl-actions.h,
    ofl-structs.h): error words, actions, instructions and buckets. *)
From S2P Require Import Prelude HMap Oxm.
Open Scope Z_scope.

(** * Errors *)

(** A function that fails returns a non-zero [ofl_err]. *)
Definition ofl_error (type code : Z) : Z := Z.lor (Z.lor 0x80000000 (u32 (Z.shiftl type 16))) code.
Definition ofl_error_type (error : Z) : Z := Z.shiftr (Z.land 0x7fff0000 error) 16.
Definition ofl_error_code (error : Z) : Z := Z.land error 0x0000ffff.

(** Types and codes of openflow.h. *)
Definition OFPET_BAD_REQUEST : Z := 1.
Definition OFPET_BAD_ACTION : Z := 2.
Definition OFPET_BAD_INSTRUCTION : Z := 3.
Definition OFPET_FLOW_MOD_FAILED : Z := 5.
Definition OFPET_GROUP_MOD_FAILED : Z := 6.
Definition OFPET_METER_MOD_FAILED : Z := 12.

(** An error word is a type below 2^15 and a code below 2^16: both can be read back,
    and it is never zero. *)
Lemma ofl_error_parts type code :
  0 <= type < 2 ^ 15 -> in_range 16 code ->
  ofl_error_type (ofl_error type code) = type /\ ofl_error_code (ofl_error type code) = code /\
  ofl_error type code <> 0.
Proof.
  intros Ht Hc. unfold ofl_error, ofl_error_type, ofl_error_code.
  rewrite wrap_small by (unfold in_range in *; rewrite Z.shiftl_mul_pow2; lia).
  assert (forall i, 16 <= i -> Z.testbit code i = false) as Hhc
    by (intros; apply (in_range_testbit 16); (done || lia)).
  assert (forall i, 15 <= i -> Z.testbit type i = false) as Hht
    by (intros; apply (in_range_testbit 15); (done || lia)).
  assert (forall i, 0 <= i -> Z.testbit 0x7fff0000 i = (16 <=? i) && (i <? 31)) as Hm.
  { intros i Hi. change 0x7fff0000 with (Z.shiftl (Z.ones 15) 16). rewrite Z.shiftl_spec by lia.
    destruct (Z.leb_spec 16 i), (Z.ltb_spec i 31); simpl.
    - apply Z.ones_spec_low. lia.
    - apply Z.ones_spec_high. lia.
    - apply Z.testbit_neg_r. lia.
    - lia. }
  split_and!.
  - apply (bits_ext 15); [lia | split | done |].
    + apply Z.shiftr_nonneg, Z.land_nonneg. lia.
    + rewrite Z.shiftr_div_pow2 by lia. apply Z.div_lt_upper_bound; [lia |].
      assert (in_range 31 (Z.land 0x7fff0000 (Z.lor (Z.lor 2147483648 (Z.shiftl type 16)) code))) as [_ ?];
        [| lia]. apply in_range_land; [lia | split; by vm_compute |].
      apply Z.lor_nonneg; split; [apply Z.lor_nonneg; split; [lia | apply Z.shiftl_nonneg; lia] | apply Hc].
    + intros i Hi. rewrite Z.shiftr_spec, Z.land_spec, Hm, !Z.lor_spec, Z.shiftl_spec, Hhc by lia.
      replace (i + 16 - 16) with i by lia.
      replace (Z.testbit 2147483648 (i + 16)) with false.
      { destruct (Z.leb_spec 16 (i + 16)), (Z.ltb_spec (i + 16) 31); try lia. simpl. by rewrite orb_false_r. }
      symmetry. change 2147483648 with (2 ^ 31). apply Z.pow2_bits_false. lia.
  - change 0x0000ffff with (Z.ones 16). apply (bits_ext 16); [lia | | done |].
    + rewrite Z.land_ones by lia. apply Z.mod_pos_bound. lia.
    + intros i Hi. rewrite Z.land_spec, Z.ones_spec_low, andb_true_r, !Z.lor_spec, Z.shiftl_spec by lia.
      rewrite (Z.testbit_neg_r type) by lia. change 2147483648 with (2 ^ 31).
      rewrite Z.pow2_bits_false by lia. done.
  - intros H. apply (f_equal (fun z => Z.testbit z 31)) in H. by rewrite !Z.lor_spec, Z.bits_0 in H.
Qed.

(** * Actions *)

(** [struct ofl_action_*]; the type is the constructor. *)
Inductive ofl_action :=
  | Act_output (port max_len : Z)
  | Act_copy_ttl_out
  | Act_copy_ttl_in
  | Act_set_mpls_ttl (mpls_ttl : Z)
  | Act_dec_mpls_ttl
  | Act_push_vlan (ethertype : Z)
  | Act_pop_vlan
  | Act_push_mpls (ethertype : Z)
  | Act_pop_mpls (ethertype : Z)
  | Act_set_queue (queue_id : Z)
  | Act_group (group_id : Z)
  | Act_set_nw_ttl (nw_ttl : Z)
  | Act_dec_nw_ttl
  | Act_set_field (field : ofl_match_tlv)
  | Act_push_pbb (ethertype : Z)
  | Act_pop_pbb
  | Act_experimenter (experimenter_id : Z).

#[global] Instance ofl_action_eq_dec : EqDecision ofl_action.
Proof. solve_decision. Defined.

(** [OFPAT_*] *)
Definition act_type (a : ofl_action) : Z :=
  match a with
  | Act_output _ _ => 0
  | Act_copy_ttl_out => 11
  | Act_copy_ttl_in => 12
  | Act_set_mpls_ttl _ => 15
  | Act_dec_mpls_ttl => 16
  | Act_push_vlan _ => 17
  | Act_pop_vlan => 18
  | Act_push_mpls _ => 19
  | Act_pop_mpls _ => 20
  | Act_set_queue _ => 21
  | Act_group _ => 22
  | Act_set_nw_ttl _ => 23
  | Act_dec_nw_ttl => 24
  | Act_set_field _ => 25
  | Act_push_pbb _ => 26
  | Act_pop_pbb => 27
  | Act_experimenter _ => 0xffff
  end.

(** * Instructions *)

Inductive ofl_instruction :=
  | Inst_goto_table (table_id : Z)
  | Inst_write_metadata (metadata metadata_mask : Z)
  | Inst_write_actions (actions : list ofl_action)
  | Inst_apply_actions (actions : list ofl_action)
  | Inst_clear_actions
  | Inst_meter (meter_id : Z)
  | Inst_experimenter (experimenter_id : Z).

#[global] Instance ofl_instruction_eq_dec : EqDecision ofl_instruction.
Proof. solve_decision. Defined.

(** [OFPIT_*] *)
Definition inst_type (i : ofl_instruction) : Z :=
  match i with
  | Inst_goto_table _ => 1
  | Inst_write_metadata _ _ => 2
  | Inst_write_actions _ => 3
  | Inst_apply_actions _ => 4
  | Inst_clear_actions => 5
  | Inst_meter _ => 6
  | Inst_experimenter _ => 0xffff
  end.

(** * Buckets *)

Record ofl_bucket := Bucket {
  weight : Z;
  watch_port : Z;
  watch_group : Z;
  b_actions : list ofl_action;
}.

#[global] Instance ofl_bucket_eq_dec : EqDecision ofl_bucket.
Proof. solve_decision. Defined.

(** * Reserved numbers *)

Definition OFPP_MAX : Z := 0xffffff00.
Definition OFPP_IN_PORT : Z := 0xfffffff8.
Definition OFPP_TABLE : Z := 0xfffffff9.
Definition OFPP_NORMAL : Z := 0xfffffffa.
Definition OFPP_FLOOD : Z := 0xfffffffb.
Definition OFPP_ALL : Z := 0xfffffffc.
Definition OFPP_CONTROLLER : Z := 0xfffffffd.
Definition OFPP_LOCAL : Z := 0xfffffffe.
Definition OFPP_ANY : Z := 0xffffffff.
Definition OFPG_MAX : Z := 0xffffff00.
Definition OFPG_ALL : Z := 0xfffffffc.
Definition OFPG_ANY : Z := 0xffffffff.
Definition OFPM_ALL : Z := 0xffffffff.

(** * Groups and ports a list of actions mentions *)

(** [dp_actions_list_has_out_port] *)
Definition dp_actions_list_has_out_port (actions : list ofl_action) (port : Z) : bool :=
  existsb (fun a => match a with Act_output p _ => p =? port | _ => false end) actions.

(** [dp_actions_list_has_out_group] *)
Definition dp_actions_list_has_out_group (actions : list ofl_action) (group : Z) : bool :=
  existsb (fun a => match a with Act_group g => g =? group | _ => false end) actions.
