(* ===== verification/ActCodec.v ===== *)
(** Actions on the wire (oflib/ofl-actions-pack.c, ofl-actions-unpack.c, ofl-actions.c), with the
    experimenter callbacks of the datapath, which has none for actions. *)
From S2P Require Import Prelude HMap Oxm OflTypes Wire.
Open Scope Z_scope.
Open Scope wire_scope.

Module ActCodec.

Definition OFPBAC_BAD_TYPE : Z := 0.
Definition OFPBAC_BAD_LEN : Z := 1.
Definition OFPBAC_BAD_EXPERIMENTER : Z := 2.
Definition OFPBAC_BAD_OUT_PORT : Z := 4.
Definition OFPBAC_BAD_ARGUMENT : Z := 5.
Definition OFPBAC_BAD_OUT_GROUP : Z := 9.
Definition OFPBAC_BAD_SET_TYPE : Z := 13.
Definition bad_action (code : Z) : Z := ofl_error OFPET_BAD_ACTION code.

Definition ETH_TYPE_VLAN : Z := 0x8100.
Definition ETH_TYPE_VLAN_PBB : Z := 0x88a8.
Definition ETH_TYPE_MPLS : Z := 0x8847.
Definition ETH_TYPE_MPLS_MCAST : Z := 0x8848.
Definition ETH_TYPE_PBB : Z := 0x88e7.

Section codec.
(** What new memory holds. *)
Context (junk : nat -> Z).

(** * Lengths *)

Definition ofl_actions_ofp_len (a : ofl_action) : Z :=
  match a with
  | Act_output _ _ => 16
  | Act_set_field f => 8 + ROUND_UP (OXM_LENGTH (header f)) 8
  | Act_experimenter _ => u64 (-1)
  | _ => 8
  end.

Definition ofl_actions_ofp_total_len (acts : list ofl_action) : Z :=
  fold_left (fun sum a => u64 (sum + ofl_actions_ofp_len a)) acts 0.

(** * Packing *)

(** The value of a field between memory and the wire, both ways; [None] for a length that the
    code has no case for. Addresses are kept in network order. *)
Definition swaps (h : Z) : option bool :=
  let n := OXM_LENGTH h in
  if (n =? 1) || (n =? 6) || (n =? 3) || (n =? 16) then Some false
  else if n =? 2 then Some true
  else if n =? 4 then
    let f := OXM_FIELD h in Some (negb (f =? 11) && negb (f =? 12) && negb (f =? 22) && negb (f =? 23))
  else if n =? 8 then Some true
  else None.

Definition in_order (swap : bool) (v : list Z) : list Z := if swap then rev v else v.

Definition field_bytes (h : Z) (v : list Z) : list Z :=
  let n := Z.to_nat (OXM_LENGTH h) in
  match swaps h with Some s => in_order s (take n v) | None => fresh junk n end.

(** An action of eight bytes with its last four. *)
Definition small (type : Z) (rest : list Z) : list Z := be_store 2 type ++ be_store 2 8 ++ rest.

Definition ofl_actions_pack (a : ofl_action) : list Z :=
  match a with
  | Act_output port max_len => be_store 2 (act_type a) ++ be_store 2 16 ++ be_store 4 port ++ be_store 2 max_len ++ zeros 6
  | Act_copy_ttl_out | Act_copy_ttl_in | Act_dec_mpls_ttl | Act_pop_vlan | Act_pop_pbb | Act_dec_nw_ttl => small (act_type a) (zeros 4)
  | Act_set_mpls_ttl ttl | Act_set_nw_ttl ttl => small (act_type a) (be_store 1 ttl ++ zeros 3)
  | Act_push_vlan e | Act_push_mpls e | Act_push_pbb e | Act_pop_mpls e => small (act_type a) (be_store 2 e ++ zeros 2)
  | Act_set_queue id | Act_group id => small (act_type a) (be_store 4 id)
  | Act_set_field f =>
      let n := OXM_LENGTH (header f) in
      be_store 2 (act_type a) ++ be_store 2 (8 + ROUND_UP n 8) ++ be_store 4 (header f) ++
      field_bytes (header f) (value f) ++ zeros (Z.to_nat (ROUND_UP n 8 - n))
  | Act_experimenter _ => []
  end.

(** * Unpacking *)

Definition push_ethertype_ok (type e : Z) : bool :=
  negb ((type =? 17) && negb (e =? ETH_TYPE_VLAN) && negb (e =? ETH_TYPE_VLAN_PBB) ||
        (type =? 19) && negb (e =? ETH_TYPE_MPLS) && negb (e =? ETH_TYPE_MPLS_MCAST) ||
        (type =? 26) && negb (e =? ETH_TYPE_PBB)).

Definition unpack_output (m : list Z) (len : Z) : res (ofl_action * Z) :=
  refuse (len <? 16) (bad_action OFPBAC_BAD_LEN);;;
  port <- get 4 m 4;;
  refuse ((port =? 0) || (OFPP_MAX <? port) && (port <? OFPP_IN_PORT) || (port =? OFPP_ANY)) (bad_action OFPBAC_BAD_OUT_PORT);;;
  max_len <- get 2 m 8;;
  Ok (Act_output port max_len, len - 16).

Definition unpack_push (type : Z) (m : list Z) (len : Z) : res (ofl_action * Z) :=
  refuse (len <? 8) (bad_action OFPBAC_BAD_LEN);;;
  e <- get 2 m 4;;
  refuse (negb (push_ethertype_ok type e)) (bad_action OFPBAC_BAD_ARGUMENT);;;
  Ok (if type =? 17 then Act_push_vlan e else if type =? 19 then Act_push_mpls e else Act_push_pbb e, len - 8).

Definition unpack_group (m : list Z) (len : Z) : res (ofl_action * Z) :=
  refuse (len <? 8) (bad_action OFPBAC_BAD_LEN);;;
  g <- get 4 m 4;;
  refuse (OFPG_MAX <? g) (bad_action OFPBAC_BAD_OUT_GROUP);;;
  Ok (Act_group g, len - 8).

Definition unpack_set_field (m : list Z) (alen len : Z) : res (ofl_action * Z) :=
  h <- get 4 m 4;;
  refuse ((h =? OXM_OF_IN_PORT) || (h =? OXM_OF_IN_PHY_PORT) || (h =? OXM_OF_METADATA) || (h =? OXM_OF_IPV6_EXTHDR))
    (bad_action OFPBAC_BAD_SET_TYPE);;;
  let n := Z.to_nat (OXM_LENGTH h) in
  v <- match swaps h with Some s => bs <- rd m 8 n;; Ok (in_order s bs) | None => Ok (fresh junk n) end;;
  Ok (Act_set_field (TLV h v), u64 (len - ROUND_UP alen 8)).

(** A small action with one number at offset 4. *)
Definition unpack_num (n : nat) (mk : Z -> ofl_action) (m : list Z) (len : Z) : res (ofl_action * Z) :=
  refuse (len <? 8) (bad_action OFPBAC_BAD_LEN);;; x <- get n m 4;; Ok (mk x, len - 8).

Definition ofl_actions_unpack (m : list Z) (len : Z) : res (ofl_action * Z) :=
  refuse (len <? 8) (bad_action OFPBAC_BAD_LEN);;;
  alen <- get 2 m 2;;
  refuse (len <? alen) (bad_action OFPBAC_BAD_LEN);;;
  refuse (negb (alen mod 8 =? 0)) (bad_action OFPBAC_BAD_LEN);;;
  type <- get 2 m 0;;
  if type =? 0 then unpack_output m len
  else if type =? 11 then Ok (Act_copy_ttl_out, len - 8)
  else if type =? 12 then Ok (Act_copy_ttl_in, len - 8)
  else if type =? 15 then unpack_num 1 Act_set_mpls_ttl m len
  else if type =? 16 then Ok (Act_dec_mpls_ttl, len - 8)
  else if (type =? 17) || (type =? 26) || (type =? 19) then unpack_push type m len
  else if type =? 18 then Ok (Act_pop_vlan, len - 8)
  else if type =? 27 then Ok (Act_pop_pbb, len - 8)
  else if type =? 20 then unpack_num 2 Act_pop_mpls m len
  else if type =? 21 then unpack_num 4 Act_set_queue m len
  else if type =? 22 then unpack_group m len
  else if type =? 23 then unpack_num 1 Act_set_nw_ttl m len
  else if type =? 24 then Ok (Act_dec_nw_ttl, len - 8)
  else if type =? 25 then unpack_set_field m alen len
  else if type =? 0xffff then Err (bad_action OFPBAC_BAD_EXPERIMENTER)
  else Err (bad_action OFPBAC_BAD_TYPE).

(** [ofl_utils_count_ofp_actions] *)
Definition ofl_utils_count_ofp_actions : list Z -> Z -> res nat :=
  count_items (fun len => 4 <=? len) 2 4 (fun n => n) (bad_action OFPBAC_BAD_LEN).

(** The loop of callers: the pointer goes on by the length the action has in its header. *)
Definition unpack_actions : nat -> list Z -> Z -> res (list ofl_action * Z) :=
  unpack_seq ofl_actions_unpack (fun m => get 2 m 2).

(** * Packing and unpacking *)

(** What the unpacking accepts. *)
Definition act_ok (a : ofl_action) : bool :=
  match a with
  | Act_output port max_len =>
      fits 4 port && fits 2 max_len && negb ((port =? 0) || (OFPP_MAX <? port) && (port <? OFPP_IN_PORT) || (port =? OFPP_ANY))
  | Act_set_mpls_ttl ttl | Act_set_nw_ttl ttl => fits 1 ttl
  | Act_push_vlan e | Act_push_mpls e | Act_push_pbb e => fits 2 e && push_ethertype_ok (act_type a) e
  | Act_pop_mpls e => fits 2 e
  | Act_set_queue q => fits 4 q
  | Act_group g => fits 4 g && negb (OFPG_MAX <? g)
  | Act_set_field (TLV h v) =>
      fits 4 h && bool_decide (is_Some (swaps h)) && (Z.of_nat (length v) =? OXM_LENGTH h) &&
      negb ((h =? OXM_OF_IN_PORT) || (h =? OXM_OF_IN_PHY_PORT) || (h =? OXM_OF_METADATA) || (h =? OXM_OF_IPV6_EXTHDR))
  | Act_experimenter _ => false
  | _ => true
  end.

Lemma swaps_length h s : swaps h = Some s -> 1 <= OXM_LENGTH h <= 16.
Proof. unfold swaps. intros H. repeat case_match; simplify_eq; repeat (apply orb_prop in H as [H |]); lia. Qed.


Lemma round_up_bound n : 0 <= n < 256 -> n <= ROUND_UP n 8 < n + 8 /\ ROUND_UP n 8 mod 8 = 0.
Proof.
  intros H. unfold ROUND_UP. rewrite Z.quot_div_nonneg by lia. replace (n + (8 - 1)) with (n + 7) by lia.
  pose proof (Z.div_mod (n + 7) 8 ltac:(lia)). pose proof (Z.mod_pos_bound (n + 7) 8 ltac:(lia)).
  split; [lia |]. by rewrite Z.mod_mul.
Qed.

Lemma oxm_length_range h : 0 <= OXM_LENGTH h < 256.
Proof. unfold OXM_LENGTH. change 255 with (Z.ones 8). rewrite Z.land_ones by lia. apply Z.mod_pos_bound. lia. Qed.

Lemma in_order_length s v : length (in_order s v) = length v.
Proof. destruct s; [apply length_rev | done]. Qed.
Lemma in_order_twice s v : in_order s (in_order s v) = v.
Proof. destruct s; [apply rev_involutive | done]. Qed.

Lemma field_bytes_length h v : Z.of_nat (length v) = OXM_LENGTH h -> length (field_bytes h v) = length v.
Proof.
  intros H. unfold field_bytes, fresh. destruct (swaps h).
  - rewrite in_order_length, length_take. lia.
  - rewrite length_map, length_seq. lia.
Qed.

(** The bytes of an action are as many as were reserved for it. *)
Lemma actions_pack_length a : act_ok a = true -> Z.of_nat (length (ofl_actions_pack a)) = ofl_actions_ofp_len a.
Proof.
  intros Ha. destruct a; try done; cbn [ofl_actions_pack ofl_actions_ofp_len]; unfold small; try (autorewrite with wire; done).
  destruct field as [h v]. cbn [header value act_ok] in *.
  apply andb_prop in Ha as [Ha _]. apply andb_prop in Ha as [Ha Hv]. apply Z.eqb_eq in Hv.
  autorewrite with wire. rewrite field_bytes_length by done.
  pose proof (round_up_bound _ (oxm_length_range h)). lia.
Qed.

(** The header of an action. *)
Lemma unpack_header a rest :
  act_ok a = true ->
  get 2 (ofl_actions_pack a ++ rest) 2 = Ok (ofl_actions_ofp_len a) /\
  get 2 (ofl_actions_pack a ++ rest) 0 = Ok (act_type a) /\
  8 <= ofl_actions_ofp_len a /\ ofl_actions_ofp_len a mod 8 = 0.
Proof.
  intros Ha.
  assert (Hf : exists tail, ofl_actions_pack a = be_store 2 (act_type a) ++ be_store 2 (ofl_actions_ofp_len a) ++ tail).
  { destruct a; try done; by eexists. }
  assert (Hn : 8 <= ofl_actions_ofp_len a < 2 ^ 16 /\ ofl_actions_ofp_len a mod 8 = 0).
  { destruct a; try done. cbn [ofl_actions_ofp_len]. pose proof (oxm_length_range (header field)) as Hh.
    destruct (round_up_bound _ Hh) as [? Hm]. split; [lia |]. rewrite Z.add_mod, Hm by lia. done. }
  destruct Hf as [tail ->]. rewrite <- !app_assoc. destruct Hn as [Hn Hm].
  assert (Hf1 : fits 2 (ofl_actions_ofp_len a) = true) by (apply range_fits; lia).
  assert (Hf2 : fits 2 (act_type a) = true) by (by destruct a).
  split; [read_field |]. split; [read_field |]. split; [lia | done].
Qed.

Lemma set_field_body h v rest len :
  act_ok (Act_set_field (TLV h v)) = true -> ofl_actions_ofp_len (Act_set_field (TLV h v)) <= len < 2 ^ 32 ->
  unpack_set_field (ofl_actions_pack (Act_set_field (TLV h v)) ++ rest) (8 + ROUND_UP (OXM_LENGTH h) 8) len =
  Ok (Act_set_field (TLV h v), len - ofl_actions_ofp_len (Act_set_field (TLV h v))).
Proof.
  cbn [act_ok ofl_actions_ofp_len header]. intros Ha Hl. apply andb_prop in Ha as [Ha Hb]. apply andb_prop in Ha as [Ha Hv].
  apply andb_prop in Ha as [Hh Hs]. apply Z.eqb_eq in Hv. apply bool_decide_eq_true in Hs as [sw Hs]. apply negb_true_iff in Hb.
  pose proof (swaps_length h sw Hs) as Hn. destruct (round_up_bound (OXM_LENGTH h)) as [Hr Hm]; [lia |].
  unfold unpack_set_field. cbn [ofl_actions_pack header value act_type]. rewrite <- !app_assoc.
  wire. rewrite Hs.
  assert (Hfb : length (field_bytes h v) = Z.to_nat (OXM_LENGTH h)) by (rewrite field_bytes_length by done; lia).
  erewrite (bind_Ok (rd _ _ _)); [| read_field | reflexivity]. cbn [rbind]. unfold field_bytes. rewrite Hs, in_order_twice, take_ge by lia.
  do 2 f_equal. rewrite wrap_small; unfold ROUND_UP in *; rewrite ?Z.quot_div_nonneg in * by lia; unfold in_range.
  - assert ((8 + (OXM_LENGTH h + (8 - 1)) / 8 * 8 + (8 - 1)) / 8 * 8 = 8 + (OXM_LENGTH h + (8 - 1)) / 8 * 8); [| lia].
    set (q := (OXM_LENGTH h + (8 - 1)) / 8). replace (8 + q * 8 + (8 - 1)) with ((q + 1) * 8 + 7) by lia.
    rewrite Z.div_add_l by lia. change (7 / 8) with 0. lia.
  - set (q := (OXM_LENGTH h + (8 - 1)) / 8) in *. replace (8 + q * 8 + (8 - 1)) with ((q + 1) * 8 + 7) by lia.
    rewrite Z.div_add_l by lia. change (7 / 8) with 0. lia.
Qed.

(** An action that was packed is unpacked to itself, and leaves what follows. *)
Lemma action_roundtrip a rest len :
  act_ok a = true -> ofl_actions_ofp_len a <= len < 2 ^ 32 ->
  ofl_actions_unpack (ofl_actions_pack a ++ rest) len = Ok (a, len - ofl_actions_ofp_len a).
Proof.
  intros Ha Hl. destruct (unpack_header a rest Ha) as (E1 & E2 & H8 & Hm).
  unfold ofl_actions_unpack. rewrite refuse_len by lia. cbn [rbind]. rewrite E1. cbn [rbind]. rewrite refuse_len by lia. cbn [rbind].
  rewrite Hm. cbn [negb Z.eqb refuse rbind]. rewrite E2. cbn [rbind]. clear E1 E2 Hm.
  destruct a; try done; cbn [act_type Z.eqb Pos.eqb orb].
  all: try (destruct field as [h v]; by apply set_field_body).
  all: cbn [ofl_actions_ofp_len act_ok act_type] in *; unfold unpack_output, unpack_num, unpack_push, unpack_group;
    rewrite refuse_len by lia; cbn [rbind ofl_actions_pack]; unfold small; rewrite <- ?app_assoc.
  all: repeat match goal with H : _ && _ = true |- _ => apply andb_prop in H as [? ?] end.
  all: wire; try done.
  all: eapply bind_Ok; [apply refuse_no; by apply negb_false_iff | done].
Qed.

(** ** Lists of actions *)

Definition pack_actions : list ofl_action -> list Z := packs ofl_actions_pack.
Definition total_len (acts : list ofl_action) : Z := length (pack_actions acts).

Lemma ofp_total_len_eq acts :
  forallb act_ok acts = true -> total_len acts < 2 ^ 32 -> ofl_actions_ofp_total_len acts = total_len acts.
Proof. intros Ha Hl. apply sum_lengths; [by apply (all_ok act_ok _ acts actions_pack_length) | unfold total_len, pack_actions in Hl; lia]. Qed.

Lemma action_unpacks a : act_ok a = true -> unpacks ofl_actions_pack ofl_actions_unpack (fun m => get 2 m 2) a.
Proof.
  intros Ha. pose proof (actions_pack_length a Ha) as Hl. split; intros; rewrite Hl in *.
  - by apply action_roundtrip.
  - by apply unpack_header.
Qed.

Lemma actions_roundtrip acts rest len :
  forallb act_ok acts = true -> total_len acts <= len < 2 ^ 32 ->
  unpack_actions (length acts) (pack_actions acts ++ rest) len = Ok (acts, len - total_len acts).
Proof. intros Ha Hl. apply unpack_seq_packs; [by apply (all_ok act_ok _ acts action_unpacks) | done]. Qed.

Lemma action_item a : act_ok a = true -> item_ok ofl_actions_pack (fun len => 4 <=? len) 2 4 a.
Proof.
  intros Ha. pose proof (actions_pack_length a Ha) as Hl. split.
  - intros rest. rewrite Hl. by apply unpack_header.
  - destruct (unpack_header a [] Ha) as (_ & _ & H & _). split; [lia |]. split; [lia |]. intros k Hk. apply Z.leb_le. lia.
Qed.

Lemma count_roundtrip acts rest :
  forallb act_ok acts = true -> total_len acts < 2 ^ 32 ->
  ofl_utils_count_ofp_actions (pack_actions acts ++ rest) (total_len acts) = Ok (length acts).
Proof.
  intros Ha Hl. apply count_items_packs; [| done | unfold total_len, pack_actions in Hl; lia].
  by apply (all_ok act_ok _ acts action_item).
Qed.

(** A list of actions as the switch writes it is counted and read back as it was, whatever
    follows it, and fills the memory that was reserved for it. *)
Theorem actions_wire_roundtrip acts rest :
  forallb act_ok acts = true -> total_len acts < 2 ^ 32 ->
  Z.of_nat (length (pack_actions acts)) = ofl_actions_ofp_total_len acts /\
  ofl_utils_count_ofp_actions (pack_actions acts ++ rest) (ofl_actions_ofp_total_len acts) = Ok (length acts) /\
  unpack_actions (length acts) (pack_actions acts ++ rest) (ofl_actions_ofp_total_len acts) = Ok (acts, 0).
Proof.
  intros Ha Hl. rewrite ofp_total_len_eq by done. split; [done |]. split.
  - by apply count_roundtrip.
  - rewrite actions_roundtrip by (done || lia). by rewrite Z.sub_diag.
Qed.

(** ** What is accepted *)

Lemma actions_unpack_valid m len a len' :
  bytes_ok m -> ofl_actions_unpack m len = Ok (a, len') ->
  act_ok a = true \/ exists f, a = Act_set_field f /\ swaps (header f) = None.
Proof.
  intros Hm H. unfold ofl_actions_unpack in H. unstep.
  repeat match type of H with
  | (if ?b then _ else _) = _ => destruct b eqn:?; [| try discriminate]
  end; try discriminate.
  all: unfold unpack_output, unpack_num, unpack_push, unpack_group, unpack_set_field in H; unstep; simplify_eq; try (by left).
  all: repeat match goal with H : get _ _ _ = Ok _ |- _ => apply (get_fits _ _ _ _ Hm) in H end.
  all: try (left; cbn [act_ok]; by repeat match goal with H : _ = true |- _ => rewrite H | H : _ = false |- _ => rewrite H end).
  - left. apply negb_false_iff in E6, E2. rename x3 into ty.
    repeat match goal with H : _ || _ = true |- _ => apply orb_prop in H as [H | H] end; match goal with H : (ty =? _) = true |- _ => apply Z.eqb_eq in H; subst ty end;
      cbn [Z.eqb Pos.eqb act_ok act_type]; by rewrite E5, E6.
  - destruct (swaps x4) as [sw |] eqn:Hs; [left | right; by eexists]. unstep. simplify_eq. unfold rd in E7.
    destruct (Nat.leb_spec (8 + Z.to_nat (OXM_LENGTH x4)) (length m)); [| done]. injection E7 as <-.
    cbn [act_ok]. rewrite E4, Hs, E5, in_order_length, slice_length by done. rewrite bool_decide_eq_true_2 by (by eexists).
    pose proof (oxm_length_range x4). rewrite Z2Nat.id by lia. by rewrite Z.eqb_refl.
Qed.
End codec.

(** * Examples *)

Definition demo_actions : list ofl_action :=
  [Act_push_vlan 0x8100; Act_set_field (TLV OXM_OF_VLAN_VID [5; 0x10]); Act_group 7; Act_output OFPP_CONTROLLER 128].

Lemma actions_wire_roundtrip_witness :
  let junk := fun _ => 0 in
  Z.of_nat (length (pack_actions junk demo_actions)) = ofl_actions_ofp_total_len demo_actions /\
  ofl_utils_count_ofp_actions (pack_actions junk demo_actions ++ [1; 2]) (ofl_actions_ofp_total_len demo_actions) = Ok (length demo_actions) /\
  unpack_actions junk (length demo_actions) (pack_actions junk demo_actions ++ [1; 2]) (ofl_actions_ofp_total_len demo_actions) = Ok (demo_actions, 0).
Proof. intros junk. apply (actions_wire_roundtrip junk demo_actions [1; 2]); [reflexivity | vm_compute; reflexivity]. Defined.

(** A set-field action of eight bytes at the end of a message, whose field has a value of sixteen
    bytes: the value is read after the end. An output action of 24 bytes counts as 16 only, so
    that an action of eight bytes after it is read as one of sixteen. *)
Theorem unpack_reads_outside junk :
  ofl_actions_unpack junk (be_store 2 25 ++ be_store 2 8 ++ be_store 4 OXM_OF_IPV6_SRC) 8 = Oob /\
  let m := be_store 2 0 ++ be_store 2 24 ++ be_store 4 1 ++ be_store 2 0 ++ zeros 14 ++ be_store 2 0 ++ be_store 2 8 ++ be_store 4 1 in
  ofl_utils_count_ofp_actions m 32 = Ok 2%nat /\ length m = 32%nat /\ unpack_actions junk 2 m 32 = Oob.
Proof. split; [| intros m; split; [| split]]; vm_compute; reflexivity. Qed.

End ActCodec.
