(* ===== verification/ActionSet.v ===== *)
(** The action set of a packet (udatapath/action_set.c). The list of entries is the
    list the ring of [DList] represents: every access is a [LIST_FOR_EACH], a
    [list_insert] before an element, a [list_replace] or a [list_remove]. *)
From Stdlib Require Import Sorting.Sorted.
From S2P Require Import Prelude HMap Oxm OflTypes.
Open Scope Z_scope.

Module ActionSet.

Record action_set_entry := ASEntry { action : ofl_action; order : Z }.

Abbreviation action_set := (list action_set_entry).

Definition action_set_order (act : ofl_action) : Z :=
  match act with
  | Act_copy_ttl_out => 40
  | Act_copy_ttl_in => 10
  | Act_set_field _ => 60
  | Act_set_mpls_ttl _ => 60
  | Act_dec_mpls_ttl => 50
  | Act_push_pbb _ => 30
  | Act_pop_pbb => 20
  | Act_push_vlan _ => 30
  | Act_pop_vlan => 20
  | Act_push_mpls _ => 30
  | Act_pop_mpls _ => 20
  | Act_set_queue _ => 70
  | Act_group _ => 80
  | Act_set_nw_ttl _ => 60
  | Act_dec_nw_ttl => 50
  | Act_output _ _ => 90
  | Act_experimenter _ => 75
  end.

Definition action_set_create : action_set := [].

Definition action_set_create_entry (act : ofl_action) : action_set_entry :=
  ASEntry act (action_set_order act).

Definition action_set_clone (set : action_set) : action_set :=
  fold_left (fun s entry => s ++ [action_set_create_entry (action entry)]) set action_set_create.

(** The loop of [action_set_write_action]: [continue] over a set-field of another
    field, [list_replace] of an entry of the same type, [list_insert] before the
    first entry of higher order or at the end. *)
Fixpoint write_loop (new_entry : action_set_entry) (set : action_set) : action_set :=
  match set with
  | [] => [new_entry]
  | entry :: rest =>
      if act_type (action entry) =? act_type (action new_entry) then
        match action entry, action new_entry with
        | Act_set_field f, Act_set_field f' =>
            if header f =? header f' then new_entry :: rest else entry :: write_loop new_entry rest
        | _, _ => new_entry :: rest
        end
      else if order new_entry <? order entry then new_entry :: entry :: rest
      else entry :: write_loop new_entry rest
  end.

Definition action_set_write_action (set : action_set) (act : ofl_action) : action_set :=
  write_loop (action_set_create_entry act) set.

Definition action_set_write_actions (set : action_set) (actions : list ofl_action) : action_set :=
  fold_left action_set_write_action actions set.

(** [LIST_FOR_EACH_SAFE] with [list_remove] of each entry. *)
Definition action_set_clear_actions (set : action_set) : action_set :=
  fold_left (fun s _ => tail s) set set.

(** * What an action set is *)

(** Two actions for the same slot: the type, and the field for a set-field. *)
Definition act_key (a : ofl_action) : Z * Z :=
  (act_type a, match a with Act_set_field f => header f | _ => 0 end).

Record set_ok (set : action_set) : Prop := {
  ok_orders : Forall (fun e => order e = action_set_order (action e)) set;
  ok_sorted : StronglySorted (fun a b => order a <= order b) set;
  ok_unique : NoDup ((fun e => act_key (action e)) <$> set);
}.

(** The action of a slot. *)
Definition set_find (k : Z * Z) (set : action_set) : option ofl_action :=
  action <$> List.find (fun e => bool_decide (act_key (action e) = k)) set.

Lemma same_type_order a b : act_type a = act_type b -> action_set_order a = action_set_order b.
Proof. by destruct a, b. Qed.

Lemma key_type a b : act_key a = act_key b -> act_type a = act_type b.
Proof. unfold act_key. congruence. Qed.

(** The test of the loop is the comparison of the slots. *)
Lemma write_loop_cons new e r :
  write_loop new (e :: r) =
    if bool_decide (act_key (action e) = act_key (action new)) then new :: r
    else if bool_decide (act_type (action e) <> act_type (action new) /\ order new < order e)
         then new :: e :: r
    else e :: write_loop new r.
Proof.
  cbn [write_loop]. destruct (Z.eqb_spec (act_type (action e)) (act_type (action new))) as [Ht | Ht].
  - rewrite (bool_decide_eq_false_2 (_ /\ _)) by naive_solver.
    assert ((exists f f', action e = Act_set_field f /\ action new = Act_set_field f') \/
            (act_key (action e) = act_key (action new) /\
             match action e, action new with Act_set_field _, Act_set_field _ => False | _, _ => True end))
      as [(f & f' & He & Hn) | [Hk Hm]].
    { destruct (action e), (action new); try discriminate Ht; eauto; right; done. }
    + rewrite He, Hn. unfold act_key. simpl. destruct (Z.eqb_spec (header f) (header f')) as [-> |].
      * by rewrite bool_decide_eq_true_2.
      * rewrite bool_decide_eq_false_2; [done | congruence].
    + rewrite bool_decide_eq_true_2 by done. by destruct (action e), (action new).
  - rewrite bool_decide_eq_false_2 by (intros ?%key_type; done).
    destruct (Z.ltb_spec (order new) (order e)).
    + by rewrite bool_decide_eq_true_2.
    + rewrite bool_decide_eq_false_2; [done | lia].
Qed.

Section write.
Context (new : action_set_entry) (Hnew : order new = action_set_order (action new)).

(** Entries of the slot of [new] have its order, so none follows an entry of higher
    order. *)
Lemma later_entries_other e r :
  set_ok (e :: r) -> order new < order e ->
  Forall (fun x => act_key (action x) <> act_key (action new)) (e :: r).
Proof.
  intros [Ho Hs _] Hlt. rewrite Forall_forall in Ho |- *. intros x Hx Hk.
  apply key_type, same_type_order in Hk. rewrite <- Ho, <- Hnew in Hk by done.
  inversion Hs as [| ? ? Hr Hle]; subst. apply elem_of_cons in Hx as [-> | Hx]; [lia |].
  rewrite Forall_forall in Hle. specialize (Hle x Hx). lia.
Qed.

Lemma write_loop_elem set x :
  set_ok set ->
  x ∈ write_loop new set <-> x = new \/ (x ∈ set /\ act_key (action x) <> act_key (action new)).
Proof.
  induction set as [| e r IH]; intros Hok.
  - cbn [write_loop]. rewrite list_elem_of_singleton. set_solver.
  - rewrite write_loop_cons. pose proof Hok as [Ho Hs Hu].
    assert (set_ok r) as Hokr by (split; [by inversion Ho | by inversion Hs | by inversion Hu]).
    case_bool_decide as Hk; [| case_bool_decide as Hlt].
    + rewrite !elem_of_cons. split; [| intros [-> | [[-> | ?] ?]]; [by left | done | by right]].
      intros [-> | Hx]; [by left | right]. split; [by right |]. intros Hkx.
      rewrite fmap_cons in Hu. apply NoDup_cons in Hu as [Hni _]. apply Hni.
      rewrite Hk, <- Hkx. by apply (list_elem_of_fmap_2 (fun e => act_key (action e))).
    + destruct Hlt as [_ Hlt]. pose proof (later_entries_other e r Hok Hlt) as Hf.
      rewrite Forall_forall in Hf. rewrite (elem_of_cons (e :: r)).
      split; [intros [-> | Hx]; [by left | right; auto] | intros [-> | [Hx _]]; auto].
    + rewrite !elem_of_cons, IH by done.
      split; [intros [-> | [-> | [Hx ?]]]; auto | intros [-> | [[-> | Hx] ?]]; auto].
Qed.


Lemma write_loop_ok set : set_ok set -> set_ok (write_loop new set).
Proof.
  induction set as [| e r IH]; intros Hok.
  - split; [by constructor | repeat constructor | apply NoDup_singleton].
  - pose proof Hok as [Ho Hs Hu].
    inversion Ho as [| ? ? Hoe Hor]; subst. inversion Hs as [| ? ? Hsr Hle]; subst.
    rewrite fmap_cons in Hu. apply NoDup_cons in Hu as [Hni Hur].
    assert (set_ok r) as Hokr by done.
    rewrite write_loop_cons. case_bool_decide as Hk; [| case_bool_decide as Hlt].
    + pose proof (same_type_order _ _ (key_type _ _ Hk)) as Heq. split.
      * by constructor.
      * constructor; [done |]. by rewrite Hnew, <- Heq, <- Hoe.
      * rewrite fmap_cons, <- Hk. by apply NoDup_cons.
    + destruct Hlt as [_ Hlt]. split; [by constructor | |].
      * constructor; [done |]. constructor; [lia |]. eapply Forall_impl; [done |]. simpl. lia.
      * rewrite fmap_cons. apply NoDup_cons. split; [| apply Hok].
        pose proof (later_entries_other e r Hok Hlt) as Hf. rewrite Forall_forall in Hf.
        intros (x & Hkx & Hx)%list_elem_of_fmap. by apply (Hf x).
    + destruct (IH Hokr) as [Ho' Hs' Hu']. split; [by constructor | |].
      * constructor; [done |]. apply Forall_forall. intros x Hx.
        apply write_loop_elem in Hx as [-> | [Hx _]]; [| | done].
        -- destruct (decide (act_type (action e) = act_type (action new))) as [Ht | Ht];
             [rewrite Hnew, Hoe, (same_type_order _ _ Ht); lia |].
           destruct (Z.lt_ge_cases (order new) (order e)); [by destruct Hlt | lia].
        -- rewrite Forall_forall in Hle. by apply Hle.
      * rewrite fmap_cons. apply NoDup_cons. split; [| done].
        intros (x & Hkx & Hx)%list_elem_of_fmap. apply write_loop_elem in Hx as [-> | [Hx _]]; [done | | done].
        apply Hni. rewrite Hkx. by apply (list_elem_of_fmap_2 (fun e => act_key (action e))).
Qed.
End write.

(** A slot holds at most one action, the one that is found. *)
Lemma set_find_elem set k a :
  set_ok set -> set_find k set = Some a <-> exists e, e ∈ set /\ action e = a /\ act_key a = k.
Proof.
  intros [_ _ Hu]. unfold set_find. induction set as [| e r IH]; simpl.
  - split; [done | by intros (? & ?%elem_of_nil & _)].
  - rewrite fmap_cons in Hu. apply NoDup_cons in Hu as [Hni Hur]. case_bool_decide as Hk; simpl.
    + split; [intros ?; simplify_eq; exists e; split; [by left | done] |].
      intros (x & Hx & <- & Hkx). apply elem_of_cons in Hx as [-> | Hx]; [done |].
      exfalso. apply Hni. rewrite Hk, <- Hkx. by apply (list_elem_of_fmap_2 (fun e => act_key (action e))).
    + rewrite IH by done. split; intros (x & Hx & <- & Hkx); exists x.
      * split; [by right | done].
      * apply elem_of_cons in Hx as [-> | Hx]; done.
Qed.

Lemma write_action_ok set act : set_ok set -> set_ok (action_set_write_action set act).
Proof. by apply write_loop_ok. Qed.

Lemma write_action_find set act k :
  set_ok set ->
  set_find k (action_set_write_action set act) =
    if decide (k = act_key act) then Some act else set_find k set.
Proof.
  intros Hok. pose proof (write_action_ok set act Hok) as Hok'.
  assert (forall a, set_find k (action_set_write_action set act) = Some a <->
    (if decide (k = act_key act) then Some act else set_find k set) = Some a) as H.
  { intros a. rewrite set_find_elem by done. unfold action_set_write_action.
    setoid_rewrite write_loop_elem; [| done | done]. cbn [action action_set_create_entry].
    case_decide as Hk.
    - split; [| intros ?; simplify_eq; by eexists (action_set_create_entry a); auto].
      intros (e & [-> | [He Hne]] & <- & Hke); [done | congruence].
    - rewrite set_find_elem by done. split; intros (e & He & <- & Hke).
      + destruct He as [-> | [He _]]; [by destruct Hk | by eauto].
      + exists e. split; [right; split; [done | congruence] | done]. }
  destruct (set_find k (action_set_write_action set act)) as [a |]; [symmetry; by apply H |].
  destruct (if decide _ then _ else _) as [a |]; [| done]. by apply H.
Qed.

Lemma clear_actions_nil set : action_set_clear_actions set = [].
Proof.
  unfold action_set_clear_actions. assert (forall s t : action_set, length s = length t ->
    fold_left (fun s _ => tail s) t s = []) as H; [| by apply H].
  intros s t. revert s. induction t as [| x t IH]; intros [| y s] Hl; try done. apply IH. by injection Hl.
Qed.

Lemma clone_same set : set_ok set -> action_set_clone set = set.
Proof.
  intros [Ho _ _]. unfold action_set_clone, action_set_create.
  assert (forall s, fold_left (fun s e => s ++ [action_set_create_entry (action e)]) set s = s ++ set) as H.
  { induction Ho as [| e r He Hr IH]; intros s; simpl; [by rewrite app_nil_r |].
    rewrite IH, <- app_assoc. do 2 f_equal. unfold action_set_create_entry. rewrite <- He. by destruct e. }
  by rewrite H.
Qed.

(** C30. The action set is a sorted map: writing a list of actions keeps the entries
    ordered by the precedence of the specification, with at most one entry per type
    (per field, for set-field), and each slot holds the last action written to it. *)
Theorem action_set_write_refines set actions :
  set_ok set ->
  set_ok (action_set_write_actions set actions) /\
  forall k, set_find k (action_set_write_actions set actions) =
    match last (filter (fun a => act_key a = k) actions) with
    | Some a => Some a
    | None => set_find k set
    end.
Proof.
  unfold action_set_write_actions. revert set. induction actions as [| a l IH]; intros set Hok; simpl.
  - done.
  - destruct (IH _ (write_action_ok set a Hok)) as [Hok' Hf]. split; [done |]. intros k.
    rewrite Hf, write_action_find, filter_cons by done.
    destruct (decide (act_key a = k)) as [<- |]; [| by rewrite decide_False by congruence].
    rewrite !decide_True by done. cbn [last]. destruct (filter _ l) eqn:Hfl; [done |]. simpl.
    destruct (last (o :: l0)) eqn:E; [done |]. by apply last_None in E.
Qed.

Lemma action_set_write_refines_witness :
  action_set_write_actions action_set_create [Act_output 3 0; Act_push_vlan 0x8100; Act_output 7 0] =
    [ASEntry (Act_push_vlan 0x8100) 30; ASEntry (Act_output 7 0) 90] /\
  set_ok (action_set_write_actions action_set_create [Act_output 3 0; Act_push_vlan 0x8100; Act_output 7 0]).
Proof.
  split; [reflexivity |].
  refine (proj1 (action_set_write_refines action_set_create [Act_output 3 0; Act_push_vlan 0x8100; Act_output 7 0] _)).
  split; constructor.
Defined.

End ActionSet.
