(* ===== verification/Buffers.v ===== *)
(** The packet buffers (udatapath/dp_buffers.c) and the life of a packet
    (udatapath/packet.c, [packet_destroy]). Packets live in a store of their own: a
    destroyed packet is no longer in it, and reading it is an error. *)
From S2P Require Import Prelude.
Open Scope Z_scope.

Module Buffers.

Abbreviation pktref := positive.

(** What the buffers use of a [struct packet]. *)
Class BufferedPacket (P : Type) := {
  buffer_id : P -> Z;
  with_buffer_id : P -> Z -> P;
  with_packet_out : P -> bool -> P;
  buffer_id_with p i : buffer_id (with_buffer_id p i) = i;
  buffer_id_out p o : buffer_id (with_packet_out p o) = buffer_id p;
}.

Definition PKT_BUFFER_BITS : Z := 8.
Definition PKT_COOKIE_BITS : Z := 32 - PKT_BUFFER_BITS.
Definition N_PKT_BUFFERS : nat := 256.
Definition PKT_BUFFER_MASK : Z := 255.
Definition OVERWRITE_SECS : Z := 1.
Definition NO_BUFFER : Z := 0xffffffff.
Definition UINT32_MAX : Z := 0xffffffff.

Record packet_buffer := PB { pkt : option pktref; cookie : Z; timeout : Z }.

Record dp_buffers := DPB { buffer_idx : Z; buffers_num : Z; buffers : list packet_buffer }.

Definition dp_buffers_create : dp_buffers :=
  DPB (u64 (-1)) N_PKT_BUFFERS (replicate N_PKT_BUFFERS (PB None UINT32_MAX 0)).

Definition dp_buffers_size (dpb : dp_buffers) : Z := buffers_num dpb.

(** [&dpb->buffers[id & PKT_BUFFER_MASK]] *)
Definition slot_of (id : Z) : nat := Z.to_nat (Z.land id PKT_BUFFER_MASK).
Definition slot (dpb : dp_buffers) (id : Z) : packet_buffer :=
  nth (slot_of id) (buffers dpb) (PB None UINT32_MAX 0).
Definition set_slot (dpb : dp_buffers) (id : Z) (p : packet_buffer) : dp_buffers :=
  DPB (buffer_idx dpb) (buffers_num dpb) (<[slot_of id := p]> (buffers dpb)).

Definition id_cookie (id : Z) : Z := Z.shiftr id PKT_BUFFER_BITS.

(** [time_now()] is [now]. *)
Definition dp_buffers_is_alive (dpb : dp_buffers) (id now : Z) : bool :=
  let p := slot dpb id in
  (cookie p =? id_cookie id) && (now <? timeout p).

Section packets.
Context {P : Type} `{!BufferedPacket P}.
Abbreviation store := (gmap pktref P).

(** The fields of a packet that is still allocated. *)
Definition set_buffer_id (st : store) (r : pktref) (id : Z) : option store :=
  p ← st !! r; Some (<[r := with_buffer_id p id]> st).

(** [dp_buffers_discard] with [destroy] false: the form [packet_destroy] calls. *)
Definition dp_buffers_discard_keep (dpb : dp_buffers) (id : Z) : dp_buffers :=
  let p := slot dpb id in
  if cookie p =? id_cookie id then set_slot dpb id (PB None (cookie p) (timeout p)) else dpb.

Definition packet_destroy (dpb : dp_buffers) (st : store) (r : pktref) (now : Z) : option (dp_buffers * store) :=
  p ← st !! r;
  if buffer_id p =? NO_BUFFER then Some (dpb, delete r st)
  else if dp_buffers_is_alive dpb (buffer_id p) now then Some (dpb, st)
  else Some (dp_buffers_discard_keep dpb (buffer_id p), delete r st).

(** With [destroy] true the packet of the slot is dereferenced. *)
Definition dp_buffers_discard (dpb : dp_buffers) (st : store) (id : Z) (destroy : bool) (now : Z)
    : option (dp_buffers * store) :=
  let p := slot dpb id in
  if cookie p =? id_cookie id then
    if destroy then
      r ← pkt p;
      st ← set_buffer_id st r NO_BUFFER;
      '(dpb, st) ← packet_destroy dpb st r now;
      Some (set_slot dpb id (PB None (cookie p) (timeout p)), st)
    else Some (set_slot dpb id (PB None (cookie p) (timeout p)), st)
  else Some (dpb, st).

Definition dp_buffers_save (dpb : dp_buffers) (st : store) (r : pktref) (now : Z)
    : option (dp_buffers * store * Z) :=
  q ← st !! r;
  if negb (buffer_id q =? NO_BUFFER) && dp_buffers_is_alive dpb (buffer_id q) now
  then Some (dpb, st, buffer_id q)
  else
    let idx := Z.land (u64 (buffer_idx dpb + 1)) PKT_BUFFER_MASK in
    let dpb := DPB idx (buffers_num dpb) (buffers dpb) in
    let p := slot dpb idx in
    let store_in (dpb : dp_buffers) (st : store) :=
      let c := u32 (cookie p + 1) in
      let c := if 2 ^ PKT_COOKIE_BITS - 1 <=? c then 0 else c in
      let id := u32 (Z.lor idx (u32 (Z.shiftl c PKT_BUFFER_BITS))) in
      let dpb := set_slot dpb idx (PB (Some r) c (now + OVERWRITE_SECS)) in
      st ← set_buffer_id st r id;
      Some (dpb, st, id) in
    match pkt p with
    | None => store_in dpb st
    | Some old =>
        if now <? timeout p then Some (dpb, st, NO_BUFFER)
        else
          st ← set_buffer_id st old NO_BUFFER;
          '(dpb, st) ← packet_destroy dpb st old now;
          store_in dpb st
    end.

Definition dp_buffers_retrieve (dpb : dp_buffers) (st : store) (id : Z)
    : option (dp_buffers * store * option pktref) :=
  let p := slot dpb id in
  match pkt p with
  | Some r =>
      if cookie p =? id_cookie id then
        q ← st !! r;
        Some (set_slot dpb id (PB None (cookie p) (timeout p)), <[r := with_packet_out (with_buffer_id q NO_BUFFER) false]> st, Some r)
      else Some (dpb, st, None)
  | None => Some (dpb, st, None)
  end.

End packets.

(** * What the buffers promise *)

(** The id of a packet in slot [i] under cookie [c]. *)
Definition mkid (i : nat) (c : Z) : Z := i + 256 * c.

(** A slot has never been used, or has a cookie that is not the special one. *)
Definition cookie_ok (p : packet_buffer) : Prop :=
  (cookie p = UINT32_MAX /\ pkt p = None) \/ 0 <= cookie p < 2 ^ 24 - 1.

Record buffers_ok {P} `{!BufferedPacket P} (dpb : dp_buffers) (st : gmap pktref P) : Prop := {
  ok_len : length (buffers dpb) = N_PKT_BUFFERS;
  ok_idx : in_range 64 (buffer_idx dpb);
  ok_cookies : Forall cookie_ok (buffers dpb);
  (* the packet of a slot is allocated and knows its id *)
  ok_stored : forall i p r, buffers dpb !! i = Some p -> pkt p = Some r ->
    exists q, st !! r = Some q /\ buffer_id q = mkid i (cookie p);
  (* a packet with an id is in its slot *)
  ok_ids : forall r q, st !! r = Some q -> buffer_id q <> NO_BUFFER ->
    exists i p, buffers dpb !! i = Some p /\ pkt p = Some r /\ buffer_id q = mkid i (cookie p);
}.

Lemma slot_of_mkid (i : nat) c : (i < 256)%nat -> slot_of (mkid i c) = i.
Proof.
  intros Hi. unfold slot_of, mkid, PKT_BUFFER_MASK. change 255 with (Z.ones 8).
  rewrite Z.land_ones by lia. change (2 ^ 8) with 256. lia.
Qed.

Lemma id_cookie_mkid (i : nat) c : (i < 256)%nat -> id_cookie (mkid i c) = c.
Proof.
  intros Hi. unfold id_cookie, mkid, PKT_BUFFER_BITS. rewrite Z.shiftr_div_pow2 by lia.
  change (2 ^ 8) with 256. lia.
Qed.

Lemma lor_mkid (i : nat) c :
  (i < 256)%nat -> 0 <= c < 2 ^ 24 - 1 ->
  u32 (Z.lor i (u32 (Z.shiftl c PKT_BUFFER_BITS))) = mkid i c /\ mkid i c <> NO_BUFFER.
Proof.
  intros Hi Hc. unfold mkid, NO_BUFFER, PKT_BUFFER_BITS. split; [| lia].
  rewrite Z.shiftl_mul_pow2 by lia. rewrite (wrap_small 32 (c * 2 ^ 8)) by (unfold in_range; lia).
  rewrite Z.lor_comm, lor_low_add by (unfold in_range; lia).
  rewrite wrap_small by (unfold in_range; lia). lia.
Qed.

Lemma next_idx dpb :
  exists i : nat, (i < 256)%nat /\ Z.land (u64 (buffer_idx dpb + 1)) PKT_BUFFER_MASK = i.
Proof.
  exists (Z.to_nat (Z.land (u64 (buffer_idx dpb + 1)) PKT_BUFFER_MASK)).
  unfold PKT_BUFFER_MASK. change 255 with (Z.ones 8). rewrite Z.land_ones by lia. change (2 ^ 8) with 256. lia.
Qed.


Lemma slot_lookup dpb i p :
  buffers dpb !! i = Some p -> (i < 256)%nat -> slot dpb i = p.
Proof.
  intros Hp Hi. unfold slot. replace (slot_of i) with i.
  - by apply nth_lookup_Some with (d := PB None UINT32_MAX 0) in Hp.
  - replace (Z.of_nat i) with (mkid i 0) by (unfold mkid; lia). by rewrite slot_of_mkid.
Qed.

Lemma slot_mkid dpb i c : (i < 256)%nat -> slot dpb (mkid i c) = slot dpb i.
Proof.
  intros Hi. unfold slot. rewrite slot_of_mkid by done. replace (Z.of_nat i) with (mkid i 0) by (unfold mkid; lia).
  by rewrite slot_of_mkid.
Qed.

Lemma mkid_inj i j c d :
  (i < 256)%nat -> (j < 256)%nat -> mkid i c = mkid j d -> i = j /\ c = d.
Proof. unfold mkid. lia. Qed.

Section promises.
Context {P : Type} `{!BufferedPacket P}.
Implicit Types st : gmap pktref P.

Lemma buffers_lt dpb st i p : buffers_ok dpb st -> buffers dpb !! i = Some p -> (i < 256)%nat.
Proof. intros [Hl _ _ _ _] H%lookup_lt_Some. by rewrite Hl in H. Qed.

(** A packet sits in one slot. *)
Lemma stored_once dpb st i j p p' r :
  buffers_ok dpb st -> buffers dpb !! i = Some p -> buffers dpb !! j = Some p' ->
  pkt p = Some r -> pkt p' = Some r -> i = j.
Proof.
  intros Hok Hi Hj Hp Hp'. destruct (ok_stored _ _ Hok i p r Hi Hp) as (q & Hq & Hid).
  destruct (ok_stored _ _ Hok j p' r Hj Hp') as (q' & Hq' & Hid'). simplify_eq.
  rewrite Hid in Hid'. apply mkid_inj in Hid' as [? _]; [done | by eapply buffers_lt ..].
Qed.

Lemma stored_not_free dpb st i p r q :
  buffers_ok dpb st -> buffers dpb !! i = Some p -> pkt p = Some r -> st !! r = Some q ->
  buffer_id q <> NO_BUFFER.
Proof.
  intros Hok Hi Hp Hq. destruct (ok_stored _ _ Hok i p r Hi Hp) as (q' & Hq' & Hid). simplify_eq.
  rewrite Hid. pose proof (ok_cookies _ _ Hok) as Hc. rewrite Forall_lookup in Hc.
  destruct (Hc i p Hi) as [[_ ?] | Hr]; [congruence |].
  by apply lor_mkid; [eapply buffers_lt |].
Qed.

(** Putting a free packet into a slot that is empty. *)
Lemma fill_slot_ok dpb st i p r q c tm idx :
  buffers_ok dpb st -> in_range 64 idx -> buffers dpb !! i = Some p -> pkt p = None ->
  0 <= c < 2 ^ 24 - 1 -> st !! r = Some q -> buffer_id q = NO_BUFFER ->
  buffers_ok (DPB idx (buffers_num dpb) (<[i := PB (Some r) c tm]> (buffers dpb)))
    (<[r := with_buffer_id q (mkid i c)]> st).
Proof.
  intros Hok Hidx Hi Hp Hc Hr Hq. pose proof (buffers_lt _ _ _ _ Hok Hi) as Hlt.
  pose proof Hok as [Hl _ Hck Hs Hids]. split; simpl.
  - by rewrite length_insert.
  - done.
  - apply Forall_insert; [done |]. by right.
  - intros j p' r' Hj Hp'. apply list_lookup_insert_Some in Hj as [(-> & <- & _) | [Hne Hj]].
    + simpl in *. simplify_eq. eexists. rewrite lookup_insert_eq, buffer_id_with. done.
    + assert (r' <> r) as Hrr by (intros ->; by eapply (stored_not_free dpb st j p' r q)).
      rewrite lookup_insert_ne by done. by apply Hs.
  - intros r' q' Hr' Hq'. destruct (decide (r' = r)) as [-> | Hne].
    + rewrite lookup_insert_eq in Hr'. simplify_eq. exists i. eexists.
      rewrite list_lookup_insert_eq, buffer_id_with by (by eapply lookup_lt_Some). done.
    + rewrite lookup_insert_ne in Hr' by done. destruct (Hids r' q' Hr' Hq') as (j & p' & Hj & Hp' & Hid).
      assert (i <> j) by (intros ->; congruence). exists j, p'. by rewrite list_lookup_insert_ne.
Qed.

(** Emptying the slot of a packet that is freed or loses its id. *)
Lemma empty_slot_ok dpb st st' i p r tm :
  buffers_ok dpb st -> buffers dpb !! i = Some p -> pkt p = Some r ->
  (forall r', r' <> r -> st' !! r' = st !! r') -> (forall q, st' !! r = Some q -> buffer_id q = NO_BUFFER) ->
  buffers_ok (DPB (buffer_idx dpb) (buffers_num dpb) (<[i := PB None (cookie p) tm]> (buffers dpb))) st'.
Proof.
  intros Hok Hi Hp Hne Hr. pose proof Hok as [Hl Hx Hck Hs Hids]. split; simpl.
  - by rewrite length_insert.
  - done.
  - apply Forall_insert; [done |]. rewrite Forall_lookup in Hck.
    destruct (Hck i p Hi) as [[? ?] | ?]; [congruence | by right].
  - intros j p' r' Hj Hp'. apply list_lookup_insert_Some in Hj as [(-> & <- & _) | [Hij Hj]]; [done |].
    rewrite Hne; [by apply Hs |]. intros ->. apply Hij. by apply (stored_once dpb st i j p p' r).
  - intros r' q' Hr' Hq'. destruct (decide (r' = r)) as [-> | Hrr]; [by destruct Hq'; apply Hr |].
    rewrite Hne in Hr' by done. destruct (Hids r' q' Hr' Hq') as (j & p' & Hj & Hp' & Hid).
    assert (i <> j) by (intros ->; congruence). exists j, p'. by rewrite list_lookup_insert_ne.
Qed.

(** The cookie of the next packet in a slot. *)
Lemma next_cookie_range p :
  cookie_ok p ->
  0 <= (if 2 ^ PKT_COOKIE_BITS - 1 <=? u32 (cookie p + 1) then 0 else u32 (cookie p + 1)) < 2 ^ 24 - 1.
Proof.
  intros Hc. change (2 ^ PKT_COOKIE_BITS - 1) with (2 ^ 24 - 1).
  destruct (Z.leb_spec (2 ^ 24 - 1) (u32 (cookie p + 1))); [lia |]. split; [| done].
  apply (wrap_range 32); lia.
Qed.


(** The packet [r] is in the buffers under [id], until its time is over. *)
Definition buffered (dpb : dp_buffers) (r : pktref) (id : Z) : Prop :=
  exists i p, buffers dpb !! i = Some p /\ pkt p = Some r /\ id = mkid i (cookie p).

Definition keeps_live (dpb dpb' : dp_buffers) (now : Z) : Prop :=
  forall j p r, buffers dpb !! j = Some p -> pkt p = Some r -> now < timeout p -> buffers dpb' !! j = Some p.

Lemma with_idx_ok dpb st idx :
  buffers_ok dpb st -> in_range 64 idx -> buffers_ok (DPB idx (buffers_num dpb) (buffers dpb)) st.
Proof. by intros [? ? ? ? ?] Hr; split. Qed.

Lemma fill_buffered dpb i p r c tm now :
  buffers dpb !! i = Some p -> (pkt p = None \/ timeout p <= now) ->
  let dpb' := DPB (buffer_idx dpb) (buffers_num dpb) (<[i := PB (Some r) c tm]> (buffers dpb)) in
  buffered dpb' r (mkid i c) /\ keeps_live dpb dpb' now.
Proof.
  intros Hi Hp dpb'. split.
  - exists i. eexists. simpl. rewrite list_lookup_insert_eq by (by eapply lookup_lt_Some). done.
  - intros j p' r' Hj Hp' Hlt. simpl. destruct (decide (i = j)) as [<- | Hne].
    + destruct Hp; simplify_eq; lia.
    + by rewrite list_lookup_insert_ne.
Qed.

Lemma alive_buffered dpb st r q :
  buffers_ok dpb st -> st !! r = Some q -> buffer_id q <> NO_BUFFER -> buffered dpb r (buffer_id q).
Proof. intros Hok Hr Hq. destruct (ok_ids _ _ Hok r q Hr Hq) as (i & p & ? & ? & ?). by exists i, p. Qed.

Lemma save_spec dpb st r q now :
  buffers_ok dpb st -> st !! r = Some q ->
  buffer_id q = NO_BUFFER \/ dp_buffers_is_alive dpb (buffer_id q) now = true ->
  exists dpb' st' id, dp_buffers_save dpb st r now = Some (dpb', st', id) /\ buffers_ok dpb' st' /\
    keeps_live dpb dpb' now /\
    (id = NO_BUFFER /\ st' = st /\ buffers dpb' = buffers dpb \/ id <> NO_BUFFER /\ buffered dpb' r id).
Proof.
  intros Hok Hr Hq. unfold dp_buffers_save. rewrite Hr. cbn [mbind option_bind].
  destruct (Z.eqb_spec (buffer_id q) NO_BUFFER) as [He | He]; cbn [negb andb].
  2:{ destruct Hq as [? | Ha]; [done |]. rewrite Ha. exists dpb, st, (buffer_id q).
      split_and!; [done | done | by intros ? | right; split; [done | by apply (alive_buffered dpb st r q)]]. }
  destruct (next_idx dpb) as (i & Hi & ->). pose proof Hok as [Hl _ Hck Hs Hids].
  destruct (lookup_lt_is_Some_2 (buffers dpb) i) as [p Hp]; [by rewrite Hl |].
  assert (in_range 64 i) as Hri by (unfold in_range; lia).
  pose proof (with_idx_ok dpb st i Hok Hri) as Hok1. set (dpb1 := DPB i _ _) in *.
  assert (slot dpb1 i = p) as Hsl by (by apply slot_lookup). rewrite Hsl.
  assert (set_slot dpb1 i = fun x => DPB i (buffers_num dpb) (<[i := x]> (buffers dpb))) as Hset.
  { unfold set_slot. simpl. replace (slot_of i) with i; [done |].
    replace (Z.of_nat i) with (mkid i 0) by (unfold mkid; lia). by rewrite slot_of_mkid. }
  rewrite Forall_lookup in Hck. pose proof (next_cookie_range p (Hck i p Hp)) as Hc.
  set (c := if _ <=? _ then 0 else _) in *. destruct (lor_mkid i c Hi Hc) as [Hid Hno].
  destruct (pkt p) as [old |] eqn:Hpk.
  - destruct (Z.ltb_spec now (timeout p)) as [Hlt | Hge].
    + exists dpb1, st, NO_BUFFER. split_and!; [done | done | by intros ? | by left].
    + destruct (Hs i p old Hp Hpk) as (qo & Hqo & Hido). unfold set_buffer_id. rewrite Hqo.
      cbn [mbind option_bind]. unfold packet_destroy. rewrite lookup_insert_eq. cbn [mbind option_bind].
      rewrite buffer_id_with, Z.eqb_refl. cbn [mbind option_bind]. assert (old <> r) as Hor.
      { intros ->. by apply (stored_not_free dpb st i p r q Hok Hp Hpk Hr). }
      rewrite delete_insert_eq, lookup_delete_ne, Hr by done. cbn [mbind option_bind]. rewrite Hset, Hid.
      eexists _, _, _. split; [done |].
      pose proof (empty_slot_ok dpb1 st (delete old st) i p old 0 Hok1 Hp Hpk
        ltac:(intros; by rewrite lookup_delete_ne) ltac:(by rewrite lookup_delete_eq)) as Hok2.
      pose proof (fill_slot_ok _ _ i (PB None (cookie p) 0) r q c (now + OVERWRITE_SECS) i Hok2 Hri) as Hok3.
      simpl in Hok3. rewrite list_insert_insert_eq in Hok3.
      destruct (fill_buffered dpb1 i p r c (now + OVERWRITE_SECS) now Hp (or_intror Hge)) as [Hb Hkl].
      split_and!; [| done | right; by split].
      apply Hok3; [| done | done | by rewrite lookup_delete_ne | done].
      by rewrite list_lookup_insert_eq by (by eapply lookup_lt_Some).
  - unfold set_buffer_id. rewrite Hr. cbn [mbind option_bind]. rewrite Hset, Hid. eexists _, _, _. split; [done |].
    destruct (fill_buffered dpb1 i p r c (now + OVERWRITE_SECS) now Hp (or_introl Hpk)) as [Hb Hkl].
    split_and!; [| done | right; by split].
    by apply (fill_slot_ok dpb1 st i p r q c).
Qed.


Lemma retrieve_buffered dpb st r id :
  buffers_ok dpb st -> buffered dpb r id ->
  exists dpb' st', dp_buffers_retrieve dpb st id = Some (dpb', st', Some r) /\ buffers_ok dpb' st' /\
    (exists q, st !! r = Some q /\ st' !! r = Some (with_packet_out (with_buffer_id q NO_BUFFER) false)) /\
    forall r' id', buffered dpb' r' id' <-> buffered dpb r' id' /\ r' <> r.
Proof.
  intros Hok (i & p & Hi & Hp & ->). pose proof (buffers_lt _ _ _ _ Hok Hi) as Hlt.
  unfold dp_buffers_retrieve. rewrite slot_mkid, (slot_lookup dpb i p Hi Hlt), Hp by done.
  rewrite id_cookie_mkid, Z.eqb_refl by done. destruct (ok_stored _ _ Hok i p r Hi Hp) as (q & Hq & _).
  rewrite Hq. cbn [mbind option_bind]. eexists _, _. split; [done |]. unfold set_slot. rewrite slot_of_mkid by done.
  split_and!.
  - apply (empty_slot_ok dpb st _ i p r); [done | done | done | |].
    + intros. by rewrite lookup_insert_ne.
    + intros q'. rewrite lookup_insert_eq. intros [= <-]. by rewrite buffer_id_out, buffer_id_with.
  - exists q. by rewrite lookup_insert_eq.
  - intros r' id'. split.
    + intros (j & p' & Hj & Hp' & ->). simpl in Hj.
      apply list_lookup_insert_Some in Hj as [(-> & <- & _) | [Hij Hj]]; [done |].
      split; [by exists j, p' |]. intros ->. apply Hij. by apply (stored_once dpb st i j p p' r).
    + intros [(j & p' & Hj & Hp' & ->) Hne]. exists j, p'. simpl.
      rewrite list_lookup_insert_ne; [done |]. intros ->. congruence.
Qed.

(** Ids no packet has, the special one among them, give no packet. *)
Lemma retrieve_none dpb st id :
  buffers_ok dpb st -> 0 <= id -> (forall r, ~ buffered dpb r id) ->
  dp_buffers_retrieve dpb st id = Some (dpb, st, None).
Proof.
  intros Hok Hid Hn. unfold dp_buffers_retrieve.
  assert (id = mkid (slot_of id) (id_cookie id) /\ (slot_of id < 256)%nat) as [He Hlt].
  { unfold slot_of, id_cookie, mkid, PKT_BUFFER_MASK, PKT_BUFFER_BITS. change 255 with (Z.ones 8).
    rewrite Z.land_ones, Z.shiftr_div_pow2 by lia. change (2 ^ 8) with 256. lia. }
  destruct (lookup_lt_is_Some_2 (buffers dpb) (slot_of id)) as [p Hp]; [by rewrite (ok_len _ _ Hok) |].
  assert (slot dpb id = p) as -> by (unfold slot; by apply nth_lookup_Some with (d := PB None UINT32_MAX 0) in Hp).
  destruct (pkt p) as [r |] eqn:Hpk; [| done].
  destruct (Z.eqb_spec (cookie p) (id_cookie id)) as [Hc |]; [| done].
  destruct (Hn r). exists (slot_of id), p. by rewrite Hc.
Qed.

Lemma create_ok : buffers_ok dp_buffers_create (∅ : gmap pktref P).
Proof.
  split; [done | split; by vm_compute | | | done].
  - apply Forall_replicate. by left.
  - intros i p r [-> _]%lookup_replicate. done.
Qed.

End promises.

(** Saving a packet that is not buffered keeps the buffers consistent (every
    slot's packet is allocated and carries its id, every id leads to its packet) and
    takes no buffer that has not timed out from another packet. If it returns an id,
    retrieving that id gives the packet back with its id reset, and a second
    retrieval gives nothing. *)
Theorem buffers_save_retrieve {P} `{!BufferedPacket P} dpb (st : gmap pktref P) r q now :
  buffers_ok dpb st -> st !! r = Some q ->
  buffer_id q = NO_BUFFER \/ dp_buffers_is_alive dpb (buffer_id q) now = true ->
  exists dpb' st' id, dp_buffers_save dpb st r now = Some (dpb', st', id) /\
    buffers_ok dpb' st' /\ keeps_live dpb dpb' now /\
    (id <> NO_BUFFER -> exists dpb'' st'',
      dp_buffers_retrieve dpb' st' id = Some (dpb'', st'', Some r) /\ buffers_ok dpb'' st'' /\
      (exists q', st' !! r = Some q' /\ st'' !! r = Some (with_packet_out (with_buffer_id q' NO_BUFFER) false)) /\
      dp_buffers_retrieve dpb'' st'' id = Some (dpb'', st'', None)).
Proof.
  intros Hok Hr Hq. destruct (save_spec dpb st r q now Hok Hr Hq) as (dpb' & st' & id & Hs & Hok' & Hk & Hid).
  exists dpb', st', id. split_and!; [done | done | done |]. intros Hno.
  destruct Hid as [[? _] | [_ Hb]]; [done |].
  destruct (retrieve_buffered dpb' st' r id Hok' Hb) as (dpb'' & st'' & Hr' & Hok'' & Hq'' & Hb'').
  exists dpb'', st''. split_and!; [done | done | done |].
  apply retrieve_none; [done | |].
  - destruct Hb as (i & p & Hi & Hp & ->). pose proof (ok_cookies _ _ Hok') as Hc. rewrite Forall_lookup in Hc.
    destruct (Hc i p Hi) as [[_ ?] | ?]; [congruence |]. unfold mkid. lia.
  - intros r' Hbr. apply Hb'' in Hbr as [Hbr Hne]. apply Hne.
    destruct Hb as (i & p & Hi & Hp & ->), Hbr as (j & p' & Hj & Hp' & He).
    apply mkid_inj in He as [<- _]; [congruence | eauto using buffers_lt ..].
Qed.

(** Packets of which nothing but the id and the flag is known. *)
Definition demo_packets : BufferedPacket (Z * bool) :=
  {| buffer_id := fst; with_buffer_id p i := (i, p.2); with_packet_out p o := (p.1, o);
     buffer_id_with _ _ := eq_refl; buffer_id_out _ _ := eq_refl |}.

Lemma buffers_save_retrieve_witness :
  let H := demo_packets in
  exists dpb' st' id, dp_buffers_save dp_buffers_create {[1%positive := (NO_BUFFER, true)]} 1%positive 100 =
    Some (dpb', st', id) /\ id = 0 /\ buffers_ok dpb' st'.
Proof.
  intros H.
  destruct (buffers_save_retrieve dp_buffers_create {[1%positive := (NO_BUFFER, true)]} 1%positive
    (NO_BUFFER, true) 100) as (dpb' & st' & id & Hs & Hok & _).
  - pose proof (create_ok (P := Z * bool)) as [Hl Hi Hc Hs _]. split; [done | done | done | |].
    + intros i p r [-> _]%lookup_replicate. done.
    + intros r q [<- <-]%lookup_singleton_Some. done.
  - apply lookup_singleton_eq.
  - by left.
  - exists dpb', st', id. split_and!; [done | | done]. vm_compute in Hs. congruence.
Defined.

End Buffers.
