(* ===== verification/Meter.v ===== *)
(** Meters (udatapath/meter_entry.c, meter_table.c): the token buckets of the bands
    of a meter, the choice of the band, its effect on a packet, and the table with
    its modification and statistics messages. *)
From S2P Require Import Prelude Csum HMap Oxm OflTypes.
Open Scope Z_scope.

Module Meter.

Definition OFPMF_KBPS : Z := 1.
Definition OFPMF_PKTPS : Z := 2.
Definition OFPMF_BURST : Z := 4.
Definition OFPMF_STATS : Z := 8.
Definition has_flag (flags f : Z) : bool := negb (Z.land flags f =? 0).

(** [struct ofl_meter_band_*] *)
Inductive meter_band :=
  | Band_drop (rate burst_size : Z)
  | Band_dscp_remark (rate burst_size prec_level : Z)
  | Band_experimenter (rate burst_size experimenter : Z).

#[global] Instance meter_band_eq_dec : EqDecision meter_band.
Proof. solve_decision. Defined.

Definition band_rate (b : meter_band) : Z :=
  match b with Band_drop r _ | Band_dscp_remark r _ _ | Band_experimenter r _ _ => r end.
Definition band_burst_size (b : meter_band) : Z :=
  match b with Band_drop _ s | Band_dscp_remark _ s _ | Band_experimenter _ s _ => s end.

Record band_stats := BStats {
  packet_band_count : Z; byte_band_count : Z; last_fill : Z; tokens : Z }.

#[global] Instance band_stats_eq_dec : EqDecision band_stats.
Proof. solve_decision. Defined.

Record meter_config := MConfig { c_flags : Z; c_meter_id : Z; c_bands : list meter_band }.

#[global] Instance meter_config_eq_dec : EqDecision meter_config.
Proof. solve_decision. Defined.

Record meter_stats := MStats {
  s_meter_id : Z; flow_count : Z; packet_in_count : Z; byte_in_count : Z;
  duration_sec : Z; duration_nsec : Z; s_bands : list band_stats }.

#[global] Instance meter_stats_eq_dec : EqDecision meter_stats.
Proof. solve_decision. Defined.

(** A flow entry that refers to the meter, by its address. *)
Abbreviation flowref := positive.

Record meter_entry := MEntry {
  stats : meter_stats; config : meter_config; created : Z; flow_refs : list flowref }.

#[global] Instance meter_entry_eq_dec : EqDecision meter_entry.
Proof. solve_decision. Defined.

(** [struct ofl_msg_meter_mod] *)
Record meter_mod := MMod { mm_command : Z; mm_flags : Z; mm_meter_id : Z; mm_bands : list meter_band }.

(** * Entries *)

Definition meter_entry_create (mod_ : meter_mod) (now : Z) : meter_entry :=
  MEntry
    (MStats (mm_meter_id mod_) 0 0 0 0 0 (replicate (length (mm_bands mod_)) (BStats 0 0 now 0)))
    (MConfig (mm_flags mod_) (mm_meter_id mod_) (mm_bands mod_))
    now [].

Definition with_stats (e : meter_entry) (s : meter_stats) : meter_entry :=
  MEntry s (config e) (created e) (flow_refs e).
Definition with_bands (s : meter_stats) (bs : list band_stats) : meter_stats :=
  MStats (s_meter_id s) (flow_count s) (packet_in_count s) (byte_in_count s) (duration_sec s)
    (duration_nsec s) bs.

Definition meter_entry_update (e : meter_entry) (now : Z) : meter_entry :=
  let s := stats e in
  let d := u64 (now - created e) in
  with_stats e (MStats (s_meter_id s) (flow_count s) (packet_in_count s) (byte_in_count s)
    (u32 (d / 1000)) (u32 (d mod 1000 * 1000000)) (s_bands s)).

(** [meter_entry_destroy] removes the flows that refer to the meter: their list. *)
Definition meter_entry_destroy (e : meter_entry) : list flowref := flow_refs e.

(** [size] is [pkt->buffer->size]. *)
Definition consume_tokens (band : band_stats) (meter_flag size : Z) : band_stats * bool :=
  let take_tokens (cost : Z) :=
    if cost <=? tokens band
    then (BStats (packet_band_count band) (byte_band_count band) (last_fill band) (u64 (tokens band - cost)), true)
    else (band, false) in
  if has_flag meter_flag OFPMF_KBPS then take_tokens (u32 (size * 8))
  else if has_flag meter_flag OFPMF_PKTPS then take_tokens 1000
  else (band, false).

(** The loop of [choose_band] from band [i] on. *)
Fixpoint choose_band_loop (flags size : Z) (bands : list meter_band) (bs : list band_stats)
    (i tmp_rate band_index : Z) : list band_stats * Z :=
  match bands, bs with
  | b :: bands', s :: bs' =>
      let '(s', ok) := consume_tokens s flags size in
      let '(tmp_rate, band_index) :=
        if negb ok && (tmp_rate <? band_rate b) then (band_rate b, i) else (tmp_rate, band_index) in
      let '(rest, r) := choose_band_loop flags size bands' bs' (i + 1) tmp_rate band_index in
      (s' :: rest, r)
  | _, _ => (bs, band_index)
  end.

(** [(size_t) -1] *)
Definition no_band : Z := u64 (-1).

Definition choose_band (e : meter_entry) (size : Z) : meter_entry * Z :=
  let '(bs, b) :=
    choose_band_loop (c_flags (config e)) size (c_bands (config e)) (s_bands (stats e)) 0 0 no_band in
  (with_stats e (with_bands (stats e) bs), b).

(** ** The effect of a band *)

(** The fields of the IPv4 header the remark band changes: [ip_ihl_ver], [ip_tos]
    and [ip_csum] as loaded. *)
Record ipv4_header := IPv4 { ip_ihl_ver : Z; ip_tos : Z; ip_csum : Z }.

Definition remark_ipv4 (h : ipv4_header) (prec_level : Z) : ipv4_header :=
  let old_drop := Z.land (ip_tos h) 0x1c in
  if ((old_drop =? 0x8) && (prec_level <=? 2)) || ((old_drop =? 0x10) && (prec_level <=? 1)) then
    let new_drop := u8 (old_drop + Z.shiftl prec_level 3) in
    let new_tos := Z.lor new_drop (Z.land (ip_tos h) 0xe3) in
    let old_val := htons (u16 (Z.shiftl (ip_ihl_ver h) 8 + ip_tos h)) in
    let new_val := htons (u16 (Z.shiftl (ip_ihl_ver h) 8 + new_tos)) in
    IPv4 (ip_ihl_ver h) new_tos (recalc_csum16 (ip_csum h) old_val new_val)
  else h.

Definition remark_ipv6 (w : Z) (prec_level : Z) : Z :=
  let ver_tc_fl := ntohl w in
  let old_drop := Z.land ver_tc_fl 0x1c00000 in
  if ((old_drop =? 0x800000) && (prec_level <=? 2)) || ((old_drop =? 0x1000000) && (prec_level <=? 1)) then
    let new_drop := u32 (old_drop + u32 (Z.shiftl prec_level 23)) in
    htonl (Z.lor new_drop (Z.land ver_tc_fl 0xfe3fffff))
  else w.

Section apply.
(** What a meter uses of a packet: its size, and the remark of its DSCP to a level, which
    fails where it would read outside the packet. *)
Context {P : Type} (psize : P -> Z) (remark : P -> Z -> option P).

(** [meter_entry_apply]; the last result says that the packet is dropped. *)
Definition meter_entry_apply (e : meter_entry) (pkt : P) : option (meter_entry * P * bool) :=
  let s := stats e in
  let e := with_stats e (MStats (s_meter_id s) (flow_count s) (u64 (packet_in_count s + 1))
             (u64 (byte_in_count s + psize pkt)) (duration_sec s) (duration_nsec s) (s_bands s)) in
  let '(e, b) := choose_band e (psize pkt) in
  if b =? no_band then Some (e, pkt, false)
  else
    '(pkt, drop) ←
      match nth_error (c_bands (config e)) (Z.to_nat b) with
      | Some (Band_drop _ _) => Some (pkt, true)
      | Some (Band_dscp_remark _ _ prec_level) => pkt ← remark pkt prec_level; Some (pkt, false)
      | _ => Some (pkt, false)
      end;
    let count (t : band_stats) :=
      BStats (u64 (packet_band_count t + 1)) (u64 (byte_band_count t + psize pkt)) (last_fill t) (tokens t) in
    let e := with_stats e (with_bands (stats e) (alter count (Z.to_nat b) (s_bands (stats e)))) in
    Some (e, pkt, drop).
End apply.


(** ** Flow references *)

Definition has_flow_ref (e : meter_entry) (fe : flowref) : bool :=
  existsb (fun f => bool_decide (f = fe)) (flow_refs e).

(** [list_insert] before the head: at the end. *)
Definition meter_entry_add_flow_ref (e : meter_entry) (fe : flowref) : meter_entry :=
  if has_flow_ref e fe then e
  else
    let s := stats e in
    MEntry (MStats (s_meter_id s) (u32 (flow_count s + 1)) (packet_in_count s) (byte_in_count s)
              (duration_sec s) (duration_nsec s) (s_bands s))
      (config e) (created e) (flow_refs e ++ [fe]).

Definition meter_entry_del_flow_ref (e : meter_entry) (fe : flowref) : meter_entry :=
  let s := stats e in
  let gone := length (filter (fun f => f = fe) (flow_refs e)) in
  MEntry (MStats (s_meter_id s) (u32 (flow_count s - gone)) (packet_in_count s) (byte_in_count s)
            (duration_sec s) (duration_nsec s) (s_bands s))
    (config e) (created e) (filter (fun f => f <> fe) (flow_refs e)).

(** ** The token buckets *)

(** The rate and the burst size in tokens, 32 bits wide. *)
Definition token_rate (b : meter_band) : Z := u32 (band_rate b * 1000).
Definition token_burst (b : meter_band) : Z := u32 (band_burst_size b * 1000).

(** The loop body of [refill_bucket]: [elapsed] is a signed difference, the product
    and the division are signed, the sum is unsigned. *)
Definition refill_band (flags : Z) (b : meter_band) (s : band_stats) (now : Z) : band_stats :=
  let elapsed_msec := signed 64 (now - last_fill s) in
  let rate := token_rate b in
  let burst_size := token_burst b in
  let t := u64 (Z.quot (signed 64 (rate * elapsed_msec)) 1000 + tokens s) in
  let set_tokens v := BStats (packet_band_count s) (byte_band_count s) (u64 now) v in
  let limit := if has_flag flags OFPMF_BURST then burst_size else rate in
  if has_flag flags OFPMF_KBPS && (1 <=? t) then set_tokens (Z.min t limit)
  else if 1000 <=? t then set_tokens (Z.min t limit)
  else set_tokens (tokens s).

Definition refill_bucket (e : meter_entry) (now : Z) : meter_entry :=
  let bs := zip_with (fun b s => refill_band (c_flags (config e)) b s now)
              (c_bands (config e)) (s_bands (stats e)) in
  with_stats e (with_bands (stats e) bs).

(** * The table *)

Definition DEFAULT_MAX_METER : Z := 256.
Definition METER_TABLE_MAX_BANDS : Z := 1024.
Definition OFPMMFC_METER_EXISTS : Z := 1.
Definition OFPMMFC_UNKNOWN_METER : Z := 3.
Definition OFPMMFC_OUT_OF_METERS : Z := 10.
Definition OFPMMFC_OUT_OF_BANDS : Z := 11.
Definition OFPBRC_BAD_TYPE : Z := 1.
Definition OFPBRC_IS_SLAVE : Z := 10.
Definition OFPCR_ROLE_SLAVE : Z := 3.

Definition meter_error (code : Z) : Z := ofl_error OFPET_METER_MOD_FAILED code.

Section table.
Context {T : Type} `{!IdTable T meter_entry}.

Record meter_table := MTable { entries_num : Z; meter_entries : T; bands_num : Z }.

(** [meter_table_create] leaves [bands_num] as [xmalloc] gives it. *)
Definition meter_table_create (uninitialised : Z) : meter_table := MTable 0 tbl_empty uninitialised.

Definition meter_table_find (t : meter_table) (meter_id : Z) : option meter_entry :=
  tbl_find (meter_entries t) meter_id.

(** The writes through the pointer to one entry. *)
Definition write_entry (t : meter_table) (meter_id : Z) (e : meter_entry) : meter_table :=
  MTable (entries_num t)
    (tbl_update (meter_entries t) (fun h x => if h =? meter_id then e else x)) (bands_num t).

Definition meter_table_apply {P} (psize : P -> Z) (remark : P -> Z -> option P) (t : meter_table) (pkt : P)
    (meter_id : Z) : option (meter_table * P * bool) :=
  match meter_table_find t meter_id with
  | None => Some (t, pkt, false)
  | Some e => '(e', p, drop) ← meter_entry_apply psize remark e pkt; Some (write_entry t meter_id e', p, drop)
  end.

(** The handlers return the table, the error and the flows whose entries are removed
    with the meter. [None] is a corrupted hash chain. *)
Definition meter_table_add (t : meter_table) (m : meter_mod) (now : Z)
    : option (meter_table * Z * list flowref) :=
  match tbl_find (meter_entries t) (mm_meter_id m) with
  | Some _ => Some (t, meter_error OFPMMFC_METER_EXISTS, [])
  | None =>
      if entries_num t =? DEFAULT_MAX_METER then Some (t, meter_error OFPMMFC_OUT_OF_METERS, [])
      else if METER_TABLE_MAX_BANDS <? u64 (bands_num t + length (mm_bands m))
      then Some (t, meter_error OFPMMFC_OUT_OF_BANDS, [])
      else
        let e := meter_entry_create m now in
        Some (MTable (u64 (entries_num t + 1))
                (tbl_insert (meter_entries t) e (s_meter_id (stats e)))
                (u64 (bands_num t + length (s_bands (stats e)))), 0, [])
  end.

Definition meter_table_modify (t : meter_table) (m : meter_mod) (now : Z)
    : option (meter_table * Z * list flowref) :=
  match meter_table_find t (mm_meter_id m) with
  | None => Some (t, meter_error OFPMMFC_UNKNOWN_METER, [])
  | Some e =>
      if METER_TABLE_MAX_BANDS <? u64 (bands_num t - length (c_bands (config e)) + length (mm_bands m))
      then Some (t, meter_error OFPMMFC_OUT_OF_BANDS, [])
      else
        let n := meter_entry_create m now in
        (* the flow references and the counters of the old entry *)
        let n := MEntry
          (MStats (s_meter_id (stats n)) (flow_count (stats e)) (packet_in_count (stats e))
             (byte_in_count (stats e)) (duration_sec (stats e)) (duration_nsec (stats e)) (s_bands (stats n)))
          (config n) (created n) (flow_refs e) in
        tbl ← tbl_remove (meter_entries t) e (mm_meter_id m);
        let tbl := tbl_insert_fast tbl n (mm_meter_id m) in
        Some (MTable (entries_num t) tbl
                (u64 (bands_num t - length (c_bands (config e)) + length (s_bands (stats n)))), 0, [])
  end.

Definition meter_table_delete (t : meter_table) (m : meter_mod) : option (meter_table * Z * list flowref) :=
  if mm_meter_id m =? OFPM_ALL then
    Some (MTable 0 tbl_empty 0, 0, flat_map meter_entry_destroy (tbl_elems (meter_entries t)))
  else
    match meter_table_find t (mm_meter_id m) with
    | Some e =>
        tbl ← tbl_remove (meter_entries t) e (mm_meter_id m);
        Some (MTable (u64 (entries_num t - 1)) tbl (u64 (bands_num t - length (s_bands (stats e)))), 0,
              meter_entry_destroy e)
    | None => Some (t, 0, [])
    end.

Definition meter_table_handle_meter_mod (t : meter_table) (m : meter_mod) (role now : Z)
    : option (meter_table * Z * list flowref) :=
  if role =? OFPCR_ROLE_SLAVE then Some (t, ofl_error OFPET_BAD_REQUEST OFPBRC_IS_SLAVE, [])
  else if mm_command m =? 0 then meter_table_add t m now
  else if mm_command m =? 1 then meter_table_modify t m now
  else if mm_command m =? 2 then meter_table_delete t m
  else Some (t, ofl_error OFPET_BAD_REQUEST OFPBRC_BAD_TYPE, []).

Definition meter_table_add_tokens (t : meter_table) (now : Z) : meter_table :=
  MTable (entries_num t) (tbl_update (meter_entries t) (fun _ e => refill_bucket e now)) (bands_num t).

(** The statistics replies: [stats_num] and the array the message is built from. *)
Definition meter_table_handle_stats_request_meter (t : meter_table) (meter_id now : Z)
    : meter_table * (Z + Z * list meter_stats) :=
  if meter_id =? OFPM_ALL then
    let tbl := tbl_update (meter_entries t) (fun _ e => meter_entry_update e now) in
    (MTable (entries_num t) tbl (bands_num t), inr (entries_num t, stats <$> tbl_elems tbl))
  else
    match meter_table_find t meter_id with
    | None => (t, inl (meter_error OFPMMFC_UNKNOWN_METER))
    | Some e => let e := meter_entry_update e now in (write_entry t meter_id e, inr (1, [stats e]))
    end.

Definition meter_table_handle_stats_request_meter_conf (t : meter_table) (meter_id : Z)
    : Z + Z * list meter_config :=
  if meter_id =? OFPM_ALL then inr (entries_num t, config <$> tbl_elems (meter_entries t))
  else
    match meter_table_find t meter_id with
    | None => inl (meter_error OFPMMFC_UNKNOWN_METER)
    | Some e => inr (entries_num t, [config e])
    end.
End table.

Arguments meter_table T : clear implicits.


(** * The choice of the band *)

Definition exceeded (flags size : Z) (s : band_stats) : Prop := snd (consume_tokens s flags size) = false.

(** [r] is the first of the bands with the highest rate among those the packet
    exceeds, counted from [i]; or none of those has a rate above [low]. *)
Definition highest_exceeded (flags size : Z) (bands : list meter_band) (bs : list band_stats)
    (i low none r : Z) : Prop :=
  (r = none /\ forall j b s, bands !! j = Some b -> bs !! j = Some s -> exceeded flags size s ->
     band_rate b <= low) \/
  (exists j b s, r = i + Z.of_nat j /\ bands !! j = Some b /\ bs !! j = Some s /\ exceeded flags size s /\
     low < band_rate b /\
     forall j' b' s', bands !! j' = Some b' -> bs !! j' = Some s' -> exceeded flags size s' ->
       band_rate b' <= band_rate b /\ ((j' < j)%nat -> band_rate b' < band_rate b)).

Lemma highest_exceeded_cons flags size b s bands bs i low none r :
  exceeded flags size s -> low < band_rate b ->
  highest_exceeded flags size bands bs (i + 1) (band_rate b) i r ->
  highest_exceeded flags size (b :: bands) (s :: bs) i low none r.
Proof.
  intros He Hlt [[-> Hall] | (j & b1 & s1 & -> & Hb & Hs & He1 & Hr & Hall)]; right.
  - exists 0%nat, b, s. split_and!; [lia | done | done | done | done |].
    intros [| j'] b' s' Hb' Hs' He'; simplify_eq/=; [lia |]. specialize (Hall j' b' s' Hb' Hs' He'). lia.
  - exists (S j), b1, s1. split_and!; [lia | done | done | done | lia |].
    intros [| j'] b' s' Hb' Hs' He'; simplify_eq/=; [lia |].
    specialize (Hall j' b' s' Hb' Hs' He'). lia.
Qed.

Lemma highest_exceeded_skip flags size b s bands bs i low none r :
  (exceeded flags size s -> band_rate b <= low) ->
  highest_exceeded flags size bands bs (i + 1) low none r ->
  highest_exceeded flags size (b :: bands) (s :: bs) i low none r.
Proof.
  intros Hle [[-> Hall] | (j & b1 & s1 & -> & Hb & Hs & He1 & Hr & Hall)].
  - left. split; [done |]. intros [| j'] b' s' Hb' Hs' He'; simplify_eq/=; [by apply Hle | by eapply Hall].
  - right. exists (S j), b1, s1. split_and!; [lia | done | done | done | lia |].
    intros [| j'] b' s' Hb' Hs' He'; simplify_eq/=; [specialize (Hle He'); lia |].
    specialize (Hall j' b' s' Hb' Hs' He'). lia.
Qed.

Lemma choose_band_loop_spec flags size bands bs i low none :
  length bands = length bs ->
  let '(bs', r) := choose_band_loop flags size bands bs i low none in
  bs' = (fun s => fst (consume_tokens s flags size)) <$> bs /\
  highest_exceeded flags size bands bs i low none r.
Proof.
  revert bs i low none. induction bands as [| b bands IH]; intros [| s bs] i low none Hl; simplify_eq/=.
  - split; [done | left; by split].
  - destruct (consume_tokens s flags size) as [s' ok] eqn:Hc.
    assert (exceeded flags size s <-> ok = false) as He by (unfold exceeded; by rewrite Hc).
    assert (exists low' none', (if negb ok && (low <? band_rate b) then (band_rate b, i) else (low, none)) = (low', none') /\
      forall r, highest_exceeded flags size bands bs (i + 1) low' none' r ->
        highest_exceeded flags size (b :: bands) (s :: bs) i low none r) as (low' & none' & -> & Hcons).
    { destruct ok; cbn [negb andb]; [| destruct (Z.ltb_spec low (band_rate b))]; eexists _, _; (split; [done |]);
        intros r; [apply highest_exceeded_skip | apply highest_exceeded_cons | apply highest_exceeded_skip];
        (done || (rewrite He; done || lia)). }
    specialize (IH bs (i + 1) low' none' Hl). destruct (choose_band_loop _ _ _ _ _ _ _) as [rest r].
    destruct IH as [-> Hr]. split; [done | by apply Hcons].
Qed.

(** * The token buckets *)

(** The tokens a band may hold. *)
Definition limit (flags : Z) (b : meter_band) : Z :=
  if has_flag flags OFPMF_BURST then token_burst b else token_rate b.

Lemma token_rate_range b : in_range 32 (token_rate b).
Proof. by apply wrap_range. Qed.
Lemma limit_range flags b : in_range 32 (limit flags b).
Proof. unfold limit. destruct (has_flag _ _); by apply wrap_range. Qed.

(** A band that was filled at a time before [now], with no overflow of the signed
    product. *)
Record refillable (flags : Z) (b : meter_band) (s : band_stats) (now : Z) : Prop := {
  rf_tokens : 0 <= tokens s <= limit flags b;
  rf_time : 0 <= last_fill s <= now;
  rf_now : now < 2 ^ 63;
  rf_product : token_rate b * (now - last_fill s) < 2 ^ 63;
}.

Lemma signed_small z : 0 <= z < 2 ^ 63 -> signed 64 z = z.
Proof. intros Hz. unfold signed. rewrite wrap_small by (unfold in_range; lia). destruct (Z.ltb_spec z (2 ^ (64 - 1))); lia. Qed.

Lemma refill_band_spec flags b s now :
  refillable flags b s now ->
  let s' := refill_band flags b s now in
  0 <= tokens s' <= limit flags b /\ last_fill s' = now /\
  tokens s' <= tokens s + token_rate b * (now - last_fill s) / 1000.
Proof.
  intros [Ht Htm Hn Hp]. pose proof (token_rate_range b) as Hr. pose proof (limit_range flags b) as Hl.
  unfold in_range in *. unfold refill_band. fold (limit flags b).
  rewrite (signed_small (now - last_fill s)), (signed_small (token_rate b * _)) by nia.
  rewrite Z.quot_div_nonneg by nia.
  assert (0 <= token_rate b * (now - last_fill s) / 1000 < 2 ^ 63) by (split; [apply Z.div_pos | apply Z.div_lt_upper_bound]; nia).
  rewrite (wrap_small 64 (_ + tokens s)) by (unfold in_range; lia).
  rewrite (wrap_small 64 now) by (unfold in_range; lia).
  destruct (has_flag flags OFPMF_KBPS && _); [| destruct (1000 <=? _)]; simpl; lia.
Qed.


(** What a packet costs a band. *)
Definition cost (flags size : Z) : Z := if has_flag flags OFPMF_KBPS then u32 (size * 8) else 1000.

Lemma consume_tokens_spec flags s size s' ok :
  0 <= tokens s < 2 ^ 64 -> consume_tokens s flags size = (s', ok) ->
  last_fill s' = last_fill s /\ 0 <= tokens s' /\
  tokens s' = tokens s - (if ok then cost flags size else 0) /\
  (ok = false -> s' = s).
Proof.
  intros Ht. unfold consume_tokens, cost.
  assert (0 <= u32 (size * 8)) as Hu by (apply (wrap_range 32); lia).
  destruct (has_flag flags OFPMF_KBPS); [| destruct (has_flag flags OFPMF_PKTPS)].
  - destruct (Z.leb_spec (u32 (size * 8)) (tokens s)); intros ?; simplify_eq/=;
      [rewrite wrap_small by (unfold in_range; lia) |]; split_and!; (done || lia).
  - destruct (Z.leb_spec 1000 (tokens s)); intros ?; simplify_eq/=;
      [rewrite wrap_small by (unfold in_range; lia) |]; split_and!; (done || lia).
  - intros ?; simplify_eq/=. split_and!; (done || lia).
Qed.

(** The life of one band: refills at given times and packets of given sizes. *)
Inductive band_event := Refill (now : Z) | Packet (size : Z).

(** The state of the band and the tokens its conforming packets have used. *)
Definition band_step (flags : Z) (b : meter_band) (st : band_stats * Z) (ev : band_event) : band_stats * Z :=
  match ev with
  | Refill now => (refill_band flags b (fst st) now, snd st)
  | Packet size =>
      let '(s, ok) := consume_tokens (fst st) flags size in (s, snd st + if ok then cost flags size else 0)
  end.

Definition band_run (flags : Z) (b : meter_band) (s : band_stats) (evs : list band_event) : band_stats * Z :=
  fold_left (band_step flags b) evs (s, 0).

(** The clock does not go back, and no product overflows. *)
Fixpoint clock_ok (b : meter_band) (last : Z) (evs : list band_event) : Prop :=
  match evs with
  | [] => True
  | Refill now :: r =>
      last <= now < 2 ^ 63 /\ token_rate b * (now - last) < 2 ^ 63 /\ clock_ok b now r
  | Packet _ :: r => clock_ok b last r
  end.

Lemma div_sum_le a b : a / 1000 + b / 1000 <= (a + b) / 1000.
Proof. lia. Qed.

Lemma band_run_bound flags b evs : forall s used,
  0 <= tokens s <= limit flags b -> 0 <= last_fill s -> clock_ok b (last_fill s) evs ->
  let '(s', used') := fold_left (band_step flags b) evs (s, used) in
  0 <= tokens s' <= limit flags b /\ last_fill s <= last_fill s' /\
  used' - used + tokens s' <= tokens s + token_rate b * (last_fill s' - last_fill s) / 1000.
Proof.
  pose proof (limit_range flags b) as Hlim. unfold in_range in Hlim.
  induction evs as [| [now | size] evs IH]; intros s used Ht Hl Hc; cbn [fold_left band_step fst snd].
  - replace (last_fill s - last_fill s) with 0 by lia. rewrite Z.mul_0_r, Z.div_0_l by lia. lia.
  - destruct Hc as (Hn & Hp & Hc).
    destruct (refill_band_spec flags b s now) as (Ht' & Hf' & Hle); [split; lia |].
    specialize (IH (refill_band flags b s now) used Ht' ltac:(lia)). rewrite Hf' in IH.
    specialize (IH Hc). destruct (fold_left _ evs _) as [s' used']. destruct IH as (H1 & H2 & H3).
    split_and!; [lia | lia | lia |].
    pose proof (div_sum_le (token_rate b * (now - last_fill s)) (token_rate b * (last_fill s' - now))) as Hd.
    replace (token_rate b * (now - last_fill s) + token_rate b * (last_fill s' - now))
      with (token_rate b * (last_fill s' - last_fill s)) in Hd by lia. lia.
  - destruct (consume_tokens s flags size) as [s1 ok] eqn:Hcs.
    apply consume_tokens_spec in Hcs as (Hf & H0 & Hts & _); [| lia].
    assert (0 <= (if ok then cost flags size else 0)) as Hcost.
    { destruct ok; [| lia]. unfold cost. destruct (has_flag _ _); [apply (wrap_range 32); lia | lia]. }
    cbn [clock_ok] in Hc. rewrite <- Hf in Hc.
    specialize (IH s1 (used + if ok then cost flags size else 0) ltac:(lia) ltac:(lia) Hc).
    destruct (fold_left _ evs _) as [s' used']. rewrite Hf in IH. lia.
Qed.

(** ** Remarking *)

Lemma remark_tos_table :
  forallb (fun tos => forallb (fun prec =>
    let h := IPv4 0x45 (Z.of_nat tos) 0 in
    let t := ip_tos (remark_ipv4 h (Z.of_nat prec)) in
    let d := Z.land (Z.of_nat tos) 0x1c in
    (Z.land t 0xe3 =? Z.land (Z.of_nat tos) 0xe3) && (0 <=? t) && (t <? 256) &&
    (Z.land t 0x1c =?
       if ((d =? 0x8) && (Z.of_nat prec <=? 2)) || ((d =? 0x10) && (Z.of_nat prec <=? 1))
       then d + 8 * Z.of_nat prec else d)) (seq 0 3)) (seq 0 256) = true.
Proof. by vm_compute. Qed.


(** * The table as a finite map *)

(** The reference: what a message does to the map from identifiers to meters. *)
Definition modified_entry (e : meter_entry) (m : meter_mod) (now : Z) : meter_entry :=
  MEntry
    (MStats (mm_meter_id m) (flow_count (stats e)) (packet_in_count (stats e)) (byte_in_count (stats e))
       (duration_sec (stats e)) (duration_nsec (stats e)) (replicate (length (mm_bands m)) (BStats 0 0 now 0)))
    (MConfig (mm_flags m) (mm_meter_id m) (mm_bands m)) now (flow_refs e).

Definition nbands (e : meter_entry) : Z := length (c_bands (config e)).

Definition add_spec (M : gmap Z meter_entry) (m : meter_mod) (now : Z) : Z + gmap Z meter_entry :=
  match M !! mm_meter_id m with
  | Some _ => inl (meter_error OFPMMFC_METER_EXISTS)
  | None =>
      if Z.of_nat (size M) =? 256 then inl (meter_error OFPMMFC_OUT_OF_METERS)
      else if 1024 <? msum nbands M + length (mm_bands m) then inl (meter_error OFPMMFC_OUT_OF_BANDS)
      else inr (<[mm_meter_id m := meter_entry_create m now]> M)
  end.

Definition modify_spec (M : gmap Z meter_entry) (m : meter_mod) (now : Z) : Z + gmap Z meter_entry :=
  match M !! mm_meter_id m with
  | None => inl (meter_error OFPMMFC_UNKNOWN_METER)
  | Some e =>
      if 1024 <? msum nbands M - nbands e + length (mm_bands m) then inl (meter_error OFPMMFC_OUT_OF_BANDS)
      else inr (<[mm_meter_id m := modified_entry e m now]> M)
  end.

Section refinement.
Context {T : Type} `{!IdTable T meter_entry}.
Implicit Types t : meter_table T.

Definition tmap t : gmap Z meter_entry := tbl_map (meter_entries t).

Definition entry_ok (h : Z) (e : meter_entry) : Prop :=
  s_meter_id (stats e) = h /\ c_meter_id (config e) = h /\ length (s_bands (stats e)) = length (c_bands (config e)).

(** The counters of the table count its entries and their bands, within the limits
    of the implementation. *)
Record table_ok t : Prop := {
  tok_tbl : tbl_ok (meter_entries t);
  tok_entries : entries_num t = size (tmap t);
  tok_max : Z.of_nat (size (tmap t)) <= 256;
  tok_bands : bands_num t = msum nbands (tmap t);
  tok_max_bands : msum nbands (tmap t) <= 1024;
  tok_entry : map_Forall entry_ok (tmap t);
}.

Lemma nbands_nonneg e : 0 <= nbands e.
Proof. unfold nbands. lia. Qed.

Lemma find_tmap t h : table_ok t -> 0 <= h -> meter_table_find t h = tmap t !! h.
Proof. intros Hok Hh. apply tbl_find_map; [by apply Hok | done]. Qed.

Lemma count_lt t : table_ok t -> tbl_count (meter_entries t) + 2 < 2 ^ 64.
Proof.
  intros Hok. rewrite tbl_count_map by (by apply Hok). pose proof (tok_max t Hok). unfold tmap in *. lia.
Qed.

Lemma create_entry_ok m now : entry_ok (mm_meter_id m) (meter_entry_create m now).
Proof. unfold entry_ok, meter_entry_create. simpl. by rewrite length_replicate. Qed.

Lemma meter_table_add_refines t m now :
  table_ok t -> 0 <= mm_meter_id m -> Z.of_nat (length (mm_bands m)) < 2 ^ 32 ->
  exists t' err, meter_table_add t m now = Some (t', err, []) /\ table_ok t' /\
    match add_spec (tmap t) m now with
    | inl e => err = e /\ t' = t
    | inr M' => err = 0 /\ tmap t' = M'
    end.
Proof.
  intros Hok Hid Hlb. unfold meter_table_add, add_spec.
  pose proof (find_tmap t _ Hok Hid) as Hf. unfold meter_table_find in Hf. rewrite Hf.
  destruct (tmap t !! mm_meter_id m) as [e |] eqn:Hm; [by eexists _, _ |].
  rewrite (tok_entries t Hok). destruct (Z.eqb_spec (size (tmap t)) DEFAULT_MAX_METER) as [Hfull | Hfull];
    [rewrite Hfull; by eexists _, _ |].
  rewrite (proj2 (Z.eqb_neq (size (tmap t)) 256) Hfull).
  pose proof (tok_max_bands t Hok) as Hb. pose proof (msum_nonneg nbands (tmap t) nbands_nonneg) as Hb0.
  rewrite (tok_bands t Hok), wrap_small by (unfold in_range; lia). unfold METER_TABLE_MAX_BANDS.
  destruct (Z.ltb_spec 1024 (msum nbands (tmap t) + length (mm_bands m))); [by eexists _, _ |].
  pose proof (tok_max t Hok) as Hmax. unfold DEFAULT_MAX_METER in Hfull.
  eexists _, _. split; [done |]. cbn [s_meter_id stats meter_entry_create s_bands].
  destruct (tbl_insert_map (meter_entries t) (meter_entry_create m now) (mm_meter_id m)
    (tok_tbl t Hok) Hid Hm (count_lt t Hok)) as [Htok Htm].
  rewrite length_replicate. split; [| by split]. unfold tmap in *. split; unfold tmap; simpl; rewrite ?Htm.
  - done.
  - rewrite map_size_insert_None, wrap_small by (done || unfold in_range; lia). lia.
  - rewrite map_size_insert_None by done. lia.
  - rewrite msum_insert, wrap_small by (done || unfold in_range; lia). unfold nbands at 2. simpl. lia.
  - rewrite msum_insert by done. unfold nbands at 1. simpl. lia.
  - apply map_Forall_insert_2; [apply create_entry_ok | apply (tok_entry t Hok)].
Qed.


Lemma meter_table_modify_refines t m now :
  table_ok t -> 0 <= mm_meter_id m -> Z.of_nat (length (mm_bands m)) < 2 ^ 32 ->
  exists t' err, meter_table_modify t m now = Some (t', err, []) /\ table_ok t' /\
    match modify_spec (tmap t) m now with
    | inl e => err = e /\ t' = t
    | inr M' => err = 0 /\ tmap t' = M'
    end.
Proof.
  intros Hok Hid Hlb. unfold meter_table_modify, modify_spec. rewrite find_tmap by done.
  destruct (tmap t !! mm_meter_id m) as [e |] eqn:Hm; [| by eexists _, _].
  pose proof (tok_max_bands t Hok) as Hb. pose proof (msum_lookup_le nbands (tmap t) _ e nbands_nonneg Hm) as Hle.
  pose proof (nbands_nonneg e) as Hbe. change (Z.of_nat (length (c_bands (config e)))) with (nbands e).
  rewrite (tok_bands t Hok), wrap_small by (unfold in_range; lia). unfold METER_TABLE_MAX_BANDS.
  destruct (Z.ltb_spec 1024 (msum nbands (tmap t) - nbands e + length (mm_bands m))); [by eexists _, _ |].
  destruct (tbl_replace_map (meter_entries t) e (modified_entry e m now) (mm_meter_id m)
    (tok_tbl t Hok) Hid Hm (count_lt t Hok)) as (tbl' & Hr & Htok & Htm).
  rewrite Hr. cbn [mbind option_bind]. eexists _, _. split; [done |].
  cbn [s_bands stats meter_entry_create s_meter_id config created].
  rewrite length_replicate. fold (modified_entry e m now). split; [| by split].
  assert (size (<[mm_meter_id m := modified_entry e m now]> (tmap t)) = size (tmap t)) as Hsz
    by (by rewrite map_size_insert, Hm).
  unfold tmap in *. split; unfold tmap; simpl; rewrite ?Htm.
  - done.
  - rewrite Hsz. apply (tok_entries t Hok).
  - rewrite Hsz. apply (tok_max t Hok).
  - rewrite (msum_replace nbands _ _ e), wrap_small by (done || unfold in_range; lia). done.
  - by rewrite (msum_replace nbands _ _ e) by done.
  - apply map_Forall_insert_2; [| apply (tok_entry t Hok)].
    unfold entry_ok. simpl. by rewrite length_replicate.
Qed.

Lemma empty_table_ok : table_ok (MTable 0 (tbl_empty (T := T)) 0).
Proof.
  destruct tbl_empty_ok as [Hok Hm]. split; unfold tmap; simpl; rewrite ?Hm; try done.
Qed.

Lemma meter_table_delete_refines t m :
  table_ok t -> 0 <= mm_meter_id m ->
  exists t' gone, meter_table_delete t m = Some (t', 0, gone) /\ table_ok t' /\
    if mm_meter_id m =? OFPM_ALL
    then tmap t' = ∅ /\ gone ≡ₚ flat_map flow_refs ((map_to_list (tmap t)).*2)
    else tmap t' = delete (mm_meter_id m) (tmap t) /\
         gone = match tmap t !! mm_meter_id m with Some e => flow_refs e | None => [] end.
Proof.
  intros Hok Hid. unfold meter_table_delete. destruct (Z.eqb_spec (mm_meter_id m) OFPM_ALL).
  - eexists _, _. split_and!; [done | apply empty_table_ok | apply tbl_empty_ok |].
    unfold tmap. by rewrite (tbl_elems_map (meter_entries t)) by (by apply Hok).
  - rewrite find_tmap by done. destruct (tmap t !! mm_meter_id m) as [e |] eqn:Hm.
    2:{ eexists _, _. split_and!; [done | done | by rewrite delete_id | done]. }
    destruct (tbl_remove_map (meter_entries t) e _ (tok_tbl t Hok) Hm) as (tbl' & Hr & Htok & Htm).
    rewrite Hr. cbn [mbind option_bind]. eexists _, _. split; [done |].
    assert (size (delete (mm_meter_id m) (tmap t)) = Nat.pred (size (tmap t)) /\ (0 < size (tmap t))%nat) as [Hsz Hs0].
    { split; [by rewrite map_size_delete, Hm |]. destruct (decide (size (tmap t) = 0%nat)) as [H0 |]; [| lia].
      apply map_size_empty_inv in H0. rewrite H0 in Hm. done. }
    pose proof (msum_lookup_le nbands (tmap t) _ e nbands_nonneg Hm) as Hle. pose proof (nbands_nonneg e) as Hbe.
    pose proof (tok_max_bands t Hok) as Hb. pose proof (tok_max t Hok) as Hmx.
    destruct (tok_entry t Hok _ _ Hm) as (_ & _ & Hl). rewrite Hl.
    change (Z.of_nat (length (c_bands (config e)))) with (nbands e).
    split; [| by split]. unfold tmap in *. split; unfold tmap; simpl; rewrite ?Htm.
    + done.
    + rewrite Hsz, (tok_entries t Hok). unfold tmap. rewrite wrap_small by (unfold in_range; lia). lia.
    + rewrite Hsz. lia.
    + rewrite (msum_delete nbands _ _ e), (tok_bands t Hok) by done. unfold tmap.
      rewrite wrap_small by (unfold in_range; lia). done.
    + rewrite (msum_delete nbands _ _ e) by done. lia.
    + apply map_Forall_delete, (tok_entry t Hok).
Qed.

(** Writes that keep the identifier and the bands keep the table. *)
Lemma update_table_ok t f :
  table_ok t -> (forall h e, entry_ok h e -> entry_ok h (f h e) /\ config (f h e) = config e) ->
  let t' := MTable (entries_num t) (tbl_update (meter_entries t) f) (bands_num t) in
  table_ok t' /\ forall h, tmap t' !! h = f h <$> tmap t !! h.
Proof.
  intros Hok Hf t'. destruct (tbl_update_map (meter_entries t) f (tok_tbl t Hok)) as [Htok Hl].
  assert (tmap t' = map_imap (fun h e => Some (f h e)) (tmap t)) as Hm.
  { apply map_eq. intros h. rewrite map_lookup_imap. unfold tmap, t'. simpl. rewrite Hl. by destruct (_ !! h). }
  assert (size (tmap t') = size (tmap t)) as Hsz.
  { rewrite <- !size_dom. f_equal. apply set_eq. intros h. unfold tmap, t'. simpl. rewrite !elem_of_dom, Hl.
    apply fmap_is_Some. }
  assert (msum nbands (tmap t') = msum nbands (tmap t)) as Hsum.
  { rewrite Hm. pose proof (tok_entry t Hok) as Hent. clear -Hf Hent. revert Hent.
    induction (tmap t) as [| h e M Hh IH] using map_ind; intros Hent; [by rewrite map_imap_empty |].
    apply map_Forall_insert in Hent as [He HM]; [| done].
    rewrite (map_imap_insert_Some _ _ _ _ (f h e)) by done.
    rewrite !msum_insert, IH by (done || by rewrite map_lookup_imap, Hh).
    unfold nbands. by rewrite (proj2 (Hf h e He)). }
  split; [| done]. pose proof Hok as [H1 H2 H3 H4 H5 H6].
  split; rewrite ?Hsz, ?Hsum; try done. intros h e. unfold tmap, t'. simpl. rewrite Hl.
  intros (e0 & He0 & ->)%fmap_Some. by apply Hf, H6.
Qed.
End refinement.


(** * Properties *)

(** C31. The meter table is a finite map from identifiers to meters: adding, modifying
    and deleting do what they do to the map, with the errors of the protocol and
    nothing changed on an error; the counters keep counting entries and bands and
    the limits of 256 meters and 1024 bands hold. A modified meter keeps its flow
    references and counters; deleting removes the flows that refer to the meter. *)
Theorem meter_mod_refines `{!IdTable T meter_entry} (t : meter_table T) m role now :
  table_ok t -> 0 <= mm_meter_id m -> Z.of_nat (length (mm_bands m)) < 2 ^ 32 ->
  exists t' err gone, meter_table_handle_meter_mod t m role now = Some (t', err, gone) /\ table_ok t' /\
    if role =? OFPCR_ROLE_SLAVE then
      err = ofl_error OFPET_BAD_REQUEST OFPBRC_IS_SLAVE /\ t' = t /\ gone = []
    else if mm_command m =? 0 then
      gone = [] /\ match add_spec (tmap t) m now with
                   | inl e => err = e /\ t' = t | inr M' => err = 0 /\ tmap t' = M' end
    else if mm_command m =? 1 then
      gone = [] /\ match modify_spec (tmap t) m now with
                   | inl e => err = e /\ t' = t | inr M' => err = 0 /\ tmap t' = M' end
    else if mm_command m =? 2 then
      err = 0 /\
      if mm_meter_id m =? OFPM_ALL
      then tmap t' = ∅ /\ gone ≡ₚ flat_map flow_refs ((map_to_list (tmap t)).*2)
      else tmap t' = delete (mm_meter_id m) (tmap t) /\
           gone = match tmap t !! mm_meter_id m with Some e => flow_refs e | None => [] end
    else err = ofl_error OFPET_BAD_REQUEST OFPBRC_BAD_TYPE /\ t' = t /\ gone = [].
Proof.
  intros Hok Hid Hlb. unfold meter_table_handle_meter_mod.
  destruct (role =? OFPCR_ROLE_SLAVE); [by eexists _, _, _ |].
  destruct (mm_command m =? 0).
  { destruct (meter_table_add_refines t m now Hok Hid Hlb) as (t' & err & Hr & Hok' & Hs).
    exists t', err, []. done. }
  destruct (mm_command m =? 1).
  { destruct (meter_table_modify_refines t m now Hok Hid Hlb) as (t' & err & Hr & Hok' & Hs).
    exists t', err, []. done. }
  destruct (mm_command m =? 2); [| by eexists _, _, _].
  destruct (meter_table_delete_refines t m Hok Hid) as (t' & gone & Hr & Hok' & Hs).
  exists t', 0, gone. done.
Qed.

Definition demo_mod : meter_mod := MMod 0 OFPMF_KBPS 7 [Band_drop 1000 0].

Lemma meter_mod_refines_witness :
  exists t' err gone,
    meter_table_handle_meter_mod (T := hmap meter_entry) (MTable 0 tbl_empty 0) demo_mod 2 5 = Some (t', err, gone) /\
    err = 0 /\ meter_table_find t' 7 = Some (meter_entry_create demo_mod 5).
Proof.
  destruct (meter_mod_refines (T := hmap meter_entry) (MTable 0 tbl_empty 0) demo_mod 2 5)
    as (t' & err & gone & Hr & Hok & _ & He & Hm).
  - apply (empty_table_ok (T := hmap meter_entry)).
  - by vm_compute.
  - by vm_compute.
  - exists t', err, gone. split_and!; [done | done |]. rewrite find_tmap by done. by rewrite Hm.
Defined.

(** C32. A band conforms to its rate: over any sequence of refills and packets the
    bucket never holds more than its limit (the burst size, or one second of the
    rate), and the tokens its conforming packets use plus those left never exceed
    what it started with plus what the rate gives for the time elapsed. *)
Theorem meter_band_conformance flags b s evs :
  0 <= tokens s <= limit flags b -> 0 <= last_fill s -> clock_ok b (last_fill s) evs ->
  let '(s', used) := band_run flags b s evs in
  0 <= tokens s' <= limit flags b /\ last_fill s <= last_fill s' /\
  used + tokens s' <= tokens s + token_rate b * (last_fill s' - last_fill s) / 1000.
Proof.
  intros Ht Hl Hc. unfold band_run. pose proof (band_run_bound flags b evs s 0 Ht Hl Hc) as H.
  destruct (fold_left _ evs _) as [s' used]. rewrite Z.sub_0_r in H. done.
Qed.

Lemma meter_band_conformance_witness :
  let '(s', used) := band_run OFPMF_KBPS (Band_drop 8 0) (BStats 0 0 0 0) [Refill 1000; Packet 500; Packet 600] in
  used = 4000 /\ used + tokens s' <= 8000.
Proof.
  pose proof (meter_band_conformance OFPMF_KBPS (Band_drop 8 0) (BStats 0 0 0 0)
    [Refill 1000; Packet 500; Packet 600]) as H.
  destruct H as (_ & _ & H); [by vm_compute | by vm_compute | by vm_compute |].
  split; [by vm_compute |]. by vm_compute in H.
Defined.

(** Counting a packet in a band leaves the tokens. *)
Lemma list_alter_tokens f i (bs : list band_stats) :
  (forall s, tokens (f s) = tokens s) -> tokens <$> alter f i bs = tokens <$> bs.
Proof.
  intros Hf. apply list_eq. intros j. rewrite !list_lookup_fmap. destruct (decide (i = j)) as [<- |].
  - rewrite list_lookup_alter_eq. destruct (bs !! i); simpl; [by rewrite Hf | done].
  - by rewrite list_lookup_alter_ne.
Qed.

(** A meter acts on a packet through one band: the one with the highest rate
    among the bands the packet exceeds, the first of these. That band drops or
    remarks the packet and counts it; if there is none, the packet passes unchanged.
    Every band it does not exceed pays for it. *)
Theorem meter_apply_chooses_band {P} (psize : P -> Z) remark e pkt :
  length (c_bands (config e)) = length (s_bands (stats e)) ->
  exists b, highest_exceeded (c_flags (config e)) (psize pkt) (c_bands (config e)) (s_bands (stats e)) 0 0 no_band b /\
    let effect := if b =? no_band then Some (pkt, false)
                  else match nth_error (c_bands (config e)) (Z.to_nat b) with
                       | Some (Band_drop _ _) => Some (pkt, true)
                       | Some (Band_dscp_remark _ _ prec) => p' ← remark pkt prec; Some (p', false)
                       | _ => Some (pkt, false)
                       end in
    match effect with
    | None => meter_entry_apply psize remark e pkt = None
    | Some (pkt', drop) => exists e', meter_entry_apply psize remark e pkt = Some (e', pkt', drop) /\
        tokens <$> s_bands (stats e') =
          (fun s => tokens (fst (consume_tokens s (c_flags (config e)) (psize pkt)))) <$> s_bands (stats e)
    end.
Proof.
  intros Hl. unfold meter_entry_apply, choose_band. cbn [stats with_stats config s_bands].
  pose proof (choose_band_loop_spec (c_flags (config e)) (psize pkt) (c_bands (config e)) (s_bands (stats e))
    0 0 no_band Hl) as Hs.
  destruct (choose_band_loop _ _ _ _ _ _ _) as [bs b]. destruct Hs as [-> Hb].
  exists b. split; [done |]. cbv zeta. destruct (b =? no_band).
  - eexists. split; [done |]. cbn [stats with_stats with_bands s_bands]. by rewrite <- list_fmap_compose.
  - cbn [config with_stats]. destruct (match nth_error _ _ with Some _ => _ | None => _ end) as [[pkt' drop] |]; [| done].
    cbn [mbind option_bind]. eexists. split; [done |].
    cbn [stats with_stats with_bands s_bands].
    rewrite list_alter_tokens by done. by rewrite <- list_fmap_compose.
Qed.

(** A meter with a drop band and an empty bucket. *)
Definition demo_entry : meter_entry := meter_entry_create demo_mod 0.

Lemma meter_apply_chooses_band_witness :
  exists b, highest_exceeded OFPMF_KBPS 64 [Band_drop 1000 0] [BStats 0 0 0 0] 0 0 no_band b /\
    b = 0 /\ exists e', meter_entry_apply (P := Z) id (fun p _ => Some p) demo_entry 64 = Some (e', 64, true).
Proof.
  destruct (meter_apply_chooses_band (P := Z) id (fun p _ => Some p) demo_entry 64 eq_refl)
    as (b & Hb & Ha).
  exists b. split; [exact Hb |].
  assert (b = 0) as ->.
  { destruct Hb as [[-> Hn] | (j & b' & s & -> & Hb & _)].
    - specialize (Hn 0%nat _ _ eq_refl eq_refl). vm_compute in Hn. exfalso. by apply Hn.
    - destruct j; [done |]. by destruct j. }
  split; [done |]. destruct Ha as (e' & He & _). exists e'. exact He.
Defined.

(** Remarking raises the drop precedence by the level of the band, only from low or
    medium and not past high, and changes no other bit of the type of service. *)
Lemma remark_ipv4_tos h prec :
  byte_ok (ip_tos h) -> 0 <= prec ->
  let t := ip_tos (remark_ipv4 h prec) in
  let d := Z.land (ip_tos h) 0x1c in
  byte_ok t /\ Z.land t 0xe3 = Z.land (ip_tos h) 0xe3 /\
  Z.land t 0x1c =
    (if ((d =? 0x8) && (prec <=? 2)) || ((d =? 0x10) && (prec <=? 1)) then d + 8 * prec else d).
Proof.
  intros Ht Hp. destruct (Z.le_gt_cases prec 2) as [H2 | H2].
  - pose proof remark_tos_table as Htab. rewrite forallb_forall in Htab.
    specialize (Htab (Z.to_nat (ip_tos h))). unfold in_range in Ht.
    rewrite in_seq in Htab. specialize (Htab ltac:(lia)). rewrite forallb_forall in Htab.
    specialize (Htab (Z.to_nat prec)). rewrite in_seq in Htab. specialize (Htab ltac:(lia)).
    rewrite !Z2Nat.id in Htab by lia. rewrite !andb_true_iff, !Z.eqb_eq, Z.leb_le, Z.ltb_lt in Htab.
    assert (ip_tos (remark_ipv4 h prec) = ip_tos (remark_ipv4 (IPv4 0x45 (ip_tos h) 0) prec)) as ->
      by (unfold remark_ipv4; simpl; by destruct (_ || _)).
    destruct Htab as [[[H1 H3] H4] H5]. by split_and!.
  - unfold remark_ipv4. rewrite (proj2 (Z.leb_gt prec 2)), (proj2 (Z.leb_gt prec 1)), !andb_false_r by lia. done.
Qed.

(** The configuration reply for one meter announces as many as the table has. *)
Lemma meter_conf_reply_count `{!IdTable T meter_entry} (t : meter_table T) id e :
  table_ok t -> 0 <= id < OFPM_ALL -> tmap t !! id = Some e ->
  meter_table_handle_stats_request_meter_conf t id = inr (Z.of_nat (size (tmap t)), [config e]).
Proof.
  intros Hok Hid He. unfold meter_table_handle_stats_request_meter_conf.
  rewrite (proj2 (Z.eqb_neq id OFPM_ALL)), find_tmap, He, (tok_entries t Hok) by (done || lia). done.
Qed.
End Meter.
