(* ===== verification/Group.v ===== *)
(** Groups (udatapath/group_entry.c, group_table.c): weighted round-robin selection
    of buckets, fast failover, the check that a modification makes no loop, and the
    table with its modification and statistics messages. *)
From S2P Require Import Prelude HMap Oxm OflTypes.
Open Scope Z_scope.

Module Group.

Definition OFPGT_ALL : Z := 0.
Definition OFPGT_SELECT : Z := 1.
Definition OFPGT_INDIRECT : Z := 2.
Definition OFPGT_FF : Z := 3.

(** A flow entry that refers to the group, by its address. *)
Abbreviation flowref := positive.

(** [struct group_entry_wrr_data] *)
Record wrr_data := WRR { max_weight : Z; gcd_weight : Z; curr_weight : Z; curr_bucket : Z }.

#[global] Instance wrr_data_eq_dec : EqDecision wrr_data.
Proof. solve_decision. Defined.

Record bucket_counter := BCounter { b_packet_count : Z; b_byte_count : Z }.

#[global] Instance bucket_counter_eq_dec : EqDecision bucket_counter.
Proof. solve_decision. Defined.

(** [struct ofl_group_stats] *)
Record group_stats := GStats {
  g_group_id : Z; ref_count : Z; g_packet_count : Z; g_byte_count : Z;
  g_duration_sec : Z; g_duration_nsec : Z; counters : list bucket_counter }.

#[global] Instance group_stats_eq_dec : EqDecision group_stats.
Proof. solve_decision. Defined.

(** [struct ofl_group_desc_stats] *)
Record group_desc := GDesc { g_type : Z; d_group_id : Z; buckets : list ofl_bucket }.

#[global] Instance group_desc_eq_dec : EqDecision group_desc.
Proof. solve_decision. Defined.

Record group_entry := GEntry {
  desc : group_desc; stats : group_stats; g_created : Z; data : option wrr_data;
  flow_refs : list flowref }.

#[global] Instance group_entry_eq_dec : EqDecision group_entry.
Proof. solve_decision. Defined.

(** [struct ofl_msg_group_mod] *)
Record group_mod := GMod { gm_command : Z; gm_type : Z; gm_group_id : Z; gm_buckets : list ofl_bucket }.

(** * Selection *)

(** Euclid's loop, with fuel. *)
Fixpoint gcd_loop (fuel : nat) (a b : Z) : option Z :=
  if a =? 0 then Some b
  else match fuel with
       | O => None
       | S fuel => gcd_loop fuel (b mod a) a
       end.

(** [a] decreases at every turn. *)
Definition gcd (a b : Z) : option Z := gcd_loop (Z.to_nat a) a b.

(** The loop of [init_select_group] over the buckets after the first. *)
Fixpoint weights_loop (g m : Z) (bs : list ofl_bucket) : option (Z * Z) :=
  match bs with
  | [] => Some (g, m)
  | b :: r => g' ← gcd g (weight b); weights_loop g' (Z.max m (weight b)) r
  end.

Definition init_select_group (bs : list ofl_bucket) : option wrr_data :=
  match bs with
  | [] => Some (WRR 0 0 0 (u64 (-1)))
  | b :: r => '(g, m) ← weights_loop (weight b) (weight b) r; Some (WRR m g 0 (u64 (-1)))
  end.

(** One turn of the loop of [select_from_select_group]: the next bucket, and the
    next weight when the buckets start over. *)
Definition wrr_advance (d : wrr_data) (buckets_num : nat) : wrr_data :=
  let cb := u64 (curr_bucket d + 1) mod buckets_num in
  let cw := if cb =? 0 then
              if curr_weight d <=? gcd_weight d then max_weight d
              else u16 (curr_weight d - gcd_weight d)
            else curr_weight d in
  WRR (max_weight d) (gcd_weight d) cw cb.

Definition bucket_weight (bs : list ofl_bucket) (i : Z) : Z :=
  match nth_error bs (Z.to_nat i) with Some b => weight b | None => 0 end.

(** Whether the turn ends at the bucket. *)
Definition wrr_hit (bs : list ofl_bucket) (d : wrr_data) : bool :=
  curr_weight d <=? bucket_weight bs (curr_bucket d).

Definition NO_BUCKET : Z := u64 (-1).

(** [turns] is [buckets_num - guard]. *)
Fixpoint select_loop (turns : nat) (bs : list ofl_bucket) (d : wrr_data) : wrr_data * Z :=
  match turns with
  | O => (d, NO_BUCKET)
  | S turns =>
      let d := wrr_advance d (length bs) in
      if wrr_hit bs d then (d, curr_bucket d) else select_loop turns bs d
  end.

Definition select_from_select_group (bs : list ofl_bucket) (d : wrr_data) : wrr_data * Z :=
  match bs with
  | [] => (d, NO_BUCKET)
  | _ => select_loop (length bs) bs d
  end.

Definition OFPPC_PORT_DOWN : Z := 1.
Definition OFPPS_LINK_DOWN : Z := 1.

(** [bucket_is_alive]: [lookup] gives the configuration and the state of a port, as
    [dp_ports_lookup]; a bucket that watches no port that exists is dereferenced. *)
Definition bucket_is_alive (lookup : Z -> option (Z * Z)) (b : ofl_bucket) : option bool :=
  if watch_port b =? OFPP_ANY then Some false
  else '(cfg, state) ← lookup (watch_port b);
       Some (negb (negb (Z.land cfg OFPPC_PORT_DOWN =? 0) || negb (Z.land state OFPPS_LINK_DOWN =? 0))).

Fixpoint ff_loop (lookup : Z -> option (Z * Z)) (i : Z) (bs : list ofl_bucket) : option Z :=
  match bs with
  | [] => Some NO_BUCKET
  | b :: r => alive ← bucket_is_alive lookup b; if alive : bool then Some i else ff_loop lookup (i + 1) r
  end.

Definition select_from_ff_group (lookup : Z -> option (Z * Z)) (bs : list ofl_bucket) : option Z :=
  ff_loop lookup 0 bs.

(** * Entries *)

(** [group_entry_create] does not set [created]: [garbage] is what [xmalloc] left. *)
Definition group_entry_create (m : group_mod) (garbage : Z) : option group_entry :=
  d ← (if gm_type m =? OFPGT_SELECT then Some <$> init_select_group (gm_buckets m) else Some None);
  Some (GEntry (GDesc (gm_type m) (gm_group_id m) (gm_buckets m))
          (GStats (gm_group_id m) 0 0 0 0 0 (replicate (length (gm_buckets m)) (BCounter 0 0)))
          garbage d []).

(** The flows removed with the group. *)
Definition group_entry_destroy (e : group_entry) : list flowref := flow_refs e.

Definition group_entry_update (e : group_entry) (now : Z) : group_entry :=
  let s := stats e in
  let d := u64 (now - g_created e) in
  GEntry (desc e) (GStats (g_group_id s) (ref_count s) (g_packet_count s) (g_byte_count s)
    (u32 (d / 1000)) (u32 (d mod 1000 * 1000000)) (counters s)) (g_created e) (data e) (flow_refs e).

Definition has_flow_ref (e : group_entry) (fe : flowref) : bool :=
  existsb (fun f => bool_decide (f = fe)) (flow_refs e).

Definition with_refs (e : group_entry) (count : Z) (refs : list flowref) : group_entry :=
  let s := stats e in
  GEntry (desc e) (GStats (g_group_id s) count (g_packet_count s) (g_byte_count s)
    (g_duration_sec s) (g_duration_nsec s) (counters s)) (g_created e) (data e) refs.

Definition group_entry_add_flow_ref (e : group_entry) (fe : flowref) : group_entry :=
  if has_flow_ref e fe then e else with_refs e (u32 (ref_count (stats e) + 1)) (flow_refs e ++ [fe]).

Definition group_entry_del_flow_ref (e : group_entry) (fe : flowref) : group_entry :=
  with_refs e (u32 (ref_count (stats e) - length (filter (fun f => f = fe) (flow_refs e))))
    (filter (fun f => f <> fe) (flow_refs e)).

Definition group_entry_has_out_group (e : group_entry) (group_id : Z) : bool :=
  existsb (fun b => dp_actions_list_has_out_group (b_actions b) group_id) (buckets (desc e)).

(** The statistics of a packet of [size] bytes through bucket [i]. *)
Definition count_bucket (e : group_entry) (i : nat) (size : Z) : group_entry :=
  let s := stats e in
  let upd c := BCounter (u64 (b_packet_count c + 1)) (u64 (b_byte_count c + size)) in
  GEntry (desc e) (GStats (g_group_id s) (ref_count s) (u64 (g_packet_count s + 1))
    (u64 (g_byte_count s + size)) (g_duration_sec s) (g_duration_nsec s) (alter upd i (counters s)))
    (g_created e) (data e) (flow_refs e).

(** * Loops between groups *)

(** The groups the actions of some buckets lead to, in order. *)
Definition action_groups (acts : list ofl_action) : list Z :=
  flat_map (fun a => match a with Act_group g => [g] | _ => [] end) acts.
Definition bucket_groups (bs : list ofl_bucket) : list Z := flat_map (fun b => action_groups (b_actions b)) bs.

Definition is_in (id : Z) (l : list Z) : bool := existsb (Z.eqb id) l.

(** The list of groups that are still to be visited. *)
Definition is_loop_free_visit (bs : list ofl_bucket) (visited to_be_visited : list Z) : list Z :=
  fold_left (fun tbv b =>
    fold_left (fun tbv a =>
      match a with
      | Act_group id => if negb (is_in id visited) && negb (is_in id tbv) then tbv ++ [id] else tbv
      | _ => tbv
      end) (b_actions b) tbv) bs to_be_visited.

(** The loop of [is_loop_free]; [find] gives the buckets of a group of the table.
    The result is [list_is_empty(&to_be_visited)] at its end. *)
Fixpoint loop_free_loop (fuel : nat) (find : Z -> option (list ofl_bucket)) (id : Z)
    (visited to_be_visited : list Z) : option bool :=
  match to_be_visited with
  | [] => Some true
  | gv :: rest =>
      if is_in id to_be_visited then Some false
      else
        match fuel with
        | O => None
        | S fuel =>
            let tbv := match find gv with
                       | Some bs => is_loop_free_visit bs visited rest
                       | None => rest
                       end in
            loop_free_loop fuel find id (visited ++ [gv]) tbv
        end
  end.

Definition is_loop_free (fuel : nat) (find : Z -> option (list ofl_bucket)) (m : group_mod) : option bool :=
  loop_free_loop fuel find (gm_group_id m) [] (is_loop_free_visit (gm_buckets m) [] []).


(** * The table *)

Definition GROUP_TABLE_MAX_ENTRIES : Z := 4096.
Definition GROUP_TABLE_MAX_BUCKETS : Z := 8192.
Definition OFPGMFC_GROUP_EXISTS : Z := 0.
Definition OFPGMFC_OUT_OF_GROUPS : Z := 3.
Definition OFPGMFC_OUT_OF_BUCKETS : Z := 4.
Definition OFPGMFC_CHAINING_UNSUPPORTED : Z := 5.
Definition OFPGMFC_LOOP : Z := 7.
Definition OFPGMFC_UNKNOWN_GROUP : Z := 8.
Definition OFPBAC_BAD_OUT_PORT : Z := 4.
Definition OFPBAC_BAD_OUT_GROUP : Z := 9.
Definition OFPBRC_BAD_TYPE : Z := 1.
Definition OFPBRC_IS_SLAVE : Z := 10.
Definition OFPCR_ROLE_SLAVE : Z := 3.

Definition group_error (code : Z) : Z := ofl_error OFPET_GROUP_MOD_FAILED code.

(** [dp_actions_validate]: the ports and groups the actions name exist. *)
Fixpoint dp_actions_validate (port_exists group_exists : Z -> bool) (acts : list ofl_action) : Z :=
  match acts with
  | [] => 0
  | a :: r =>
      match a with
      | Act_output p _ =>
          if (p <=? OFPP_MAX) && negb (port_exists p) then ofl_error OFPET_BAD_ACTION OFPBAC_BAD_OUT_PORT
          else dp_actions_validate port_exists group_exists r
      | Act_group g =>
          if (g <=? OFPG_MAX) && negb (group_exists g) then ofl_error OFPET_BAD_ACTION OFPBAC_BAD_OUT_GROUP
          else dp_actions_validate port_exists group_exists r
      | _ => dp_actions_validate port_exists group_exists r
      end
  end.

Section table.
Context {T : Type} `{!IdTable T group_entry}.

Record group_table := GTable { entries_num : Z; entries : T; buckets_num : Z }.

Definition group_table_create : group_table := GTable 0 tbl_empty 0.

Definition group_table_find (t : group_table) (group_id : Z) : option group_entry :=
  tbl_find (entries t) group_id.

(** The writes through the pointer to one entry. *)
Definition write_entry (t : group_table) (group_id : Z) (e : group_entry) : group_table :=
  GTable (entries_num t) (tbl_update (entries t) (fun h x => if h =? group_id then e else x)) (buckets_num t).

(** Turns enough for the loop check: every group action of the table and of the
    message is visited once. *)
Definition loop_fuel (t : group_table) (m : group_mod) : nat :=
  length (flat_map (fun e => bucket_groups (buckets (desc e))) (tbl_elems (entries t)))
  + length (bucket_groups (gm_buckets m)).

(** The handlers return the table, the error and the flows removed with the group.
    [None] is a corrupted hash chain or a loop that does not end. *)
Definition group_table_add (t : group_table) (m : group_mod) (garbage : Z)
    : option (group_table * Z * list flowref) :=
  match tbl_find (entries t) (gm_group_id m) with
  | Some _ => Some (t, group_error OFPGMFC_GROUP_EXISTS, [])
  | None =>
      if entries_num t =? GROUP_TABLE_MAX_ENTRIES then Some (t, group_error OFPGMFC_OUT_OF_GROUPS, [])
      else if GROUP_TABLE_MAX_BUCKETS <? u64 (buckets_num t + length (gm_buckets m))
      then Some (t, group_error OFPGMFC_OUT_OF_BUCKETS, [])
      else
        e ← group_entry_create m garbage;
        Some (GTable (u64 (entries_num t + 1)) (tbl_insert (entries t) e (g_group_id (stats e)))
                (u64 (buckets_num t + length (buckets (desc e)))), 0, [])
  end.

Definition group_table_modify (t : group_table) (m : group_mod) (garbage : Z)
    : option (group_table * Z * list flowref) :=
  match group_table_find t (gm_group_id m) with
  | None => Some (t, group_error OFPGMFC_UNKNOWN_GROUP, [])
  | Some e =>
      if GROUP_TABLE_MAX_BUCKETS <? u64 (buckets_num t - length (buckets (desc e)) + length (gm_buckets m))
      then Some (t, group_error OFPGMFC_OUT_OF_BUCKETS, [])
      else
        free ← is_loop_free (loop_fuel t m) (fun id => (fun e => buckets (desc e)) <$> group_table_find t id) m;
        if free : bool then
          n ← group_entry_create m garbage;
          (* the flow references of the old entry; its counter is not copied *)
          let n := GEntry (desc n) (stats n) (g_created n) (data n) (flow_refs e) in
          tbl ← tbl_remove (entries t) e (gm_group_id m);
          let tbl := tbl_insert_fast tbl n (gm_group_id m) in
          Some (GTable (entries_num t) tbl
                  (u64 (buckets_num t - length (buckets (desc e)) + length (buckets (desc n)))), 0, [])
        else Some (t, group_error OFPGMFC_LOOP, [])
  end.

Definition group_table_delete (t : group_table) (m : group_mod) : option (group_table * Z * list flowref) :=
  if gm_group_id m =? OFPG_ALL then
    Some (GTable 0 tbl_empty 0, 0, flat_map group_entry_destroy (tbl_elems (entries t)))
  else
    match group_table_find t (gm_group_id m) with
    | Some e =>
        if existsb (fun x => group_entry_has_out_group x (g_group_id (stats e))) (tbl_elems (entries t))
        then Some (t, group_error OFPGMFC_CHAINING_UNSUPPORTED, [])
        else
          tbl ← tbl_remove (entries t) e (gm_group_id m);
          Some (GTable (u64 (entries_num t - 1)) tbl (u64 (buckets_num t - length (buckets (desc e)))), 0,
                group_entry_destroy e)
    | None => Some (t, 0, [])
    end.

(** The first error of the buckets' actions. *)
Fixpoint validate_buckets (port_exists group_exists : Z -> bool) (bs : list ofl_bucket) : Z :=
  match bs with
  | [] => 0
  | b :: r =>
      let error := dp_actions_validate port_exists group_exists (b_actions b) in
      if error =? 0 then validate_buckets port_exists group_exists r else error
  end.

Definition group_table_handle_group_mod (port_exists : Z -> bool) (t : group_table) (m : group_mod)
    (role garbage : Z) : option (group_table * Z * list flowref) :=
  if role =? OFPCR_ROLE_SLAVE then Some (t, ofl_error OFPET_BAD_REQUEST OFPBRC_IS_SLAVE, [])
  else
    let error := validate_buckets port_exists (fun g => bool_decide (is_Some (group_table_find t g))) (gm_buckets m) in
    if negb (error =? 0) then Some (t, error, [])
    else if gm_command m =? 0 then group_table_add t m garbage
    else if gm_command m =? 1 then group_table_modify t m garbage
    else if gm_command m =? 2 then group_table_delete t m
    else Some (t, ofl_error OFPET_BAD_REQUEST OFPBRC_BAD_TYPE, []).

Definition group_table_handle_stats_request_group (t : group_table) (group_id now : Z)
    : group_table * (Z + Z * list group_stats) :=
  if group_id =? OFPG_ALL then
    let tbl := tbl_update (entries t) (fun _ e => group_entry_update e now) in
    (GTable (entries_num t) tbl (buckets_num t), inr (entries_num t, stats <$> tbl_elems tbl))
  else
    match group_table_find t group_id with
    | None => (t, inl (group_error OFPGMFC_UNKNOWN_GROUP))
    | Some e => let e := group_entry_update e now in (write_entry t group_id e, inr (1, [stats e]))
    end.

Definition group_table_handle_stats_request_group_desc (t : group_table) : Z * list group_desc :=
  (entries_num t, desc <$> tbl_elems (entries t)).
End table.

Arguments group_table T : clear implicits.


(** * Weighted round robin *)

Lemma gcd_loop_spec (fuel : nat) a b : 0 <= a <= fuel -> 0 <= b -> gcd_loop fuel a b = Some (Z.gcd a b).
Proof.
  revert a b. induction fuel as [| fuel IH]; intros a b Ha Hb; simpl; destruct (Z.eqb_spec a 0) as [-> |];
    try (by rewrite Z.gcd_0_l, Z.abs_eq); [lia |].
  rewrite IH by lia. f_equal. by rewrite Z.gcd_mod.
Qed.

Lemma gcd_spec a b : 0 <= a -> 0 <= b -> gcd a b = Some (Z.gcd a b).
Proof. intros. apply gcd_loop_spec; lia. Qed.

Definition weights_ok (bs : list ofl_bucket) : Prop := Forall (fun b => in_range 16 (weight b)) bs.

Lemma weights_loop_spec bs g m :
  weights_ok bs -> 0 <= g ->
  exists g' m', weights_loop g m bs = Some (g', m') /\ 0 <= g' /\ m <= m' /\
    (g' | g) /\ Forall (fun b => (g' | weight b) /\ weight b <= m') bs /\
    (m' = m \/ exists b, b ∈ bs /\ weight b = m').
Proof.
  intros Hw. revert g m. induction Hw as [| b r Hb Hr IH]; intros g m Hg.
  - exists g, m. split_and!; (done || lia || by left || constructor).
  - simpl. rewrite gcd_spec by (apply Hb || done). cbn [mbind option_bind].
    destruct (IH (Z.gcd g (weight b)) (Z.max m (weight b)) (Z.gcd_nonneg _ _))
      as (g' & m' & -> & Hg' & Hm & Hdiv & Hall & Hat).
    exists g', m'. split_and!; [done | done | lia | | |].
    + eapply Z.divide_trans; [done | apply Z.gcd_divide_l].
    + constructor; [| done]. split; [| lia]. eapply Z.divide_trans; [done | apply Z.gcd_divide_r].
    + destruct Hat as [-> | (b' & Hb' & <-)].
      * destruct (Z.max_spec m (weight b)) as [[_ ->] | [_ ->]]; [right; exists b; split; [by left | done] | by left].
      * right. exists b'. split; [by right | done].
Qed.

(** The state of the selection belongs to the buckets: the common divisor divides
    every weight, the maximum is one of them. *)
Record wrr_for (bs : list ofl_bucket) (d : wrr_data) : Prop := {
  wrr_gcd : 0 <= gcd_weight d;
  wrr_max : 0 <= max_weight d < 2 ^ 16;
  wrr_divides : Forall (fun b => (gcd_weight d | weight b) /\ weight b <= max_weight d) bs;
  wrr_attained : exists (i : nat) b, bs !! i = Some b /\ weight b = max_weight d;
  wrr_weight : 0 <= curr_weight d <= max_weight d;
  wrr_bucket : 0 <= curr_bucket d < length bs \/ curr_bucket d = 2 ^ 64 - 1;
}.

Lemma init_select_group_spec bs :
  weights_ok bs -> bs <> [] ->
  exists d, init_select_group bs = Some d /\ wrr_for bs d /\
    curr_weight d = 0 /\ curr_bucket d = 2 ^ 64 - 1.
Proof.
  intros Hw Hne. destruct bs as [| b r]; [done |]. inversion Hw as [| ? ? Hb Hr]; subst.
  unfold init_select_group. destruct (weights_loop_spec r (weight b) (weight b) Hr) as
    (g & m & -> & Hg & Hm & Hdiv & Hall & Hat); [apply Hb |].
  cbn [mbind option_bind]. eexists. split; [done |]. split; [| done].
  assert (exists (i : nat) b', (b :: r) !! i = Some b' /\ weight b' = m) as (i & b' & Hi & Hb').
  { destruct Hat as [-> | (b' & Hin & <-)]; [by exists 0%nat, b |].
    apply list_elem_of_lookup in Hin as [i Hi]. by exists (S i), b'. }
  assert (in_range 16 m) as Hmr. { rewrite <- Hb'. unfold weights_ok in Hw. rewrite Forall_lookup in Hw. by eapply Hw. }
  split; cbn [gcd_weight max_weight curr_weight curr_bucket].
  - done.
  - apply Hmr.
  - by constructor.
  - by exists i, b'.
  - unfold in_range in Hmr. lia.
  - by right.
Qed.

Lemma nth_error_list_lookup {A} (l : list A) i : nth_error l i = l !! i.
Proof. revert i. induction l as [| x l IH]; intros [| i]; [done | done | done | apply IH]. Qed.

(** The turns that end at a bucket. *)
Abbreviation hits bs := (filter (fun x => wrr_hit bs x = true)).

Section selection.
Context (bs : list ofl_bucket) (Hn : Z.of_nat (length bs) < 2 ^ 64).

Lemma bucket_weight_lookup (i : nat) b : bs !! i = Some b -> bucket_weight bs i = weight b.
Proof.
  intros Hi. unfold bucket_weight. by rewrite Nat2Z.id, nth_error_list_lookup, Hi.
Qed.

Lemma advance_bucket d :
  (0 < length bs)%nat -> 0 <= curr_bucket d < length bs \/ curr_bucket d = 2 ^ 64 - 1 ->
  curr_bucket (wrr_advance d (length bs)) =
    if (curr_bucket d =? 2 ^ 64 - 1) || (curr_bucket d =? length bs - 1) then 0 else curr_bucket d + 1.
Proof.
  intros Hl Hc. cbn [wrr_advance curr_bucket]. destruct (Z.eqb_spec (curr_bucket d) (2 ^ 64 - 1)) as [-> |]; cbn [orb].
  - change (u64 (2 ^ 64 - 1 + 1)) with 0. apply Z.mod_0_l. lia.
  - destruct Hc as [Hc |]; [| done]. rewrite wrap_small by (unfold in_range; lia).
    destruct (Z.eqb_spec (curr_bucket d) (length bs - 1)) as [-> |].
    + replace (length bs - 1 + 1) with (Z.of_nat (length bs)) by lia. apply Z.mod_same. lia.
    + apply Z.mod_small. lia.
Qed.

Lemma advance_for d : wrr_for bs d -> wrr_for bs (wrr_advance d (length bs)).
Proof.
  intros [Hg Hm Hdiv Hat Hw Hc].
  assert (0 < length bs)%nat as Hl by (destruct Hat as (i & b & Hi & _); apply lookup_lt_Some in Hi; lia).
  split; [done | done | done | done | |].
  - cbn [wrr_advance curr_weight max_weight]. destruct (_ =? 0); [| done].
    destruct (Z.leb_spec (curr_weight d) (gcd_weight d)); [lia |].
    rewrite wrap_small by (unfold in_range; lia). lia.
  - left. rewrite advance_bucket by done. destruct (_ || _) eqn:Hb; [lia |].
    apply orb_false_iff in Hb as [H1%Z.eqb_neq H2%Z.eqb_neq]. lia.
Qed.

(** A hit within [t] turns, and the turns the loop needs. *)
Fixpoint hit_within (t : nat) (d : wrr_data) : Prop :=
  match t with
  | O => False
  | S t => let d := wrr_advance d (length bs) in wrr_hit bs d = true \/ hit_within t d
  end.

Lemma hit_within_more t t' d : hit_within t d -> (t <= t')%nat -> hit_within t' d.
Proof.
  revert t' d. induction t as [| t IH]; intros [| t'] d Hh Ht; try done; [lia |]. simpl in *.
  destruct Hh as [Hh | Hh]; [by left | right]. apply IH; [done | lia].
Qed.

Lemma select_more t t' d :
  hit_within t d -> (t <= t')%nat -> select_loop t' bs d = select_loop t bs d.
Proof.
  revert t' d. induction t as [| t IH]; intros [| t'] d Hh Ht; try done; [lia |]. simpl in *.
  destruct (wrr_hit bs _) eqn:Hw; [done |]. destruct Hh as [| Hh]; [done |]. apply IH; [done | lia].
Qed.

Lemma select_hits t d :
  hit_within t d -> wrr_for bs d ->
  let '(d', b) := select_loop t bs d in
  wrr_for bs d' /\ b = curr_bucket d' /\ 0 <= b < length bs /\ curr_weight d' <= bucket_weight bs b.
Proof.
  revert d. induction t as [| t IH]; intros d Hh Hd; [done |]. cbn [select_loop hit_within] in *.
  pose proof (advance_for d Hd) as Hd'. destruct (wrr_hit bs _) eqn:Hw.
  - split; [done |]. split; [done |]. split; [| by apply Z.leb_le].
    destruct (wrr_attained _ _ Hd) as (i & b & Hi & _); apply lookup_lt_Some in Hi;
      rewrite advance_bucket by (lia || apply Hd); destruct (_ || _) eqn:Hb; try lia;
      apply orb_false_iff in Hb as [H1%Z.eqb_neq H2%Z.eqb_neq]; destruct (wrr_bucket _ _ Hd); lia.
  - destruct Hh as [| Hh]; [done |]. by apply IH.
Qed.

(** The bucket with the maximal weight is hit at any weight. *)
Lemma max_bucket_hit d (i : nat) b :
  wrr_for bs d -> bs !! i = Some b -> weight b = max_weight d -> curr_bucket d = i -> wrr_hit bs d = true.
Proof.
  intros Hd Hi Hb Hc. unfold wrr_hit. rewrite Hc, (bucket_weight_lookup i b Hi), Hb.
  apply Z.leb_le. apply (wrr_weight _ _ Hd).
Qed.

(** The turns from a state to the bucket [i]. *)
Definition turns_to (i : nat) (d : wrr_data) : Z :=
  if curr_bucket d =? 2 ^ 64 - 1 then i + 1
  else if curr_bucket d <? i then i - curr_bucket d else length bs - curr_bucket d + i.

Lemma hit_at_turn t : forall d (i : nat) b,
  wrr_for bs d -> bs !! i = Some b -> weight b = max_weight d -> turns_to i d = Z.of_nat t -> hit_within t d.
Proof.
  induction t as [| t IH]; intros d i b Hd Hi Hb Ht; pose proof (lookup_lt_Some _ _ _ Hi) as Hlt.
  - exfalso. unfold turns_to in Ht. destruct (wrr_bucket _ _ Hd) as [Hc | Hc].
    + rewrite (proj2 (Z.eqb_neq (curr_bucket d) (2 ^ 64 - 1))) in Ht by lia.
      destruct (Z.ltb_spec (curr_bucket d) i); lia.
    + rewrite Hc, Z.eqb_refl in Ht. lia.
  - cbn [hit_within]. pose proof (advance_for d Hd) as Hd'.
    destruct (Z.eq_dec (curr_bucket (wrr_advance d (length bs))) i) as [He | He].
    { left. by eapply max_bucket_hit. }
    right. apply (IH _ i b); [done | done | done |].
    rewrite advance_bucket in He by (lia || apply Hd). unfold turns_to in *.
    rewrite advance_bucket by (lia || apply Hd).
    destruct (wrr_bucket _ _ Hd) as [Hc | Hc].
    + rewrite (proj2 (Z.eqb_neq (curr_bucket d) (2 ^ 64 - 1))) in * by lia. cbn [orb] in *.
      destruct (Z.eqb_spec (curr_bucket d) (length bs - 1)) as [He2 | He2].
      * rewrite (proj2 (Z.eqb_neq 0 (2 ^ 64 - 1))) by lia.
        destruct (Z.ltb_spec (curr_bucket d) i), (Z.ltb_spec 0 i); lia.
      * rewrite (proj2 (Z.eqb_neq (curr_bucket d + 1) (2 ^ 64 - 1))) by lia.
        destruct (Z.ltb_spec (curr_bucket d) i), (Z.ltb_spec (curr_bucket d + 1) i); lia.
    + rewrite Hc, Z.eqb_refl in *. cbn [orb] in *. rewrite (proj2 (Z.eqb_neq 0 (2 ^ 64 - 1))) by lia.
      destruct (Z.ltb_spec 0 i); lia.
Qed.

Lemma hit_in_a_round d : wrr_for bs d -> hit_within (length bs) d.
Proof.
  intros Hd. destruct (wrr_attained _ _ Hd) as (i & b & Hi & Hb).
  pose proof (lookup_lt_Some _ _ _ Hi) as Hlt.
  assert (0 <= turns_to i d <= length bs) as Ht.
  { unfold turns_to. destruct (wrr_bucket _ _ Hd) as [Hc | ->].
    - rewrite (proj2 (Z.eqb_neq (curr_bucket d) (2 ^ 64 - 1))) by lia. destruct (Z.ltb_spec (curr_bucket d) i); lia.
    - rewrite Z.eqb_refl. lia. }
  assert (hit_within (Z.to_nat (turns_to i d)) d) as Hh by (eapply hit_at_turn; (done || lia)).
  eapply hit_within_more; [done | lia].
Qed.

(** The buckets selected by [k] packets in a row. *)
Fixpoint picks (k : nat) (d : wrr_data) : list Z :=
  match k with
  | O => []
  | S k => let '(d, b) := select_from_select_group bs d in b :: picks k d
  end.

(** The states the turns go through. *)
Fixpoint chain (d : wrr_data) (l : list wrr_data) : Prop :=
  match l with
  | [] => True
  | x :: l => x = wrr_advance d (length bs) /\ chain x l
  end.

Lemma chain_app d l1 l2 : chain d (l1 ++ l2) <-> chain d l1 /\ chain (List.last l1 d) l2.
Proof.
  revert d. induction l1 as [| x l1 IH]; intros d; simpl; [tauto |]. rewrite IH.
  assert (match l1 with [] => x | _ => List.last l1 d end = List.last l1 x) as ->; [| tauto].
  destruct l1 as [| y l1]; [done |]. clear. revert y. induction l1 as [| z l1 IH]; intros y; [done |]. apply IH.
Qed.

Lemma select_for d : wrr_for bs d -> select_from_select_group bs d = select_loop (length bs) bs d.
Proof. intros Hd. destruct (wrr_attained _ _ Hd) as (i & b & Hi & _). by destruct bs. Qed.

(** The packets pick the hits of the turns, in order. *)
Lemma picks_chain l : forall d, wrr_for bs d -> chain d l -> picks (length (hits bs l)) d = curr_bucket <$> hits bs l.
Proof.
  induction l as [| x l IH]; intros d Hd Hc; [done |]. destruct Hc as [-> Hc].
  pose proof (advance_for d Hd) as Hd'. rewrite filter_cons.
  assert (exists n, length bs = S n) as [n Hlen].
  { destruct (wrr_attained _ _ Hd) as (i & b & Hi & _). apply lookup_lt_Some in Hi. exists (pred (length bs)). lia. }
  pose proof (hit_in_a_round d Hd) as Hh. rewrite Hlen in Hh. cbn [hit_within] in Hh. cbn zeta in Hh.
  pose proof (select_for d Hd) as Hs. rewrite Hlen in Hs. cbn [select_loop] in Hs. cbn zeta in Hs.
  case_decide as Hhit.
  - cbn [length picks]. rewrite Hs, Hhit. rewrite fmap_cons. f_equal. by apply IH.
  - rewrite <- (IH (wrr_advance d (length bs))) by done. destruct Hh as [| Hh]; [done |].
    destruct (length (hits bs l)) as [| k]; [done |]. cbn [picks].
    apply not_true_is_false in Hhit. rewrite Hs, Hhit, (select_for (wrr_advance d (length bs)) Hd').
    by rewrite (select_more n (length bs) _ Hh) by lia.
Qed.
End selection.


(** ** Fairness *)

(** How many elements of a list pass a test. *)
Fixpoint count {A} (f : A -> bool) (l : list A) : nat :=
  match l with [] => 0 | x :: r => (if f x then 1 else 0) + count f r end.

Lemma count_app {A} (f : A -> bool) l1 l2 : count f (l1 ++ l2) = (count f l1 + count f l2)%nat.
Proof. induction l1; simpl; lia. Qed.

Lemma count_ext {A} (f g : A -> bool) l : (forall x, x ∈ l -> f x = g x) -> count f l = count g l.
Proof.
  induction l as [| x l IH]; intros H; [done |]. simpl. rewrite (H x) by (by left). f_equal.
  apply IH. intros y Hy. apply H. by right.
Qed.

Lemma count_fmap {A B} (f : B -> bool) (g : A -> B) l : count f (g <$> l) = count (fun x => f (g x)) l.
Proof. induction l as [| x l IH]; [done |]. rewrite fmap_cons. cbn [count]. by rewrite IH. Qed.

Lemma count_filter {A} (P : A -> Prop) `{!forall x, Decision (P x)} (f : A -> bool) l :
  count f (filter P l) = count (fun x => bool_decide (P x) && f x) l.
Proof.
  induction l as [| x l IH]; [done |]. rewrite filter_cons. simpl. case_decide.
  - rewrite bool_decide_eq_true_2 by done. simpl. by rewrite IH.
  - by rewrite bool_decide_eq_false_2.
Qed.

Lemma count_replicate {A} (f : A -> bool) c l : count f (concat (replicate c l)) = (c * count f l)%nat.
Proof. induction c as [| c IH]; [done |]. simpl. rewrite count_app, IH. done. Qed.

(** A list of indices is the sum of its parts. *)
Lemma count_one (l : list Z) x m : forall k : nat,
  sum_list_with (fun i : nat => ((if (Z.of_nat i =? x)%Z then 1 else 0) + count (Z.eqb i) l)%nat) (seq k m) =
  ((if decide (k <= x < k + m)%Z then 1 else 0) + sum_list_with (fun i : nat => count (Z.eqb i) l) (seq k m))%nat.
Proof.
  induction m as [| m IH]; intros k; cbn [seq sum_list_with].
  - rewrite decide_False by lia. done.
  - rewrite IH. destruct (Z.eqb_spec (Z.of_nat k) x), (decide (S k <= x < S k + m)%Z), (decide (k <= x < k + S m)%Z); lia.
Qed.

Lemma length_count (n : nat) (l : list Z) :
  Forall (fun x => 0 <= x < n) l ->
  length l = sum_list_with (fun i : nat => count (Z.eqb i) l) (seq 0 n).
Proof.
  induction 1 as [| x l Hx Hl IH].
  - induction (seq 0 n) as [| y s IHs]; [done | exact IHs].
  - cbn [length count]. rewrite count_one, decide_True by lia. by rewrite IH.
Qed.

Section fairness.
Context (bs : list ofl_bucket) (Hn : Z.of_nat (length bs) < 2 ^ 64).
Context (d0 : wrr_data) (Hd0 : wrr_for bs d0) (Hg : 0 < gcd_weight d0) (Hm : 0 < max_weight d0).
Context (Hcb : curr_bucket d0 = 2 ^ 64 - 1) (Hcw : curr_weight d0 = 0).
Local Abbreviation N := (length bs).
Local Abbreviation G := (gcd_weight d0).
Local Abbreviation M := (max_weight d0).

(** Rounds in a cycle. *)
Definition rounds : nat := Z.to_nat (M / G).

Lemma some_bucket : (0 < N)%nat.
Proof. destruct (wrr_attained _ _ Hd0) as (i & b & Hi & _). apply lookup_lt_Some in Hi. lia. Qed.

Lemma max_rounds : M = G * rounds /\ (0 < rounds)%nat.
Proof.
  destruct (wrr_attained _ _ Hd0) as (i & b & Hi & Hb). pose proof (wrr_divides _ _ Hd0) as Hdiv.
  rewrite Forall_lookup in Hdiv. destruct (Hdiv i b Hi) as [[k Hk] _]. rewrite Hb in Hk.
  unfold rounds. rewrite Hk, Z.div_mul by lia. nia.
Qed.

(** The state after turn [j] of a cycle. *)
Definition turn (j : nat) : wrr_data := WRR M G (M - G * (j / N)%nat) (j mod N)%nat.

Lemma turn_first d :
  max_weight d = M -> gcd_weight d = G -> 0 <= curr_weight d <= G ->
  (curr_bucket d = 2 ^ 64 - 1 \/ curr_bucket d = Z.of_nat N - 1) -> wrr_advance d N = turn 0.
Proof.
  intros Hdm Hdg Hdw Hdb. pose proof some_bucket.
  assert (curr_bucket (wrr_advance d N) = 0) as Hb0.
  { rewrite advance_bucket by (done || lia). destruct Hdb as [-> | ->]; [done |].
    rewrite (Z.eqb_refl (N - 1)), orb_true_r. done. }
  unfold wrr_advance in *. cbn [curr_bucket] in Hb0. rewrite Hb0, Z.eqb_refl, Hdm, Hdg.
  rewrite (proj2 (Z.leb_le (curr_weight d) G)) by lia. unfold turn.
  rewrite Nat.Div0.div_0_l, Nat.Div0.mod_0_l. f_equal. lia.
Qed.

Lemma turn_next j : (S j < N * rounds)%nat -> wrr_advance (turn j) N = turn (S j).
Proof.
  intros Hj. pose proof some_bucket as HN. destruct max_rounds as [HM HR].
  pose proof (wrr_max _ _ Hd0) as HM16.
  assert (j mod N < N)%nat as Hmod by (apply Nat.mod_upper_bound; lia).
  pose proof (Nat.div_mod j N ltac:(lia)) as Hdm.
  assert (curr_bucket (wrr_advance (turn j) N) = (S j mod N)%nat /\
    (S j / N = if decide (S j mod N = 0) then S (j / N) else j / N)%nat) as [Hb Hq].
  { rewrite advance_bucket by (done || (left; simpl; lia)). cbn [turn curr_bucket].
    rewrite (proj2 (Z.eqb_neq (j mod N)%nat (2 ^ 64 - 1))) by lia. cbn [orb].
    destruct (decide (S (j mod N) = N)) as [He | He].
    - assert (S j = (S (j / N)) * N)%nat as HS by nia.
      rewrite HS, Nat.Div0.mod_mul, Nat.div_mul by lia. rewrite decide_True by done.
      split; [| done]. by rewrite (proj2 (Z.eqb_eq (j mod N)%nat (N - 1))) by lia.
    - assert (S j = N * (j / N) + S (j mod N))%nat as HS by lia.
      rewrite <- (Nat.mod_unique (S j) N (j / N) (S (j mod N))) by lia.
      rewrite <- (Nat.div_unique (S j) N (j / N) (S (j mod N))) by lia. rewrite decide_False by done.
      split; [| done]. rewrite (proj2 (Z.eqb_neq (j mod N)%nat (N - 1))) by lia. lia. }
  unfold wrr_advance in *. cbn [curr_bucket max_weight gcd_weight] in *. rewrite Hb.
  change (turn (S j)) with (WRR M G (M - G * (S j / N)%nat) (S j mod N)%nat). f_equal.
  rewrite Hq. cbn [turn curr_weight gcd_weight max_weight].
  destruct (decide (S j mod N = 0)%nat) as [H0 | H0].
  - rewrite H0. change (Z.of_nat 0 =? 0) with true. cbv iota.
    assert (S (j / N) < rounds)%nat as Hlt.
    { pose proof (Nat.div_mod (S j) N ltac:(lia)) as Hdm'. rewrite Hq, H0, Nat.add_0_r in Hdm'.
      rewrite Hdm' in Hj. apply Nat.mul_lt_mono_pos_l in Hj; lia. }
    rewrite (proj2 (Z.leb_gt _ G)) by nia. rewrite wrap_small by (unfold in_range; nia).
    rewrite Nat2Z.inj_succ. lia.
  - by rewrite (proj2 (Z.eqb_neq (S j mod N)%nat 0)) by lia.
Qed.

Definition cycle : list wrr_data := turn <$> seq 0 (N * rounds).

Lemma chain_turns len j d :
  wrr_advance d N = turn j -> (j + len <= N * rounds)%nat -> chain bs d (turn <$> seq j len).
Proof.
  revert j d. induction len as [| len IH]; intros j d Hd Hj; [done |]. split; [done |].
  destruct len as [| len]; [done |]. apply IH; [| lia]. apply turn_next. lia.
Qed.

Lemma last_turn j len d : (0 < len)%nat -> List.last (turn <$> seq j len) d = turn (j + len - 1).
Proof.
  revert j d. induction len as [| len IH]; intros j d Hl; [lia |]. destruct len as [| len].
  - simpl. f_equal. lia.
  - change (List.last (turn <$> seq j (S (S len))) d) with (List.last (turn <$> seq (S j) (S len)) d).
    rewrite IH by lia. f_equal. lia.
Qed.

Lemma chain_cycles c d : wrr_advance d N = turn 0 -> chain bs d (concat (replicate c cycle)).
Proof.
  pose proof some_bucket as HN. destruct max_rounds as [HM HR].
  revert d. induction c as [| c IH]; intros d Hd; [done |]. simpl. apply chain_app. split.
  - by apply chain_turns.
  - apply IH. unfold cycle. rewrite last_turn by nia.
    assert (N * rounds = N * pred rounds + N)%nat as HNR by nia.
    assert ((0 + N * rounds - 1) / N = pred rounds /\ (0 + N * rounds - 1) mod N = N - 1)%nat as [Hq Hr].
    { replace (0 + N * rounds - 1)%nat with (N * pred rounds + (N - 1))%nat by lia.
      split; [symmetry; apply (Nat.div_unique _ N _ (N - 1)) | symmetry; apply (Nat.mod_unique _ N (pred rounds))]; lia. }
    apply turn_first; unfold turn; cbn [max_weight gcd_weight curr_weight curr_bucket]; rewrite ?Hq, ?Hr; try done.
    + rewrite HM. nia.
    + right. lia.
Qed.


(** In the round with weight [M - G * r] the bucket [i] is hit if it weighs enough. *)
Lemma count_round (i : nat) b r :
  bs !! i = Some b ->
  count (fun j => wrr_hit bs (turn j) && (Z.of_nat i =? curr_bucket (turn j))) (seq (N * r) N) =
    if M - G * Z.of_nat r <=? weight b then 1%nat else 0%nat.
Proof.
  intros Hi. pose proof some_bucket as HN. pose proof (lookup_lt_Some _ _ _ Hi) as HiN.
  assert (forall len k, (k + len <= N)%nat ->
    count (fun j => wrr_hit bs (turn j) && (Z.of_nat i =? curr_bucket (turn j))) (seq (N * r + k) len) =
    if decide (k <= i < k + len)%nat then if M - G * Z.of_nat r <=? weight b then 1%nat else 0%nat else 0%nat) as H.
  { induction len as [| len IH]; intros k Hk; cbn [seq count].
    - rewrite decide_False by lia. done.
    - replace (S (N * r + k)) with (N * r + S k)%nat by lia. rewrite IH by lia.
      assert (turn (N * r + k) = WRR M G (M - G * r) k) as ->.
      { unfold turn. rewrite <- (Nat.div_unique (N * r + k) N r k), <- (Nat.mod_unique (N * r + k) N r k) by lia. done. }
      unfold wrr_hit. cbn [curr_weight curr_bucket]. destruct (Z.eqb_spec (Z.of_nat i) (Z.of_nat k)) as [He |].
      + apply Nat2Z.inj in He as <-. rewrite (decide_False (P := (S i <= i < _)%nat)) by lia.
        rewrite decide_True by lia. rewrite (bucket_weight_lookup bs i b Hi). destruct (_ <=? _); done.
      + rewrite andb_false_r. destruct (decide (k <= i < k + S len)%nat), (decide (S k <= i < S k + len)%nat); lia || done. }
  specialize (H N 0%nat ltac:(lia)). rewrite Nat.add_0_r in H. rewrite H. by rewrite decide_True by lia.
Qed.

Lemma count_rounds (i : nat) b R :
  bs !! i = Some b -> (R <= rounds)%nat ->
  count (fun j => wrr_hit bs (turn j) && (Z.of_nat i =? curr_bucket (turn j))) (seq 0 (N * R)) =
    (R - (rounds - Z.to_nat (weight b / G)))%nat.
Proof.
  intros Hi HR. destruct max_rounds as [HM HR0].
  pose proof (wrr_divides _ _ Hd0) as Hdiv. rewrite Forall_lookup in Hdiv.
  destruct (Hdiv i b Hi) as [[q Hq] Hle]. rewrite Hq, Z.div_mul by lia.
  induction R as [| R IH]; [rewrite Nat.mul_0_r; simpl; lia |].
  rewrite Nat.mul_succ_r, seq_app, count_app, IH, Nat.add_0_l, (count_round i b R Hi) by lia.
  rewrite HM, Hq. destruct (Z.leb_spec (G * rounds - G * R) (q * G)) as [H1 | H1]; nia.
Qed.

Lemma count_cycle (i : nat) b :
  bs !! i = Some b ->
  count (Z.eqb i) (curr_bucket <$> hits bs cycle) = Z.to_nat (weight b / G).
Proof.
  intros Hi. rewrite count_fmap, count_filter. unfold cycle. rewrite count_fmap.
  rewrite (count_ext _ (fun j => wrr_hit bs (turn j) && (Z.of_nat i =? curr_bucket (turn j)))).
  - rewrite (count_rounds i b rounds Hi) by done.
    assert (Z.to_nat (weight b / G) <= rounds)%nat; [| lia]. unfold rounds.
    pose proof (wrr_divides _ _ Hd0) as Hdiv. rewrite Forall_lookup in Hdiv.
    destruct (Hdiv i b Hi) as [_ Hle]. pose proof (Z.div_le_mono _ _ G Hg Hle). clear -H. lia.
  - intros j _. f_equal. destruct (wrr_hit bs (turn j)); [by rewrite bool_decide_eq_true_2 | by rewrite bool_decide_eq_false_2].
Qed.


(** The packets of a cycle: for each bucket, its weight over the common divisor. *)
Definition cycle_len : nat := sum_list_with (fun b => Z.to_nat (weight b / G)) bs.

Lemma sum_by_index (f : nat -> nat) (g : ofl_bucket -> nat) l k :
  (forall i b, l !! i = Some b -> f (k + i)%nat = g b) ->
  sum_list_with f (seq k (length l)) = sum_list_with g l.
Proof.
  revert k. induction l as [| b l IH]; intros k H; [done |]. cbn [length seq sum_list_with].
  rewrite (IH (S k)); [f_equal; specialize (H 0%nat b eq_refl); by rewrite Nat.add_0_r in H |].
  intros i b' Hi. specialize (H (S i) b' Hi). by rewrite Nat.add_succ_r in H.
Qed.

Lemma cycle_hits_length : length (hits bs cycle) = cycle_len.
Proof.
  rewrite <- (length_fmap curr_bucket), (length_count N).
  - apply sum_by_index. intros i b Hi. by apply count_cycle.
  - apply Forall_forall. intros x (d & -> & Hd)%list_elem_of_fmap.
    apply list_elem_of_filter in Hd as [_ (j & -> & _)%list_elem_of_fmap]. cbn [turn curr_bucket].
    pose proof (Nat.mod_upper_bound j N). pose proof some_bucket. lia.
Qed.

Lemma picks_cycles c :
  picks bs (c * cycle_len) d0 = concat (replicate c (curr_bucket <$> hits bs cycle)).
Proof.
  assert (forall A B (f : A -> B) (l : list A), f <$> concat (replicate c l) = concat (replicate c (f <$> l))) as Hf.
  { intros A B f l. induction c as [| c' IH]; [done |]. simpl. by rewrite fmap_app, IH. }
  assert (hits bs (concat (replicate c cycle)) = concat (replicate c (hits bs cycle))) as Hh.
  { clear Hf. induction c as [| c' IH]; [done |]. simpl. by rewrite filter_app, IH. }
  rewrite <- Hf, <- Hh, <- (picks_chain bs Hn _ d0 Hd0).
  - f_equal. rewrite Hh, <- cycle_hits_length. clear. induction c as [| c' IH]; [done |]. simpl. by rewrite length_app, IH.
  - apply chain_cycles. apply turn_first; [done | done | lia | by left].
Qed.

Lemma picks_fair c (i : nat) b :
  bs !! i = Some b -> count (Z.eqb i) (picks bs (c * cycle_len) d0) = (c * Z.to_nat (weight b / G))%nat.
Proof. intros Hi. by rewrite picks_cycles, count_replicate, (count_cycle i b Hi). Qed.
End fairness.

(** * Loops between groups *)

Lemma is_in_true id l : is_in id l = true <-> id ∈ l.
Proof.
  unfold is_in. rewrite existsb_exists. setoid_rewrite Z.eqb_eq. split.
  - intros (x & Hx & <-). by apply list_elem_of_In.
  - intros H. exists id. split; [by apply list_elem_of_In | done].
Qed.

(** Visiting adds the new groups at the end, each once. *)
Definition add_new (visited tbv ids : list Z) : list Z :=
  fold_left (fun tbv id => if negb (is_in id visited) && negb (is_in id tbv) then tbv ++ [id] else tbv) ids tbv.

Lemma visit_add_new bs visited tbv : is_loop_free_visit bs visited tbv = add_new visited tbv (bucket_groups bs).
Proof.
  unfold is_loop_free_visit, bucket_groups, add_new. revert tbv. induction bs as [| b bs IH]; intros tbv; [done |].
  cbn [fold_left flat_map]. rewrite IH, fold_left_app. f_equal.
  clear IH. unfold action_groups. revert tbv. induction (b_actions b) as [| a l IH]; intros tbv; [done |].
  cbn [fold_left flat_map]. rewrite IH, fold_left_app. f_equal. by destruct a.
Qed.

Lemma add_new_elem visited ids : forall tbv x,
  x ∈ add_new visited tbv ids <-> x ∈ tbv \/ (x ∈ ids /\ x ∉ visited).
Proof.
  induction ids as [| id ids IH]; intros tbv x; cbn [add_new fold_left].
  - rewrite elem_of_nil. tauto.
  - fold (add_new visited). unfold add_new in IH. rewrite IH, elem_of_cons.
    destruct (is_in id visited) eqn:Hv; cbn [negb andb].
    + apply is_in_true in Hv. split; [naive_solver |]. intros [? | [[-> | ?] ?]]; naive_solver.
    + assert (id ∉ visited) by (intros H%is_in_true; congruence).
      destruct (is_in id tbv) eqn:Ht; cbn [negb].
      * apply is_in_true in Ht. naive_solver.
      * rewrite elem_of_app, list_elem_of_singleton. naive_solver.
Qed.

Lemma add_new_NoDup visited ids : forall tbv,
  NoDup (visited ++ tbv) -> NoDup (visited ++ add_new visited tbv ids).
Proof.
  induction ids as [| id ids IH]; intros tbv Hnd; cbn [add_new fold_left]; [done |].
  apply IH. destruct (is_in id visited) eqn:Hv; [done |]. destruct (is_in id tbv) eqn:Ht; [done |]. cbn [negb andb].
  rewrite app_assoc. apply list.NoDup_app. split_and!; [done | | apply NoDup_singleton].
  intros x Hx ->%list_elem_of_singleton. apply elem_of_app in Hx as [Hx%is_in_true | Hx%is_in_true]; congruence.
Qed.

Section loops.
Context (find : Z -> option (list ofl_bucket)).

(** A group leads to the groups its buckets name. *)
Definition succs (i : Z) : list Z := match find i with Some bs => bucket_groups bs | None => [] end.
Definition edge (i j : Z) : Prop := j ∈ succs i.
Definition acyclic : Prop := forall i, ~ tc edge i i.

(** The search: [roots] are the groups the message names. What was met is reachable,
    what was visited has its successors met. *)
Context (Hac : acyclic) (id : Z) (roots : list Z).

Definition reachable (x : Z) : Prop := exists r, r ∈ roots /\ rtc edge r x.

Record search_inv (visited tbv : list Z) : Prop := {
  si_nodup : NoDup (visited ++ tbv);
  si_reach : forall x, x ∈ visited ++ tbv -> reachable x;
  si_roots : forall r, r ∈ roots -> r ∈ visited ++ tbv;
  si_succs : forall v w, v ∈ visited -> edge v w -> w ∈ visited ++ tbv;
  si_id : id ∉ visited;
}.

Lemma search_step visited gv rest :
  search_inv visited (gv :: rest) -> id <> gv ->
  search_inv (visited ++ [gv]) (add_new visited rest (succs gv)).
Proof.
  intros [Hnd Hre Hro Hsu Hid] Hne. apply list.NoDup_app in Hnd as (Hv & Hd & Hr).
  apply NoDup_cons in Hr as [Hgr Hr].
  assert (gv ∉ add_new visited rest (succs gv)) as Hgt.
  { rewrite add_new_elem. intros [? | [Hs _]]; [done |]. apply (Hac gv). by apply tc_once. }
  assert (forall x, x ∈ visited ++ gv :: rest -> x ∈ (visited ++ [gv]) ++ add_new visited rest (succs gv)) as Hmono.
  { intros x. rewrite !elem_of_app, elem_of_cons, list_elem_of_singleton, add_new_elem. tauto. }
  assert (forall w, edge gv w -> w ∈ (visited ++ [gv]) ++ add_new visited rest (succs gv)) as Hsucc.
  { intros w Hw. rewrite !elem_of_app, add_new_elem. destruct (decide (w ∈ visited)); [tauto |]. right. by right. }
  split.
  - rewrite <- app_assoc. cbn [app]. rewrite <- Permutation_middle. apply NoDup_cons. split.
    + rewrite elem_of_app. intros [Hg | ?]; [| done]. by apply (Hd gv Hg), list_elem_of_here.
    + apply add_new_NoDup, list.NoDup_app. split_and!; [done | | done]. intros x Hx ?. apply (Hd x Hx). by right.
  - intros x. rewrite !elem_of_app, list_elem_of_singleton, add_new_elem. intros [[Hx | ->] | [Hx | [Hx _]]].
    + apply Hre, elem_of_app. by left.
    + apply Hre, elem_of_app. right. by left.
    + apply Hre, elem_of_app. right. by right.
    + destruct (Hre gv) as (r & Hr' & Hp); [apply elem_of_app; right; by left |].
      exists r. split; [done | by eapply rtc_r].
  - auto.
  - intros v w [Hv' | ->%list_elem_of_singleton]%elem_of_app Hw; [by eapply Hmono, Hsu | auto].
  - rewrite elem_of_app, list_elem_of_singleton. tauto.
Qed.

Lemma search_done visited : search_inv visited [] -> ~ reachable id.
Proof.
  intros [_ _ Hro Hsu Hid] (r & Hr & Hp). apply Hid.
  assert (r ∈ visited) as Hv by (specialize (Hro r Hr); by rewrite app_nil_r in Hro).
  clear Hr Hid. revert Hv. induction Hp as [| x y z Hxy _ IH]; intros Hv; [done |].
  apply IH; [done..|]. specialize (Hsu x y Hv Hxy). by rewrite app_nil_r in Hsu.
Qed.

(** The loop ends: every turn visits a group it has not visited, and those it meets
    are in [mentions]. *)
Lemma loop_free_loop_spec mentions fuel visited tbv :
  (forall x, reachable x -> x ∈ mentions) -> search_inv visited tbv -> (length mentions <= fuel + length visited)%nat ->
  exists b, loop_free_loop fuel find id visited tbv = Some b /\ (b = true <-> ~ reachable id).
Proof.
  intros Hmen. revert visited tbv. induction fuel as [| fuel IH]; intros visited tbv Hinv Hf;
    destruct tbv as [| gv rest]; cbn [loop_free_loop].
  1,3: exists true; split; [done | split; [intros _; by eapply search_done | done]].
  all: destruct (is_in id (gv :: rest)) eqn:Hin.
  1,3: exists false; split; [done | split; [done |]]; intros Hn; destruct Hn;
    apply (si_reach _ _ Hinv), elem_of_app; right; by apply is_in_true.
  - exfalso. assert (length (visited ++ gv :: rest) <= length mentions)%nat as Hle.
    { apply submseteq_length, NoDup_submseteq; [apply Hinv |]. intros x Hx. by apply Hmen, (si_reach _ _ Hinv). }
    rewrite length_app in Hle. cbn [length] in Hle. lia.
  - replace (match find gv with Some bs => _ | None => rest end) with (add_new visited rest (succs gv))
      by (unfold succs; destruct (find gv); [by rewrite visit_add_new | done]).
    apply IH.
    + apply search_step; [done |]. intros ->. assert (is_in gv (gv :: rest) = true) by (apply is_in_true; by left).
      congruence.
    + rewrite length_app. cbn [length]. lia.
Qed.

Lemma search_start : search_inv [] (add_new [] [] roots).
Proof.
  assert (forall x, x ∈ add_new [] [] roots <-> x ∈ roots) as Heq.
  { intros x. rewrite add_new_elem. rewrite elem_of_nil. pose proof (not_elem_of_nil x). tauto. }
  split; cbn [app].
  - apply (add_new_NoDup [] roots []), NoDup_nil_2.
  - intros x Hx%Heq. by exists x.
  - intros r. apply Heq.
  - by intros v w ?%elem_of_nil.
  - apply not_elem_of_nil.
Qed.
End loops.


(** The table with the buckets of one group replaced. *)
Definition replaced (find : Z -> option (list ofl_bucket)) (id : Z) (bs : list ofl_bucket) (i : Z)
    : option (list ofl_bucket) := if decide (i = id) then Some bs else find i.

Section replace.
Context (find : Z -> option (list ofl_bucket)) (id : Z) (bs : list ofl_bucket).
Abbreviation find' := (replaced find id bs).
Abbreviation roots := (bucket_groups bs).

Lemma edge_new j : edge find' id j <-> j ∈ roots.
Proof. unfold edge, succs, replaced. by rewrite decide_True. Qed.

Lemma edge_old i j : i <> id -> edge find' i j <-> edge find i j.
Proof. intros. unfold edge, succs, replaced. by rewrite decide_False. Qed.

Lemma reach_id x z : rtc (edge find) x z -> z = id -> rtc (edge find') x z.
Proof.
  induction 1 as [x | x y z Hxy _ IH]; intros Hz; [done |]. destruct (decide (x = id)) as [-> | Hx]; [by rewrite Hz |].
  eapply rtc_l; [by apply edge_old | by apply IH].
Qed.

(** A path of the modified table that does not meet [id] is one of the table. *)
Lemma path_avoids a b : tc (edge find') a b -> tc (edge find) a b \/ rtc (edge find) a id.
Proof.
  induction 1 as [a b Hab | a y b Hay _ IH]; (destruct (decide (a = id)) as [-> |]; [by right |]);
    apply edge_old in Hay || apply edge_old in Hab; try done.
  - left. by apply tc_once.
  - destruct IH as [? | ?]; [left; by eapply tc_l | right; by eapply rtc_l].
Qed.

Lemma path_from_root a x :
  tc (edge find') a x -> rtc (edge find) x id -> tc (edge find) a x \/ reachable find roots id.
Proof.
  intros Hp Hx. induction Hp as [a b Hab | a y b Hay _ IH].
  - destruct (decide (a = id)) as [-> |]; [right; exists b; split; [by apply edge_new | done] |].
    left. apply tc_once. by apply edge_old.
  - destruct (IH Hx) as [Hyb | ?]; [| by right]. destruct (decide (a = id)) as [-> |].
    + right. exists y. split; [by apply edge_new |]. by transitivity b; [apply tc_rtc | ].
    + left. eapply tc_l; [by apply edge_old | done].
Qed.

Lemma replaced_acyclic : acyclic find -> acyclic find' <-> ~ reachable find roots id.
Proof.
  intros Hac. split.
  - intros Hac' (r & Hr & Hp). apply (Hac' id). eapply tc_rtc_r; [by apply tc_once, edge_new | by apply reach_id].
  - intros Hn x Hx. destruct (path_avoids x x Hx) as [? | Hid]; [by eapply Hac |].
    destruct (path_from_root x x Hx Hid) as [? | ?]; [by eapply Hac | done].
Qed.
End replace.

(** The check of [group_table_modify] decides whether the modified table has a loop. *)
Lemma is_loop_free_spec find mentions fuel m :
  acyclic find -> (forall x, reachable find (bucket_groups (gm_buckets m)) x -> x ∈ mentions) ->
  (length mentions <= fuel)%nat ->
  exists b, is_loop_free fuel find m = Some b /\
    (b = true <-> acyclic (replaced find (gm_group_id m) (gm_buckets m))).
Proof.
  intros Hac Hmen Hf. unfold is_loop_free. rewrite visit_add_new.
  destruct (loop_free_loop_spec find Hac (gm_group_id m) (bucket_groups (gm_buckets m)) mentions fuel [] _ Hmen
    (search_start find (gm_group_id m) _)) as (b & Hr & Hb); [simpl; lia |].
  exists b. split; [done |]. by rewrite replaced_acyclic.
Qed.


(** * The table as a finite map *)

Lemma acyclic_sub f g : (forall i j, edge g i j -> edge f i j) -> acyclic f -> acyclic g.
Proof.
  intros Hs Hac i Hi. apply (Hac i). revert Hi. generalize i at 2 4. intros j. induction 1 as [a b Hab | a y b Hay _ IH].
  - by apply tc_once, Hs.
  - eapply tc_l; [by apply Hs | done].
Qed.

Definition buckets_of (M : gmap Z group_entry) (i : Z) : option (list ofl_bucket) :=
  (fun e => buckets (desc e)) <$> M !! i.

Definition nbuckets (e : group_entry) : Z := length (buckets (desc e)).

(** Every group a bucket leads to is in the table, and no path leads back. *)
Definition closed (M : gmap Z group_entry) : Prop :=
  forall i e g, M !! i = Some e -> g ∈ bucket_groups (buckets (desc e)) -> is_Some (M !! g).

Record entry_ok (h : Z) (e : group_entry) : Prop := {
  eok_range : 0 <= h <= OFPG_MAX;
  eok_stats : g_group_id (stats e) = h;
  eok_desc : d_group_id (desc e) = h;
  eok_counters : length (counters (stats e)) = length (buckets (desc e));
  eok_data : g_type (desc e) = OFPGT_SELECT -> buckets (desc e) <> [] ->
    exists d, data e = Some d /\ wrr_for (buckets (desc e)) d;
}.

(** A group the table leads to from the groups [roots]. *)
Lemma edge_lookup M i j :
  edge (buckets_of M) i j <-> exists e, M !! i = Some e /\ j ∈ bucket_groups (buckets (desc e)).
Proof.
  unfold edge, succs, buckets_of. destruct (M !! i) as [e |]; simpl.
  - split; [by eexists | by intros (? & [= ->] & ?)].
  - rewrite elem_of_nil. split; [done | by intros (? & ? & _)].
Qed.

Lemma closed_reach M roots x :
  closed M -> (forall r, r ∈ roots -> is_Some (M !! r)) -> reachable (buckets_of M) roots x -> is_Some (M !! x).
Proof.
  intros Hcl Hro (r & Hr & Hp). specialize (Hro r Hr). clear Hr. induction Hp as [| x y z Hxy _ IH]; [done |].
  apply IH. apply edge_lookup in Hxy as (e & He & Hy). by eapply Hcl.
Qed.

Lemma replaced_insert M id e i : replaced (buckets_of M) id (buckets (desc e)) i = buckets_of (<[id := e]> M) i.
Proof.
  unfold replaced, buckets_of. destruct (decide (i = id)) as [-> |].
  - by rewrite lookup_insert_eq.
  - by rewrite lookup_insert_ne.
Qed.

Lemma insert_acyclic M id e :
  acyclic (replaced (buckets_of M) id (buckets (desc e))) <-> acyclic (buckets_of (<[id := e]> M)).
Proof.
  split; apply acyclic_sub; intros i j; unfold edge, succs; by rewrite replaced_insert.
Qed.

(** A new group, whose buckets lead to groups of the table, closes no loop. *)
Lemma add_acyclic M id e :
  closed M -> acyclic (buckets_of M) -> M !! id = None ->
  (forall g, g ∈ bucket_groups (buckets (desc e)) -> is_Some (M !! g)) ->
  acyclic (buckets_of (<[id := e]> M)).
Proof.
  intros Hcl Hac Hid Hg. apply insert_acyclic, replaced_acyclic; [done |].
  intros Hr%closed_reach; [| done..]. by rewrite Hid in Hr; destruct Hr.
Qed.

Lemma insert_closed M id e :
  closed M -> (forall g, g ∈ bucket_groups (buckets (desc e)) -> is_Some (M !! g)) -> closed (<[id := e]> M).
Proof.
  intros Hcl Hg i e' g Hi Hin.
  assert (is_Some (M !! g)) as Hs by (apply lookup_insert_Some in Hi as [[-> ->] | [_ Hi]]; [by apply Hg | by eapply Hcl]).
  destruct (decide (g = id)) as [-> |]; [rewrite lookup_insert_eq; by eexists | by rewrite lookup_insert_ne].
Qed.

Lemma delete_acyclic M id : acyclic (buckets_of M) -> acyclic (buckets_of (delete id M)).
Proof.
  apply acyclic_sub. intros i j. rewrite !edge_lookup. intros (e & He & Hj).
  apply lookup_delete_Some in He as [_ He]. by exists e.
Qed.

Lemma has_out_group_spec e g : group_entry_has_out_group e g = true <-> g ∈ bucket_groups (buckets (desc e)).
Proof.
  unfold group_entry_has_out_group, bucket_groups, action_groups, dp_actions_list_has_out_group.
  rewrite existsb_exists, list_elem_of_In, in_flat_map. setoid_rewrite in_flat_map.
  setoid_rewrite existsb_exists. split.
  - intros (b & Hb & a & Ha & Hg). exists b. split; [done |]. exists a. split; [done |].
    destruct a; try done. apply Z.eqb_eq in Hg as ->. by left.
  - intros (b & Hb & a & Ha & Hg). exists b. split; [done |]. exists a. split; [done |].
    destruct a; simpl in Hg; try done. destruct Hg as [-> | []]. apply Z.eqb_refl.
Qed.

Lemma delete_closed M id :
  closed M -> (forall i e, M !! i = Some e -> id ∉ bucket_groups (buckets (desc e))) -> closed (delete id M).
Proof.
  intros Hcl Hno i e g [_ Hi]%lookup_delete_Some Hg. assert (g <> id) by (intros ->; by eapply Hno).
  rewrite lookup_delete_ne by done. by eapply Hcl.
Qed.

(** The search does not depend on what the table says about other numbers. *)
Lemma loop_free_ext f g id fuel : forall visited tbv,
  (forall i, 0 <= i -> f i = g i) -> (forall i j, edge g i j -> 0 <= j) -> Forall (Z.le 0) tbv ->
  loop_free_loop fuel f id visited tbv = loop_free_loop fuel g id visited tbv.
Proof.
  induction fuel as [| fuel IH]; intros visited [| gv rest] Hfg Hnn Hall; try done; cbn [loop_free_loop].
  destruct (is_in id (gv :: rest)); [done |]. inversion Hall as [| ? ? Hgv Hrest]; subst. rewrite Hfg by done.
  apply IH; [done | done |]. destruct (g gv) as [bs |] eqn:Hg; [| done]. rewrite visit_add_new.
  apply Forall_forall. rewrite Forall_forall in Hrest. intros x. rewrite add_new_elem. intros [Hx | [Hx _]]; [by apply Hrest |].
  apply (Hnn gv). unfold edge, succs. by rewrite Hg.
Qed.


(** * Refinement of the messages *)

(** What the decoder of the message guarantees. *)
Record group_mod_ok (m : group_mod) : Prop := {
  gmo_id : 0 <= gm_group_id m;
  gmo_max : gm_group_id m <= OFPG_MAX \/ gm_command m = 2;
  gmo_weights : weights_ok (gm_buckets m);
  gmo_len : Z.of_nat (length (gm_buckets m)) < 2 ^ 32;
  gmo_groups : forall g, g ∈ bucket_groups (gm_buckets m) -> 0 <= g <= OFPG_MAX;
}.

(** The ports and the groups the buckets name exist. *)
Definition action_valid (port_exists : Z -> bool) (M : gmap Z group_entry) (a : ofl_action) : Prop :=
  match a with
  | Act_output p _ => p <= OFPP_MAX -> port_exists p = true
  | Act_group g => g <= OFPG_MAX -> is_Some (M !! g)
  | _ => True
  end.
Definition buckets_valid port_exists M (bs : list ofl_bucket) : Prop :=
  Forall (fun b => Forall (action_valid port_exists M) (b_actions b)) bs.

(** The entry a modification leaves: the new one with the flow references. *)
Definition keeping_refs (e n : group_entry) : group_entry :=
  GEntry (desc n) (stats n) (g_created n) (data n) (flow_refs e).

(** The effect of a message on the map from identifiers to groups, with the error
    and the flows removed. *)
Inductive group_mod_spec (M : gmap Z group_entry) (m : group_mod) (garbage : Z)
    : gmap Z group_entry -> Z -> list flowref -> Prop :=
| GM_exists e : gm_command m = 0 -> M !! gm_group_id m = Some e ->
    group_mod_spec M m garbage M (group_error OFPGMFC_GROUP_EXISTS) []
| GM_out_of_groups : gm_command m = 0 -> M !! gm_group_id m = None -> Z.of_nat (size M) = 4096 ->
    group_mod_spec M m garbage M (group_error OFPGMFC_OUT_OF_GROUPS) []
| GM_add_buckets : gm_command m = 0 -> M !! gm_group_id m = None -> Z.of_nat (size M) < 4096 ->
    8192 < msum nbuckets M + length (gm_buckets m) ->
    group_mod_spec M m garbage M (group_error OFPGMFC_OUT_OF_BUCKETS) []
| GM_add e : gm_command m = 0 -> M !! gm_group_id m = None -> Z.of_nat (size M) < 4096 ->
    msum nbuckets M + length (gm_buckets m) <= 8192 -> group_entry_create m garbage = Some e ->
    group_mod_spec M m garbage (<[gm_group_id m := e]> M) 0 []
| GM_unknown : gm_command m = 1 -> M !! gm_group_id m = None ->
    group_mod_spec M m garbage M (group_error OFPGMFC_UNKNOWN_GROUP) []
| GM_modify_buckets e : gm_command m = 1 -> M !! gm_group_id m = Some e ->
    8192 < msum nbuckets M - nbuckets e + length (gm_buckets m) ->
    group_mod_spec M m garbage M (group_error OFPGMFC_OUT_OF_BUCKETS) []
| GM_loop e : gm_command m = 1 -> M !! gm_group_id m = Some e ->
    msum nbuckets M - nbuckets e + length (gm_buckets m) <= 8192 ->
    ~ acyclic (replaced (buckets_of M) (gm_group_id m) (gm_buckets m)) ->
    group_mod_spec M m garbage M (group_error OFPGMFC_LOOP) []
| GM_modify e n : gm_command m = 1 -> M !! gm_group_id m = Some e ->
    msum nbuckets M - nbuckets e + length (gm_buckets m) <= 8192 ->
    acyclic (replaced (buckets_of M) (gm_group_id m) (gm_buckets m)) -> group_entry_create m garbage = Some n ->
    group_mod_spec M m garbage (<[gm_group_id m := keeping_refs e n]> M) 0 []
| GM_delete_all gone : gm_command m = 2 -> gm_group_id m = OFPG_ALL ->
    gone ≡ₚ flat_map flow_refs ((map_to_list M).*2) -> group_mod_spec M m garbage ∅ 0 gone
| GM_chained e i x : gm_command m = 2 -> gm_group_id m <> OFPG_ALL -> M !! gm_group_id m = Some e ->
    M !! i = Some x -> gm_group_id m ∈ bucket_groups (buckets (desc x)) ->
    group_mod_spec M m garbage M (group_error OFPGMFC_CHAINING_UNSUPPORTED) []
| GM_delete e : gm_command m = 2 -> gm_group_id m <> OFPG_ALL -> M !! gm_group_id m = Some e ->
    (forall i x, M !! i = Some x -> gm_group_id m ∉ bucket_groups (buckets (desc x))) ->
    group_mod_spec M m garbage (delete (gm_group_id m) M) 0 (flow_refs e)
| GM_delete_none : gm_command m = 2 -> gm_group_id m <> OFPG_ALL -> M !! gm_group_id m = None ->
    group_mod_spec M m garbage M 0 []
| GM_bad_command : gm_command m <> 0 -> gm_command m <> 1 -> gm_command m <> 2 ->
    group_mod_spec M m garbage M (ofl_error OFPET_BAD_REQUEST OFPBRC_BAD_TYPE) [].

Section validation.
Context (port_exists : Z -> bool) (M : gmap Z group_entry).
Abbreviation group_exists := (fun g => bool_decide (is_Some (M !! g))).

Definition bad_actions : list Z :=
  [ofl_error OFPET_BAD_ACTION OFPBAC_BAD_OUT_PORT; ofl_error OFPET_BAD_ACTION OFPBAC_BAD_OUT_GROUP].

Lemma validate_cons a r :
  action_valid port_exists M a /\
    dp_actions_validate port_exists group_exists (a :: r) = dp_actions_validate port_exists group_exists r \/
  ~ action_valid port_exists M a /\ dp_actions_validate port_exists group_exists (a :: r) ∈ bad_actions.
Proof.
  destruct a; try (by left); cbn [dp_actions_validate action_valid].
  - destruct (Z.leb_spec port OFPP_MAX), (port_exists port) eqn:Hp; cbn [andb negb].
    2: right; split; [intros Hf; by discriminate (Hf ltac:(done)) | left].
    all: left; split; [by intros; try lia | done].
  - destruct (Z.leb_spec group_id OFPG_MAX); cbn [andb]; [case_bool_decide |]; cbn [negb].
    2: right; split; [tauto | right; left].
    all: left; split; [by intros; try lia | done].
Qed.

Lemma validate_actions_spec acts :
  let error := dp_actions_validate port_exists group_exists acts in
  error = 0 /\ Forall (action_valid port_exists M) acts \/
  error ∈ bad_actions /\ ~ Forall (action_valid port_exists M) acts.
Proof.
  cbv zeta. induction acts as [| a r IH]; [left; split; [done | constructor] |].
  rewrite Forall_cons. destruct (validate_cons a r) as [[? ->] | [? ?]]; [| by right; tauto].
  destruct IH as [[? ?] | [? ?]]; [by left | right; tauto].
Qed.

Lemma bad_actions_nonzero e : e ∈ bad_actions -> e <> 0.
Proof. unfold bad_actions. rewrite !elem_of_cons, elem_of_nil. intros [-> | [-> | []]]; by vm_compute. Qed.

Lemma validate_buckets_spec bs :
  let error := validate_buckets port_exists group_exists bs in
  error = 0 /\ buckets_valid port_exists M bs \/ error ∈ bad_actions /\ ~ buckets_valid port_exists M bs.
Proof.
  cbv zeta. unfold buckets_valid. induction bs as [| b r IH]; [left; split; [done | constructor] |].
  rewrite Forall_cons. cbn [validate_buckets].
  destruct (validate_actions_spec (b_actions b)) as [[-> ?] | [Hb ?]].
  - rewrite Z.eqb_refl. destruct IH as [[? ?] | [? ?]]; [by left | right; tauto].
  - right. rewrite (proj2 (Z.eqb_neq _ 0)) by (by apply bad_actions_nonzero). split; [done | tauto].
Qed.

Lemma valid_groups bs g :
  buckets_valid port_exists M bs -> g ∈ bucket_groups bs -> g <= OFPG_MAX -> is_Some (M !! g).
Proof.
  unfold buckets_valid, bucket_groups, action_groups. rewrite Forall_forall.
  intros Hv Hg Hmax. apply list_elem_of_In, in_flat_map in Hg as (b & Hb & Hg).
  apply in_flat_map in Hg as (a & Ha & Hg). apply list_elem_of_In in Hb, Ha.
  specialize (Hv b Hb). rewrite Forall_forall in Hv. specialize (Hv a Ha).
  destruct a; simpl in Hg; try done. destruct Hg as [-> | []]. by apply Hv.
Qed.
End validation.

Lemma validate_buckets_ext port_exists ge ge' bs :
  (forall g, g ∈ bucket_groups bs -> ge g = ge' g) ->
  validate_buckets port_exists ge bs = validate_buckets port_exists ge' bs.
Proof.
  unfold bucket_groups. induction bs as [| b r IH]; intros H; [done |]. cbn [validate_buckets flat_map] in *.
  assert (dp_actions_validate port_exists ge (b_actions b) = dp_actions_validate port_exists ge' (b_actions b)) as ->.
  { assert (forall g, g ∈ action_groups (b_actions b) -> ge g = ge' g) as Ha
      by (intros g Hg; apply H, elem_of_app; by left).
    clear -Ha. unfold action_groups in Ha. induction (b_actions b) as [| a l IHl]; [done |].
    cbn [dp_actions_validate flat_map] in *.
    rewrite IHl by (intros g Hg; apply Ha, elem_of_app; by right).
    destruct a; try done. by rewrite Ha by (by left). }
  rewrite IH; [done |]. intros g Hg. apply H, elem_of_app. by right.
Qed.

Lemma group_entry_create_ok m garbage :
  group_mod_ok m -> gm_group_id m <= OFPG_MAX ->
  exists e, group_entry_create m garbage = Some e /\ entry_ok (gm_group_id m) e /\ buckets (desc e) = gm_buckets m.
Proof.
  intros [Hid _ Hw _ _] Hmax. unfold group_entry_create. destruct (Z.eqb_spec (gm_type m) OFPGT_SELECT) as [Ht | Ht].
  - destruct (decide (gm_buckets m = [])) as [Hnil | Hne].
    + rewrite Hnil. cbn [init_select_group fmap option_fmap option_map mbind option_bind].
      eexists. split; [done |]. split; [| done]. by split.
    + destruct (init_select_group_spec _ Hw Hne) as (d & -> & Hd & _).
      cbn [fmap option_fmap option_map mbind option_bind]. eexists. split; [done |]. split; [| done].
      split; [done | done | done | apply length_replicate | by exists d].
  - cbn [mbind option_bind]. eexists. split; [done |]. split; [| done].
    split; [done | done | done | apply length_replicate | by intros].
Qed.


Section refinement.
Context {T : Type} `{!IdTable T group_entry}.
Implicit Types t : group_table T.

Definition tmap t : gmap Z group_entry := tbl_map (entries t).

(** The counters of the table count its groups and their buckets, within the limits;
    the groups lead to groups of the table, and never back. *)
Record table_ok t : Prop := {
  tok_tbl : tbl_ok (entries t);
  tok_entries : entries_num t = size (tmap t);
  tok_max : Z.of_nat (size (tmap t)) <= 4096;
  tok_buckets : buckets_num t = msum nbuckets (tmap t);
  tok_max_buckets : msum nbuckets (tmap t) <= 8192;
  tok_entry : map_Forall entry_ok (tmap t);
  tok_closed : closed (tmap t);
  tok_acyclic : acyclic (buckets_of (tmap t));
}.

Lemma nbuckets_nonneg e : 0 <= nbuckets e.
Proof. unfold nbuckets. lia. Qed.

Lemma group_find_tmap t h : table_ok t -> 0 <= h -> group_table_find t h = tmap t !! h.
Proof. intros Hok Hh. apply tbl_find_map; [by apply Hok | done]. Qed.

Lemma group_count_lt t : table_ok t -> tbl_count (entries t) + 2 < 2 ^ 64.
Proof.
  intros Hok. rewrite tbl_count_map by (by apply Hok). pose proof (tok_max t Hok). unfold tmap in *. lia.
Qed.

Lemma elem_of_entries t e : table_ok t -> e ∈ tbl_elems (entries t) <-> exists h, tmap t !! h = Some e.
Proof.
  intros Hok. rewrite (tbl_elems_map (entries t)) by apply Hok. rewrite list_elem_of_fmap. split.
  - intros ([h x] & -> & Hx%elem_of_map_to_list). by exists h.
  - intros [h Hh]. exists (h, e). split; [done | by apply elem_of_map_to_list].
Qed.

(** A path in a closed table stays in it. *)
Lemma mentions_enough t m x :
  table_ok t ->
  reachable (buckets_of (tmap t)) (bucket_groups (gm_buckets m)) x ->
  x ∈ flat_map (fun e => bucket_groups (buckets (desc e))) (tbl_elems (entries t)) ++ bucket_groups (gm_buckets m).
Proof.
  intros Hok (r & Hr & Hp). apply elem_of_app. apply rtc_inv_r in Hp as [<- | (y & _ & Hy)]; [by right |]. left.
  apply edge_lookup in Hy as (e & He & Hx). apply list_elem_of_In, in_flat_map. exists e.
  split; apply list_elem_of_In; [| done]. apply elem_of_entries; [done | by eexists].
Qed.

(** [is_loop_free] on the table of the switch ends and decides whether the modified
    table has a loop. *)
Lemma table_loop_free t m :
  table_ok t -> group_mod_ok m ->
  exists b, is_loop_free (loop_fuel t m) (fun id => (fun e => buckets (desc e)) <$> group_table_find t id) m = Some b /\
    (b = true <-> acyclic (replaced (buckets_of (tmap t)) (gm_group_id m) (gm_buckets m))).
Proof.
  intros Hok Hm. destruct (is_loop_free_spec (buckets_of (tmap t)) _ (loop_fuel t m) m (tok_acyclic t Hok)
    (fun x => mentions_enough t m x Hok)) as (b & Hr & Hb); [by rewrite length_app |].
  exists b. split; [| done]. rewrite <- Hr. unfold is_loop_free. apply loop_free_ext.
  - intros i Hi. unfold buckets_of. by rewrite group_find_tmap.
  - intros i j (e & He & Hj)%edge_lookup. destruct (tok_closed t Hok i e j He Hj) as [e' He'].
    apply (eok_range _ _ (tok_entry t Hok _ _ He')).
  - rewrite visit_add_new. apply Forall_forall. intros x. rewrite add_new_elem, elem_of_nil.
    intros [[] | [Hx _]]. apply (gmo_groups m Hm x Hx).
Qed.

(** The table after an insertion or a replacement. *)
Lemma insert_table_ok t tbl (num bnum : Z) h e :
  table_ok t -> tbl_ok tbl -> tbl_map tbl = <[h := e]> (tmap t) -> entry_ok h e ->
  (forall g, g ∈ bucket_groups (buckets (desc e)) -> is_Some (tmap t !! g)) ->
  acyclic (buckets_of (<[h := e]> (tmap t))) ->
  num = size (<[h := e]> (tmap t)) -> num <= 4096 ->
  bnum = msum nbuckets (<[h := e]> (tmap t)) -> bnum <= 8192 ->
  table_ok (GTable num tbl bnum).
Proof.
  intros Hok Htok Htm He Hg Hac -> Hn -> Hb. split; unfold tmap; cbn [entries entries_num buckets_num]; rewrite ?Htm; try done.
  - apply map_Forall_insert_2; [done | apply (tok_entry t Hok)].
  - apply insert_closed; [apply (tok_closed t Hok) | done].
Qed.

Lemma group_table_add_refines t m garbage :
  table_ok t -> group_mod_ok m -> gm_command m = 0 ->
  (forall g, g ∈ bucket_groups (gm_buckets m) -> is_Some (tmap t !! g)) ->
  exists t' err gone, group_table_add t m garbage = Some (t', err, gone) /\ table_ok t' /\
    group_mod_spec (tmap t) m garbage (tmap t') err gone.
Proof.
  intros Hok Hm Hc Hg. pose proof (gmo_id m Hm) as Hid. unfold group_table_add.
  pose proof (group_find_tmap t _ Hok Hid) as Hf. unfold group_table_find in Hf. rewrite Hf.
  destruct (tmap t !! gm_group_id m) as [e |] eqn:Hl; [eexists _, _, _; split_and!; [done | done | by eapply GM_exists] |].
  pose proof (tok_max t Hok) as Hmax. pose proof (tok_max_buckets t Hok) as Hmb.
  pose proof (msum_nonneg nbuckets (tmap t) nbuckets_nonneg) as Hb0. pose proof (gmo_len m Hm) as Hlen.
  rewrite (tok_entries t Hok). unfold GROUP_TABLE_MAX_ENTRIES, GROUP_TABLE_MAX_BUCKETS.
  destruct (Z.eqb_spec (size (tmap t)) 4096) as [Hs | Hs];
    [eexists _, _, _; split_and!; [done | done | by apply GM_out_of_groups] |].
  rewrite (tok_buckets t Hok), wrap_small by (unfold in_range; lia).
  destruct (Z.ltb_spec 8192 (msum nbuckets (tmap t) + length (gm_buckets m)));
    [eexists _, _, _; split_and!; [done | done | apply GM_add_buckets; (done || lia)] |].
  assert (gm_group_id m <= OFPG_MAX) as Hmx by (destruct (gmo_max m Hm); [done | lia]).
  destruct (group_entry_create_ok m garbage Hm Hmx) as (e & Hcr & He & Hbe). rewrite Hcr.
  cbn [mbind option_bind]. rewrite (eok_stats _ _ He), Hbe.
  destruct (tbl_insert_map (entries t) e _ (tok_tbl t Hok) Hid Hl (group_count_lt t Hok)) as [Htok Htm].
  eexists _, _, _. split_and!; [done | |].
  - apply (insert_table_ok t _ _ _ (gm_group_id m) e); rewrite ?Hbe; try done.
    + apply add_acyclic; [apply (tok_closed t Hok) | apply (tok_acyclic t Hok) | done | by rewrite Hbe].
    + rewrite map_size_insert_None, wrap_small by (done || unfold in_range; lia). lia.
    + rewrite wrap_small by (unfold in_range; lia). lia.
    + rewrite msum_insert, wrap_small by (done || unfold in_range; lia).
      assert (nbuckets e = length (gm_buckets m)) by (unfold nbuckets; by rewrite Hbe). lia.
    + rewrite wrap_small by (unfold in_range; lia). lia.
  - unfold tmap at 2. cbn [entries]. rewrite Htm. fold (tmap t). apply GM_add; (done || lia).
Qed.


Lemma group_table_modify_refines t m garbage :
  table_ok t -> group_mod_ok m -> gm_command m = 1 ->
  (forall g, g ∈ bucket_groups (gm_buckets m) -> is_Some (tmap t !! g)) ->
  exists t' err gone, group_table_modify t m garbage = Some (t', err, gone) /\ table_ok t' /\
    group_mod_spec (tmap t) m garbage (tmap t') err gone.
Proof.
  intros Hok Hm Hc Hg. pose proof (gmo_id m Hm) as Hid. unfold group_table_modify. rewrite group_find_tmap by done.
  destruct (tmap t !! gm_group_id m) as [e |] eqn:Hl; [| eexists _, _, _; split_and!; [done | done | by apply GM_unknown]].
  pose proof (tok_max_buckets t Hok) as Hmb. pose proof (nbuckets_nonneg e) as He0. pose proof (gmo_len m Hm) as Hlen.
  pose proof (msum_lookup_le nbuckets (tmap t) _ e nbuckets_nonneg Hl) as Hle.
  change (Z.of_nat (length (buckets (desc e)))) with (nbuckets e).
  rewrite (tok_buckets t Hok), wrap_small by (unfold in_range; lia). unfold GROUP_TABLE_MAX_BUCKETS.
  destruct (Z.ltb_spec 8192 (msum nbuckets (tmap t) - nbuckets e + length (gm_buckets m)));
    [eexists _, _, _; split_and!; [done | done | by eapply GM_modify_buckets] |].
  destruct (table_loop_free t m Hok Hm) as (b & -> & Hb). cbn [mbind option_bind].
  destruct b; [| eexists _, _, _; split_and!; [done | done | eapply GM_loop; (done || intros ?%Hb; done)]].
  assert (gm_group_id m <= OFPG_MAX) as Hmx by (destruct (gmo_max m Hm); [done | lia]).
  destruct (group_entry_create_ok m garbage Hm Hmx) as (n & Hcr & Hn & Hbn). rewrite Hcr. cbn [mbind option_bind].
  fold (keeping_refs e n).
  destruct (tbl_replace_map (entries t) e (keeping_refs e n) _ (tok_tbl t Hok) Hid Hl (group_count_lt t Hok))
    as (tbl' & -> & Htok & Htm). cbn [mbind option_bind].
  assert (acyclic (replaced (buckets_of (tmap t)) (gm_group_id m) (gm_buckets m))) as Hac by (by apply Hb).
  eexists _, _, _. split_and!; [done | |].
  - apply (insert_table_ok t _ _ _ (gm_group_id m) (keeping_refs e n)); cbn [keeping_refs desc]; rewrite ?Hbn; try done.
    + destruct Hn. by split.
    + apply insert_acyclic. cbn [keeping_refs desc]. by rewrite Hbn.
    + rewrite map_size_insert, Hl. apply (tok_entries t Hok).
    + rewrite (tok_entries t Hok). apply (tok_max t Hok).
    + rewrite (msum_replace nbuckets _ _ e), wrap_small by (done || unfold in_range; lia).
      assert (nbuckets (keeping_refs e n) = length (gm_buckets m)) by (unfold nbuckets; by rewrite <- Hbn). lia.
    + rewrite wrap_small by (unfold in_range; lia). lia.
  - unfold tmap at 2. cbn [entries]. rewrite Htm. fold (tmap t). by eapply GM_modify.
Qed.

Lemma empty_group_table_ok : table_ok (GTable 0 (tbl_empty (T := T)) 0).
Proof.
  destruct tbl_empty_ok as [Hok Hm]. split; unfold tmap; simpl; rewrite ?Hm; try done.
  intros i Hi. assert (exists y, edge (buckets_of ∅) i y) as (y & (e & He & _)%edge_lookup);
    [inversion Hi; by eexists | by rewrite lookup_empty in He].
Qed.

Lemma group_table_delete_refines t m garbage :
  table_ok t -> group_mod_ok m -> gm_command m = 2 ->
  exists t' err gone, group_table_delete t m = Some (t', err, gone) /\ table_ok t' /\
    group_mod_spec (tmap t) m garbage (tmap t') err gone.
Proof.
  intros Hok Hm Hc. pose proof (gmo_id m Hm) as Hid. unfold group_table_delete.
  destruct (Z.eqb_spec (gm_group_id m) OFPG_ALL) as [Hall | Hall].
  - eexists _, _, _. split_and!; [done | apply empty_group_table_ok |].
    unfold tmap at 2. cbn [entries]. rewrite (proj2 tbl_empty_ok). apply GM_delete_all; [done | done |].
    unfold tmap. by rewrite (tbl_elems_map (entries t)) by (by apply Hok).
  - rewrite group_find_tmap by done. destruct (tmap t !! gm_group_id m) as [e |] eqn:Hl;
      [| eexists _, _, _; split_and!; [done | done | by apply GM_delete_none]].
    rewrite (eok_stats _ _ (tok_entry t Hok _ _ Hl)).
    destruct (existsb _ _) eqn:Hex.
    { apply existsb_exists in Hex as (x & Hx%list_elem_of_In & Hg%has_out_group_spec).
      apply elem_of_entries in Hx as [i Hi]; [| done].
      eexists _, _, _; split_and!; [done | done | by eapply GM_chained]. }
    assert (forall i x, tmap t !! i = Some x -> gm_group_id m ∉ bucket_groups (buckets (desc x))) as Hno.
    { intros i x Hi Hg%has_out_group_spec. apply not_true_iff_false in Hex. apply Hex, existsb_exists.
      exists x. split; [apply list_elem_of_In, elem_of_entries; [done | by eexists] | done]. }
    destruct (tbl_remove_map (entries t) e _ (tok_tbl t Hok) Hl) as (tbl' & -> & Htok & Htm). cbn [mbind option_bind].
    eexists _, _, _. split; [done |].
    assert (size (delete (gm_group_id m) (tmap t)) = Nat.pred (size (tmap t)) /\ (0 < size (tmap t))%nat) as [Hsz Hs0].
    { split; [by rewrite map_size_delete, Hl |]. destruct (decide (size (tmap t) = 0%nat)) as [H0 |]; [| lia].
      apply map_size_empty_inv in H0. rewrite H0 in Hl. done. }
    pose proof (msum_lookup_le nbuckets (tmap t) _ e nbuckets_nonneg Hl) as Hle. pose proof (nbuckets_nonneg e) as Hbe.
    pose proof (tok_max_buckets t Hok) as Hb. pose proof (tok_max t Hok) as Hmx.
    change (Z.of_nat (length (buckets (desc e)))) with (nbuckets e).
    split; [| unfold tmap at 2; cbn [entries]; rewrite Htm; fold (tmap t); by apply GM_delete].
    split; unfold tmap; cbn [entries entries_num buckets_num]; rewrite ?Htm; fold (tmap t).
    + done.
    + rewrite Hsz, (tok_entries t Hok), wrap_small by (unfold in_range; lia). lia.
    + rewrite Hsz. lia.
    + rewrite (msum_delete nbuckets _ _ e), (tok_buckets t Hok), wrap_small by (done || unfold in_range; lia). done.
    + rewrite (msum_delete nbuckets _ _ e) by done. lia.
    + apply map_Forall_delete, (tok_entry t Hok).
    + apply delete_closed; [apply (tok_closed t Hok) | done].
    + apply delete_acyclic, (tok_acyclic t Hok).
Qed.
End refinement.


(** * Properties *)

(** C4. The group table is a finite map from identifiers to groups: every message has
    the effect of [group_mod_spec] on the map, errors included, and nothing changes on
    an error. The table keeps counting its groups and buckets within the limits, every
    group its buckets lead to exists, and no chain of groups leads back to its start:
    the loop check ends and refuses a modification exactly when it would make a loop. *)
Theorem group_mod_refines `{!IdTable T group_entry} port_exists (t : group_table T) m role garbage :
  table_ok t -> group_mod_ok m ->
  exists t' err gone, group_table_handle_group_mod port_exists t m role garbage = Some (t', err, gone) /\
    table_ok t' /\
    if role =? OFPCR_ROLE_SLAVE then
      err = ofl_error OFPET_BAD_REQUEST OFPBRC_IS_SLAVE /\ t' = t /\ gone = []
    else
      buckets_valid port_exists (tmap t) (gm_buckets m) /\
        group_mod_spec (tmap t) m garbage (tmap t') err gone \/
      ~ buckets_valid port_exists (tmap t) (gm_buckets m) /\ err ∈ bad_actions /\ t' = t /\ gone = [].
Proof.
  intros Hok Hm. unfold group_table_handle_group_mod.
  destruct (role =? OFPCR_ROLE_SLAVE); [by eexists _, _, _ |].
  rewrite (validate_buckets_ext _ _ (fun g => bool_decide (is_Some (tmap t !! g)))).
  2: { intros g Hg. by rewrite group_find_tmap by (done || apply (gmo_groups m Hm g Hg)). }
  destruct (validate_buckets_spec port_exists (tmap t) (gm_buckets m)) as [[-> Hv] | [Hbad Hv]].
  2: { rewrite (proj2 (Z.eqb_neq _ 0)) by (by apply bad_actions_nonzero). eexists _, _, _. by split_and!; [| | right]. }
  rewrite Z.eqb_refl. cbn [negb].
  assert (forall g, g ∈ bucket_groups (gm_buckets m) -> is_Some (tmap t !! g)) as Hg
    by (intros g Hg; eapply valid_groups; [done | done | apply (gmo_groups m Hm g Hg)]).
  destruct (Z.eqb_spec (gm_command m) 0) as [Hc | Hc0].
  { destruct (group_table_add_refines t m garbage Hok Hm Hc Hg) as (t' & err & gone & ? & ? & ?).
    exists t', err, gone. split_and!; auto. }
  destruct (Z.eqb_spec (gm_command m) 1) as [Hc | Hc1].
  { destruct (group_table_modify_refines t m garbage Hok Hm Hc Hg) as (t' & err & gone & ? & ? & ?).
    exists t', err, gone. split_and!; auto. }
  destruct (Z.eqb_spec (gm_command m) 2) as [Hc | Hc2].
  { destruct (group_table_delete_refines t m garbage Hok Hm Hc) as (t' & err & gone & ? & ? & ?).
    exists t', err, gone. split_and!; auto. }
  eexists _, _, _. split_and!; [done | done | left; split; [done | by apply GM_bad_command]].
Qed.

(** A select group with two buckets that leads nowhere else. *)
Definition demo_buckets : list ofl_bucket :=
  [Bucket 4 OFPP_ANY OFPG_ANY [Act_output 1 0]; Bucket 6 OFPP_ANY OFPG_ANY [Act_output 2 0]].
Definition demo_mod : group_mod := GMod 0 OFPGT_SELECT 7 demo_buckets.

Lemma demo_mod_ok : group_mod_ok demo_mod.
Proof.
  split; [done | by left | | done |].
  - unfold weights_ok. apply (bool_decide_unpack _). by vm_compute.
  - intros g Hg. apply elem_of_nil in Hg. done.
Defined.

Lemma group_mod_refines_witness :
  exists t' err gone,
    group_table_handle_group_mod (T := hmap group_entry) (fun _ => true) (GTable 0 tbl_empty 0) demo_mod 2 9
      = Some (t', err, gone) /\ table_ok t' /\ err = 0.
Proof.
  destruct (group_mod_refines (T := hmap group_entry) (fun _ => true) (GTable 0 tbl_empty 0) demo_mod 2 9)
    as (t' & err & gone & Hr & Hok & Hs).
  - apply (empty_group_table_ok (T := hmap group_entry)).
  - apply demo_mod_ok.
  - exists t', err, gone. split_and!; [done | done |]. vm_compute in Hr. by injection Hr.
Defined.

(** C16. Selection is fair: from the initial state of a select group whose weights are
    not all zero, over any number of whole cycles every bucket is selected exactly in
    proportion to its weight, its weight over the common divisor once per cycle. *)
Theorem wrr_fair bs d :
  weights_ok bs -> Exists (fun b => 0 < weight b) bs -> Z.of_nat (length bs) < 2 ^ 64 ->
  init_select_group bs = Some d ->
  0 < gcd_weight d /\ Forall (fun b => (gcd_weight d | weight b)) bs /\
  forall c (i : nat) b, bs !! i = Some b ->
    count (Z.eqb i) (picks bs (c * cycle_len bs d) d) = (c * Z.to_nat (weight b / gcd_weight d))%nat.
Proof.
  intros Hw Hpos Hn Hd. assert (bs <> []) as Hne by (intros ->; inversion Hpos).
  destruct (init_select_group_spec bs Hw Hne) as (d' & Hd' & Hfor & Hcw & Hcb).
  assert (d' = d) as -> by congruence.
  apply Exists_exists in Hpos as (b & Hb & Hwb). pose proof (wrr_divides _ _ Hfor) as Hdiv.
  rewrite Forall_forall in Hdiv. destruct (Hdiv b Hb) as [Hg Hm]. pose proof (wrr_gcd _ _ Hfor).
  assert (0 < gcd_weight d) as Hg0
    by (destruct (Z.eq_dec (gcd_weight d) 0) as [H0 |]; [rewrite H0 in Hg; apply Z.divide_0_l in Hg |]; lia).
  split_and!; [done | |].
  - apply Forall_forall. intros x Hx. apply (Hdiv x Hx).
  - intros c i b' Hi. apply picks_fair; (done || lia).
Qed.

Lemma wrr_fair_witness :
  exists d, init_select_group demo_buckets = Some d /\ cycle_len demo_buckets d = 5%nat /\
    count (Z.eqb 1%nat) (picks demo_buckets (2 * cycle_len demo_buckets d) d) = 6%nat.
Proof.
  exists (WRR 6 2 0 (2 ^ 64 - 1)). split; [by vm_compute |]. split; [by vm_compute |].
  destruct (wrr_fair demo_buckets (WRR 6 2 0 (2 ^ 64 - 1))) as (_ & _ & H).
  - apply (gmo_weights _ demo_mod_ok).
  - by left.
  - by vm_compute.
  - by vm_compute.
  - by rewrite (H 2%nat 1%nat (Bucket 6 OFPP_ANY OFPG_ANY [Act_output 2 0])).
Defined.

(** A select group that has buckets always selects one: in every state that can be
    reached the loop finds within one round a bucket of the group whose weight is at
    least the current one, and leaves such a state. *)
Theorem wrr_selects bs d :
  wrr_for bs d -> Z.of_nat (length bs) < 2 ^ 64 ->
  let '(d', b) := select_from_select_group bs d in
  wrr_for bs d' /\ b = curr_bucket d' /\ 0 <= b < length bs /\ curr_weight d' <= bucket_weight bs b.
Proof.
  intros Hd Hn. unfold select_from_select_group. destruct bs as [| b r] eqn:Hbs.
  - destruct (wrr_attained _ _ Hd) as (i & b & Hi & _). done.
  - rewrite <- Hbs in *. apply select_hits; [done | by apply hit_in_a_round | done].
Qed.

Lemma wrr_selects_witness :
  snd (select_from_select_group demo_buckets (WRR 6 2 0 (2 ^ 64 - 1))) = 1 /\
  wrr_for demo_buckets (fst (select_from_select_group demo_buckets (WRR 6 2 0 (2 ^ 64 - 1)))).
Proof.
  destruct (init_select_group_spec demo_buckets (gmo_weights _ demo_mod_ok)) as (d & Hd & Hfor & _); [done |].
  vm_compute in Hd. injection Hd as <-. split; [by vm_compute |].
  exact (proj1 (wrr_selects demo_buckets _ Hfor ltac:(by vm_compute))).
Defined.

(** Modifying a group keeps the flows that refer to it and sets their count to zero. *)
Lemma modify_forgets_ref_count e m garbage n :
  group_entry_create m garbage = Some n ->
  flow_refs (keeping_refs e n) = flow_refs e /\ ref_count (stats (keeping_refs e n)) = 0.
Proof.
  unfold group_entry_create. intros H. destruct (if gm_type m =? OFPGT_SELECT then _ else _); simplify_eq/=. done.
Qed.

(** Removing one of these references then wraps the counter. *)
Lemma ref_count_wraps e fe :
  ref_count (stats e) = 0 -> flow_refs e = [fe] ->
  ref_count (stats (group_entry_del_flow_ref e fe)) = 2 ^ 32 - 1.
Proof.
  intros Hc Hf. unfold group_entry_del_flow_ref. cbn [stats with_refs ref_count]. rewrite Hc, Hf.
  by rewrite (filter_cons_True (fun f => f = fe)) by done.
Qed.
End Group.
