(* ===== verification/Ofpbuf.v ===== *)
(** Packet buffers (lib/ofpbuf.c). A buffer is a piece of allocated memory at an
    address; [data] points into it. Growing the buffer may move it, so the pointers
    kept by others can dangle: addresses are part of the model, and the address a
    reallocation returns is an argument. *)
From S2P Require Import Prelude.
Open Scope Z_scope.

Module Ofpbuf.

(** [struct ofpbuf]: the [allocated] bytes at [base] are [mem]; [NULL] is 0. *)
Record ofpbuf := Buf {
  base : Z; mem : list Z; data : Z; size : Z;
  l2 : Z; l3 : Z; l4 : Z; l7 : Z }.

#[global] Instance ofpbuf_eq_dec : EqDecision ofpbuf.
Proof. solve_decision. Defined.

Definition allocated (b : ofpbuf) : Z := length (mem b).

(** The index in [mem] of an address. *)
Definition index (b : ofpbuf) (p : Z) : nat := Z.to_nat (p - base b).

(** What the buffer holds. *)
Definition bytes (b : ofpbuf) : list Z := slice (index b (data b)) (Z.to_nat (size b)) (mem b).

(** Reading and writing [n] bytes at an address; outside the buffer there is nothing. *)
Definition inside (b : ofpbuf) (p : Z) (n : nat) : bool :=
  (base b <=? p) && (p + n <=? base b + allocated b).
Definition load (b : ofpbuf) (p : Z) (n : nat) : option (list Z) :=
  if inside b p n then Some (slice (index b p) n (mem b)) else None.
Definition with_mem (b : ofpbuf) (m : list Z) : ofpbuf :=
  Buf (base b) m (data b) (size b) (l2 b) (l3 b) (l4 b) (l7 b).
Definition store (b : ofpbuf) (p : Z) (bs : list Z) : option ofpbuf :=
  if inside b p (length bs) then Some (with_mem b (patch (index b p) bs (mem b))) else None.

Section operations.
(** What [malloc] and [realloc] leave in the bytes they do not set. *)
Context (junk : nat -> Z).

Definition uninitialised (n : nat) : list Z := junk <$> seq 0 n.

Definition ofpbuf_use (at_ : Z) (m : list Z) : ofpbuf := Buf at_ m at_ 0 0 0 0 0.

(** [at_] is the address [xmalloc] returns. *)
Definition ofpbuf_init (n : nat) (at_ : Z) : ofpbuf :=
  ofpbuf_use (if (n =? 0)%nat then 0 else at_) (uninitialised n).

Definition ofpbuf_new (n : nat) (at_ : Z) : ofpbuf := ofpbuf_init n at_.

Definition ofpbuf_tail (b : ofpbuf) : Z := data b + size b.
Definition ofpbuf_end (b : ofpbuf) : Z := base b + allocated b.
Definition ofpbuf_headroom (b : ofpbuf) : Z := data b - base b.
Definition ofpbuf_tailroom (b : ofpbuf) : Z := ofpbuf_end b - ofpbuf_tail b.

(** The pointers follow the memory to its new place. *)
Definition ofpbuf_rebase__ (b : ofpbuf) (new_base : Z) : ofpbuf :=
  if base b =? new_base then b
  else
    let base_delta := new_base - base b in
    let move p := if p =? 0 then 0 else p + base_delta in
    Buf new_base (mem b) (data b + base_delta) (size b) (move (l2 b)) (move (l3 b)) (move (l4 b)) (move (l7 b)).

Definition xrealloc (m : list Z) (n : nat) : list Z := take n m ++ uninitialised (n - length m).

Definition ofpbuf_resize_tailroom__ (b : ofpbuf) (new_tailroom : Z) (at_ : Z) : ofpbuf :=
  let n := Z.to_nat (ofpbuf_headroom b + size b + new_tailroom) in
  ofpbuf_rebase__ (with_mem b (xrealloc (mem b) n)) at_.

Definition ofpbuf_prealloc_tailroom (b : ofpbuf) (n : Z) (at_ : Z) : ofpbuf :=
  if ofpbuf_tailroom b <? n then ofpbuf_resize_tailroom__ b (Z.max n 64) at_ else b.

(** A failed assertion ends the program: [None]. *)
Definition ofpbuf_prealloc_headroom (b : ofpbuf) (n : Z) : option ofpbuf :=
  if n <=? ofpbuf_headroom b then Some b else None.

Definition ofpbuf_trim (b : ofpbuf) (at_ : Z) : ofpbuf :=
  if 0 <? ofpbuf_tailroom b then ofpbuf_resize_tailroom__ b 0 at_ else b.

Definition with_size (b : ofpbuf) (n : Z) : ofpbuf :=
  Buf (base b) (mem b) (data b) n (l2 b) (l3 b) (l4 b) (l7 b).
Definition with_data (b : ofpbuf) (p n : Z) : ofpbuf :=
  Buf (base b) (mem b) p n (l2 b) (l3 b) (l4 b) (l7 b).

(** These return the buffer and the pointer. *)
Definition ofpbuf_put_uninit (b : ofpbuf) (n : Z) (at_ : Z) : ofpbuf * Z :=
  let b := ofpbuf_prealloc_tailroom b n at_ in
  (with_size b (size b + n), ofpbuf_tail b).

Definition ofpbuf_put_zeros (b : ofpbuf) (n : nat) (at_ : Z) : option (ofpbuf * Z) :=
  let '(b, dst) := ofpbuf_put_uninit b n at_ in
  b ← store b dst (replicate n 0); Some (b, dst).

Definition ofpbuf_put (b : ofpbuf) (p : list Z) (at_ : Z) : option (ofpbuf * Z) :=
  let '(b, dst) := ofpbuf_put_uninit b (length p) at_ in
  b ← store b dst p; Some (b, dst).

Definition ofpbuf_reserve (b : ofpbuf) (n : Z) (at_ : Z) : option ofpbuf :=
  if size b =? 0 then
    let b := ofpbuf_prealloc_tailroom b n at_ in Some (with_data b (data b + n) (size b))
  else None.

Definition ofpbuf_push_uninit (b : ofpbuf) (n : Z) : option (ofpbuf * Z) :=
  b ← ofpbuf_prealloc_headroom b n;
  Some (with_data b (data b - n) (size b + n), data b - n).

Definition ofpbuf_push_zeros (b : ofpbuf) (n : nat) : option (ofpbuf * Z) :=
  '(b, dst) ← ofpbuf_push_uninit b n; b ← store b dst (replicate n 0); Some (b, dst).

Definition ofpbuf_push (b : ofpbuf) (p : list Z) : option (ofpbuf * Z) :=
  '(b, dst) ← ofpbuf_push_uninit b (length p); b ← store b dst p; Some (b, dst).

Definition ofpbuf_at (b : ofpbuf) (offset n : Z) : Z :=
  if u64 (offset + n) <=? size b then data b + offset else 0.

Definition ofpbuf_at_assert (b : ofpbuf) (offset n : Z) : option Z :=
  if u64 (offset + n) <=? size b then Some (data b + offset) else None.

Definition ofpbuf_clear (b : ofpbuf) : ofpbuf := with_data b (base b) 0.

Definition ofpbuf_pull (b : ofpbuf) (n : Z) : option (ofpbuf * Z) :=
  if n <=? size b then Some (with_data b (data b + n) (size b - n), data b) else None.

Definition ofpbuf_try_pull (b : ofpbuf) (n : Z) : option (ofpbuf * Z) :=
  if n <=? size b then ofpbuf_pull b n else Some (b, 0).

Definition ofpbuf_new_with_headroom (n headroom : nat) (at_ : Z) : option ofpbuf :=
  ofpbuf_reserve (ofpbuf_new (n + headroom) at_) headroom at_.

Definition ofpbuf_clone_data (d : list Z) (at_ : Z) : option ofpbuf :=
  '(b, _) ← ofpbuf_put (ofpbuf_new (length d) at_) d at_; Some b.

Definition ofpbuf_clone (b : ofpbuf) (at_ : Z) : option ofpbuf := ofpbuf_clone_data (bytes b) at_.

Definition ofpbuf_clone_with_headroom (b : ofpbuf) (headroom : nat) (at_ : Z) : option ofpbuf :=
  c ← ofpbuf_new_with_headroom (Z.to_nat (size b)) headroom at_;
  '(c, _) ← ofpbuf_put c (bytes b) at_; Some c.
End operations.


(** * What a buffer promises *)

(** The bytes in use are within the allocation, and the pointers to the layers are
    null or not before it. *)
Record buf_ok (b : ofpbuf) : Prop := {
  bok_base : 0 <= base b;
  bok_data : base b <= data b;
  bok_size : 0 <= size b;
  bok_end : data b + size b <= base b + allocated b;
  bok_l : Forall (fun p => p = 0 \/ base b <= p) [l2 b; l3 b; l4 b; l7 b];
}.

(** Where the layers are, relative to the memory. *)
Definition layer (b : ofpbuf) (p : Z) : option Z := if p =? 0 then None else Some (p - base b).
Definition layers (b : ofpbuf) : list (option Z) := layer b <$> [l2 b; l3 b; l4 b; l7 b].

Lemma slice_patch_tail i s p m :
  (i + s + length p <= length m)%nat -> slice i (s + length p) (patch (i + s) p m) = slice i s m ++ p.
Proof.
  intros H. unfold slice, patch. rewrite drop_app_le by (rewrite length_take; lia).
  rewrite take_app_ge by (rewrite length_drop, length_take; lia). rewrite length_drop, length_take.
  replace (s + length p - ((i + s) `min` length m - i))%nat with (length p) by lia.
  rewrite take_app_length. f_equal. rewrite skipn_firstn_comm. f_equal. lia.
Qed.

Lemma slice_patch_head i s p m :
  (i + length p + s <= length m)%nat -> slice i (length p + s) (patch i p m) = p ++ slice (i + length p) s m.
Proof.
  intros H. unfold slice, patch. rewrite drop_app_length' by (rewrite length_take; lia).
  rewrite take_app_add. done.
Qed.

Lemma slice_firstn i s n m : (i + s <= n)%nat -> slice i s (take n m) = slice i s m.
Proof. intros H. unfold slice. rewrite skipn_firstn_comm, take_take. f_equal. lia. Qed.

Lemma slice_app_l i s m m' : (i + s <= length m)%nat -> slice i s (m ++ m') = slice i s m.
Proof.
  intros H. unfold slice. rewrite drop_app_le by lia. apply take_app_le. rewrite length_drop. lia.
Qed.


Lemma slice_patch_within i k n new m :
  (k + length new <= n)%nat -> (i + n <= length m)%nat ->
  slice i n (patch (i + k) new m) = patch k new (slice i n m).
Proof.
  intros Hk Hn. unfold slice, patch.
  rewrite drop_app_le by (rewrite length_take; lia). rewrite skipn_firstn_comm.
  replace (i + k - i)%nat with k by lia.
  rewrite take_app_ge, length_take, length_drop by (rewrite length_take, length_drop; lia).
  rewrite take_app_ge by lia. rewrite take_take, skipn_firstn_comm, drop_drop.
  f_equal; [f_equal; lia |]. f_equal. f_equal; [lia |]. f_equal; lia.
Qed.

Section promises.
Context (junk : nat -> Z).

(** The same contents, the same place in the memory, the layers where they were. *)
Record same_view (b b' : ofpbuf) : Prop := {
  sv_ok : buf_ok b';
  sv_bytes : bytes b' = bytes b;
  sv_size : size b' = size b;
  sv_headroom : ofpbuf_headroom b' = ofpbuf_headroom b;
  sv_layers : layers b' = layers b;
}.

Lemma xrealloc_length m n : length (xrealloc junk m n) = n.
Proof.
  unfold xrealloc, uninitialised. rewrite length_app, length_take, length_fmap, length_seq. lia.
Qed.

Lemma rebase_view b at_ : buf_ok b -> 0 < at_ -> same_view b (ofpbuf_rebase__ b at_) /\
  ofpbuf_tailroom (ofpbuf_rebase__ b at_) = ofpbuf_tailroom b.
Proof.
  intros Hok Hat. unfold ofpbuf_rebase__. destruct (Z.eqb_spec (base b) at_); [done |].
  pose proof Hok as [H1 H2 H3 H4 H5]. split; [| unfold ofpbuf_tailroom, ofpbuf_end, ofpbuf_tail, allocated; simpl; lia].
  rewrite Forall_forall in H5. split.
  - split; cbn [base data size mem l2 l3 l4 l7]; unfold allocated in *; cbn [mem]; try lia.
    apply Forall_forall. intros p Hp. rewrite !elem_of_cons, elem_of_nil in Hp.
    assert (forall q, q ∈ [l2 b; l3 b; l4 b; l7 b] -> let r := if q =? 0 then 0 else q + (at_ - base b) in r = 0 \/ at_ <= r)
      as Hq by (intros q Hq r; unfold r; destruct (Z.eqb_spec q 0); [by left | destruct (H5 q Hq); lia]).
    destruct Hp as [-> | [-> | [-> | [-> | []]]]]; apply Hq; rewrite !elem_of_cons; tauto.
  - unfold bytes, index. cbn [base data size mem]. do 2 f_equal. lia.
  - done.
  - unfold ofpbuf_headroom. simpl. lia.
  - unfold layers, layer. cbn [base l2 l3 l4 l7].
    assert (forall q, q ∈ [l2 b; l3 b; l4 b; l7 b] ->
      (if (if q =? 0 then 0 else q + (at_ - base b)) =? 0 then None
       else Some ((if q =? 0 then 0 else q + (at_ - base b)) - at_)) = (if q =? 0 then None else Some (q - base b))) as Hq.
    { intros q Hq. destruct (Z.eqb_spec q 0) as [-> |]; [done |]. destruct (H5 q Hq); [lia |].
      rewrite (proj2 (Z.eqb_neq (q + (at_ - base b)) 0)) by lia. f_equal. lia. }
    cbn [fmap list_fmap]. rewrite !Hq by (rewrite !elem_of_cons; tauto). done.
Qed.

Lemma resize_view b n at_ :
  buf_ok b -> 0 <= n -> 0 < at_ ->
  same_view b (ofpbuf_resize_tailroom__ junk b n at_) /\ ofpbuf_tailroom (ofpbuf_resize_tailroom__ junk b n at_) = n.
Proof.
  intros Hok Hn Hat. unfold ofpbuf_resize_tailroom__.
  set (k := Z.to_nat (ofpbuf_headroom b + size b + n)). pose proof Hok as [H1 H2 H3 H4 H5].
  pose proof (xrealloc_length (mem b) k) as Hl. unfold ofpbuf_headroom, allocated in *.
  assert (same_view b (with_mem b (xrealloc junk (mem b) k))) as [Hv1 Hv2 Hv3 Hv4 Hv5].
  { split; try done.
    - split; cbn [base data size mem with_mem l2 l3 l4 l7]; unfold allocated; cbn [mem with_mem]; try done. rewrite Hl. lia.
    - unfold bytes, index, xrealloc. cbn [with_mem base data size mem].
      rewrite slice_app_l by (rewrite length_take; lia). apply slice_firstn. lia. }
  destruct (rebase_view _ at_ Hv1 Hat) as [[Hr1 Hr2 Hr3 Hr4 Hr5] Htr]. split; [split; congruence |].
  rewrite Htr. unfold ofpbuf_tailroom, ofpbuf_end, ofpbuf_tail, allocated. cbn [with_mem base data size mem]. rewrite Hl. lia.
Qed.

Lemma prealloc_view b n at_ :
  buf_ok b -> 0 <= n -> 0 < at_ ->
  same_view b (ofpbuf_prealloc_tailroom junk b n at_) /\ n <= ofpbuf_tailroom (ofpbuf_prealloc_tailroom junk b n at_).
Proof.
  intros Hok Hn Hat. unfold ofpbuf_prealloc_tailroom. destruct (Z.ltb_spec (ofpbuf_tailroom b) n).
  - destruct (resize_view b (Z.max n 64) at_ Hok) as [Hv ->]; [lia | done |]. split; [done | lia].
  - by split; [split |].
Qed.

Lemma put_spec b p at_ :
  buf_ok b -> 0 < at_ ->
  exists b', ofpbuf_put junk b p at_ = Some (b', ofpbuf_tail b' - length p) /\ buf_ok b' /\
    bytes b' = bytes b ++ p /\ size b' = size b + length p /\
    ofpbuf_headroom b' = ofpbuf_headroom b /\ layers b' = layers b.
Proof.
  intros Hok Hat. unfold ofpbuf_put, ofpbuf_put_uninit.
  destruct (prealloc_view b (length p) at_ Hok) as [[Hv1 Hv2 Hv3 Hv4 Hv5] Hroom]; [lia | done |].
  set (c := ofpbuf_prealloc_tailroom junk b (length p) at_) in *. pose proof Hv1 as [H1 H2 H3 H4 H5].
  unfold store, inside, ofpbuf_tailroom, ofpbuf_end, ofpbuf_tail, allocated in *. cbn [with_size base mem].
  rewrite (proj2 (Z.leb_le _ _)), (proj2 (Z.leb_le _ _)) by lia. cbn [andb mbind option_bind].
  eexists. split; [f_equal; f_equal; cbn [with_mem with_size data size]; lia |].
  assert ((index c (data c + size c) + length p <= length (mem c))%nat) as Hidx by (unfold index; lia).
  split_and!.
  - split; cbn [with_mem with_size base data size mem l2 l3 l4 l7]; unfold allocated; cbn [with_mem mem]; try done; [lia |].
    rewrite patch_length by done. lia.
  - rewrite <- Hv2. unfold bytes. cbn [with_mem with_size data size mem]. unfold index in *. cbn [with_mem with_size base].
    replace (Z.to_nat (data c + size c - base c)) with (Z.to_nat (data c - base c) + Z.to_nat (size c))%nat by lia.
    replace (Z.to_nat (size c + length p)) with (Z.to_nat (size c) + length p)%nat by lia.
    apply slice_patch_tail. lia.
  - cbn [with_mem with_size size]. lia.
  - done.
  - done.
Qed.


End promises.

Lemma push_spec b p :
  buf_ok b ->
  if length p <=? ofpbuf_headroom b then
    exists b', ofpbuf_push b p = Some (b', data b') /\ buf_ok b' /\ bytes b' = p ++ bytes b /\
      ofpbuf_tailroom b' = ofpbuf_tailroom b /\ layers b' = layers b
  else ofpbuf_push b p = None.
Proof.
  intros [H1 H2 H3 H4 H5]. unfold ofpbuf_push, ofpbuf_push_uninit, ofpbuf_prealloc_headroom.
  destruct (Z.leb_spec (length p) (ofpbuf_headroom b)) as [Hr |]; [| done]. cbn [mbind option_bind].
  unfold ofpbuf_headroom, store, inside, allocated in *. cbn [with_data base mem].
  rewrite (proj2 (Z.leb_le _ _)), (proj2 (Z.leb_le _ _)) by lia. cbn [andb mbind option_bind].
  assert ((index b (data b - length p) + length p <= length (mem b))%nat) as Hidx by (unfold index; lia).
  match goal with |- context [Some (with_mem ?x ?m, _)] => exists (with_mem x m) end. split; [done |]. split_and!.
  - split; cbn [with_mem with_data base data size mem l2 l3 l4 l7]; unfold allocated; cbn [with_mem mem]; try done; try lia.
    rewrite patch_length by done. lia.
  - unfold bytes, index in *. cbn [with_mem with_data data size mem base].
    replace (Z.to_nat (size b + length p)) with (length p + Z.to_nat (size b))%nat by lia.
    rewrite slice_patch_head by lia. do 2 f_equal. lia.
  - unfold ofpbuf_tailroom, ofpbuf_end, ofpbuf_tail, allocated. cbn [with_mem with_data data size mem base].
    rewrite patch_length by done. lia.
  - done.
Qed.

Lemma pull_spec b (n : nat) :
  buf_ok b ->
  if n <=? size b then
    exists b', ofpbuf_pull b n = Some (b', data b) /\ buf_ok b' /\ bytes b' = drop n (bytes b) /\ layers b' = layers b
  else ofpbuf_pull b n = None.
Proof.
  intros [H1 H2 H3 H4 H5]. unfold ofpbuf_pull, allocated in *. destruct (Z.leb_spec n (size b)); [| done].
  eexists. split; [done |]. split_and!; [| | done].
  - split; cbn [with_data base data size mem l2 l3 l4 l7]; unfold allocated; cbn [with_data mem]; try done; lia.
  - unfold bytes, index, slice. cbn [with_data base data size mem].
    rewrite skipn_firstn_comm, drop_drop. f_equal; [lia |]. f_equal. lia.
Qed.

Lemma bytes_length b : buf_ok b -> length (bytes b) = Z.to_nat (size b).
Proof. intros [H1 H2 H3 H4 H5]. unfold bytes, index, allocated in *. apply slice_length. lia. Qed.

(** ** Accesses within the data *)

(** Writing within the data changes the contents and nothing else of the buffer. *)
Record edited (b b' : ofpbuf) (bs : list Z) : Prop := {
  ed_ok : buf_ok b';
  ed_base : base b' = base b;
  ed_data : data b' = data b;
  ed_size : size b' = size b;
  ed_allocated : allocated b' = allocated b;
  ed_layers : layers b' = layers b;
  ed_bytes : bytes b' = bs;
}.

Lemma load_at b (i n : nat) :
  buf_ok b -> i + n <= size b -> load b (data b + i) n = Some (slice i n (bytes b)).
Proof.
  intros [H1 H2 H3 H4 H5] Hn. unfold load, inside, allocated in *.
  rewrite (proj2 (Z.leb_le _ _)), (proj2 (Z.leb_le _ _)) by lia. cbn [andb]. f_equal.
  unfold bytes, slice, index. rewrite skipn_firstn_comm, take_take, drop_drop. f_equal; [lia |]. f_equal. lia.
Qed.

Lemma store_at b (i : nat) new :
  buf_ok b -> i + length new <= size b ->
  exists b', store b (data b + i) new = Some b' /\ edited b b' (patch i new (bytes b)).
Proof.
  intros [H1 H2 H3 H4 H5] Hn. unfold store, inside, allocated in *.
  rewrite (proj2 (Z.leb_le _ _)), (proj2 (Z.leb_le _ _)) by lia. cbn [andb]. eexists. split; [done |].
  assert (length (patch (index b (data b + i)) new (mem b)) = length (mem b)) as Hl
    by (apply patch_length; unfold index; lia).
  split; try done.
  - split; cbn [with_mem base data size mem l2 l3 l4 l7]; unfold allocated; cbn [with_mem mem]; try done. lia.
  - unfold allocated. cbn [with_mem mem]. lia.
  - unfold bytes, index in *. cbn [with_mem base data size mem].
    replace (Z.to_nat (data b + i - base b)) with (Z.to_nat (data b - base b) + i)%nat in * by lia.
    apply slice_patch_within. lia. lia.
Qed.

(** A write that ends beyond the data, in the tailroom. *)
Lemma store_over b (i : nat) new :
  buf_ok b -> i <= size b -> size b <= i + length new <= size b + ofpbuf_tailroom b ->
  exists b', store b (data b + i) new = Some b' /\
    edited b b' (take i (bytes b) ++ take (Z.to_nat (size b) - i) new).
Proof.
  intros [H1 H2 H3 H4 H5] Hi Hn. unfold ofpbuf_tailroom, ofpbuf_end, ofpbuf_tail, store, inside, allocated in *.
  rewrite (proj2 (Z.leb_le _ _)), (proj2 (Z.leb_le _ _)) by lia. cbn [andb]. eexists. split; [done |].
  assert (length (patch (index b (data b + i)) new (mem b)) = length (mem b)) as Hl
    by (apply patch_length; unfold index; lia).
  split; try done.
  - split; cbn [with_mem base data size mem l2 l3 l4 l7]; unfold allocated; cbn [with_mem mem]; try done. lia.
  - unfold allocated. cbn [with_mem mem]. lia.
  - unfold bytes, index in *. cbn [with_mem base data size mem].
    replace (Z.to_nat (data b + i - base b)) with (Z.to_nat (data b - base b) + i)%nat by lia.
    unfold slice, patch. rewrite drop_app_le by (rewrite length_take; lia). rewrite skipn_firstn_comm.
    rewrite take_app_ge by (rewrite length_take, length_drop; lia). rewrite take_take, length_take, length_drop.
    rewrite take_app_le by lia. f_equal; f_equal; lia.
Qed.

Lemma store_outside b p new :
  base b + allocated b < p + length new -> store b p new = None.
Proof.
  intros H. unfold store, inside. rewrite (proj2 (Z.leb_gt (p + length new) _) H). by rewrite andb_false_r.
Qed.

(** Memory does not depend on where the data is. *)
Lemma load_with_data b d s p n : load (with_data b d s) p n = load b p n.
Proof. done. Qed.
Lemma store_with_data b d s p new : store (with_data b d s) p new = (fun b => with_data b d s) <$> store b p new.
Proof. unfold store, inside, index, allocated. cbn [with_data base mem]. by destruct (_ && _). Qed.

(** The data moved down into the headroom, and grown into the tailroom. *)
Lemma grow_head b (n : nat) :
  buf_ok b -> n <= ofpbuf_headroom b ->
  let b' := with_data b (data b - n) (size b + n) in
  buf_ok b' /\ exists g, length g = n /\ bytes b' = g ++ bytes b.
Proof.
  intros Hok Hn b'. pose proof Hok as [H1 H2 H3 H4 H5]. unfold ofpbuf_headroom, allocated in *. split.
  - split; cbn [b' with_data base data size mem l2 l3 l4 l7]; unfold allocated; cbn [b' with_data mem]; try done; lia.
  - exists (slice (index b (data b - n)) n (mem b)). split; [apply slice_length; unfold index; lia |].
    unfold bytes, index, slice. cbn [b' with_data base data size mem].
    replace (Z.to_nat (size b + n)) with (n + Z.to_nat (size b))%nat by lia. rewrite <- take_take_drop.
    f_equal. rewrite drop_drop. do 2 f_equal. lia.
Qed.

Lemma put_uninit_view junk b (n : nat) at_ :
  buf_ok b -> 0 < at_ ->
  let b' := (ofpbuf_put_uninit junk b n at_).1 in
  buf_ok b' /\ size b' = size b + n /\ (exists g, length g = n /\ bytes b' = bytes b ++ g) /\
  ofpbuf_headroom b' = ofpbuf_headroom b /\
  ofpbuf_tailroom b' = (if ofpbuf_tailroom b <? n then Z.max n 64 else ofpbuf_tailroom b) - n.
Proof.
  intros Hok Hat b'. unfold b', ofpbuf_put_uninit. cbn [fst].
  destruct (prealloc_view junk b n at_ Hok ltac:(lia) Hat) as [[Hv1 Hv2 Hv3 Hv4 Hv5] Hr].
  assert (ofpbuf_tailroom (ofpbuf_prealloc_tailroom junk b n at_) =
    if ofpbuf_tailroom b <? n then Z.max n 64 else ofpbuf_tailroom b) as Hroom.
  { unfold ofpbuf_prealloc_tailroom. destruct (_ <? _); [| done]. apply resize_view; (done || lia). }
  set (c := ofpbuf_prealloc_tailroom junk b n at_) in *. pose proof Hv1 as [H1 H2 H3 H4 H5].
  unfold ofpbuf_tailroom, ofpbuf_end, ofpbuf_tail, ofpbuf_headroom, allocated in *. split_and!.
  - split; cbn [with_size base data size mem l2 l3 l4 l7]; unfold allocated; cbn [with_size mem]; try done; lia.
  - cbn [with_size size]. lia.
  - exists (slice (index c (data c + size c)) n (mem c)). split; [apply slice_length; unfold index; lia |].
    rewrite <- Hv2. unfold bytes, index, slice. cbn [with_size base data size mem].
    replace (Z.to_nat (size c + n)) with (Z.to_nat (size c) + n)%nat by lia. rewrite <- take_take_drop.
    f_equal. rewrite drop_drop. do 2 f_equal. lia.
  - cbn [with_size base data]. lia.
  - cbn [with_size base data size mem]. lia.
Qed.

Lemma put_uninit_base junk b n at_ : 0 < at_ -> 0 < base b -> 0 < base (ofpbuf_put_uninit junk b n at_).1.
Proof.
  intros Hat Hb. unfold ofpbuf_put_uninit, ofpbuf_prealloc_tailroom, ofpbuf_resize_tailroom__, ofpbuf_rebase__.
  cbn [fst with_size base]. destruct (_ <? _); [| done]. by destruct (_ =? _).
Qed.

Section copies.
Context (junk : nat -> Z).

Lemma new_ok n at_ : 0 < at_ -> buf_ok (ofpbuf_new junk n at_) /\ bytes (ofpbuf_new junk n at_) = [].
Proof.
  intros Hat. assert (forall x m, 0 <= x -> buf_ok (ofpbuf_use x m)) as H.
  { intros x m Hx. split; cbn; unfold allocated; cbn; try lia. repeat constructor. }
  split; [apply H; destruct (n =? 0)%nat; lia |]. done.
Qed.

Lemma clone_spec b at_ :
  buf_ok b -> 0 < at_ ->
  exists b', ofpbuf_clone junk b at_ = Some b' /\ buf_ok b' /\ bytes b' = bytes b.
Proof.
  intros Hok Hat. unfold ofpbuf_clone, ofpbuf_clone_data. destruct (new_ok (length (bytes b)) at_ Hat) as [Hn Hb].
  destruct (put_spec junk _ (bytes b) at_ Hn Hat) as (b' & -> & Hok' & Hbs & _). cbn [mbind option_bind].
  exists b'. split_and!; [done | done |]. by rewrite Hbs, Hb.
Qed.

Lemma reserve_spec b (n : nat) at_ :
  buf_ok b -> 0 < at_ -> size b = 0 ->
  exists b', ofpbuf_reserve junk b n at_ = Some b' /\ buf_ok b' /\ bytes b' = [] /\ n <= ofpbuf_headroom b'.
Proof.
  intros Hok Hat Hs. unfold ofpbuf_reserve. rewrite Hs. change (0 =? 0) with true. cbv iota.
  destruct (prealloc_view junk b n at_ Hok) as [[Hv1 Hv2 Hv3 Hv4 Hv5] Hroom]; [lia | done |].
  set (c := ofpbuf_prealloc_tailroom junk b n at_) in *. pose proof Hv1 as [H1 H2 H3 H4 H5].
  unfold ofpbuf_tailroom, ofpbuf_end, ofpbuf_tail, allocated, ofpbuf_headroom in *.
  eexists. split; [done |]. split_and!.
  - split; cbn [with_data base data size mem l2 l3 l4 l7]; unfold allocated; cbn [with_data mem]; try done; lia.
  - unfold bytes, slice. cbn [with_data size]. by rewrite Hv3, Hs.
  - cbn [with_data data base]. lia.
Qed.
End copies.

(** * Properties *)

(** A buffer is a byte sequence that grows at both ends: putting appends, pushing
    prepends when there is headroom and fails its assertion otherwise, pulling drops
    bytes from the front, clearing empties it, trimming and cloning keep the contents.
    No operation loses a byte when the memory moves, and the pointers to the layers
    move along. *)
Theorem ofpbuf_refines_bytes junk b at_ :
  buf_ok b -> 0 < at_ ->
  (forall p, exists b', ofpbuf_put junk b p at_ = Some (b', ofpbuf_tail b' - length p) /\ buf_ok b' /\
    bytes b' = bytes b ++ p /\ layers b' = layers b) /\
  (forall p, if length p <=? ofpbuf_headroom b
    then exists b', ofpbuf_push b p = Some (b', data b') /\ buf_ok b' /\ bytes b' = p ++ bytes b /\ layers b' = layers b
    else ofpbuf_push b p = None) /\
  (forall n : nat, if n <=? size b
    then exists b', ofpbuf_pull b n = Some (b', data b) /\ buf_ok b' /\ bytes b' = drop n (bytes b) /\ layers b' = layers b
    else ofpbuf_pull b n = None) /\
  (buf_ok (ofpbuf_clear b) /\ bytes (ofpbuf_clear b) = []) /\
  (buf_ok (ofpbuf_trim junk b at_) /\ bytes (ofpbuf_trim junk b at_) = bytes b /\
    ofpbuf_tailroom (ofpbuf_trim junk b at_) = 0) /\
  (exists b', ofpbuf_clone junk b at_ = Some b' /\ buf_ok b' /\ bytes b' = bytes b).
Proof.
  intros Hok Hat. split_and!.
  - intros p. destruct (put_spec junk b p at_ Hok Hat) as (b' & ? & ? & ? & _ & _ & ?). by exists b'.
  - intros p. pose proof (push_spec b p Hok) as H. destruct (_ <=? _); [| done].
    destruct H as (b' & ? & ? & ? & _ & ?). by exists b'.
  - intros n. apply (pull_spec b n Hok).
  - destruct Hok as [H1 H2 H3 H4 H5]. unfold allocated in *.
    split; cbn [ofpbuf_clear with_data base data size mem l2 l3 l4 l7]; unfold allocated; cbn; try done; lia.
  - by unfold bytes, slice.
  - unfold ofpbuf_trim. destruct (_ <? _); [apply resize_view; (done || lia) | done].
  - unfold ofpbuf_trim. destruct (_ <? _); [apply resize_view; (done || lia) | done].
  - unfold ofpbuf_trim. destruct (Z.ltb_spec 0 (ofpbuf_tailroom b)); [apply resize_view; (done || lia) |].
    destruct Hok as [H1 H2 H3 H4 H5]. unfold ofpbuf_tailroom, ofpbuf_end, ofpbuf_tail in *. lia.
  - by apply clone_spec.
Qed.

(** Four bytes of headroom, two of data. *)
Definition demo_buf : ofpbuf := Buf 1000 [9; 9; 9; 9; 1; 2] 1004 2 1004 0 0 0.

Lemma ofpbuf_refines_bytes_witness :
  exists b', ofpbuf_put (fun _ => 7) demo_buf [3; 4; 5] 5000 = Some (b', 5006) /\ bytes b' = [1; 2; 3; 4; 5] /\
    layers b' = [Some 4; None; None; None].
Proof.
  destruct (ofpbuf_refines_bytes (fun _ => 7) demo_buf 5000) as (Hput & _).
  - split; cbn; unfold allocated; cbn; try lia. apply (bool_decide_unpack _). by vm_compute.
  - lia.
  - destruct (Hput [3; 4; 5]) as (b' & Hr & _ & Hb & Hl). exists b'. split_and!; [| exact Hb | exact Hl].
    rewrite Hr. vm_compute in Hr. injection Hr as <-. done.
Defined.
End Ofpbuf.
