(* ===== verification/Packet.v ===== *)
(** Packets and their standard handler (udatapath/packet.c, packet_handle_std.c). The
    packet parser (nbee_link, over the NetBee library) is an argument: it turns the
    bytes of a buffer into match fields and pointers to the headers. *)
From S2P Require Import Prelude HMap Oxm OflTypes MatchStd ActionSet Buffers Ofpbuf.
Open Scope Z_scope.

Module Packet.

(** [struct protocols_std]: the addresses of the headers, 0 if there is none. *)
Record protocols_std := Protocols {
  eth : Z; eth_snap : Z; vlan : Z; vlan_last : Z; mpls : Z; pbb : Z; ipv4 : Z; ipv6 : Z;
  arp : Z; tcp : Z; udp : Z; sctp : Z; icmp : Z; ehddp : Z; ehddp_notify : Z }.

#[global] Instance protocols_std_eq_dec : EqDecision protocols_std.
Proof. solve_decision. Defined.

Definition protocol_reset (p : protocols_std) : protocols_std :=
  Protocols 0 0 0 0 0 0 0 0 0 0 0 0 0 0 (ehddp_notify p).

Record packet_handle_std := Handle {
  proto : protocols_std; hmatch : ofl_match; valid : bool; table_miss : bool }.

(** [struct packet]; the action set of the packet is the list of its entries. *)
Record packet := Pkt {
  buffer : Ofpbuf.ofpbuf; in_port : Z; action_set : list ActionSet.action_set_entry; packet_out : bool;
  out_group : Z; out_port : Z; out_port_max_len : Z; out_queue : Z; table_id : Z; buffer_id : Z;
  handle_std : packet_handle_std }.

Definition with_buffer (p : packet) (b : Ofpbuf.ofpbuf) : packet :=
  Pkt b (in_port p) (action_set p) (packet_out p) (out_group p) (out_port p) (out_port_max_len p)
    (out_queue p) (table_id p) (buffer_id p) (handle_std p).
Definition with_action_set (p : packet) (s : list ActionSet.action_set_entry) : packet :=
  Pkt (buffer p) (in_port p) s (packet_out p) (out_group p) (out_port p) (out_port_max_len p)
    (out_queue p) (table_id p) (buffer_id p) (handle_std p).
Definition with_packet_out (p : packet) (o : bool) : packet :=
  Pkt (buffer p) (in_port p) (action_set p) o (out_group p) (out_port p) (out_port_max_len p)
    (out_queue p) (table_id p) (buffer_id p) (handle_std p).
Definition with_out (p : packet) (group port max_len : Z) : packet :=
  Pkt (buffer p) (in_port p) (action_set p) (packet_out p) group port max_len
    (out_queue p) (table_id p) (buffer_id p) (handle_std p).
Definition with_out_queue (p : packet) (q : Z) : packet :=
  Pkt (buffer p) (in_port p) (action_set p) (packet_out p) (out_group p) (out_port p) (out_port_max_len p)
    q (table_id p) (buffer_id p) (handle_std p).
Definition with_table_id (p : packet) (t : Z) : packet :=
  Pkt (buffer p) (in_port p) (action_set p) (packet_out p) (out_group p) (out_port p) (out_port_max_len p)
    (out_queue p) t (buffer_id p) (handle_std p).
Definition with_buffer_id (p : packet) (i : Z) : packet :=
  Pkt (buffer p) (in_port p) (action_set p) (packet_out p) (out_group p) (out_port p) (out_port_max_len p)
    (out_queue p) (table_id p) i (handle_std p).
Definition with_handle (p : packet) (h : packet_handle_std) : packet :=
  Pkt (buffer p) (in_port p) (action_set p) (packet_out p) (out_group p) (out_port p) (out_port_max_len p)
    (out_queue p) (table_id p) (buffer_id p) h.
Definition with_valid (p : packet) (v : bool) : packet :=
  let h := handle_std p in with_handle p (Handle (proto h) (hmatch h) v (table_miss h)).

#[global] Instance packet_buffered : Buffers.BufferedPacket packet := {|
  Buffers.buffer_id := buffer_id; Buffers.with_buffer_id := with_buffer_id;
  Buffers.with_packet_out := with_packet_out;
  Buffers.buffer_id_with _ _ := eq_refl; Buffers.buffer_id_out _ _ := eq_refl |}.

(** The parser: the fields, the headers and whether it succeeded. It starts from the
    headers the handler had, as [protocol_reset] leaves one of them. *)
Class Parser := nblink_packet_parse : Ofpbuf.ofpbuf -> protocols_std -> ofl_match * protocols_std * bool.

Definition NO_BUFFER : Z := 0xffffffff.

Section handler.
Context `{Parser}.

(** The last value under a header, as the loops of [packet_handle_std_validate] read it. *)
Definition carried (m : ofl_match) (h : Z) : Z :=
  fold_left (fun _ f => rd64 (value f)) (tlvs_with_hash m h) 0.

(** The match of a packet that was parsed: the fields of the parser, the input port,
    and the metadata and tunnel id of before. *)
Definition parsed_match (m old : ofl_match) (port : Z) : ofl_match :=
  let m := ofl_structs_match_put32 m OXM_OF_IN_PORT port in
  let m := ofl_structs_match_put64 m OXM_OF_METADATA (carried old OXM_OF_METADATA) in
  ofl_structs_match_put64 m OXM_OF_TUNNEL_ID (carried old OXM_OF_TUNNEL_ID).

Definition packet_handle_std_validate (p : packet) : packet :=
  let h := handle_std p in
  if valid h then p
  else
    let '(m, pr, ok) := nblink_packet_parse (buffer p) (proto h) in
    if ok : bool then with_handle p (Handle pr (parsed_match m (hmatch h) (in_port p)) true (table_miss h))
    else with_handle p (Handle pr m false (table_miss h)).

(** [xmalloc] leaves the headers and [table_miss] unset: [pr0] and [miss0]. *)
Definition packet_handle_std_create (p : packet) (pr0 : protocols_std) (miss0 : bool) : packet :=
  packet_handle_std_validate (with_handle p (Handle pr0 ofl_structs_match_init false miss0)).

Definition packet_create (port : Z) (buf : Ofpbuf.ofpbuf) (out : bool) (pr0 : protocols_std) (miss0 : bool) : packet :=
  packet_handle_std_create
    (Pkt buf port ActionSet.action_set_create out OFPG_ANY OFPP_ANY 0 0 0 NO_BUFFER
       (Handle pr0 ofl_structs_match_init false miss0)) pr0 miss0.

Definition packet_handle_std_clone (p : packet) (pr0 : protocols_std) (miss0 : bool) : packet :=
  packet_handle_std_validate (with_handle p (Handle pr0 ofl_structs_match_init false miss0)).

(** The copy of the buffer is at [at_]. *)
Definition packet_clone (junk : nat -> Z) (p : packet) (at_ : Z) (pr0 : protocols_std) (miss0 : bool) : option packet :=
  b ← Ofpbuf.ofpbuf_clone junk (buffer p) at_;
  Some (packet_handle_std_clone
    (Pkt b (in_port p) ActionSet.action_set_create (packet_out p) OFPG_ANY OFPP_ANY 0 0 (table_id p) NO_BUFFER
       (Handle pr0 ofl_structs_match_init false miss0)) pr0 miss0).

Definition MPLS_TTL_MASK : Z := 0xff.

(** [packet_handle_std_is_ttl_valid]; [None] is a read outside the buffer. *)
Definition packet_handle_std_is_ttl_valid (p : packet) : option (packet * bool) :=
  let p := packet_handle_std_validate p in
  let pr := proto (handle_std p) in
  mpls_ok ← (if mpls pr =? 0 then Some true
             else f ← Ofpbuf.load (buffer p) (mpls pr) 4;
                  Some (negb (Z.land (htonl (le_load f)) MPLS_TTL_MASK <=? 1)));
  if negb mpls_ok then Some (p, false)
  else
    ip_ok ← (if ipv4 pr =? 0 then Some true
             else f ← Ofpbuf.load (buffer p) (ipv4 pr + 8) 1; Some (negb (le_load f <? 1)));
    Some (p, ip_ok).

Definition packet_handle_std_is_fragment (p : packet) : packet * bool := (packet_handle_std_validate p, false).

Definition packet_handle_std_match (p : packet) (m : ofl_match) : packet * bool :=
  if valid (handle_std p) then (p, packet_match m (hmatch (handle_std p)))
  else
    let p := packet_handle_std_validate p in
    if valid (handle_std p) then (p, packet_match m (hmatch (handle_std p))) else (p, false).
End handler.

Lemma validate_buffer `{Parser} p : buffer (packet_handle_std_validate p) = buffer p.
Proof.
  unfold packet_handle_std_validate. destruct (valid _); [done |].
  destruct (nblink_packet_parse _ _) as [[m pr] []]; done.
Qed.
End Packet.
