(* ===== verification/FlowTable.v ===== *)
(** Flow entries and flow tables (udatapath/flow_entry.c, flow_table.c). An entry is
    known by its address, as the groups and meters refer to it; the array of its
    instructions too, because entries can come to share one. *)
From Stdlib Require Import Sorting.Sorted.
From S2P Require Import Prelude HMap Oxm OflTypes MatchStd ActionSet Ofpbuf Packet Meter Group.
Open Scope Z_scope.

Module FlowTable.

Abbreviation flowref := positive.

Definition OFPFC_ADD : Z := 0.
Definition OFPFC_MODIFY : Z := 1.
Definition OFPFC_MODIFY_STRICT : Z := 2.
Definition OFPFC_DELETE : Z := 3.
Definition OFPFC_DELETE_STRICT : Z := 4.
Definition OFPFF_SEND_FLOW_REM : Z := 1.
Definition OFPFF_CHECK_OVERLAP : Z := 2.
Definition OFPFF_RESET_COUNTS : Z := 4.
Definition OFPFF_NO_PKT_COUNTS : Z := 8.
Definition OFPFF_NO_BYT_COUNTS : Z := 16.
Definition OFPRR_IDLE_TIMEOUT : Z := 0.
Definition OFPRR_HARD_TIMEOUT : Z := 1.
Definition OFPRR_DELETE : Z := 2.
Definition OFPRR_GROUP_DELETE : Z := 3.
Definition OFPRR_METER_DELETE : Z := 4.
Definition OFPFMFC_TABLE_FULL : Z := 1.
Definition OFPFMFC_BAD_TABLE_ID : Z := 2.
Definition OFPFMFC_OVERLAP : Z := 3.
Definition OFPFMFC_BAD_COMMAND : Z := 6.
Definition FLOW_TABLE_MAX_ENTRIES : Z := 4096.

Definition has_flag (flags f : Z) : bool := negb (Z.land flags f =? 0).

(** An array of instructions, at its address. *)
Record insts_array := Insts { insts_at : positive; insts : list ofl_instruction }.

(** [struct ofl_msg_flow_mod] *)
Record flow_mod := FMod {
  m_cookie : Z; m_cookie_mask : Z; m_table_id : Z; m_command : Z; m_idle_timeout : Z; m_hard_timeout : Z;
  m_priority : Z; m_buffer_id : Z; m_out_port : Z; m_out_group : Z; m_flags : Z; m_match : ofl_match;
  m_instructions : insts_array }.

(** [struct ofl_flow_stats] *)
Record flow_stats := FStats {
  f_table_id : Z; duration_sec : Z; duration_nsec : Z; priority : Z; idle_timeout : Z; hard_timeout : Z;
  flags : Z; cookie : Z; packet_count : Z; byte_count : Z; fmatch : ofl_match; instructions : insts_array }.

(** [struct flow_entry]; [entry->match] is the match of its statistics. *)
Record flow_entry := FEntry {
  fe_at : flowref; stats : flow_stats; created : Z; remove_at : Z; last_used : Z;
  send_removed : bool; no_pkt_count : bool; no_byt_count : bool;
  group_refs : list Z; meter_refs : list Z }.

(** [struct flow_table]: the entries in order; the timeout lists hold addresses of
    entries. Of the statistics, the counts. *)
Record flow_table := FTable {
  match_entries : list flow_entry; hard_entries : list flowref; idle_entries : list flowref;
  active_count : Z; lookup_count : Z; matched_count : Z }.

(** A flow removed message: the reason and the statistics. *)
Record flow_removed := FRemoved { reason : Z; r_stats : flow_stats }.

(** What the entries share with the rest of the switch: the groups and meters that
    refer back to them, the arrays of instructions that are allocated, and the
    messages sent. *)
Record world (G M : Type) := World {
  groups : Group.group_table G; meters : Meter.meter_table M;
  live : gset positive; sent : list flow_removed }.
Arguments World {G M}.
Arguments groups {G M}.
Arguments meters {G M}.
Arguments live {G M}.
Arguments sent {G M}.

(** * Entries *)

(** The actions of the apply and write instructions. *)
Definition inst_actions (i : ofl_instruction) : list ofl_action :=
  match i with Inst_apply_actions l | Inst_write_actions l => l | _ => [] end.

Definition flow_entry_has_out_port (e : flow_entry) (port : Z) : bool :=
  existsb (fun i => dp_actions_list_has_out_port (inst_actions i) port) (insts (instructions (stats e))).

Definition flow_entry_has_out_group (e : flow_entry) (group : Z) : bool :=
  existsb (fun i => dp_actions_list_has_out_group (inst_actions i) group) (insts (instructions (stats e))).

Definition flow_entry_matches (e : flow_entry) (m : flow_mod) (strict check_cookie : bool) : bool :=
  if check_cookie && negb (Z.land (cookie (stats e)) (m_cookie_mask m) =? Z.land (m_cookie m) (m_cookie_mask m))
  then false
  else if strict then (priority (stats e) =? m_priority m) && match_std_strict (m_match m) (fmatch (stats e))
  else match_std_nonstrict (m_match m) (fmatch (stats e)).

Definition flow_entry_overlaps (e : flow_entry) (m : flow_mod) : bool :=
  (priority (stats e) =? m_priority m) &&
  ((m_out_port m =? OFPP_ANY) || flow_entry_has_out_port e (m_out_port m)) &&
  ((m_out_group m =? OFPG_ANY) || flow_entry_has_out_group e (m_out_group m)) &&
  match_std_overlap (fmatch (stats e)) (m_match m).

Definition with_fstats (e : flow_entry) (s : flow_stats) : flow_entry :=
  FEntry (fe_at e) s (created e) (remove_at e) (last_used e) (send_removed e) (no_pkt_count e) (no_byt_count e)
    (group_refs e) (meter_refs e).
Definition with_group_refs (e : flow_entry) (l : list Z) : flow_entry :=
  FEntry (fe_at e) (stats e) (created e) (remove_at e) (last_used e) (send_removed e) (no_pkt_count e)
    (no_byt_count e) l (meter_refs e).
Definition with_meter_refs (e : flow_entry) (l : list Z) : flow_entry :=
  FEntry (fe_at e) (stats e) (created e) (remove_at e) (last_used e) (send_removed e) (no_pkt_count e)
    (no_byt_count e) (group_refs e) l.
Definition with_counts (s : flow_stats) (packets bytes : Z) : flow_stats :=
  FStats (f_table_id s) (duration_sec s) (duration_nsec s) (priority s) (idle_timeout s) (hard_timeout s)
    (flags s) (cookie s) packets bytes (fmatch s) (instructions s).
Definition with_duration (s : flow_stats) (sec nsec : Z) : flow_stats :=
  FStats (f_table_id s) sec nsec (priority s) (idle_timeout s) (hard_timeout s)
    (flags s) (cookie s) (packet_count s) (byte_count s) (fmatch s) (instructions s).
Definition with_instructions (s : flow_stats) (i : insts_array) : flow_stats :=
  FStats (f_table_id s) (duration_sec s) (duration_nsec s) (priority s) (idle_timeout s) (hard_timeout s)
    (flags s) (cookie s) (packet_count s) (byte_count s) (fmatch s) i.

Definition flow_entry_modify_stats (e : flow_entry) (m : flow_mod) : flow_entry :=
  if has_flag (m_flags m) OFPFF_RESET_COUNTS then
    with_fstats e (with_counts (stats e)
      (if no_pkt_count e then packet_count (stats e) else 0)
      (if no_byt_count e then byte_count (stats e) else 0))
  else e.

Definition flow_entry_update (e : flow_entry) (now : Z) : flow_entry :=
  let d := u64 (now - created e) in
  with_fstats e (with_duration (stats e) (u32 (d / 1000)) (u32 (d mod 1000 * 1000000))).

Definition idle_expired (e : flow_entry) (now : Z) : bool :=
  negb (idle_timeout (stats e) =? 0) && (u64 (last_used e + idle_timeout (stats e) * 1000) <? now).
Definition hard_expired (e : flow_entry) (now : Z) : bool :=
  negb (remove_at e =? 0) && (remove_at e <? now).

(** The groups and the meters the instructions name, each once, after those already
    in the list. *)
Definition add_ref (l : list Z) (id : Z) : list Z := if existsb (Z.eqb id) l then l else l ++ [id].
Definition inst_groups (i : ofl_instruction) : list Z := Group.action_groups (inst_actions i).
Definition inst_meters (i : ofl_instruction) : list Z := match i with Inst_meter m => [m] | _ => [] end.

Section refs.
Context {G M : Type} `{!IdTable G Group.group_entry} `{!IdTable M Meter.meter_entry}.
Implicit Types w : world G M.

Definition with_groups w (g : Group.group_table G) : world G M := World g (meters w) (live w) (sent w).
Definition with_meters w (m : Meter.meter_table M) : world G M := World (groups w) m (live w) (sent w).
Definition send w (msg : flow_removed) : world G M := World (groups w) (meters w) (live w) (sent w ++ [msg]).

(** A change of the group, if it exists. *)
Definition update_group w (id : Z) (f : Group.group_entry -> Group.group_entry) : world G M :=
  match Group.group_table_find (groups w) id with
  | Some g => with_groups w (Group.write_entry (groups w) id (f g))
  | None => w
  end.
Definition update_meter w (id : Z) (f : Meter.meter_entry -> Meter.meter_entry) : world G M :=
  match Meter.meter_table_find (meters w) id with
  | Some m => with_meters w (Meter.write_entry (meters w) id (f m))
  | None => w
  end.

Definition init_group_refs w (e : flow_entry) : world G M * flow_entry :=
  let refs := fold_left add_ref (flat_map inst_groups (insts (instructions (stats e)))) (group_refs e) in
  (fold_left (fun w id => update_group w id (fun g => Group.group_entry_add_flow_ref g (fe_at e))) refs w,
   with_group_refs e refs).

Definition del_group_refs w (e : flow_entry) : world G M * flow_entry :=
  (fold_left (fun w id => update_group w id (fun g => Group.group_entry_del_flow_ref g (fe_at e))) (group_refs e) w,
   with_group_refs e []).

Definition init_meter_refs w (e : flow_entry) : world G M * flow_entry :=
  let refs := fold_left add_ref (flat_map inst_meters (insts (instructions (stats e)))) (meter_refs e) in
  (fold_left (fun w id => update_meter w id (fun m => Meter.meter_entry_add_flow_ref m (fe_at e))) refs w,
   with_meter_refs e refs).

Definition del_meter_refs w (e : flow_entry) : world G M * flow_entry :=
  (fold_left (fun w id => update_meter w id (fun m => Meter.meter_entry_del_flow_ref m (fe_at e))) (meter_refs e) w,
   with_meter_refs e []).

(** [free] of the instructions: [None] if they are not allocated. *)
Definition free_instructions w (i : insts_array) : option (world G M) :=
  if decide (insts_at i ∈ live w) then Some (World (groups w) (meters w) (live w ∖ {[insts_at i]}) (sent w))
  else None.

Definition flow_entry_replace_instructions w (e : flow_entry) (i : insts_array) : option (world G M * flow_entry) :=
  let '(w, e) := del_group_refs w e in
  w ← free_instructions w (instructions (stats e));
  Some (init_group_refs w (with_fstats e (with_instructions (stats e) i))).

(** The new entry is at [at_]. *)
Definition flow_entry_create w (at_ : flowref) (m : flow_mod) (now : Z) : world G M * flow_entry :=
  let no_pkt := has_flag (m_flags m) OFPFF_NO_PKT_COUNTS in
  let no_byt := has_flag (m_flags m) OFPFF_NO_BYT_COUNTS in
  let s := FStats (m_table_id m) 0 0 (m_priority m) (m_idle_timeout m) (m_hard_timeout m) (m_flags m) (m_cookie m)
             (if no_pkt then 0xffffffffffffffff else 0) (if no_byt then 0xffffffffffffffff else 0)
             (m_match m) (m_instructions m) in
  let e := FEntry at_ s now (if m_hard_timeout m =? 0 then 0 else u64 (now + m_hard_timeout m * 1000)) now
             (has_flag (m_flags m) OFPFF_SEND_FLOW_REM) no_pkt no_byt [] [] in
  let '(w, e) := init_group_refs w e in
  init_meter_refs w e.

Definition flow_entry_destroy w (e : flow_entry) : option (world G M) :=
  let '(w, e) := del_group_refs w e in
  let '(w, e) := del_meter_refs w e in
  free_instructions w (instructions (stats e)).


(** * Tables *)

(** [list_remove] of a node of a timeout list; an entry that is in none is alone. *)
Definition unlink (r : flowref) (l : list flowref) : list flowref := filter (fun x => x <> r) l.
Definition without (r : flowref) (l : list flow_entry) : list flow_entry := filter (fun e => fe_at e <> r) l.
Definition entry_at (t : flow_table) (r : flowref) : option flow_entry :=
  List.find (fun e => bool_decide (fe_at e = r)) (match_entries t).

Definition with_lists (t : flow_table) (m : list flow_entry) (h i : list flowref) : flow_table :=
  FTable m h i (active_count t) (lookup_count t) (matched_count t).

Definition flow_entry_remove w (t : flow_table) (e : flow_entry) (why now : Z)
    : option (world G M * flow_table) :=
  let '(w, e) := if send_removed e then
                   let e := flow_entry_update e now in (send w (FRemoved why (stats e)), e)
                 else (w, e) in
  let t := FTable (without (fe_at e) (match_entries t)) (unlink (fe_at e) (hard_entries t))
             (unlink (fe_at e) (idle_entries t)) (u32 (active_count t - 1)) (lookup_count t) (matched_count t) in
  w ← flow_entry_destroy w e;
  Some (w, t).

Definition flow_entry_idle_timeout w (t : flow_table) (e : flow_entry) (now : Z)
    : option (world G M * flow_table * bool) :=
  if idle_expired e now then
    '(w, t) ← flow_entry_remove w t e OFPRR_IDLE_TIMEOUT now; Some (w, t, true)
  else Some (w, t, false).

Definition flow_entry_hard_timeout w (t : flow_table) (e : flow_entry) (now : Z)
    : option (world G M * flow_table * bool) :=
  if hard_expired e now then
    '(w, t) ← flow_entry_remove w t e OFPRR_HARD_TIMEOUT now; Some (w, t, true)
  else Some (w, t, false).

(** Where the entry goes in the list of hard timeouts: before the first that is to be
    removed later. *)
Fixpoint hard_insert (t : flow_table) (e : flow_entry) (l : list flowref) : list flowref :=
  match l with
  | [] => [fe_at e]
  | r :: rest =>
      match entry_at t r with
      | Some e' => if remove_at e <? remove_at e' then fe_at e :: r :: rest else r :: hard_insert t e rest
      | None => r :: hard_insert t e rest
      end
  end.

Definition add_to_timeout_lists (t : flow_table) (e : flow_entry) : flow_table :=
  let idle := if 0 <? idle_timeout (stats e) then idle_entries t ++ [fe_at e] else idle_entries t in
  let hard := if 0 <? remove_at e then hard_insert t e (hard_entries t) else hard_entries t in
  with_lists t (match_entries t) hard idle.

(** The loop of [flow_table_add]: an overlap, an entry to be replaced, or the place of
    the new one. *)
Inductive add_place := Overlap | Replace (i : nat) (e : flow_entry) | Insert (i : nat).

Fixpoint add_loop (m : flow_mod) (check_overlap : bool) (i : nat) (l : list flow_entry) : add_place :=
  match l with
  | [] => Insert i
  | e :: rest =>
      if check_overlap && flow_entry_overlaps e m then Overlap
      else if flow_entry_matches e m true false then Replace i e
      else if priority (stats e) <? m_priority m then Insert i
      else add_loop m check_overlap (S i) rest
  end.

Definition flow_error (code : Z) : Z := ofl_error OFPET_FLOW_MOD_FAILED code.

(** The handlers return the world, the table, the error, and whether the match and
    the instructions of the message are kept. *)
Definition flow_table_add w (t : flow_table) (m : flow_mod) (check_overlap : bool) (at_ : flowref) (now : Z)
    : option (world G M * flow_table * Z * bool * bool) :=
  match add_loop m check_overlap 0 (match_entries t) with
  | Overlap => Some (w, t, flow_error OFPFMFC_OVERLAP, false, false)
  | Replace i e =>
      let '(w, n) := flow_entry_create w at_ m now in
      let t := with_lists t (<[i := n]> (match_entries t)) (unlink (fe_at e) (hard_entries t))
                 (unlink (fe_at e) (idle_entries t)) in
      w ← flow_entry_destroy w e;
      Some (w, add_to_timeout_lists t n, 0, true, true)
  | Insert i =>
      if active_count t =? FLOW_TABLE_MAX_ENTRIES then Some (w, t, flow_error OFPFMFC_TABLE_FULL, false, false)
      else
        let '(w, n) := flow_entry_create w at_ m now in
        let t := FTable (take i (match_entries t) ++ n :: drop i (match_entries t)) (hard_entries t) (idle_entries t)
                   (u32 (active_count t + 1)) (lookup_count t) (matched_count t) in
        Some (w, add_to_timeout_lists t n, 0, true, true)
  end.

(** One turn of the loop of [flow_table_modify] after another. *)
Fixpoint modify_loop w (m : flow_mod) (strict : bool) (kept : bool) (l : list flow_entry)
    : option (world G M * list flow_entry * bool) :=
  match l with
  | [] => Some (w, [], kept)
  | e :: rest =>
      if flow_entry_matches e m strict true then
        '(w, e) ← flow_entry_replace_instructions w e (m_instructions m);
        let e := flow_entry_modify_stats e m in
        '(w, rest, kept) ← modify_loop w m strict true rest;
        Some (w, e :: rest, kept)
      else
        '(w, rest, kept) ← modify_loop w m strict kept rest;
        Some (w, e :: rest, kept)
  end.

Definition flow_table_modify w (t : flow_table) (m : flow_mod) (strict : bool)
    : option (world G M * flow_table * Z * bool * bool) :=
  '(w, l, kept) ← modify_loop w m strict false (match_entries t);
  Some (w, with_lists t l (hard_entries t) (idle_entries t), 0, false, kept).

(** The entries a delete message is for. *)
Definition delete_selects (m : flow_mod) (strict : bool) (e : flow_entry) : bool :=
  ((m_out_port m =? OFPP_ANY) || flow_entry_has_out_port e (m_out_port m)) &&
  ((m_out_group m =? OFPG_ANY) || flow_entry_has_out_group e (m_out_group m)) &&
  flow_entry_matches e m strict true.

(** [LIST_FOR_EACH_SAFE] over the entries that were in the table. *)
Fixpoint delete_loop w (t : flow_table) (m : flow_mod) (strict : bool) (now : Z) (l : list flow_entry)
    : option (world G M * flow_table) :=
  match l with
  | [] => Some (w, t)
  | e :: rest =>
      if delete_selects m strict e then
        '(w, t) ← flow_entry_remove w t e OFPRR_DELETE now; delete_loop w t m strict now rest
      else delete_loop w t m strict now rest
  end.

Definition flow_table_delete w (t : flow_table) (m : flow_mod) (strict : bool) (now : Z)
    : option (world G M * flow_table * Z * bool * bool) :=
  '(w, t) ← delete_loop w t m strict now (match_entries t);
  Some (w, t, 0, false, false).

Definition flow_table_flow_mod w (t : flow_table) (m : flow_mod) (at_ : flowref) (now : Z)
    : option (world G M * flow_table * Z * bool * bool) :=
  if m_command m =? OFPFC_ADD then flow_table_add w t m (has_flag (m_flags m) OFPFF_CHECK_OVERLAP) at_ now
  else if m_command m =? OFPFC_MODIFY then flow_table_modify w t m false
  else if m_command m =? OFPFC_MODIFY_STRICT then flow_table_modify w t m true
  else if m_command m =? OFPFC_DELETE then flow_table_delete w t m false now
  else if m_command m =? OFPFC_DELETE_STRICT then flow_table_delete w t m true now
  else Some (w, t, flow_error OFPFMFC_BAD_COMMAND, false, false).

(** * Timeouts *)

(** The loop over the list of hard timeouts ends at the first entry that stays. *)
Fixpoint hard_loop w (t : flow_table) (now : Z) (l : list flowref) : option (world G M * flow_table) :=
  match l with
  | [] => Some (w, t)
  | r :: rest =>
      e ← entry_at t r;
      '(w, t, gone) ← flow_entry_hard_timeout w t e now;
      if gone : bool then hard_loop w t now rest else Some (w, t)
  end.

Fixpoint idle_loop w (t : flow_table) (now : Z) (l : list flowref) : option (world G M * flow_table) :=
  match l with
  | [] => Some (w, t)
  | r :: rest =>
      e ← entry_at t r;
      '(w, t, _) ← flow_entry_idle_timeout w t e now;
      idle_loop w t now rest
  end.

Definition flow_table_timeout w (t : flow_table) (now : Z) : option (world G M * flow_table) :=
  '(w, t) ← hard_loop w t now (hard_entries t);
  idle_loop w t now (idle_entries t).
End refs.

(** * Lookup *)

Section lookup.
Context `{Packet.Parser}.

(** What a match does to the entry. *)
Definition hit (e : flow_entry) (size now : Z) : flow_entry :=
  let s := stats e in
  let s := with_counts s (if no_pkt_count e then packet_count s else u64 (packet_count s + 1))
             (if no_byt_count e then byte_count s else u64 (byte_count s + size)) in
  FEntry (fe_at e) s (created e) (remove_at e) now (send_removed e) (no_pkt_count e) (no_byt_count e)
    (group_refs e) (meter_refs e).

Fixpoint lookup_loop (p : Packet.packet) (now : Z) (l : list flow_entry)
    : Packet.packet * list flow_entry * option flow_entry :=
  match l with
  | [] => (p, [], None)
  | e :: rest =>
      let '(p, matched) := Packet.packet_handle_std_match p (fmatch (stats e)) in
      if matched : bool then
        let e := hit e (Ofpbuf.size (Packet.buffer p)) now in (p, e :: rest, Some e)
      else let '(p, rest, r) := lookup_loop p now rest in (p, e :: rest, r)
  end.

Definition flow_table_lookup (t : flow_table) (p : Packet.packet) (now : Z)
    : flow_table * Packet.packet * option flow_entry :=
  let '(p, l, r) := lookup_loop p now (match_entries t) in
  (FTable l (hard_entries t) (idle_entries t) (active_count t) (u64 (lookup_count t + 1))
     (match r with Some _ => u64 (matched_count t + 1) | None => matched_count t end), p, r).
End lookup.


(** [flow_table_create] *)
Definition flow_table_create : flow_table := FTable [] [] [] 0 0 0.

Section requests.
Context {G M : Type} `{!IdTable G Group.group_entry} `{!IdTable M Meter.meter_entry}.

(** [flow_table_destroy] *)
Fixpoint flow_table_destroy (w : world G M) (l : list flow_entry) : option (world G M) :=
  match l with
  | [] => Some w
  | e :: rest => w ← flow_entry_destroy w e; flow_table_destroy w rest
  end.
End requests.

(** [struct ofl_msg_multipart_request_flow], what the tables use of it. *)
Record flow_request := FReq { q_table_id : Z; q_out_port : Z; q_out_group : Z; q_match : ofl_match }.

Definition request_out (q : flow_request) (e : flow_entry) : bool :=
  ((q_out_port q =? OFPP_ANY) || flow_entry_has_out_port e (q_out_port q)) &&
  ((q_out_group q =? OFPG_ANY) || flow_entry_has_out_group e (q_out_group q)).

(** The entries that are reported are updated; the result is the statistics found so
    far and those of the table. *)
Definition flow_table_stats (t : flow_table) (q : flow_request) (found : list flow_stats) (now : Z)
    : flow_table * list flow_stats :=
  let selects e := request_out q e && match_std_nonstrict (q_match q) (fmatch (stats e)) in
  let l := (fun e => if selects e then flow_entry_update e now else e) <$> match_entries t in
  (with_lists t l (hard_entries t) (idle_entries t),
   found ++ (stats <$> filter (fun e => selects e = true) l)).

Definition flow_table_aggregate_stats (t : flow_table) (q : flow_request) (acc : Z * Z * Z) : Z * Z * Z :=
  fold_left (fun '(packets, bytes, flows) e =>
    if request_out q e then
      (if no_pkt_count e then packets else u64 (packets + packet_count (stats e)),
       if no_byt_count e then bytes else u64 (bytes + byte_count (stats e)),
       u32 (flows + 1))
    else (packets, bytes, flows)) (match_entries t) acc.

(** * The invariant of a table *)

Definition hard_key (e : flow_entry) : flowref * Z := (fe_at e, remove_at e).
Definition hard_keys (l : list flow_entry) : list (flowref * Z) := hard_key <$> filter (fun e => 0 < remove_at e) l.
Definition idle_keys (l : list flow_entry) : list flowref := fe_at <$> filter (fun e => 0 < idle_timeout (stats e)) l.

Definition by_priority (a b : flow_entry) : Prop := priority (stats b) <= priority (stats a).

Definition times_ok (e : flow_entry) : Prop := 0 <= remove_at e /\ 0 <= idle_timeout (stats e).

(** The entries are in order of priority, no two at one address or with one array of
    instructions; the count is right and within the limit; the timeout lists hold
    exactly the entries with such a timeout, the hard ones by time. *)
Record table_ok (t : flow_table) : Prop := {
  tk_sorted : StronglySorted by_priority (match_entries t);
  tk_refs : NoDup (fe_at <$> match_entries t);
  tk_insts : NoDup ((fun e => insts_at (instructions (stats e))) <$> match_entries t);
  tk_active : active_count t = length (match_entries t);
  tk_max : Z.of_nat (length (match_entries t)) <= FLOW_TABLE_MAX_ENTRIES;
  tk_hard : exists hs, hard_entries t = hs.*1 /\ hs ≡ₚ hard_keys (match_entries t) /\
              StronglySorted (fun a b => a.2 <= b.2) hs;
  tk_idle : idle_entries t ≡ₚ idle_keys (match_entries t);
  tk_times : Forall times_ok (match_entries t);
}.

(** All of it but that no two entries share an array. *)
Record table_shape (t : flow_table) : Prop := {
  ts_sorted : StronglySorted by_priority (match_entries t);
  ts_refs : NoDup (fe_at <$> match_entries t);
  ts_active : active_count t = length (match_entries t);
  ts_max : Z.of_nat (length (match_entries t)) <= FLOW_TABLE_MAX_ENTRIES;
  ts_hard : exists hs, hard_entries t = hs.*1 /\ hs ≡ₚ hard_keys (match_entries t) /\
              StronglySorted (fun a b => a.2 <= b.2) hs;
  ts_idle : idle_entries t ≡ₚ idle_keys (match_entries t);
  ts_times : Forall times_ok (match_entries t);
}.

Lemma table_ok_shape t : table_ok t -> table_shape t.
Proof. by intros []. Qed.

Lemma shape_table_ok t :
  table_shape t -> NoDup ((fun e => insts_at (instructions (stats e))) <$> match_entries t) -> table_ok t.
Proof. by intros []. Qed.

(** The arrays of the entries are allocated. *)
Definition owned {G M} (w : world G M) (l : list flow_entry) : Prop :=
  Forall (fun e => insts_at (instructions (stats e)) ∈ live w) l.

Lemma table_ok_create : table_ok flow_table_create.
Proof.
  split; cbn; try constructor; try lia; try done. exists []. split_and!; [done | done | constructor].
Qed.

(** * References and allocation *)

Section effects.
Context {G M : Type} `{!IdTable G Group.group_entry} `{!IdTable M Meter.meter_entry}.
Implicit Types w : world G M.

Definition same_heap w w' : Prop := live w' = live w /\ sent w' = sent w.

Lemma fold_same_heap (f : world G M -> Z -> world G M) l : forall w,
  (forall w id, same_heap w (f w id)) -> same_heap w (fold_left f l w).
Proof.
  induction l as [| id l IH]; intros w Hf; [done |]. cbn [fold_left].
  destruct (IH (f w id) Hf), (Hf w id). split; congruence.
Qed.

Lemma update_group_heap w id f : same_heap w (update_group w id f).
Proof. unfold update_group. by destruct (Group.group_table_find _ _). Qed.
Lemma update_meter_heap w id f : same_heap w (update_meter w id f).
Proof. unfold update_meter. by destruct (Meter.meter_table_find _ _). Qed.

Lemma del_group_refs_heap w e : same_heap w (fst (del_group_refs w e)).
Proof. apply fold_same_heap. intros. apply update_group_heap. Qed.
Lemma del_meter_refs_heap w e : same_heap w (fst (del_meter_refs w e)).
Proof. apply fold_same_heap. intros. apply update_meter_heap. Qed.

(** The references an array of instructions makes. *)
Definition groups_named (i : insts_array) : list Z := fold_left add_ref (flat_map inst_groups (insts i)) [].
Definition meters_named (i : insts_array) : list Z := fold_left add_ref (flat_map inst_meters (insts i)) [].

(** The entry a message makes. *)
Definition new_entry (at_ : flowref) (m : flow_mod) (now : Z) : flow_entry :=
  let no_pkt := has_flag (m_flags m) OFPFF_NO_PKT_COUNTS in
  let no_byt := has_flag (m_flags m) OFPFF_NO_BYT_COUNTS in
  FEntry at_ (FStats (m_table_id m) 0 0 (m_priority m) (m_idle_timeout m) (m_hard_timeout m) (m_flags m) (m_cookie m)
      (if no_pkt then 2 ^ 64 - 1 else 0) (if no_byt then 2 ^ 64 - 1 else 0) (m_match m) (m_instructions m))
    now (if m_hard_timeout m =? 0 then 0 else u64 (now + m_hard_timeout m * 1000)) now
    (has_flag (m_flags m) OFPFF_SEND_FLOW_REM) no_pkt no_byt
    (groups_named (m_instructions m)) (meters_named (m_instructions m)).


Lemma flow_entry_destroy_spec w e :
  insts_at (instructions (stats e)) ∈ live w ->
  exists w', flow_entry_destroy w e = Some w' /\
    live w' = live w ∖ {[insts_at (instructions (stats e))]} /\ sent w' = sent w.
Proof.
  intros Hl. unfold flow_entry_destroy.
  pose proof (del_group_refs_heap w e) as Hg. destruct (del_group_refs w e) as [w1 e1] eqn:H1.
  pose proof (del_meter_refs_heap w1 e1) as Hm. destruct (del_meter_refs w1 e1) as [w2 e2] eqn:H2.
  cbn [fst] in *. injection H1 as _ <-. injection H2 as _ <-. destruct Hg as [Hg1 Hg2], Hm as [Hm1 Hm2].
  unfold free_instructions. cbn [stats with_meter_refs with_group_refs].
  rewrite decide_True by congruence. eexists. split; [done |]. cbn [live sent]. split; congruence.
Qed.


(** * Removal *)

Lemma without_keys r l :
  hard_keys (without r l) = filter (fun k => k.1 <> r) (hard_keys l) /\
  idle_keys (without r l) = unlink r (idle_keys l).
Proof.
  unfold hard_keys, idle_keys, unlink, without. rewrite !filter_fmap_comm. cbn [hard_key fst].
  split; f_equal; apply filter_swap.
Qed.

Lemma without_length r l e :
  NoDup (fe_at <$> l) -> e ∈ l -> fe_at e = r -> S (length (without r l)) = length l.
Proof.
  intros Hnd He <-. unfold without. induction l as [| x l IH]; [by apply elem_of_nil in He |].
  rewrite fmap_cons in Hnd. apply NoDup_cons in Hnd as [Hx Hnd]. rewrite filter_cons.
  apply elem_of_cons in He as [-> | He].
  - rewrite decide_False by tauto. cbn [length]. f_equal. f_equal. apply filter_all.
    intros y Hy Heq. apply Hx. rewrite <- Heq. by apply list_elem_of_fmap_2.
  - rewrite decide_True by (intros Heq; apply Hx; rewrite Heq; by apply list_elem_of_fmap_2).
    cbn [length]. by rewrite IH.
Qed.

(** The message that goes with a removal. *)
Definition removed_msg (why now : Z) (e : flow_entry) : list flow_removed :=
  if send_removed e then [FRemoved why (stats (flow_entry_update e now))] else [].

Lemma entry_in_once t e e' :
  table_ok t -> e ∈ match_entries t -> e' ∈ match_entries t ->
  fe_at e = fe_at e' \/ insts_at (instructions (stats e)) = insts_at (instructions (stats e')) -> e = e'.
Proof.
  intros Hok [i He]%list_elem_of_lookup [j He']%list_elem_of_lookup [Heq | Heq].
  - assert (i = j) as <-; [| congruence]. eapply (NoDup_lookup (fe_at <$> match_entries t)); [apply (tk_refs t Hok) | |].
    + by rewrite list_lookup_fmap, He.
    + by rewrite list_lookup_fmap, He', Heq.
  - assert (i = j) as <-; [| congruence]. eapply (NoDup_lookup _ i j); [apply (tk_insts t Hok) | |].
    + by rewrite list_lookup_fmap, He.
    + rewrite list_lookup_fmap, He'. cbn. by rewrite Heq.
Qed.

Lemma table_ok_without t e :
  table_ok t -> e ∈ match_entries t ->
  table_ok (FTable (without (fe_at e) (match_entries t)) (unlink (fe_at e) (hard_entries t))
    (unlink (fe_at e) (idle_entries t)) (u32 (active_count t - 1)) (lookup_count t) (matched_count t)).
Proof.
  intros Hok He. pose proof Hok as [Hs Hr Hi Ha Hm (hs & Hh1 & Hh2 & Hh3) Hid Ht].
  pose proof (without_length (fe_at e) _ e Hr He eq_refl) as Hl. unfold FLOW_TABLE_MAX_ENTRIES in Hm.
  destruct (without_keys (fe_at e) (match_entries t)) as [Hk1 Hk2].
  split; cbn [match_entries hard_entries idle_entries active_count]; unfold FLOW_TABLE_MAX_ENTRIES.
  - by apply SSorted_filter.
  - by apply NoDup_fmap_filter.
  - by apply NoDup_fmap_filter.
  - rewrite Ha, wrap_small by (unfold in_range; lia). lia.
  - lia.
  - exists (filter (fun k => k.1 <> fe_at e) hs). split_and!.
    + unfold unlink. by rewrite Hh1, filter_fmap_comm.
    + by rewrite Hk1, Hh2.
    + by apply SSorted_filter.
  - unfold unlink. by rewrite Hk2, Hid.
  - rewrite Forall_forall in *. intros x [_ Hx]%list_elem_of_filter. by apply Ht.
Qed.

Lemma flow_entry_remove_spec w t e why now :
  table_ok t -> owned w (match_entries t) -> e ∈ match_entries t ->
  exists w' t', flow_entry_remove w t e why now = Some (w', t') /\ table_ok t' /\
    match_entries t' = without (fe_at e) (match_entries t) /\ owned w' (match_entries t') /\
    hard_entries t' = unlink (fe_at e) (hard_entries t) /\ idle_entries t' = unlink (fe_at e) (idle_entries t) /\
    sent w' = sent w ++ removed_msg why now e.
Proof.
  intros Hok Hown He. pose proof (table_ok_without t e Hok He) as Hok'. unfold owned in *. rewrite Forall_forall in Hown.
  unfold flow_entry_remove, removed_msg.
  destruct (send_removed e) eqn:Hsend.
  - destruct (flow_entry_destroy_spec (send w (FRemoved why (stats (flow_entry_update e now)))) (flow_entry_update e now))
      as (w' & -> & Hl & Hs); [exact (Hown e He) |]. cbn [mbind option_bind].
    eexists _, _. split; [reflexivity |]. split_and!; [done | done | | done | done | done].
    cbn [match_entries]. apply Forall_forall. intros x [Hx Hin]%list_elem_of_filter. rewrite Hl. cbn [live send].
    apply elem_of_difference. split; [by apply Hown |]. rewrite elem_of_singleton. intros Heq. apply Hx.
    cbn [flow_entry_update with_fstats stats with_duration instructions] in Heq.
    change (fe_at x = fe_at e). f_equal. by apply (entry_in_once t x e Hok Hin He); right.
  - destruct (flow_entry_destroy_spec w e) as (w' & -> & Hl & Hs); [by apply Hown |]. cbn [mbind option_bind].
    eexists _, _. split; [reflexivity |]. split_and!; [done | done | | done | done | by rewrite app_nil_r].
    cbn [match_entries]. apply Forall_forall. intros x [Hx Hin]%list_elem_of_filter. rewrite Hl.
    apply elem_of_difference. split; [by apply Hown |]. rewrite elem_of_singleton. intros Heq. apply Hx.
    f_equal. by apply (entry_in_once t x e Hok Hin He); right.
Qed.


(** Several removals in a row. *)
Fixpoint remove_all w (t : flow_table) (why now : Z) (l : list flow_entry) : option (world G M * flow_table) :=
  match l with
  | [] => Some (w, t)
  | e :: rest => '(w, t) ← flow_entry_remove w t e why now; remove_all w t why now rest
  end.

Definition refs_of (l : list flow_entry) : list flowref := fe_at <$> l.

(** What several removals leave. *)
Record removed w t (why now : Z) (gone : list flow_entry) w' t' : Prop := {
  rm_ok : table_ok t';
  rm_owned : owned w' (match_entries t');
  rm_entries : match_entries t' = filter (fun e => fe_at e ∉ refs_of gone) (match_entries t);
  rm_hard : hard_entries t' = filter (fun r => r ∉ refs_of gone) (hard_entries t);
  rm_idle : idle_entries t' = filter (fun r => r ∉ refs_of gone) (idle_entries t);
  rm_sent : sent w' = sent w ++ flat_map (removed_msg why now) gone;
}.

Lemma removed_nil w t why now : table_ok t -> owned w (match_entries t) -> removed w t why now [] w t.
Proof.
  intros Hok Hown. split; [done | done | | | | by rewrite app_nil_r];
    symmetry; apply filter_all; intros x _; cbn; apply not_elem_of_nil.
Qed.

Lemma filter_cons_refs {A} (f : A -> flowref) e gone (l : list A) :
  filter (fun x => f x ∉ refs_of gone) (filter (fun x => f x <> fe_at e) l) =
  filter (fun x => f x ∉ refs_of (e :: gone)) l.
Proof.
  rewrite list_filter_filter. apply list_filter_iff. intros x. cbn. rewrite elem_of_cons. tauto.
Qed.

Lemma removed_cons w t why now e gone w1 t1 w2 t2 :
  match_entries t1 = without (fe_at e) (match_entries t) ->
  hard_entries t1 = unlink (fe_at e) (hard_entries t) -> idle_entries t1 = unlink (fe_at e) (idle_entries t) ->
  sent w1 = sent w ++ removed_msg why now e ->
  removed w1 t1 why now gone w2 t2 -> removed w t why now (e :: gone) w2 t2.
Proof.
  intros He Hh Hi Hs [H1 H2 H3 H4 H5 H6]. split; [done | done | | | |].
  - rewrite H3, He. apply (filter_cons_refs fe_at).
  - rewrite H4, Hh. apply (filter_cons_refs id).
  - rewrite H5, Hi. apply (filter_cons_refs id).
  - rewrite H6, Hs, <- app_assoc. done.
Qed.

Lemma remove_all_spec why now l : forall w t,
  table_ok t -> owned w (match_entries t) -> (forall e, e ∈ l -> e ∈ match_entries t) -> NoDup (refs_of l) ->
  exists w' t', remove_all w t why now l = Some (w', t') /\ removed w t why now l w' t'.
Proof.
  induction l as [| e l IH]; intros w t Hok Hown Hin Hnd; cbn [remove_all].
  - eexists _, _. split; [done | by apply removed_nil].
  - destruct (flow_entry_remove_spec w t e why now Hok Hown) as (w1 & t1 & -> & Hok1 & He1 & Hown1 & Hh1 & Hi1 & Hs1);
      [apply Hin; by left |]. cbn [mbind option_bind].
    unfold refs_of in Hnd. rewrite fmap_cons in Hnd. apply NoDup_cons in Hnd as [Hne Hnd].
    destruct (IH w1 t1 Hok1 Hown1) as (w2 & t2 & Hr & Hrm); [| done |].
    { intros x Hx. rewrite He1. apply list_elem_of_filter. split; [| apply Hin; by right].
      intros Heq. apply Hne. rewrite <- Heq. by apply list_elem_of_fmap_2. }
    exists w2, t2. split; [done |]. by eapply removed_cons.
Qed.


(** The entries chosen by a test, and what stays without them. *)
Lemma stay_filter t (sel : flow_entry -> bool) :
  table_ok t ->
  filter (fun e => fe_at e ∉ refs_of (filter (fun e => sel e = true) (match_entries t))) (match_entries t) =
  filter (fun e => sel e = false) (match_entries t).
Proof.
  intros Hok. assert (forall e, e ∈ match_entries t ->
    fe_at e ∉ refs_of (filter (fun e => sel e = true) (match_entries t)) <-> sel e = false) as H.
  { intros e He. unfold refs_of. rewrite list_elem_of_fmap. setoid_rewrite list_elem_of_filter. split.
    - intros Hn. apply not_true_iff_false. intros Hs. apply Hn. by exists e.
    - intros Hs (x & Hx & Hsx & Hin). assert (e = x) as -> by (by apply (entry_in_once t e x); [| | | left]). congruence. }
  revert H. generalize (refs_of (filter (fun e => sel e = true) (match_entries t))). intros gone H.
  induction (match_entries t) as [| e l IH]; [done |]. rewrite !filter_cons.
  rewrite IH by (intros x Hx; apply H; by right). specialize (H e ltac:(by left)).
  destruct (decide (fe_at e ∉ gone)), (decide (sel e = false)); tauto || done.
Qed.

Lemma entry_at_spec t e : table_ok t -> e ∈ match_entries t -> entry_at t (fe_at e) = Some e.
Proof.
  intros Hok He. unfold entry_at. destruct (List.find _ _) as [x |] eqn:Hf.
  - apply List.find_some in Hf as [Hin Hx%bool_decide_eq_true]. f_equal. apply list_elem_of_In in Hin.
    by apply (entry_in_once t x e); [| | | left].
  - exfalso. apply list_elem_of_In in He. eapply List.find_none in Hf; [| exact He].
    apply bool_decide_eq_false in Hf. done.
Qed.


(** * Timeouts *)

(** The entries up to the first that does not satisfy the test. *)
Fixpoint take_while {A} (f : A -> bool) (l : list A) : list A :=
  match l with [] => [] | x :: r => if f x then x :: take_while f r else [] end.

Lemma hard_loop_eq now es : forall w t,
  table_ok t -> owned w (match_entries t) -> (forall e, e ∈ es -> e ∈ match_entries t) -> NoDup (refs_of es) ->
  hard_loop w t now (refs_of es) =
  remove_all w t OFPRR_HARD_TIMEOUT now (take_while (fun e => hard_expired e now) es).
Proof.
  induction es as [| e es IH]; intros w t Hok Hown Hin Hnd; [done |].
  unfold refs_of in *. rewrite fmap_cons in *. cbn [hard_loop take_while].
  apply NoDup_cons in Hnd as [Hne Hnd]. rewrite entry_at_spec by (try done; apply Hin; by left). cbn [mbind option_bind].
  unfold flow_entry_hard_timeout. destruct (hard_expired e now); [| done]. cbn [remove_all].
  destruct (flow_entry_remove_spec w t e OFPRR_HARD_TIMEOUT now Hok Hown) as (w1 & t1 & -> & Hok1 & He1 & Hown1 & _);
    [apply Hin; by left |]. cbn [mbind option_bind]. apply IH; try done.
  intros x Hx. rewrite He1. apply list_elem_of_filter. split; [| apply Hin; by right].
  intros Heq. apply Hne. rewrite <- Heq. by apply list_elem_of_fmap_2.
Qed.

Lemma idle_loop_eq now es : forall w t,
  table_ok t -> owned w (match_entries t) -> (forall e, e ∈ es -> e ∈ match_entries t) -> NoDup (refs_of es) ->
  idle_loop w t now (refs_of es) =
  remove_all w t OFPRR_IDLE_TIMEOUT now (filter (fun e => idle_expired e now = true) es).
Proof.
  induction es as [| e es IH]; intros w t Hok Hown Hin Hnd; [done |].
  unfold refs_of in *. rewrite fmap_cons in *. cbn [idle_loop]. rewrite filter_cons.
  apply NoDup_cons in Hnd as [Hne Hnd]. rewrite entry_at_spec by (try done; apply Hin; by left). cbn [mbind option_bind].
  unfold flow_entry_idle_timeout. destruct (idle_expired e now) eqn:Hx.
  - rewrite decide_True by done. cbn [remove_all].
    destruct (flow_entry_remove_spec w t e OFPRR_IDLE_TIMEOUT now Hok Hown) as (w1 & t1 & -> & Hok1 & He1 & Hown1 & _);
      [apply Hin; by left |]. cbn [mbind option_bind]. apply IH; try done.
    intros x Hxin. rewrite He1. apply list_elem_of_filter. split; [| apply Hin; by right].
    intros Heq. apply Hne. rewrite <- Heq. by apply list_elem_of_fmap_2.
  - rewrite decide_False by done. cbn [mbind option_bind]. apply IH; try done. intros x Hx'. apply Hin. by right.
Qed.

(** In order of time the expired ones come first. *)
Lemma take_while_expired now es :
  StronglySorted (fun a b => remove_at a <= remove_at b) es -> Forall (fun e => 0 < remove_at e) es ->
  take_while (fun e => hard_expired e now) es = filter (fun e => hard_expired e now = true) es.
Proof.
  induction 1 as [| e es Hs IH Hle]; intros Hpos; [done |]. inversion Hpos; subst. cbn [take_while]. rewrite filter_cons.
  destruct (hard_expired e now) eqn:He; [rewrite decide_True by done; f_equal; by apply IH |].
  rewrite decide_False by done. symmetry. apply filter_none. intros x Hx Hexp.
  rewrite !Forall_forall in *. specialize (Hle x Hx). unfold hard_expired in *.
  rewrite (proj2 (Z.eqb_neq (remove_at e) 0)) in He by lia. cbn in He. apply andb_true_iff in Hexp as [_ Hexp].
  apply Z.ltb_lt in Hexp. apply Z.ltb_ge in He. lia.
Qed.

(** The list of hard timeouts, as entries. *)
Lemma hard_list t :
  table_ok t -> exists es, hard_entries t = refs_of es /\ es ≡ₚ filter (fun e => 0 < remove_at e) (match_entries t) /\
    StronglySorted (fun a b => remove_at a <= remove_at b) es.
Proof.
  intros Hok. destruct (tk_hard t Hok) as (hs & Hh1 & Hh2 & Hh3). unfold hard_keys in Hh2.
  apply Permutation_map_inv in Hh2 as (es & -> & Hes).
  exists es. split_and!.
  - rewrite Hh1. unfold refs_of. change (map hard_key es) with (hard_key <$> es). by rewrite <- list_fmap_compose.
  - by symmetry.
  - clear -Hh3. induction es as [| e es IH]; [constructor |]. rewrite fmap_cons in Hh3.
    inversion Hh3 as [| ? ? H1 H2]; subst. constructor; [by apply IH |].
    apply Forall_forall. intros x Hx. rewrite Forall_forall in H2. apply (H2 (hard_key x)). by apply list_elem_of_fmap_2.
Qed.

Lemma idle_list t :
  table_ok t -> exists es, idle_entries t = refs_of es /\ es ≡ₚ filter (fun e => 0 < idle_timeout (stats e)) (match_entries t).
Proof.
  intros Hok. pose proof (tk_idle t Hok) as Hi. unfold idle_keys in Hi.
  apply Permutation_map_inv in Hi as (es & -> & Hes). exists es. split; [done | by symmetry].
Qed.

Lemma listed_ok t es (P : flow_entry -> Prop) `{!forall e, Decision (P e)} :
  table_ok t -> es ≡ₚ filter P (match_entries t) ->
  (forall e, e ∈ es -> e ∈ match_entries t) /\ NoDup (refs_of es).
Proof.
  intros Hok Hes. split.
  - intros e He. rewrite Hes in He. by apply list_elem_of_filter in He as [_ He].
  - unfold refs_of. rewrite Hes. apply NoDup_fmap_filter, (tk_refs t Hok).
Qed.

(** Testing only the entries with a timeout is enough. *)
Lemma filter_filter_in {A} (P Q : A -> Prop) `{!forall x, Decision (P x)} `{!forall x, Decision (Q x)} (l : list A) :
  (forall x, x ∈ l -> P x -> Q x) -> filter P (filter Q l) = filter P l.
Proof.
  induction l as [| x l IH]; intros Hin; [done |]. rewrite !filter_cons.
  destruct (decide (Q x)) as [Hq | Hq], (decide (P x)) as [Hp | Hp];
    rewrite ?filter_cons, ?decide_True, ?decide_False by done;
    rewrite ?IH by (intros y Hy; apply Hin; by right); try done.
  exfalso. apply Hq, Hin; [by left | done].
Qed.

Lemma hard_expired_listed now es l :
  es ≡ₚ filter (fun e => 0 < remove_at e) l -> Forall times_ok l ->
  filter (fun e => hard_expired e now = true) es ≡ₚ filter (fun e => hard_expired e now = true) l.
Proof.
  intros -> Ht. rewrite filter_filter_in; [done |]. rewrite Forall_forall in Ht. intros e He Hx.
  destruct (Ht e He). unfold hard_expired in Hx. apply andb_true_iff in Hx as [Hx%negb_true_iff%Z.eqb_neq _]. lia.
Qed.

Lemma idle_expired_listed now es l :
  es ≡ₚ filter (fun e => 0 < idle_timeout (stats e)) l -> Forall times_ok l ->
  filter (fun e => idle_expired e now = true) es ≡ₚ filter (fun e => idle_expired e now = true) l.
Proof.
  intros -> Ht. rewrite filter_filter_in; [done |]. rewrite Forall_forall in Ht. intros e He Hx.
  destruct (Ht e He). unfold idle_expired in Hx. apply andb_true_iff in Hx as [Hx%negb_true_iff%Z.eqb_neq _]. lia.
Qed.

(** What stays does not depend on the order of the removals. *)
Lemma stay_perm t gone (sel : flow_entry -> bool) :
  table_ok t -> gone ≡ₚ filter (fun e => sel e = true) (match_entries t) ->
  filter (fun e => fe_at e ∉ refs_of gone) (match_entries t) = filter (fun e => sel e = false) (match_entries t).
Proof.
  intros Hok Hg. rewrite <- (stay_filter t sel Hok). apply list_filter_iff. intros e. unfold refs_of. by rewrite Hg.
Qed.

Lemma flow_table_timeout_spec w t now :
  table_ok t -> owned w (match_entries t) ->
  exists w' t' hard idle, flow_table_timeout w t now = Some (w', t') /\ table_ok t' /\ owned w' (match_entries t') /\
    hard ≡ₚ filter (fun e => hard_expired e now = true) (match_entries t) /\
    idle ≡ₚ filter (fun e => idle_expired e now = true) (filter (fun e => hard_expired e now = false) (match_entries t)) /\
    match_entries t' = filter (fun e => idle_expired e now = false)
                         (filter (fun e => hard_expired e now = false) (match_entries t)) /\
    sent w' = sent w ++ flat_map (removed_msg OFPRR_HARD_TIMEOUT now) hard ++
                        flat_map (removed_msg OFPRR_IDLE_TIMEOUT now) idle.
Proof.
  intros Hok Hown. unfold flow_table_timeout. destruct (hard_list t Hok) as (es & Hes & Hp & Hsort). rewrite Hes.
  destruct (listed_ok t es _ Hok Hp) as [Hin Hnd]. rewrite hard_loop_eq by done.
  rewrite take_while_expired by (done || (rewrite Hp; apply Forall_forall; by intros e [? _]%list_elem_of_filter)).
  pose proof (hard_expired_listed now es _ Hp (tk_times t Hok)) as Hgone.
  destruct (listed_ok t (filter (fun e => hard_expired e now = true) es) _ Hok Hgone) as [Hgin Hgnd].
  destruct (remove_all_spec OFPRR_HARD_TIMEOUT now _ w t Hok Hown Hgin Hgnd) as (w1 & t1 & -> & [Hok1 Hown1 He1 _ _ Hs1]).
  cbn [mbind option_bind]. rewrite (stay_perm t _ _ Hok Hgone) in He1.
  destruct (idle_list t1 Hok1) as (ids & His & Hip). rewrite His.
  destruct (listed_ok t1 ids _ Hok1 Hip) as [Hin1 Hnd1]. rewrite idle_loop_eq by done.
  pose proof (idle_expired_listed now ids _ Hip (tk_times t1 Hok1)) as Hgone1.
  destruct (listed_ok t1 (filter (fun e => idle_expired e now = true) ids) _ Hok1 Hgone1) as [Hgin1 Hgnd1].
  destruct (remove_all_spec OFPRR_IDLE_TIMEOUT now _ w1 t1 Hok1 Hown1 Hgin1 Hgnd1)
    as (w2 & t2 & -> & [Hok2 Hown2 He2 _ _ Hs2]).
  rewrite (stay_perm t1 _ _ Hok1 Hgone1) in He2. rewrite He1 in He2, Hgone1.
  eexists w2, t2, _, _. split_and!; [done | done | done | exact Hgone | exact Hgone1 | done |].
  by rewrite Hs2, Hs1, <- app_assoc.
Qed.


(** ** What a timeout spares *)

Lemma flow_entry_destroy_live w e w' :
  flow_entry_destroy w e = Some w' -> insts_at (instructions (stats e)) ∈ live w.
Proof.
  unfold flow_entry_destroy.
  pose proof (del_group_refs_heap w e) as Hg. destruct (del_group_refs w e) as [w1 e1] eqn:H1.
  pose proof (del_meter_refs_heap w1 e1) as Hm. destruct (del_meter_refs w1 e1) as [w2 e2] eqn:H2.
  cbn [fst] in *. injection H1 as _ <-. injection H2 as _ <-. destruct Hg as [Hg1 Hg2], Hm as [Hm1 Hm2].
  unfold free_instructions. cbn [stats with_meter_refs with_group_refs]. case_decide; [congruence | done].
Qed.

(** The arrays of other tables stay allocated. *)
Definition spared (l : list flow_entry) w w' : Prop :=
  forall a, a ∈ live w -> (forall e, e ∈ l -> insts_at (instructions (stats e)) <> a) -> a ∈ live w'.

Lemma flow_entry_remove_spares w t e why now w' t' :
  e ∈ match_entries t -> flow_entry_remove w t e why now = Some (w', t') ->
  spared (match_entries t) w w' /\ forall x, x ∈ match_entries t' -> x ∈ match_entries t.
Proof.
  intros He. unfold flow_entry_remove.
  assert (Hd : forall w0 e0, flow_entry_destroy w0 e0 = Some w' -> live w0 = live w ->
    insts_at (instructions (stats e0)) = insts_at (instructions (stats e)) -> spared (match_entries t) w w').
  { intros w0 e0 Hd Hl Hi a Ha Hn. pose proof (flow_entry_destroy_live w0 e0 w' Hd) as Hin.
    destruct (flow_entry_destroy_spec w0 e0 Hin) as (w1 & Hd1 & Hl1 & _). rewrite Hd in Hd1. injection Hd1 as <-.
    rewrite Hl1, Hl, Hi. apply elem_of_difference. split; [done |]. rewrite elem_of_singleton. intros ->. by apply (Hn e). }
  destruct (send_removed e).
  - destruct (flow_entry_destroy _ _) as [w1 |] eqn:E; [| done]. cbn. intros [= <- <-].
    split; [by eapply Hd |]. cbn. by intros x [_ ?]%list_elem_of_filter.
  - destruct (flow_entry_destroy _ _) as [w1 |] eqn:E; [| done]. cbn. intros [= <- <-].
    split; [by eapply Hd |]. cbn. by intros x [_ ?]%list_elem_of_filter.
Qed.

Lemma spared_trans l l' w w1 w2 :
  (forall x, x ∈ l' -> x ∈ l) -> spared l w w1 -> spared l' w1 w2 -> spared l w w2.
Proof. intros Hl H1 H2 a Ha Hn. apply H2; [by apply H1 |]. intros e He. apply Hn. by apply Hl. Qed.

Lemma entry_at_elem t r e : entry_at t r = Some e -> e ∈ match_entries t.
Proof. intros [He _]%find_some. by apply list_elem_of_In. Qed.

Lemma spared_refl l w : spared l w w.
Proof. by intros a. Qed.

Lemma hard_loop_spares now l : forall w t w' t',
  hard_loop w t now l = Some (w', t') ->
  spared (match_entries t) w w' /\ forall x, x ∈ match_entries t' -> x ∈ match_entries t.
Proof.
  induction l as [| r l IH]; intros w t w' t'; cbn [hard_loop]; [intros [= <- <-]; split; [apply spared_refl | done] |].
  destruct (entry_at t r) as [e |] eqn:He; [| done]. apply entry_at_elem in He. cbn [mbind option_bind].
  unfold flow_entry_hard_timeout. destruct (hard_expired e now); [| intros [= <- <-]; split; [apply spared_refl | done]].
  destruct (flow_entry_remove _ _ _ _ _) as [[w1 t1] |] eqn:E; [| done]. cbn. intros E'.
  destruct (flow_entry_remove_spares _ _ _ _ _ _ _ He E) as [H1 H2]. destruct (IH _ _ _ _ E') as [H3 H4].
  split; [by eapply spared_trans | auto].
Qed.

Lemma idle_loop_spares now l : forall w t w' t',
  idle_loop w t now l = Some (w', t') ->
  spared (match_entries t) w w' /\ forall x, x ∈ match_entries t' -> x ∈ match_entries t.
Proof.
  induction l as [| r l IH]; intros w t w' t'; cbn [idle_loop]; [intros [= <- <-]; split; [apply spared_refl | done] |].
  destruct (entry_at t r) as [e |] eqn:He; [| done]. apply entry_at_elem in He. cbn [mbind option_bind].
  unfold flow_entry_idle_timeout. destruct (idle_expired e now); [| cbn; apply IH].
  destruct (flow_entry_remove _ _ _ _ _) as [[w1 t1] |] eqn:E; [| done]. cbn. intros E'.
  destruct (flow_entry_remove_spares _ _ _ _ _ _ _ He E) as [H1 H2]. destruct (IH _ _ _ _ E') as [H3 H4].
  split; [by eapply spared_trans | auto].
Qed.

Lemma flow_table_timeout_spares w t now w' t' :
  flow_table_timeout w t now = Some (w', t') -> spared (match_entries t) w w'.
Proof.
  unfold flow_table_timeout. destruct (hard_loop _ _ _ _) as [[w1 t1] |] eqn:E; [| done]. cbn. intros E'.
  destruct (hard_loop_spares _ _ _ _ _ _ E) as [H1 H2]. destruct (idle_loop_spares _ _ _ _ _ _ E') as [H3 _].
  by eapply spared_trans.
Qed.


(** * Addition *)







(** ** What a message asks for *)






















Lemma without_middle pre e post :
  NoDup (fe_at <$> pre ++ e :: post) -> without (fe_at e) (pre ++ e :: post) = pre ++ post.
Proof.
  intros Hnd. rewrite fmap_app, fmap_cons in Hnd. apply list.NoDup_app in Hnd as (_ & Hd & Hnd).
  apply NoDup_cons in Hnd as [Hne _].
  unfold without. rewrite filter_app, filter_cons, decide_False by tauto. f_equal; apply filter_all; intros x Hx Heq.
  - apply (Hd (fe_at x)); [by apply list_elem_of_fmap_2 | rewrite Heq; by left].
  - apply Hne. rewrite <- Heq. by apply list_elem_of_fmap_2.
Qed.












(** * Modification *)

(** Changes that keep the address, the priority and the timeouts. *)
Definition keeps_place (f : flow_entry -> flow_entry) : Prop :=
  forall e, fe_at (f e) = fe_at e /\ remove_at (f e) = remove_at e /\
    idle_timeout (stats (f e)) = idle_timeout (stats e) /\ priority (stats (f e)) = priority (stats e).

Lemma keeps_keys f l :
  keeps_place f ->
  fe_at <$> (f <$> l) = fe_at <$> l /\ hard_keys (f <$> l) = hard_keys l /\ idle_keys (f <$> l) = idle_keys l.
Proof.
  intros Hf. unfold hard_keys, idle_keys. induction l as [| e l (IH1 & IH2 & IH3)]; [done |].
  destruct (Hf e) as (H1 & H2 & H3 & H4). rewrite !fmap_cons, !filter_cons, H1, H2, H3, IH1. split_and!; [done | |].
  - destruct (decide (0 < remove_at e)); [| done]. rewrite !fmap_cons, IH2. unfold hard_key at 1 3. by rewrite H1, H2.
  - destruct (decide (0 < idle_timeout (stats e))); [| done]. rewrite !fmap_cons, IH3. by rewrite H1.
Qed.

Lemma table_shape_fmap t f lk mc :
  table_shape t -> keeps_place f ->
  table_shape (FTable (f <$> match_entries t) (hard_entries t) (idle_entries t) (active_count t) lk mc).
Proof.
  intros [Hs Hr Ha Hm Hh Hid Ht] Hf. destruct (keeps_keys f (match_entries t) Hf) as (Hk1 & Hk2 & Hk3).
  split; cbn [match_entries hard_entries idle_entries active_count]; rewrite ?length_fmap, ?Hk1, ?Hk2, ?Hk3; try done.
  - clear -Hs Hf. induction Hs as [| e l Hs IH Hle]; [constructor |]. rewrite fmap_cons. constructor; [done |].
    rewrite Forall_fmap. eapply Forall_impl; [exact Hle |]. intros x Hx. unfold by_priority in *. cbn.
    destruct (Hf e) as (_ & _ & _ & ->), (Hf x) as (_ & _ & _ & ->). done.
  - rewrite Forall_fmap. eapply Forall_impl; [exact Ht |]. intros e [H1 H2]. unfold times_ok. cbn.
    destruct (Hf e) as (_ & -> & -> & _). done.
Qed.

Lemma table_ok_fmap t f lk mc :
  table_ok t -> keeps_place f -> NoDup ((fun e => insts_at (instructions (stats e))) <$> (f <$> match_entries t)) ->
  table_ok (FTable (f <$> match_entries t) (hard_entries t) (idle_entries t) (active_count t) lk mc).
Proof. intros Hok Hf Hnd. apply shape_table_ok; [by apply table_shape_fmap; [apply table_ok_shape |] | done]. Qed.




Abbreviation array_of e := (insts_at (instructions (stats e))) (only parsing).




End effects.

(** * Properties *)



Abbreviation demo_world := (World (G := hmap Group.group_entry) (M := hmap Meter.meter_entry)
  (Group.GTable 0 tbl_empty 0) (Meter.MTable 0 tbl_empty 0) {[1%positive; 2%positive; 3%positive]} []).
Definition demo_insts (a : positive) : insts_array := Insts a [Inst_apply_actions [Act_output 1 0]].
Definition demo_flow_mod (command prio : Z) (a : positive) : flow_mod :=
  FMod 0 0 0 command 10 0 prio 0xffffffff OFPP_ANY OFPG_ANY OFPFF_SEND_FLOW_REM ofl_structs_match_init (demo_insts a).




(** Two entries modified by one message share its instructions; the next modification
    frees them twice. *)
Lemma modify_shares_instructions :
  (w_t1 ← flow_table_flow_mod demo_world flow_table_create (demo_flow_mod OFPFC_ADD 5 1%positive) 7%positive 0;
   let '(w, t, _, _, _) := w_t1 in
   w_t2 ← flow_table_flow_mod w t (demo_flow_mod OFPFC_ADD 6 2%positive) 8%positive 0;
   let '(w, t, _, _, _) := w_t2 in
   w_t3 ← flow_table_flow_mod w t (demo_flow_mod OFPFC_MODIFY 0 3%positive) 9%positive 0;
   let '(w, t, _, _, _) := w_t3 in
   Some ((fun e => insts_at (instructions (stats e))) <$> match_entries t,
         flow_table_flow_mod w t (demo_flow_mod OFPFC_DELETE 0 4%positive) 9%positive 0))
  = Some ([3%positive; 3%positive], None).
Proof. by vm_compute. Qed.

(** C9. The periodic check removes exactly the entries that have expired: those whose
    hard timeout has passed, reported as such, and of the others those idle for too
    long. The early end of the loop over the list of hard timeouts misses none. *)
Theorem flow_timeout_exact `{!IdTable G Group.group_entry} `{!IdTable M Meter.meter_entry}
    (w : world G M) t now :
  table_ok t -> owned w (match_entries t) ->
  exists w' t' hard idle, flow_table_timeout w t now = Some (w', t') /\ table_ok t' /\ owned w' (match_entries t') /\
    hard ≡ₚ filter (fun e => hard_expired e now = true) (match_entries t) /\
    idle ≡ₚ filter (fun e => idle_expired e now = true) (filter (fun e => hard_expired e now = false) (match_entries t)) /\
    match_entries t' = filter (fun e => idle_expired e now = false)
                         (filter (fun e => hard_expired e now = false) (match_entries t)) /\
    sent w' = sent w ++ flat_map (removed_msg OFPRR_HARD_TIMEOUT now) hard ++
                        flat_map (removed_msg OFPRR_IDLE_TIMEOUT now) idle.
Proof. apply flow_table_timeout_spec. Qed.

(** A table with one entry that has been idle. *)
Definition demo_entry : flow_entry := new_entry 7%positive (demo_flow_mod OFPFC_ADD 5 1%positive) 1000.
Definition demo_table : flow_table := FTable [demo_entry] [] [7%positive] 1 0 0.

Lemma demo_table_ok : table_ok demo_table.
Proof.
  split; cbn; try done.
  - repeat constructor.
  - apply NoDup_singleton.
  - apply NoDup_singleton.
  - exists []. split_and!; [done | by vm_compute | constructor].
  - repeat constructor; by vm_compute.
Qed.

Lemma flow_timeout_exact_witness :
  exists w' t', flow_table_timeout demo_world demo_table 11001 = Some (w', t') /\ match_entries t' = [] /\
    length (sent w') = 1%nat.
Proof.
  destruct (flow_timeout_exact demo_world demo_table 11001) as (w' & t' & hard & idle & Hr & _ & _ & _ & _ & He & _).
  - apply demo_table_ok.
  - constructor; [cbn; set_solver | constructor].
  - exists w', t'. split_and!; [exact Hr | exact He |]. vm_compute in Hr. by injection Hr as <- _.
Defined.


(** * Lookup *)

Section lookup_proofs.
Context `{Packet.Parser}.

Lemma match_validated p m :
  Packet.valid (Packet.handle_std (Packet.packet_handle_std_validate p)) = true ->
  Packet.packet_handle_std_match p m =
    (Packet.packet_handle_std_validate p, packet_match m (Packet.hmatch (Packet.handle_std (Packet.packet_handle_std_validate p)))).
Proof.
  intros Hv. unfold Packet.packet_handle_std_match. destruct (Packet.valid (Packet.handle_std p)) eqn:Hp.
  - unfold Packet.packet_handle_std_validate. by rewrite Hp.
  - by rewrite Hv.
Qed.

Lemma validate_twice p :
  Packet.valid (Packet.handle_std (Packet.packet_handle_std_validate p)) = true ->
  Packet.packet_handle_std_validate (Packet.packet_handle_std_validate p) = Packet.packet_handle_std_validate p.
Proof. intros Hv. unfold Packet.packet_handle_std_validate at 1. by rewrite Hv. Qed.

(** The entry matches the packet, once parsed. *)
Definition entry_matches (p : Packet.packet) (e : flow_entry) : bool :=
  packet_match (fmatch (stats e)) (Packet.hmatch (Packet.handle_std (Packet.packet_handle_std_validate p))).

Lemma lookup_loop_spec now l : forall p,
  Packet.valid (Packet.handle_std (Packet.packet_handle_std_validate p)) = true ->
  let '(p', l', r) := lookup_loop p now l in
  Packet.packet_handle_std_validate p' = Packet.packet_handle_std_validate p /\
  match r with
  | Some e' => exists pre e post, l = pre ++ e :: post /\ entry_matches p e = true /\
      Forall (fun x => entry_matches p x = false) pre /\ e' = hit e (Ofpbuf.size (Packet.buffer p)) now /\
      l' = pre ++ e' :: post
  | None => Forall (fun x => entry_matches p x = false) l /\ l' = l
  end.
Proof.
  induction l as [| e l IH]; intros p Hv; cbn [lookup_loop]; [split; [done | split; [constructor | done]] |].
  rewrite match_validated by done. fold (entry_matches p e). destruct (entry_matches p e) eqn:He.
  - split; [by apply validate_twice |]. exists [], e, l. rewrite Packet.validate_buffer. by split_and!.
  - specialize (IH (Packet.packet_handle_std_validate p)). rewrite validate_twice in IH by done. specialize (IH Hv).
    destruct (lookup_loop _ now l) as [[p' l'] r]. destruct IH as [Hp' Hr]. split; [done |].
    assert (forall x, entry_matches (Packet.packet_handle_std_validate p) x = entry_matches p x) as Hm
      by (intros x; unfold entry_matches; by rewrite validate_twice).
    rewrite Packet.validate_buffer in Hr. destruct r as [e' |].
    + destruct Hr as (pre & x & post & -> & Hx & Hpre & -> & ->). exists (e :: pre), x, post.
      rewrite Hm in Hx. split_and!; try done. constructor; [done |]. eapply Forall_impl; [exact Hpre |]. intros y Hy. by rewrite <- Hm.
    + destruct Hr as [Hall ->]. split; [| done]. constructor; [done |].
      eapply Forall_impl; [exact Hall |]. intros y Hy. by rewrite <- Hm.
Qed.

Lemma fmap_same {A} (f : A -> A) (l : list A) : (forall x, x ∈ l -> f x = x) -> f <$> l = l.
Proof.
  induction l as [| x l IH]; intros Hl; [done |]. rewrite fmap_cons, Hl by (by left). f_equal. apply IH.
  intros y Hy. apply Hl. by right.
Qed.

(** Writing the entry that was hit keeps the table. *)
Lemma hit_table_ok t pre e post size now lk mc :
  table_ok t -> match_entries t = pre ++ e :: post ->
  table_ok (FTable (pre ++ hit e size now :: post) (hard_entries t) (idle_entries t) (active_count t) lk mc).
Proof.
  intros Hok Hl. set (f := fun x => if decide (fe_at x = fe_at e) then hit x size now else x).
  pose proof (tk_refs t Hok) as Hr. pose proof (without_middle pre e post) as Hw. rewrite <- Hl in Hw. specialize (Hw Hr).
  assert (forall x, x ∈ pre ++ post -> f x = x) as Hsame.
  { intros x Hx. rewrite <- Hw in Hx. apply list_elem_of_filter in Hx as [Hx _]. unfold f. by rewrite decide_False. }
  assert (pre ++ hit e size now :: post = f <$> match_entries t) as ->.
  { rewrite Hl, fmap_app, fmap_cons, !fmap_same by (intros x Hx; apply Hsame, elem_of_app; tauto).
    unfold f. by rewrite decide_True. }
  apply table_ok_fmap; [done | |].
  - intros x. unfold f. by destruct (decide _).
  - rewrite <- list_fmap_compose. erewrite list_fmap_ext; [apply (tk_insts t Hok) |].
    intros i x _. unfold compose, f. by destruct (decide _).
Qed.
End lookup_proofs.

(** C7. Looking a packet up gives the entry of the highest priority that matches it, the
    first of these in the table, with its counters and time of use updated; without a
    match there is none. The table keeps its invariant and nothing else changes. *)
Theorem flow_lookup_highest `{Packet.Parser} t p now :
  table_ok t -> Packet.valid (Packet.handle_std (Packet.packet_handle_std_validate p)) = true ->
  let '(t', p', r) := flow_table_lookup t p now in
  table_ok t' /\ lookup_count t' = u64 (lookup_count t + 1) /\
  match r with
  | Some e' => exists pre e post, match_entries t = pre ++ e :: post /\ entry_matches p e = true /\
      (forall x, x ∈ match_entries t -> entry_matches p x = true -> priority (stats x) <= priority (stats e)) /\
      (forall x, x ∈ pre -> entry_matches p x = false) /\
      e' = hit e (Ofpbuf.size (Packet.buffer p)) now /\ match_entries t' = pre ++ e' :: post /\
      matched_count t' = u64 (matched_count t + 1)
  | None => (forall x, x ∈ match_entries t -> entry_matches p x = false) /\ match_entries t' = match_entries t /\
      matched_count t' = matched_count t
  end.
Proof.
  intros Hok Hv. unfold flow_table_lookup. pose proof (lookup_loop_spec now (match_entries t) p Hv) as Hl.
  destruct (lookup_loop p now (match_entries t)) as [[p' l'] r]. destruct Hl as [_ Hr].
  cbn [match_entries lookup_count matched_count]. destruct r as [e' |].
  - destruct Hr as (pre & e & post & Hl & He & Hpre & -> & ->). split; [by apply hit_table_ok |]. split; [done |].
    exists pre, e, post. rewrite Forall_forall in Hpre. split_and!; try done.
    intros x Hx Hm. rewrite Hl, elem_of_app, elem_of_cons in Hx. destruct Hx as [Hx | [-> | Hx]].
    + specialize (Hpre x Hx). congruence.
    + done.
    + pose proof (tk_sorted t Hok) as Hs. rewrite Hl in Hs. apply SSorted_app_iff in Hs as (_ & Hs & _).
      inversion Hs as [| ? ? _ Hs']; subst. rewrite Forall_forall in Hs'. by apply Hs'.
  - destruct Hr as [Hall ->]. rewrite Forall_forall in Hall. split_and!; try done.
    destruct t. cbn in *. destruct Hok. by split.
Qed.

(** A parser that finds no header. *)
Definition no_headers : Packet.protocols_std := Packet.Protocols 0 0 0 0 0 0 0 0 0 0 0 0 0 0 0.
Definition blind_parser : Packet.Parser := fun _ _ => (ofl_structs_match_init, no_headers, true).
Definition demo_pkt : Packet.packet :=
  Packet.packet_create (H := blind_parser) 3 (Ofpbuf.Buf 100 [1; 2; 3; 4] 100 4 0 0 0 0) false no_headers false.

Lemma flow_lookup_highest_witness :
  exists t' p' e', flow_table_lookup (H := blind_parser) demo_table demo_pkt 2000 = (t', p', Some e') /\
    table_ok t' /\ packet_count (stats e') = 1 /\ byte_count (stats e') = 4 /\ last_used e' = 2000.
Proof.
  pose proof (flow_lookup_highest (H := blind_parser) demo_table demo_pkt 2000 demo_table_ok ltac:(by vm_compute)) as H.
  destruct (flow_table_lookup demo_table demo_pkt 2000) as [[t' p'] r] eqn:Hr. destruct H as (Hok & _ & _).
  destruct r as [e' |]; vm_compute in Hr; [| done].
  eexists t', p', e'. split; [done |]. split; [exact Hok |]. injection Hr as _ _ <-. by vm_compute.
Defined.
End FlowTable.
