(* ===== verification/Crc32.v ===== *)
(** The CRC-32C of SCTP (udatapath/crc32.c): the table-driven routine is the division
    by the reflected polynomial, one bit at a time. *)
From S2P Require Import Prelude.
Open Scope Z_scope.

Module Crc32.

Definition crc_table : list Z := [
  0x00000000; 0xf26b8303; 0xe13b70f7; 0x1350f3f4; 0xc79a971f; 0x35f1141c; 0x26a1e7e8; 0xd4ca64eb;
  0x8ad958cf; 0x78b2dbcc; 0x6be22838; 0x9989ab3b; 0x4d43cfd0; 0xbf284cd3; 0xac78bf27; 0x5e133c24;
  0x105ec76f; 0xe235446c; 0xf165b798; 0x030e349b; 0xd7c45070; 0x25afd373; 0x36ff2087; 0xc494a384;
  0x9a879fa0; 0x68ec1ca3; 0x7bbcef57; 0x89d76c54; 0x5d1d08bf; 0xaf768bbc; 0xbc267848; 0x4e4dfb4b;
  0x20bd8ede; 0xd2d60ddd; 0xc186fe29; 0x33ed7d2a; 0xe72719c1; 0x154c9ac2; 0x061c6936; 0xf477ea35;
  0xaa64d611; 0x580f5512; 0x4b5fa6e6; 0xb93425e5; 0x6dfe410e; 0x9f95c20d; 0x8cc531f9; 0x7eaeb2fa;
  0x30e349b1; 0xc288cab2; 0xd1d83946; 0x23b3ba45; 0xf779deae; 0x05125dad; 0x1642ae59; 0xe4292d5a;
  0xba3a117e; 0x4851927d; 0x5b016189; 0xa96ae28a; 0x7da08661; 0x8fcb0562; 0x9c9bf696; 0x6ef07595;
  0x417b1dbc; 0xb3109ebf; 0xa0406d4b; 0x522bee48; 0x86e18aa3; 0x748a09a0; 0x67dafa54; 0x95b17957;
  0xcba24573; 0x39c9c670; 0x2a993584; 0xd8f2b687; 0x0c38d26c; 0xfe53516f; 0xed03a29b; 0x1f682198;
  0x5125dad3; 0xa34e59d0; 0xb01eaa24; 0x42752927; 0x96bf4dcc; 0x64d4cecf; 0x77843d3b; 0x85efbe38;
  0xdbfc821c; 0x2997011f; 0x3ac7f2eb; 0xc8ac71e8; 0x1c661503; 0xee0d9600; 0xfd5d65f4; 0x0f36e6f7;
  0x61c69362; 0x93ad1061; 0x80fde395; 0x72966096; 0xa65c047d; 0x5437877e; 0x4767748a; 0xb50cf789;
  0xeb1fcbad; 0x197448ae; 0x0a24bb5a; 0xf84f3859; 0x2c855cb2; 0xdeeedfb1; 0xcdbe2c45; 0x3fd5af46;
  0x7198540d; 0x83f3d70e; 0x90a324fa; 0x62c8a7f9; 0xb602c312; 0x44694011; 0x5739b3e5; 0xa55230e6;
  0xfb410cc2; 0x092a8fc1; 0x1a7a7c35; 0xe811ff36; 0x3cdb9bdd; 0xceb018de; 0xdde0eb2a; 0x2f8b6829;
  0x82f63b78; 0x709db87b; 0x63cd4b8f; 0x91a6c88c; 0x456cac67; 0xb7072f64; 0xa457dc90; 0x563c5f93;
  0x082f63b7; 0xfa44e0b4; 0xe9141340; 0x1b7f9043; 0xcfb5f4a8; 0x3dde77ab; 0x2e8e845f; 0xdce5075c;
  0x92a8fc17; 0x60c37f14; 0x73938ce0; 0x81f80fe3; 0x55326b08; 0xa759e80b; 0xb4091bff; 0x466298fc;
  0x1871a4d8; 0xea1a27db; 0xf94ad42f; 0x0b21572c; 0xdfeb33c7; 0x2d80b0c4; 0x3ed04330; 0xccbbc033;
  0xa24bb5a6; 0x502036a5; 0x4370c551; 0xb11b4652; 0x65d122b9; 0x97baa1ba; 0x84ea524e; 0x7681d14d;
  0x2892ed69; 0xdaf96e6a; 0xc9a99d9e; 0x3bc21e9d; 0xef087a76; 0x1d63f975; 0x0e330a81; 0xfc588982;
  0xb21572c9; 0x407ef1ca; 0x532e023e; 0xa145813d; 0x758fe5d6; 0x87e466d5; 0x94b49521; 0x66df1622;
  0x38cc2a06; 0xcaa7a905; 0xd9f75af1; 0x2b9cd9f2; 0xff56bd19; 0x0d3d3e1a; 0x1e6dcdee; 0xec064eed;
  0xc38d26c4; 0x31e6a5c7; 0x22b65633; 0xd0ddd530; 0x0417b1db; 0xf67c32d8; 0xe52cc12c; 0x1747422f;
  0x49547e0b; 0xbb3ffd08; 0xa86f0efc; 0x5a048dff; 0x8ecee914; 0x7ca56a17; 0x6ff599e3; 0x9d9e1ae0;
  0xd3d3e1ab; 0x21b862a8; 0x32e8915c; 0xc083125f; 0x144976b4; 0xe622f5b7; 0xf5720643; 0x07198540;
  0x590ab964; 0xab613a67; 0xb831c993; 0x4a5a4a90; 0x9e902e7b; 0x6cfbad78; 0x7fab5e8c; 0x8dc0dd8f;
  0xe330a81a; 0x115b2b19; 0x020bd8ed; 0xf0605bee; 0x24aa3f05; 0xd6c1bc06; 0xc5914ff2; 0x37faccf1;
  0x69e9f0d5; 0x9b8273d6; 0x88d28022; 0x7ab90321; 0xae7367ca; 0x5c18e4c9; 0x4f48173d; 0xbd23943e;
  0xf36e6f75; 0x0105ec76; 0x12551f82; 0xe03e9c81; 0x34f4f86a; 0xc69f7b69; 0xd5cf889d; 0x27a40b9e;
  0x79b737ba; 0x8bdcb4b9; 0x988c474d; 0x6ae7c44e; 0xbe2da0a5; 0x4c4623a6; 0x5f16d052; 0xad7d5351].

(** The loop of [crc_reflect]; [n] turns are left. *)
Fixpoint reflect_loop (n : nat) (data ret : Z) : Z :=
  match n with
  | O => ret
  | S n => let data := Z.shiftr data 1 in reflect_loop n data (u64 (Z.lor (Z.shiftl ret 1) (Z.land data 1)))
  end.

Definition crc_reflect (data : Z) (data_len : nat) : Z := reflect_loop (data_len - 1) data (Z.land data 1).

Definition crc_init : Z := 0xffffffff.

Fixpoint crc_update (crc : Z) (data : list Z) : Z :=
  match data with
  | [] => Z.land crc 0xffffffff
  | b :: data =>
      let tbl_idx := Z.land (Z.lxor crc b) 0xff in
      crc_update (Z.land (Z.lxor (nth (Z.to_nat tbl_idx) crc_table 0) (Z.shiftr crc 8)) 0xffffffff) data
  end.

Definition crc_finalize (crc : Z) : Z := Z.lxor crc 0xffffffff.

(** * The reference *)

(** The polynomial of the configuration, reflected. *)
Definition poly : Z := crc_reflect 0x1edc6f41 32.

(** One bit. *)
Definition step (c : Z) : Z := if Z.odd c then Z.lxor (Z.div2 c) poly else Z.div2 c.
Fixpoint steps (n : nat) (c : Z) : Z := match n with O => c | S n => steps n (step c) end.

Definition crc_bitwise (crc : Z) (data : list Z) : Z := fold_left (fun c b => steps 8 (Z.lxor c b)) data crc.

(** * Proofs *)

Lemma table_steps : crc_table = (fun i => steps 8 (Z.of_nat i)) <$> seq 0 256.
Proof. by vm_compute. Qed.

Lemma div2_lxor a b : Z.div2 (Z.lxor a b) = Z.lxor (Z.div2 a) (Z.div2 b).
Proof. rewrite !Z.div2_spec. apply Z.shiftr_lxor. Qed.

Lemma odd_lxor a b : Z.odd (Z.lxor a b) = xorb (Z.odd a) (Z.odd b).
Proof. rewrite <- !Z.bit0_odd. apply Z.lxor_spec. Qed.

(** Division is linear. *)
Lemma step_lxor a b : step (Z.lxor a b) = Z.lxor (step a) (step b).
Proof.
  unfold step. rewrite odd_lxor, div2_lxor. apply Z.bits_inj'. intros i _.
  destruct (Z.odd a), (Z.odd b); cbn [xorb]; rewrite !Z.lxor_spec;
    destruct (Z.testbit (Z.div2 a) i), (Z.testbit (Z.div2 b) i), (Z.testbit poly i); reflexivity.
Qed.

Lemma steps_lxor n a b : steps n (Z.lxor a b) = Z.lxor (steps n a) (steps n b).
Proof. revert a b. induction n as [| n IH]; intros a b; [done |]. cbn [steps]. by rewrite step_lxor, IH. Qed.

Lemma step_double c : step (2 * c) = c.
Proof.
  unfold step. rewrite Z.odd_mul. cbn [Z.odd andb]. rewrite Z.div2_div, Z.mul_comm, Z.div_mul by lia. done.
Qed.

Lemma steps_shift n c : steps n (c * 2 ^ Z.of_nat n) = c.
Proof.
  induction n as [| n IH]; [cbn; lia |]. cbn [steps].
  replace (c * 2 ^ Z.of_nat (S n)) with (2 * (c * 2 ^ Z.of_nat n)) by (rewrite Nat2Z.inj_succ, Z.pow_succ_r by lia; lia).
  by rewrite step_double.
Qed.

(** A byte of the state falls out after eight steps, the rest moves down. *)
Lemma steps_byte c : 0 <= c -> steps 8 c = Z.lxor (steps 8 (Z.land c 0xff)) (Z.shiftr c 8).
Proof.
  intros Hc. rewrite <- (steps_shift 8 (Z.shiftr c 8)), <- steps_lxor. f_equal. apply Z.bits_inj'. intros i Hi.
  change (Z.of_nat 8) with 8. rewrite <- Z.shiftl_mul_pow2 by lia. rewrite Z.lxor_spec, Z.land_spec, Z.shiftl_spec by lia.
  destruct (Z.lt_ge_cases i 8) as [Hlt | Hge].
  - rewrite (Z.testbit_neg_r _ (i - 8)) by lia. change 0xff with (Z.ones 8). rewrite Z.ones_spec_low by lia.
    destruct (Z.testbit c i); reflexivity.
  - rewrite Z.shiftr_spec by lia. change 0xff with (Z.ones 8). rewrite Z.ones_spec_high by lia.
    replace (i - 8 + 8) with i by lia. destruct (Z.testbit c i); reflexivity.
Qed.

Lemma step_range c : in_range 32 c -> in_range 32 (step c).
Proof.
  intros Hc. assert (in_range 32 (Z.div2 c)) by (unfold in_range in *; rewrite Z.div2_div; lia).
  unfold step. destruct (Z.odd c); [| done]. apply in_range_lxor; [lia | done | by vm_compute].
Qed.

Lemma steps_range n c : in_range 32 c -> in_range 32 (steps n c).
Proof. revert c. induction n as [| n IH]; intros c Hc; [done |]. by apply IH, step_range. Qed.

Lemma land32 c : in_range 32 c -> Z.land c 0xffffffff = c.
Proof. intros Hc. change 0xffffffff with (Z.ones 32). rewrite Z.land_ones by lia. apply Z.mod_small. apply Hc. Qed.

Lemma table_nth i : 0 <= i < 256 -> nth (Z.to_nat i) crc_table 0 = steps 8 i.
Proof.
  intros Hi. rewrite table_steps. change (_ <$> _) with (map (fun i => steps 8 (Z.of_nat i)) (seq 0 256)).
  rewrite (nth_indep _ 0 (steps 8 (Z.of_nat 0))) by (rewrite length_map, length_seq; lia).
  rewrite (map_nth (fun i => steps 8 (Z.of_nat i))), seq_nth by lia. f_equal. lia.
Qed.

(** The table-driven checksum of any message is the bit-by-bit division by the
    reflected polynomial 0x1edc6f41. *)
Theorem crc_update_bitwise data crc :
  in_range 32 crc -> bytes_ok data -> crc_update crc data = crc_bitwise crc data.
Proof.
  intros Hc Hd. revert crc Hc. induction Hd as [| b data Hb Hd IH]; intros crc Hc; cbn [crc_update]; [by apply land32 |].
  unfold crc_bitwise. cbn [fold_left]. fold (crc_bitwise (steps 8 (Z.lxor crc b)) data).
  assert (in_range 32 (Z.lxor crc b)) as Hx by (apply in_range_lxor; unfold in_range in *; lia).
  assert (Z.shiftr (Z.lxor crc b) 8 = Z.shiftr crc 8) as Hs.
  { rewrite Z.shiftr_lxor, (Z.shiftr_div_pow2 b), (Z.div_small b), Z.lxor_0_r by (unfold in_range in Hb; lia). done. }
  assert (0 <= Z.land (Z.lxor crc b) 0xff < 256) as Hi
    by (change 0xff with (Z.ones 8); rewrite Z.land_ones by lia; change (2 ^ 8) with 256; apply Z.mod_pos_bound; lia).
  rewrite table_nth by done. rewrite <- Hs, <- steps_byte by apply Hx.
  rewrite land32 by (by apply steps_range). by apply IH, steps_range.
Qed.

(** The check value of CRC-32C: the digits 1 to 9. *)
Lemma crc_update_bitwise_witness :
  crc_update crc_init [0x31; 0x32; 0x33; 0x34; 0x35; 0x36; 0x37; 0x38; 0x39] =
    crc_bitwise crc_init [0x31; 0x32; 0x33; 0x34; 0x35; 0x36; 0x37; 0x38; 0x39] /\
  crc_finalize (crc_update crc_init [0x31; 0x32; 0x33; 0x34; 0x35; 0x36; 0x37; 0x38; 0x39]) = 0xe3069283.
Proof.
  split; [| by vm_compute]. apply crc_update_bitwise; [by vm_compute |].
  apply (bool_decide_unpack _). by vm_compute.
Defined.
End Crc32.
