(* ===== verification/DpActions.v ===== *)
(** The actions that change a packet (udatapath/dp_actions.c). The headers are read and
    written through the pointers of the parser; an access outside the buffer gives
    [None]. *)
From S2P Require Import Prelude Csum HMap Oxm OflTypes MatchStd ActionSet Ofpbuf Packet Crc32.
Open Scope Z_scope.

Module DpActions.
Import Packet.

(** * Edits of a buffer *)

Definition edit (A : Type) : Type := Ofpbuf.ofpbuf -> option (A * Ofpbuf.ofpbuf).

Definition eret {A} (x : A) : edit A := fun b => Some (x, b).
Definition ebind {A B} (c : edit A) (k : A -> edit B) : edit B :=
  fun b => '(x, b) ← c b; k x b.
Notation "x <- c ;; k" := (ebind c (fun x => k)) (at level 62, c at next level, right associativity).
Notation "c ;;; k" := (ebind c (fun _ => k)) (at level 62, right associativity).

(** Words in the order of the machine, bytes, and [memmove]. *)
Definition rd (n : nat) (p : Z) : edit Z := fun b => bs ← Ofpbuf.load b p n; Some (le_load bs, b).
Definition wr (n : nat) (p v : Z) : edit unit := fun b => b ← Ofpbuf.store b p (le_store n v); Some (tt, b).
Definition rd_bytes (n : nat) (p : Z) : edit (list Z) := fun b => bs ← Ofpbuf.load b p n; Some (bs, b).
Definition wr_bytes (p : Z) (bs : list Z) : edit unit := fun b => b ← Ofpbuf.store b p bs; Some (tt, b).
(** A length below zero is a huge [size_t], which no copy survives. *)
Definition memmove (dst src n : Z) : edit unit :=
  if n <? 0 then fun _ => None else bs <- rd_bytes (Z.to_nat n) src ;; wr_bytes dst bs.

(** The buffer itself; its [data] and [size] set by hand. *)
Definition the (f : Ofpbuf.ofpbuf -> Z) : edit Z := fun b => Some (f b, b).
Definition move_data (n : Z) : edit unit :=
  fun b => Some (tt, Ofpbuf.with_data b (Ofpbuf.data b + n) (u64 (Ofpbuf.size b - n))).

(** The first [n] bytes of the value of a field; there must be as many. *)
Definition field_bytes (n : nat) (v : list Z) : edit (list Z) :=
  fun b => if (n <=? length v)%nat then Some (take n v, b) else None.

Definition not16 (x : Z) : Z := compl 16 x.
Definition not32 (x : Z) : Z := compl 32 x.

(** * Offsets in the headers *)

Definition ETH_HEADER_LEN : Z := 14.
Definition VLAN_HEADER_LEN : Z := 4.
Definition LLC_HEADER_LEN : Z := 3.
Definition SNAP_HEADER_LEN : Z := 5.
Definition MPLS_HEADER_LEN : Z := 4.
Definition PBB_HEADER_LEN : Z := 18.
Definition IP_HEADER_LEN : Z := 20.
Definition IPV6_HEADER_LEN : Z := 40.
Definition ICMP_HEADER_LEN : Z := 4.
Definition IPV6_ND_HEADER_LEN : Z := 20.
Definition IPV6_ND_OPT_HD_LEN : Z := 2.

Definition eth_dst (p : Z) : Z := p.
Definition eth_src (p : Z) : Z := p + 6.
Definition eth_type (p : Z) : Z := p + 12.
Definition snap_type (p : Z) : Z := p + 3.
Definition vlan_tci (p : Z) : Z := p.
Definition vlan_next_type (p : Z) : Z := p + 2.
Definition ip_ihl_ver (p : Z) : Z := p.
Definition ip_tos (p : Z) : Z := p + 1.
Definition ip_ttl (p : Z) : Z := p + 8.
Definition ip_proto (p : Z) : Z := p + 9.
Definition ip_csum (p : Z) : Z := p + 10.
Definition ip_src (p : Z) : Z := p + 12.
Definition ip_dst (p : Z) : Z := p + 16.
Definition ipv6_ver_tc_fl (p : Z) : Z := p.
Definition ipv6_hop_limit (p : Z) : Z := p + 7.
Definition ipv6_src (p : Z) : Z := p + 8.
Definition ipv6_dst (p : Z) : Z := p + 24.
Definition tcp_src (p : Z) : Z := p.
Definition tcp_dst (p : Z) : Z := p + 2.
Definition tcp_csum (p : Z) : Z := p + 16.
Definition udp_src (p : Z) : Z := p.
Definition udp_dst (p : Z) : Z := p + 2.
Definition udp_csum (p : Z) : Z := p + 6.
Definition sctp_src (p : Z) : Z := p.
Definition sctp_dst (p : Z) : Z := p + 2.
Definition sctp_csum (p : Z) : Z := p + 8.
Definition icmp_type (p : Z) : Z := p.
Definition icmp_code (p : Z) : Z := p + 1.
Definition icmp_csum (p : Z) : Z := p + 2.
Definition ar_op (p : Z) : Z := p + 6.
Definition ar_sha (p : Z) : Z := p + 8.
Definition ar_spa (p : Z) : Z := p + 14.
Definition ar_tha (p : Z) : Z := p + 18.
Definition ar_tpa (p : Z) : Z := p + 24.
Definition pbb_id (p : Z) : Z := p.
Definition c_eth_dst (p : Z) : Z := p + 4.
Definition pbb_next_type (p : Z) : Z := p + 16.

Definition VLAN_VID_MASK : Z := 0x0fff.
Definition VLAN_PCP_MASK : Z := 0xe000.
Definition VLAN_PCP_SHIFT : Z := 13.
Definition IP_DSCP_MASK : Z := 0xfc.
Definition IP_ECN_MASK : Z := 0x03.
Definition IPV6_DSCP_MASK : Z := 0x0fc00000.
Definition IPV6_DSCP_SHIFT : Z := 22.
Definition IPV6_ECN_MASK : Z := 0x0003.
Definition IPV6_ECN_SHIFT : Z := 20.
Definition IPV6_FLABEL_MASK : Z := 0x000fffff.
Definition MPLS_S_MASK : Z := 0x100.
Definition MPLS_S_SHIFT : Z := 8.
Definition MPLS_TC_MASK : Z := 0xe00.
Definition MPLS_TC_SHIFT : Z := 9.
Definition MPLS_LABEL_MASK : Z := 0xfffff000.
Definition MPLS_LABEL_SHIFT : Z := 12.
Definition IPV4_VERSION : Z := 4.
Definition IPV6_VERSION : Z := 6.
Definition ND_OPT_SLL : Z := 1.
Definition ND_OPT_TLL : Z := 2.

(** * Setting fields *)

(** A byte of the IPv4 header that shares its 16-bit word with another: the checksum
    follows the change of the word. *)
Definition set_ip_word (p : Z) (old_val new_val : Z) : edit unit :=
  c <- rd 2 (ip_csum p) ;; wr 2 (ip_csum p) (recalc_csum16 c old_val new_val).

Definition set_ip_tos (p : Z) (tos : Z) : edit unit :=
  ver <- rd 1 (ip_ihl_ver p) ;; old <- rd 1 (ip_tos p) ;;
  set_ip_word p (htons (Z.shiftl ver 8 + old)) (htons (Z.shiftl ver 8 + tos)) ;;;
  wr 1 (ip_tos p) tos.

Definition set_ip_dscp (p : Z) (v : list Z) : edit unit :=
  old <- rd 1 (ip_tos p) ;;
  set_ip_tos p (u8 (Z.lor (Z.land old (Z.lnot IP_DSCP_MASK)) (Z.shiftl (byte0 v) 2))).
Definition set_ip_ecn (p : Z) (v : list Z) : edit unit :=
  old <- rd 1 (ip_tos p) ;;
  set_ip_tos p (u8 (Z.lor (Z.land old (Z.lnot IP_ECN_MASK)) (Z.land (byte0 v) IP_ECN_MASK))).

Definition set_ipv6_dscp (p : Z) (v : list Z) : edit unit :=
  f <- rd 4 (ipv6_ver_tc_fl p) ;;
  wr 4 (ipv6_ver_tc_fl p)
    (Z.lor (Z.land f (not32 (htonl IPV6_DSCP_MASK))) (htonl (u32 (Z.shiftl (byte0 v) IPV6_DSCP_SHIFT)))).
Definition set_ipv6_ecn (p : Z) (v : list Z) : edit unit :=
  f <- rd 4 (ipv6_ver_tc_fl p) ;;
  wr 4 (ipv6_ver_tc_fl p)
    (Z.lor (Z.land f (not32 (htonl IPV6_ECN_MASK))) (htonl (u32 (Z.shiftl (byte0 v) IPV6_ECN_SHIFT)))).

Definition set_ip_proto (p : Z) (v : list Z) : edit unit :=
  ttl <- rd 1 (ip_ttl p) ;; old <- rd 1 (ip_proto p) ;;
  set_ip_word p (htons (Z.shiftl ttl 8 + old)) (htons (Z.shiftl ttl 8 + byte0 v)) ;;;
  wr 1 (ip_proto p) (byte0 v).

(** The checksum of the transport header follows the change of an address. *)
Definition update_l4 (pr : protocols_std) (recalc : Z -> Z) : edit unit :=
  if negb (tcp pr =? 0) then c <- rd 2 (tcp_csum (tcp pr)) ;; wr 2 (tcp_csum (tcp pr)) (recalc c)
  else if negb (udp pr =? 0) then c <- rd 2 (udp_csum (udp pr)) ;; wr 2 (udp_csum (udp pr)) (recalc c)
  else eret tt.

Definition set_ipv4_addr (pr : protocols_std) (field : Z -> Z) (v : list Z) : edit unit :=
  let p := ipv4 pr in
  old <- rd 4 (field p) ;;
  update_l4 pr (fun c => recalc_csum32 c old (rd32 v)) ;;;
  c <- rd 2 (ip_csum p) ;; old <- rd 4 (field p) ;;
  wr 2 (ip_csum p) (recalc_csum32 c old (rd32 v)) ;;;
  wr 4 (field p) (rd32 v).

Definition set_ipv6_addr (pr : protocols_std) (field : Z -> Z) (v : list Z) : edit unit :=
  let p := ipv6 pr in
  old <- rd_bytes 16 (field p) ;;
  update_l4 pr (fun c => recalc_csum128 c old v) ;;;
  new <- field_bytes 16 v ;; wr_bytes (field p) new.

(** A port of TCP or UDP. *)
Definition set_port (p : Z) (field csum : Z -> Z) (v : list Z) : edit unit :=
  let new := htons (rd16 v) in
  c <- rd 2 (csum p) ;; old <- rd 2 (field p) ;;
  wr 2 (csum p) (recalc_csum16 c old new) ;;;
  wr 2 (field p) new.

(** A port of SCTP: the CRC of everything from the header on is computed again. *)
Definition set_sctp_port (p : Z) (field : Z -> Z) (v : list Z) : edit unit :=
  fun b =>
    let len := Z.to_nat (Ofpbuf.ofpbuf_tail b - p) in
    (wr 4 (sctp_csum p) 0 ;;; wr 2 (field p) (htons (rd16 v)) ;;;
     bs <- rd_bytes len p ;;
     wr 4 (sctp_csum p) (Crc32.crc_finalize (Crc32.crc_update Crc32.crc_init bs))) b.

Definition set_icmp_type (p : Z) (v : list Z) : edit unit :=
  t <- rd 1 (icmp_type p) ;; c <- rd 1 (icmp_code p) ;; s <- rd 2 (icmp_csum p) ;;
  wr 2 (icmp_csum p) (recalc_csum16 s (htons (Z.shiftl t 8 + c)) (htons (Z.shiftl (byte0 v) 8 + c))) ;;;
  wr 1 (icmp_type p) (byte0 v).
Definition set_icmp_code (p : Z) (v : list Z) : edit unit :=
  t <- rd 1 (icmp_type p) ;; c <- rd 1 (icmp_code p) ;; s <- rd 2 (icmp_csum p) ;;
  wr 2 (icmp_csum p) (recalc_csum16 s (htons (Z.shiftl t 8 + c)) (htons (Z.shiftl t 8 + byte0 v))) ;;;
  wr 1 (icmp_code p) (byte0 v).

Definition copy_field (p : Z) (n : nat) (v : list Z) : edit unit := new <- field_bytes n v ;; wr_bytes p new.

Definition set_nd_target (p : Z) (v : list Z) : edit unit :=
  let q := p + (ICMP_HEADER_LEN + 4) in
  old <- rd_bytes 16 q ;; copy_field q 16 v ;;;
  c <- rd 2 (icmp_csum p) ;; wr 2 (icmp_csum p) (recalc_csum128 c old v).

Definition set_nd_ll (p : Z) (v : list Z) : edit unit :=
  let opt := p + ICMP_HEADER_LEN + IPV6_ND_HEADER_LEN in
  let q := opt + IPV6_ND_OPT_HD_LEN in
  t <- rd 1 opt ;;
  if (t =? ND_OPT_SLL) || (t =? ND_OPT_TLL) then
    old16 <- rd 2 q ;; old32 <- rd 4 (q + 2) ;; copy_field q 6 v ;;;
    c <- rd 2 (icmp_csum p) ;; wr 2 (icmp_csum p) (recalc_csum16 c old16 (rd16 v)) ;;;
    c <- rd 2 (icmp_csum p) ;; wr 2 (icmp_csum p) (recalc_csum32 c old32 (rd32 (drop 2 v)))
  else eret tt.

(** Some bits of a word in network order. *)
Definition set_bits32 (p mask bits : Z) : edit unit :=
  f <- rd 4 p ;; wr 4 p (Z.lor (Z.land f (not32 (htonl mask))) (htonl (Z.land bits mask))).

Definition set_pbb_isid (p : Z) (v : list Z) : edit unit :=
  id <- rd 4 (pbb_id p) ;;
  wr 4 (pbb_id p) (u32 (Z.lor (Z.land id 0xff)
    (Z.lor (Z.lor (Z.shiftl (nth 2 v 0) 24) (Z.shiftl (nth 1 v 0) 16)) (Z.shiftl (nth 1 v 0) 8)))).


(** Offsets in [struct ehddp_header]. *)
Definition eh_flags (p : Z) : Z := p.
Definition eh_opcode (p : Z) : Z := p + 1.
Definition eh_num_devices (p : Z) : Z := p + 2.
Definition eh_num_sec (p : Z) : Z := p + 3.
Definition eh_previous_size_mac (p : Z) : Z := p + 11.
Definition eh_nxt_mac (p : Z) : Z := p + 12.
Definition eh_num_ack (p : Z) : Z := p + 18.
Definition eh_last_mac (p : Z) : Z := p + 26.
Definition eh_src_mac (p : Z) : Z := p + 32.
Definition eh_time_block (p : Z) : Z := p + 38.

(** The cases of [set_field] that edit the packet. *)
Definition set_field_edit (pr : protocols_std) (h : Z) (v : list Z) : edit unit :=
  if h =? OXM_OF_ETH_DST then copy_field (eth_dst (eth pr)) 6 v
  else if h =? OXM_OF_ETH_SRC then copy_field (eth_src (eth pr)) 6 v
  else if h =? OXM_OF_ETH_TYPE then wr 2 (eth_type (eth pr)) (htons (rd16 v))
  else if h =? OXM_OF_VLAN_VID then
    if vlan pr =? 0 then eret tt
    else
      tci <- rd 2 (vlan_tci (vlan pr)) ;;
      wr 2 (vlan_tci (vlan pr))
        (htons (Z.lor (Z.land (htons tci) (not16 VLAN_VID_MASK)) (Z.land (rd16 v) VLAN_VID_MASK)))
  else if (h =? OXM_OF_VLAN_PCP) && negb (vlan pr =? 0) then
    tci <- rd 2 (vlan_tci (vlan pr)) ;;
    wr 2 (vlan_tci (vlan pr))
      (Z.lor (Z.land tci (not16 (htons VLAN_PCP_MASK))) (htons (u16 (Z.shiftl (byte0 v) VLAN_PCP_SHIFT))))
  (* without a VLAN header the case of the priority falls through *)
  else if (h =? OXM_OF_VLAN_PCP) || (h =? OXM_OF_IP_DSCP) then
    if negb (ipv4 pr =? 0) then set_ip_dscp (ipv4 pr) v
    else if negb (ipv6 pr =? 0) then set_ipv6_dscp (ipv6 pr) v
    else eret tt
  else if h =? OXM_OF_IP_ECN then
    if negb (ipv4 pr =? 0) then set_ip_ecn (ipv4 pr) v
    else if negb (ipv6 pr =? 0) then set_ipv6_ecn (ipv6 pr) v
    else eret tt
  else if h =? OXM_OF_IP_PROTO then set_ip_proto (ipv4 pr) v
  else if h =? OXM_OF_IPV4_SRC then set_ipv4_addr pr ip_src v
  else if h =? OXM_OF_IPV4_DST then set_ipv4_addr pr ip_dst v
  else if h =? OXM_OF_TCP_SRC then set_port (tcp pr) tcp_src tcp_csum v
  else if h =? OXM_OF_TCP_DST then set_port (tcp pr) tcp_dst tcp_csum v
  else if h =? OXM_OF_UDP_SRC then set_port (udp pr) udp_src udp_csum v
  else if h =? OXM_OF_UDP_DST then set_port (udp pr) udp_dst udp_csum v
  else if h =? OXM_OF_SCTP_SRC then set_sctp_port (sctp pr) sctp_src v
  else if h =? OXM_OF_SCTP_DST then set_sctp_port (sctp pr) sctp_dst v
  else if (h =? OXM_OF_ICMPV4_TYPE) || (h =? OXM_OF_ICMPV6_TYPE) then set_icmp_type (icmp pr) v
  else if (h =? OXM_OF_ICMPV4_CODE) || (h =? OXM_OF_ICMPV6_CODE) then set_icmp_code (icmp pr) v
  else if h =? OXM_OF_ARP_OP then wr 2 (ar_op (arp pr)) (htons (rd16 v))
  else if h =? OXM_OF_ARP_SPA then wr 4 (ar_spa (arp pr)) (rd32 v)
  else if h =? OXM_OF_ARP_TPA then wr 4 (ar_tpa (arp pr)) (rd32 v)
  else if h =? OXM_OF_ARP_SHA then copy_field (ar_sha (arp pr)) 6 v
  else if h =? OXM_OF_ARP_THA then copy_field (ar_tha (arp pr)) 6 v
  else if h =? OXM_OF_IPV6_SRC then set_ipv6_addr pr ipv6_src v
  else if h =? OXM_OF_IPV6_DST then set_ipv6_addr pr ipv6_dst v
  else if h =? OXM_OF_IPV6_FLABEL then set_bits32 (ipv6_ver_tc_fl (ipv6 pr)) IPV6_FLABEL_MASK (rd32 v)
  else if h =? OXM_OF_IPV6_ND_TARGET then set_nd_target (icmp pr) v
  else if (h =? OXM_OF_IPV6_ND_SLL) || (h =? OXM_OF_IPV6_ND_TLL) then set_nd_ll (icmp pr) v
  else if h =? OXM_OF_MPLS_LABEL then set_bits32 (mpls pr) MPLS_LABEL_MASK (Z.shiftl (rd32 v) MPLS_LABEL_SHIFT)
  else if h =? OXM_OF_MPLS_TC then set_bits32 (mpls pr) MPLS_TC_MASK (Z.shiftl (byte0 v) MPLS_TC_SHIFT)
  else if h =? OXM_OF_MPLS_BOS then set_bits32 (mpls pr) MPLS_S_MASK (Z.shiftl (byte0 v) MPLS_S_SHIFT)
  else if h =? OXM_OF_PBB_ISID then set_pbb_isid (pbb pr) v
  else if h =? OXM_OF_EHDDP_FLAGS then copy_field (eh_flags (ehddp pr)) 1 v
  else if h =? OXM_OF_EHDDP_OPCODE then copy_field (eh_opcode (ehddp pr)) 1 v
  else if h =? OXM_OF_EHDDP_NUM_DEVICE then copy_field (eh_num_devices (ehddp pr)) 1 v
  else if h =? OXM_OF_EHDDP_NUM_SEC then copy_field (eh_num_sec (ehddp pr)) 8 v
  else if h =? OXM_OF_EHDDP_PRE_MAC_SIZ then copy_field (eh_nxt_mac (ehddp pr)) 8 v
  else if h =? OXM_OF_EHDDP_PRE_MAC then copy_field (eh_previous_size_mac (ehddp pr)) 1 v
  else if h =? OXM_OF_EHDDP_NUM_ACK then copy_field (eh_num_ack (ehddp pr)) 8 v
  else if h =? OXM_OF_EHDDP_LAS_MAC then copy_field (eh_last_mac (ehddp pr)) 8 v
  else if h =? OXM_OF_EHDDP_SRC_MAC then copy_field (eh_src_mac (ehddp pr)) 8 v
  else if h =? OXM_OF_EHDDP_TIM_BLO then copy_field (eh_time_block (ehddp pr)) 4 v
  else eret tt.

(** The tunnel id is kept in the match of the packet. *)
Definition set_tunnel_id (m : ofl_match) (v : list Z) : ofl_match :=
  Match (mlength m) (hmap_update (match_fields m) (fun h t =>
    if h =? hash_int OXM_OF_TUNNEL_ID 0 then TLV (header t) (patch 0 (le_store 8 (rd64 v)) (value t)) else t)).

Section actions.
Context `{Parser} (junk : nat -> Z).

(** The packet with its buffer edited. *)
Definition run (p : packet) (c : edit unit) : option packet :=
  '(_, b) ← c (buffer p); Some (with_buffer p b).

Definition headers (p : packet) : protocols_std := proto (handle_std p).

Definition output (p : packet) (port max_len : Z) : packet :=
  with_out p (out_group p) port (if port =? OFPP_CONTROLLER then max_len else out_port_max_len p).

Definition set_field (p : packet) (f : ofl_match_tlv) : option packet :=
  let p := packet_handle_std_validate p in
  if valid (handle_std p) then
    if header f =? OXM_OF_TUNNEL_ID then
      let h := handle_std p in
      Some (with_handle p (Handle (proto h) (set_tunnel_id (hmatch h) (value f)) false (table_miss h)))
    else
      p ← run p (set_field_edit (headers p) (header f) (value f));
      Some (with_valid p false)
  else Some p.

(** There is room for the shorter IP header after one MPLS header. *)
Definition room_for_ip (p : packet) : bool :=
  (ETH_HEADER_LEN + MPLS_HEADER_LEN + IP_HEADER_LEN <=? Ofpbuf.size (buffer p)) ||
  (ETH_HEADER_LEN + MPLS_HEADER_LEN + IPV6_HEADER_LEN <=? Ofpbuf.size (buffer p)).

Definition set_ttl_bits (p ttl : Z) : edit unit :=
  f <- rd 4 p ;; wr 4 p (Z.lor (Z.land f (not32 (htonl MPLS_TTL_MASK))) ttl).

(** The TTL of the IPv4 header, with its checksum. *)
Definition set_ip_ttl (p new_ttl : Z) : edit unit :=
  proto <- rd 1 (ip_proto p) ;; ttl <- rd 1 (ip_ttl p) ;;
  set_ip_word p (htons (proto + Z.shiftl ttl 8)) (htons (proto + Z.shiftl new_ttl 8)) ;;;
  wr 1 (ip_ttl p) new_ttl.

Definition copy_ttl_out (p : packet) : option packet :=
  let p := packet_handle_std_validate p in
  let m := mpls (headers p) in
  if m =? 0 then Some p
  else
    run p (f <- rd 4 m ;;
      if Z.land (htonl f) MPLS_S_MASK =? 0 then
        inner <- rd 4 (m + MPLS_HEADER_LEN) ;; set_ttl_bits m (Z.land inner (htonl MPLS_TTL_MASK))
      else if room_for_ip p then
        v <- rd 1 (m + MPLS_HEADER_LEN) ;;
        if Z.shiftr v 4 =? IPV4_VERSION then
          ttl <- rd 1 (ip_ttl (m + MPLS_HEADER_LEN)) ;; set_ttl_bits m (htonl (Z.land ttl MPLS_TTL_MASK))
        else if Z.shiftr v 4 =? IPV6_VERSION then
          ttl <- rd 1 (ipv6_hop_limit (m + MPLS_HEADER_LEN)) ;; set_ttl_bits m (htonl (Z.land ttl MPLS_TTL_MASK))
        else eret tt
      else eret tt).

Definition copy_ttl_in (p : packet) : option packet :=
  let p := packet_handle_std_validate p in
  let m := mpls (headers p) in
  let inner := m + MPLS_HEADER_LEN in
  if m =? 0 then Some p
  else
    run p (f <- rd 4 m ;;
      if Z.land (htonl f) MPLS_S_MASK =? 0 then set_ttl_bits inner (Z.land f (htonl MPLS_TTL_MASK))
      else if room_for_ip p then
        v <- rd 1 inner ;;
        if Z.shiftr v 4 =? IPV4_VERSION then set_ip_ttl inner (Z.land (htonl f) MPLS_TTL_MASK)
        else if Z.shiftr v 4 =? IPV6_VERSION then wr 1 (ipv6_hop_limit inner) (Z.land (htonl f) MPLS_TTL_MASK)
        else eret tt
      else eret tt).

Definition set_mpls_ttl (p : packet) (ttl : Z) : option packet :=
  let p := packet_handle_std_validate p in
  if mpls (headers p) =? 0 then Some p
  else run p (set_bits32 (mpls (headers p)) MPLS_TTL_MASK ttl).

Definition dec_mpls_ttl (p : packet) : option packet :=
  let p := packet_handle_std_validate p in
  let m := mpls (headers p) in
  if m =? 0 then Some p
  else run p (f <- rd 4 m ;;
         let ttl := Z.land (htonl f) MPLS_TTL_MASK in
         set_ttl_bits m (htonl (if 0 <? ttl then ttl - 1 else ttl))).

(** ** Pushing and popping headers *)

Definition eth_size (pr : protocols_std) : Z :=
  if eth_snap pr =? 0 then ETH_HEADER_LEN else ETH_HEADER_LEN + LLC_HEADER_LEN + SNAP_HEADER_LEN.

(** [ofpbuf_put_uninit]: the packet may move to [at_]. *)
Definition put_uninit (n at_ : Z) : edit unit := fun b => Some (tt, (Ofpbuf.ofpbuf_put_uninit junk b n at_).1).

Definition unless_null (p q : Z) : Z := if p =? 0 then 0 else q.

(** The length of the frame, in the type field, when there is a SNAP header. *)
Definition add_length (p n : Z) : edit unit :=
  t <- rd 2 (eth_type p) ;; wr 2 (eth_type p) (htons (u16 (htons t + n))).

(** The new header takes the type of what follows; the frame takes the type of the
    header. *)
Definition retype (next new_eth new_snap ethertype n : Z) : edit unit :=
  if negb (new_snap =? 0) then
    t <- rd 2 (snap_type new_snap) ;; wr 2 next t ;;;
    wr 2 (snap_type new_snap) (htons ethertype) ;;; add_length new_eth n
  else
    t <- rd 2 (eth_type new_eth) ;; wr 2 next t ;;; wr 2 (eth_type new_eth) (htons ethertype).

(** The new tag is a copy of the outermost one, if there is one. *)
Definition push_vlan_finish (snap ethertype new_eth push new_vlan : Z) : edit unit :=
  (if new_vlan =? 0 then wr 2 (vlan_tci push) 0 else t <- rd 2 (vlan_tci new_vlan) ;; wr 2 (vlan_tci push) t) ;;;
  retype (vlan_next_type push) new_eth (unless_null snap (new_eth + ETH_HEADER_LEN + LLC_HEADER_LEN))
    ethertype VLAN_HEADER_LEN.

Definition push_vlan_edit (pr : protocols_std) (ethertype at_ : Z) : edit unit :=
  room <- the Ofpbuf.ofpbuf_headroom ;;
  if VLAN_HEADER_LEN <=? room then
    move_data (- VLAN_HEADER_LEN) ;;;
    new_eth <- the Ofpbuf.data ;;
    memmove new_eth (eth pr) (eth_size pr) ;;;
    push_vlan_finish (eth_snap pr) ethertype new_eth (new_eth + eth_size pr) (vlan pr)
  else
    put_uninit VLAN_HEADER_LEN at_ ;;;
    new_eth <- the Ofpbuf.data ;; size <- the Ofpbuf.size ;;
    let push := new_eth + eth_size pr in
    memmove (push + VLAN_HEADER_LEN) push (size - eth_size pr) ;;;
    push_vlan_finish (eth_snap pr) ethertype new_eth push (unless_null (vlan pr) (push + VLAN_HEADER_LEN)).

Definition push_vlan (p : packet) (ethertype at_ : Z) : option packet :=
  let p := packet_handle_std_validate p in
  if eth (headers p) =? 0 then Some p
  else p ← run p (push_vlan_edit (headers p) ethertype at_); Some (with_valid p false).

Definition pop_vlan_edit (pr : protocols_std) : edit unit :=
  t <- rd 2 (vlan_next_type (vlan pr)) ;;
  (if negb (eth_snap pr =? 0) then wr 2 (snap_type (eth_snap pr)) t ;;; add_length (eth pr) (- VLAN_HEADER_LEN)
   else wr 2 (eth_type (eth pr)) t) ;;;
  move_data VLAN_HEADER_LEN ;;;
  d <- the Ofpbuf.data ;; memmove d (eth pr) (vlan pr - eth pr).

Definition pop_vlan (p : packet) : option packet :=
  let p := packet_handle_std_validate p in
  if negb (eth (headers p) =? 0) && negb (vlan (headers p) =? 0) then
    p ← run p (pop_vlan_edit (headers p)); Some (with_valid p false)
  else Some p.

(** What the new MPLS header says: the one below it, or the TTL of the IP header. *)
Definition mpls_fields (new_mpls new_ipv4 new_ipv6 : Z) : edit Z :=
  if negb (new_mpls =? 0) then f <- rd 4 new_mpls ;; eret (Z.land f (not32 (htonl MPLS_S_MASK)))
  else if negb (new_ipv4 =? 0) then
    t <- rd 1 (ip_ttl new_ipv4) ;; eret (Z.lor (htonl (Z.land t MPLS_TTL_MASK)) (htonl MPLS_S_MASK))
  else if negb (new_ipv6 =? 0) then
    t <- rd 1 (ipv6_hop_limit new_ipv6) ;; eret (Z.lor (htonl (Z.land t MPLS_TTL_MASK)) (htonl MPLS_S_MASK))
  else eret (htonl MPLS_S_MASK).

Definition set_last_type (vlan snap eth ethertype : Z) : edit unit :=
  if negb (vlan =? 0) then wr 2 (vlan_next_type vlan) (htons ethertype)
  else if negb (snap =? 0) then wr 2 (snap_type snap) (htons ethertype)
  else wr 2 (eth_type eth) (htons ethertype).

Definition head_offset (pr : protocols_std) : Z :=
  if vlan_last pr =? 0 then eth_size pr else vlan_last pr - eth pr + VLAN_HEADER_LEN.

Definition push_mpls_edit (pr : protocols_std) (ethertype at_ : Z) : edit unit :=
  let finish new_eth push new_snap new_vlan new_mpls new_ipv4 new_ipv6 :=
    f <- mpls_fields new_mpls new_ipv4 new_ipv6 ;; wr 4 push f ;;;
    set_last_type new_vlan new_snap new_eth ethertype ;;;
    (if new_snap =? 0 then eret tt else add_length new_eth MPLS_HEADER_LEN) in
  room <- the Ofpbuf.ofpbuf_headroom ;;
  if MPLS_HEADER_LEN <=? room then
    move_data (- MPLS_HEADER_LEN) ;;;
    new_eth <- the Ofpbuf.data ;;
    memmove new_eth (eth pr) (head_offset pr) ;;;
    finish new_eth (new_eth + head_offset pr)
      (unless_null (eth_snap pr) (eth_snap pr - MPLS_HEADER_LEN))
      (unless_null (vlan_last pr) (vlan_last pr - MPLS_HEADER_LEN)) (mpls pr) (ipv4 pr) (ipv6 pr)
  else
    put_uninit MPLS_HEADER_LEN at_ ;;;
    new_eth <- the Ofpbuf.data ;; size <- the Ofpbuf.size ;;
    let push := new_eth + head_offset pr in
    memmove (push + MPLS_HEADER_LEN) push (size - head_offset pr) ;;;
    finish new_eth push
      (unless_null (eth_snap pr) (eth_snap pr - eth pr + new_eth))
      (unless_null (vlan_last pr) (vlan_last pr - eth pr + new_eth))
      (unless_null (mpls pr) (push + MPLS_HEADER_LEN)) (unless_null (ipv4 pr) (push + MPLS_HEADER_LEN))
      (unless_null (ipv6 pr) (push + MPLS_HEADER_LEN)).

Definition push_mpls (p : packet) (ethertype at_ : Z) : option packet :=
  let p := packet_handle_std_validate p in
  if eth (headers p) =? 0 then Some p
  else p ← run p (push_mpls_edit (headers p) ethertype at_); Some (with_valid p false).

Definition pop_mpls_edit (pr : protocols_std) (ethertype : Z) : edit unit :=
  set_last_type (vlan_last pr) (eth_snap pr) (eth pr) ethertype ;;;
  move_data MPLS_HEADER_LEN ;;;
  d <- the Ofpbuf.data ;; memmove d (eth pr) (mpls pr - eth pr) ;;;
  (* the length of the frame grows *)
  (if eth_snap pr =? 0 then eret tt else add_length d MPLS_HEADER_LEN).

Definition pop_mpls (p : packet) (ethertype : Z) : option packet :=
  let p := packet_handle_std_validate p in
  if negb (eth (headers p) =? 0) && negb (mpls (headers p) =? 0) then
    p ← run p (pop_mpls_edit (headers p) ethertype); Some (with_valid p false)
  else Some p.

(** [eth] and [vlan] are the pointers of before, also when the packet has moved. *)
Definition push_pbb_edit (pr : protocols_std) (ethertype at_ : Z) : edit unit :=
  let snap_of new_eth := unless_null (eth_snap pr) (new_eth + ETH_HEADER_LEN + PBB_HEADER_LEN + LLC_HEADER_LEN) in
  let finish new_eth push new_pbb :=
    (if new_pbb =? 0 then wr 4 (pbb_id push) 0 else i <- rd 4 (pbb_id new_pbb) ;; wr 4 (pbb_id push) i) ;;;
    i <- rd 4 (pbb_id push) ;;
    (if vlan pr =? 0 then wr 4 (pbb_id push) i
     else t <- rd 2 (vlan_tci (vlan pr)) ;;
          wr 4 (pbb_id push) (Z.land i (u32 (Z.shiftl (Z.land t (not32 (htonl VLAN_PCP_MASK))) 16)))) ;;;
    memmove (c_eth_dst push) (eth pr) ETH_HEADER_LEN ;;;
    retype (pbb_next_type push) new_eth (snap_of new_eth) ethertype PBB_HEADER_LEN in
  room <- the Ofpbuf.ofpbuf_headroom ;;
  if PBB_HEADER_LEN <=? room then
    move_data (- PBB_HEADER_LEN) ;;;
    new_eth <- the Ofpbuf.data ;;
    memmove new_eth (eth pr) (eth_size pr) ;;;
    finish new_eth (new_eth + eth_size pr) (pbb pr)
  else
    put_uninit PBB_HEADER_LEN at_ ;;;
    new_eth <- the Ofpbuf.data ;; size <- the Ofpbuf.size ;;
    let push := new_eth + ETH_HEADER_LEN in
    memmove (push + PBB_HEADER_LEN) push (size - ETH_HEADER_LEN) ;;;
    finish new_eth push (unless_null (pbb pr) (push + PBB_HEADER_LEN)).

Definition push_pbb (p : packet) (ethertype at_ : Z) : option packet :=
  let p := packet_handle_std_validate p in
  if eth (headers p) =? 0 then Some p
  else p ← run p (push_pbb_edit (headers p) ethertype at_); Some (with_valid p false).

Definition pop_pbb_edit (pr : protocols_std) : edit unit :=
  let move_size := c_eth_dst (pbb pr) - eth pr in
  d <- the Ofpbuf.data ;; size <- the Ofpbuf.size ;;
  memmove d (c_eth_dst (pbb pr)) (size - move_size) ;;;
  fun b => Some (tt, Ofpbuf.with_size b (u64 (Ofpbuf.size b - move_size))).

Definition pop_pbb (p : packet) : option packet :=
  let p := packet_handle_std_validate p in
  if negb (eth (headers p) =? 0) && negb (pbb (headers p) =? 0) then
    p ← run p (pop_pbb_edit (headers p)); Some (with_valid p false)
  else Some p.

Definition set_queue (p : packet) (queue_id : Z) : packet := with_out_queue p queue_id.

Definition group (p : packet) (group_id : Z) : packet := with_out p group_id (out_port p) (out_port_max_len p).

Definition set_nw_ttl (p : packet) (ttl : Z) : option packet :=
  let p := packet_handle_std_validate p in
  if negb (ipv4 (headers p) =? 0) then run p (set_ip_ttl (ipv4 (headers p)) ttl)
  else if negb (ipv6 (headers p) =? 0) then run p (wr 1 (ipv6_hop_limit (ipv6 (headers p))) ttl)
  else Some p.

Definition dec_nw_ttl (p : packet) : option packet :=
  let p := packet_handle_std_validate p in
  if negb (ipv4 (headers p) =? 0) then
    run p (ttl <- rd 1 (ip_ttl (ipv4 (headers p))) ;;
      if 0 <? ttl then set_ip_ttl (ipv4 (headers p)) (ttl - 1) else eret tt)
  else if negb (ipv6 (headers p) =? 0) then
    run p (ttl <- rd 1 (ipv6_hop_limit (ipv6 (headers p))) ;;
      if 0 <? ttl then wr 1 (ipv6_hop_limit (ipv6 (headers p))) (ttl - 1) else eret tt)
  else Some p.


(** [dp_exp_action]: no experimenter action is known. *)
Definition dp_exp_action (p : packet) : packet := p.

(** [at_] is where a push may move the packet. *)
Definition dp_execute_action (p : packet) (a : ofl_action) (at_ : Z) : option packet :=
  match a with
  | Act_set_field f => set_field p f
  | Act_output port max_len => Some (output p port max_len)
  | Act_copy_ttl_out => copy_ttl_out p
  | Act_copy_ttl_in => copy_ttl_in p
  | Act_set_mpls_ttl ttl => set_mpls_ttl p ttl
  | Act_dec_mpls_ttl => dec_mpls_ttl p
  | Act_push_vlan e => push_vlan p e at_
  | Act_pop_vlan => pop_vlan p
  | Act_push_mpls e => push_mpls p e at_
  | Act_pop_mpls e => pop_mpls p e
  | Act_set_queue q => Some (set_queue p q)
  | Act_group g => Some (group p g)
  | Act_set_nw_ttl ttl => set_nw_ttl p ttl
  | Act_dec_nw_ttl => dec_nw_ttl p
  | Act_push_pbb e => push_pbb p e at_
  | Act_pop_pbb => pop_pbb p
  | Act_experimenter _ => Some (dp_exp_action p)
  end.
End actions.

(** * Running an edit *)

Import Ofpbuf.

(** The edit returns [x] and leaves the packet with the bytes [bs], at its place. *)
Definition eruns {A} (c : edit A) (b : ofpbuf) (x : A) (bs : list Z) : Prop :=
  exists b', c b = Some (x, b') /\ edited b b' bs.

Lemma edited_refl b : buf_ok b -> edited b b (bytes b).
Proof. by split. Qed.

Lemma edited_trans b b1 b2 bs1 bs2 : edited b b1 bs1 -> edited b1 b2 bs2 -> edited b b2 bs2.
Proof. intros [] []. split; congruence. Qed.

Lemma eruns_ret {A} (x : A) b : buf_ok b -> eruns (eret x) b x (bytes b).
Proof. intros Hok. exists b. by split; [| apply edited_refl]. Qed.

Lemma eruns_bind {A B} (c : edit A) (k : A -> edit B) b x y bs bs' :
  eruns c b x bs -> (forall b1, edited b b1 bs -> eruns (k x) b1 y bs') -> eruns (ebind c k) b y bs'.
Proof.
  intros (b1 & Hc & He) Hk. destruct (Hk b1 He) as (b2 & Hc2 & He2). exists b2. unfold ebind. rewrite Hc.
  cbn [mbind option_bind]. split; [done |]. by eapply edited_trans.
Qed.

Lemma eruns_rd b (i n : nat) p :
  buf_ok b -> p = data b + i -> i + n <= size b -> eruns (rd n p) b (le_load (slice i n (bytes b))) (bytes b).
Proof.
  intros Hok -> Hn. exists b. unfold rd. rewrite load_at by done. split; [done | by apply edited_refl].
Qed.

Lemma eruns_wr b (i n : nat) p v :
  buf_ok b -> p = data b + i -> i + n <= size b -> eruns (wr n p v) b tt (patch i (le_store n v) (bytes b)).
Proof.
  intros Hok -> Hn. unfold eruns, wr.
  destruct (store_at b i (le_store n v) Hok) as (b' & -> & He); [by rewrite le_store_length |]. by exists b'.
Qed.

Lemma run_runs p c bs :
  eruns c (buffer p) tt bs -> exists p', run p c = Some p' /\ edited (buffer p) (buffer p') bs /\ p' = with_buffer p (buffer p').
Proof.
  intros (b' & Hc & He). unfold run. rewrite Hc. cbn [mbind option_bind]. by exists (with_buffer p b').
Qed.

Lemma eruns_rd_bind {B} (i n : nat) p (k : Z -> edit B) b y bs' :
  buf_ok b -> p = data b + i -> i + n <= size b ->
  eruns (k (le_load (slice i n (bytes b)))) b y bs' -> eruns (ebind (rd n p) k) b y bs'.
Proof.
  intros Hok -> Hn (b' & Hk & He). exists b'. unfold ebind, rd. rewrite load_at by done. by split.
Qed.

(** ** The checksum of the IPv4 header *)

Lemma htons_pair lo hi : byte_ok lo -> byte_ok hi -> htons (hi + Z.shiftl lo 8) = lo + 256 * hi.
Proof.
  unfold in_range. change (2 ^ 8) with 256. intros Hl Hh. rewrite Z.shiftl_mul_pow2 by lia. change (2 ^ 8) with 256.
  unfold htons, bswap, be_load. cbn [le_store rev app le_load]. lia.
Qed.

Lemma le_load2 i bs : (i + 2 <= length bs)%nat ->
  le_load (slice i 2 bs) = le_load (slice i 1 bs) + 256 * le_load (slice (i + 1) 1 bs).
Proof.
  intros Hl. unfold slice. rewrite <- (drop_drop bs 1 i) by lia.
  assert (2 <= length (drop i bs))%nat as Hd by (rewrite length_drop; lia).
  destruct (drop i bs) as [| a [| c r]]; simpl in Hd; [lia | lia |]. simpl. lia.
Qed.

Lemma byte_at bs i : bytes_ok bs -> byte_ok (le_load (slice i 1 bs)).
Proof.
  intros Hb. unfold slice. assert (bytes_ok (drop i bs)) as Hd by by apply Forall_drop.
  destruct (drop i bs) as [| a r]; simpl; [unfold in_range; lia |]. apply bytes_ok_cons in Hd as [Ha _].
  unfold in_range. change (2 ^ 8) with 256. lia.
Qed.

(** The sum of the header after its TTL and its checksum are changed. *)
Definition ttl_word (h : nat) (bs : list Z) (ttl : Z) : Z := ttl + 256 * le_load (slice (h + 9) 1 bs).

Lemma set_ip_ttl_runs b (h : nat) p ttl :
  buf_ok b -> bytes_ok (bytes b) -> p = data b + h -> h + 20 <= size b -> byte_ok ttl ->
  eruns (set_ip_ttl p ttl) b tt
    (patch (h + 8) (le_store 1 ttl) (patch (h + 10)
      (le_store 2 (recalc_csum16 (le_load (slice (h + 10) 2 (bytes b)))
        (ttl_word h (bytes b) (le_load (slice (h + 8) 1 (bytes b)))) (ttl_word h (bytes b) ttl))) (bytes b))).
Proof.
  intros Hok Hb -> Hh Ht. unfold set_ip_ttl, set_ip_word, ip_proto, ip_ttl, ip_csum.
  apply (eruns_rd_bind (h + 9)); [done | lia | lia |].
  apply (eruns_rd_bind (h + 8)); [done | lia | lia |].
  rewrite !htons_pair by (done || by apply byte_at).
  eapply eruns_bind.
  - apply (eruns_rd_bind (h + 10)); [done | lia | lia |]. apply eruns_wr with (i := (h + 10)%nat); [done | lia | lia].
  - intros b1 [E1 E2 E3 E4 E5 E6 E7]. unfold ttl_word. rewrite <- E7. apply eruns_wr; [done | rewrite E3; lia | lia].
Qed.

Lemma patch_byte_word i v bs :
  bytes_ok bs -> byte_ok v -> (i + 2 <= length bs)%nat ->
  patch i (le_store 1 v) bs = patch i (le_store 2 (v + 256 * le_load (slice (i + 1) 1 bs))) bs.
Proof.
  intros Hb Hv Hl. unfold patch. f_equal. pose proof (byte_at bs (i + 1) Hb) as Hw. unfold slice in *.
  rewrite !le_store_length. assert (2 <= length (drop i bs))%nat as Hd by (rewrite length_drop; lia).
  rewrite <- !(drop_drop bs) in *. destruct (drop i bs) as [| a [| c r]]; simpl in Hd; [lia | lia |].
  unfold in_range in *. change (2 ^ 8) with 256 in *. simpl in *.
  rewrite drop_0. f_equal; [lia |]. f_equal; lia.
Qed.

Lemma slice_other i n j new bs :
  (i + n <= j \/ j + length new <= i)%nat -> (j + length new <= length bs)%nat -> (i + n <= length bs)%nat ->
  slice i n (patch j new bs) = slice i n bs.
Proof.
  intros Hd Hj Hi. unfold patch, slice. destruct Hd as [Hd | Hd].
  - rewrite drop_app_le by (rewrite length_take; lia). rewrite take_app_le by (rewrite length_drop, length_take; lia).
    rewrite skipn_firstn_comm, take_take. f_equal. lia.
  - rewrite drop_app_ge by (rewrite length_take; lia). rewrite length_take.
    rewrite drop_app_ge by lia. rewrite drop_drop. do 2 f_equal. lia.
Qed.

(** A header of [n] bytes at [h]: the sum follows the two words. *)
Lemma ttl_sum bs (h n : nat) ttl c' :
  bytes_ok bs -> (20 <= n)%nat -> (h + n <= length bs)%nat -> byte_ok ttl -> in_range 16 c' ->
  let bs1 := patch (h + 10) (le_store 2 c') bs in
  word_sum (slice h n (patch (h + 8) (le_store 1 ttl) bs1)) =
  word_sum (slice h n bs) - le_load (slice (h + 10) 2 bs) + c'
    - ttl_word h bs (le_load (slice (h + 8) 1 bs)) + ttl_word h bs ttl.
Proof.
  intros Hb Hn Hl Ht Hc bs1.
  assert (bytes_ok bs1) as Hb1.
  { unfold bs1, patch, bytes_ok. rewrite !Forall_app. split_and!; [by apply Forall_take | apply le_store_ok | by apply Forall_drop]. }
  assert (length bs1 = length bs) as Hl1 by (apply patch_length; rewrite le_store_length; lia).
  assert (slice (h + 9) 1 bs1 = slice (h + 9) 1 bs) as H9 by (apply slice_other; rewrite ?le_store_length; lia).
  assert (slice (h + 8) 2 bs1 = slice (h + 8) 2 bs) as H8 by (apply slice_other; rewrite ?le_store_length; lia).
  pose proof (byte_at bs (h + 9) Hb) as Hp. unfold in_range in *. change (2 ^ 8) with 256 in *. change (2 ^ 16) with 65536 in *.
  rewrite patch_byte_word by (done || lia). replace (h + 8 + 1)%nat with (h + 9)%nat by lia. rewrite H9.
  rewrite slice_patch_within by (rewrite ?le_store_length; lia).
  rewrite (word_sum_patch _ 4) by (rewrite ?slice_length; lia).
  replace (slice (2 * 4) 2 (slice h n bs1)) with (slice (h + 8) 2 bs1)
    by (unfold slice; rewrite skipn_firstn_comm, take_take, drop_drop; f_equal; lia).
  rewrite H8. unfold bs1. rewrite slice_patch_within by (rewrite ?le_store_length; lia).
  rewrite (word_sum_patch _ 5) by (rewrite ?slice_length; lia).
  replace (slice (2 * 5) 2 (slice h n bs)) with (slice (h + 10) 2 bs)
    by (unfold slice; rewrite skipn_firstn_comm, take_take, drop_drop; f_equal; lia).
  rewrite (le_load2 (h + 8)) by lia. replace (h + 8 + 1)%nat with (h + 9)%nat by lia. unfold ttl_word. lia.
Qed.

(** A header whose words, the checksum included, sum up to nothing. *)
Definition header_checks (hdr : list Z) : Prop := word_sum hdr mod 65535 = 0.

Lemma ttl_checks bs (h n : nat) ttl :
  let c := le_load (slice (h + 10) 2 bs) in
  let o := ttl_word h bs (le_load (slice (h + 8) 1 bs)) in
  bytes_ok bs -> (20 <= n)%nat -> (h + n <= length bs)%nat -> byte_ok ttl ->
  carry_free16 c o (ttl_word h bs ttl) -> header_checks (slice h n bs) ->
  header_checks (slice h n (patch (h + 8) (le_store 1 ttl)
    (patch (h + 10) (le_store 2 (recalc_csum16 c o (ttl_word h bs ttl))) bs))).
Proof.
  intros c o Hb Hn Hl Ht Hcf Hk. unfold header_checks in *.
  pose proof (byte_at bs (h + 9) Hb) as Hp. pose proof (byte_at bs (h + 8) Hb) as Ho.
  assert (in_range 16 c) as Hc.
  { unfold c. pose proof (le_load_range (slice (h + 10) 2 bs)) as Hr. rewrite slice_length in Hr by lia. apply Hr.
    unfold slice, bytes_ok. by apply Forall_take, Forall_drop. }
  assert (forall t, byte_ok t -> 0 <= ttl_word h bs t < 65536) as Hw
    by (intros t Hbt; unfold ttl_word, in_range in *; change (2 ^ 8) with 256 in *; lia).
  assert (in_range 16 (recalc_csum16 c o (ttl_word h bs ttl))) as Hc'.
  { rewrite recalc_csum16_unfold by by apply Hw. apply compl16_range. }
  rewrite ttl_sum by done. fold c o.
  pose proof (recalc_csum16_checks c o (ttl_word h bs ttl) (word_sum (slice h n bs) - c) (Hw _ Ho) (Hw _ Ht) Hcf) as Hr.
  unfold checks in Hr. rewrite compl16_eq in Hr. unfold in_range in Hc, Hc'. change (2 ^ 16) with 65536 in *.
  rewrite compl16_eq in Hr. lia.
Qed.

(** Going one down never loses the carry. *)
Lemma dec_carry_free c h bs t : byte_ok t -> bytes_ok bs -> 0 < t -> carry_free16 c (ttl_word h bs t) (ttl_word h bs (t - 1)).
Proof.
  intros Ht Hb H0. pose proof (byte_at bs (h + 9) Hb). unfold carry_free16, ttl_word, in_range in *. change (2 ^ 8) with 256 in *.
  rewrite !compl16_eq. lia.
Qed.


(** The packet after the TTL of the IPv4 header at [h] was set: the TTL and the
    checksum differ, and a header that checked still does. *)
Definition ttl_set_to (p p' : packet) (h n : nat) (ttl : Z) : Prop :=
  exists c, edited (buffer p) (buffer p')
    (patch (h + 8) (le_store 1 ttl) (patch (h + 10) (le_store 2 c) (bytes (buffer p)))) /\
  (header_checks (slice h n (bytes (buffer p))) -> header_checks (slice h n (bytes (buffer p')))).

Lemma set_ip_ttl_packet p (h n : nat) ttl :
  let bs := bytes (buffer p) in
  buf_ok (buffer p) -> bytes_ok bs -> (20 <= n)%nat -> h + n <= size (buffer p) -> byte_ok ttl ->
  carry_free16 (le_load (slice (h + 10) 2 bs)) (ttl_word h bs (le_load (slice (h + 8) 1 bs))) (ttl_word h bs ttl) ->
  exists p', run p (set_ip_ttl (data (buffer p) + h) ttl) = Some p' /\ ttl_set_to p p' h n ttl /\
    p' = with_buffer p (buffer p').
Proof.
  intros bs Hok Hb Hn Hs Ht Hcf.
  destruct (run_runs p _ _ (set_ip_ttl_runs (buffer p) h _ ttl Hok Hb eq_refl ltac:(lia) Ht)) as (p' & -> & He & Hp).
  exists p'. split_and!; [done | | done]. eexists. split; [exact He |]. intros Hc. rewrite (ed_bytes _ _ _ He).
  apply ttl_checks; try done. pose proof (bytes_length _ Hok). unfold bs in *. lia.
Qed.

(** C24. Setting and decrementing the TTL of an IPv4 packet change its TTL and the
    checksum of its header, of whatever length the header is, and nothing else of the
    packet. Decrementing never breaks a checksum that was right, and stops at zero;
    setting keeps it right except for the one checksum whose carry
    [recalc_csum16] loses. *)
Theorem nw_ttl_checksum `{Parser} p (h n : nat) ttl :
  let v := packet_handle_std_validate p in
  let bs := bytes (buffer p) in
  let old := le_load (slice (h + 8) 1 bs) in
  buf_ok (buffer p) -> bytes_ok bs -> ipv4 (headers v) <> 0 -> ipv4 (headers v) = data (buffer p) + h ->
  (20 <= n)%nat -> h + n <= size (buffer p) -> byte_ok ttl ->
  (exists p', dec_nw_ttl p = Some p' /\
     if 0 <? old then ttl_set_to p p' h n (old - 1) else p' = v) /\
  (carry_free16 (le_load (slice (h + 10) 2 bs)) (ttl_word h bs old) (ttl_word h bs ttl) ->
   exists p', set_nw_ttl p ttl = Some p' /\ ttl_set_to p p' h n ttl).
Proof.
  intros v bs old Hok Hb H0 Hp Hn Hs Ht. unfold dec_nw_ttl, set_nw_ttl. fold v.
  rewrite (proj2 (Z.eqb_neq _ _) H0). cbn [negb]. rewrite Hp.
  assert (buffer v = buffer p) as Hv by apply validate_buffer. subst old bs. unfold ttl_set_to in *. rewrite <- Hv in *. split.
  - pose proof (byte_at _ (h + 8) Hb) as Ho.
    assert (forall k : Z -> edit unit, run v (ebind (rd 1 (ip_ttl (data (buffer v) + h))) k) = run v (k (le_load (slice (h + 8) 1 (bytes (buffer v)))))) as Hrd.
    { intros k. unfold run, ebind, rd, ip_ttl.
      replace (data (buffer v) + h + 8) with (data (buffer v) + (h + 8)%nat) by lia.
      rewrite load_at by (done || lia). done. }
    rewrite Hrd. destruct (Z.ltb_spec 0 (le_load (slice (h + 8) 1 (bytes (buffer v))))).
    + destruct (set_ip_ttl_packet v h n (le_load (slice (h + 8) 1 (bytes (buffer v))) - 1)) as (p' & -> & Hset & _);
        try done; [unfold in_range in *; lia | by apply dec_carry_free |]. exists p'. split; [done | exact Hset].
    + unfold run, eret. cbn [mbind option_bind]. exists (with_buffer v (buffer v)). by destruct v.
  - intros Hcf. destruct (set_ip_ttl_packet v h n ttl) as (p' & -> & Hset & _); try done. exists p'. split; [done | exact Hset].
Qed.


(** ** Room for a header *)

Lemma ebind_some {A B} (c : edit A) (k : A -> edit B) b x b' : c b = Some (x, b') -> ebind c k b = k x b'.
Proof. intros H. unfold ebind. by rewrite H. Qed.

Lemma ebind_none {A B} (c : edit A) (k : A -> edit B) b : c b = None -> ebind c k b = None.
Proof. intros H. unfold ebind. by rewrite H. Qed.

Lemma memmove_at b (i j n : nat) :
  buf_ok b -> i + n <= size b -> j + n <= size b ->
  exists b', memmove (data b + j) (data b + i) n b = Some (tt, b') /\
    edited b b' (patch j (slice i n (bytes b)) (bytes b)).
Proof.
  intros Hok Hi Hj. unfold memmove. rewrite (proj2 (Z.ltb_ge _ _)), Nat2Z.id by lia.
  unfold ebind, rd_bytes, wr_bytes. rewrite load_at by done. cbn [mbind option_bind].
  pose proof (bytes_length b Hok) as Hl.
  destruct (store_at b j (slice i n (bytes b)) Hok) as (b' & -> & He); [rewrite slice_length; lia |]. by exists b'.
Qed.

(** [b'] is [b] with [n] bytes of room at offset [k]. *)
Definition opened (b b' : ofpbuf) (n k : nat) : Prop :=
  buf_ok b' /\ (0 < base b -> 0 < base b') /\ size b' = size b + n /\
  exists g, length g = n /\ bytes b' = take k (bytes b) ++ g ++ drop k (bytes b).

Lemma head_gap b (n k : nat) :
  buf_ok b -> n <= ofpbuf_headroom b -> k <= size b -> size b + n < 2 ^ 64 ->
  exists b', opened b b' n k /\ data b' = data b - n /\
    forall rest : Z -> edit unit,
      (move_data (- n) ;;; d <- the data ;; memmove d (data b) k ;;; rest d) b = rest (data b') b'.
Proof.
  intros Hok Hn Hk Hs. destruct (grow_head b n Hok Hn) as (Hok1 & g & Hg & Hb1).
  set (b1 := with_data b (data b - n) (size b + n)) in *. pose proof (bytes_length b Hok) as Hl.
  destruct (memmove_at b1 n 0 k Hok1) as (b2 & Hm & [E1 E2 E3 E4 E5 E6 E7]); [cbn; lia | cbn; lia |].
  exists b2. split; [| split].
  - split; [done |]. split; [by rewrite E2 |]. split; [done |]. exists (slice k n (g ++ bytes b)).
    split; [apply slice_length; rewrite length_app; destruct Hok; lia |].
    rewrite E7, Hb1. unfold patch, slice. rewrite drop_app_length' by done. rewrite take_0, app_nil_l.
    rewrite length_take, Nat.min_l by (destruct Hok; lia). f_equal. cbn [Nat.add].
    rewrite <- (take_drop n (drop k (g ++ bytes b))) at 1. f_equal. rewrite drop_drop, drop_app_ge by lia. f_equal. lia.
  - rewrite E3. done.
  - intros rest. rewrite (ebind_some _ _ _ tt b1).
    + rewrite (ebind_some _ _ _ (data b1) b1) by done. rewrite (ebind_some _ _ _ tt b2); [by rewrite E3 |].
      rewrite <- Hm. f_equal; cbn; lia.
    + unfold move_data, b1. unfold wrap. rewrite Z.sub_opp_r, Z.add_opp_r, Z.mod_small by (destruct Hok; lia). done.
Qed.

Lemma tail_gap junk b (n k : nat) at_ :
  buf_ok b -> 0 < at_ -> k <= size b -> n <= 32 -> ofpbuf_tailroom b < n \/ 2 * n <= ofpbuf_tailroom b ->
  exists b', opened b b' n k /\
    forall rest : Z -> edit unit,
      (put_uninit junk n at_ ;;; d <- the data ;; s <- the size ;;
       memmove (d + k + n) (d + k) (s - k) ;;; rest d) b = rest (data b') b'.
Proof.
  intros Hok Hat Hk Hn Hroom. destruct (put_uninit_view junk b n at_ Hok Hat) as (Hok1 & Hs1 & (g & Hg & Hb1) & _ & Ht).
  set (b1 := (ofpbuf_put_uninit junk b n at_).1) in *. pose proof (bytes_length b Hok) as Hl.
  pose proof (bytes_length b1 Hok1) as Hl1. assert (n <= ofpbuf_tailroom b1) as Ht'
    by (rewrite Ht; destruct (Z.ltb_spec (ofpbuf_tailroom b) n); lia).
  assert (0 <= size b) by by destruct Hok.
  set (moved := slice k (Z.to_nat (size b1 - k)) (bytes b1)).
  assert (length moved = Z.to_nat (size b1 - k)) as Hlm by (apply slice_length; lia).
  destruct (store_over b1 (k + n) moved Hok1) as (b2 & Hst & [E1 E2 E3 E4 E5 E6 E7]); [lia | lia |].
  exists b2. split.
  - split; [done |]. split; [rewrite E2; by apply put_uninit_base |]. split; [congruence |]. exists (slice k n (bytes b1)). split; [apply slice_length; lia |].
    rewrite E7. rewrite <- take_take_drop, <- app_assoc. f_equal; [rewrite Hb1; apply take_app_le; lia |].
    f_equal. unfold moved, slice. rewrite take_take, Hb1, drop_app_le, take_app_le by (rewrite ?length_drop; lia).
    apply take_ge. rewrite length_drop. lia.
  - intros rest. rewrite (ebind_some _ _ _ tt b1), (ebind_some _ _ _ (data b1) b1), (ebind_some _ _ _ (size b1) b1) by done.
    rewrite (ebind_some _ _ _ tt b2); [by rewrite E3 |]. unfold memmove. rewrite (proj2 (Z.ltb_ge _ _)) by lia.
    unfold ebind, rd_bytes. rewrite load_at by (done || lia). cbn [mbind option_bind]. unfold wr_bytes.
    replace (data b1 + k + n) with (data b1 + (k + n)%nat) by lia. fold moved. rewrite Hst. done.
Qed.

(** The move of the packet writes [n] bytes too many. *)
Lemma tail_gap_overruns junk b (n k : nat) at_ (rest : Z -> edit unit) :
  buf_ok b -> 0 < at_ -> k <= size b -> n <= ofpbuf_tailroom b < 2 * n ->
  (put_uninit junk n at_ ;;; d <- the data ;; s <- the size ;;
   memmove (d + k + n) (d + k) (s - k) ;;; rest d) b = None.
Proof.
  intros Hok Hat Hk Hroom. destruct (put_uninit_view junk b n at_ Hok Hat) as (Hok1 & Hs1 & _ & _ & Ht).
  set (b1 := (ofpbuf_put_uninit junk b n at_).1) in *. pose proof (bytes_length b1 Hok1) as Hl1.
  rewrite (proj2 (Z.ltb_ge _ _)) in Ht by lia. assert (0 <= size b) by by destruct Hok.
  rewrite (ebind_some _ _ _ tt b1), (ebind_some _ _ _ (data b1) b1), (ebind_some _ _ _ (size b1) b1) by done.
  apply ebind_none. unfold memmove. rewrite (proj2 (Z.ltb_ge _ _)) by lia.
  unfold ebind, rd_bytes. rewrite load_at by (done || lia). cbn [mbind option_bind]. unfold wr_bytes.
  rewrite store_outside; [done |]. rewrite slice_length by lia.
  assert (base b1 + allocated b1 = data b1 + size b1 + ofpbuf_tailroom b1)
    by (unfold ofpbuf_tailroom, ofpbuf_end, ofpbuf_tail; lia). lia.
Qed.
(** ** VLAN tags *)

Lemma slice_mid (x y z : list Z) i n : i = length x -> n = length y -> slice i n (x ++ y ++ z) = y.
Proof. intros -> ->. unfold slice. by rewrite drop_app_length, take_app_length. Qed.

Lemma patch_mid (x y z new : list Z) i : i = length x -> length new = length y -> patch i new (x ++ y ++ z) = x ++ new ++ z.
Proof.
  intros -> Hl. unfold patch. rewrite take_app_length. do 2 f_equal. rewrite Hl.
  rewrite app_assoc. apply drop_app_length'. by rewrite length_app.
Qed.

Lemma le_store_htons e : le_store 2 (htons e) = be_store 2 e.
Proof.
  unfold htons, bswap, be_load, be_store.
  rewrite <- (le_store_load (rev (le_store 2 e))) at 2; [by rewrite length_rev |].
  apply Forall_rev, le_store_ok.
Qed.

Lemma le_store_load2 t : bytes_ok t -> length t = 2%nat -> le_store 2 (le_load t) = t.
Proof. intros Hb Hl. rewrite <- Hl. by apply le_store_load. Qed.

(** The frame [a ++ t ++ r], with addresses [a] and type [t], gets a tag. *)
Lemma push_vlan_finish_runs b (a t g r : list Z) e (inner : bool) :
  buf_ok b -> bytes b = a ++ t ++ g ++ r ->
  length a = 12%nat -> length t = 2%nat -> length g = 4%nat -> bytes_ok t -> bytes_ok r ->
  (inner = true -> (2 <= length r)%nat) ->
  eruns (push_vlan_finish 0 e (data b) (data b + 14) (if inner then data b + 18 else 0)) b tt
    (a ++ be_store 2 e ++ (if inner then take 2 r else [0; 0]) ++ t ++ r).
Proof.
  intros Hok Hb Ha Ht Hg Hbt Hbr Hin. pose proof (bytes_length b Hok) as Hl. rewrite Hb, !length_app in Hl.
  assert (0 <= size b) as H0 by by destruct Hok. assert (0 <= data b) as Hd by (destruct Hok; lia).
  destruct g as [| g0 [| g1 [| g2 [| g3 []]]]]; try done. cbn [length] in Hl.
  assert (eruns (if (if inner then data b + 18 else 0) =? 0 then wr 2 (vlan_tci (data b + 14)) 0
                 else x <- rd 2 (vlan_tci (if inner then data b + 18 else 0)) ;; wr 2 (vlan_tci (data b + 14)) x) b tt
    (a ++ t ++ (if inner then take 2 r else [0; 0]) ++ [g2; g3] ++ r)) as Htci.
  { destruct inner.
    - rewrite (proj2 (Z.eqb_neq _ _)) by lia. specialize (Hin eq_refl).
      apply (eruns_rd_bind 18); [done | unfold vlan_tci; lia | lia |].
      assert (slice 18 2 (bytes b) = take 2 r) as ->.
      { rewrite Hb. unfold slice. rewrite !app_assoc, drop_app_length'; [done |]. rewrite !length_app. simpl. lia. }
      replace (a ++ t ++ take 2 r ++ [g2; g3] ++ r) with (patch 14 (le_store 2 (le_load (take 2 r))) (bytes b)).
      + apply eruns_wr; [done | unfold vlan_tci; lia | lia].
      + rewrite le_store_load2 by (rewrite ?length_take; (by apply Forall_take) || lia).
        rewrite Hb. change ([g0; g1; g2; g3] ++ r) with ([g0; g1] ++ [g2; g3] ++ r). rewrite app_assoc, (app_assoc a t (take 2 r ++ _)).
        apply patch_mid; rewrite ?length_app, ?length_take; cbn [length]; lia.
    - change (0 =? 0) with true. cbv iota.
      replace (a ++ t ++ [0; 0] ++ [g2; g3] ++ r) with (patch 14 (le_store 2 0) (bytes b)).
      + apply eruns_wr; [done | unfold vlan_tci; lia | lia].
      + rewrite Hb. change ([g0; g1; g2; g3] ++ r) with ([g0; g1] ++ [g2; g3] ++ r). rewrite app_assoc, (app_assoc a t ([0;0] ++ _)).
        apply patch_mid; rewrite ?length_app; simpl; lia. }
  set (tci := if inner then take 2 r else [0; 0]) in *.
  assert (length tci = 2%nat) as Hlt by (unfold tci; destruct inner; [rewrite length_take; specialize (Hin eq_refl); lia | done]).
  unfold push_vlan_finish. eapply eruns_bind; [exact Htci |]. intros b1 [E1 E2 E3 E4 E5 E6 E7].
  unfold retype, unless_null. change (0 =? 0) with true. cbn [negb]. cbv iota.
  apply (eruns_rd_bind 12); [done | unfold eth_type; lia | lia |].
  rewrite E7, slice_mid by lia. eapply eruns_bind.
  { apply eruns_wr with (i := 16%nat); [done | unfold vlan_next_type; lia | lia]. }
  intros b2 [F1 F2 F3 F4 F5 F6 F7]. rewrite E7, le_store_load2 in F7 by done.
  assert (bytes b2 = a ++ t ++ tci ++ t ++ r) as F8.
  { rewrite F7. rewrite (app_assoc a t), (app_assoc (a ++ t) tci), patch_mid by (rewrite ?length_app; simpl; lia).
    by rewrite <- !app_assoc. }
  replace (a ++ be_store 2 e ++ tci ++ t ++ r) with (patch 12 (le_store 2 (htons e)) (bytes b2)).
  - apply eruns_wr; [done | unfold eth_type; lia | lia].
  - rewrite F8, le_store_htons. apply patch_mid; [lia |]. unfold be_store. rewrite length_rev, le_store_length. lia.
Qed.
(** Where [push_vlan] finds room; between four and seven bytes of tailroom its move of
    the packet overruns the buffer. *)
Definition vlan_room (b : ofpbuf) : Prop :=
  4 <= ofpbuf_headroom b \/ ofpbuf_tailroom b < 4 \/ 8 <= ofpbuf_tailroom b.

#[global] Instance vlan_room_dec b : Decision (vlan_room b).
Proof. unfold vlan_room. apply _. Defined.

Lemma push_vlan_edit_spec junk b pr e at_ (a t r : list Z) (inner : bool) :
  buf_ok b -> bytes_ok (bytes b) -> 0 < at_ -> size b + 4 < 2 ^ 64 -> vlan_room b ->
  bytes b = a ++ t ++ r -> length a = 12%nat -> length t = 2%nat -> (inner = true -> (2 <= length r)%nat) ->
  eth pr = data b -> eth_snap pr = 0 -> vlan pr = (if inner then data b + 14 else 0) ->
  exists b', push_vlan_edit junk pr e at_ b = Some (tt, b') /\ buf_ok b' /\ (0 < base b -> 0 < base b') /\ size b' = size b + 4 /\
    bytes b' = a ++ be_store 2 e ++ (if inner then take 2 r else [0; 0]) ++ t ++ r.
Proof.
  intros Hok Hbo Hat Hs Hroom Hb Ha Ht Hin He Hsn Hv. pose proof (bytes_length b Hok) as Hl. rewrite Hb, !length_app in Hl.
  assert (0 <= size b) as H0 by by destruct Hok. assert (0 <= data b) as Hd by (destruct Hok; lia).
  assert (bytes_ok t /\ bytes_ok r) as [Hbt Hbr] by (rewrite Hb in Hbo; unfold bytes_ok in *; rewrite !Forall_app in Hbo; tauto).
  assert (forall b', opened b b' 4 14 -> exists b'',
    push_vlan_finish 0 e (data b') (data b' + 14) (if inner then data b' + 18 else 0) b' = Some (tt, b'') /\ buf_ok b'' /\
    (0 < base b -> 0 < base b'') /\
    size b'' = size b + 4 /\ bytes b'' = a ++ be_store 2 e ++ (if inner then take 2 r else [0; 0]) ++ t ++ r) as Hfin.
  { intros b' (Hok' & Hbs' & Hs' & g & Hg & Hb').
    assert (take 14 (bytes b) = a ++ t /\ drop 14 (bytes b) = r) as [H14 H14'].
    { rewrite Hb, app_assoc, take_app_length', drop_app_length' by (rewrite length_app; lia). done. }
    rewrite H14, H14', <- app_assoc in Hb'.
    destruct (push_vlan_finish_runs b' a t g r e inner) as (b'' & Hf & [E1 E2 E3 E4 E5 E6 E7]); try done.
    exists b''. split_and!; try done; [by rewrite E2 | lia]. }
  unfold push_vlan_edit. rewrite (ebind_some _ _ _ (ofpbuf_headroom b) b) by done.
  unfold eth_size. rewrite Hsn. change (0 =? 0) with true. cbv iota zeta.
  change VLAN_HEADER_LEN with (Z.of_nat 4). change ETH_HEADER_LEN with (Z.of_nat 14). rewrite He.
  destruct (Z.leb_spec (Z.of_nat 4) (ofpbuf_headroom b)) as [Hh | Hh].
  - destruct (head_gap b 4 14 Hok) as (b' & Hop & Hdb & Hrun); [lia | lia | lia |]. rewrite Hrun, Hv.
    destruct (Hfin b' Hop) as (b'' & Hf & Hrest). exists b''. split; [| done]. rewrite <- Hf.
    f_equal. destruct inner; [| done]. rewrite Hdb. lia.
  - destruct (tail_gap junk b 4 14 at_ Hok Hat) as (b' & Hop & Hrun); [lia | lia | unfold vlan_room in Hroom; lia |].
    rewrite Hrun, Hv. destruct (Hfin b' Hop) as (b'' & Hf & Hrest). exists b''. split; [| done]. rewrite <- Hf.
    f_equal. unfold unless_null. destruct inner; [| done]. rewrite (proj2 (Z.eqb_neq _ _)) by lia. lia.
Qed.

Lemma pop_vlan_edit_spec b pr (a t1 tci t2 r : list Z) :
  buf_ok b -> bytes_ok (bytes b) -> size b < 2 ^ 64 ->
  bytes b = a ++ t1 ++ tci ++ t2 ++ r -> length a = 12%nat -> length t1 = 2%nat -> length tci = 2%nat -> length t2 = 2%nat ->
  eth pr = data b -> eth_snap pr = 0 -> vlan pr = data b + 14 ->
  exists b', pop_vlan_edit pr b = Some (tt, b') /\ buf_ok b' /\ bytes b' = a ++ t2 ++ r.
Proof.
  intros Hok Hbo Hs Hb Ha H1 Hc H2 He Hsn Hv. pose proof (bytes_length b Hok) as Hl. rewrite Hb, !length_app in Hl.
  assert (0 <= size b) as H0 by by destruct Hok.
  assert (bytes_ok t2) as Hbt by (rewrite Hb in Hbo; unfold bytes_ok in *; rewrite !Forall_app in Hbo; tauto).
  destruct (eruns_rd b 16 2 (vlan_next_type (vlan pr)) Hok) as (b0 & Hr & _); [unfold vlan_next_type; lia | lia |].
  assert (b0 = b) as -> by (unfold rd in Hr; destruct (load _ _ _); simplify_eq/=; done).
  unfold pop_vlan_edit. rewrite (ebind_some _ _ _ _ _ Hr), Hsn. change (negb (0 =? 0)) with false. cbv iota.
  assert (slice 16 2 (bytes b) = t2) as ->.
  { rewrite Hb, (app_assoc a t1), (app_assoc (a ++ t1) tci). apply slice_mid; rewrite ?length_app; lia. }
  destruct (eruns_wr b 12 2 (eth_type (eth pr)) (le_load t2) Hok) as (b1 & Hw & [E1 E2 E3 E4 E5 E6 E7]);
    [unfold eth_type; lia | lia |].
  rewrite (ebind_some _ _ _ _ _ Hw). rewrite le_store_load2, Hb, patch_mid in E7 by (done || lia).
  set (b2 := with_data b1 (data b1 + 4) (size b1 - 4)).
  rewrite (ebind_some _ _ _ tt b2), (ebind_some _ _ _ (data b2) b2) by
    (unfold move_data, b2, VLAN_HEADER_LEN; rewrite ?wrap_small by (unfold in_range; lia); done).
  destruct (memmove_at b1 0 4 14 E1) as (b3 & Hm & [F1 F2 F3 F4 F5 F6 F7]); [lia | lia |].
  exists (with_data b3 (data b3 + 4) (size b3 - 4)). pose proof (pull_spec b3 4 F1) as Hp. unfold ofpbuf_pull in Hp.
  rewrite (proj2 (Z.leb_le _ _)) in Hp by lia. destruct Hp as (b4 & [= <-] & Hok4 & Hb4 & _). split_and!; [| done |].
  - rewrite He, Hv. replace (data b + 14 - data b) with (Z.of_nat 14) by lia.
    unfold memmove, ebind, rd_bytes, wr_bytes in *. replace (Z.of_nat 14 <? 0) with false in * by done. cbv iota in *.
    unfold b2. rewrite load_with_data. cbn [with_data data]. rewrite E3, Z.add_0_r in Hm. rewrite <- E3 in *.
    destruct (load b1 (data b1) _) as [l |]; [| done]. cbn [mbind option_bind] in *. rewrite store_with_data.
    change (Z.of_nat 4) with 4 in Hm. destruct (store b1 (data b1 + 4) l) as [x |]; [| done]. cbn [mbind option_bind fmap option_fmap option_map] in *. injection Hm as ->. by rewrite F3, F4.
  - change 4 with (Z.of_nat 4). rewrite Hb4, F7, E7. unfold patch, slice. rewrite drop_0.
    assert (take 14 (a ++ t2 ++ tci ++ t2 ++ r) = a ++ t2) as ->
      by (rewrite app_assoc; apply take_app_length'; rewrite length_app; lia).
    rewrite drop_app_length' by (rewrite length_take, !length_app; lia). rewrite <- app_assoc. do 2 f_equal.
    rewrite !app_assoc. apply drop_app_length'. rewrite !length_app. lia.
Qed.
Definition is_vlan_type (t : Z) : bool := (t =? 0x8100) || (t =? 0x88a8).

Definition frame_type (b : ofpbuf) : Z := be_load (slice 12 2 (bytes b)).

(** The headers of an Ethernet II frame: it starts the packet, and the outermost tag follows the addresses
    when the type says so. *)
Definition ethernet_frame (b : ofpbuf) (pr : protocols_std) : Prop :=
  eth pr = data b /\ eth_snap pr = 0 /\ vlan pr = if is_vlan_type (frame_type b) then data b + 14 else 0.

(** What the parser finds in a packet of the bytes [bs], wherever it is. *)
Definition parses_frame `{Parser} (bs : list Z) : Prop :=
  forall b pr, buf_ok b -> bytes b = bs ->
  let '(m, pr', ok) := nblink_packet_parse b pr in ok = true /\ ethernet_frame b pr'.

Lemma frame_headers `{Parser} p :
  parses_frame (bytes (buffer p)) -> buf_ok (buffer p) -> valid (handle_std p) = false ->
  ethernet_frame (buffer p) (headers (packet_handle_std_validate p)).
Proof.
  intros Hparse Hok Hva. unfold headers, packet_handle_std_validate. rewrite Hva.
  specialize (Hparse (buffer p) (proto (handle_std p)) Hok eq_refl).
  destruct (nblink_packet_parse _ _) as [[m pr] ok]. destruct Hparse as (-> & ?). done.
Qed.

(** The three parts of a frame: addresses, type and the rest. *)
Lemma frame_split b :
  buf_ok b -> 14 <= size b ->
  exists a t r, bytes b = a ++ t ++ r /\ length a = 12%nat /\ length t = 2%nat /\ frame_type b = be_load t /\
    slice 14 2 (bytes b) = take 2 r /\ length r = (Z.to_nat (size b) - 14)%nat.
Proof.
  intros Hok Hs. pose proof (bytes_length b Hok) as Hl.
  exists (take 12 (bytes b)), (slice 12 2 (bytes b)), (drop 14 (bytes b)). split_and!; try done.
  - unfold slice. change 14%nat with (12 + 2)%nat. rewrite <- drop_drop, take_drop. by rewrite take_drop.
  - rewrite length_take. lia.
  - apply slice_length. lia.
  - rewrite length_drop. lia.
Qed.


(** C25. Pushing a VLAN tag on an Ethernet II frame puts the tag after the addresses, with the TCI of the
    outermost tag or zero and the old type behind it; popping it gives back the frame byte for byte. Both
    succeed where the buffer has room ([vlan_room]: not with less than four bytes before the packet and four to
    seven behind it), for a frame whose headers are as [ethernet_frame] says (no SNAP header, and no tag
    but one after a tag type) and provided the parser finds the new tag in the frame that was pushed. *)
Theorem push_pop_vlan `{Parser} junk p e at_ :
  let b := buffer p in
  let tag := is_vlan_type (frame_type b) in
  let pushed := take 12 (bytes b) ++ be_store 2 e ++ (if tag then slice 14 2 (bytes b) else [0; 0]) ++ drop 12 (bytes b) in
  buf_ok b -> bytes_ok (bytes b) -> 0 < base b -> 14 <= size b -> size b + 4 < 2 ^ 64 ->
  (tag = true -> 18 <= size b) -> is_vlan_type e = true -> vlan_room b -> 0 < at_ ->
  ethernet_frame b (headers (packet_handle_std_validate p)) -> parses_frame pushed ->
  exists p1 p2, push_vlan junk p e at_ = Some p1 /\ pop_vlan p1 = Some p2 /\
    bytes (buffer p1) = pushed /\ bytes (buffer p2) = bytes b.
Proof.
  intros b tag pushed Hok Hbo Hd Hs Hmax Htag He Hroom Hat (Heth & Hsn & Hv) Hparse. fold tag in Hv.
  destruct (frame_split b Hok Hs) as (a & t & r & Hb & Ha & Hlt & Hft & Hsl & Hlr).
  assert (tag = true -> (2 <= length r)%nat) as Hin by (intros Hx; specialize (Htag Hx); lia).
  set (v := packet_handle_std_validate p) in *. assert (buffer v = b) as Hvb by apply validate_buffer.
  destruct (push_vlan_edit_spec junk b (headers v) e at_ a t r tag) as (b1 & Hpush & Hok1 & Hbase & Hs1 & Hb1); try done.
  set (tci := if tag then take 2 r else [0; 0]) in *.
  assert (length tci = 2%nat) as Hlc by (unfold tci; destruct tag; [rewrite length_take; specialize (Hin eq_refl); lia | done]).
  set (p1 := with_valid (with_buffer v b1) false).
  assert (push_vlan junk p e at_ = Some p1) as Hp1.
  { unfold push_vlan. fold v. rewrite Heth, (proj2 (Z.eqb_neq _ _)) by (destruct Hok; lia). unfold run. rewrite Hvb, Hpush. done. }
  assert (buffer p1 = b1) as Hpb by done.
  assert (frame_type b1 = e) as Hft1.
  { unfold frame_type. rewrite Hb1, slice_mid by (unfold be_store; rewrite ?length_rev, ?le_store_length; lia).
    rewrite be_load_store. apply wrap_small. unfold is_vlan_type in He. apply orb_true_iff in He.
    rewrite !Z.eqb_eq in He. destruct He as [-> | ->]; by vm_compute. }
  assert (0 <= size b) by by destruct Hok.
  assert (Hpu : bytes b1 = pushed).
  { rewrite Hb1. unfold pushed, tci. rewrite Hsl, Hb, take_app_length', drop_app_length' by done. done. }
  destruct (frame_headers p1) as (Heth1 & Hsn1 & Hv1); rewrite ?Hpb; try done; [by rewrite Hpu |].
  rewrite Hpb, Hft1, He in *. set (v1 := packet_handle_std_validate p1) in *.
  assert (buffer v1 = b1) as Hvb1 by (unfold v1; by rewrite validate_buffer).
  assert (bytes_ok (bytes b1)) as Hbo1.
  { rewrite Hb1. rewrite Hb in Hbo. unfold bytes_ok in *. rewrite !Forall_app in *. split_and!; try tauto.
    - unfold be_store. apply Forall_rev, le_store_ok.
    - unfold tci. destruct tag; [apply Forall_take; tauto | repeat constructor; by vm_compute]. }
  destruct (pop_vlan_edit_spec b1 (headers v1) a (be_store 2 e) tci t r) as (b2 & Hpop & Hok2 & Hb2); try done; [lia |].
  exists p1, (with_valid (with_buffer v1 b2) false). split_and!; [done | | |].
  - unfold pop_vlan. fold v1. specialize (Hbase Hd). rewrite Heth1, Hv1, !(proj2 (Z.eqb_neq _ _)) by (destruct Hok1; lia). cbn [negb andb]. unfold run. rewrite Hvb1, Hpop. done.
  - by rewrite Hpb.
  - rewrite Hb. exact Hb2.
Qed.


(** ** Every action leaves a buffer *)

(** The edit leaves the packet where it is, in a buffer. *)
Definition stable {A} (c : edit A) : Prop :=
  forall b x b', buf_ok b -> c b = Some (x, b') ->
  buf_ok b' /\ base b' = base b /\ data b' = data b /\ size b' = size b.

Lemma stable_ret {A} (x : A) : stable (eret x).
Proof. intros b y b' Hok [= <- <-]. done. Qed.

Lemma stable_bind {A B} (c : edit A) (k : A -> edit B) : stable c -> (forall x, stable (k x)) -> stable (ebind c k).
Proof.
  intros Hc Hk b y b' Hok. unfold ebind. destruct (c b) as [[x b1] |] eqn:E; [| done]. cbn [mbind option_bind]. intros H.
  destruct (Hc _ _ _ Hok E) as (H1 & H2 & H3 & H4). destruct (Hk x _ _ _ H1 H) as (? & ? & ? & ?).
  split_and!; congruence.
Qed.

Lemma stable_wr_bytes p bs : stable (wr_bytes p bs).
Proof.
  intros b x b' Hok. unfold wr_bytes, store. destruct (inside b p (length bs)) eqn:E; [| done].
  cbn [mbind option_bind]. intros [= _ <-]. split_and!; try done. destruct Hok as [H1 H2 H3 H4 H5].
  unfold inside in E. apply andb_true_iff in E as [E1%Z.leb_le E2%Z.leb_le]. unfold allocated in *.
  split; cbn [with_mem base data size mem l2 l3 l4 l7]; unfold allocated; cbn [with_mem mem]; try done.
  rewrite patch_length by (unfold index; lia). done.
Qed.

Lemma stable_rd_bytes n p : stable (rd_bytes n p).
Proof. intros b x b' Hok. unfold rd_bytes. destruct (load _ _ _); [| done]. cbn. intros [= _ <-]. done. Qed.
Lemma stable_rd n p : stable (rd n p).
Proof. intros b x b' Hok. unfold rd. destruct (load _ _ _); [| done]. cbn. intros [= _ <-]. done. Qed.
Lemma stable_wr n p v : stable (wr n p v).
Proof. exact (stable_wr_bytes p (le_store n v)). Qed.
Lemma stable_field_bytes n v : stable (field_bytes n v).
Proof. intros b x b' Hok. unfold field_bytes. destruct (_ <=? _)%nat; [| done]. intros [= _ <-]. done. Qed.
Lemma stable_the f : stable (the f).
Proof. intros b x b' Hok [= _ <-]. done. Qed.
Lemma stable_fail {A} : @stable A (fun _ => None).
Proof. by intros b x b'. Qed.
Lemma stable_memmove d s n : stable (memmove d s n).
Proof.
  unfold memmove. destruct (_ <? _); [by intros b x b' | apply stable_bind; [apply stable_rd_bytes | intros; apply stable_wr_bytes]].
Qed.
Lemma stable_if {A} (t : bool) (c c' : edit A) : stable c -> stable c' -> stable (if t then c else c').
Proof. by destruct t. Qed.

Create HintDb stable.
#[export] Hint Resolve stable_ret stable_bind stable_rd stable_wr stable_rd_bytes stable_wr_bytes stable_field_bytes
  stable_the stable_memmove stable_fail stable_if : stable.

(** Sequences of accesses. *)
Ltac solve_stable := repeat first [progress intros | apply stable_bind | apply stable_if | eauto 2 with stable; fail].

Lemma stable_ip_word p o n : stable (set_ip_word p o n).
Proof. unfold set_ip_word. solve_stable. Qed.
Lemma stable_ip_tos p t : stable (set_ip_tos p t).
Proof. unfold set_ip_tos. solve_stable. Qed.
Lemma stable_update_l4 pr f : stable (update_l4 pr f).
Proof. unfold update_l4. solve_stable. Qed.
Lemma stable_copy_field p n v : stable (copy_field p n v).
Proof. unfold copy_field. solve_stable. Qed.
Lemma stable_ip_ttl p t : stable (set_ip_ttl p t).
Proof. unfold set_ip_ttl. solve_stable. Qed.
Lemma stable_ttl_bits p t : stable (set_ttl_bits p t).
Proof. unfold set_ttl_bits. solve_stable. Qed.
Lemma stable_bits32 p m v : stable (set_bits32 p m v).
Proof. unfold set_bits32. solve_stable. Qed.
Lemma stable_sctp p f v : stable (set_sctp_port p f v).
Proof.
  intros b x b' Hok. unfold set_sctp_port. cbv zeta.
  match goal with |- ?c b = _ -> _ => assert (stable c) as Hs by solve_stable end. apply Hs, Hok.
Qed.
#[export] Hint Resolve stable_ip_word stable_ip_tos stable_update_l4 stable_copy_field stable_ip_ttl stable_ttl_bits
  stable_bits32 stable_sctp : stable.

Lemma stable_set_field pr h v : stable (set_field_edit pr h v).
Proof.
  unfold set_field_edit, set_ip_dscp, set_ipv6_dscp, set_ip_ecn, set_ipv6_ecn, set_ip_proto, set_ipv4_addr,
    set_port, set_icmp_type, set_icmp_code, set_ipv6_addr, set_nd_target, set_nd_ll, set_pbb_isid.
  solve_stable.
Qed.


(** ** What an action needs *)

(** Bytes of the packet, and of the memory of its buffer. *)
Definition within (b : ofpbuf) (p n : Z) : Prop := data b <= p /\ p + n <= data b + size b.
Definition spot (b : ofpbuf) (p n : Z) : Prop := base b <= p /\ p + n <= base b + allocated b.

(** The header a field is in is in the packet, and the value has the bytes that are copied. *)
Definition field_there (b : ofpbuf) (pr : protocols_std) (h : Z) (v : list Z) : Prop :=
  let ip_there := (ipv4 pr <> 0 -> within b (ipv4 pr) 20) /\ (ipv6 pr <> 0 -> within b (ipv6 pr) 40) in
  let l4_there := (tcp pr <> 0 -> within b (tcp pr) 20) /\ (udp pr <> 0 -> within b (udp pr) 8) in
  let eh n := within b (ehddp pr) 42 /\ n <= length v in
  if h =? OXM_OF_ETH_DST then within b (eth pr) 14 /\ 6 <= length v
  else if h =? OXM_OF_ETH_SRC then within b (eth pr) 14 /\ 6 <= length v
  else if h =? OXM_OF_ETH_TYPE then within b (eth pr) 14
  else if h =? OXM_OF_VLAN_VID then vlan pr <> 0 -> within b (vlan pr) 4
  else if (h =? OXM_OF_VLAN_PCP) && negb (vlan pr =? 0) then within b (vlan pr) 4
  else if (h =? OXM_OF_VLAN_PCP) || (h =? OXM_OF_IP_DSCP) then ip_there
  else if h =? OXM_OF_IP_ECN then ip_there
  else if h =? OXM_OF_IP_PROTO then within b (ipv4 pr) 20
  else if h =? OXM_OF_IPV4_SRC then within b (ipv4 pr) 20 /\ l4_there
  else if h =? OXM_OF_IPV4_DST then within b (ipv4 pr) 20 /\ l4_there
  else if h =? OXM_OF_TCP_SRC then within b (tcp pr) 20
  else if h =? OXM_OF_TCP_DST then within b (tcp pr) 20
  else if h =? OXM_OF_UDP_SRC then within b (udp pr) 8
  else if h =? OXM_OF_UDP_DST then within b (udp pr) 8
  else if h =? OXM_OF_SCTP_SRC then within b (sctp pr) 12
  else if h =? OXM_OF_SCTP_DST then within b (sctp pr) 12
  else if (h =? OXM_OF_ICMPV4_TYPE) || (h =? OXM_OF_ICMPV6_TYPE) then within b (icmp pr) 4
  else if (h =? OXM_OF_ICMPV4_CODE) || (h =? OXM_OF_ICMPV6_CODE) then within b (icmp pr) 4
  else if h =? OXM_OF_ARP_OP then within b (arp pr) 28
  else if h =? OXM_OF_ARP_SPA then within b (arp pr) 28
  else if h =? OXM_OF_ARP_TPA then within b (arp pr) 28
  else if h =? OXM_OF_ARP_SHA then within b (arp pr) 28 /\ 6 <= length v
  else if h =? OXM_OF_ARP_THA then within b (arp pr) 28 /\ 6 <= length v
  else if h =? OXM_OF_IPV6_SRC then within b (ipv6 pr) 40 /\ l4_there /\ 16 <= length v
  else if h =? OXM_OF_IPV6_DST then within b (ipv6 pr) 40 /\ l4_there /\ 16 <= length v
  else if h =? OXM_OF_IPV6_FLABEL then within b (ipv6 pr) 40
  else if h =? OXM_OF_IPV6_ND_TARGET then within b (icmp pr) 24 /\ 16 <= length v
  else if (h =? OXM_OF_IPV6_ND_SLL) || (h =? OXM_OF_IPV6_ND_TLL) then within b (icmp pr) 32 /\ 6 <= length v
  else if h =? OXM_OF_MPLS_LABEL then within b (mpls pr) 4
  else if h =? OXM_OF_MPLS_TC then within b (mpls pr) 4
  else if h =? OXM_OF_MPLS_BOS then within b (mpls pr) 4
  else if h =? OXM_OF_PBB_ISID then within b (pbb pr) 18
  else if h =? OXM_OF_EHDDP_FLAGS then eh 1
  else if h =? OXM_OF_EHDDP_OPCODE then eh 1
  else if h =? OXM_OF_EHDDP_NUM_DEVICE then eh 1
  else if h =? OXM_OF_EHDDP_NUM_SEC then eh 8
  else if h =? OXM_OF_EHDDP_PRE_MAC_SIZ then eh 8
  else if h =? OXM_OF_EHDDP_PRE_MAC then eh 1
  else if h =? OXM_OF_EHDDP_NUM_ACK then eh 8
  else if h =? OXM_OF_EHDDP_LAS_MAC then eh 8
  else if h =? OXM_OF_EHDDP_SRC_MAC then eh 8
  else if h =? OXM_OF_EHDDP_TIM_BLO then eh 4
  else True.

(** ** Edits that stay in the buffer *)

Definition same_place (b b1 : ofpbuf) : Prop :=
  base b1 = base b /\ data b1 = data b /\ size b1 = size b /\ allocated b1 = allocated b.

Definition safe {A} (c : edit A) (b : ofpbuf) : Prop :=
  forall b1, same_place b b1 -> exists x b2, c b1 = Some (x, b2) /\ same_place b b2.

Lemma safe_ret {A} (x : A) b : safe (eret x) b.
Proof. intros b1 Hb. by exists x, b1. Qed.

Lemma safe_bind {A B} (c : edit A) (k : A -> edit B) b : safe c b -> (forall x, safe (k x) b) -> safe (ebind c k) b.
Proof.
  intros Hc Hk b1 Hb. destruct (Hc b1 Hb) as (x & b2 & E & Hb2). destruct (Hk x b2 Hb2) as (y & b3 & E' & Hb3).
  exists y, b3. unfold ebind. by rewrite E.
Qed.

Lemma safe_the f b : safe (the f) b.
Proof. intros b1 Hb. by exists (f b1), b1. Qed.

Lemma spot_inside b b1 p n : same_place b b1 -> spot b p (Z.of_nat n) -> inside b1 p n = true.
Proof. intros (H1 & H2 & H3 & H4) [Hp Hn]. unfold inside. rewrite H1, H4. apply andb_true_iff. rewrite !Z.leb_le. lia. Qed.

Lemma safe_rd_bytes n p b : spot b p (Z.of_nat n) -> safe (rd_bytes n p) b.
Proof. intros Hp b1 Hb. unfold rd_bytes, load. rewrite (spot_inside b b1) by done. by eexists _, b1. Qed.

Lemma safe_rd n p b : spot b p (Z.of_nat n) -> safe (rd n p) b.
Proof. intros Hp b1 Hb. unfold rd, load. rewrite (spot_inside b b1) by done. by eexists _, b1. Qed.

Lemma safe_wr_bytes p bs b : spot b p (Z.of_nat (length bs)) -> safe (wr_bytes p bs) b.
Proof.
  intros Hp b1 Hb. unfold wr_bytes, store. rewrite (spot_inside b b1) by done. eexists _, _. split; [done |].
  destruct Hb as (H1 & H2 & H3 & H4), Hp as [Hp1 Hp2]. split_and!; try done. rewrite <- H4. unfold allocated in *. cbn [with_mem mem].
  rewrite patch_length; [done |]. unfold index. rewrite H1. lia.
Qed.

Lemma safe_wr n p v b : spot b p (Z.of_nat n) -> safe (wr n p v) b.
Proof. intros Hp. apply (safe_wr_bytes p (le_store n v)). by rewrite le_store_length. Qed.

Lemma safe_copy_field p n v b : spot b p (Z.of_nat n) -> (n <= length v)%nat -> safe (copy_field p n v) b.
Proof.
  intros Hp Hn. unfold copy_field. intros b1 Hb. unfold ebind at 1, field_bytes. rewrite (proj2 (Nat.leb_le _ _)) by done. cbn [mbind option_bind].
  apply safe_wr_bytes; [| done]. by rewrite length_take, Nat.min_l.
Qed.

Lemma safe_memmove d s n b : 0 <= n -> spot b s n -> spot b d n -> safe (memmove d s n) b.
Proof.
  intros Hn Hs Hd. unfold memmove. rewrite (proj2 (Z.ltb_ge _ _)) by done. intros b1 Hb. unfold ebind at 1, rd_bytes, load.
  assert (Hi : inside b1 s (Z.to_nat n) = true) by (apply (spot_inside b); [done | by rewrite Z2Nat.id]). rewrite Hi. cbn [mbind option_bind].
  apply safe_wr_bytes; [| done]. rewrite slice_length, Z2Nat.id; [done | done |].
  unfold inside in Hi. apply andb_true_iff in Hi as [H1%Z.leb_le H2%Z.leb_le]. unfold allocated, index in *. lia.
Qed.

Create HintDb safe.
#[export] Hint Resolve safe_ret safe_the : safe.
#[export] Hint Unfold eth_dst eth_src eth_type snap_type vlan_tci vlan_next_type ip_ihl_ver ip_tos ip_ttl ip_proto ip_csum ip_src ip_dst
  ipv6_ver_tc_fl ipv6_hop_limit ipv6_src ipv6_dst tcp_src tcp_dst tcp_csum udp_src udp_dst udp_csum sctp_src sctp_dst sctp_csum
  icmp_type icmp_code icmp_csum ar_op ar_sha ar_spa ar_tha ar_tpa pbb_id c_eth_dst pbb_next_type eh_flags eh_opcode eh_num_devices
  eh_num_sec eh_previous_size_mac eh_nxt_mac eh_num_ack eh_last_mac eh_src_mac eh_time_block
  ETH_HEADER_LEN VLAN_HEADER_LEN LLC_HEADER_LEN SNAP_HEADER_LEN MPLS_HEADER_LEN PBB_HEADER_LEN ICMP_HEADER_LEN IPV6_ND_HEADER_LEN
  IPV6_ND_OPT_HD_LEN : offsets.

Ltac in_buffer := try autounfold with offsets; unfold spot, within in *; lia.
(** One step of an edit at a time; a test of a pointer is decided. *)
Ltac solve_safe :=
  repeat match goal with
  | |- safe (ebind _ _) _ => apply safe_bind; [| intros ?]
  | |- safe (rd _ (_ (if ?x =? 0 then _ else _))) _ => destruct (Z.eqb_spec x 0)
  | |- safe (wr _ (_ (if ?x =? 0 then _ else _)) _) _ => destruct (Z.eqb_spec x 0)
  | |- safe (if (if ?x =? 0 then _ else _) =? 0 then _ else _) _ => destruct (Z.eqb_spec x 0)
  | |- safe (if negb ((if ?x =? 0 then _ else _) =? 0) then _ else _) _ => destruct (Z.eqb_spec x 0)
  | |- safe (if ?x =? 0 then _ else _) _ => destruct (Z.eqb_spec x 0)
  | |- safe (if negb (?x =? 0) then _ else _) _ => destruct (Z.eqb_spec x 0); cbn [negb]
  | |- safe (if ?t then _ else _) _ => destruct t
  | |- safe (rd _ _) _ => apply safe_rd; in_buffer
  | |- safe (wr _ _ _) _ => apply safe_wr; in_buffer
  | |- safe (rd_bytes _ _) _ => apply safe_rd_bytes; in_buffer
  | |- safe (copy_field _ _ _) _ => apply safe_copy_field; [in_buffer | lia]
  | |- safe (memmove _ _ _) _ => apply safe_memmove; in_buffer
  | |- safe _ _ => solve [eauto 1 with safe]
  end.

Section safety.
Context (b : ofpbuf) (Hok : buf_ok b).

Lemma safe_sctp p field v : within b p 12 -> (field p = p \/ field p = p + 2) -> safe (set_sctp_port p field v) b.
Proof using Hok.
  destruct Hok as [Hb1 Hb2 Hb3 Hb4 _]. intros Hp Hf b1 Hb. pose proof Hb as (Hbase & Hd & Hs & _). unfold set_sctp_port, ofpbuf_tail. cbv zeta. rewrite Hd, Hs.
  revert b1 Hb Hbase Hd Hs.
  assert (Hsafe : safe (wr 4 (sctp_csum p) 0 ;;; wr 2 (field p) (htons (rd16 v)) ;;; bs <- rd_bytes (Z.to_nat (data b + size b - p)) p ;;
     wr 4 (sctp_csum p) (Crc32.crc_finalize (Crc32.crc_update Crc32.crc_init bs))) b) by solve_safe.
  intros b1 Hb _ _ _. exact (Hsafe b1 Hb).
Qed.

Lemma safe_ipv6_addr pr field v :
  spot b (field (ipv6 pr)) 16 -> (tcp pr <> 0 -> within b (tcp pr) 20) -> (udp pr <> 0 -> within b (udp pr) 8) -> 16 <= length v ->
  safe (set_ipv6_addr pr field v) b.
Proof using Hok.
  destruct Hok as [Hb1 Hb2 Hb3 Hb4 _]. intros Hf Ht Hu Hv. unfold set_ipv6_addr, update_l4. cbv zeta.
  change (safe (old <- rd_bytes 16 (field (ipv6 pr)) ;; update_l4 pr (fun c => recalc_csum128 c old v) ;;; copy_field (field (ipv6 pr)) 16 v) b).
  unfold update_l4. solve_safe.
Qed.

Lemma safe_set_field pr h v : field_there b pr h v -> safe (set_field_edit pr h v) b.
Proof using Hok.
  pose proof Hok as [Hb1 Hb2 Hb3 Hb4 _]. unfold field_there, set_field_edit. cbv zeta.
  repeat match goal with
  | |- (if ?c then _ else _) -> _ => destruct c; [intros Hf; try match type of Hf with _ /\ _ => destruct Hf as [Hf ?] end |]
  end; unfold set_ip_dscp, set_ipv6_dscp, set_ip_ecn, set_ipv6_ecn, set_ip_proto, set_ip_tos, set_ip_word, set_ipv4_addr, update_l4,
    set_port, set_icmp_type, set_icmp_code, set_nd_target, set_nd_ll, set_bits32, set_pbb_isid; cbv zeta; try (solve_safe; fail).
  - apply safe_sctp; [done | by left].
  - apply safe_sctp; [done | by right].
  - apply safe_ipv6_addr; try tauto. in_buffer.
  - apply safe_ipv6_addr; try tauto. in_buffer.
  - intros _. apply safe_ret.
Qed.
End safety.

(** ** Headers within the packet *)

(** What is assumed of the headers: the frame starts the packet, and what is popped lies
    within it. *)
Record headers_inside (b : ofpbuf) (pr : protocols_std) : Prop := {
  hi_eth : eth pr <> 0 -> eth pr = data b;
  hi_vlan : vlan pr <> 0 -> data b <= vlan pr /\ vlan pr + 4 <= data b + size b;
  hi_mpls : mpls pr <> 0 -> data b <= mpls pr /\ mpls pr + 4 <= data b + size b;
  hi_pbb : pbb pr <> 0 -> data b <= pbb pr /\ pbb pr + 4 <= data b + size b;
}.

(** A packet that grows or shrinks by [n] bytes. *)
Definition resizes (c : edit unit) (b : ofpbuf) (n : Z) : Prop :=
  forall b', c b = Some (tt, b') -> buf_ok b' /\ size b' = size b + n.

Lemma stable_resizes (c : edit unit) b : buf_ok b -> stable c -> resizes c b 0.
Proof. intros Hok Hc b' H. destruct (Hc _ _ _ Hok H) as (? & _ & _ & ?). split; [done | lia]. Qed.

Lemma bind_resizes {A} (c : edit A) (k : A -> edit unit) b n :
  buf_ok b -> stable c -> (forall x b1, buf_ok b1 -> base b1 = base b -> data b1 = data b -> size b1 = size b -> resizes (k x) b1 n) ->
  resizes (ebind c k) b n.
Proof.
  intros Hok Hc Hk b' H. unfold ebind in H. destruct (c b) as [[x b1] |] eqn:E; [| done].
  destruct (Hc _ _ _ Hok E) as (? & ? & ? & Hs). rewrite <- Hs. by apply (Hk x b1).
Qed.

Lemma move_resizes (n : Z) (c : edit unit) b :
  buf_ok b -> - ofpbuf_headroom b <= n <= size b -> size b - n < 2 ^ 64 -> stable c ->
  resizes (move_data n ;;; c) b (- n).
Proof.
  intros Hok Hn Hs Hc b' H. rewrite (ebind_some _ _ _ tt (with_data b (data b + n) (size b - n))) in H.
  - destruct Hok as [H1 H2 H3 H4 H5]. unfold ofpbuf_headroom in Hn. 
    assert (buf_ok (with_data b (data b + n) (size b - n))) as Hok1
      by (split; cbn [with_data base data size mem l2 l3 l4 l7]; unfold allocated in *; cbn [with_data mem]; try done; lia).
    destruct (Hc _ _ _ Hok1 H) as (? & _ & _ & ->). split; [done | cbn; lia].
  - unfold move_data. rewrite wrap_small; [done | unfold in_range; destruct Hok; lia].
Qed.

Lemma put_resizes junk (n : nat) at_ (c : edit unit) b :
  buf_ok b -> 0 < at_ -> stable c -> resizes (put_uninit junk n at_ ;;; c) b n.
Proof.
  intros Hok Hat Hc b' H. destruct (put_uninit_view junk b n at_ Hok Hat) as (Hok1 & Hs1 & _).
  rewrite (ebind_some _ _ _ tt (ofpbuf_put_uninit junk b n at_).1) in H by done.
  destruct (Hc _ _ _ Hok1 H) as (? & _ & _ & ->). done.
Qed.

Section resizing.
Context (junk : nat -> Z) (b : ofpbuf) (pr : protocols_std) (e at_ : Z).
Context (Hok : buf_ok b) (Hat : 0 < at_) (Hmax : size b + 18 < 2 ^ 64) (Hin : headers_inside b pr).

(** Both branches of a push. *)
Lemma push_resizes (n : nat) (c1 c2 : edit unit) :
  n <= 18 -> stable c1 -> stable c2 ->
  resizes (room <- the ofpbuf_headroom ;;
           if n <=? room then move_data (- n) ;;; c1 else put_uninit junk n at_ ;;; c2) b n.
Proof.
  intros Hn H1 H2 b' H. rewrite (ebind_some _ _ _ (ofpbuf_headroom b) b) in H by done.
  destruct (Z.leb_spec n (ofpbuf_headroom b)).
  - rewrite <- (Z.opp_involutive n). apply (move_resizes (- n) c1 b Hok); try done; destruct Hok; lia.
  - by apply (put_resizes junk n at_ c2 b Hok Hat H2 b').
Qed.

Lemma push_vlan_resizes : resizes (push_vlan_edit junk pr e at_) b VLAN_HEADER_LEN.
Proof. apply (push_resizes 4); [lia | |]; unfold push_vlan_finish, retype, add_length; cbv zeta; solve_stable. Qed.

Lemma push_mpls_resizes : resizes (push_mpls_edit junk pr e at_) b MPLS_HEADER_LEN.
Proof. apply (push_resizes 4); [lia | |]; unfold mpls_fields, set_last_type, add_length; cbv zeta; solve_stable. Qed.

Lemma push_pbb_resizes : resizes (push_pbb_edit junk pr e at_) b PBB_HEADER_LEN.
Proof. apply (push_resizes 18); [lia | |]; unfold retype, add_length; cbv zeta; solve_stable. Qed.

Lemma pop_resizes (n : Z) b0 (c : edit unit) :
  buf_ok b0 -> size b0 = size b -> 0 <= n <= size b -> stable c -> resizes (move_data n ;;; c) b0 (- n).
Proof.
  intros Hok0 Hs Hn Hc. apply move_resizes; [done | | lia | done]. unfold ofpbuf_headroom. destruct Hok0. lia.
Qed.

Lemma pop_vlan_resizes : vlan pr <> 0 -> resizes (pop_vlan_edit pr) b (- VLAN_HEADER_LEN).
Proof.
  intros Hv. destruct (hi_vlan _ _ Hin Hv). unfold pop_vlan_edit.
  apply bind_resizes; [done | solve_stable |]. intros t b1 Hok1 _ _ Hs1.
  apply bind_resizes; [done | unfold add_length; solve_stable |]. intros [] b2 Hok2 _ _ Hs2.
  apply pop_resizes; [done | lia | unfold VLAN_HEADER_LEN; lia | solve_stable].
Qed.

Lemma pop_mpls_resizes : mpls pr <> 0 -> resizes (pop_mpls_edit pr e) b (- MPLS_HEADER_LEN).
Proof.
  intros Hv. destruct (hi_mpls _ _ Hin Hv). unfold pop_mpls_edit.
  apply bind_resizes; [done | unfold set_last_type; solve_stable |]. intros [] b1 Hok1 _ _ Hs1.
  apply pop_resizes; [done | lia | unfold MPLS_HEADER_LEN; lia | unfold add_length; solve_stable].
Qed.

(** The outer header goes, up to the customer's addresses. *)
Lemma pop_pbb_resizes : pbb pr <> 0 -> eth pr <> 0 -> resizes (pop_pbb_edit pr) b (data b - (pbb pr + 4)).
Proof.
  intros Hp He. destruct (hi_pbb _ _ Hin Hp). pose proof (hi_eth _ _ Hin He) as Hd. unfold pop_pbb_edit, c_eth_dst. cbv zeta.
  do 2 (apply bind_resizes; [done | solve_stable |]; intros ? ? ? _ _ ?).
  apply bind_resizes; [done | solve_stable |]. intros [] b3 Hok3 _ Hd3 Hs3 b' [= <-].
  assert (size b3 = size b) as Hs by lia. rewrite wrap_small by (unfold in_range; destruct Hok; lia).
  split; [| cbn; lia]. destruct Hok3.
  split; cbn [with_size base data size mem l2 l3 l4 l7]; unfold allocated in *; cbn [with_size mem]; try done; lia.
Qed.
End resizing.

(** ** Actions that succeed *)

(** Where a push of [n] bytes finds room: before the packet; or behind it for twice as many, because that many
    bytes too many are moved; or not at all, and the packet moves to a larger buffer. *)
Definition push_room (b : ofpbuf) (n : Z) : Prop :=
  n <= ofpbuf_headroom b \/ 2 * n <= ofpbuf_tailroom b \/ ofpbuf_tailroom b < n.

(** What an action needs of a packet and of its headers. The header after the tags is where an MPLS header goes.
    A PBB header needs room in the buffer the packet is in, because the old pointers are used after a move. *)
Definition can_execute (b : ofpbuf) (pr : protocols_std) (a : ofl_action) : Prop :=
  let snap_there := eth_snap pr <> 0 -> within b (eth_snap pr) 5 in
  let last_there := vlan_last pr <> 0 -> within b (vlan_last pr) 4 in
  let follows p n := p <> 0 -> p = data b + head_offset pr /\ within b p n in
  match a with
  | Act_set_field f => field_there b pr (header f) (value f)
  | Act_copy_ttl_out | Act_copy_ttl_in =>
      mpls pr <> 0 -> within b (mpls pr) 8 /\ (ETH_HEADER_LEN + MPLS_HEADER_LEN + IP_HEADER_LEN <= size b -> within b (mpls pr) 16)
  | Act_set_nw_ttl _ | Act_dec_nw_ttl =>
      (ipv4 pr <> 0 -> within b (ipv4 pr) 20) /\ (ipv6 pr <> 0 -> within b (ipv6 pr) 40)
  | Act_push_vlan _ => eth pr <> 0 ->
      push_room b 4 /\ eth_size pr <= size b /\ (vlan pr <> 0 -> eth_size pr + 4 <= size b)
  | Act_pop_vlan => eth pr <> 0 -> vlan pr <> 0 -> 14 <= size b /\ snap_there
  | Act_push_mpls _ => eth pr <> 0 ->
      push_room b 4 /\ eth_size pr <= size b /\ snap_there /\ last_there /\
      follows (mpls pr) 4 /\ (mpls pr = 0 -> follows (ipv4 pr) 20 /\ follows (ipv6 pr) 40)
  | Act_pop_mpls _ => eth pr <> 0 -> mpls pr <> 0 ->
      14 <= size b /\ snap_there /\ last_there /\ (eth_snap pr <> 0 -> 18 <= size b)
  | Act_push_pbb _ => eth pr <> 0 ->
      (18 <= ofpbuf_headroom b \/ 36 <= ofpbuf_tailroom b) /\ eth_size pr <= size b
  | _ => True
  end.

Lemma safe_data {B} (k : Z -> edit B) b : safe (k (data b)) b -> safe (ebind (the data) k) b.
Proof. intros Hk b1 Hb. unfold ebind, the. cbn [mbind option_bind]. pose proof Hb as (_ & -> & _). by apply Hk. Qed.

Lemma safe_size {B} (k : Z -> edit B) b : safe (k (size b)) b -> safe (ebind (the size) k) b.
Proof. intros Hk b1 Hb. unfold ebind, the. cbn [mbind option_bind]. pose proof Hb as (_ & _ & -> & _). by apply Hk. Qed.

Ltac solve_safe_here := repeat first [apply safe_data | apply safe_size | progress cbv zeta | progress solve_safe].

(** The parts of a push. *)
Lemma unless_null_some p q : unless_null p q <> 0 -> p <> 0 /\ unless_null p q = q.
Proof. unfold unless_null. by destruct (Z.eqb_spec p 0). Qed.

Lemma unless_null_none p q : unless_null p q = 0 -> q <> 0 -> p = 0.
Proof. unfold unless_null. by destruct (Z.eqb_spec p 0). Qed.

Lemma safe_mpls_fields b m i4 i6 : (m <> 0 -> spot b m 4) -> (m = 0 -> i4 <> 0 -> spot b i4 9) -> (m = 0 -> i6 <> 0 -> spot b i6 8) ->
  safe (mpls_fields m i4 i6) b.
Proof. intros Hm H4 H6. unfold mpls_fields. solve_safe. Qed.

Lemma safe_last_type b v s p e : (v <> 0 -> spot b v 4) -> (v = 0 -> s <> 0 -> spot b s 5) -> spot b p 14 -> safe (set_last_type v s p e) b.
Proof. intros Hv Hs Hp. unfold set_last_type. solve_safe. Qed.

Lemma safe_add_length b p n : spot b p 14 -> safe (add_length p n) b.
Proof. intros Hp. unfold add_length. solve_safe. Qed.

Section pushes.
Context (junk : nat -> Z) (b : ofpbuf) (pr : protocols_std) (e at_ : Z).
Context (Hok : buf_ok b) (Hat : 0 < at_) (Hmax : size b + 18 < 2 ^ 64) (Hin : headers_inside b pr) (Heth : eth pr <> 0).

(** A packet after room was made before it. *)
Definition grown (n : Z) (b1 : ofpbuf) : Prop :=
  base b1 = base b /\ data b1 = data b - n /\ size b1 = size b + n /\ allocated b1 = allocated b /\ base b <= data b1.

(** A packet after room was made behind it; [still] that it has not moved. *)
Definition extended (n : Z) (b1 : ofpbuf) : Prop :=
  buf_ok b1 /\ size b1 = size b + n /\ data b1 + size b1 + n <= base b1 + allocated b1.
Definition still (b1 : ofpbuf) : Prop := base b1 = base b /\ data b1 = data b /\ allocated b1 = allocated b.

Lemma tailroom_eq b0 : ofpbuf_tailroom b0 = base b0 + allocated b0 - (data b0 + size b0).
Proof using. done. Qed.

Lemma put_extended (n : nat) : (n <= 32)%nat -> n <= ofpbuf_tailroom b -> 2 * n <= ofpbuf_tailroom b ->
  extended n (ofpbuf_put_uninit junk b n at_).1 /\ still (ofpbuf_put_uninit junk b n at_).1.
Proof using Hok Hat.
  intros Hn Hr H2. destruct (put_uninit_view junk b n at_ Hok Hat) as (Hok1 & Hs1 & _ & _ & Ht). split.
  - rewrite (proj2 (Z.ltb_ge _ _)) in Ht by lia. split_and!; [done | done |]. rewrite tailroom_eq in Ht. lia.
  - unfold still, ofpbuf_put_uninit, ofpbuf_prealloc_tailroom. rewrite (proj2 (Z.ltb_ge _ _)) by lia. done.
Qed.

Lemma put_moved (n : nat) : (n <= 32)%nat -> ofpbuf_tailroom b < n -> extended n (ofpbuf_put_uninit junk b n at_).1.
Proof using Hok Hat.
  intros Hn Hr. destruct (put_uninit_view junk b n at_ Hok Hat) as (Hok1 & Hs1 & _ & _ & Ht).
  rewrite (proj2 (Z.ltb_lt _ _)) in Ht by lia. split_and!; [done | done |]. rewrite tailroom_eq in Ht. lia.
Qed.

Lemma move_grown (n : Z) : 0 <= n <= 18 -> n <= ofpbuf_headroom b -> exists b1, move_data (- n) b = Some (tt, b1) /\ grown n b1.
Proof using Hok Hmax.
  intros Hn Hh. exists (with_data b (data b - n) (size b + n)). unfold ofpbuf_headroom in Hh. split; [| split_and!; try done; cbn; lia]. destruct Hok. unfold move_data.
  rewrite wrap_small by (unfold in_range; lia). do 3 f_equal; lia.
Qed.

Lemma push_runs (n : nat) (c1 c2 : edit unit) : (n <= 18)%nat -> push_room b n ->
  (forall b1, grown n b1 -> safe c1 b1) -> (forall b1, extended n b1 -> safe c2 b1) ->
  exists b', (room <- the ofpbuf_headroom ;; if n <=? room then move_data (- n) ;;; c1 else put_uninit junk n at_ ;;; c2) b = Some (tt, b').
Proof using Hok Hat Hmax.
  intros Hn Hroom H1 H2. rewrite (ebind_some _ _ _ (ofpbuf_headroom b) b) by done. destruct (Z.leb_spec n (ofpbuf_headroom b)) as [Hh | Hh].
  - destruct (move_grown n) as (b1 & E & Hg); [lia | lia |]. rewrite (ebind_some _ _ _ _ _ E). destruct (H1 b1 Hg b1) as ([] & b2 & -> & _); [done |]. by exists b2.
  - rewrite (ebind_some _ _ _ tt (ofpbuf_put_uninit junk b n at_).1) by done.
    destruct (H2 (ofpbuf_put_uninit junk b n at_).1) with (b1 := (ofpbuf_put_uninit junk b n at_).1) as ([] & b2 & -> & _); [| done | by exists b2].
    unfold push_room in Hroom. destruct (Z.lt_ge_cases (ofpbuf_tailroom b) n); [apply put_moved; lia | apply put_extended; lia].
Qed.

(** The bounds as plain inequalities: the pointers that are null are decided first. *)
Ltac decided := repeat match goal with
  | H : ?x <> 0, H' : ?x <> 0 -> _ |- _ => specialize (H' H)
  | H : ?x = 0, H' : ?x <> 0 -> _ |- _ => clear H'
  | H : ?x = 0, H' : ?x = 0 -> _ |- _ => specialize (H' H)
  | H : ?x <> 0, H' : ?x = 0 -> _ |- _ => clear H'
  | H : _ /\ _ |- _ => destruct H
  end.
Ltac sizes := unfold grown, extended, still, within in *; destruct Hok as [? ? ? ? _]; pose proof (hi_eth _ _ Hin Heth);
  pose proof (hi_vlan _ _ Hin); pose proof (hi_mpls _ _ Hin); pose proof (hi_pbb _ _ Hin); decided.

Lemma eth_size_cases : eth_size pr = 14 /\ eth_snap pr = 0 \/ eth_size pr = 22 /\ eth_snap pr <> 0.
Proof using. unfold eth_size. destruct (Z.eqb_spec (eth_snap pr) 0); [by left | by right]. Qed.

Lemma push_vlan_runs : can_execute b pr (Act_push_vlan e) -> exists b', push_vlan_edit junk pr e at_ b = Some (tt, b').
Proof using Hok Hat Hmax Hin Heth.
  intros Hc. destruct (Hc Heth) as (Hroom & Hs & Hv). unfold push_vlan_edit.
  apply (push_runs 4); [lia | done | |]; intros b1 Hg; [| destruct Hg as ([? ? ? ? _] & Hg)];
    unfold push_vlan_finish, retype, add_length, unless_null;
    destruct eth_size_cases as [[Hes Hsn] | [Hes Hsn]], (Z.eqb_spec (vlan pr) 0) as [Hv0 | Hv0]; rewrite Hes in *; sizes; solve_safe_here.
Qed.

Lemma push_mpls_runs : can_execute b pr (Act_push_mpls e) -> exists b', push_mpls_edit junk pr e at_ b = Some (tt, b').
Proof using Hok Hat Hmax Hin Heth.
  intros Hc. destruct (Hc Heth) as (Hroom & Hs & Hsn & Hl & Hm & Hip). unfold push_mpls_edit.
  assert (Hho : 0 <= head_offset pr <= size b /\ (vlan_last pr <> 0 -> vlan_last pr = data b + head_offset pr - 4)).
  { unfold head_offset, within, VLAN_HEADER_LEN in *. rewrite (hi_eth _ _ Hin Heth). destruct eth_size_cases, (Z.eqb_spec (vlan_last pr) 0); lia. }
  assert (14 <= size b) by (destruct eth_size_cases; lia).
  apply (push_runs 4); [lia | done | |]; intros b1 Hg; [| destruct Hg as ([? ? ? ? _] & Hg)]; sizes; cbv zeta.
  - apply safe_data. apply safe_bind; [apply safe_memmove; in_buffer | intros _]. apply safe_bind; [| intros f].
    + apply safe_mpls_fields; intros; decided; in_buffer.
    + apply safe_bind; [apply safe_wr; in_buffer | intros _]. apply safe_bind; [| intros _; solve_safe; apply safe_add_length; in_buffer].
      apply safe_last_type; [intros Hn%unless_null_some | intros _ Hn%unless_null_some | in_buffer]; unfold MPLS_HEADER_LEN in *; decided; in_buffer.
  - apply safe_data, safe_size. apply safe_bind; [apply safe_memmove; in_buffer | intros _]. apply safe_bind; [| intros f].
    + apply safe_mpls_fields; [intros Hn%unless_null_some | intros Hz Hn%unless_null_some | intros Hz Hn%unless_null_some]; try (apply unless_null_none in Hz; [| in_buffer]); unfold MPLS_HEADER_LEN in *; decided; in_buffer.
    + apply safe_bind; [apply safe_wr; in_buffer | intros _]. apply safe_bind; [| intros _; solve_safe; apply safe_add_length; in_buffer].
      apply safe_last_type; [intros Hn%unless_null_some | intros _ Hn%unless_null_some | in_buffer]; unfold MPLS_HEADER_LEN in *; decided; in_buffer.
Qed.

Lemma push_pbb_runs : can_execute b pr (Act_push_pbb e) -> exists b', push_pbb_edit junk pr e at_ b = Some (tt, b').
Proof using Hok Hat Hmax Hin Heth.
  intros Hc. destruct (Hc Heth) as (Hroom & Hs). pose proof eth_size_cases as Hes. unfold push_pbb_edit. cbv zeta.
  rewrite (ebind_some _ _ _ (ofpbuf_headroom b) b) by done. destruct (Z.leb_spec PBB_HEADER_LEN (ofpbuf_headroom b)) as [Hh | Hh].
  - destruct (move_grown 18) as (b1 & E & Hg); [lia | done |]. change (- PBB_HEADER_LEN) with (-18). rewrite (ebind_some _ _ _ _ _ E).
    match goal with |- exists b', ?c b1 = _ => assert (Hsafe : safe c b1) end.
    { unfold retype, add_length, unless_null. sizes. solve_safe_here. }
    destruct (Hsafe b1) as ([] & b2 & -> & _); [done |]. by exists b2.
  - rewrite (ebind_some _ _ _ tt (ofpbuf_put_uninit junk b 18 at_).1) by done. destruct (put_extended 18) as [Hg Hst]; [lia | unfold PBB_HEADER_LEN in Hh; lia.. |].
    set (b1 := (ofpbuf_put_uninit junk b 18%nat at_).1) in *. change (ofpbuf_put_uninit junk b 18 at_).1 with b1.
    match goal with |- exists b', ?c b1 = _ => assert (Hsafe : safe c b1) end.
    { unfold retype, add_length, unless_null. destruct Hg as ([] & Hg). unfold still in Hst. sizes. solve_safe_here. }
    destruct (Hsafe b1) as ([] & b2 & -> & _); [done |]. by exists b2.
Qed.
End pushes.

Section pops.
Context (b : ofpbuf) (pr : protocols_std) (e : Z).
Context (Hok : buf_ok b) (Hmax : size b + 18 < 2 ^ 64) (Hin : headers_inside b pr) (Heth : eth pr <> 0).

(** Some edits in place, then the start moves on, then more edits. *)
Lemma move_runs (n : Z) (c1 c2 : edit unit) : 0 <= n <= size b -> safe c1 b ->
  (forall b1, base b1 = base b -> data b1 = data b + n -> size b1 = size b - n -> allocated b1 = allocated b -> safe c2 b1) ->
  exists b', (c1 ;;; move_data n ;;; c2) b = Some (tt, b').
Proof using Hok Hmax.
  intros Hn H1 H2. destruct (H1 b) as ([] & b1 & E & Hb & Hd & Hs & Ha); [done |]. rewrite (ebind_some _ _ _ _ _ E).
  rewrite (ebind_some _ _ _ tt (with_data b1 (data b1 + n) (size b1 - n))) by (unfold move_data; rewrite wrap_small by (destruct Hok; unfold in_range; lia); done).
  destruct (H2 (with_data b1 (data b1 + n) (size b1 - n))) with (b1 := with_data b1 (data b1 + n) (size b1 - n)) as ([] & b2 & -> & _); try done; cbn; [congruence.. | by exists b2].
Qed.

Lemma pop_vlan_runs : vlan pr <> 0 -> can_execute b pr Act_pop_vlan -> exists b', pop_vlan_edit pr b = Some (tt, b').
Proof using Hok Hmax Hin Heth.
  intros Hv Hc. destruct (Hc Heth Hv) as (Hs & Hsn). pose proof (hi_eth _ _ Hin Heth) as He. destruct (hi_vlan _ _ Hin Hv) as [Hv1 Hv2].
  pose proof Hok as [? ? ? ? _]. unfold pop_vlan_edit.
  destruct (safe_rd 2 (vlan_next_type (vlan pr)) b) with (b1 := b) as (t & b0 & E & _); [in_buffer | done |].
  assert (b0 = b) as -> by (unfold rd in E; destruct (load _ _ _); simplify_eq/=; done). rewrite (ebind_some _ _ _ _ _ E).
  apply move_runs; [unfold VLAN_HEADER_LEN; lia | |].
  - unfold add_length. solve_safe.
  - unfold VLAN_HEADER_LEN. intros b1 H1 H2 H3 H4. apply safe_data, safe_memmove; in_buffer.
Qed.

Lemma pop_mpls_runs : mpls pr <> 0 -> can_execute b pr (Act_pop_mpls e) -> exists b', pop_mpls_edit pr e b = Some (tt, b').
Proof using Hok Hmax Hin Heth.
  intros Hm Hc. destruct (Hc Heth Hm) as (Hs & Hsn & Hl & H18). pose proof (hi_eth _ _ Hin Heth) as He. destruct (hi_mpls _ _ Hin Hm) as [Hm1 Hm2].
  pose proof Hok as [? ? ? ? _]. unfold pop_mpls_edit. apply move_runs; [unfold MPLS_HEADER_LEN; lia | |].
  - apply safe_last_type; in_buffer.
  - unfold MPLS_HEADER_LEN. intros b1 H1 H2 H3 H4. apply safe_data, safe_bind; [apply safe_memmove; in_buffer | intros _]. solve_safe. apply safe_add_length. in_buffer.
Qed.

Lemma pop_pbb_runs : pbb pr <> 0 -> exists b', pop_pbb_edit pr b = Some (tt, b').
Proof using Hok Hmax Hin Heth.
  intros Hp. pose proof (hi_eth _ _ Hin Heth) as He. destruct (hi_pbb _ _ Hin Hp) as [Hp1 Hp2]. pose proof Hok as [? ? ? ? _].
  assert (Hsafe : safe (memmove (data b) (c_eth_dst (pbb pr)) (size b - (c_eth_dst (pbb pr) - eth pr))) b) by (apply safe_memmove; in_buffer).
  destruct (Hsafe b) as ([] & b1 & E & _); [done |]. unfold pop_pbb_edit. cbv zeta.
  rewrite (ebind_some _ _ _ (data b) b), (ebind_some _ _ _ (size b) b), (ebind_some _ _ _ _ _ E) by done. by eexists.
Qed.
End pops.

(** ** Every action *)

Lemma run_safe p c : safe c (buffer p) -> exists p', run p c = Some p'.
Proof. intros Hc. destruct (Hc (buffer p)) as ([] & b' & E & _); [done |]. unfold run. rewrite E. by eexists. Qed.

Lemma run_edit p c b' : c (buffer p) = Some (tt, b') -> exists p', (p1 ← run p c; Some (with_valid p1 false)) = Some p'.
Proof. intros E. unfold run. rewrite E. by eexists. Qed.

Lemma copy_ttl_room p v : buf_ok (buffer p) -> within (buffer p) v 8 ->
  (ETH_HEADER_LEN + MPLS_HEADER_LEN + IP_HEADER_LEN <= size (buffer p) -> within (buffer p) v 16) ->
  (room_for_ip p = true -> spot (buffer p) v 16) /\ spot (buffer p) v 8.
Proof.
  intros [? ? ? ? _] H8 H16. split; [| in_buffer]. intros Hr. unfold room_for_ip in Hr. rewrite orb_true_iff, !Z.leb_le in Hr.
  assert (within (buffer p) v 16) by (apply H16; unfold ETH_HEADER_LEN, MPLS_HEADER_LEN, IP_HEADER_LEN, IPV6_HEADER_LEN in *; lia). in_buffer.
Qed.

Lemma action_succeeds `{Parser} junk p a at_ :
  let v := packet_handle_std_validate p in
  headers_inside (buffer v) (headers v) -> buf_ok (buffer v) -> size (buffer v) + 18 < 2 ^ 64 -> 0 < at_ ->
  can_execute (buffer v) (headers v) a -> exists p', dp_execute_action junk p a at_ = Some p'.
Proof.
  intros v Hin Hok Hmax Hat Hc. pose proof Hok as [? ? ? ? _].
  destruct a; cbn [dp_execute_action]; try (by eexists).
  - unfold copy_ttl_out. fold v. destruct (Z.eqb_spec (mpls (headers v)) 0) as [| Hm]; [by eexists |]. destruct (Hc Hm) as [H8 H16].
    destruct (copy_ttl_room v _ Hok H8 H16) as [Hr Hs]. apply run_safe. unfold set_ttl_bits. destruct (room_for_ip v); [specialize (Hr eq_refl) |]; solve_safe.
  - unfold copy_ttl_in. fold v. cbv zeta. destruct (Z.eqb_spec (mpls (headers v)) 0) as [| Hm]; [by eexists |]. destruct (Hc Hm) as [H8 H16].
    destruct (copy_ttl_room v _ Hok H8 H16) as [Hr Hs]. apply run_safe. unfold set_ttl_bits, set_ip_ttl, set_ip_word. destruct (room_for_ip v); [specialize (Hr eq_refl) |]; solve_safe.
  - unfold set_mpls_ttl. fold v. destruct (Z.eqb_spec (mpls (headers v)) 0) as [| Hm]; [by eexists |]. destruct (hi_mpls _ _ Hin Hm).
    apply run_safe. unfold set_bits32. solve_safe.
  - unfold dec_mpls_ttl. fold v. cbv zeta. destruct (Z.eqb_spec (mpls (headers v)) 0) as [| Hm]; [by eexists |]. destruct (hi_mpls _ _ Hin Hm).
    apply run_safe. unfold set_ttl_bits. solve_safe.
  - unfold push_vlan. fold v. destruct (Z.eqb_spec (eth (headers v)) 0) as [| He]; [by eexists |].
    destruct (push_vlan_runs junk (buffer v) (headers v) ethertype at_ Hok Hat Hmax Hin He Hc) as (b' & E). by apply (run_edit v _ b').
  - unfold pop_vlan. fold v. destruct (Z.eqb_spec (eth (headers v)) 0) as [| He], (Z.eqb_spec (vlan (headers v)) 0) as [| Hv]; cbn [negb andb]; try (by eexists).
    destruct (pop_vlan_runs (buffer v) (headers v) Hok Hmax Hin He Hv Hc) as (b' & E). by apply (run_edit v _ b').
  - unfold push_mpls. fold v. destruct (Z.eqb_spec (eth (headers v)) 0) as [| He]; [by eexists |].
    destruct (push_mpls_runs junk (buffer v) (headers v) ethertype at_ Hok Hat Hmax Hin He Hc) as (b' & E). by apply (run_edit v _ b').
  - unfold pop_mpls. fold v. destruct (Z.eqb_spec (eth (headers v)) 0) as [| He], (Z.eqb_spec (mpls (headers v)) 0) as [| Hv]; cbn [negb andb]; try (by eexists).
    destruct (pop_mpls_runs (buffer v) (headers v) ethertype Hok Hmax Hin He Hv Hc) as (b' & E). by apply (run_edit v _ b').
  - destruct Hc as [H4 H6]. unfold set_nw_ttl. fold v. destruct (Z.eqb_spec (ipv4 (headers v)) 0) as [| Hi4]; cbn [negb]; [| apply run_safe; unfold set_ip_ttl, set_ip_word; solve_safe].
    destruct (Z.eqb_spec (ipv6 (headers v)) 0) as [| Hi6]; cbn [negb]; [by eexists | apply run_safe; solve_safe].
  - destruct Hc as [H4 H6]. unfold dec_nw_ttl. fold v. destruct (Z.eqb_spec (ipv4 (headers v)) 0) as [| Hi4]; cbn [negb]; [| apply run_safe; unfold set_ip_ttl, set_ip_word; solve_safe].
    destruct (Z.eqb_spec (ipv6 (headers v)) 0) as [| Hi6]; cbn [negb]; [by eexists | apply run_safe; solve_safe].
  - unfold set_field. fold v. cbv zeta. destruct (valid _); [| by eexists]. destruct (_ =? _); [by eexists |].
    destruct (safe_set_field _ Hok _ _ _ Hc (buffer v)) as ([] & b' & E & _); [done |]. by apply (run_edit v _ b').
  - unfold push_pbb. fold v. destruct (Z.eqb_spec (eth (headers v)) 0) as [| He]; [by eexists |].
    destruct (push_pbb_runs junk (buffer v) (headers v) ethertype at_ Hok Hat Hmax Hin He Hc) as (b' & E). by apply (run_edit v _ b').
  - unfold pop_pbb. fold v. destruct (Z.eqb_spec (eth (headers v)) 0) as [| He], (Z.eqb_spec (pbb (headers v)) 0) as [| Hv]; cbn [negb andb]; try (by eexists).
    destruct (pop_pbb_runs (buffer v) (headers v) Hok Hmax Hin He Hv) as (b' & E). by apply (run_edit v _ b').
Qed.

(** How much longer an action makes a packet. *)
Definition size_change (pr : protocols_std) (a : ofl_action) : Z :=
  let has p n := if p =? 0 then 0 else n in
  match a with
  | Act_push_vlan _ => has (eth pr) VLAN_HEADER_LEN
  | Act_pop_vlan => has (eth pr) (has (vlan pr) (- VLAN_HEADER_LEN))
  | Act_push_mpls _ => has (eth pr) MPLS_HEADER_LEN
  | Act_pop_mpls _ => has (eth pr) (has (mpls pr) (- MPLS_HEADER_LEN))
  | Act_push_pbb _ => has (eth pr) PBB_HEADER_LEN
  | Act_pop_pbb => has (eth pr) (has (pbb pr) (eth pr - (pbb pr + 4)))
  | _ => 0
  end.

Lemma run_resizes p c n p' : resizes c (buffer p) n -> run p c = Some p' ->
  buf_ok (buffer p') /\ size (buffer p') = size (buffer p) + n.
Proof.
  intros Hc. unfold run. destruct (c (buffer p)) as [[[] b'] |] eqn:E; [| done]. cbn [mbind option_bind]. intros [= <-].
  by apply Hc.
Qed.

Lemma run_invalid_resizes p c n p' : resizes c (buffer p) n ->
  (p1 ← run p c; Some (with_valid p1 false)) = Some p' -> buf_ok (buffer p') /\ size (buffer p') = size (buffer p) + n.
Proof.
  intros Hc. destruct (run p c) as [p1 |] eqn:E; [| done]. cbn [mbind option_bind]. intros [= <-].
  by apply (run_resizes p c n p1).
Qed.

(** A packet without the header is left alone. *)
Lemma push_keeps v (q n : Z) c p' :
  buf_ok (buffer v) -> resizes c (buffer v) n ->
  (if q =? 0 then Some v else p1 ← run v c; Some (with_valid p1 false)) = Some p' ->
  buf_ok (buffer p') /\ size (buffer p') = size (buffer v) + if q =? 0 then 0 else n.
Proof.
  intros Hok Hc. destruct (q =? 0); [intros [= <-]; by rewrite Z.add_0_r | by apply run_invalid_resizes].
Qed.

Lemma pop_keeps v (q r n : Z) c p' :
  buf_ok (buffer v) -> (q <> 0 -> r <> 0 -> resizes c (buffer v) n) ->
  (if negb (q =? 0) && negb (r =? 0) then p1 ← run v c; Some (with_valid p1 false) else Some v) = Some p' ->
  buf_ok (buffer p') /\ size (buffer p') = size (buffer v) + if q =? 0 then 0 else if r =? 0 then 0 else n.
Proof.
  intros Hok Hc. destruct (Z.eqb_spec q 0), (Z.eqb_spec r 0); cbn [negb andb];
    try (intros [= <-]; by rewrite Z.add_0_r). by apply run_invalid_resizes, Hc.
Qed.

(** An action that succeeds leaves a buffer of the right size. *)
Lemma action_leaves `{Parser} junk p a at_ p' :
  headers_inside (buffer p) (headers (packet_handle_std_validate p)) -> buf_ok (buffer p) -> size (buffer p) + 18 < 2 ^ 64 -> 0 < at_ ->
  dp_execute_action junk p a at_ = Some p' ->
  buf_ok (buffer p') /\
  size (buffer p') = size (buffer p) + size_change (headers (packet_handle_std_validate p)) a.
Proof.
  intros Hin Hok Hmax Hat Hx.
  rewrite <- (validate_buffer p) in Hok, Hmax, Hin |- *. set (v := packet_handle_std_validate p) in *.
  assert (forall c, stable c -> run v c = Some p' -> buf_ok (buffer p') /\ size (buffer p') = size (buffer v) + 0) as Hst
    by (intros c Hc; by apply run_resizes, stable_resizes).
  assert (Some v = Some p' -> buf_ok (buffer p') /\ size (buffer p') = size (buffer v) + 0) as Hsame
    by (intros [= <-]; by rewrite Z.add_0_r).
  assert (buffer p = buffer v) as Hpv by (symmetry; apply validate_buffer).
  destruct a; cbn [dp_execute_action size_change] in *; cbv zeta.
  (* the actions that leave the buffer alone *)
  1,10,11,17: injection Hx as <-; unfold output, set_queue, group, dp_exp_action; cbn [with_out with_out_queue buffer];
    rewrite Hpv, Z.add_0_r; done.
  - unfold copy_ttl_out in Hx. fold v in Hx. destruct (_ =? _); [by apply Hsame |]. eapply Hst, Hx. solve_stable.
  - unfold copy_ttl_in in Hx. fold v in Hx. destruct (_ =? _); [by apply Hsame |]. eapply Hst, Hx. solve_stable.
  - unfold set_mpls_ttl in Hx. fold v in Hx. destruct (_ =? _); [by apply Hsame |]. eapply Hst, Hx. solve_stable.
  - unfold dec_mpls_ttl in Hx. fold v in Hx. destruct (_ =? _); [by apply Hsame |]. eapply Hst, Hx. solve_stable.
  - eapply push_keeps, Hx; [done | by apply push_vlan_resizes].
  - eapply pop_keeps, Hx; [done |]. intros. by eapply pop_vlan_resizes.
  - eapply push_keeps, Hx; [done | by apply push_mpls_resizes].
  - eapply pop_keeps, Hx; [done |]. intros. by eapply pop_mpls_resizes.
  - unfold set_nw_ttl in Hx. fold v in Hx. repeat destruct (negb _); [eapply Hst, Hx; solve_stable.. | by apply Hsame].
  - unfold dec_nw_ttl in Hx. fold v in Hx. repeat destruct (negb _); [eapply Hst, Hx; solve_stable.. | by apply Hsame].
  - unfold set_field in Hx. fold v in Hx. destruct (valid _); [| by apply Hsame].
    destruct (_ =? _); [injection Hx as <-; cbn [with_handle buffer]; by rewrite Z.add_0_r |].
    eapply run_invalid_resizes, Hx. apply stable_resizes; [done | apply stable_set_field].
  - eapply push_keeps, Hx; [done | by apply push_pbb_resizes].
  - eapply pop_keeps, Hx; [done |]. intros He Hp. rewrite (hi_eth _ _ Hin He). by eapply pop_pbb_resizes.
Qed.

(** C8. Executing any action on a packet whose headers lie in it ([headers_inside]) and that has what the
    action needs ([can_execute]: the header it changes, and room for one that is pushed) reads and writes
    nothing outside the buffer: it succeeds, the packet is in a well-formed buffer, and its size has changed
    by exactly the header pushed or popped. A header that is missing is not touched. What the conditions
    leave out fails: see [push_vlan_overruns] and [push_pbb_dangles]. *)
Theorem action_keeps_buffer `{Parser} junk p a at_ :
  let v := packet_handle_std_validate p in
  buf_ok (buffer p) -> size (buffer p) + 18 < 2 ^ 64 -> 0 < at_ ->
  headers_inside (buffer p) (headers v) -> can_execute (buffer p) (headers v) a ->
  exists p', dp_execute_action junk p a at_ = Some p' /\ buf_ok (buffer p') /\
    size (buffer p') = size (buffer p) + size_change (headers v) a.
Proof.
  intros v Hok Hmax Hat Hin Hc. pose proof (validate_buffer p : buffer v = buffer p) as Hv.
  destruct (action_succeeds junk p a at_) as (p' & E); fold v; rewrite ?Hv; try done.
  exists p'. split; [done |]. by apply (action_leaves junk p a at_ p').
Qed.
(** ** Witnesses *)

(** A parser that knows Ethernet, VLAN tags and IPv4. *)
Definition demo_parser : Parser := fun b pr =>
  let t := frame_type b in
  let v := if is_vlan_type t && (18 <=? size b) then data b + 14 else 0 in
  (ofl_structs_match_init,
   Protocols (data b) 0 v v 0 0 (if t =? 0x800 then data b + 14 else 0) 0 0 0 0 0 0 0 (ehddp_notify pr), true).

(** An IPv4 frame with a right checksum, and one with a VLAN tag. *)
Definition demo_ipv4 : list Z :=
  [2;0;0;0;0;1; 2;0;0;0;0;2; 0x08;0x00;
   0x45;0x00;0x00;0x14; 0x00;0x00;0x00;0x00; 0x40;0x11;0x66;0xd7; 10;0;0;1; 10;0;0;2].
Definition demo_tagged : list Z := [2;0;0;0;0;1; 2;0;0;0;0;2; 0x81;0x00; 0x20;0x05; 0x88;0xb5; 1;2;3].

Definition no_headers : protocols_std := Protocols 0 0 0 0 0 0 0 0 0 0 0 0 0 0 0.

Definition demo_packet (head : nat) (bs : list Z) (tail : nat) : packet :=
  Pkt (Buf 4096 (replicate head 0xee ++ bs ++ replicate tail 0xee) (4096 + head) (length bs) 0 0 0 0) 1 [] false
    OFPG_ANY OFPP_ANY 0 0 0 NO_BUFFER (Handle no_headers ofl_structs_match_init false false).

Ltac demo_buf_ok := split; [by vm_compute.. | apply (bool_decide_unpack _); by vm_compute].
Ltac demo_bytes_ok := apply (bool_decide_unpack _); by vm_compute.

Lemma nw_ttl_checksum_witness :
  let p := demo_packet 2 demo_ipv4 3 in
  exists p', @dec_nw_ttl demo_parser p = Some p' /\
    slice 14 20 (bytes (buffer p')) = [0x45;0x00;0x00;0x14; 0x00;0x00;0x00;0x00; 0x3f;0x11;0x67;0xd7; 10;0;0;1; 10;0;0;2] /\
    header_checks (slice 14 20 (bytes (buffer p'))).
Proof.
  cbv zeta. destruct (@nw_ttl_checksum demo_parser (demo_packet 2 demo_ipv4 3) 14 20 64) as [(p' & Hd & Hset) _].
  - demo_buf_ok.
  - demo_bytes_ok.
  - by vm_compute.
  - by vm_compute.
  - lia.
  - by vm_compute.
  - by vm_compute.
  - exists p'. destruct Hset as (c & _ & Hc). split_and!; [exact Hd | | apply Hc; by vm_compute].
    vm_compute in Hd. injection Hd as <-. by vm_compute.
Defined.

Lemma action_keeps_buffer_witness :
  let p := demo_packet 1 demo_tagged 2 in
  exists p', @dp_execute_action demo_parser (fun _ => 7) p Act_pop_vlan 8192 = Some p' /\
    buf_ok (buffer p') /\ size (buffer p') = 17.
Proof.
  cbv zeta. destruct (@action_keeps_buffer demo_parser (fun _ => 7) (demo_packet 1 demo_tagged 2) Act_pop_vlan 8192) as (p' & E & Hb & Hs).
  - demo_buf_ok.
  - by vm_compute.
  - lia.
  - split; by vm_compute.
  - intros _ _. split; by vm_compute.
  - exists p'. split_and!; [exact E | exact Hb | exact Hs].
Defined.

Lemma push_pop_vlan_witness :
  exists p1 p2, @push_vlan demo_parser (fun _ => 0) (demo_packet 0 demo_tagged 1) 0x88a8 8192 = Some p1 /\
    @pop_vlan demo_parser p1 = Some p2 /\
    bytes (buffer p1) = [2;0;0;0;0;1; 2;0;0;0;0;2; 0x88;0xa8; 0x20;0x05; 0x81;0x00; 0x20;0x05; 0x88;0xb5; 1;2;3] /\
    bytes (buffer p2) = demo_tagged.
Proof.
  destruct (@push_pop_vlan demo_parser (fun _ => 0) (demo_packet 0 demo_tagged 1) 0x88a8 8192) as (p1 & p2 & H1 & H2 & Hb1 & Hb2).
  - demo_buf_ok.
  - demo_bytes_ok.
  - by vm_compute.
  - by vm_compute.
  - by vm_compute.
  - by vm_compute.
  - by vm_compute.
  - apply (bool_decide_unpack _). by vm_compute.
  - lia.
  - by vm_compute.
  - intros b pr Hok Hb. pose proof (bytes_length b Hok) as Hl. unfold ethernet_frame. cbn [nblink_packet_parse demo_parser]. unfold frame_type.
    rewrite Hb in Hl |- *. assert (size b = 25) as Hs by (destruct Hok; rewrite <- (Z2Nat.id (size b)), <- Hl by done; by vm_compute). by rewrite Hs.
  - exists p1, p2. split_and!; [exact H1 | exact H2 | rewrite Hb1; by vm_compute | rewrite Hb2; by vm_compute].
Defined.

(** ** What goes wrong *)

(** With four to seven bytes of tailroom, [push_vlan] writes beyond the buffer. *)
Lemma push_vlan_overruns junk b pr e at_ :
  buf_ok b -> 0 < at_ -> eth_snap pr = 0 -> 14 <= size b -> ofpbuf_headroom b < 4 -> 4 <= ofpbuf_tailroom b < 8 ->
  push_vlan_edit junk pr e at_ b = None.
Proof.
  intros Hok Hat Hsn Hs Hh Ht. unfold push_vlan_edit. rewrite (ebind_some _ _ _ (ofpbuf_headroom b) b) by done.
  unfold eth_size. rewrite Hsn. change (0 =? 0) with true. cbv iota zeta.
  change VLAN_HEADER_LEN with (Z.of_nat 4). change ETH_HEADER_LEN with (Z.of_nat 14).
  rewrite (proj2 (Z.leb_gt _ _)) by lia. apply tail_gap_overruns; (done || lia).
Qed.

(** The priority of a missing tag is written to the DSCP of the IPv4 header. *)
Lemma vlan_pcp_sets_dscp pr v :
  vlan pr = 0 -> ipv4 pr <> 0 -> set_field_edit pr OXM_OF_VLAN_PCP v = set_field_edit pr OXM_OF_IP_DSCP v.
Proof.
  intros Hv H4. unfold set_field_edit. rewrite Hv.
  repeat match goal with |- context [Z.eqb ?a ?b] =>
    let r := eval vm_compute in (Z.eqb a b) in
    match r with true => idtac | false => idtac end; change (Z.eqb a b) with r; cbn [orb andb negb]; cbv iota
  end. done.
Qed.

(** When the packet moves, [push_pbb] copies the Ethernet header from where it was. *)
Lemma push_pbb_dangles :
  let p := demo_packet 0 demo_tagged 0 in
  @push_pbb demo_parser (fun _ => 0) p 0x88e7 8192 = None /\
  is_Some (@push_pbb demo_parser (fun _ => 0) p 0x88e7 4096).
Proof. split; [by vm_compute | eexists; by vm_compute]. Qed.
End DpActions.
