(* ===== verification/Ports.v ===== *)
(** The ports of the datapath (udatapath/dp_ports.c): look-up, output and flooding with
    their counters, queues, the port, statistics and queue messages, and the ports
    that are added and removed. *)
From S2P Require Import Prelude Oxm OflTypes.
Open Scope Z_scope.

Module Ports.

Definition OFPPC_PORT_DOWN : Z := 1.
Definition OFPPC_NO_RECV : Z := 4.
Definition OFPPC_NO_FWD : Z := 32.
Definition OFPPS_LINK_DOWN : Z := 1.
Definition OFPPS_LIVE : Z := 4.
Definition OFPPR_ADD : Z := 0.
Definition OFPPR_MODIFY : Z := 2.
Definition OFPQ_ALL : Z := 0xffffffff.
Definition OFPET_PORT_MOD_FAILED : Z := 7.
Definition OFPET_QUEUE_OP_FAILED : Z := 9.
Definition OFPPMFC_BAD_PORT : Z := 0.
Definition OFPPMFC_BAD_HW_ADDR : Z := 1.
Definition OFPQOFC_BAD_PORT : Z := 0.
Definition OFPQOFC_BAD_QUEUE : Z := 1.
Definition OFPQOFC_EPERM : Z := 2.
Definition OFPBRC_IS_SLAVE : Z := 10.
Definition OFPCR_ROLE_SLAVE : Z := 3.
Definition NETDEV_MAX_QUEUES : Z := 8.
Definition DP_MAX_PORTS : Z := 255.
(** The [errno] of a full table. *)
Definition EXFULL : Z := 54.

(** [(w & bits) != 0] *)
Definition flag (w bits : Z) : bool := negb (Z.land w bits =? 0).

(** * Data *)

(** [struct ofl_port] *)
Record ofl_port := PDesc {
  port_no : Z; hw_addr : list Z; name : string; config : Z; state : Z; curr : Z; advertised : Z;
  supported : Z; peer : Z; curr_speed : Z; max_speed : Z }.

(** [struct ofl_port_stats] *)
Record ofl_port_stats := PStats {
  ps_port_no : Z; rx_packets : Z; tx_packets : Z; rx_bytes : Z; tx_bytes : Z; rx_dropped : Z;
  tx_dropped : Z; rx_errors : Z; tx_errors : Z; rx_frame_err : Z; rx_over_err : Z; rx_crc_err : Z;
  collisions : Z; duration_sec : Z; duration_nsec : Z }.

(** [struct ofl_queue_stats] *)
Record ofl_queue_stats := QStats {
  qs_port_no : Z; qs_queue_id : Z; q_tx_bytes : Z; q_tx_packets : Z; q_tx_errors : Z;
  q_duration_sec : Z; q_duration_nsec : Z }.

(** [struct ofl_packet_queue] with the one property the code gives it, the minimum rate. *)
Record ofl_packet_queue := PQueue { pq_queue_id : Z; min_rate : Z }.

(** [struct sw_queue] of a queue in use: its [port] is not NULL. *)
Record sw_queue := Queue { class_id : Z; q_created : Z; q_stats : ofl_queue_stats; props : ofl_packet_queue }.

(** What the ports see of a [struct netdev]. *)
Record netdev := Netdev { dev_name : string; etheraddr : list Z }.

(** [struct sw_port] of a port in use: [SWP_USED] is set and [netdev] is not NULL. *)
Record sw_port := Port {
  dev : netdev; conf : ofl_port; stats : ofl_port_stats; max_queues : Z; num_queues : Z;
  p_created : Z; queues : list (option sw_queue) }.

(** A [struct sw_port *]: an element of [dp->ports] or [dp->local_port]. *)
Inductive portref := PSlot (n : nat) | PLocal.

#[global] Instance portref_eq_dec : EqDecision portref.
Proof. solve_decision. Defined.

(** A frame handed to a device, and whether the device took it. *)
Record frame := Frame { f_port : portref; f_class : Z; f_bytes : list Z; f_sent : bool }.

#[global] Instance frame_eq_dec : EqDecision frame.
Proof. solve_decision. Defined.

(** The part of [struct datapath] the ports use: [None] in [slots] is a port whose
    [netdev] is NULL. [wire] is what was handed to the devices, oldest first. *)
Record ports := Ports {
  slots : list (option sw_port); local_port : option sw_port; port_list : list portref;
  ports_num : Z; wire : list frame }.

(** [OFPT_PORT_STATUS] *)
Record port_status := PStatus { reason : Z; desc : ofl_port }.

Definition port_at (ps : ports) (r : portref) : option sw_port :=
  match r with PSlot n => mjoin (slots ps !! n) | PLocal => local_port ps end.

Definition set_port (ps : ports) (r : portref) (p : sw_port) : ports :=
  match r with
  | PSlot n => Ports (<[n := Some p]> (slots ps)) (local_port ps) (port_list ps) (ports_num ps) (wire ps)
  | PLocal => Ports (slots ps) (Some p) (port_list ps) (ports_num ps) (wire ps)
  end.

Definition with_conf (p : sw_port) (c : ofl_port) : sw_port :=
  Port (dev p) c (stats p) (max_queues p) (num_queues p) (p_created p) (queues p).
Definition with_stats (p : sw_port) (s : ofl_port_stats) : sw_port :=
  Port (dev p) (conf p) s (max_queues p) (num_queues p) (p_created p) (queues p).
Definition with_queues (p : sw_port) (n : Z) (q : list (option sw_queue)) : sw_port :=
  Port (dev p) (conf p) (stats p) (max_queues p) n (p_created p) q.
Definition with_config (c : ofl_port) (cfg st : Z) : ofl_port :=
  PDesc (port_no c) (hw_addr c) (name c) cfg st (curr c) (advertised c) (supported c) (peer c)
    (curr_speed c) (max_speed c).
Definition with_q_stats (q : sw_queue) (s : ofl_queue_stats) : sw_queue :=
  Queue (class_id q) (q_created q) s (props q).

(** * Look-up and output *)

(** [ports_num] leaves the local port out; the subtraction is unsigned. *)
Definition dp_ports_lookup (ps : ports) (no : Z) : option portref :=
  let n := match local_port ps with Some _ => u32 (ports_num ps - 1) | None => u32 (ports_num ps) end in
  if no =? OFPP_LOCAL then match local_port ps with Some _ => Some PLocal | None => None end
  else if (no <? 1) || (n <? no) then None
  else Some (PSlot (Z.to_nat no)).

(** The queue in use with an identifier. *)
Definition dp_ports_lookup_queue (p : sw_port) (queue_id : Z) : option sw_queue :=
  if queue_id <? max_queues p then mjoin (queues p !! Z.to_nat queue_id) else None.

Definition count_tx (s : ofl_port_stats) (size : Z) (sent : bool) : ofl_port_stats :=
  if sent then
    PStats (ps_port_no s) (rx_packets s) (u64 (tx_packets s + 1)) (rx_bytes s) (u64 (tx_bytes s + size))
      (rx_dropped s) (tx_dropped s) (rx_errors s) (tx_errors s) (rx_frame_err s) (rx_over_err s)
      (rx_crc_err s) (collisions s) (duration_sec s) (duration_nsec s)
  else
    PStats (ps_port_no s) (rx_packets s) (tx_packets s) (rx_bytes s) (tx_bytes s)
      (rx_dropped s) (u64 (tx_dropped s + 1)) (rx_errors s) (tx_errors s) (rx_frame_err s) (rx_over_err s)
      (rx_crc_err s) (collisions s) (duration_sec s) (duration_nsec s).

Definition count_rx (s : ofl_port_stats) (size : Z) : ofl_port_stats :=
  PStats (ps_port_no s) (u64 (rx_packets s + 1)) (tx_packets s) (u64 (rx_bytes s + size)) (tx_bytes s)
    (rx_dropped s) (tx_dropped s) (rx_errors s) (tx_errors s) (rx_frame_err s) (rx_over_err s)
    (rx_crc_err s) (collisions s) (duration_sec s) (duration_nsec s).

Definition count_queue_tx (q : sw_queue) (size : Z) : sw_queue :=
  let s := q_stats q in
  with_q_stats q (QStats (qs_port_no s) (qs_queue_id s) (u64 (q_tx_bytes s + size)) (u64 (q_tx_packets s + 1))
                    (q_tx_errors s) (q_duration_sec s) (q_duration_nsec s)).

Section output.
(** Whether the device of a port takes a frame ([netdev_send] returns 0), given what
    was handed to the devices before. *)
Context (netdev_send : list frame -> portref -> Z -> list Z -> bool).

(** The body of [dp_ports_output] for a port that is up, in the class of queue [q]. *)
Definition send_on (ps : ports) (r : portref) (p : sw_port) (qid : option nat) (cls : Z) (buf : list Z) : ports :=
  let sent := netdev_send (wire ps) r cls buf in
  let p1 := with_stats p (count_tx (stats p) (length buf) sent) in
  let p2 := match qid with
            | Some i => if sent then with_queues p1 (num_queues p1)
                                       (alter (fmap (fun q => count_queue_tx q (length buf))) i (queues p1))
                        else p1
            | None => p1
            end in
  let ps1 := set_port ps r p2 in
  Ports (slots ps1) (local_port ps1) (port_list ps1) (ports_num ps1) (wire ps1 ++ [Frame r cls buf sent]).

(** [dp_ports_output] *)
Definition dp_ports_output (ps : ports) (buf : list Z) (out_port queue_id : Z) : ports :=
  match dp_ports_lookup ps out_port with
  | Some r =>
      match port_at ps r with
      | Some p =>
          if flag (config (conf p)) OFPPC_PORT_DOWN then ps
          else if queue_id =? 0 then send_on ps r p None 0 buf
          else match dp_ports_lookup_queue p queue_id with
               | Some q => send_on ps r p (Some (Z.to_nat queue_id)) (class_id q) buf
               | None => ps
               end
      | None => ps
      end
  | None => ps
  end.

(** The loop of [dp_ports_output_all] over the ports of [l]. *)
Fixpoint output_all_loop (ps : ports) (buf : list Z) (in_port : Z) (flood : bool) (l : list portref) : option ports :=
  match l with
  | [] => Some ps
  | r :: l =>
      p ← port_at ps r;
      if port_no (conf p) =? u32 in_port then output_all_loop ps buf in_port flood l
      else
        same ← (if u32 in_port =? OFPP_LOCAL then
                  lp ← local_port ps; Some (bool_decide (name (conf p) = name (conf lp)))
                else Some false);
        if (same : bool) then output_all_loop ps buf in_port flood l
        else if flood && flag (config (conf p)) OFPPC_NO_FWD then output_all_loop ps buf in_port flood l
        else output_all_loop (dp_ports_output ps buf (ps_port_no (stats p)) 0) buf in_port flood l
  end.

(** [dp_ports_output_all]; [None] is a NULL local port that is read. *)
Definition dp_ports_output_all (ps : ports) (buf : list Z) (in_port : Z) (flood : bool) : option ports :=
  output_all_loop ps buf in_port flood (port_list ps).

End output.


(** * Liveness and port messages *)

Definition dp_port_live_update (c : ofl_port) : ofl_port :=
  with_config c (config c)
    (if flag (state c) OFPPS_LINK_DOWN || flag (config c) OFPPC_PORT_DOWN
     then Z.land (state c) (compl 32 OFPPS_LIVE) else Z.lor (state c) OFPPS_LIVE).

(** [struct ofl_msg_port_mod] *)
Record port_mod := PMod { pm_port_no : Z; pm_hw_addr : list Z; pm_config : Z; pm_mask : Z }.

(** [dp_ports_handle_port_mod] for a controller of role [role]. *)
Definition dp_ports_handle_port_mod (ps : ports) (m : port_mod) (role : Z) : option (ports * Z * list port_status) :=
  if role =? OFPCR_ROLE_SLAVE then Some (ps, ofl_error OFPET_BAD_REQUEST OFPBRC_IS_SLAVE, [])
  else match dp_ports_lookup ps (pm_port_no m) with
       | None => Some (ps, ofl_error OFPET_PORT_MOD_FAILED OFPPMFC_BAD_PORT, [])
       | Some r =>
           p ← port_at ps r;
           if negb (bool_decide (pm_hw_addr m = etheraddr (dev p)))
           then Some (ps, ofl_error OFPET_PORT_MOD_FAILED OFPPMFC_BAD_HW_ADDR, [])
           else
             let c := conf p in
             let c1 := if pm_mask m =? 0 then c
                       else dp_port_live_update
                              (with_config c (Z.lor (Z.land (config c) (compl 32 (pm_mask m)))
                                                (Z.land (pm_config m) (pm_mask m))) (state c)) in
             Some (set_port ps r (with_conf p c1), 0, [PStatus OFPPR_MODIFY c1])
       end.

(** [dp_ports_handle_port_mod_UAH]: only the notification. *)
Definition dp_ports_handle_port_mod_UAH (ps : ports) (no : Z) : option (Z * list port_status) :=
  match dp_ports_lookup ps no with
  | None => Some (ofl_error OFPET_PORT_MOD_FAILED OFPPMFC_BAD_PORT, [])
  | Some r => p ← port_at ps r; Some (0, [PStatus OFPPR_MODIFY (conf p)])
  end.

Inductive netdev_link_state := NETDEV_LINK_NO_CHANGE | NETDEV_LINK_UP | NETDEV_LINK_DOWN.

(** The change of interface state in the loop of [dp_ports_run]. *)
Definition link_change (c : ofl_port) (s : netdev_link_state) : ofl_port :=
  match s with
  | NETDEV_LINK_UP => dp_port_live_update (with_config c (config c) (Z.land (state c) (compl 32 OFPPS_LINK_DOWN)))
  | NETDEV_LINK_DOWN => dp_port_live_update (with_config c (config c) (Z.lor (state c) OFPPS_LINK_DOWN))
  | NETDEV_LINK_NO_CHANGE => c
  end.

(** * Statistics *)

(** [dp_port_stats_update] *)
Definition dp_port_stats_update (p : sw_port) (now : Z) : sw_port :=
  let s := stats p in
  let d := u64 (now - p_created p) in
  with_stats p
    (PStats (ps_port_no s) (rx_packets s) (tx_packets s) (rx_bytes s) (tx_bytes s) (rx_dropped s) (tx_dropped s)
       (rx_errors s) (tx_errors s) (rx_frame_err s) (rx_over_err s) (rx_crc_err s) (collisions s)
       (u32 (d / 1000)) (u32 (d mod 1000 * 1000000))).

(** [dp_ports_queue_update] *)
Definition dp_ports_queue_update (q : sw_queue) (now : Z) : sw_queue :=
  let s := q_stats q in
  let d := u64 (now - q_created q) in
  with_q_stats q
    (QStats (qs_port_no s) (qs_queue_id s) (q_tx_bytes s) (q_tx_packets s) (q_tx_errors s)
       (u32 (d / 1000)) (u32 (d mod 1000 * 1000000))).

(** A reply: the number of elements its array is allocated for, and the elements
    that are written into it in order. *)
Record reply (A : Type) := Reply { stats_num : Z; entries : list A }.
Arguments Reply {A}. Arguments stats_num {A}. Arguments entries {A}.

(** Runs [f] on the ports of the list, in order, and gathers what it writes. *)
Fixpoint for_each_port {A} (f : sw_port -> sw_port * list A) (ps : ports) (l : list portref) : option (ports * list A) :=
  match l with
  | [] => Some (ps, [])
  | r :: l =>
      p ← port_at ps r;
      let '(p', out) := f p in
      '(ps', rest) ← for_each_port f (set_port ps r p') l;
      Some (ps', out ++ rest)
  end.

(** [dp_ports_handle_stats_request_port] *)
Definition dp_ports_handle_stats_request_port (ps : ports) (no now : Z) : option (ports * reply ofl_port_stats) :=
  let upd p := let p' := dp_port_stats_update p now in (p', [stats p']) in
  if no =? OFPP_ANY then
    '(ps', out) ← for_each_port upd ps (port_list ps);
    Some (ps', Reply (ports_num ps) out)
  else match dp_ports_lookup ps no with
       | Some r =>
           match port_at ps r with
           | Some p => let '(p', out) := upd p in Some (set_port ps r p', Reply 1 out)
           | None => Some (ps, Reply 0 [])
           end
       | None => Some (ps, Reply 0 [])
       end.

(** [dp_ports_handle_port_desc_request] *)
Definition dp_ports_handle_port_desc_request (ps : ports) : option (reply ofl_port) :=
  '(_, out) ← for_each_port (fun p => (p, [conf p])) ps (port_list ps);
  Some (Reply (ports_num ps) out).

(** The loop over the first [max_queues] queues of a port. *)
Definition all_queue_stats (now : Z) (p : sw_port) : sw_port * list ofl_queue_stats :=
  let n := Z.to_nat (max_queues p) in
  let upd := map (fmap (fun q => dp_ports_queue_update q now)) (take n (queues p)) in
  (with_queues p (num_queues p) (upd ++ drop n (queues p)), map q_stats (omap id upd)).

Definition one_queue_stats (queue_id now : Z) (p : sw_port) : sw_port * list ofl_queue_stats :=
  match dp_ports_lookup_queue p queue_id with
  | Some q =>
      let q' := dp_ports_queue_update q now in
      (with_queues p (num_queues p) (<[Z.to_nat queue_id := Some q']> (queues p)), [q_stats q'])
  | None => (p, [])
  end.

(** The sum of [f] over the ports of the list. *)
Fixpoint sum_ports (f : sw_port -> Z) (ps : ports) (l : list portref) : option Z :=
  match l with
  | [] => Some 0
  | r :: l => p ← port_at ps r; n ← sum_ports f ps l; Some (f p + n)
  end.

(** [dp_ports_handle_stats_request_queue] *)
Definition dp_ports_handle_stats_request_queue (ps : ports) (no queue_id now : Z) : option (ports * reply ofl_queue_stats) :=
  let all := queue_id =? OFPQ_ALL in
  let upd := if all then all_queue_stats now else one_queue_stats queue_id now in
  let size p := if all then num_queues p
                else match dp_ports_lookup_queue p queue_id with Some _ => 1 | None => 0 end in
  if no =? OFPP_ANY then
    num ← sum_ports size ps (port_list ps);
    '(ps', out) ← for_each_port upd ps (port_list ps);
    Some (ps', Reply num out)
  else match dp_ports_lookup ps no with
       | Some r =>
           match port_at ps r with
           | Some p => let '(p', out) := upd p in Some (set_port ps r p', Reply (size p) out)
           | None => Some (ps, Reply 0 [])
           end
       | None => Some (ps, Reply 0 [])
       end.

(** The properties of the first [max_queues] queues. *)
Definition all_queue_props (p : sw_port) : list ofl_packet_queue :=
  map props (omap id (take (Z.to_nat (max_queues p)) (queues p))).

(** [dp_ports_handle_queue_get_config_request]: the error, or the port and the queues of
    the reply. *)
Definition dp_ports_handle_queue_get_config_request (ps : ports) (no : Z) : option (Z + Z * reply ofl_packet_queue) :=
  if no =? OFPP_ANY then
    num ← sum_ports num_queues ps (port_list ps);
    '(_, out) ← for_each_port (fun p => (p, all_queue_props p)) ps (port_list ps);
    Some (inr (OFPP_ANY, Reply num out))
  else match dp_ports_lookup ps no with
       | None => Some (inl (ofl_error OFPET_QUEUE_OP_FAILED OFPQOFC_BAD_PORT))
       | Some r =>
           p ← port_at ps r;
           if negb (ps_port_no (stats p) =? no)
           then Some (inl (ofl_error OFPET_QUEUE_OP_FAILED OFPQOFC_BAD_PORT))
           else Some (inr (no, Reply (num_queues p) (all_queue_props p)))
       end.

(** * Queues *)

(** [new_queue] for slot [queue_id] of the port. *)
Definition new_queue (p : sw_port) (queue_id cls rate now : Z) : sw_port :=
  let q := Queue cls now (QStats (ps_port_no (stats p)) queue_id 0 0 0 0 0) (PQueue queue_id rate) in
  with_queues p (u16 (num_queues p + 1)) (<[Z.to_nat queue_id := Some q]> (queues p)).

Definition port_add_queue (p : sw_port) (queue_id rate now : Z) : sw_port * Z :=
  if max_queues p <=? queue_id then (p, EXFULL)
  else match mjoin (queues p !! Z.to_nat queue_id) with
       | Some _ => (p, EXFULL)
       | None => (new_queue p queue_id (u16 queue_id) rate now, 0)
       end.

Definition port_delete_queue (p : sw_port) (queue_id : Z) : sw_port :=
  with_queues p (u16 (num_queues p - 1)) (<[Z.to_nat queue_id := None]> (queues p)).

(** [struct ofl_exp_openflow_msg_queue] *)
Record queue_msg := QMsg { qm_port_id : Z; qm_queue_id : Z; qm_rate : Z }.

Definition queue_error (code : Z) : Z := ofl_error OFPET_QUEUE_OP_FAILED code.

(** [dp_ports_handle_queue_modify]; [err] is what the device answers to the change or
    the set up of the class. *)
Definition dp_ports_handle_queue_modify (ps : ports) (m : queue_msg) (err now : Z) : option (ports * Z) :=
  match dp_ports_lookup ps (qm_port_id m) ≫= (fun r => (fun p => (r, p)) <$> port_at ps r) with
  | None => Some (ps, queue_error OFPQOFC_BAD_PORT)
  | Some (r, p) =>
      match dp_ports_lookup_queue p (qm_queue_id m) with
      | Some q =>
          if negb (err =? 0) then Some (ps, queue_error OFPQOFC_EPERM)
          else
            let q' := Queue (class_id q) (q_created q) (q_stats q) (PQueue (pq_queue_id (props q)) (qm_rate m)) in
            Some (set_port ps r (with_queues p (num_queues p) (<[Z.to_nat (qm_queue_id m) := Some q']> (queues p))), 0)
      | None =>
          let '(p', e) := port_add_queue p (qm_queue_id m) (qm_rate m) now in
          if e =? EXFULL then Some (ps, queue_error OFPQOFC_EPERM)
          else
            _ ← dp_ports_lookup_queue p' (qm_queue_id m);
            Some (set_port ps r p', if err =? 0 then 0 else queue_error OFPQOFC_BAD_QUEUE)
      end
  end.

(** [dp_ports_handle_queue_delete] *)
Definition dp_ports_handle_queue_delete (ps : ports) (m : queue_msg) : ports * Z :=
  match dp_ports_lookup ps (qm_port_id m) ≫= (fun r => (fun p => (r, p)) <$> port_at ps r) with
  | None => (ps, queue_error OFPQOFC_BAD_PORT)
  | Some (r, p) =>
      match dp_ports_lookup_queue p (qm_queue_id m) with
      | Some _ => (set_port ps r (port_delete_queue p (qm_queue_id m)), 0)
      | None => (ps, queue_error OFPQOFC_BAD_QUEUE)
      end
  end.

(** * Adding and removing ports *)

(** [port_speed]: kilobits per second of the highest rate in the features. *)
Definition port_speed (feat : Z) : Z :=
  if flag feat 0x200 then 1024 * 1024 * 1024
  else if flag feat 0x100 then 100 * 1024 * 1024
  else if flag feat 0x80 then 40 * 1024 * 1024
  else if flag feat 0x40 then 10 * 1024 * 1024
  else if flag feat 0x20 then 1024 * 1024
  else if flag feat 0x10 then 1024 * 1024
  else if flag feat 0x8 then 100 * 1024
  else if flag feat 0x4 then 100 * 1024
  else if flag feat 0x2 then 10 * 1024
  else if flag feat 0x1 then 10 * 1024
  else 0.

(** What the system answers to the calls [new_port] makes on a device. *)
Record device := Device {
  open_error : Z; dev_addr : list Z; addr_error : Z; flags_error : Z; slicing_error : Z;
  feat_current : Z; feat_advertised : Z; feat_supported : Z; feat_peer : Z }.

(** [new_port] makes the port at [r]; [old_mac] is [old_local_port_MAC]. The result has
    the [errno] and the new [old_local_port_MAC]. *)
Definition new_port (ps : ports) (r : portref) (no : Z) (netdev_name : string) (new_mac : option (list Z))
    (maxq now : Z) (d : device) (old_mac : list Z) : ports * Z * list Z * list port_status :=
  let maxq := Z.min maxq NETDEV_MAX_QUEUES in
  if negb (open_error d =? 0) then (ps, open_error d, old_mac, [])
  else
    let old_mac := dev_addr d in
    let addr := match new_mac with
                | Some m => if negb (bool_decide (dev_addr d = m)) && (addr_error d =? 0) then m else dev_addr d
                | None => dev_addr d
                end in
    if negb (flags_error d =? 0) then (ps, flags_error d, old_mac, [])
    else if (0 <? maxq) && negb (slicing_error d =? 0) then (ps, slicing_error d, old_mac, [])
    else
      let c := dp_port_live_update
                 (PDesc no addr netdev_name (if no =? OFPP_LOCAL then OFPPC_NO_FWD else 0) OFPPS_LIVE
                    (feat_current d) (feat_advertised d) (feat_supported d) (feat_peer d)
                    (port_speed (feat_current d)) (port_speed (feat_supported d))) in
      let p := Port (Netdev netdev_name addr) c (PStats no 0 0 0 0 0 0 0 0 0 0 0 0 0 0) (u16 maxq) 0 now
                 (replicate (Z.to_nat NETDEV_MAX_QUEUES) None) in
      let ps1 := set_port ps r p in
      (Ports (slots ps1) (local_port ps1) (port_list ps1 ++ [r]) (u64 (ports_num ps1 + 1)) (wire ps1),
       0, old_mac, [PStatus OFPPR_ADD c]).

(** The loop of [dp_ports_add] from port number [no]. *)
Fixpoint add_port_loop (fuel : nat) (ps : ports) (no : nat) (netdev_name : string) (maxq now : Z) (d : device)
    (old_mac : list Z) : ports * Z * list Z * list port_status :=
  match fuel with
  | O => (ps, EXFULL, old_mac, [])
  | S fuel =>
      match mjoin (slots ps !! no) with
      | None => new_port ps (PSlot no) no netdev_name None maxq now d old_mac
      | Some _ => add_port_loop fuel ps (S no) netdev_name maxq now d old_mac
      end
  end.

(** [dp_ports_add]: port numbers from 1 to [DP_MAX_PORTS - 1]. *)
Definition dp_ports_add (ps : ports) (netdev_name : string) (maxq now : Z) (d : device) (old_mac : list Z) :
    ports * Z * list Z * list port_status :=
  add_port_loop (Z.to_nat (DP_MAX_PORTS - 1)) ps 1 netdev_name maxq now d old_mac.

(** [eth_addr_from_uint64] *)
Definition eth_addr_from_uint64 (x : Z) : list Z :=
  [u8 (Z.shiftr x 40); u8 (Z.shiftr x 32); u8 (Z.shiftr x 24); u8 (Z.shiftr x 16); u8 (Z.shiftr x 8); u8 x].

(** [dp_ports_add_local], for datapath [dp_id], up to the message about the new port. *)
Definition dp_ports_add_local (ps : ports) (dp_id : Z) (netdev_name : string) (now : Z) (d : device)
    (old_mac : list Z) : ports * Z * list Z * list port_status :=
  match local_port ps with
  | None => new_port ps PLocal OFPP_LOCAL netdev_name (Some (eth_addr_from_uint64 dp_id)) 0 now d old_mac
  | Some _ => (ps, EXFULL, old_mac, [])
  end.

(** [remove_local_port_UAH]: the ports, and the address the interface had. [in4] is the
    address the device reports, [control_ip] is [ip_de_control_in_band]. *)
Definition remove_local_port_UAH (ps : ports) (in4 control_ip : Z) : option (ports * Z) :=
  _ ← local_port ps;
  match port_list ps with
  | [] => None
  | _ => Some (Ports (slots ps) None (removelast (port_list ps)) (u64 (ports_num ps - 1)) (wire ps),
               if in4 =? 0 then control_ip else in4)
  end.

(** The loop of [num_port_available]: how many of the ports from [no] are down. *)
Fixpoint inactive_loop (fuel : nat) (ps : ports) (no : nat) : option Z :=
  match fuel with
  | O => Some 0
  | S fuel =>
      p ← mjoin (slots ps !! no);
      n ← inactive_loop fuel ps (S no);
      Some ((if flag (state (conf p)) OFPPS_LINK_DOWN then 1 else 0) + n)
  end.

(** [num_port_available] *)
Definition num_port_available (ps : ports) : option Z :=
  n ← inactive_loop (Z.to_nat (ports_num ps - 1)) ps 1;
  Some (ports_num ps - n - 1).

(** The search of a port by interface name, over the ports of [l]. *)
Fixpoint matching_if (ps : ports) (netdev_name : string) (l : list portref) : option Z :=
  match l with
  | [] => Some 0
  | r :: l =>
      p ← port_at ps r;
      if bool_decide (name (conf p) = netdev_name) then Some (port_no (conf p))
      else matching_if ps netdev_name l
  end.

(** [get_matching_if_port_number_UAH] *)
Definition get_matching_if_port_number_UAH (ps : ports) (netdev_name : string) : option Z :=
  matching_if ps netdev_name (port_list ps).

(** The search of the physical port that shares the interface of the local port. *)
Fixpoint local_port_number_loop (ps : ports) (local_name : string) (l : list portref) : option Z :=
  match l with
  | [] => Some 0
  | r :: l =>
      p ← port_at ps r;
      if bool_decide (name (conf p) = local_name) && negb (port_no (conf p) =? OFPP_LOCAL)
      then Some (port_no (conf p))
      else local_port_number_loop ps local_name l
  end.

(** [get_dp_local_port_number_UAH] *)
Definition get_dp_local_port_number_UAH (ps : ports) : option Z :=
  match local_port ps with
  | Some lp => local_port_number_loop ps (name (conf lp)) (port_list ps)
  | None => Some 0
  end.

(** * Invariant *)

(** The live bit is set exactly when the link and the port are up. *)
Definition live_ok (c : ofl_port) : Prop :=
  flag (state c) OFPPS_LIVE = negb (flag (state c) OFPPS_LINK_DOWN || flag (config c) OFPPC_PORT_DOWN).

Definition queue_ok (i : nat) (q : sw_queue) : Prop :=
  class_id q = i /\ qs_queue_id (q_stats q) = i /\ pq_queue_id (props q) = i.

(** The queues in use are below [max_queues], [num_queues] counts them. *)
Record port_ok (no : Z) (p : sw_port) : Prop := {
  ok_no : port_no (conf p) = no;
  ok_stats_no : ps_port_no (stats p) = no;
  ok_live : live_ok (conf p);
  ok_max : 0 <= max_queues p <= NETDEV_MAX_QUEUES;
  ok_len : length (queues p) = Z.to_nat NETDEV_MAX_QUEUES;
  ok_num : num_queues p = length (omap id (queues p));
  ok_queue i q : queues p !! i = Some (Some q) -> Z.of_nat i < max_queues p /\ queue_ok i q }.

Definition ref_no (r : portref) : Z := match r with PSlot n => n | PLocal => OFPP_LOCAL end.

(** The ports are numbered from 1 without a gap, and the list holds each of them, and
    the local port if there is one, once. *)
Record ports_ok (ps : ports) : Prop := {
  ok_ports r p : port_at ps r = Some p -> port_ok (ref_no r) p;
  ok_slots : length (slots ps) = Z.to_nat (DP_MAX_PORTS + 1);
  ok_nodup : NoDup (port_list ps);
  ok_list r : r ∈ port_list ps <-> is_Some (port_at ps r);
  ok_count : ports_num ps = length (port_list ps);
  ok_dense n : is_Some (port_at ps (PSlot n)) <->
     1 <= Z.of_nat n <= ports_num ps - (if local_port ps then 1 else 0) }.

Definition ports_init : ports := Ports (replicate (Z.to_nat (DP_MAX_PORTS + 1)) None) None [] 0 [].

(** ** Reading and writing ports *)

Lemma port_at_set_eq ps r p : is_Some (port_at ps r) -> port_at (set_port ps r p) r = Some p.
Proof.
  destruct r as [n |]; [| done]. intros [q Hq]. cbn in *.
  rewrite list_lookup_insert_eq; [done |].
  destruct (slots ps !! n) eqn:E; [| done]. by apply lookup_lt_is_Some; eexists.
Qed.

Lemma port_at_set_ne ps r r' p : r <> r' -> port_at (set_port ps r p) r' = port_at ps r'.
Proof. destruct r as [n |], r' as [m |]; try done. intros. cbn. rewrite list_lookup_insert_ne; congruence. Qed.

Lemma port_at_set ps r r' p :
  is_Some (port_at ps r) -> port_at (set_port ps r p) r' = if decide (r = r') then Some p else port_at ps r'.
Proof. intros. case_decide; [subst; by apply port_at_set_eq | by apply port_at_set_ne]. Qed.

Lemma set_port_frame ps r p :
  port_list (set_port ps r p) = port_list ps /\ ports_num (set_port ps r p) = ports_num ps /\
  wire (set_port ps r p) = wire ps /\ length (slots (set_port ps r p)) = length (slots ps) /\
  (is_Some (port_at ps r) -> (if local_port (set_port ps r p) then 1 else 0) = (if local_port ps then 1 else 0)).
Proof.
  destruct r; cbn; rewrite ?length_insert; split_and!; try done. intros [? ->]. done.
Qed.

(** A port that is replaced by one that is well formed keeps the invariant. *)
Lemma set_port_ok ps r p :
  ports_ok ps -> is_Some (port_at ps r) -> port_ok (ref_no r) p -> ports_ok (set_port ps r p).
Proof.
  intros [Hp Hs Hn Hl Hc Hd] Hr Hok.
  destruct (set_port_frame ps r p) as (El & En & _ & Es & Eloc).
  assert (Hex : forall r', is_Some (port_at (set_port ps r p) r') <-> is_Some (port_at ps r')).
  { intros r'. rewrite port_at_set by done. case_decide; subst; [| done]. split; eauto. }
  split.
  - intros r' p'. rewrite port_at_set by done. case_decide; subst; [| apply Hp].
    by intros [= <-].
  - by rewrite Es.
  - by rewrite El.
  - intros r'. by rewrite El, Hex.
  - by rewrite En, El.
  - intros n. by rewrite Hex, En, Eloc.
Qed.

(** The log of the devices is not part of the invariant. *)
Lemma wire_ok ps w : ports_ok ps -> ports_ok (Ports (slots ps) (local_port ps) (port_list ps) (ports_num ps) w).
Proof. intros [Hp Hs Hn Hl Hc Hd]. split; try done. Qed.

Lemma slot_small ps n : ports_ok ps -> is_Some (port_at ps (PSlot n)) -> Z.of_nat n <= DP_MAX_PORTS.
Proof.
  intros [Hp Hs Hn Hl Hc Hd] [p E]. cbn in E. destruct (slots ps !! n) eqn:E'; [| done].
  apply lookup_lt_Some in E'. rewrite Hs in E'. unfold DP_MAX_PORTS in *. lia.
Qed.

(** How many physical ports there are. *)
Definition phys (ps : ports) : Z := ports_num ps - (if local_port ps then 1 else 0).

Lemma phys_bounds ps : ports_ok ps -> 0 <= phys ps <= DP_MAX_PORTS.
Proof.
  intros Hok. pose proof Hok as [Hp Hs Hn Hl Hc Hd]. unfold phys. split.
  - rewrite Hc. destruct (local_port ps) eqn:E; [| lia].
    assert (PLocal ∈ port_list ps) as Hin by (apply Hl; cbn; by rewrite E).
    destruct (port_list ps); [by apply not_elem_of_nil in Hin |]. cbn [length]. lia.
  - destruct (Z.le_gt_cases 1 (phys ps)) as [Hle |]; [| unfold DP_MAX_PORTS, phys in *; lia].
    unfold phys in *. pose proof (slot_small ps (Z.to_nat (phys ps)) Hok) as Hx.
    unfold phys in Hx. rewrite Hd in Hx. lia.
Qed.

Lemma lookup_bound ps :
  ports_ok ps ->
  match local_port ps with Some _ => u32 (ports_num ps - 1) | None => u32 (ports_num ps) end = phys ps.
Proof.
  intros Hok. pose proof (phys_bounds ps Hok) as Hb. unfold phys, DP_MAX_PORTS in *.
  destruct (local_port ps); rewrite wrap_small; unfold in_range; lia.
Qed.

(** The look-up finds the port with the number, when there is one. *)
Lemma lookup_ref ps no r :
  ports_ok ps -> (dp_ports_lookup ps no = Some r <-> is_Some (port_at ps r) /\ ref_no r = no).
Proof.
  intros Hok. unfold dp_ports_lookup. rewrite (lookup_bound ps Hok).
  pose proof (fun n => ok_dense ps Hok n) as Hd. fold (phys ps) in Hd.
  destruct (Z.eqb_spec no OFPP_LOCAL) as [-> | Hne].
  - destruct r as [n |].
    + split; [by destruct (local_port ps) |]. intros [Hn' He]. apply slot_small in Hn'; [| done].
      cbn in He. unfold OFPP_LOCAL, DP_MAX_PORTS in *. lia.
    + cbn. destruct (local_port ps); split; try done. by intros [[] _].
  - destruct (Z.ltb_spec no 1); cbn [orb].
    { split; [done |]. intros [Hr <-]. destruct r as [n |]; [apply Hd in Hr |]; cbn in *; lia. }
    destruct (Z.ltb_spec (phys ps) no).
    { split; [done |]. intros [Hr <-]. destruct r as [n |]; [apply Hd in Hr |]; cbn in *; lia. }
    split.
    + intros [= <-]. rewrite Hd. cbn. lia.
    + intros [Hr <-]. destruct r as [n |]; cbn in *; [| done]. by rewrite Nat2Z.id.
Qed.

(** ** Output *)

Lemma omap_alter_length {A} (f : A -> A) i (l : list (option A)) :
  length (omap id (alter (fmap f) i l)) = length (omap id l).
Proof. revert i. induction l as [| [x |] l IH]; intros [| i]; cbn; try done; by rewrite IH. Qed.

Lemma port_ok_with_stats no p s :
  port_ok no p -> ps_port_no s = no -> port_ok no (with_stats p s).
Proof. intros [] ?. by split. Qed.

Lemma port_ok_count_queue no p i n :
  port_ok no p ->
  port_ok no (with_queues p (num_queues p) (alter (fmap (fun q => count_queue_tx q n)) i (queues p))).
Proof.
  intros [H1 H2 H3 H4 H5 H6 H7]. split; try done; cbn.
  - by rewrite length_alter.
  - by rewrite omap_alter_length.
  - intros j q. destruct (decide (i = j)) as [-> | Hij].
    + rewrite list_lookup_alter_eq. destruct (queues p !! j) as [[q0 |] |] eqn:E; cbn; try done.
      intros [= <-]. by apply H7 in E.
    + rewrite list_lookup_alter_ne by done. apply H7.
Qed.

(** The counters do not change what a port is. *)
Lemma count_tx_no s n b : ps_port_no (count_tx s n b) = ps_port_no s.
Proof. by destruct b. Qed.

Section sending.
Context (netdev_send : list frame -> portref -> Z -> list Z -> bool).

Lemma send_on_ok ps r p q cls buf :
  ports_ok ps -> port_at ps r = Some p -> ports_ok (send_on netdev_send ps r p q cls buf).
Proof.
  intros Hok Hp. unfold send_on. apply wire_ok, set_port_ok; [done | by eexists |].
  pose proof (ok_ports ps Hok r p Hp) as Hpo.
  assert (Hs : port_ok (ref_no r)
     (with_stats p (count_tx (stats p) (length buf) (netdev_send (wire ps) r cls buf)))).
  { apply port_ok_with_stats; [done |]. rewrite count_tx_no. by destruct Hpo. }
  destruct q; [| done]. destruct (netdev_send _ _ _ _); [| done]. by apply port_ok_count_queue.
Qed.

Lemma output_ok ps buf no q : ports_ok ps -> ports_ok (dp_ports_output netdev_send ps buf no q).
Proof.
  intros Hok. unfold dp_ports_output.
  destruct (dp_ports_lookup ps no) as [r |]; [| done].
  destruct (port_at ps r) as [p |] eqn:Hp; [| done].
  destruct (flag _ _); [done |]. destruct (q =? 0); [by apply send_on_ok |].
  destruct (dp_ports_lookup_queue p q); [by apply send_on_ok | done].
Qed.

(** Output on a port that exists, on no particular queue. *)
Lemma output_plain ps r p buf :
  ports_ok ps -> port_at ps r = Some p ->
  dp_ports_output netdev_send ps buf (ps_port_no (stats p)) 0 =
  if flag (config (conf p)) OFPPC_PORT_DOWN then ps else send_on netdev_send ps r p None 0 buf.
Proof.
  intros Hok Hp. unfold dp_ports_output.
  destruct (ok_ports ps Hok r p Hp) as [_ -> _ _ _ _ _].
  rewrite (proj2 (lookup_ref ps (ref_no r) r Hok)) by (by rewrite Hp).
  rewrite Hp. by destruct (flag _ _).
Qed.

Lemma send_on_at ps r p buf r' :
  port_at ps r = Some p ->
  port_at (send_on netdev_send ps r p None 0 buf) r' =
  if decide (r = r') then Some (with_stats p (count_tx (stats p) (length buf) (netdev_send (wire ps) r 0 buf)))
  else port_at ps r'.
Proof.
  intros Hp. rewrite <- (port_at_set ps r r') by by rewrite Hp. by destruct r'.
Qed.

(** A port a flooded frame goes out of. *)
Definition eligible (ps : ports) (in_port : Z) (flood : bool) (r : portref) : bool :=
  match port_at ps r with
  | Some p =>
      negb (port_no (conf p) =? u32 in_port) &&
      negb ((u32 in_port =? OFPP_LOCAL) && bool_decide (Some (name (conf p)) = (name ∘ conf <$> local_port ps))) &&
      negb (flood && flag (config (conf p)) OFPPC_NO_FWD) &&
      negb (flag (config (conf p)) OFPPC_PORT_DOWN)
  | None => false
  end.

(** What a flood did: the frames, and the counters of each port. *)
Record flooded (ps : ports) (buf : list Z) (elig : portref -> bool) (l : list portref) (ps' : ports) : Prop := {
  fl_ok : ports_ok ps';
  fl_list : port_list ps' = port_list ps;
  fl_wire : exists new, wire ps' = wire ps ++ new /\
     map (fun f => (f_port f, f_class f, f_bytes f)) new =
     map (fun r => (r, 0, buf)) (filter (fun r => elig r = true) l);
  fl_at r p : port_at ps r = Some p ->
     if bool_decide (r ∈ l) && elig r then
       exists sent, Frame r 0 buf sent ∈ drop (length (wire ps)) (wire ps') /\
         port_at ps' r = Some (with_stats p (count_tx (stats p) (length buf) sent))
     else port_at ps' r = Some p }.

Lemma eligible_after ps r p buf in_port flood r' :
  port_at ps r = Some p -> r <> r' ->
  eligible (send_on netdev_send ps r p None 0 buf) in_port flood r' = eligible ps in_port flood r'.
Proof.
  intros Hp Hne. unfold eligible. rewrite send_on_at by done. rewrite decide_False by done.
  destruct (port_at ps r') as [p' |]; [| done].
  assert (name ∘ conf <$> local_port (send_on netdev_send ps r p None 0 buf) = name ∘ conf <$> local_port ps) as ->;
    [| done].
  destruct r; cbn in *; [done | by rewrite Hp].
Qed.

Lemma loop_step ps r p buf in_port flood l :
  ports_ok ps -> port_at ps r = Some p -> (u32 in_port = OFPP_LOCAL -> is_Some (local_port ps)) ->
  output_all_loop netdev_send ps buf in_port flood (r :: l) =
  output_all_loop netdev_send (if eligible ps in_port flood r then send_on netdev_send ps r p None 0 buf else ps)
    buf in_port flood l.
Proof.
  intros Hok Hp Hloc. cbn [output_all_loop]. unfold eligible. rewrite Hp. cbn [mbind option_bind].
  rewrite (output_plain ps r p) by done.
  destruct (port_no (conf p) =? u32 in_port); [done |]. cbn [negb andb].
  destruct (Z.eqb_spec (u32 in_port) OFPP_LOCAL) as [E | E]; cbn [andb].
  - destruct (Hloc E) as [lp ->]. cbn [mbind option_bind fmap option_fmap option_map].
    rewrite (bool_decide_ext (Some (name (conf p)) = Some _) (name (conf p) = name (conf lp)))
      by (split; [by intros [=] | by intros ->]).
    destruct (bool_decide _); cbn [negb andb]; [done |].
    by destruct (flood && _), (flag _ OFPPC_PORT_DOWN).
  - cbn [mbind option_bind negb andb]. by destruct (flood && _), (flag _ OFPPC_PORT_DOWN).
Qed.

Lemma flooded_skip ps buf elig r l ps' :
  elig r = false -> flooded ps buf elig l ps' -> flooded ps buf elig (r :: l) ps'.
Proof.
  intros He [Hok Hl Hw Ha]. split; try done.
  - by rewrite filter_cons_False by (by rewrite He).
  - intros r' p Hp. specialize (Ha r' p Hp).
    destruct (elig r') eqn:Er; rewrite ?andb_false_r in *; [| done].
    rewrite (bool_decide_ext (r' ∈ r :: l) (r' ∈ l)); [done |].
    rewrite elem_of_cons. split; [intros [-> |]; [congruence | done] | by right].
Qed.

Lemma flooded_send ps buf elig elig' r p l ps' :
  port_at ps r = Some p -> r ∉ l -> elig r = true -> (forall r', r <> r' -> elig' r' = elig r') ->
  flooded (send_on netdev_send ps r p None 0 buf) buf elig' l ps' -> flooded ps buf elig (r :: l) ps'.
Proof.
  intros Hp Hr He Helig [Hok Hl (new & Hw & Hnew) Ha].
  set (f := Frame r 0 buf (netdev_send (wire ps) r 0 buf)).
  assert (Hw1 : wire (send_on netdev_send ps r p None 0 buf) = wire ps ++ [f]) by (by destruct r).
  rewrite Hw1, <- app_assoc in Hw. cbn [app] in Hw.
  assert (Hf : filter (fun r => elig' r = true) l = filter (fun r => elig r = true) l).
  { apply filter_ext_in. intros r' Hin. rewrite Helig; [done |]. by intros ->. }
  split; [done | | |].
  - rewrite Hl. by destruct r.
  - exists (f :: new). split; [done |]. rewrite filter_cons_True by done. cbn. by rewrite Hnew, Hf.
  - intros r' p' Hp'. rewrite Hw, drop_app_length.
    pose proof (send_on_at ps r p buf r' Hp) as Hat.
    destruct (decide (r = r')) as [<- | Hne].
    + rewrite bool_decide_eq_true_2, He by (by left). cbn [andb].
      assert (p' = p) as -> by congruence. exists (netdev_send (wire ps) r 0 buf). split; [by left |].
      specialize (Ha _ _ Hat). by rewrite bool_decide_eq_false_2 in Ha.
    + rewrite Hp' in Hat. specialize (Ha _ _ Hat).
      rewrite Hw, Hw1, length_app, <- drop_drop, drop_app_length, Helig in Ha by done. cbn [length drop] in Ha.
      rewrite (bool_decide_ext (r' ∈ r :: l) (r' ∈ l)) by (rewrite elem_of_cons; naive_solver).
      destruct (bool_decide _ && _); [| done].
      destruct Ha as (sent & Hin & Hat'). exists sent. split; [by right | done].
Qed.

Lemma flood_loop buf in_port flood l ps :
  ports_ok ps -> (u32 in_port = OFPP_LOCAL -> is_Some (local_port ps)) -> NoDup l ->
  (forall r, r ∈ l -> is_Some (port_at ps r)) ->
  exists ps', output_all_loop netdev_send ps buf in_port flood l = Some ps' /\
    flooded ps buf (eligible ps in_port flood) l ps'.
Proof.
  revert ps. induction l as [| r l IH]; intros ps Hok Hloc Hnd Hin.
  - exists ps. split; [done |]. split; try done. exists []. by rewrite app_nil_r.
  - apply NoDup_cons in Hnd as [Hr Hnd]. destruct (Hin r) as [p Hp]; [by left |].
    rewrite (loop_step ps r p) by done. destruct (eligible ps in_port flood r) eqn:He.
    + destruct (IH (send_on netdev_send ps r p None 0 buf)) as (ps' & -> & Hfl); [by apply send_on_ok | | done | |].
      * intros E. specialize (Hloc E). by destruct r.
      * intros r' Hr'. rewrite send_on_at by done. case_decide; [done |]. apply Hin. by right.
      * exists ps'. split; [done |]. eapply flooded_send; [done.. | | exact Hfl].
        intros r' Hne. by apply eligible_after.
    + destruct (IH ps) as (ps' & -> & Hfl); try done; [intros; apply Hin; by right |].
      exists ps'. split; [done |]. by apply flooded_skip.
Qed.

(** Flooding never reads a missing port. It hands the frame once to each port that is
    eligible, in the order of the list, counts each of them as sent or as dropped, and
    touches nothing else. *)
Lemma flood_once ps buf in_port flood :
  ports_ok ps -> (u32 in_port = OFPP_LOCAL -> is_Some (local_port ps)) ->
  exists ps', dp_ports_output_all netdev_send ps buf in_port flood = Some ps' /\
    flooded ps buf (eligible ps in_port flood) (port_list ps) ps'.
Proof.
  intros Hok Hloc. apply flood_loop; [done | done | by destruct Hok |].
  intros r. by apply ok_list.
Qed.

(** Flooding as the local port, when there is none, reads a NULL pointer at the first port. *)
Lemma flood_null ps buf in_port flood :
  ports_ok ps -> u32 in_port = OFPP_LOCAL -> local_port ps = None -> port_list ps <> [] ->
  dp_ports_output_all netdev_send ps buf in_port flood = None.
Proof.
  intros Hok Hin Hl Hne. unfold dp_ports_output_all. destruct (port_list ps) as [| r l] eqn:E; [done |]. cbn [output_all_loop].
  assert (Hr : is_Some (port_at ps r)) by (apply (ok_list ps Hok); rewrite E; left). destruct Hr as [p Hp]. rewrite Hp. cbn [mbind option_bind].
  destruct (Z.eqb_spec (port_no (conf p)) (u32 in_port)) as [Hn |].
  - exfalso. rewrite (ok_no _ _ (ok_ports ps Hok r p Hp)), Hin in Hn. destruct r as [n |]; [| cbn in Hp; congruence]. cbn [ref_no port_at] in *.
    assert (n < length (slots ps))%nat as Hlt by (apply lookup_lt_is_Some; destruct (slots ps !! n); [by eexists | done]).
    rewrite (ok_slots ps Hok) in Hlt. subst. unfold OFPP_LOCAL, DP_MAX_PORTS in *. lia.
  - by rewrite Hin, Z.eqb_refl, Hl.
Qed.

(** Flooding fails exactly then. *)
Lemma flood_outcome ps buf in_port flood :
  ports_ok ps ->
  (u32 in_port = OFPP_LOCAL /\ local_port ps = None /\ port_list ps <> [] /\ dp_ports_output_all netdev_send ps buf in_port flood = None) \/
  (~ (u32 in_port = OFPP_LOCAL /\ local_port ps = None /\ port_list ps <> []) /\
   exists ps', dp_ports_output_all netdev_send ps buf in_port flood = Some ps' /\ flooded ps buf (eligible ps in_port flood) (port_list ps) ps').
Proof.
  intros Hok. destruct (decide (u32 in_port = OFPP_LOCAL)) as [Hin | Hin]; [| right; split; [tauto | by apply flood_once]].
  destruct (local_port ps) as [lp |] eqn:Hl; [right; split; [by intros (_ & ? & _) | apply flood_once; [done | by rewrite Hl]] |].
  destruct (port_list ps) as [| r l] eqn:E.
  - right. split; [tauto |]. exists ps. unfold dp_ports_output_all. rewrite E. split; [done |]. split; [done | done | | done].
    exists []. by rewrite app_nil_r.
  - left. split_and!; try done. apply flood_null; [done.. |]. by rewrite E.
Qed.

End sending.

(** ** Configuration *)

Lemma flag_bit w k : 0 <= k -> flag w (2 ^ k) = Z.testbit w k.
Proof.
  intros Hk. unfold flag. destruct (Z.testbit w k) eqn:E.
  - apply negb_true_iff, Z.eqb_neq. intros H0. apply (f_equal (fun z => Z.testbit z k)) in H0.
    rewrite Z.land_spec, E, Z.bits_0, Z.pow2_bits_true in H0; done.
  - apply negb_false_iff, Z.eqb_eq, Z.bits_inj'. intros i Hi.
    rewrite Z.land_spec, Z.pow2_bits_eqb, Z.bits_0 by done.
    destruct (Z.eqb_spec k i); [by subst; rewrite E | by rewrite andb_false_r].
Qed.

Lemma live_update_ok c : live_ok (dp_port_live_update c).
Proof.
  unfold live_ok, dp_port_live_update. cbn [state config with_config].
  change OFPPS_LIVE with (2 ^ 2). change OFPPS_LINK_DOWN with (2 ^ 0). change OFPPC_PORT_DOWN with (2 ^ 0).
  change (compl 32 (2 ^ 2)) with 0xfffffffb. rewrite !flag_bit by lia.
  destruct (Z.testbit (state c) 0) eqn:E1, (Z.testbit (config c) 0) eqn:E2; cbn [orb negb];
    by rewrite ?Z.land_spec, ?Z.lor_spec, ?E1, ?E2, ?orb_true_r, ?andb_false_r.
Qed.

Lemma live_update_frame c :
  port_no (dp_port_live_update c) = port_no c /\ config (dp_port_live_update c) = config c /\
  name (dp_port_live_update c) = name c.
Proof. done. Qed.

Lemma port_ok_with_conf no p c : port_ok no p -> port_no c = no -> live_ok c -> port_ok no (with_conf p c).
Proof. intros [] ??. by split. Qed.

Lemma link_change_ok no p s : port_ok no p -> port_ok no (with_conf p (link_change (conf p) s)).
Proof.
  intros Hp. pose proof Hp as [Hno _ Hl _ _ _ _].
  destruct s; apply port_ok_with_conf; try done; apply live_update_ok.
Qed.

(** ** Queues *)

Lemma omap_insert_new {A} (l : list (option A)) i x :
  l !! i = Some None -> length (omap id (<[i := Some x]> l)) = S (length (omap id l)).
Proof.
  revert i. induction l as [| [y |] l IH]; intros [| i]; cbn; try done; intros H; by rewrite IH.
Qed.

Lemma omap_insert_same {A} (l : list (option A)) i x y :
  l !! i = Some (Some y) -> length (omap id (<[i := Some x]> l)) = length (omap id l).
Proof.
  revert i. induction l as [| [z |] l IH]; intros [| i]; cbn; try done; intros H; by rewrite IH.
Qed.

Lemma omap_insert_del {A} (l : list (option A)) i y :
  l !! i = Some (Some y) -> S (length (omap id (<[i := None]> l))) = length (omap id l).
Proof.
  revert i. induction l as [| [z |] l IH]; intros [| i]; cbn; try done; intros H; by rewrite IH.
Qed.

Lemma omap_le {A} (l : list (option A)) : (length (omap id l) <= length l)%nat.
Proof. induction l as [| [x |] l IH]; cbn; lia. Qed.

Lemma num_queues_small no p : port_ok no p -> 0 <= num_queues p <= NETDEV_MAX_QUEUES.
Proof. intros []. pose proof (omap_le (queues p)). unfold NETDEV_MAX_QUEUES in *. lia. Qed.

(** A queue that is found is the one in its slot. *)
Lemma lookup_queue_Some p id q :
  dp_ports_lookup_queue p id = Some q <-> id < max_queues p /\ queues p !! Z.to_nat id = Some (Some q).
Proof.
  unfold dp_ports_lookup_queue. destruct (Z.ltb_spec id (max_queues p)).
  - destruct (queues p !! Z.to_nat id) as [[? |] |]; cbn; naive_solver.
  - split; [done | lia].
Qed.

Lemma lookup_queue_None no p id :
  port_ok no p -> 0 <= id < max_queues p -> dp_ports_lookup_queue p id = None ->
  queues p !! Z.to_nat id = Some None.
Proof.
  intros [_ _ _ Hm Hlen _ _] Hid. unfold dp_ports_lookup_queue. destruct (Z.ltb_spec id (max_queues p)); [| lia].
  destruct (queues p !! Z.to_nat id) as [[? |] |] eqn:E; try done.
  apply lookup_ge_None in E. unfold NETDEV_MAX_QUEUES in *. lia.
Qed.

(** A queue that is replaced by one with the same number. *)
Lemma port_ok_set_queue no p id q q' :
  port_ok no p -> 0 <= id -> dp_ports_lookup_queue p id = Some q -> queue_ok (Z.to_nat id) q' ->
  port_ok no (with_queues p (num_queues p) (<[Z.to_nat id := Some q']> (queues p))).
Proof.
  intros Hp Hid Hq Hq'. pose proof Hp as [H1 H2 H3 H4 H5 H6 H7]. apply lookup_queue_Some in Hq as [Hlt Hq].
  split; try done; cbn.
  - by rewrite length_insert.
  - by rewrite (omap_insert_same _ _ _ q).
  - intros i q0. rewrite list_lookup_insert_Some. intros [(<- & [= <-] & _) | [_ Hi]]; [split; [lia | done] | by apply H7].
Qed.

Lemma port_ok_add_queue no p id rate now :
  port_ok no p -> 0 <= id < max_queues p -> dp_ports_lookup_queue p id = None ->
  port_ok no (new_queue p id (u16 id) rate now).
Proof.
  intros Hp Hid Hq. pose proof (num_queues_small no p Hp). pose proof (lookup_queue_None no p id Hp Hid Hq) as Hn.
  pose proof Hp as [H1 H2 H3 H4 H5 H6 H7]. unfold NETDEV_MAX_QUEUES in *.
  split; try done; cbn.
  - by rewrite length_insert.
  - rewrite omap_insert_new by done. rewrite wrap_small by (unfold in_range; lia). lia.
  - intros i q0. rewrite list_lookup_insert_Some. intros [(<- & [= <-] & _) | [_ Hi]]; [| by apply H7].
    split; [lia |]. unfold queue_ok. cbn. rewrite wrap_small by (unfold in_range; lia). lia.
Qed.

Lemma port_ok_delete_queue no p id q :
  port_ok no p -> dp_ports_lookup_queue p id = Some q -> port_ok no (port_delete_queue p id).
Proof.
  intros Hp Hq. pose proof (num_queues_small no p Hp). pose proof Hp as [H1 H2 H3 H4 H5 H6 H7].
  apply lookup_queue_Some in Hq as [Hlt Hq]. unfold NETDEV_MAX_QUEUES in *.
  pose proof (omap_insert_del _ _ _ Hq). split; try done; cbn.
  - by rewrite length_insert.
  - rewrite wrap_small by (unfold in_range; lia). lia.
  - intros i q0. rewrite list_lookup_insert_Some. intros [(_ & [=] & _) | [_ Hi]]. by apply H7.
Qed.

(** The minimum rate of a queue, by port number and queue identifier. *)
Definition queue_rate (ps : ports) (no id : Z) : option Z :=
  r ← dp_ports_lookup ps no; p ← port_at ps r; q ← dp_ports_lookup_queue p id; Some (min_rate (props q)).

Lemma lookup_set_port ps r p no :
  is_Some (port_at ps r) -> dp_ports_lookup (set_port ps r p) no = dp_ports_lookup ps no.
Proof. destruct r; cbn; [done |]. intros [? E]. unfold dp_ports_lookup. cbn. by rewrite E. Qed.

(** A change to the queues of one port. *)
Lemma queue_rate_set ps r p p' no id :
  ports_ok ps -> port_at ps r = Some p ->
  queue_rate (set_port ps r p') no id =
  if ref_no r =? no then q ← dp_ports_lookup_queue p' id; Some (min_rate (props q)) else queue_rate ps no id.
Proof.
  intros Hok Hp. unfold queue_rate. rewrite lookup_set_port by by rewrite Hp.
  destruct (Z.eqb_spec (ref_no r) no) as [E | E].
  - rewrite (proj2 (lookup_ref ps no r Hok)) by (by rewrite Hp). cbn. by rewrite port_at_set_eq by (by rewrite Hp).
  - destruct (dp_ports_lookup ps no) as [r' |] eqn:Er; [| done]. cbn.
    apply lookup_ref in Er as [_ Er]; [| done]. rewrite port_at_set_ne; [done |]. by intros ->.
Qed.

Lemma queue_rate_at ps r p id :
  ports_ok ps -> port_at ps r = Some p ->
  queue_rate ps (ref_no r) id = q ← dp_ports_lookup_queue p id; Some (min_rate (props q)).
Proof.
  intros Hok Hp. unfold queue_rate. rewrite (proj2 (lookup_ref ps _ r Hok)) by (by rewrite Hp).
  cbn. by rewrite Hp.
Qed.

(** One slot of the queues is replaced. *)
Lemma lookup_queue_set p n id x id' :
  0 <= id < max_queues p -> 0 <= id' -> length (queues p) = Z.to_nat NETDEV_MAX_QUEUES ->
  max_queues p <= NETDEV_MAX_QUEUES ->
  dp_ports_lookup_queue (with_queues p n (<[Z.to_nat id := x]> (queues p))) id' =
  if id =? id' then x else dp_ports_lookup_queue p id'.
Proof.
  intros Hid Hid' Hl Hm. unfold dp_ports_lookup_queue. cbn.
  destruct (Z.eqb_spec id id') as [<- | E].
  - destruct (Z.ltb_spec id (max_queues p)); [| lia].
    rewrite list_lookup_insert_eq by (unfold NETDEV_MAX_QUEUES in *; lia). done.
  - rewrite list_lookup_insert_ne by lia. done.
Qed.

(** The port a message names, if it exists. *)
Lemma named_port ps no :
  ports_ok ps ->
  match dp_ports_lookup ps no ≫= (fun r => (fun p => (r, p)) <$> port_at ps r) with
  | Some (r, p) => dp_ports_lookup ps no = Some r /\ port_at ps r = Some p /\ ref_no r = no
  | None => dp_ports_lookup ps no = None
  end.
Proof.
  intros Hok. destruct (dp_ports_lookup ps no) as [r |] eqn:E; [| done]. cbn.
  apply lookup_ref in E as [[p Hp] Hno]; [| done]. by rewrite Hp.
Qed.

(** What a queue modification does to the rates of the queues. *)
Inductive queue_modify_spec (ps : ports) (m : queue_msg) (dev_err : Z) : (Z -> Z -> option Z) -> Z -> Prop :=
  | modify_no_port :
      dp_ports_lookup ps (qm_port_id m) = None ->
      queue_modify_spec ps m dev_err (queue_rate ps) (queue_error OFPQOFC_BAD_PORT)
  | modify_refused rate :
      queue_rate ps (qm_port_id m) (qm_queue_id m) = Some rate -> dev_err <> 0 ->
      queue_modify_spec ps m dev_err (queue_rate ps) (queue_error OFPQOFC_EPERM)
  | modify_changed rate rates :
      queue_rate ps (qm_port_id m) (qm_queue_id m) = Some rate -> dev_err = 0 ->
      (forall no id, 0 <= id -> rates no id =
         if (qm_port_id m =? no) && (qm_queue_id m =? id) then Some (qm_rate m) else queue_rate ps no id) ->
      queue_modify_spec ps m dev_err rates 0
  | modify_full r p :
      dp_ports_lookup ps (qm_port_id m) = Some r -> port_at ps r = Some p -> max_queues p <= qm_queue_id m ->
      queue_modify_spec ps m dev_err (queue_rate ps) (queue_error OFPQOFC_EPERM)
  | modify_created r p rates :
      dp_ports_lookup ps (qm_port_id m) = Some r -> port_at ps r = Some p -> qm_queue_id m < max_queues p ->
      queue_rate ps (qm_port_id m) (qm_queue_id m) = None ->
      (forall no id, 0 <= id -> rates no id =
         if (qm_port_id m =? no) && (qm_queue_id m =? id) then Some (qm_rate m) else queue_rate ps no id) ->
      queue_modify_spec ps m dev_err rates (if dev_err =? 0 then 0 else queue_error OFPQOFC_BAD_QUEUE).

(** A queue of the port takes a new value. *)
Lemma queue_rate_put ps r p id n x no' id' :
  ports_ok ps -> port_at ps r = Some p -> 0 <= id < max_queues p -> 0 <= id' ->
  queue_rate (set_port ps r (with_queues p n (<[Z.to_nat id := x]> (queues p)))) no' id' =
  if (ref_no r =? no') && (id =? id') then min_rate ∘ props <$> x else queue_rate ps no' id'.
Proof.
  intros Hok Hp Hid Hid'. rewrite (queue_rate_set ps r p) by done.
  destruct (ok_ports ps Hok r p Hp) as [_ _ _ Hm Hlen _ _].
  destruct (Z.eqb_spec (ref_no r) no') as [<- |]; [| done]. cbn [andb].
  rewrite lookup_queue_set, (queue_rate_at ps r p) by (done || lia).
  destruct (id =? id'); [by destruct x | done].
Qed.

(** A queue modification is what its specification says, and keeps the ports well formed. *)
Lemma queue_modify_refines ps m dev_err now :
  ports_ok ps -> 0 <= qm_queue_id m ->
  exists ps' e, dp_ports_handle_queue_modify ps m dev_err now = Some (ps', e) /\ ports_ok ps' /\
    queue_modify_spec ps m dev_err (queue_rate ps') e.
Proof.
  intros Hok Hid. unfold dp_ports_handle_queue_modify.
  pose proof (named_port ps (qm_port_id m) Hok) as Hnp.
  destruct (_ ≫= _) as [[r p] |]; [| by eexists _, _; split_and!; [| | apply modify_no_port]].
  destruct Hnp as (Hr & Hp & Hno). pose proof (ok_ports ps Hok r p Hp) as Hpo.
  destruct (dp_ports_lookup_queue p (qm_queue_id m)) as [q |] eqn:Hq.
  - assert (Hrate : queue_rate ps (qm_port_id m) (qm_queue_id m) = Some (min_rate (props q))).
    { rewrite <- Hno, (queue_rate_at ps r p), Hq by done. done. }
    destruct (Z.eqb_spec dev_err 0); cbn [negb];
      [| by eexists _, _; split_and!; [| | eapply modify_refused]].
    pose proof Hq as [Hlt Hsl]%lookup_queue_Some. eexists _, _. split; [done |]. split.
    + apply set_port_ok; [done | by rewrite Hp |]. apply port_ok_set_queue with q; [done.. |].
      by apply (ok_queue _ _ Hpo) in Hsl as [_ Hqo].
    + eapply modify_changed; [done.. |]. intros no id Hid'. rewrite queue_rate_put by done. by rewrite Hno.
  - unfold port_add_queue. destruct (Z.leb_spec (max_queues p) (qm_queue_id m)).
    { eexists _, _. split; [done |]. split; [done |]. by eapply modify_full. }
    rewrite (lookup_queue_None (ref_no r) p) by done. cbn [mjoin option_join].
    change (0 =? EXFULL) with false. cbn [negb].
    assert (Hl : forall rate, is_Some (dp_ports_lookup_queue (new_queue p (qm_queue_id m) (u16 (qm_queue_id m)) rate now) (qm_queue_id m))).
    { intros rate. destruct Hpo. unfold new_queue. rewrite lookup_queue_set, Z.eqb_refl by (done || lia). by eexists. }
    destruct (Hl (qm_rate m)) as [q' ->]. cbn [mbind option_bind]. eexists _, _. split; [done |]. split.
    + apply set_port_ok; [done | by rewrite Hp |]. by apply port_ok_add_queue.
    + eapply modify_created; [done.. | |].
      * by rewrite <- Hno, (queue_rate_at ps r p), Hq by done.
      * intros no id Hid'. unfold new_queue. rewrite queue_rate_put by done. by rewrite Hno.
Qed.

(** A deletion removes the queue it names, and fails when there is none. *)
Lemma queue_delete_effect ps m :
  ports_ok ps -> 0 <= qm_queue_id m ->
  let '(ps', e) := dp_ports_handle_queue_delete ps m in
  ports_ok ps' /\
  (forall no id, 0 <= id -> queue_rate ps' no id =
     if (e =? 0) && (qm_port_id m =? no) && (qm_queue_id m =? id) then None else queue_rate ps no id) /\
  (e = 0 <-> is_Some (queue_rate ps (qm_port_id m) (qm_queue_id m))).
Proof.
  intros Hok Hid. unfold dp_ports_handle_queue_delete.
  pose proof (named_port ps (qm_port_id m) Hok) as Hnp.
  destruct (_ ≫= _) as [[r p] |].
  2: { split; [done |]. split; [done |]. unfold queue_rate. rewrite Hnp. cbn. split; [done | by intros []]. }
  destruct Hnp as (Hr & Hp & Hno). pose proof (ok_ports ps Hok r p Hp) as Hpo.
  destruct (dp_ports_lookup_queue p (qm_queue_id m)) as [q |] eqn:Hq.
  - split; [| split].
    + apply set_port_ok; [done | by rewrite Hp |]. by eapply port_ok_delete_queue.
    + intros no id Hid'. apply lookup_queue_Some in Hq as [Hlt _]. unfold port_delete_queue.
      rewrite queue_rate_put by done. by rewrite Hno.
    + rewrite <- Hno, (queue_rate_at ps r p), Hq by done. by split; [eexists |].
  - split; [done |]. split; [done |]. rewrite <- Hno, (queue_rate_at ps r p), Hq by done.
    split; [done | by intros []].
Qed.

(** ** Port modification *)

Definition masked (old new mask : Z) : Z := Z.lor (Z.land old (compl 32 mask)) (Z.land new mask).

(** Bit by bit, the mask chooses between the old configuration and the new one. *)
Lemma masked_bit old new mask i :
  in_range 32 mask -> 0 <= i < 32 ->
  Z.testbit (masked old new mask) i = if Z.testbit mask i then Z.testbit new i else Z.testbit old i.
Proof.
  intros Hm Hi. unfold masked, compl. rewrite Z.lor_spec, !Z.land_spec, wrap_testbit by lia.
  rewrite (proj2 (Z.ltb_lt _ _)) by lia. rewrite Z.lnot_spec by lia.
  destruct (Z.testbit mask i), (Z.testbit old i), (Z.testbit new i); done.
Qed.

Inductive port_mod_spec (ps : ports) (m : port_mod) (role : Z) : ports -> Z -> list port_status -> Prop :=
  | mod_slave :
      role = OFPCR_ROLE_SLAVE ->
      port_mod_spec ps m role ps (ofl_error OFPET_BAD_REQUEST OFPBRC_IS_SLAVE) []
  | mod_no_port :
      role <> OFPCR_ROLE_SLAVE -> dp_ports_lookup ps (pm_port_no m) = None ->
      port_mod_spec ps m role ps (ofl_error OFPET_PORT_MOD_FAILED OFPPMFC_BAD_PORT) []
  | mod_bad_addr r p :
      role <> OFPCR_ROLE_SLAVE -> dp_ports_lookup ps (pm_port_no m) = Some r -> port_at ps r = Some p ->
      pm_hw_addr m <> etheraddr (dev p) ->
      port_mod_spec ps m role ps (ofl_error OFPET_PORT_MOD_FAILED OFPPMFC_BAD_HW_ADDR) []
  | mod_done r p c ps' :
      role <> OFPCR_ROLE_SLAVE -> dp_ports_lookup ps (pm_port_no m) = Some r -> port_at ps r = Some p ->
      pm_hw_addr m = etheraddr (dev p) ->
      (forall r', port_at ps' r' = if decide (r = r') then Some (with_conf p c) else port_at ps r') ->
      port_no c = port_no (conf p) -> name c = name (conf p) -> live_ok c ->
      (forall i, 0 <= i < 32 -> Z.testbit (config c) i =
         if Z.testbit (pm_mask m) i then Z.testbit (pm_config m) i else Z.testbit (config (conf p)) i) ->
      port_mod_spec ps m role ps' 0 [PStatus OFPPR_MODIFY c].

(** A port modification changes the bits under the mask and nothing else, keeps the
    live bit right, and tells the controllers exactly when it succeeded. *)
Lemma port_mod_refines ps m role :
  ports_ok ps -> in_range 32 (pm_mask m) ->
  exists ps' e out, dp_ports_handle_port_mod ps m role = Some (ps', e, out) /\ ports_ok ps' /\
    port_mod_spec ps m role ps' e out.
Proof.
  intros Hok Hm. unfold dp_ports_handle_port_mod.
  destruct (Z.eqb_spec role OFPCR_ROLE_SLAVE); [by eexists _, _, _; split_and!; [| | apply mod_slave] |].
  destruct (dp_ports_lookup ps (pm_port_no m)) as [r |] eqn:Hr;
    [| by eexists _, _, _; split_and!; [| | apply mod_no_port]].
  pose proof Hr as [[p Hp] Hno]%lookup_ref; [| done]. rewrite Hp. cbn [mbind option_bind].
  case_bool_decide as Ha; cbn [negb]; [| by eexists _, _, _; split_and!; [| | eapply mod_bad_addr]].
  pose proof (ok_ports ps Hok r p Hp) as Hpo.
  set (c1 := if pm_mask m =? 0 then conf p else _).
  assert (Hc : port_no c1 = port_no (conf p) /\ name c1 = name (conf p) /\ live_ok c1 /\
     forall i, 0 <= i < 32 -> Z.testbit (config c1) i =
         if Z.testbit (pm_mask m) i then Z.testbit (pm_config m) i else Z.testbit (config (conf p)) i).
  { unfold c1. destruct (Z.eqb_spec (pm_mask m) 0) as [E |].
    - destruct Hpo. split_and!; try done. intros i Hi. by rewrite E, Z.bits_0.
    - split_and!; [done | done | apply live_update_ok |]. intros i Hi. by apply masked_bit. }
  destruct Hc as (Hc1 & Hc2 & Hc3 & Hc4). eexists _, _, _. split; [done |]. split.
  - apply set_port_ok; [done | by rewrite Hp |]. apply port_ok_with_conf; [done | by destruct Hpo; congruence | done].
  - eapply mod_done; [done.. | | done | done | done | done].
    intros r'. by rewrite port_at_set by by rewrite Hp.
Qed.

(** ** Replies *)

Lemma for_each_fill {A} (f : sw_port -> sw_port * list A) (g : sw_port -> Z) l ps :
  ports_ok ps -> NoDup l -> (forall r, r ∈ l -> is_Some (port_at ps r)) ->
  (forall no p, port_ok no p -> port_ok no (f p).1 /\ Z.of_nat (length (f p).2) = g p) ->
  exists ps' out n, for_each_port f ps l = Some (ps', out) /\ sum_ports g ps l = Some n /\
    ports_ok ps' /\ Z.of_nat (length out) = n.
Proof.
  intros Hok Hnd Hin Hf.
  enough (forall ps0, (forall r, r ∈ l -> port_at ps0 r = port_at ps r) -> ports_ok ps0 ->
    exists ps' out n, for_each_port f ps0 l = Some (ps', out) /\ sum_ports g ps l = Some n /\
    ports_ok ps' /\ Z.of_nat (length out) = n) as Hx by (by apply Hx).
  clear Hok. induction l as [| r l IH]; intros ps0 Heq Hok; [by eexists _, _, _ |].
  apply NoDup_cons in Hnd as [Hr Hnd]. destruct (Hin r) as [p Hp]; [by left |].
  cbn [for_each_port sum_ports]. rewrite Heq, Hp by (by left). cbn [mbind option_bind].
  assert (Hp0 : port_at ps0 r = Some p) by (rewrite Heq by (by left); done).
  destruct (Hf _ p (ok_ports _ Hok r p Hp0)) as [Hpo Hlen]. destruct (f p) as [p' out] eqn:Ef. cbn in Hpo, Hlen.
  destruct (IH Hnd) with (ps0 := set_port ps0 r p') as (ps' & rest & n & -> & -> & Hok' & Hn).
  - intros r' Hr'. apply Hin. by right.
  - intros r' Hr'. rewrite port_at_set_ne by (by intros ->). apply Heq. by right.
  - apply set_port_ok; [done | by rewrite Hp0 | done].
  - cbn. eexists _, _, _. split; [done |]. split; [done |]. split; [done |]. rewrite length_app. lia.
Qed.

Lemma sum_const_1 l ps n : sum_ports (fun _ => 1) ps l = Some n -> n = Z.of_nat (length l).
Proof.
  revert n. induction l as [| r l IH]; intros n; cbn; [by intros [= <-] |].
  destruct (port_at ps r); [| done]. cbn. destruct (sum_ports _ _ l) eqn:E; [| done]. cbn.
  intros [= <-]. rewrite (IH z eq_refl). lia.
Qed.

(** The queues in use are among the first [max_queues]. *)
Lemma queues_beyond no p : port_ok no p -> omap id (drop (Z.to_nat (max_queues p)) (queues p)) = [].
Proof.
  intros [_ _ _ Hm _ _ Hq]. generalize (Z.to_nat (max_queues p)) (Z2Nat.id _ (proj1 Hm)). intros n Hn.
  assert (Hd : forall i q, drop n (queues p) !! i <> Some (Some q)).
  { intros i q E. rewrite lookup_drop in E. apply Hq in E as [E _]. lia. }
  clear -Hd. induction (drop n (queues p)) as [| [q |] l IH]; [done | |].
  - by destruct (Hd O q).
  - apply IH. intros i. apply (Hd (S i)).
Qed.

Lemma queues_within no p : port_ok no p -> omap id (take (Z.to_nat (max_queues p)) (queues p)) = omap id (queues p).
Proof.
  intros Hp. rewrite <- (take_drop (Z.to_nat (max_queues p)) (queues p)) at 2.
  by rewrite omap_app, (queues_beyond no p Hp), app_nil_r.
Qed.

Lemma omap_map_fmap {A} (f : A -> A) (l : list (option A)) : omap id (map (fmap f) l) = map f (omap id l).
Proof. induction l as [| [x |] l IH]; cbn; [done | by rewrite IH | done]. Qed.

Lemma all_queue_stats_ok now no p :
  port_ok no p ->
  port_ok no (all_queue_stats now p).1 /\ Z.of_nat (length (all_queue_stats now p).2) = num_queues p.
Proof.
  intros Hp. pose proof Hp as [H1 H2 H3 H4 H5 H6 H7]. unfold all_queue_stats. cbn [fst snd].
  rewrite omap_map_fmap, !length_map, (queues_within no p Hp), H6. split; [| done].
  split; try done; cbn [with_queues queues num_queues max_queues].
  - rewrite length_app, length_map, length_take, length_drop. lia.
  - by rewrite omap_app, omap_map_fmap, (queues_beyond no p Hp), app_nil_r, length_map, (queues_within no p Hp).
  - intros i q Hi. apply lookup_app_Some in Hi as [Hi | [Hlen Hi]].
    + rewrite list_lookup_fmap in Hi. destruct (take _ (queues p) !! i) as [[q0 |] |] eqn:Hq; try done.
      injection Hi as <-. apply lookup_take_Some in Hq as [Hq _]. by apply H7 in Hq.
    + rewrite length_map in Hi, Hlen. rewrite lookup_drop in Hi. apply H7 in Hi as Hx.
      rewrite length_take in *. replace i with (Z.to_nat (max_queues p) + (i - Z.to_nat (max_queues p) `min` length (queues p)))%nat.
      * done.
      * unfold NETDEV_MAX_QUEUES in *. lia.
Qed.

Lemma one_queue_stats_ok now id no p :
  0 <= id -> port_ok no p ->
  port_ok no (one_queue_stats id now p).1 /\
  Z.of_nat (length (one_queue_stats id now p).2) = match dp_ports_lookup_queue p id with Some _ => 1 | None => 0 end.
Proof.
  intros Hid Hp. unfold one_queue_stats. destruct (dp_ports_lookup_queue p id) as [q |] eqn:Hq; [| done].
  cbn. split; [| done]. apply port_ok_set_queue with q; [done.. |].
  apply lookup_queue_Some in Hq as [_ Hq]. by apply (ok_queue _ _ Hp) in Hq as [_ Hqo].
Qed.

Lemma port_stats_update_ok now no p : port_ok no p -> port_ok no (dp_port_stats_update p now).
Proof. intros Hp. apply port_ok_with_stats; [done |]. by destruct Hp. Qed.

Definition fits {A} (r : reply A) : Prop := stats_num r = Z.of_nat (length (entries r)).

Lemma port_stats_fit ps no now :
  ports_ok ps ->
  exists ps' rep, dp_ports_handle_stats_request_port ps no now = Some (ps', rep) /\ ports_ok ps' /\ fits rep.
Proof.
  intros Hok. unfold dp_ports_handle_stats_request_port. destruct (no =? OFPP_ANY).
  - edestruct (for_each_fill (fun p => (dp_port_stats_update p now, [stats (dp_port_stats_update p now)])) (fun _ => 1)
      (port_list ps) ps) as (ps' & out & n & -> & Hn & Hok' & Hlen);
      [done | by destruct Hok | intros; by apply ok_list | |].
    + intros no' p Hp. split; [by apply port_stats_update_ok | done].
    + eexists _, _. split; [done |]. split; [done |]. unfold fits. cbn.
      rewrite Hlen, (sum_const_1 _ _ _ Hn). by destruct Hok.
  - destruct (dp_ports_lookup ps no) as [r |]; [| by eexists _, _].
    destruct (port_at ps r) as [p |] eqn:Hp; [| by eexists _, _].
    eexists _, _. split; [done |]. split; [| done]. apply set_port_ok; [done | by rewrite Hp |].
    apply port_stats_update_ok. by apply (ok_ports ps Hok).
Qed.

Lemma queue_stats_fit ps no id now :
  ports_ok ps -> 0 <= id ->
  exists ps' rep, dp_ports_handle_stats_request_queue ps no id now = Some (ps', rep) /\ ports_ok ps' /\ fits rep.
Proof.
  intros Hok Hid. unfold dp_ports_handle_stats_request_queue.
  set (upd := if id =? OFPQ_ALL then _ else _). set (size := fun p : sw_port => if id =? OFPQ_ALL then _ else _).
  assert (Hf : forall no p, port_ok no p -> port_ok no (upd p).1 /\ Z.of_nat (length (upd p).2) = size p).
  { intros no' p Hp. unfold upd, size. destruct (id =? OFPQ_ALL); [by apply all_queue_stats_ok | by apply one_queue_stats_ok]. }
  destruct (no =? OFPP_ANY).
  - edestruct (for_each_fill upd size (port_list ps) ps) as (ps' & out & n & -> & -> & Hok' & Hlen);
      [done | by destruct Hok | intros; by apply ok_list | done |].
    eexists _, _. split; [done |]. split; [done |]. by unfold fits.
  - destruct (dp_ports_lookup ps no) as [r |]; [| by eexists _, _].
    destruct (port_at ps r) as [p |] eqn:Hp; [| by eexists _, _].
    destruct (Hf _ p (ok_ports ps Hok r p Hp)) as [Hpo Hlen]. destruct (upd p) as [p' out].
    eexists _, _. split; [done |]. split; [| by unfold fits]. apply set_port_ok; [done | by rewrite Hp | done].
Qed.

Lemma port_desc_fit ps :
  ports_ok ps -> exists rep, dp_ports_handle_port_desc_request ps = Some rep /\ fits rep.
Proof.
  intros Hok. unfold dp_ports_handle_port_desc_request.
  edestruct (for_each_fill (fun p => (p, [conf p])) (fun _ => 1) (port_list ps) ps)
    as (ps' & out & n & -> & Hn & Hok' & Hlen); [done | by destruct Hok | intros; by apply ok_list | done |].
  eexists. split; [done |]. unfold fits. cbn. rewrite Hlen, (sum_const_1 _ _ _ Hn). by destruct Hok.
Qed.

Lemma queue_config_fit ps no :
  ports_ok ps ->
  exists rep, dp_ports_handle_queue_get_config_request ps no = Some rep /\
    match rep with inl e => e = queue_error OFPQOFC_BAD_PORT | inr (_, r) => fits r end.
Proof.
  intros Hok. unfold dp_ports_handle_queue_get_config_request.
  assert (Hf : forall no p, port_ok no p -> Z.of_nat (length (all_queue_props p)) = num_queues p).
  { intros no' p Hp. unfold all_queue_props. rewrite length_map, (queues_within no' p Hp). by destruct Hp. }
  destruct (no =? OFPP_ANY).
  - edestruct (for_each_fill (fun p => (p, all_queue_props p)) num_queues (port_list ps) ps)
      as (ps' & out & n & -> & -> & Hok' & Hlen); [done | by destruct Hok | intros; by apply ok_list | |].
    + intros no' p Hp. split; [done |]. by apply (Hf no').
    + eexists. split; [done |]. by unfold fits.
  - destruct (dp_ports_lookup ps no) as [r |] eqn:Hr; [| by eexists].
    apply lookup_ref in Hr as [[p Hp] Hno]; [| done]. rewrite Hp. cbn [mbind option_bind].
    destruct (negb _); [by eexists |]. eexists. split; [done |]. unfold fits. cbn.
    by rewrite (Hf _ p (ok_ports ps Hok r p Hp)).
Qed.

(** ** Adding and removing ports *)

(** A new port is well formed. *)
Lemma new_port_fresh no nm addr maxq now d cfg :
  0 <= maxq <= NETDEV_MAX_QUEUES ->
  port_ok no (Port (Netdev nm addr) (dp_port_live_update
     (PDesc no addr nm cfg OFPPS_LIVE (feat_current d) (feat_advertised d) (feat_supported d) (feat_peer d)
        (port_speed (feat_current d)) (port_speed (feat_supported d))))
     (PStats no 0 0 0 0 0 0 0 0 0 0 0 0 0 0) (u16 maxq) 0 now (replicate (Z.to_nat NETDEV_MAX_QUEUES) None)).
Proof.
  intros Hm. split; try done; [apply live_update_ok | |].
  - cbn. unfold NETDEV_MAX_QUEUES in *. rewrite wrap_small; unfold in_range; lia.
  - cbn [queues]. intros i q Hi. apply lookup_replicate in Hi as [[=] _].
Qed.

(** The ports after the new one: the slot was free, its number is the next one. *)
Lemma insert_port_ok ps r p :
  ports_ok ps -> port_at ps r = None -> port_ok (ref_no r) p ->
  match r with PSlot n => Z.of_nat n = phys ps + 1 /\ phys ps < DP_MAX_PORTS | PLocal => True end ->
  let ps1 := set_port ps r p in
  ports_ok (Ports (slots ps1) (local_port ps1) (port_list ps1 ++ [r]) (u64 (ports_num ps1 + 1)) (wire ps1)).
Proof.
  intros Hok Hr Hp Hn ps1. pose proof Hok as [Ho Hs Hnd Hl Hc Hd]. pose proof (phys_bounds ps Hok) as Hb.
  assert (Hat : forall r', port_at ps1 r' = if decide (r = r') then Some p else port_at ps r').
  { intros r'. case_decide as E; [subst r' | by apply port_at_set_ne]. destruct r as [n |]; [| done]. cbn.
    rewrite list_lookup_insert_eq; [done |]. unfold DP_MAX_PORTS in *. lia. }
  assert (Hnum : ports_num ps1 = ports_num ps) by (by destruct r).
  assert (Hlist : port_list ps1 = port_list ps) by (by destruct r).
  assert (Hu : u64 (ports_num ps1 + 1) = ports_num ps + 1).
  { rewrite Hnum. unfold phys, DP_MAX_PORTS in *. apply wrap_small. unfold in_range. destruct (local_port ps); lia. }
  assert (Hr' : forall r', port_at (Ports (slots ps1) (local_port ps1) (port_list ps1 ++ [r]) (u64 (ports_num ps1 + 1)) (wire ps1)) r' =
    port_at ps1 r') by done.
  split.
  - intros r' p'. rewrite Hr', Hat. case_decide; [subst; by intros [= <-] | apply Ho].
  - cbn. destruct r; cbn; [by rewrite length_insert | done].
  - cbn. rewrite Hlist. apply list.NoDup_app. split; [done |]. split; [| apply NoDup_singleton].
    intros r' Hin E%list_elem_of_singleton. subst. apply Hl in Hin. rewrite Hr in Hin. by destruct Hin.
  - intros r'. rewrite Hr', Hat. cbn. rewrite Hlist, elem_of_app, list_elem_of_singleton, Hl.
    case_decide; naive_solver.
  - cbn [port_list ports_num]. rewrite Hu, Hlist, length_app, Hc. cbn [length]. lia.
  - intros n. rewrite Hr', Hat. cbn [local_port ports_num]. rewrite Hu. destruct r as [k |].
    + replace (local_port ps1) with (local_port ps) by done. unfold phys in *. case_decide as E.
      * injection E as <-. split; [lia | by eexists].
      * rewrite Hd. assert (k <> n) by congruence. lia.
    + rewrite decide_False by done. change (local_port ps = None) in Hr. change (local_port ps1) with (Some p).
      rewrite Hd, Hr. lia.
Qed.

Lemma new_port_ok ps r nm mac maxq now d old :
  ports_ok ps -> port_at ps r = None -> 0 <= maxq ->
  match r with PSlot n => Z.of_nat n = phys ps + 1 /\ phys ps < DP_MAX_PORTS | PLocal => True end ->
  let '(ps', e, _, _) := new_port ps r (ref_no r) nm mac maxq now d old in
  ports_ok ps' /\ (ps' = ps \/ port_list ps' = port_list ps ++ [r]).
Proof.
  intros Hok Hr Hm Hn. unfold new_port.
  destruct (open_error d =? 0); cbn [negb]; [| by split; [| left]].
  destruct (flags_error d =? 0); cbn [negb]; [| by split; [| left]].
  destruct (_ && _); [by split; [| left] |]. split.
  - apply insert_port_ok; [done.. | | done]. apply new_port_fresh. unfold NETDEV_MAX_QUEUES. lia.
  - right. by destruct r.
Qed.

(** The search of [dp_ports_add] ends at the first number that is free. *)
Lemma add_loop_free fuel ps no nm maxq now d old :
  ports_ok ps -> 1 <= Z.of_nat no <= phys ps + 1 ->
  add_port_loop fuel ps no nm maxq now d old =
  if Z.of_nat no + Z.of_nat fuel <=? phys ps + 1 then (ps, EXFULL, old, [])
  else new_port ps (PSlot (Z.to_nat (phys ps + 1))) (Z.to_nat (phys ps + 1)) nm None maxq now d old.
Proof.
  intros Hok. pose proof (fun n => ok_dense ps Hok n) as Hd. fold (phys ps) in Hd.
  revert no. induction fuel as [| fuel IH]; intros no Hno; cbn [add_port_loop].
  - destruct (Z.leb_spec (Z.of_nat no + Z.of_nat 0) (phys ps + 1)); [done | lia].
  - change (mjoin (slots ps !! no)) with (port_at ps (PSlot no)).
    destruct (port_at ps (PSlot no)) eqn:E.
    + assert (1 <= Z.of_nat no <= phys ps) by (apply Hd; by rewrite E).
      rewrite IH by lia. by replace (Z.of_nat (S no) + Z.of_nat fuel) with (Z.of_nat no + Z.of_nat (S fuel)) by lia.
    + assert (~ 1 <= Z.of_nat no <= phys ps) by (rewrite <- Hd, E; by intros []).
      destruct (Z.leb_spec (Z.of_nat no + Z.of_nat (S fuel)) (phys ps + 1)); [lia |].
      by replace no with (Z.to_nat (phys ps + 1)) by lia.
Qed.

Lemma dp_ports_add_ok ps nm maxq now d old :
  ports_ok ps -> 0 <= maxq ->
  let '(ps', e, _, _) := dp_ports_add ps nm maxq now d old in
  ports_ok ps' /\ (ps' = ps \/ port_list ps' = port_list ps ++ [PSlot (Z.to_nat (phys ps + 1))]).
Proof.
  intros Hok Hm. pose proof (phys_bounds ps Hok). unfold dp_ports_add. rewrite add_loop_free by (done || lia).
  destruct (Z.leb_spec (Z.of_nat 1 + Z.of_nat (Z.to_nat (DP_MAX_PORTS - 1))) (phys ps + 1)); [by split; [| left] |].
  pose proof (new_port_ok ps (PSlot (Z.to_nat (phys ps + 1))) nm None maxq now d old) as Hx. cbn [ref_no] in Hx.
  apply Hx; [done | | done |].
  - destruct (port_at ps _) eqn:E; [| done].
    assert (1 <= Z.of_nat (Z.to_nat (phys ps + 1)) <= phys ps) by (apply (ok_dense ps Hok); by rewrite E). lia.
  - unfold DP_MAX_PORTS in *. lia.
Qed.

Lemma dp_ports_add_local_ok ps id nm now d old :
  ports_ok ps ->
  let '(ps', e, _, _) := dp_ports_add_local ps id nm now d old in
  ports_ok ps' /\ (ps' = ps \/ port_list ps' = port_list ps ++ [PLocal]).
Proof.
  intros Hok. unfold dp_ports_add_local. destruct (local_port ps) eqn:E; [by split; [| left] |].
  by apply (new_port_ok ps PLocal).
Qed.

(** The local port, if there is one, is the last of the list. *)
Definition local_last (ps : ports) : Prop := PLocal ∈ port_list ps -> last (port_list ps) = Some PLocal.

(** Removing the local port, when it is the last one. *)
Lemma remove_local_ok ps in4 ip :
  ports_ok ps -> local_last ps -> is_Some (local_port ps) ->
  exists ps' a, remove_local_port_UAH ps in4 ip = Some (ps', a) /\ ports_ok ps' /\ local_port ps' = None /\
    (forall n, port_at ps' (PSlot n) = port_at ps (PSlot n)) /\ a = (if in4 =? 0 then ip else in4).
Proof.
  intros Hok Hlast Hloc. pose proof Hok as [Ho Hs Hnd Hl Hc Hd]. pose proof (phys_bounds ps Hok) as Hb.
  assert (Hin : PLocal ∈ port_list ps) by (by apply Hl).
  apply Hlast, last_Some in Hin as [l Hli].
  unfold remove_local_port_UAH, phys in *. destruct (local_port ps) as [lp |] eqn:El; [| by destruct Hloc]. cbn [mbind option_bind].
  rewrite Hli in *. destruct (l ++ [PLocal]) as [| r0 l0] eqn:E; [by destruct l |]. rewrite <- E in *. rewrite removelast_last.
  rewrite list.NoDup_app in Hnd. destruct Hnd as (Hnd & Hdis & _). rewrite length_app in Hc. cbn [length] in Hc.
  eexists _, _. split; [done |]. split; [| done].
  assert (Hat : forall r, port_at (Ports (slots ps) None l (u64 (ports_num ps - 1)) (wire ps)) r =
     if decide (r = PLocal) then None else port_at ps r).
  { intros [n |]; cbn; [by rewrite decide_False | by rewrite decide_True]. }
  assert (Hu : u64 (ports_num ps - 1) = ports_num ps - 1)
    by (apply wrap_small; unfold in_range, DP_MAX_PORTS in *; lia).
  split.
  - intros r p. rewrite Hat. case_decide; [done | apply Ho].
  - done.
  - done.
  - intros r. rewrite Hat. cbn [port_list]. specialize (Hl r). rewrite elem_of_app, list_elem_of_singleton in Hl.
    case_decide as Er; [| naive_solver]. subst. split; [| by intros []].
    intros Hx. destruct (Hdis PLocal Hx). by apply list_elem_of_singleton.
  - cbn [port_list ports_num]. rewrite Hu. lia.
  - intros n. rewrite Hat, decide_False by done. cbn [local_port ports_num]. rewrite Hu, Hd. lia.
Qed.

Lemma for_each_list {A} (f : sw_port -> sw_port * list A) l ps ps' out :
  for_each_port f ps l = Some (ps', out) -> port_list ps' = port_list ps.
Proof.
  revert ps ps' out. induction l as [| r l IH]; intros ps ps' out; cbn; [by intros [= <- <-] |].
  destruct (port_at ps r) as [p |]; [| done]. cbn. destruct (f p) as [p' o].
  destruct (for_each_port f _ l) as [[ps1 rest] |] eqn:E; [| done]. cbn. intros [= <- <-].
  rewrite (IH _ _ _ E). by destruct r.
Qed.

Lemma send_on_list send ps r p q c buf : port_list (send_on send ps r p q c buf) = port_list ps.
Proof. by destruct r. Qed.

Lemma output_list send ps buf no q : port_list (dp_ports_output send ps buf no q) = port_list ps.
Proof.
  unfold dp_ports_output. destruct (dp_ports_lookup ps no) as [r |]; [| done].
  destruct (port_at ps r); [| done]. destruct (flag _ _); [done |].
  destruct (q =? 0); [apply send_on_list |]. destruct (dp_ports_lookup_queue _ _); [apply send_on_list | done].
Qed.

Lemma set_port_list ps r p : port_list (set_port ps r p) = port_list ps.
Proof. by destruct r. Qed.

(** A port after the loop of [dp_ports_run] saw its device. *)
Definition run_port (p : sw_port) (s : netdev_link_state) (received : option Z) : sw_port :=
  let p1 := with_conf p (link_change (conf p) s) in
  match received with Some size => with_stats p1 (count_rx (stats p1) size) | None => p1 end.

(** What the datapath does to its ports. The physical ports are added before the local
    one ([udatapath_cmd]). *)
Inductive ports_step : ports -> ports -> Prop :=
  | step_add ps nm maxq now d old :
      local_port ps = None -> 0 <= maxq -> ports_step ps (dp_ports_add ps nm maxq now d old).1.1.1
  | step_add_local ps id nm now d old : ports_step ps (dp_ports_add_local ps id nm now d old).1.1.1
  | step_remove_local ps in4 ip ps' a : remove_local_port_UAH ps in4 ip = Some (ps', a) -> ports_step ps ps'
  | step_output send ps buf no q : ports_step ps (dp_ports_output send ps buf no q)
  | step_flood send ps buf in_port flood ps' :
      dp_ports_output_all send ps buf in_port flood = Some ps' -> ports_step ps ps'
  | step_port_mod ps m role ps' e out :
      in_range 32 (pm_mask m) -> dp_ports_handle_port_mod ps m role = Some (ps', e, out) -> ports_step ps ps'
  | step_queue_modify ps m err now ps' e :
      0 <= qm_queue_id m -> dp_ports_handle_queue_modify ps m err now = Some (ps', e) -> ports_step ps ps'
  | step_queue_delete ps m : 0 <= qm_queue_id m -> ports_step ps (dp_ports_handle_queue_delete ps m).1
  | step_port_stats ps no now ps' rep :
      dp_ports_handle_stats_request_port ps no now = Some (ps', rep) -> ports_step ps ps'
  | step_queue_stats ps no id now ps' rep :
      0 <= id -> dp_ports_handle_stats_request_queue ps no id now = Some (ps', rep) -> ports_step ps ps'
  | step_run ps r p s received : port_at ps r = Some p -> ports_step ps (set_port ps r (run_port p s received)).

Lemma local_last_eq ps ps' : port_list ps' = port_list ps -> local_last ps -> local_last ps'.
Proof. unfold local_last. by intros ->. Qed.

Lemma run_port_ok no p s received : port_ok no p -> port_ok no (run_port p s received).
Proof.
  intros Hp. apply (link_change_ok no p s) in Hp. unfold run_port. destruct received; [| done].
  apply port_ok_with_stats; [done |]. by destruct Hp.
Qed.

(** The list of the ports changes only when one is added or removed. *)
Lemma stats_request_list ps no now ps' rep :
  dp_ports_handle_stats_request_port ps no now = Some (ps', rep) -> port_list ps' = port_list ps.
Proof.
  unfold dp_ports_handle_stats_request_port. destruct (no =? OFPP_ANY).
  - destruct (for_each_port _ _ _) as [[ps1 out] |] eqn:E; [| done]. intros [= <- _]. by apply for_each_list in E.
  - destruct (dp_ports_lookup ps no) as [r |]; [destruct (port_at ps r) |]; intros [= <- _];
      by rewrite ?set_port_list.
Qed.

Lemma queue_request_list ps no id now ps' rep :
  dp_ports_handle_stats_request_queue ps no id now = Some (ps', rep) -> port_list ps' = port_list ps.
Proof.
  unfold dp_ports_handle_stats_request_queue. destruct (no =? OFPP_ANY).
  - destruct (sum_ports _ _ _); [| done]. cbn [mbind option_bind].
    destruct (for_each_port _ _ _) as [[ps1 out] |] eqn:E; [| done]. intros [= <- _]. by apply for_each_list in E.
  - destruct (dp_ports_lookup ps no) as [r |]; [destruct (port_at ps r) |];
      [destruct (id =? OFPQ_ALL); [| destruct (one_queue_stats _ _ _)] | |];
      intros [= <- _]; by rewrite ?set_port_list.
Qed.

Lemma port_mod_list ps m role ps' e out :
  dp_ports_handle_port_mod ps m role = Some (ps', e, out) -> port_list ps' = port_list ps.
Proof.
  unfold dp_ports_handle_port_mod. destruct (role =? _); [by intros [= <- _ _] |].
  destruct (dp_ports_lookup _ _) as [r |]; [| by intros [= <- _ _]].
  destruct (port_at ps r); [| done]. cbn [mbind option_bind].
  destruct (negb _); intros [= <- _ _]; by rewrite ?set_port_list.
Qed.

Lemma queue_modify_list ps m err now ps' e :
  dp_ports_handle_queue_modify ps m err now = Some (ps', e) -> port_list ps' = port_list ps.
Proof.
  unfold dp_ports_handle_queue_modify. destruct (_ ≫= _) as [[r p] |]; [| by intros [= <- _]].
  destruct (dp_ports_lookup_queue p _).
  - destruct (negb _); intros [= <- _]; by rewrite ?set_port_list.
  - destruct (port_add_queue _ _ _ _) as [p' e']. destruct (e' =? EXFULL); [by intros [= <- _] |].
    destruct (dp_ports_lookup_queue p' _); [| done]. intros [= <- _]. by rewrite set_port_list.
Qed.

Lemma queue_delete_list ps m : port_list (dp_ports_handle_queue_delete ps m).1 = port_list ps.
Proof.
  unfold dp_ports_handle_queue_delete. destruct (_ ≫= _) as [[r p] |]; [| done].
  destruct (dp_ports_lookup_queue p _); cbn [fst]; by rewrite ?set_port_list.
Qed.

(** ** Every step keeps the ports well formed *)

Lemma step_adds_ok ps ps' r :
  ports_ok ps -> local_last ps -> (r = PLocal \/ local_port ps = None) ->
  ports_ok ps' /\ (ps' = ps \/ port_list ps' = port_list ps ++ [r]) -> ports_ok ps' /\ local_last ps'.
Proof.
  intros Hok Hl Hr [Hok' [-> | E]]; [done |]. split; [done |]. unfold local_last. rewrite E, last_snoc.
  intros Hin. destruct Hr as [-> | Hn]; [done |].
  apply elem_of_app in Hin as [Hin | ->%list_elem_of_singleton]; [| done].
  apply (ok_list ps Hok) in Hin. cbn in Hin. rewrite Hn in Hin. by destruct Hin.
Qed.

Lemma ports_step_ok ps ps' : ports_step ps ps' -> ports_ok ps -> local_last ps -> ports_ok ps' /\ local_last ps'.
Proof.
  intros Hstep Hok Hl. destruct Hstep.
  - pose proof (dp_ports_add_ok ps nm maxq now d old Hok) as Hx.
    destruct (dp_ports_add _ _ _ _ _ _) as [[[ps' e] mac] out]. cbn [fst].
    eapply step_adds_ok; [done | done | by right | by apply Hx].
  - pose proof (dp_ports_add_local_ok ps id nm now d old Hok) as Hx.
    destruct (dp_ports_add_local _ _ _ _ _ _) as [[[ps' e] mac] out]. cbn [fst].
    eapply step_adds_ok; [done | done | by left | by apply Hx].
  - destruct (local_port ps) as [lp |] eqn:El; [| by unfold remove_local_port_UAH in *; rewrite El in *].
    destruct (remove_local_ok ps in4 ip) as (ps1 & a1 & E & Hok' & Hn & _); [done | done | by rewrite El |].
    simplify_eq. split; [done |]. intros Hin. apply (ok_list ps' Hok') in Hin. cbn in Hin.
    rewrite Hn in Hin. by destruct Hin.
  - split; [by apply output_ok | eapply local_last_eq; [| done]; apply output_list].
  - destruct (flood_outcome send ps buf in_port flood Hok) as [(_ & _ & _ & E) | (_ & ps1 & E & Hfl)]; [congruence |]. simplify_eq.
    destruct Hfl as [Hok' Hl' _ _]. split; [done | by eapply local_last_eq].
  - destruct (port_mod_refines ps m role) as (? & ? & ? & E & Hok' & _); [done | done |]. simplify_eq.
    split; [done | eapply local_last_eq; [by eapply port_mod_list | done]].
  - destruct (queue_modify_refines ps m err now) as (? & ? & E & Hok' & _); [done | done |]. simplify_eq.
    split; [done | eapply local_last_eq; [by eapply queue_modify_list | done]].
  - pose proof (queue_delete_effect ps m Hok) as Hx. pose proof (queue_delete_list ps m) as Hq.
    destruct (dp_ports_handle_queue_delete ps m). split; [by apply Hx | by eapply local_last_eq].
  - destruct (port_stats_fit ps no now) as (? & ? & E & Hok' & _); [done |]. simplify_eq.
    split; [done | eapply local_last_eq; [by eapply stats_request_list | done]].
  - destruct (queue_stats_fit ps no id now) as (? & ? & E & Hok' & _); [done | done |]. simplify_eq.
    split; [done | eapply local_last_eq; [by eapply queue_request_list | done]].
  - split; [| eapply local_last_eq; [apply set_port_list | done]].
    apply set_port_ok; [done | by eexists |]. apply run_port_ok. by apply (ok_ports ps Hok).
Qed.

Lemma ports_init_ok : ports_ok ports_init /\ local_last ports_init.
Proof.
  assert (Hnone : forall r, port_at ports_init r = None).
  { intros [n |]; [| done]. cbn [port_at ports_init slots].
    destruct (replicate _ _ !! n) as [x |] eqn:E; [| done]. by apply lookup_replicate in E as [-> _]. }
  split; [| by intros ?%not_elem_of_nil].
  split.
  - intros r p. by rewrite Hnone.
  - done.
  - apply NoDup_nil_2.
  - intros r. rewrite Hnone. split; [by intros ?%not_elem_of_nil | by intros []].
  - done.
  - intros n. rewrite Hnone. cbn. split; [by intros [] | lia].
Qed.

Lemma reachable_ok ps : rtc ports_step ports_init ps -> ports_ok ps /\ local_last ps.
Proof.
  intros Hr. assert (Hx : forall a b, rtc ports_step a b -> ports_ok a -> local_last a -> ports_ok b /\ local_last b).
  { clear. induction 1 as [| a b c Hs _ IH]; [done |]. intros Hok Hl.
    destruct (ports_step_ok a b Hs Hok Hl). by apply IH. }
  destruct ports_init_ok. by eapply Hx.
Qed.

(** * Theorems *)

(** C22. Whatever the datapath did to its ports since it started, adding the physical ports
    before the local one as [udatapath_cmd] does, the ports are well formed:
    numbered from 1 without a gap, each in the list once, the local port last, the live
    bits and the queue counts right; and the look-up by number finds exactly the port
    that has the number. *)
Theorem ports_invariant ps :
  rtc ports_step ports_init ps ->
  ports_ok ps /\ local_last ps /\
  (forall no r, dp_ports_lookup ps no = Some r <-> exists p, port_at ps r = Some p /\ port_no (conf p) = no).
Proof.
  intros Hr. destruct (reachable_ok ps Hr) as [Hok Hl]. split; [done |]. split; [done |].
  intros no r. rewrite (lookup_ref ps no r Hok). split.
  - intros [[p Hp] <-]. exists p. split; [done |]. by destruct (ok_ports ps Hok r p Hp).
  - intros (p & Hp & <-). split; [by eexists |]. by destruct (ok_ports ps Hok r p Hp).
Qed.

(** C23. Flooding a frame that came in through a port: it reads a missing port exactly when the
    frame came in through the local port, there is no local port, and there are other ports. In
    every other case it hands the frame once to each port that may forward it, in the order of the
    list, and counts each of them as sent or dropped; the other ports are unchanged. *)
Theorem flood_each_once send ps buf in_port flood :
  rtc ports_step ports_init ps ->
  (dp_ports_output_all send ps buf in_port flood = None <->
     u32 in_port = OFPP_LOCAL /\ local_port ps = None /\ port_list ps <> []) /\
  forall ps', dp_ports_output_all send ps buf in_port flood = Some ps' ->
    exists new, wire ps' = wire ps ++ new /\
    map (fun f => (f_port f, f_class f, f_bytes f)) new =
      map (fun r => (r, 0, buf)) (filter (fun r => eligible ps in_port flood r = true) (port_list ps)) /\
    forall r p, port_at ps r = Some p ->
      if eligible ps in_port flood r then
        exists sent, Frame r 0 buf sent ∈ new /\
          port_at ps' r = Some (with_stats p (count_tx (stats p) (length buf) sent))
      else port_at ps' r = Some p.
Proof.
  intros Hr. destruct (reachable_ok ps Hr) as [Hok _].
  destruct (flood_outcome send ps buf in_port flood Hok) as [(H1 & H2 & H3 & E) | (Hno & ps' & E & [_ _ (new & Hw & Hnew) Hat])]; rewrite E.
  { split; [by split | done]. }
  split; [split; [done | by intros ?] |]. intros ? [= <-]. exists new. split_and!; [done.. |]. intros r p Hp. specialize (Hat r p Hp).
  rewrite Hw, drop_app_length, bool_decide_eq_true_2 in Hat; [done |].
  apply (ok_list ps Hok). by rewrite Hp.
Qed.

(** C35. The four requests for ports and queues: the array of the reply has exactly as many
    elements as are written into it, so nothing is written out of bounds and no element
    is left unwritten. *)
Theorem port_replies_fit ps no id now :
  rtc ports_step ports_init ps -> 0 <= id ->
  (exists ps' rep, dp_ports_handle_stats_request_port ps no now = Some (ps', rep) /\ fits rep) /\
  (exists rep, dp_ports_handle_port_desc_request ps = Some rep /\ fits rep) /\
  (exists ps' rep, dp_ports_handle_stats_request_queue ps no id now = Some (ps', rep) /\ fits rep) /\
  (exists rep, dp_ports_handle_queue_get_config_request ps no = Some rep /\
     match rep with inl e => e = queue_error OFPQOFC_BAD_PORT | inr (_, r) => fits r end).
Proof.
  intros Hr Hid. destruct (reachable_ok ps Hr) as [Hok _]. split_and!.
  - destruct (port_stats_fit ps no now Hok) as (? & ? & ? & ? & ?); eauto.
  - by apply port_desc_fit.
  - destruct (queue_stats_fit ps no id now Hok Hid) as (? & ? & ? & ? & ?); eauto.
  - by apply queue_config_fit.
Qed.

(** C34. Queue modification, on every branch: a missing port, a refused change, a changed
    rate, an identifier out of range, and a new queue. No other queue changes. *)
Theorem queue_modify_correct ps m dev_err now :
  rtc ports_step ports_init ps -> 0 <= qm_queue_id m ->
  exists ps' e, dp_ports_handle_queue_modify ps m dev_err now = Some (ps', e) /\
    queue_modify_spec ps m dev_err (queue_rate ps') e.
Proof.
  intros Hr Hid. destruct (reachable_ok ps Hr) as [Hok _].
  destruct (queue_modify_refines ps m dev_err now Hok Hid) as (? & ? & ? & ? & ?); eauto.
Qed.

(** C33. Port modification, on every branch. A failure changes nothing and is not announced. *)
Theorem port_mod_correct ps m role :
  rtc ports_step ports_init ps -> in_range 32 (pm_mask m) ->
  exists ps' e out, dp_ports_handle_port_mod ps m role = Some (ps', e, out) /\
    port_mod_spec ps m role ps' e out /\ (e <> 0 -> ps' = ps /\ out = []).
Proof.
  intros Hr Hm. destruct (reachable_ok ps Hr) as [Hok _].
  destruct (port_mod_refines ps m role Hok Hm) as (ps' & e & out & E & _ & Hs).
  exists ps', e, out. split_and!; [done.. |]. intros He. by destruct Hs.
Qed.

(** * Examples *)

Definition demo_device : device := Device 0 [2; 0; 0; 0; 0; 1] 0 0 0 0x20 0x20 0x20 0.
(** Three physical ports and the local one, which shares the interface of the first. *)
Definition demo_ports : ports :=
  let add ps nm := (dp_ports_add ps nm 8 0 demo_device []).1.1.1 in
  (dp_ports_add_local (add (add (add ports_init "eth0") "eth1") "eth2") 7 "eth0" 0 demo_device []).1.1.1.

Lemma demo_ports_reachable : rtc ports_step ports_init demo_ports.
Proof.
  unfold demo_ports. eapply rtc_l; [by apply (step_add ports_init "eth0" 8 0 demo_device []) |].
  eapply rtc_l; [by apply (step_add _ "eth1" 8 0 demo_device []) |].
  eapply rtc_l; [by apply (step_add _ "eth2" 8 0 demo_device []) |].
  eapply rtc_l; [by apply (step_add_local _ 7 "eth0" 0 demo_device []) |].
  apply rtc_refl.
Defined.

Lemma ports_invariant_witness : dp_ports_lookup demo_ports 3 = Some (PSlot 3) /\ ports_ok demo_ports.
Proof.
  destruct (ports_invariant demo_ports demo_ports_reachable) as (Hok & _ & Hl).
  split; [| exact Hok]. apply Hl. eexists. split; [by vm_compute | by vm_compute].
Defined.

Lemma flood_each_once_witness :
  exists ps', dp_ports_output_all (fun _ _ _ _ => true) demo_ports [1; 2; 3] OFPP_LOCAL true = Some ps' /\
    map f_port (wire ps') = [PSlot 2; PSlot 3].
Proof.
  destruct (flood_each_once (fun _ _ _ _ => true) demo_ports [1; 2; 3] OFPP_LOCAL true demo_ports_reachable) as [_ H].
  eexists. split; [vm_compute; reflexivity |]. destruct (H _ (ltac:(vm_compute; reflexivity))) as (new & Hw & Hnew & _).
  rewrite Hw. apply (f_equal (map (fun x => x.1.1))) in Hnew.
  rewrite !map_map in Hnew. cbn [fst] in Hnew. etransitivity; [exact Hnew | by vm_compute].
Defined.

Lemma port_replies_fit_witness :
  exists rep, dp_ports_handle_port_desc_request demo_ports = Some rep /\ stats_num rep = 4 /\ fits rep.
Proof.
  destruct (port_replies_fit demo_ports OFPP_ANY OFPQ_ALL 5 demo_ports_reachable) as (_ & (rep & E & Hf) & _); [done |].
  exists rep. split; [exact E |]. split; [| exact Hf].
  assert (Some (stats_num rep) = Some 4) as [= ?]; [| done]. 
  change (Some (stats_num rep)) with (stats_num <$> Some rep). rewrite <- E. by vm_compute.
Defined.

Lemma queue_modify_correct_witness :
  exists ps' e, dp_ports_handle_queue_modify demo_ports (QMsg 2 3 500) 0 9 = Some (ps', e) /\
    queue_modify_spec demo_ports (QMsg 2 3 500) 0 (queue_rate ps') e.
Proof. apply (queue_modify_correct demo_ports (QMsg 2 3 500) 0 9 demo_ports_reachable). done. Defined.

Lemma port_mod_correct_witness :
  exists ps' e out, dp_ports_handle_port_mod demo_ports (PMod 2 [2; 0; 0; 0; 0; 1] OFPPC_PORT_DOWN 0xffffffff) 0 =
    Some (ps', e, out) /\ length out = 1%nat.
Proof.
  destruct (port_mod_correct demo_ports (PMod 2 [2; 0; 0; 0; 0; 1] OFPPC_PORT_DOWN 0xffffffff) 0 demo_ports_reachable)
    as (ps' & e & out & E & _ & _); [done |].
  exists ps', e, out. split; [exact E |].
  assert (Some (length out) = Some 1%nat) as [= ?]; [| done].
  change (Some (length out)) with ((fun x => length x.2) <$> Some (ps', e, out)). rewrite <- E. by vm_compute.
Defined.

(** A queue the device refused to set up is reported as an error and stays in the port. *)
Lemma refused_queue_stays :
  (fun x => (x.2, queue_rate x.1 2 3)) <$> dp_ports_handle_queue_modify demo_ports (QMsg 2 3 500) 1 9 =
  Some (queue_error OFPQOFC_BAD_QUEUE, Some 500).
Proof. by vm_compute. Qed.

(** Flooding as the local port, when there is none, reads a NULL pointer. *)
Lemma flood_missing_local :
  (remove_local_port_UAH demo_ports 0 0 ≫= fun x =>
     dp_ports_output_all (fun _ _ _ _ => true) x.1 [1; 2; 3] OFPP_LOCAL true) = None.
Proof. by vm_compute. Qed.

(** With no local port, one port that is up is not counted. *)
Lemma available_without_local :
  num_port_available demo_ports = Some 3 /\
  (remove_local_port_UAH demo_ports 0 0 ≫= fun x => num_port_available x.1) = Some 2.
Proof. by vm_compute. Qed.

(** A physical port added after the local one is what the removal of the local port
    takes off the list. *)
Lemma remove_local_takes_last :
  let late := (dp_ports_add demo_ports "eth3" 8 0 demo_device []).1.1.1 in
  (fun x => port_list x.1) <$> remove_local_port_UAH late 0 0 = Some [PSlot 1; PSlot 2; PSlot 3; PLocal].
Proof. by vm_compute. Qed.

End Ports.
