(* ===== verification/StructCodec.v ===== *)
(** Structures on the wire (oflib/ofl-structs-pack.c, ofl-structs-unpack.c, ofl-structs.c):
    matches, instructions, buckets, bands, ports and statistics. *)
From S2P Require Import Prelude HMap Oxm OflTypes Wire ActCodec Meter Group Ports FlowTable.
Open Scope Z_scope.
Open Scope wire_scope.

Module StructCodec.
Import ActCodec.

Definition OFPBIC_UNKNOWN_INST : Z := 0.
Definition OFPBIC_UNSUP_INST : Z := 1.
Definition OFPBIC_BAD_TABLE_ID : Z := 2.
Definition OFPBRC_BAD_TABLE_ID : Z := 9.
Definition OFPBMC_BAD_TYPE : Z := 0.
Definition OFPGMFC_INVALID_GROUP : Z := 1.
Definition OFPGT_SELECT : Z := 1.
Definition PIPELINE_TABLES : Z := 64.
Definition bad_request (code : Z) : Z := ofl_error OFPET_BAD_REQUEST code.
Definition bad_instruction (code : Z) : Z := ofl_error OFPET_BAD_INSTRUCTION code.

(** An array whose elements are packed one after the other. *)
Fixpoint pack_all {A} (pack : A -> res (list Z)) (l : list A) : res (list Z) :=
  match l with
  | [] => Ok []
  | x :: l => a <- pack x;; b <- pack_all pack l;; Ok (a ++ b)
  end.

(** An element behind a pointer that may not have been set. *)
Definition pack_ptr {A} (pack : A -> list Z) (o : option A) : res (list Z) := match o with Some x => Ok (pack x) | None => Oob end.

Section codec.
Context (junk : nat -> Z).

(** * Matches *)

(** [ofl_structs_match_pack]: what is written from the match on. *)
Definition ofl_structs_match_pack (m : ofl_match) : list Z :=
  if negb (mlength m =? 0) then
    let '(body, oxm_len) := oxm_put_match m in
    be_store 2 1 ++ be_store 2 (oxm_len + 4) ++ take (Z.to_nat oxm_len) body
  else be_store 2 1 ++ be_store 2 4.

(** The space of a match at an offset of a structure: up to the next multiple of eight after
    as many bytes as the match has in its length. *)
Definition match_space (at_ : Z) (m : ofl_match) : nat := Z.to_nat (ROUND_UP (at_ + 4 + mlength m) 8 - at_).
Definition match_region (at_ : Z) (m : ofl_match) : res (list Z) := region junk (match_space at_ m) (ofl_structs_match_pack m).

(** [ofl_structs_match_unpack]; [addr] is the address the fields are copied to. *)
Definition ofl_structs_match_unpack (m : list Z) (len addr : Z) : res (ofl_match * Z) :=
  type <- get 2 m 0;;
  if type =? 1 then
    n <- get 2 m 2;;
    buf <- (if 8 <? n then rd m 4 (Z.to_nat (n - 4)) else Ok []);;
    let '(r, len, error) := ofl_structs_oxm_match_unpack n buf len addr in
    if error =? 0 then Ok (r, len) else Err error
  else Err (ofl_error OFPET_BAD_MATCH OFPBMC_BAD_TYPE).

(** * Instructions *)

Definition ofl_structs_instructions_ofp_len (i : ofl_instruction) : Z :=
  match i with
  | Inst_goto_table _ => 8
  | Inst_write_metadata _ _ => 24
  | Inst_write_actions acts | Inst_apply_actions acts => u64 (8 + ofl_actions_ofp_total_len acts)
  | Inst_clear_actions => 8
  | Inst_meter _ => 8
  | Inst_experimenter _ => u64 (-1)
  end.

Definition ofl_structs_instructions_ofp_total_len (insts : list ofl_instruction) : Z :=
  fold_left (fun sum i => u64 (sum + ofl_structs_instructions_ofp_len i)) insts 0.

Definition ofl_structs_instructions_pack (i : ofl_instruction) : list Z :=
  match i with
  | Inst_goto_table t => small (inst_type i) (be_store 1 t ++ zeros 3)
  | Inst_write_metadata md mask => be_store 2 (inst_type i) ++ be_store 2 24 ++ zeros 4 ++ be_store 8 md ++ be_store 8 mask
  | Inst_write_actions acts | Inst_apply_actions acts =>
      be_store 2 (inst_type i) ++ be_store 2 (8 + ofl_actions_ofp_total_len acts) ++ zeros 4 ++ pack_actions junk acts
  | Inst_clear_actions => small (inst_type i) (zeros 4)
  | Inst_meter id => small (inst_type i) (be_store 4 id)
  | Inst_experimenter _ => []
  end.

(** The actions of an instruction: as many as are counted in [ilen] bytes. *)
Definition unpack_inst_actions (m : list Z) (ilen : Z) : res (list ofl_action * Z) :=
  n <- ofl_utils_count_ofp_actions (drop 8 m) ilen;; unpack_actions junk n (drop 8 m) ilen.

Definition unpack_inst_body (type : Z) (m : list Z) (ilen : Z) : res (ofl_instruction * Z) :=
  if type =? 1 then
    refuse (ilen <? 8) (ofl_error OFPET_BAD_ACTION OFPBRC_BAD_LEN);;;
    t <- get 1 m 4;;
    refuse (PIPELINE_TABLES <=? t) (bad_instruction OFPBIC_BAD_TABLE_ID);;;
    Ok (Inst_goto_table t, ilen - 8)
  else if type =? 2 then
    refuse (ilen <? 24) (ofl_error OFPET_BAD_ACTION OFPBRC_BAD_LEN);;;
    md <- get 8 m 8;; mask <- get 8 m 16;;
    Ok (Inst_write_metadata md mask, ilen - 24)
  else if (type =? 3) || (type =? 4) then
    refuse (ilen <? 8) (bad_request OFPBRC_BAD_LEN);;;
    '(acts, ilen) <- unpack_inst_actions m (ilen - 8);;
    Ok (if type =? 3 then Inst_write_actions acts else Inst_apply_actions acts, ilen)
  else if type =? 5 then
    refuse (ilen <? 8) (bad_request OFPBRC_BAD_LEN);;; Ok (Inst_clear_actions, ilen - 8)
  else if type =? 6 then
    refuse (ilen <? 8) (ofl_error OFPET_BAD_ACTION OFPBRC_BAD_LEN);;;
    id <- get 4 m 4;; Ok (Inst_meter id, ilen - 8)
  else if type =? 0xffff then Err (bad_instruction OFPBIC_UNSUP_INST)
  else Err (bad_instruction OFPBIC_UNKNOWN_INST).

Definition ofl_structs_instructions_unpack (m : list Z) (len : Z) : res (ofl_instruction * Z) :=
  refuse (len <? 4) (bad_action OFPBAC_BAD_LEN);;;
  ilen <- get 2 m 2;;
  refuse (len <? ilen) (bad_action OFPBAC_BAD_LEN);;;
  type <- get 2 m 0;;
  '(i, extra) <- unpack_inst_body type m ilen;;
  refuse (negb (extra =? 0)) (bad_request OFPBRC_BAD_LEN);;;
  Ok (i, len - ilen).

(** [ofl_utils_count_ofp_instructions]: [sizeof(struct ofp_instruction) - 4] is zero. *)
Definition ofl_utils_count_ofp_instructions : list Z -> Z -> res nat :=
  count_items (fun len => 4 <? len) 2 0 (fun n => n) (bad_request OFPBRC_BAD_LEN).

Definition unpack_instructions : nat -> list Z -> Z -> res (list ofl_instruction * Z) :=
  unpack_seq ofl_structs_instructions_unpack (fun m => get 2 m 2).
Definition pack_instructions : list ofl_instruction -> list Z := packs ofl_structs_instructions_pack.

(** * Buckets *)

Definition ofl_structs_buckets_ofp_len (b : ofl_bucket) : Z :=
  let total_len := u64 (16 + ofl_actions_ofp_total_len (b_actions b)) in
  let rem := total_len mod 8 in
  u64 (total_len + (if rem =? 0 then 0 else 8 - rem)).

Definition ofl_structs_buckets_ofp_total_len (bs : list ofl_bucket) : Z :=
  fold_left (fun sum b => u64 (sum + ofl_structs_buckets_ofp_len b)) bs 0.

Definition ofl_structs_bucket_pack (b : ofl_bucket) : list Z :=
  let total_len := u64 (16 + ofl_actions_ofp_total_len (b_actions b)) in
  let rem := total_len mod 8 in
  let align := if rem =? 0 then 0 else 8 - rem in
  be_store 2 (total_len + align) ++ be_store 2 (weight b) ++ be_store 4 (watch_port b) ++ be_store 4 (watch_group b) ++
  zeros 4 ++ pack_actions junk (b_actions b) ++ zeros (Z.to_nat align).

Definition ofl_structs_bucket_unpack (gtype : Z) (m : list Z) (len : Z) : res (ofl_bucket * Z) :=
  refuse (len <? 16) (bad_action OFPBAC_BAD_LEN);;;
  n <- get 2 m 0;;
  refuse (len <? n) (bad_action OFPBAC_BAD_LEN);;;
  w <- get 2 m 2;;
  refuse ((gtype =? OFPGT_SELECT) && (w =? 0)) (ofl_error OFPET_GROUP_MOD_FAILED OFPGMFC_INVALID_GROUP);;;
  refuse (negb (gtype =? OFPGT_SELECT) && (0 <? w)) (ofl_error OFPET_GROUP_MOD_FAILED OFPGMFC_INVALID_GROUP);;;
  wp <- get 4 m 4;; wg <- get 4 m 8;;
  let blen := u64 (n - 16) in
  k <- ofl_utils_count_ofp_actions (drop 16 m) blen;;
  '(acts, blen) <- unpack_actions junk k (drop 16 m) blen;;
  refuse (8 <=? blen) (bad_request OFPBRC_BAD_LEN);;;
  Ok (Bucket w wp wg acts, len - n).

Definition ofl_utils_count_ofp_buckets : list Z -> Z -> res nat :=
  count_items (fun len => 16 <=? len) 0 16 (fun n => n) (bad_request OFPBRC_BAD_LEN).
Definition unpack_buckets (gtype : Z) : nat -> list Z -> Z -> res (list ofl_bucket * Z) :=
  unpack_seq (ofl_structs_bucket_unpack gtype) (fun m => get 2 m 0).
Definition pack_buckets : list ofl_bucket -> list Z := packs ofl_structs_bucket_pack.

(** * Bands *)

Definition band_type (b : Meter.meter_band) : Z :=
  match b with Meter.Band_drop _ _ => 1 | Meter.Band_dscp_remark _ _ _ => 2 | Meter.Band_experimenter _ _ _ => 0xffff end.

Definition ofl_structs_meter_band_ofp_len (b : Meter.meter_band) : Z := 16.
Definition ofl_structs_meter_bands_ofp_total_len (bs : list Meter.meter_band) : Z :=
  fold_left (fun sum b => u64 (sum + ofl_structs_meter_band_ofp_len b)) bs 0.

Definition ofl_structs_meter_band_pack (b : Meter.meter_band) : list Z :=
  be_store 2 (band_type b) ++ be_store 2 16 ++ be_store 4 (Meter.band_rate b) ++ be_store 4 (Meter.band_burst_size b) ++
  match b with
  | Meter.Band_drop _ _ => zeros 4
  | Meter.Band_dscp_remark _ _ prec => be_store 1 prec ++ zeros 3
  | Meter.Band_experimenter _ _ x => be_store 4 x
  end.

(** [ofl_structs_meter_band_unpack]; a band of an unknown type leaves the pointer to it as the
    new array has it: there is no band. *)
Definition ofl_structs_meter_band_unpack (m : list Z) (len : Z) : res (option Meter.meter_band * Z) :=
  refuse (len <? 12) (bad_action OFPBAC_BAD_LEN);;;
  type <- get 2 m 0;;
  b <- (if type =? 1 then rate <- get 4 m 4;; burst <- get 4 m 8;; Ok (Some (Meter.Band_drop rate burst))
        else if type =? 2 then
          rate <- get 4 m 4;; burst <- get 4 m 8;; p <- get 1 m 12;; Ok (Some (Meter.Band_dscp_remark rate burst p))
        else if type =? 0xffff then
          rate <- get 4 m 4;; burst <- get 4 m 8;; x <- get 4 m 12;; Ok (Some (Meter.Band_experimenter rate burst x))
        else Ok None);;
  n <- get 2 m 2;;
  Ok (b, u64 (len - n)).

Definition ofl_utils_count_ofp_meter_bands : list Z -> Z -> res nat :=
  count_items (fun len => 12 <=? len) 2 12 (fun n => n) (bad_request OFPBRC_BAD_LEN).
Definition unpack_bands : nat -> list Z -> Z -> res (list (option Meter.meter_band) * Z) :=
  unpack_seq ofl_structs_meter_band_unpack (fun m => get 2 m 2).
Definition pack_bands : list Meter.meter_band -> list Z := packs ofl_structs_meter_band_pack.

(** * Ports *)

Definition ofl_structs_port_pack (p : Ports.ofl_port) : list Z :=
  be_store 4 (Ports.port_no p) ++ zeros 4 ++ Ports.hw_addr p ++ zeros 2 ++ strncpy 16 (str_bytes (Ports.name p)) ++
  be_store 4 (Ports.config p) ++ be_store 4 (Ports.state p) ++ be_store 4 (Ports.curr p) ++ be_store 4 (Ports.advertised p) ++
  be_store 4 (Ports.supported p) ++ be_store 4 (Ports.peer p) ++ be_store 4 (Ports.curr_speed p) ++ be_store 4 (Ports.max_speed p).

Definition bad_port_no (no : Z) : bool := (no =? 0) || (OFPP_MAX <? no) && negb (no =? OFPP_LOCAL).

Definition ofl_structs_port_unpack (m : list Z) (len : Z) : res (Ports.ofl_port * Z) :=
  refuse (len <? 64) (ofl_error OFPET_BAD_ACTION OFPBRC_BAD_LEN);;;
  no <- get 4 m 0;;
  refuse (bad_port_no no) (ofl_error OFPET_BAD_ACTION OFPBRC_BAD_LEN);;;
  hw <- rd m 8 6;; name <- rd_string m 16;;
  config <- get 4 m 32;; state <- get 4 m 36;; curr <- get 4 m 40;; advertised <- get 4 m 44;;
  supported <- get 4 m 48;; peer <- get 4 m 52;; curr_speed <- get 4 m 56;; max_speed <- get 4 m 60;;
  Ok (Ports.PDesc no hw (bytes_str name) config state curr advertised supported peer curr_speed max_speed, len - 64).

(** * Statistics *)

Definition ofl_structs_port_stats_pack (s : Ports.ofl_port_stats) : list Z :=
  be_store 4 (Ports.ps_port_no s) ++ zeros 4 ++ be_store 8 (Ports.rx_packets s) ++ be_store 8 (Ports.tx_packets s) ++
  be_store 8 (Ports.rx_bytes s) ++ be_store 8 (Ports.tx_bytes s) ++ be_store 8 (Ports.rx_dropped s) ++
  be_store 8 (Ports.tx_dropped s) ++ be_store 8 (Ports.rx_errors s) ++ be_store 8 (Ports.tx_errors s) ++
  be_store 8 (Ports.rx_frame_err s) ++ be_store 8 (Ports.rx_over_err s) ++ be_store 8 (Ports.rx_crc_err s) ++
  be_store 8 (Ports.collisions s) ++ be_store 4 (Ports.duration_sec s) ++ be_store 4 (Ports.duration_nsec s).

Definition ofl_structs_port_stats_unpack (m : list Z) (len : Z) : res (Ports.ofl_port_stats * Z) :=
  refuse (len <? 112) (ofl_error OFPET_BAD_ACTION OFPBRC_BAD_LEN);;;
  no <- get 4 m 0;;
  refuse (bad_port_no no) (ofl_error OFPET_BAD_ACTION OFPBRC_BAD_LEN);;;
  rx_packets <- get 8 m 8;; tx_packets <- get 8 m 16;; rx_bytes <- get 8 m 24;; tx_bytes <- get 8 m 32;;
  rx_dropped <- get 8 m 40;; tx_dropped <- get 8 m 48;; rx_errors <- get 8 m 56;; tx_errors <- get 8 m 64;;
  rx_frame_err <- get 8 m 72;; rx_over_err <- get 8 m 80;; rx_crc_err <- get 8 m 88;; collisions <- get 8 m 96;;
  sec <- get 4 m 104;; nsec <- get 4 m 108;;
  Ok (Ports.PStats no rx_packets tx_packets rx_bytes tx_bytes rx_dropped tx_dropped rx_errors tx_errors rx_frame_err
        rx_over_err rx_crc_err collisions sec nsec, len - 112).

Definition ofl_structs_queue_stats_pack (s : Ports.ofl_queue_stats) : list Z :=
  be_store 4 (Ports.qs_port_no s) ++ be_store 4 (Ports.qs_queue_id s) ++ be_store 8 (Ports.q_tx_bytes s) ++
  be_store 8 (Ports.q_tx_packets s) ++ be_store 8 (Ports.q_tx_errors s) ++ be_store 4 (Ports.q_duration_sec s) ++
  be_store 4 (Ports.q_duration_nsec s).

Definition ofl_structs_queue_stats_unpack (m : list Z) (len : Z) : res (Ports.ofl_queue_stats * Z) :=
  refuse (len <? 40) (bad_request OFPBRC_BAD_LEN);;;
  no <- get 4 m 0;;
  refuse ((no =? 0) || (OFPP_MAX <? no)) (ofl_error OFPET_BAD_ACTION OFPBRC_BAD_LEN);;;
  id <- get 4 m 4;; tx_bytes <- get 8 m 8;; tx_packets <- get 8 m 16;; tx_errors <- get 8 m 24;;
  sec <- get 4 m 32;; nsec <- get 4 m 36;;
  Ok (Ports.QStats no id tx_bytes tx_packets tx_errors sec nsec, len - 40).

(** [struct ofl_table_stats] *)
Record table_stats := TStats { ts_table_id : Z; ts_active_count : Z; ts_lookup_count : Z; ts_matched_count : Z }.

Definition ofl_structs_table_stats_pack (s : table_stats) : list Z :=
  be_store 1 (ts_table_id s) ++ zeros 3 ++ be_store 4 (ts_active_count s) ++ be_store 8 (ts_lookup_count s) ++
  be_store 8 (ts_matched_count s).

Definition ofl_structs_table_stats_unpack (m : list Z) (len : Z) : res (table_stats * Z) :=
  refuse (len <? 24) (ofl_error OFPET_BAD_ACTION OFPBRC_BAD_LEN);;;
  id <- get 1 m 0;;
  refuse (id =? 0xff) (ofl_error OFPET_BAD_ACTION OFPBRC_BAD_LEN);;;
  active <- get 4 m 4;; looked <- get 8 m 8;; matched <- get 8 m 16;;
  Ok (TStats id active looked matched, len - 24).

Definition ofl_structs_bucket_counter_pack (c : Group.bucket_counter) : list Z :=
  be_store 8 (Group.b_packet_count c) ++ be_store 8 (Group.b_byte_count c).

Definition ofl_structs_bucket_counter_unpack (m : list Z) (len : Z) : res (Group.bucket_counter * Z) :=
  refuse (len <? 16) (bad_request OFPBRC_BAD_LEN);;;
  p <- get 8 m 0;; b <- get 8 m 8;; Ok (Group.BCounter p b, len - 16).

Definition ofl_utils_count_ofp_bucket_counters (len : Z) : Z := len / 16.

Definition ofl_structs_group_stats_ofp_len (s : Group.group_stats) : Z := 40 + 16 * length (Group.counters s).

Definition ofl_structs_group_stats_pack (s : Group.group_stats) : list Z :=
  be_store 2 (ofl_structs_group_stats_ofp_len s) ++ zeros 2 ++ be_store 4 (Group.g_group_id s) ++
  be_store 4 (Group.ref_count s) ++ zeros 4 ++ be_store 8 (Group.g_packet_count s) ++ be_store 8 (Group.g_byte_count s) ++
  be_store 4 (Group.g_duration_sec s) ++ be_store 4 (Group.g_duration_nsec s) ++
  packs ofl_structs_bucket_counter_pack (Group.counters s).

Definition ofl_structs_group_stats_unpack (m : list Z) (len : Z) : res (Group.group_stats * Z) :=
  refuse (len <? 40) (bad_request OFPBRC_BAD_LEN);;;
  n <- get 2 m 0;;
  refuse (len <? n) (bad_request OFPBRC_BAD_LEN);;;
  id <- get 4 m 4;;
  refuse (OFPG_MAX <? id) (ofl_error OFPET_BAD_ACTION OFPBRC_BAD_LEN);;;
  let slen := u64 (n - 40) in
  ref <- get 4 m 8;; p <- get 8 m 16;; b <- get 8 m 24;; sec <- get 4 m 32;; nsec <- get 4 m 36;;
  '(cs, slen) <- unpack_fixed ofl_structs_bucket_counter_unpack 16 (ofl_utils_count_ofp_bucket_counters slen) (drop 40 m) slen;;
  refuse (negb (slen =? 0)) (bad_request OFPBRC_BAD_LEN);;;
  Ok (Group.GStats id ref p b sec nsec cs, len - n).

Definition ofl_structs_group_desc_stats_ofp_len (d : Group.group_desc) : Z :=
  u64 (8 + ofl_structs_buckets_ofp_total_len (Group.buckets d)).

Definition ofl_structs_group_desc_stats_pack (d : Group.group_desc) : list Z :=
  be_store 2 (ofl_structs_group_desc_stats_ofp_len d) ++ be_store 1 (Group.g_type d) ++ zeros 1 ++
  be_store 4 (Group.d_group_id d) ++ pack_buckets (Group.buckets d).

Definition ofl_structs_group_desc_stats_unpack (m : list Z) (len : Z) : res (Group.group_desc * Z) :=
  refuse (len <? 8) (bad_request OFPBRC_BAD_LEN);;;
  n <- get 2 m 0;;
  refuse (len <? n) (bad_request OFPBRC_BAD_LEN);;;
  id <- get 4 m 4;;
  refuse (OFPG_MAX <? id) (bad_request OFPBRC_BAD_LEN);;;
  let dlen := u64 (n - 8) in
  type <- get 1 m 2;;
  k <- ofl_utils_count_ofp_buckets (drop 8 m) dlen;;
  '(bs, dlen) <- unpack_buckets type k (drop 8 m) dlen;;
  refuse (negb (dlen =? 0)) (bad_request OFPBRC_BAD_LEN);;;
  Ok (Group.GDesc type id bs, len - n).

(** The counts of a band that are sent; the token bucket is not. *)
Definition ofl_structs_pack_band_stats (s : Meter.band_stats) : list Z :=
  be_store 8 (Meter.packet_band_count s) ++ be_store 8 (Meter.byte_band_count s).

(** New memory holds the other fields. *)
Definition ofl_structs_meter_band_stats_unpack (m : list Z) (len : Z) : res (Meter.band_stats * Z) :=
  refuse (len <? 16) (bad_request OFPBRC_BAD_LEN);;;
  p <- get 8 m 0;; b <- get 8 m 8;; Ok (Meter.BStats p b (junk 0) (junk 1), len - 16).

(** The loop takes sixteen bytes while there are as many. *)
Definition ofl_utils_count_ofp_meter_band_stats (len : Z) : Z := len / 16.

Definition ofl_structs_meter_stats_ofp_len (s : Meter.meter_stats) : Z := 40 + 16 * length (Meter.s_bands s).

Definition ofl_structs_meter_stats_pack (s : Meter.meter_stats) : list Z :=
  be_store 4 (Meter.s_meter_id s) ++ be_store 2 (ofl_structs_meter_stats_ofp_len s) ++ zeros 6 ++
  be_store 4 (Meter.flow_count s) ++ be_store 8 (Meter.packet_in_count s) ++ be_store 8 (Meter.byte_in_count s) ++
  be_store 4 (Meter.duration_sec s) ++ be_store 4 (Meter.duration_nsec s) ++ packs ofl_structs_pack_band_stats (Meter.s_bands s).

Definition ofl_structs_meter_stats_unpack (m : list Z) (len : Z) : res (Meter.meter_stats * Z) :=
  refuse (len <? 40) (bad_request OFPBRC_BAD_LEN);;;
  n <- get 2 m 4;;
  refuse (len <? n) (bad_request OFPBRC_BAD_LEN);;;
  let slen := u64 (n - 40) in
  id <- get 4 m 0;; flows <- get 4 m 12;; p <- get 8 m 16;; b <- get 8 m 24;; sec <- get 4 m 32;; nsec <- get 4 m 36;;
  '(bs, slen) <- unpack_fixed ofl_structs_meter_band_stats_unpack 16 (ofl_utils_count_ofp_meter_band_stats slen) (drop 40 m) slen;;
  refuse (negb (slen =? 0)) (bad_request OFPBRC_BAD_LEN);;;
  Ok (Meter.MStats id flows p b sec nsec bs, len - n).

Definition ofl_structs_meter_conf_ofp_len (c : Meter.meter_config) : Z :=
  u64 (8 + ofl_structs_meter_bands_ofp_total_len (Meter.c_bands c)).

Definition ofl_structs_meter_conf_pack (c : Meter.meter_config) : list Z :=
  be_store 2 (ofl_structs_meter_conf_ofp_len c) ++ be_store 2 (Meter.c_flags c) ++ be_store 4 (Meter.c_meter_id c) ++
  pack_bands (Meter.c_bands c).

Definition ofl_structs_meter_config_unpack (m : list Z) (len : Z) : res (Z * Z * list (option Meter.meter_band) * Z) :=
  refuse (len <? 8) (bad_request OFPBRC_BAD_LEN);;;
  n <- get 2 m 0;;
  refuse (len <? n) (bad_request OFPBRC_BAD_LEN);;;
  let slen := u64 (n - 8) in
  id <- get 4 m 4;; flags <- get 2 m 2;;
  k <- ofl_utils_count_ofp_meter_bands (drop 8 m) slen;;
  '(bs, slen) <- unpack_bands k (drop 8 m) slen;;
  refuse (negb (slen =? 0)) (bad_request OFPBRC_BAD_LEN);;;
  Ok (flags, id, bs, len - n).

(** * Queues *)

(** [struct ofl_queue_prop_*] *)
Inductive queue_prop := Prop_min_rate (rate : Z) | Prop_max_rate (rate : Z) | Prop_experimenter.
(** [struct ofl_packet_queue]; a property that could not be unpacked is a pointer that was not set. *)
Record packet_queue := PacketQueue { pq_id : Z; pq_props : list (option queue_prop) }.

Definition ofl_structs_queue_prop_ofp_len (p : queue_prop) : Z := 16.

Definition ofl_structs_queue_prop_pack (p : queue_prop) : list Z :=
  match p with
  | Prop_min_rate r => be_store 2 1 ++ be_store 2 16 ++ zeros 4 ++ be_store 2 r ++ zeros 6
  | Prop_max_rate r => be_store 2 2 ++ be_store 2 16 ++ zeros 4 ++ be_store 2 r ++ zeros 6
  | Prop_experimenter => be_store 2 0xffff ++ be_store 2 16 ++ zeros 4 ++ fresh junk 4 ++ zeros 4
  end.

Definition ofl_structs_queue_prop_unpack (m : list Z) (len : Z) : res (queue_prop * Z) :=
  refuse (len <? 8) (bad_action OFPBAC_BAD_LEN);;;
  n <- get 2 m 2;;
  refuse (len <? n) (bad_action OFPBAC_BAD_LEN);;;
  type <- get 2 m 0;;
  if (type =? 1) || (type =? 2) || (type =? 0xffff) then
    refuse (len <? 16) (ofl_error OFPET_BAD_ACTION OFPBRC_BAD_LEN);;;
    if type =? 0xffff then Ok (Prop_experimenter, len - 16)
    else r <- get 2 m 8;; Ok (if type =? 1 then Prop_min_rate r else Prop_max_rate r, len - 16)
  else Err (ofl_error OFPET_BAD_ACTION OFPBRC_BAD_LEN).

(** In the loop over the properties an error goes unnoticed. *)
Definition queue_prop_or_not (m : list Z) (len : Z) : res (option queue_prop * Z) :=
  match ofl_structs_queue_prop_unpack m len with
  | Ok (p, len) => Ok (Some p, len)
  | Err _ => Ok (None, len)
  | Oob => Oob
  | Loop => Loop
  end.

Definition ofl_utils_count_ofp_queue_props : list Z -> Z -> res nat :=
  count_items (fun len => 8 <=? len) 2 8 (fun n => n) (bad_request OFPBRC_BAD_LEN).

Definition ofl_structs_packet_queue_ofp_len (q : packet_queue) : Z := 16 + 16 * length (pq_props q).

(** The port is not written. *)
Definition ofl_structs_packet_queue_pack (q : packet_queue) : res (list Z) :=
  ps <- pack_all (pack_ptr ofl_structs_queue_prop_pack) (pq_props q);;
  Ok (be_store 4 (pq_id q) ++ fresh junk 4 ++ be_store 2 (ofl_structs_packet_queue_ofp_len q) ++ zeros 6 ++ ps).

Definition ofl_structs_packet_queue_unpack (m : list Z) (len : Z) : res (packet_queue * Z) :=
  n <- get 2 m 8;;
  refuse (len <? n) (ofl_error OFPET_BAD_ACTION OFPBRC_BAD_LEN);;;
  let len := u64 (len - 16) in
  id <- get 4 m 0;;
  k <- ofl_utils_count_ofp_queue_props (drop 16 m) (u64 (n - 16));;
  '(ps, len) <- unpack_seq queue_prop_or_not (fun m => get 2 m 2) k (drop 16 m) len;;
  Ok (PacketQueue id ps, len).

(** * Flow statistics *)

Definition ofl_structs_flow_stats_ofp_len (s : FlowTable.flow_stats) : Z :=
  u64 (ROUND_UP (52 + mlength (FlowTable.fmatch s)) 8 +
       ofl_structs_instructions_ofp_total_len (FlowTable.insts (FlowTable.instructions s))).

Definition ofl_structs_flow_stats_pack (s : FlowTable.flow_stats) : res (list Z) :=
  mt <- match_region 48 (FlowTable.fmatch s);;
  Ok (be_store 2 (ofl_structs_flow_stats_ofp_len s) ++ be_store 1 (FlowTable.f_table_id s) ++ zeros 1 ++
      be_store 4 (FlowTable.duration_sec s) ++ be_store 4 (FlowTable.duration_nsec s) ++ be_store 2 (FlowTable.priority s) ++
      be_store 2 (FlowTable.idle_timeout s) ++ be_store 2 (FlowTable.hard_timeout s) ++ be_store 2 (FlowTable.flags s) ++
      zeros 4 ++ be_store 8 (FlowTable.cookie s) ++ be_store 8 (FlowTable.packet_count s) ++ be_store 8 (FlowTable.byte_count s) ++
      mt ++ pack_instructions (FlowTable.insts (FlowTable.instructions s))).

(** The instructions are an array at the address [at_]. *)
Definition ofl_structs_flow_stats_unpack (addr : Z) (at_ : positive) (m : list Z) (len : Z) : res (FlowTable.flow_stats * Z) :=
  mlen <- get 2 m 50;;
  refuse (len <? 48 + ROUND_UP mlen 8) (bad_request OFPBRC_BAD_LEN);;;
  n <- get 2 m 0;;
  refuse (len <? n) (bad_request OFPBRC_BAD_LEN);;;
  table <- get 1 m 2;;
  refuse (PIPELINE_TABLES <=? table) (bad_request OFPBRC_BAD_TABLE_ID);;;
  let slen := u64 (n - 48) in
  sec <- get 4 m 4;; nsec <- get 4 m 8;; prio <- get 2 m 12;; idle <- get 2 m 14;; hard <- get 2 m 16;; flags <- get 2 m 18;;
  cookie <- get 8 m 24;; packets <- get 8 m 32;; bytes <- get 8 m 40;;
  '(mt, slen) <- ofl_structs_match_unpack (drop 48 m) slen addr;;
  let tail := drop (Z.to_nat (ROUND_UP (52 + mlength mt) 8)) m in
  k <- ofl_utils_count_ofp_instructions tail slen;;
  '(ins, slen) <- unpack_instructions k tail slen;;
  refuse (negb (slen =? 0)) (bad_request OFPBRC_BAD_LEN);;;
  Ok (FlowTable.FStats table sec nsec prio idle hard flags cookie packets bytes mt (FlowTable.Insts at_ ins), len - n).

(** * Table features *)

Definition OFPET_TABLE_FEATURES_FAILED : Z := 13.
Definition bad_features (code : Z) : Z := ofl_error OFPET_TABLE_FEATURES_FAILED code.
Definition OFPTFFC_BAD_TYPE : Z := 2.
Definition OFPTFFC_BAD_LEN : Z := 3.

(** The kinds of properties, by their types. *)
Definition is_inst_prop (t : Z) : bool := (t =? 0) || (t =? 1).
Definition is_next_prop (t : Z) : bool := (t =? 2) || (t =? 3).
Definition is_act_prop (t : Z) : bool := (4 <=? t) && (t <=? 7).
Definition is_oxm_prop (t : Z) : bool := (t =? 8) || (t =? 10) || (12 <=? t) && (t <=? 15).

Inductive prop_body :=
  | Prop_instructions (ids : list Z)
  | Prop_next_tables (ids : list Z)
  | Prop_actions (ids : list (Z * Z))
  | Prop_oxm (ids : list Z).
(** [struct ofl_table_feature_prop_*] *)
Record table_prop := TableProp { tp_type : Z; tp_length : Z; tp_body : prop_body }.
(** [struct ofl_table_features] *)
Record table_features := Features {
  tf_length : Z; tf_table_id : Z; tf_name : list Z; metadata_match : Z; metadata_write : Z; tf_config : Z; max_entries : Z;
  tf_props : list table_prop }.

(** The ids of a property as they are written. An instruction id is [sizeof(struct
    ofp_instruction) - 4] bytes, which is none; an experimenter instruction has no callback and
    the error word is taken for a length. *)
Definition pack_prop_ids (b : prop_body) : res (list Z) :=
  match b with
  | Prop_instructions ids => if existsb (Z.eqb 0xffff) ids then Oob else Ok []
  | Prop_next_tables ids => Ok (flat_map (be_store 1) ids)
  | Prop_actions ids =>
      Ok (flat_map (fun a => if fst a =? 0xffff then le_store 4 (fst a) ++ le_store 2 (snd a) ++ fresh junk 2
                             else be_store 2 (fst a) ++ be_store 2 (snd a)) ids)
  | Prop_oxm ids => Ok (flat_map (be_store 4) ids)
  end.

Definition ofl_structs_table_properties_pack (p : table_prop) : res (list Z) :=
  ids <- pack_prop_ids (tp_body p);;
  let space := ROUND_UP (tp_length p) 8 in
  region junk (Z.to_nat space) (be_store 2 (tp_type p) ++ be_store 2 (tp_length p) ++ ids ++ zeros (Z.to_nat (space - tp_length p))).

Definition unpack_inst_ids : nat -> list Z -> Z -> res (list Z * Z) :=
  unpack_seq (fun m len => t <- get 2 m 0;; Ok (t, len)) (fun m => get 2 m 2).
Definition unpack_act_ids : nat -> list Z -> Z -> res (list (Z * Z) * Z) :=
  unpack_seq (fun m len => t <- get 2 m 0;; n <- get 2 m 2;; Ok ((t, n), len)) (fun m => get 2 m 2).

Definition ofl_structs_table_properties_unpack (m : list Z) (len : Z) : res (table_prop * Z) :=
  refuse (len <? 4) (bad_features OFPTFFC_BAD_LEN);;;
  plen <- get 2 m 2;;
  refuse (len <? plen) (bad_features OFPTFFC_BAD_LEN);;;
  type <- get 2 m 0;;
  body <- (
    if is_inst_prop type then
      refuse (plen <? 4) (bad_features OFPTFFC_BAD_LEN);;;
      k <- ofl_utils_count_ofp_instructions (drop 4 m) (plen - 4);;
      '(ids, _) <- unpack_inst_ids k (drop 4 m) 0;; Ok (Prop_instructions ids)
    else if is_next_prop type then
      refuse (plen <? 4) (bad_features OFPTFFC_BAD_LEN);;;
      ids <- rd m 4 (Z.to_nat (plen - 4));; Ok (Prop_next_tables ids)
    else if is_act_prop type then
      refuse (plen <? 4) (bad_features OFPTFFC_BAD_LEN);;;
      k <- ofl_utils_count_ofp_actions (drop 4 m) (plen - 4);;
      '(ids, _) <- unpack_act_ids k (drop 4 m) 0;; Ok (Prop_actions ids)
    else if is_oxm_prop type then
      refuse (plen <? 4) (bad_features OFPTFFC_BAD_LEN);;;
      '(ids, _) <- unpack_seq (fun m len => h <- get 4 m 0;; Ok (h, len)) (fun _ => Ok 4) (Z.to_nat ((plen - 4) / 4)) (drop 4 m) 0;;
      Ok (Prop_oxm ids)
    else Err (bad_features OFPTFFC_BAD_TYPE));;
  Ok (TableProp type plen body, len - plen).

Definition ofl_utils_count_ofp_table_features_properties : list Z -> Z -> res nat :=
  count_items (fun len => 4 <=? len) 2 4 (fun n => ROUND_UP n 8) (bad_features OFPTFFC_BAD_LEN).

Definition properties_total_len (ps : list table_prop) : Z := fold_left (fun sum p => u64 (sum + ROUND_UP (tp_length p) 8)) ps 0.

Definition ofl_structs_table_features_pack (f : table_features) : res (list Z) :=
  ps <- pack_all ofl_structs_table_properties_pack (tf_props f);;
  Ok (be_store 2 (64 + properties_total_len (tf_props f)) ++ be_store 1 (tf_table_id f) ++ zeros 5 ++ strncpy 32 (tf_name f) ++
      be_store 8 (metadata_match f) ++ be_store 8 (metadata_write f) ++ be_store 4 (tf_config f) ++ be_store 4 (max_entries f) ++ ps).

Definition ofl_structs_table_features_unpack (m : list Z) (len : Z) : res (table_features * Z) :=
  refuse (len <? 64) (bad_features OFPTFFC_BAD_LEN);;;
  n <- get 2 m 0;;
  refuse (len <? n) (bad_action OFPBAC_BAD_LEN);;;
  id <- get 1 m 2;; name <- rd m 8 32;; mm <- get 8 m 40;; mw <- get 8 m 48;; config <- get 4 m 56;; max <- get 4 m 60;;
  let plen := u64 (n - 64) in
  k <- ofl_utils_count_ofp_table_features_properties (drop 64 m) plen;;
  '(ps, _) <- unpack_seq ofl_structs_table_properties_unpack (fun m => n <- get 2 m 2;; Ok (ROUND_UP n 8)) k (drop 64 m) plen;;
  Ok (Features n id (strncpy 32 name) mm mw config max ps, len - n).

Definition ofl_utils_count_ofp_table_features : list Z -> Z -> res nat :=
  count_items (fun len => 64 <=? len) 0 64 (fun n => n) (bad_features OFPTFFC_BAD_LEN).

(** The sum is an [int]. *)
Definition ofl_structs_table_features_ofp_total_len (fs : list table_features) : Z :=
  u64 (signed 32 (u32 (fold_left (fun sum f => sum + 64 + properties_total_len (tf_props f)) fs 0))).

Definition unpack_features : nat -> list Z -> Z -> res (list table_features * Z) :=
  unpack_seq ofl_structs_table_features_unpack (fun m => get 2 m 0).

(** * Lists of statistics *)

(** [OFL_UTILS_SUM_ARR_FUN] over an array. *)
Definition sum_lens {A} (size : A -> Z) (l : list A) : Z := fold_left (fun sum x => u64 (sum + size x)) l 0.

Definition ofl_structs_flow_stats_ofp_total_len : list FlowTable.flow_stats -> Z := sum_lens ofl_structs_flow_stats_ofp_len.
Definition ofl_structs_group_stats_ofp_total_len : list Group.group_stats -> Z := sum_lens ofl_structs_group_stats_ofp_len.
Definition ofl_structs_group_desc_stats_ofp_total_len : list Group.group_desc -> Z := sum_lens ofl_structs_group_desc_stats_ofp_len.
Definition ofl_structs_meter_stats_ofp_total_len : list Meter.meter_stats -> Z := sum_lens ofl_structs_meter_stats_ofp_len.
Definition ofl_structs_meter_conf_ofp_total_len : list Meter.meter_config -> Z := sum_lens ofl_structs_meter_conf_ofp_len.
Definition ofl_structs_packet_queue_ofp_total_len : list packet_queue -> Z := sum_lens ofl_structs_packet_queue_ofp_len.

(** Counts of items of at least [low] bytes, whose length is at [at_]. *)
Definition count_stats (at_ : nat) (low : Z) : list Z -> Z -> res nat :=
  count_items (fun len => low <=? len) at_ low (fun n => n) (bad_request OFPBRC_BAD_LEN).
Definition ofl_utils_count_ofp_packet_queues : list Z -> Z -> res nat := count_stats 8 16.
Definition ofl_utils_count_ofp_flow_stats : list Z -> Z -> res nat := count_stats 0 56.
Definition ofl_utils_count_ofp_group_stats : list Z -> Z -> res nat := count_stats 0 40.
Definition ofl_utils_count_ofp_group_desc_stats : list Z -> Z -> res nat := count_stats 0 8.
Definition ofl_utils_count_ofp_meter_stats : list Z -> Z -> res nat := count_stats 4 40.
Definition ofl_utils_count_ofp_meter_config : list Z -> Z -> res nat := count_stats 0 8.
(** Counts of items of a fixed size. *)
Definition ofl_utils_count_ofp_ports (len : Z) : Z := len / 64.
Definition ofl_utils_count_ofp_table_stats (len : Z) : Z := len / 24.
Definition ofl_utils_count_ofp_port_stats (len : Z) : Z := len / 112.
Definition ofl_utils_count_ofp_queue_stats (len : Z) : Z := len / 40.

End codec.
End StructCodec.
