(* ===== verification/StructWire.v ===== *)
(** Structures that are packed are unpacked to themselves, and what the unpacking of structures
    does with lengths that are wrong. *)
From S2P Require Import Prelude HMap Oxm OflTypes Wire ActCodec Meter Group Ports FlowTable StructCodec.
Open Scope Z_scope.
Open Scope wire_scope.

Module StructWire.
Import ActCodec StructCodec.

(** * Lengths of zero *)

(** The loop of [ofl_utils_count_ofp_instructions] for a number of rounds. *)
Definition count_instructions (fuel : nat) (m : list Z) (len : Z) (n : nat) : res nat :=
  count_ofp (fun len => 4 <? len) 2 0 (fun n => n) (bad_request OFPBRC_BAD_LEN) fuel m len n.

Lemma zero_length_fuel m len fuel n :
  get 2 m 2 = Ok 0 -> 4 < len < 2 ^ 64 ->
  count_instructions fuel m len n = Loop.
Proof.
  intros Hm Hlen. unfold count_instructions. revert n. induction fuel as [| fuel IH]; intros n; cbn [count_ofp];
    (destruct (Z.ltb_spec 4 len); [| lia]); [done |].
  rewrite Hm. cbn [rbind]. destruct (Z.ltb_spec len 0); [lia |]. cbn [orb Z.ltb Z.compare refuse rbind Z.to_nat drop].
  rewrite Z.sub_0_r, wrap_small by (unfold in_range; lia). apply IH.
Qed.

(** An instruction whose length is zero is counted for ever, however long the loop runs: it has
    no lower bound for the length, and goes on by nothing. *)
Theorem zero_length_instruction_hangs m len :
  get 2 m 2 = Ok 0 -> 4 < len < 2 ^ 64 ->
  ofl_utils_count_ofp_instructions m len = Loop /\
  forall fuel n, count_instructions fuel m len n = Loop.
Proof. intros Hm Hlen. split; [by apply zero_length_fuel |]. intros fuel n. by apply zero_length_fuel. Qed.

Section wire.
Context (junk : nat -> Z).

(** * Instructions *)

Definition inst_ok (i : ofl_instruction) : bool :=
  match i with
  | Inst_goto_table t => fits 1 t && (t <? PIPELINE_TABLES)
  | Inst_write_metadata md mask => fits 8 md && fits 8 mask
  | Inst_write_actions acts | Inst_apply_actions acts => forallb act_ok acts && (total_len junk acts <? 65528)
  | Inst_clear_actions => true
  | Inst_meter id => fits 4 id
  | Inst_experimenter _ => false
  end.

Lemma total_len_range acts : 0 <= total_len junk acts.
Proof. unfold total_len. lia. Qed.

(** The length of an instruction with actions. *)
Lemma inst_actions_len acts :
  forallb act_ok acts && (total_len junk acts <? 65528) = true ->
  forallb act_ok acts = true /\ ofl_actions_ofp_total_len acts = total_len junk acts /\
  u64 (8 + total_len junk acts) = 8 + total_len junk acts /\ 0 <= total_len junk acts < 65528.
Proof.
  intros H. apply split_ok in H as [Ha Hl]. apply Z.ltb_lt in Hl. pose proof (total_len_range acts).
  rewrite (ofp_total_len_eq junk) by (done || lia). rewrite wrap_small by (unfold in_range; lia). by split_and!.
Qed.

Lemma inst_len i : inst_ok i = true -> 8 <= ofl_structs_instructions_ofp_len i < 2 ^ 16.
Proof.
  destruct i; try done; cbn [inst_ok ofl_structs_instructions_ofp_len]; intros (_ & -> & -> & ?)%inst_actions_len; lia.
Qed.

Lemma inst_pack_length i : inst_ok i = true -> Z.of_nat (length (ofl_structs_instructions_pack junk i)) = ofl_structs_instructions_ofp_len i.
Proof.
  destruct i; cbn [ofl_structs_instructions_pack ofl_structs_instructions_ofp_len inst_ok];
    unfold small; try (autorewrite with wire; done).
  all: intros (_ & -> & -> & _)%inst_actions_len; autorewrite with wire; unfold total_len; lia.
Qed.

Lemma inst_header i rest : inst_ok i = true ->
  get 2 (ofl_structs_instructions_pack junk i ++ rest) 2 = Ok (ofl_structs_instructions_ofp_len i) /\
  get 2 (ofl_structs_instructions_pack junk i ++ rest) 0 = Ok (inst_type i).
Proof.
  intros Hi. assert (Hf : fits 2 (ofl_structs_instructions_ofp_len i) = true) by (apply range_fits; pose proof (inst_len i Hi); lia).
  assert (Ht : fits 2 (inst_type i) = true) by (by destruct i).
  assert (exists tail, ofl_structs_instructions_pack junk i = be_store 2 (inst_type i) ++ be_store 2 (ofl_structs_instructions_ofp_len i) ++ tail) as [tail ->].
  { destruct i; try done; try by eexists.
    all: eexists; cbn [ofl_structs_instructions_pack ofl_structs_instructions_ofp_len inst_ok] in *;
      destruct (inst_actions_len _ Hi) as (_ & -> & -> & _); done. }
  rewrite <- !app_assoc. split; read_field.
Qed.

Lemma inst_actions_body type mk acts rest :
  forallb act_ok acts && (total_len junk acts <? 65528) = true ->
  '(a, l) <- unpack_inst_actions junk ((be_store 2 type ++ be_store 2 (8 + ofl_actions_ofp_total_len acts) ++ zeros 4 ++
      pack_actions junk acts) ++ rest) (u64 (8 + ofl_actions_ofp_total_len acts) - 8);; Ok (mk a, l) = Ok (mk acts : ofl_instruction, 0).
Proof.
  intros (Ha & -> & -> & Hl)%inst_actions_len. unfold unpack_inst_actions.
  rewrite <- !app_assoc, !(app_assoc _ _ (pack_actions junk acts ++ rest)), drop_app_length' by (by autorewrite with wire).
  replace (8 + total_len junk acts - 8) with (total_len junk acts) by lia.
  rewrite count_roundtrip by (done || lia). cbn [rbind]. rewrite actions_roundtrip by (done || lia). by rewrite Z.sub_diag.
Qed.

Lemma inst_body i rest : inst_ok i = true ->
  unpack_inst_body junk (inst_type i) (ofl_structs_instructions_pack junk i ++ rest) (ofl_structs_instructions_ofp_len i) = Ok (i, 0).
Proof.
  intros Hi. pose proof (inst_len i Hi) as Hn. unfold unpack_inst_body.
  destruct i; try done; cbn [inst_type Z.eqb Pos.eqb orb inst_ok ofl_structs_instructions_pack ofl_structs_instructions_ofp_len] in *;
    rewrite refuse_len by lia; cbn [rbind].
  3, 4: by apply inst_actions_body.
  all: split_fields; unfold small; rewrite <- !app_assoc; wire; try done.
  eapply bind_Ok; [apply refuse_no | done]. apply Z.ltb_lt in H0. by apply Z.leb_gt.
Qed.

Lemma inst_unpacks i : inst_ok i = true ->
  unpacks (ofl_structs_instructions_pack junk) (ofl_structs_instructions_unpack junk) (fun m => get 2 m 2) i.
Proof.
  intros Hi. pose proof (inst_pack_length i Hi) as Hl. split; intros rest; rewrite Hl; [| by apply inst_header].
  intros len Hlen. destruct (inst_header i rest Hi) as [E1 E2]. pose proof (inst_len i Hi). unfold ofl_structs_instructions_unpack.
  rewrite refuse_len by lia. cbn [rbind]. rewrite E1. cbn [rbind]. rewrite refuse_len by lia. cbn [rbind].
  rewrite E2. cbn [rbind]. by rewrite inst_body.
Qed.

Lemma inst_item i : inst_ok i = true -> item_ok (ofl_structs_instructions_pack junk) (fun len => 4 <? len) 2 0 i.
Proof.
  intros Hi. pose proof (inst_pack_length i Hi) as Hl. pose proof (inst_len i Hi). split.
  - intros rest. rewrite Hl. by apply inst_header.
  - split; [lia |]. split; [lia |]. intros k Hk. apply Z.ltb_lt. lia.
Qed.

Lemma instructions_total_len ins :
  forallb inst_ok ins = true -> Z.of_nat (length (pack_instructions junk ins)) < 2 ^ 32 ->
  ofl_structs_instructions_ofp_total_len ins = length (pack_instructions junk ins).
Proof. intros Hi Hl. apply sum_lengths; [by apply (all_ok inst_ok _ ins inst_pack_length) | unfold pack_instructions in Hl; lia]. Qed.

Lemma instructions_count ins rest :
  forallb inst_ok ins = true -> Z.of_nat (length (pack_instructions junk ins)) < 2 ^ 32 ->
  ofl_utils_count_ofp_instructions (pack_instructions junk ins ++ rest) (length (pack_instructions junk ins)) = Ok (length ins).
Proof.
  intros Hi Hl. apply count_items_packs; [by apply (all_ok inst_ok _ ins inst_item) | done | unfold pack_instructions in Hl; lia].
Qed.

Lemma instructions_back ins rest :
  forallb inst_ok ins = true -> Z.of_nat (length (pack_instructions junk ins)) < 2 ^ 32 ->
  unpack_instructions junk (length ins) (pack_instructions junk ins ++ rest) (length (pack_instructions junk ins)) = Ok (ins, 0).
Proof.
  intros Hi Hl. unfold unpack_instructions, pack_instructions in *.
  rewrite unpack_seq_packs; [by rewrite Z.sub_diag | by apply (all_ok inst_ok _ ins inst_unpacks) | lia].
Qed.

(** Instructions as they are written are counted and read back as they were, whatever follows
    them, and fill the space that was reserved for them. *)
Theorem instructions_wire_roundtrip ins rest :
  forallb inst_ok ins = true -> Z.of_nat (length (pack_instructions junk ins)) < 2 ^ 32 ->
  let n := ofl_structs_instructions_ofp_total_len ins in
  n = length (pack_instructions junk ins) /\
  ofl_utils_count_ofp_instructions (pack_instructions junk ins ++ rest) n = Ok (length ins) /\
  unpack_instructions junk (length ins) (pack_instructions junk ins ++ rest) n = Ok (ins, 0).
Proof.
  intros Hi Hl. cbv zeta. rewrite instructions_total_len by done. split; [done |]. split; [by apply instructions_count | by apply instructions_back].
Qed.

(** * Buckets *)

Definition bucket_ok (gtype : Z) (b : ofl_bucket) : bool :=
  fits 2 (weight b) && fits 4 (watch_port b) && fits 4 (watch_group b) && forallb act_ok (b_actions b) &&
  (total_len junk (b_actions b) <? 65520) && (if gtype =? OFPGT_SELECT then 0 <? weight b else weight b =? 0).

Lemma actions_len_multiple acts : forallb act_ok acts = true -> total_len junk acts mod 8 = 0.
Proof.
  induction acts as [| a acts IH]; intros Ha; [done |]. cbn [forallb] in Ha. apply split_ok in Ha as [Ha Hs]. specialize (IH Hs).
  unfold total_len in *. change (pack_actions junk (a :: acts)) with (ofl_actions_pack junk a ++ pack_actions junk acts).
  rewrite length_app, Nat2Z.inj_add, actions_pack_length by done.
  destruct (unpack_header junk a [] Ha) as (_ & _ & _ & Hm). rewrite Z.add_mod, Hm, IH by lia. done.
Qed.

(** What is known of the length of a bucket. *)
Lemma bucket_len gtype b : bucket_ok gtype b = true ->
  u64 (16 + ofl_actions_ofp_total_len (b_actions b)) = 16 + total_len junk (b_actions b) /\
  (16 + total_len junk (b_actions b)) mod 8 = 0 /\ 16 <= 16 + total_len junk (b_actions b) < 2 ^ 16 /\
  ofl_structs_buckets_ofp_len b = 16 + total_len junk (b_actions b) /\
  Z.of_nat (length (ofl_structs_bucket_pack junk b)) = 16 + total_len junk (b_actions b).
Proof.
  unfold bucket_ok. intros H. split_fields. apply Z.ltb_lt in H1. pose proof (total_len_range (b_actions b)).
  assert (E : u64 (16 + ofl_actions_ofp_total_len (b_actions b)) = 16 + total_len junk (b_actions b)).
  { rewrite (ofp_total_len_eq junk) by (done || lia). apply wrap_small. unfold in_range. lia. }
  assert (Hm : (16 + total_len junk (b_actions b)) mod 8 = 0) by (rewrite Z.add_mod, actions_len_multiple by (done || lia); done).
  split_and!; [done | done | lia | lia | |].
  - unfold ofl_structs_buckets_ofp_len. rewrite E, Hm. cbn [Z.eqb]. rewrite wrap_small by (unfold in_range; lia). lia.
  - unfold ofl_structs_bucket_pack. rewrite E, Hm. cbn [Z.eqb Z.to_nat]. autorewrite with wire. unfold total_len. lia.
Qed.

Lemma bucket_unpacks gtype b : bucket_ok gtype b = true ->
  unpacks (ofl_structs_bucket_pack junk) (ofl_structs_bucket_unpack junk gtype) (fun m => get 2 m 0) b.
Proof.
  intros Hb. destruct (bucket_len gtype b Hb) as (E & Hm & Hn & _ & Hlen). pose proof Hb as Hb'. unfold bucket_ok in Hb'. split_fields.
  assert (Hf : fits 2 (16 + total_len junk (b_actions b)) = true) by (apply range_fits; lia).
  split; intros rest; rewrite Hlen; unfold ofl_structs_bucket_pack; rewrite E, Hm; cbn [Z.eqb Z.to_nat]; rewrite Z.add_0_r, <- !app_assoc.
  2: read_field.
  intros len Hle. unfold ofl_structs_bucket_unpack.
  assert (R1 : (gtype =? OFPGT_SELECT) && (weight b =? 0) = false).
  { destruct (gtype =? OFPGT_SELECT); [| done]. apply Z.ltb_lt in H0. apply Z.eqb_neq. lia. }
  assert (R2 : negb (gtype =? OFPGT_SELECT) && (0 <? weight b) = false).
  { destruct (gtype =? OFPGT_SELECT); [done |]. apply Z.eqb_eq in H0. by rewrite H0. }
  wire. rewrite !app_assoc. rewrite <- 2 (app_assoc _ _ rest). rewrite drop_app_length' by (by autorewrite with wire).
  replace (u64 (16 + total_len junk (b_actions b) - 16)) with (total_len junk (b_actions b)) by (rewrite wrap_small by (unfold in_range; lia); lia).
  rewrite <- ?app_assoc. rewrite count_roundtrip by (done || lia). cbn [rbind].
  rewrite actions_roundtrip by (done || lia). cbn [rbind]. rewrite Z.sub_diag. by destruct b.
Qed.

Lemma bucket_item gtype b : bucket_ok gtype b = true -> item_ok (ofl_structs_bucket_pack junk) (fun len => 16 <=? len) 0 16 b.
Proof.
  intros Hb. destruct (bucket_len gtype b Hb) as (_ & _ & Hn & _ & Hlen). split; [apply (bucket_unpacks gtype b Hb) |].
  split; [lia |]. split; [lia |]. intros k Hk. apply Z.leb_le. lia.
Qed.

Lemma buckets_total gtype bs rest :
  forallb (bucket_ok gtype) bs = true -> Z.of_nat (length (pack_buckets junk bs)) < 2 ^ 32 ->
  let n := ofl_structs_buckets_ofp_total_len bs in
  n = length (pack_buckets junk bs) /\
  ofl_utils_count_ofp_buckets (pack_buckets junk bs ++ rest) n = Ok (length bs) /\
  unpack_buckets junk gtype (length bs) (pack_buckets junk bs ++ rest) n = Ok (bs, 0).
Proof.
  intros Hb Hl. cbv zeta. unfold pack_buckets in *.
  assert (E : ofl_structs_buckets_ofp_total_len bs = length (packs (ofl_structs_bucket_pack junk) bs)).
  { apply sum_lengths; [| lia]. apply (all_ok (bucket_ok gtype)); [| done]. intros b Hok.
    destruct (bucket_len gtype b Hok) as (_ & _ & _ & -> & ->). done. }
  rewrite E. split; [done |]. split.
  - apply count_items_packs; [| done | lia]. by apply (all_ok (bucket_ok gtype) _ bs (bucket_item gtype)).
  - unfold unpack_buckets. rewrite unpack_seq_packs; [by rewrite Z.sub_diag | | lia].
    by apply (all_ok (bucket_ok gtype) _ bs (bucket_unpacks gtype)).
Qed.

(** Buckets of a group as they are written are counted and read back as they were. *)
Theorem buckets_wire_roundtrip gtype bs rest :
  forallb (bucket_ok gtype) bs = true -> Z.of_nat (length (pack_buckets junk bs)) < 2 ^ 32 ->
  let n := ofl_structs_buckets_ofp_total_len bs in
  n = length (pack_buckets junk bs) /\
  ofl_utils_count_ofp_buckets (pack_buckets junk bs ++ rest) n = Ok (length bs) /\
  unpack_buckets junk gtype (length bs) (pack_buckets junk bs ++ rest) n = Ok (bs, 0).
Proof. apply buckets_total. Qed.

(** * Bands *)

Definition band_ok (b : Meter.meter_band) : bool :=
  fits 4 (Meter.band_rate b) && fits 4 (Meter.band_burst_size b) &&
  match b with
  | Meter.Band_drop _ _ => true
  | Meter.Band_dscp_remark _ _ p => fits 1 p
  | Meter.Band_experimenter _ _ x => fits 4 x
  end.

Lemma band_length b : Z.of_nat (length (ofl_structs_meter_band_pack b)) = 16.
Proof. destruct b; unfold ofl_structs_meter_band_pack; by autorewrite with wire. Qed.

Lemma band_header b rest : get 2 (ofl_structs_meter_band_pack b ++ rest) 2 = Ok 16.
Proof.
  assert (Ht : fits 2 (band_type b) = true) by (by destruct b).
  unfold ofl_structs_meter_band_pack. rewrite <- !app_assoc. read_field.
Qed.

Lemma band_roundtrip b rest len : band_ok b = true -> 16 <= len < 2 ^ 32 ->
  ofl_structs_meter_band_unpack (ofl_structs_meter_band_pack b ++ rest) len = Ok (Some b, len - 16).
Proof.
  intros Hb Hl. unfold band_ok in Hb. split_fields. assert (Ht : fits 2 (band_type b) = true) by (by destruct b).
  unfold ofl_structs_meter_band_unpack. rewrite band_header. unfold ofl_structs_meter_band_pack. rewrite <- !app_assoc. wire.
  destruct b; cbn [band_type Z.eqb Pos.eqb Meter.band_rate Meter.band_burst_size] in *; rewrite <- ?app_assoc;
    (eapply bind_Ok; [wire; reflexivity | cbn [rbind]]); by rewrite wrap_small by (unfold in_range; lia).
Qed.

(** A band read back is a band: [Some] of each. *)
Lemma bands_roundtrip bs rest :
  forallb band_ok bs = true -> Z.of_nat (length (pack_bands bs)) < 2 ^ 32 ->
  ofl_utils_count_ofp_meter_bands (pack_bands bs ++ rest) (length (pack_bands bs)) = Ok (length bs) /\
  unpack_bands (length bs) (pack_bands bs ++ rest) (length (pack_bands bs)) = Ok (Some <$> bs, 0).
Proof.
  intros Hb Hl. unfold pack_bands in *. split.
  - apply count_items_packs; [| done | lia]. apply (all_ok band_ok); [| done]. intros b _. pose proof (band_length b).
    split; [intros r; rewrite band_header; f_equal; lia |]. split; [lia |]. split; [lia |]. intros k Hk. apply Z.leb_le. lia.
  - assert (E : packs ofl_structs_meter_band_pack bs = packs (fun o => from_option ofl_structs_meter_band_pack [] o) (Some <$> bs)).
    { unfold packs. f_equal. clear. induction bs; cbn; [done | by f_equal]. }
    rewrite E in *. unfold unpack_bands. rewrite <- (length_fmap Some bs). rewrite unpack_seq_packs; [by rewrite Z.sub_diag | | lia].
    apply Forall_fmap, (all_ok band_ok); [| done]. intros b Hok. split; intros rest'; cbn [from_option]; rewrite band_length.
    + intros len Hlen. by apply band_roundtrip.
    + apply band_header.
Qed.

(** * Records of a fixed size *)

(** A structure of [size] bytes that is read back. *)
Class Fixed (A : Type) (pack : A -> list Z) (unp : list Z -> Z -> res (A * Z)) (size : Z) (ok : A -> bool) := {
  fixed_length x : ok x = true -> Z.of_nat (length (pack x)) = size;
  fixed_roundtrip x rest len : ok x = true -> size <= len < 2 ^ 32 -> unp (pack x ++ rest) len = Ok (x, len - size) }.

Section fixed.
Context {A pack unp size ok} `{!@Fixed A pack unp size ok}.

Lemma fixed_packs_length l : forallb ok l = true -> Z.of_nat (length (packs pack l)) = size * length l.
Proof.
  induction l as [| x l IH]; intros Hl; [cbn; lia |]. cbn [forallb] in Hl. apply split_ok in Hl as [Hx Hl].
  change (packs pack (x :: l)) with (pack x ++ packs pack l). rewrite length_app, Nat2Z.inj_add, (fixed_length x), IH by done. cbn [length]. lia.
Qed.

(** An array of such structures, with the count that the length gives. *)
Lemma fixed_array l rest :
  0 < size -> forallb ok l = true -> size * length l < 2 ^ 32 ->
  unpack_fixed unp size (size * length l / size) (packs pack l ++ rest) (size * length l) = Ok (l, 0).
Proof.
  intros Hs Hl Hn. pose proof (fixed_packs_length l Hl) as Hlen. unfold unpack_fixed.
  rewrite (Z.mul_comm size), Z.div_mul by lia. replace (Z.min _ _) with (Z.of_nat (length l)) by (rewrite length_app; nia).
  rewrite Nat2Z.id, unpack_seq_packs; [do 2 f_equal; lia | | lia].
  apply (all_ok ok); [| done]. intros x Hx. pose proof (fixed_length x Hx) as Hsz. split; intros rest'; rewrite Hsz; [| done].
  intros len Hle. by apply fixed_roundtrip.
Qed.

End fixed.

Definition port_no_ok (no : Z) : bool := fits 4 no && negb (bad_port_no no).

Definition port_stats_ok (s : Ports.ofl_port_stats) : bool :=
  port_no_ok (Ports.ps_port_no s) && forallb (fits 8) [Ports.rx_packets s; Ports.tx_packets s; Ports.rx_bytes s; Ports.tx_bytes s;
    Ports.rx_dropped s; Ports.tx_dropped s; Ports.rx_errors s; Ports.tx_errors s; Ports.rx_frame_err s; Ports.rx_over_err s;
    Ports.rx_crc_err s; Ports.collisions s] && fits 4 (Ports.duration_sec s) && fits 4 (Ports.duration_nsec s).

(** Reads a structure of fields back: the checks on it, then its fields. *)
Ltac fixed_fields := cbn [forallb] in *; split_fields; rewrite <- !app_assoc; wire.

#[global] Instance port_stats_fixed : Fixed Ports.ofl_port_stats ofl_structs_port_stats_pack ofl_structs_port_stats_unpack 112 port_stats_ok.
Proof.
  split.
  - intros s _. unfold ofl_structs_port_stats_pack. by autorewrite with wire.
  - intros s rest len Hs Hl. unfold port_stats_ok, port_no_ok in Hs. unfold ofl_structs_port_stats_unpack, ofl_structs_port_stats_pack.
    fixed_fields. by destruct s.
Qed.

Definition queue_stats_ok (s : Ports.ofl_queue_stats) : bool :=
  forallb (fits 4) [Ports.qs_port_no s; Ports.qs_queue_id s; Ports.q_duration_sec s; Ports.q_duration_nsec s] &&
  negb ((Ports.qs_port_no s =? 0) || (OFPP_MAX <? Ports.qs_port_no s)) &&
  forallb (fits 8) [Ports.q_tx_bytes s; Ports.q_tx_packets s; Ports.q_tx_errors s].

#[global] Instance queue_stats_fixed : Fixed Ports.ofl_queue_stats ofl_structs_queue_stats_pack ofl_structs_queue_stats_unpack 40 queue_stats_ok.
Proof.
  split.
  - intros s _. unfold ofl_structs_queue_stats_pack. by autorewrite with wire.
  - intros s rest len Hs Hl. unfold queue_stats_ok in Hs. unfold ofl_structs_queue_stats_unpack, ofl_structs_queue_stats_pack.
    fixed_fields. by destruct s.
Qed.

Definition table_stats_ok (s : table_stats) : bool :=
  fits 1 (ts_table_id s) && negb (ts_table_id s =? 0xff) && fits 4 (ts_active_count s) && fits 8 (ts_lookup_count s) &&
  fits 8 (ts_matched_count s).

#[global] Instance table_stats_fixed : Fixed table_stats ofl_structs_table_stats_pack ofl_structs_table_stats_unpack 24 table_stats_ok.
Proof.
  split.
  - intros s _. unfold ofl_structs_table_stats_pack. by autorewrite with wire.
  - intros s rest len Hs Hl. unfold table_stats_ok in Hs. unfold ofl_structs_table_stats_unpack, ofl_structs_table_stats_pack.
    fixed_fields. by destruct s.
Qed.

Definition counter_ok (c : Group.bucket_counter) : bool := fits 8 (Group.b_packet_count c) && fits 8 (Group.b_byte_count c).

#[global] Instance counter_fixed :
  Fixed Group.bucket_counter ofl_structs_bucket_counter_pack ofl_structs_bucket_counter_unpack 16 counter_ok.
Proof.
  split.
  - intros c _. unfold ofl_structs_bucket_counter_pack. by autorewrite with wire.
  - intros c rest len Hc Hl. unfold counter_ok in Hc. unfold ofl_structs_bucket_counter_unpack, ofl_structs_bucket_counter_pack.
    fixed_fields. by destruct c.
Qed.

(** The counts are read back; the rest of the statistics is what new memory holds. *)
Definition band_stats_ok (s : Meter.band_stats) : bool :=
  fits 8 (Meter.packet_band_count s) && fits 8 (Meter.byte_band_count s) &&
  (Meter.last_fill s =? junk 0) && (Meter.tokens s =? junk 1).

#[global] Instance band_stats_fixed :
  Fixed Meter.band_stats ofl_structs_pack_band_stats (ofl_structs_meter_band_stats_unpack junk) 16 band_stats_ok.
Proof.
  split.
  - intros c _. unfold ofl_structs_pack_band_stats. by autorewrite with wire.
  - intros c rest len Hc Hl. unfold band_stats_ok in Hc. unfold ofl_structs_meter_band_stats_unpack, ofl_structs_pack_band_stats.
    fixed_fields. apply Z.eqb_eq in H0, H1. rewrite <- H0, <- H1. by destruct c.
Qed.

Definition name_ok (s : string) : bool := no_zero (str_bytes s) && (length (str_bytes s) <? 16)%nat.

Definition port_ok (p : Ports.ofl_port) : bool :=
  port_no_ok (Ports.port_no p) && (length (Ports.hw_addr p) =? 6)%nat && name_ok (Ports.name p) &&
  forallb (fits 4) [Ports.config p; Ports.state p; Ports.curr p; Ports.advertised p; Ports.supported p; Ports.peer p;
    Ports.curr_speed p; Ports.max_speed p].

#[global] Instance port_fixed : Fixed Ports.ofl_port ofl_structs_port_pack ofl_structs_port_unpack 64 port_ok.
Proof.
  split.
  - intros p Hp. unfold port_ok in Hp. split_fields. apply Nat.eqb_eq in H2. unfold ofl_structs_port_pack. autorewrite with wire. by rewrite H2.
  - intros p rest len Hp Hl. unfold port_ok, port_no_ok in Hp. cbn [forallb] in Hp. split_fields.
    match goal with H : (length (Ports.hw_addr p) =? 6)%nat = true |- _ => apply Nat.eqb_eq in H; rename H into Hhw end.
    match goal with H : name_ok _ = true |- _ => unfold name_ok in H; apply split_ok in H as [Hz Hn] end. apply Nat.ltb_lt in Hn.
    unfold ofl_structs_port_unpack, ofl_structs_port_pack. rewrite <- !app_assoc. wire. rewrite bytes_str_bytes. by destruct p.
Qed.

(** * Statistics with a list *)

(** What is left of the length after the fixed part of [k] bytes. *)
Lemma slen_eq k n : 0 <= n < 2 ^ 32 -> u64 (k + n - k) = n.
Proof. intros. rewrite wrap_small by (unfold in_range; lia). lia. Qed.

Definition group_stats_ok (s : Group.group_stats) : bool :=
  forallb (fits 4) [Group.g_group_id s; Group.ref_count s; Group.g_duration_sec s; Group.g_duration_nsec s] &&
  forallb (fits 8) [Group.g_packet_count s; Group.g_byte_count s] && negb (OFPG_MAX <? Group.g_group_id s) &&
  forallb counter_ok (Group.counters s) && (length (Group.counters s) <? 4000)%nat.

Lemma group_stats_roundtrip s rest len :
  group_stats_ok s = true -> ofl_structs_group_stats_ofp_len s <= len < 2 ^ 32 ->
  ofl_structs_group_stats_unpack (ofl_structs_group_stats_pack s ++ rest) len = Ok (s, len - ofl_structs_group_stats_ofp_len s).
Proof.
  unfold group_stats_ok. cbn [forallb]. intros Hs Hl. split_fields.
  match goal with H : (length _ <? 4000)%nat = true |- _ => apply Nat.ltb_lt in H end. unfold ofl_structs_group_stats_ofp_len in *.
  assert (Hf : fits 2 (40 + 16 * length (Group.counters s)) = true) by (apply range_fits; lia).
  unfold ofl_structs_group_stats_unpack, ofl_structs_group_stats_pack, ofl_structs_group_stats_ofp_len. rewrite <- !app_assoc. wire.
  rewrite slen_eq by lia. rewrite !app_assoc. rewrite <- (app_assoc _ _ rest). rewrite drop_app_length' by (by autorewrite with wire).
  unfold ofl_utils_count_ofp_bucket_counters. rewrite (fixed_array (ok := counter_ok)) by (done || lia). cbn [rbind Z.eqb negb refuse]. by destruct s.
Qed.

Definition meter_stats_ok (s : Meter.meter_stats) : bool :=
  forallb (fits 4) [Meter.s_meter_id s; Meter.flow_count s; Meter.duration_sec s; Meter.duration_nsec s] &&
  forallb (fits 8) [Meter.packet_in_count s; Meter.byte_in_count s] &&
  forallb band_stats_ok (Meter.s_bands s) && (length (Meter.s_bands s) <? 4000)%nat.

Lemma meter_stats_roundtrip s rest len :
  meter_stats_ok s = true -> ofl_structs_meter_stats_ofp_len s <= len < 2 ^ 32 ->
  ofl_structs_meter_stats_unpack junk (ofl_structs_meter_stats_pack s ++ rest) len = Ok (s, len - ofl_structs_meter_stats_ofp_len s).
Proof.
  unfold meter_stats_ok. cbn [forallb]. intros Hs Hl. split_fields.
  match goal with H : (length _ <? 4000)%nat = true |- _ => apply Nat.ltb_lt in H end. unfold ofl_structs_meter_stats_ofp_len in *.
  assert (Hf : fits 2 (40 + 16 * length (Meter.s_bands s)) = true) by (apply range_fits; lia).
  unfold ofl_structs_meter_stats_unpack, ofl_structs_meter_stats_pack, ofl_structs_meter_stats_ofp_len. rewrite <- !app_assoc. wire.
  rewrite slen_eq by lia. rewrite !app_assoc. rewrite <- (app_assoc _ _ rest). rewrite drop_app_length' by (by autorewrite with wire).
  unfold ofl_utils_count_ofp_meter_band_stats. rewrite (fixed_array (ok := band_stats_ok)) by (done || lia). cbn [rbind Z.eqb negb refuse]. by destruct s.
Qed.

Definition group_desc_ok (d : Group.group_desc) : bool :=
  fits 1 (Group.g_type d) && fits 4 (Group.d_group_id d) && negb (OFPG_MAX <? Group.d_group_id d) &&
  forallb (bucket_ok (Group.g_type d)) (Group.buckets d) && (length (pack_buckets junk (Group.buckets d)) <? 65528).

Lemma group_desc_roundtrip d rest len :
  group_desc_ok d = true -> ofl_structs_group_desc_stats_ofp_len d <= len < 2 ^ 32 ->
  ofl_structs_group_desc_stats_unpack junk (ofl_structs_group_desc_stats_pack junk d ++ rest) len =
  Ok (d, len - ofl_structs_group_desc_stats_ofp_len d).
Proof.
  unfold group_desc_ok. intros Hs Hl. split_fields. apply Z.ltb_lt in H0.
  destruct (buckets_total (Group.g_type d) (Group.buckets d) rest) as (E1 & E2 & E3); [done | lia |].
  unfold ofl_structs_group_desc_stats_ofp_len in *. rewrite E1 in *. rewrite wrap_small in * by (unfold in_range; lia).
  assert (Hf : fits 2 (8 + length (pack_buckets junk (Group.buckets d))) = true) by (apply range_fits; lia).
  unfold ofl_structs_group_desc_stats_unpack, ofl_structs_group_desc_stats_pack, ofl_structs_group_desc_stats_ofp_len.
  rewrite E1, (wrap_small 64 (8 + _)) by (unfold in_range; lia). rewrite <- !app_assoc. wire.
  rewrite slen_eq by lia. rewrite !app_assoc. rewrite <- (app_assoc _ _ rest). rewrite !drop_app_length' by (by autorewrite with wire).
  rewrite E2. cbn [rbind]. rewrite E3. cbn [rbind Z.eqb negb refuse]. by destruct d.
Qed.

Definition meter_conf_ok (c : Meter.meter_config) : bool :=
  fits 2 (Meter.c_flags c) && fits 4 (Meter.c_meter_id c) && forallb band_ok (Meter.c_bands c) && (length (Meter.c_bands c) <? 4000)%nat.

Lemma meter_conf_size c : meter_conf_ok c = true ->
  ofl_structs_meter_conf_ofp_len c = 8 + length (pack_bands (Meter.c_bands c)) /\ Z.of_nat (length (pack_bands (Meter.c_bands c))) < 65000.
Proof.
  unfold meter_conf_ok. intros Hs. split_fields. apply Nat.ltb_lt in H0.
  assert (Hlen : Z.of_nat (length (pack_bands (Meter.c_bands c))) = 16 * length (Meter.c_bands c)).
  { unfold pack_bands. clear. induction (Meter.c_bands c) as [| b bs IH]; [cbn; lia |].
    change (packs ofl_structs_meter_band_pack (b :: bs)) with (ofl_structs_meter_band_pack b ++ packs ofl_structs_meter_band_pack bs).
    rewrite length_app, Nat2Z.inj_add, band_length, IH. cbn [length]. lia. }
  split; [| lia]. unfold ofl_structs_meter_conf_ofp_len, ofl_structs_meter_bands_ofp_total_len. rewrite (sum_lengths ofl_structs_meter_band_pack);
    [apply wrap_small; unfold in_range, pack_bands in *; lia | | unfold pack_bands in *; lia].
  apply Forall_forall. intros b _. apply band_length.
Qed.

Lemma meter_conf_len c : meter_conf_ok c = true ->
  Z.of_nat (length (ofl_structs_meter_conf_pack c)) = ofl_structs_meter_conf_ofp_len c /\ 8 <= ofl_structs_meter_conf_ofp_len c < 2 ^ 16.
Proof. intros Hc. destruct (meter_conf_size c Hc) as [E H]. rewrite E. unfold ofl_structs_meter_conf_pack. autorewrite with wire. lia. Qed.

Lemma meter_conf_roundtrip c rest len :
  meter_conf_ok c = true -> ofl_structs_meter_conf_ofp_len c <= len < 2 ^ 32 ->
  ofl_structs_meter_config_unpack (ofl_structs_meter_conf_pack c ++ rest) len =
  Ok (Meter.c_flags c, Meter.c_meter_id c, Some <$> Meter.c_bands c, len - ofl_structs_meter_conf_ofp_len c).
Proof.
  intros Hs Hl. destruct (meter_conf_size c Hs) as [E Hlen]. unfold meter_conf_ok in Hs. split_fields.
  rewrite E in *. assert (Hf : fits 2 (8 + length (pack_bands (Meter.c_bands c))) = true) by (apply range_fits; lia).
  destruct (bands_roundtrip (Meter.c_bands c) rest) as [E2 E3]; [done | lia |].
  unfold ofl_structs_meter_config_unpack, ofl_structs_meter_conf_pack. rewrite E, <- !app_assoc. wire.
  rewrite slen_eq by lia. rewrite !app_assoc. rewrite <- (app_assoc _ _ rest). rewrite !drop_app_length' by (by autorewrite with wire).
  rewrite E2. cbn [rbind]. by rewrite E3.
Qed.

(** The counts of the lists that have a lower bound for the length of an item end, whatever was
    received: actions, buckets, bands, queue properties, table features and their properties. *)
Theorem counts_end m len :
  ofl_utils_count_ofp_actions m len <> Loop /\ ofl_utils_count_ofp_buckets m len <> Loop /\
  ofl_utils_count_ofp_meter_bands m len <> Loop /\ ofl_utils_count_ofp_queue_props m len <> Loop /\
  ofl_utils_count_ofp_table_features m len <> Loop /\ ofl_utils_count_ofp_table_features_properties m len <> Loop.
Proof.
  split_and!; apply count_items_ends; intros k Hk; unfold ROUND_UP; Z.to_euclidean_division_equations; lia.
Qed.

End wire.

(** * Examples *)

Definition demo_instructions : list ofl_instruction :=
  [Inst_meter 3; Inst_apply_actions demo_actions; Inst_clear_actions; Inst_write_metadata 0x1234 0xffff; Inst_goto_table 5].

Lemma instructions_wire_roundtrip_witness :
  let junk := fun _ => 0 in
  let n := ofl_structs_instructions_ofp_total_len demo_instructions in
  n = length (pack_instructions junk demo_instructions) /\
  ofl_utils_count_ofp_instructions (pack_instructions junk demo_instructions ++ [1; 2]) n = Ok (length demo_instructions) /\
  unpack_instructions junk (length demo_instructions) (pack_instructions junk demo_instructions ++ [1; 2]) n = Ok (demo_instructions, 0).
Proof. intros junk. apply (instructions_wire_roundtrip junk demo_instructions [1; 2]); vm_compute; reflexivity. Defined.

Lemma zero_length_instruction_hangs_witness :
  ofl_utils_count_ofp_instructions (zeros 8) 8 = Loop /\
  forall fuel n, count_instructions fuel (zeros 8) 8 n = Loop.
Proof. apply (zero_length_instruction_hangs (zeros 8) 8); [reflexivity | lia]. Defined.

Definition demo_buckets : list ofl_bucket := [Bucket 2 1 0 demo_actions; Bucket 1 2 0xffffffff [Act_output 4 0]].

Lemma buckets_wire_roundtrip_witness :
  let junk := fun _ => 0 in
  let n := ofl_structs_buckets_ofp_total_len demo_buckets in
  n = length (pack_buckets junk demo_buckets) /\
  ofl_utils_count_ofp_buckets (pack_buckets junk demo_buckets ++ [1; 2]) n = Ok (length demo_buckets) /\
  unpack_buckets junk OFPGT_SELECT (length demo_buckets) (pack_buckets junk demo_buckets ++ [1; 2]) n = Ok (demo_buckets, 0).
Proof. intros junk. apply (buckets_wire_roundtrip junk OFPGT_SELECT demo_buckets [1; 2]); vm_compute; reflexivity. Defined.

End StructWire.
