(* ===== verification/MatchWire.v ===== *)
(** Matches that are written are read back: the fields in the order in which [oxm_put_match]
    writes them pass the checks of [oxm_pull_match], one after the other. *)
From stdpp Require Import sorting.
From S2P Require Import Prelude HMap Oxm OflTypes Wire ActCodec StructCodec.
Open Scope Z_scope.

(** * One field *)

(** What the reader makes of the value of a field. *)
Definition reading (f : oxm_field) (v : list Z) : ofl_match * Z :=
  let bytes := drop 4 (put_value (TLV (f_header f) v) ++ []) in
  parse_oxm_entry ofl_structs_match_init f bytes (drop (Z.to_nat (OXM_LENGTH (f_header f) / 2)) bytes) 0.
Definition fine (f : oxm_field) (v : list Z) : bool := (f_header f =? OXM_OF_VLAN_PCP) || (snd (reading f v) =? 0).

(** A VLAN_PCP is kept only beside a VLAN_VID other than none. *)
Definition vlan_present (m : ofl_match) : bool :=
  match get_oxm_value m OXM_OF_VLAN_VID with Some v => negb (rd16 v =? OFPVID_NONE) | None => false end.
Definition vlan_ok (m : ofl_match) (f : oxm_field) : bool := negb (f_header f =? OXM_OF_VLAN_PCP) || vlan_present m.

Definition accepts (f : oxm_field) : Prop :=
  decodable f = true -> f_header f <> OXM_OF_VLAN_PCP ->
  forall m v rest a, bytes_ok v -> Z.of_nat (length v) = OXM_LENGTH (f_header f) -> snd (reading f v) = 0 ->
    let bytes := put_value (TLV (f_header f) v) ++ rest in
    Z.of_nat (length (put_value (TLV (f_header f) v))) = 4 + OXM_LENGTH (f_header f) /\
    snd (parse_oxm_entry m f (drop 4 bytes) (drop (4 + Z.to_nat (OXM_LENGTH (f_header f) / 2)) bytes) a) = 0.

(** What is read of a value does not depend on what follows it. *)
Lemma rd16_here x r : rd16 (le_store 2 x ++ r) = wrap 16 x.
Proof. unfold rd16. rewrite take_app_exact by apply le_store_length. apply le_load_store. Qed.
Lemma rd32_here x r : rd32 (le_store 4 x ++ r) = wrap 32 x.
Proof. unfold rd32. rewrite take_app_exact by apply le_store_length. apply le_load_store. Qed.
Lemma rd64_here x r : rd64 (le_store 8 x ++ r) = wrap 64 x.
Proof. unfold rd64. rewrite take_app_exact by apply le_store_length. apply le_load_store. Qed.
Lemma byte0_here x r : byte0 (le_store 1 x ++ r) = wrap 8 x.
Proof. reflexivity. Qed.

Lemma slice_here (u r : list Z) off n : (off + n <= length u)%nat -> slice off n (u ++ r) = slice off n u.
Proof. intros H. unfold slice. rewrite drop_app_le by lia. apply take_app_le. rewrite length_drop. lia. Qed.

Lemma wildcard48_here u w r r' : length u = 6%nat -> length w = 6%nat ->
  check_bad_wildcard48 (u ++ r) (w ++ r') = check_bad_wildcard48 u w.
Proof. intros Hu Hw. unfold check_bad_wildcard48. by rewrite !slice_here by lia. Qed.

Lemma wildcard128_here u w r r' : length u = 16%nat -> length w = 16%nat ->
  check_bad_wildcard128 (u ++ r) (w ++ r') = check_bad_wildcard128 u w.
Proof. intros Hu Hw. unfold check_bad_wildcard128. by rewrite !slice_here by lia. Qed.

#[local] Arguments le_store : simpl never.

Ltac accepts_tac :=
  intros Hd Hp m v rest a Hv Hl; unfold reading; cbv zeta; unfold put_value; cbn [header value index f_header] in *;
  eval_len; eval_tests;
  unfold oxm_put_8, oxm_put_16, oxm_put_16w, oxm_put_32, oxm_put_32w, oxm_put_64, oxm_put_64w,
    oxm_put_pbb, oxm_put_eth, oxm_put_ethm, oxm_put_ipv6, oxm_put_ipv6m, oxm_put_header;
  intros Hf; split;
  [ clear Hf; rewrite ?length_app, ?length_take, ?length_drop, ?le_store_length; lia
  | revert Hf; rewrite <- ?drop_drop, <- ?app_assoc;
    rewrite !(drop_app_exact (le_store 4 _)) by apply le_store_length;
    cbn [parse_oxm_entry index f_header];
    rewrite ?(drop_app_exact (le_store 2 _)), ?(drop_app_exact (le_store 4 _)), ?(drop_app_exact (le_store 8 _)),
      ?(drop_app_exact (take _ v)), ?wildcard48_here, ?wildcard128_here, ?rd16_here, ?rd32_here, ?rd64_here, ?byte0_here
      by first [apply le_store_length | rewrite ?length_take, ?length_drop; lia];
    repeat (case_match; try done); try done ].

Lemma all_fields_accept : Forall accepts all_fields.
Proof.
  unfold all_fields. repeat (apply Forall_cons; split; [first [intros Hd; vm_compute in Hd; discriminate Hd | by intros _ [] | accepts_tac; fail] |]). constructor.
Qed.

Lemma vlan_pcp_decodes m v rest a :
  bytes_ok v -> Z.of_nat (length v) = 1 -> vlan_present m = true ->
  let f := OxmField OFI_OXM_OF_VLAN_PCP OXM_OF_VLAN_PCP OXM_DL_NONE 0 false in
  let bytes := put_value (TLV OXM_OF_VLAN_PCP v) ++ rest in
  length (put_value (TLV OXM_OF_VLAN_PCP v)) = 5%nat /\
  parse_oxm_entry m f (drop 4 bytes) (drop 4 bytes) a = (match_put m OXM_OF_VLAN_PCP v 1, 0).
Proof.
  intros Hv Hl Hp. change (put_value (TLV OXM_OF_VLAN_PCP v)) with (oxm_put_header OXM_OF_VLAN_PCP ++ le_store 1 (byte0 v)).
  split; [done |]. cbv zeta. cbn [parse_oxm_entry index f_header]. unfold vlan_present in Hp.
  unfold check_present_prereq. unfold get_oxm_value in *. destruct (tlvs_with_hash m OXM_OF_VLAN_VID); [done |]. rewrite Hp.
  unfold ofl_structs_match_put8. rewrite <- app_assoc, (drop_app_exact (oxm_put_header _)) by apply le_store_length.
  by rewrite byte_roundtrip.
Qed.

(** A field with a value of its length that the reader takes, in a match with what it needs,
    is added to the match as it was. *)
Lemma field_decodes f m v rest a :
  f ∈ all_fields -> decodable f = true -> bytes_ok v -> Z.of_nat (length v) = OXM_LENGTH (f_header f) ->
  fine f v = true -> vlan_ok m f = true ->
  let bytes := put_value (TLV (f_header f) v) ++ rest in
  Z.of_nat (length (put_value (TLV (f_header f) v))) = 4 + OXM_LENGTH (f_header f) /\
  take 4 bytes = oxm_put_header (f_header f) /\
  parse_oxm_entry m f (drop 4 bytes) (drop (4 + Z.to_nat (OXM_LENGTH (f_header f) / 2)) bytes) a =
    (match_put m (f_header f) v (OXM_LENGTH (f_header f)), 0).
Proof.
  intros Hin Hd Hv Hl Hf Hvl. pose proof all_fields_roundtrip as Hr. rewrite Forall_forall in Hr.
  pose proof all_fields_accept as Ha. rewrite Forall_forall in Ha. unfold fine, vlan_ok in *. cbv zeta.
  destruct (Z.eqb_spec (f_header f) OXM_OF_VLAN_PCP) as [E | E].
  - assert (f = OxmField OFI_OXM_OF_VLAN_PCP OXM_OF_VLAN_PCP OXM_DL_NONE 0 false) as ->.
    { assert (oxm_field_lookup (f_header f) = Some f) as H1 by (pose proof all_fields_lookup as H; rewrite Forall_forall in H; by apply H).
      rewrite E in H1. vm_compute in H1. by injection H1 as <-. }
    cbn [f_header] in *. change (OXM_LENGTH OXM_OF_VLAN_PCP) with 1 in *.
    destruct (vlan_pcp_decodes m v rest a Hv Hl Hvl) as [H1 H2]. split; [by rewrite H1 |]. split; [| exact H2].
    destruct (Hr _ Hin Hd m v rest a m Hv Hl) as [H3 _]. exact H3.
  - apply Z.eqb_eq in Hf. destruct (Ha f Hin Hd E m v rest a Hv Hl Hf) as [H1 H2]. split; [done |].
    destruct (parse_oxm_entry m f _ _ a) as [m' e] eqn:Hp. cbn [snd] in H2. subst e.
    destruct (Hr f Hin Hd m v rest a m' Hv Hl) as [H3 H4]. split; [done |].
    destruct (H4 Hp) as [-> | [Hi _]]; [done |]. exfalso. apply E.
    assert (H5 : forallb (fun f => negb (bool_decide (index f = OFI_OXM_OF_VLAN_PCP)) || (f_header f =? OXM_OF_VLAN_PCP)) all_fields = true)
      by (by vm_compute).
    rewrite forallb_forall in H5. apply list_elem_of_In in Hin. apply H5 in Hin. rewrite bool_decide_eq_true_2 in Hin by done.
    by apply Z.eqb_eq.
Qed.

(** * The order of the fields *)

Definition block (h : Z) (l : list ofl_match_tlv) : list ofl_match_tlv := filter (fun t => header t = h) l.

(** The fields as [oxm_put_match] writes them: the ones others need first. *)
Definition sent (m : ofl_match) : list ofl_match_tlv :=
  block OXM_OF_IN_PORT (tlvs m) ++ block OXM_OF_ETH_TYPE (tlvs m) ++ block OXM_OF_VLAN_VID (tlvs m) ++
  block OXM_OF_IP_PROTO (tlvs m) ++ block OXM_OF_ICMPV6_TYPE (tlvs m) ++ filter (fun t => is_requisite (header t) = false) (tlvs m).

Definition rank (h : Z) : nat :=
  if h =? OXM_OF_IN_PORT then 0 else if h =? OXM_OF_ETH_TYPE then 1 else if h =? OXM_OF_VLAN_VID then 2
  else if h =? OXM_OF_IP_PROTO then 3 else if h =? OXM_OF_ICMPV6_TYPE then 4 else 5.

Lemma block_rank h l t : t ∈ block h l -> rank (header t) = rank h.
Proof. intros [-> _]%list_elem_of_filter. done. Qed.

Lemma others_rank (l : list ofl_match_tlv) t : t ∈ filter (fun t => is_requisite (header t) = false) l -> rank (header t) = 5%nat.
Proof.
  intros [H _]%list_elem_of_filter. unfold is_requisite in H. unfold rank.
  do 5 (destruct (_ =? _); [done |]). done.
Qed.

Lemma const_sorted {A} (r : A -> nat) k l : (forall x, x ∈ l -> r x = k) -> StronglySorted (fun x y => r x <= r y)%nat l.
Proof.
  induction l as [| x l IH]; intros H; [constructor |]. constructor; [apply IH; intros; apply H; by right |].
  apply Forall_forall. intros y Hy. rewrite (H x), (H y); [lia | by right | by left].
Qed.

Definition by_rank (x y : ofl_match_tlv) : Prop := (rank (header x) <= rank (header y))%nat.

Lemma sorted_block h l r :
  StronglySorted by_rank r -> (forall t, t ∈ r -> (rank h <= rank (header t))%nat) -> StronglySorted by_rank (block h l ++ r).
Proof.
  intros Hr Hh. apply StronglySorted_app_2; [| | done].
  - intros x y Hx Hy. unfold by_rank. rewrite (block_rank h l x Hx). by apply Hh.
  - apply (const_sorted (fun t => rank (header t)) (rank h)). intros x Hx. by apply (block_rank h l).
Qed.

(** Ranks of the fields in a concatenation of blocks. *)
Ltac ranks :=
  let t := fresh "t" in let Ht := fresh "Ht" in
  intros t Ht; rewrite ?elem_of_app in Ht; repeat match type of Ht with _ \/ _ => destruct Ht as [Ht | Ht] end;
  first [apply block_rank in Ht | apply others_rank in Ht]; rewrite Ht; vm_compute; lia.

Lemma sent_sorted m : StronglySorted by_rank (sent m).
Proof.
  unfold sent. do 5 (apply sorted_block; [| ranks]).
  apply (const_sorted (fun t => rank (header t)) 5). apply others_rank.
Qed.

Lemma flat_map_ext_elem {A B} (f g : A -> list B) l : (forall x, x ∈ l -> f x = g x) -> flat_map f l = flat_map g l.
Proof.
  induction l as [| x l IH]; intros H; [done |]. cbn [flat_map]. rewrite H by (by left). f_equal. apply IH. intros. apply H. by right.
Qed.

(** Blocks of different headers and what is in none of them. *)
Lemma blocks_perm (hs : list Z) (l : list ofl_match_tlv) :
  NoDup hs -> flat_map (fun h => block h l) hs ++ filter (fun t => header t ∉ hs) l ≡ₚ l.
Proof.
  revert l. induction hs as [| h hs IH]; intros l Hnd.
  - cbn [flat_map app]. rewrite filter_all; [done |]. intros t _. apply not_elem_of_nil.
  - apply NoDup_cons in Hnd as [Hh Hnd]. cbn [flat_map].
    transitivity (filter (fun t => header t = h) l ++ filter (fun t => header t <> h) l); [| apply filter_app_complement].
    rewrite <- app_assoc. apply Permutation_app_head.
    rewrite <- (IH (filter (fun t => header t <> h) l)) by done. apply eq_subrelation; [typeclasses eauto |]. f_equal.
    + apply flat_map_ext_elem. intros h' Hin. unfold block. rewrite list_filter_filter.
      apply list_filter_iff. intros t. split; [| naive_solver]. intros E1. split; [done |]. intros E2. apply Hh. congruence.
    + rewrite list_filter_filter. apply list_filter_iff. intros t. rewrite not_elem_of_cons. naive_solver.
Qed.

Lemma sent_perm m : sent m ≡ₚ tlvs m.
Proof.
  etransitivity; [| apply (blocks_perm [OXM_OF_IN_PORT; OXM_OF_ETH_TYPE; OXM_OF_VLAN_VID; OXM_OF_IP_PROTO; OXM_OF_ICMPV6_TYPE])].
  2: apply (bool_decide_unpack _); by vm_compute.
  cbn [flat_map]. unfold sent. rewrite app_nil_r, <- !app_assoc. apply eq_subrelation; [typeclasses eauto |]. do 5 f_equal.
  apply list_filter_iff. intros t. unfold is_requisite. rewrite !not_elem_of_cons, !orb_false_iff, !Z.eqb_neq.
  pose proof (not_elem_of_nil (header t)). tauto.
Qed.

Lemma block_with_hash m h : m_wf m -> in_range 32 h -> tlvs_with_hash m h = block h (tlvs m).
Proof. apply tlvs_with_hash_filter. Qed.

Lemma block_encode h l (enc : ofl_match_tlv -> list Z) :
  (forall t, header t = h -> enc t = put_value t) -> flat_map enc (block h l) = flat_map put_value (block h l).
Proof. intros H. apply flat_map_ext_elem. intros t [Ht _]%list_elem_of_filter. by apply H. Qed.

Lemma others_encode l :
  flat_map put_field l = flat_map put_value (filter (fun t => is_requisite (header t) = false) l).
Proof.
  induction l as [| t l IH]; [done |]. cbn [flat_map]. rewrite filter_cons. unfold put_field at 1.
  destruct (is_requisite (header t)) eqn:E; cbn [decide]; rewrite IH; case_decide; done.
Qed.

(** What is written are the fields in that order. *)
Lemma put_match_sent m :
  m_wf m -> let body := flat_map put_value (sent m) in
  snd (oxm_put_match m) = length body /\ exists pad, fst (oxm_put_match m) = body ++ pad.
Proof.
  intros Hwf.
  assert (E : hmap_elems (match_fields m) = tlvs m).
  { unfold hmap_elems, tlvs. destruct Hwf as [Hwf _]. rewrite hmap_for_each_nodes; [done | done |]. rewrite (wf_count _ Hwf). lia. }
  unfold oxm_put_match, sent. cbv zeta. rewrite !flat_map_app, E, others_encode.
  rewrite !block_with_hash by (done || (split; by vm_compute)).
  rewrite (block_encode OXM_OF_IN_PORT), (block_encode OXM_OF_ETH_TYPE), (block_encode OXM_OF_VLAN_VID),
    (block_encode OXM_OF_IP_PROTO), (block_encode OXM_OF_ICMPV6_TYPE); [cbn [fst snd]; split; [done | by eexists] | ..].
  all: intros t Ht; unfold put_value; rewrite Ht; reflexivity.
Qed.

(** * Reading the fields in that order *)

Lemma block_one h (l : list ofl_match_tlv) : NoDup (header <$> l) -> block h l = [] \/ exists t, block h l = [t].
Proof.
  induction l as [| t l IH]; intros Hnd; [by left |]. rewrite fmap_cons in Hnd. apply NoDup_cons in Hnd as [Ht Hnd].
  unfold block. rewrite filter_cons. case_decide as E; [| by apply IH]. right. exists t. f_equal. apply filter_none.
  intros x Hx Hh. apply Ht. rewrite E, <- Hh. by apply list_elem_of_fmap_2.
Qed.

Lemma block_perm h (l l' : list ofl_match_tlv) : NoDup (header <$> l) -> l ≡ₚ l' -> block h l' = block h l.
Proof.
  intros Hnd Hp. assert (E : block h l' ≡ₚ block h l) by (unfold block; by rewrite Hp).
  destruct (block_one h l Hnd) as [H | [t H]]; rewrite H in *; [by apply Permutation_nil_r in E | by apply Permutation_singleton_r in E].
Qed.

Section order.
Context (m : ofl_match) (Hwf : m_wf m) (Hnd : NoDup (header <$> tlvs m)).

(** A header that comes before a field is searched with the same result in the match that has
    the fields before it as in the whole match. *)
Lemma search_same mi pre t post h :
  sent m = pre ++ t :: post -> m_wf mi -> tlvs mi ≡ₚ pre -> in_range 32 h -> (rank h < rank (header t))%nat ->
  tlvs_with_hash mi h = tlvs_with_hash m h.
Proof using Hwf Hnd.
  intros Hs Hi Hp Hh Hr. rewrite !block_with_hash by done. rewrite <- (block_perm h (tlvs m) (sent m) Hnd) by (by rewrite sent_perm).
  assert (Hn : NoDup (header <$> sent m)) by (by rewrite sent_perm).
  rewrite Hs, fmap_app in Hn. apply NoDup_app in Hn as (Hn & _ & _).
  rewrite (block_perm h pre (tlvs mi) Hn) by done. rewrite Hs. unfold block. rewrite filter_app.
  rewrite (filter_none _ (t :: post)); [by rewrite app_nil_r |]. intros x Hx Hxh.
  pose proof (sent_sorted m) as Hsort. rewrite Hs in Hsort. apply StronglySorted_app in Hsort as (_ & _ & Hsort).
  inversion Hsort as [| ? ? _ Hall]; subst. apply elem_of_cons in Hx as [-> | Hx]; [lia |].
  rewrite Forall_forall in Hall. specialize (Hall x Hx). unfold by_rank in Hall. lia.
Qed.

End order.

Definition needs_nd (f : oxm_field) : bool :=
  (f_header f =? OXM_OF_IPV6_ND_SLL) || (f_header f =? OXM_OF_IPV6_ND_TLL) || (f_header f =? OXM_OF_IPV6_ND_TARGET).

Lemma ranks_of : rank OXM_OF_ICMPV6_TYPE = 4%nat /\ rank OXM_OF_IP_PROTO = 3%nat /\ rank OXM_OF_ETH_TYPE = 1%nat /\ rank OXM_OF_VLAN_VID = 2%nat.
Proof. by vm_compute. Qed.

(** What a field needs comes before it. *)
Definition needs_first (f : oxm_field) : bool :=
  (negb (needs_nd f) || (4 <? rank (f_header f))%nat) && ((nw_proto f =? 0) || (3 <? rank (f_header f))%nat) &&
  ((fst (dl_type f) =? 0) || (1 <? rank (f_header f))%nat) && (negb (f_header f =? OXM_OF_VLAN_PCP) || (2 <? rank (f_header f))%nat).

Lemma all_needs_first f : f ∈ all_fields -> needs_first f = true.
Proof.
  intros Hf%list_elem_of_In. assert (H : forallb needs_first all_fields = true) by (by vm_compute).
  rewrite forallb_forall in H. by apply H.
Qed.

Lemma prereqs_same f m mi :
  (needs_nd f = true -> tlvs_with_hash mi OXM_OF_ICMPV6_TYPE = tlvs_with_hash m OXM_OF_ICMPV6_TYPE) ->
  (nw_proto f <> 0 -> tlvs_with_hash mi OXM_OF_IP_PROTO = tlvs_with_hash m OXM_OF_IP_PROTO) ->
  (fst (dl_type f) <> 0 -> tlvs_with_hash mi OXM_OF_ETH_TYPE = tlvs_with_hash m OXM_OF_ETH_TYPE) ->
  oxm_prereqs_ok f mi = oxm_prereqs_ok f m.
Proof.
  intros H1 H2 H3. unfold oxm_prereqs_ok, needs_nd in *. cbv zeta.
  destruct (Z.eqb_spec (nw_proto f) 0) as [E2 | E2]; [| rewrite (H2 E2)];
    (destruct (Z.eqb_spec (fst (dl_type f)) 0) as [E3 | E3]; [| rewrite (H3 E3)]);
    destruct (f_header f =? OXM_OF_IPV6_ND_SLL), (f_header f =? OXM_OF_IPV6_ND_TLL), (f_header f =? OXM_OF_IPV6_ND_TARGET);
    cbn [orb andb negb] in *; rewrite ?H1 by done; done.
Qed.

(** * Matches that can be sent *)

(** A field of the match with what it needs in it. *)
Definition sendable_as (m : ofl_match) (t : ofl_match_tlv) (f : oxm_field) : bool :=
  decodable f && fine f (value t) && (length (value t) =? OXM_LENGTH (header t)) &&
  forallb (fun b => (0 <=? b) && (b <? 256)) (value t) && oxm_prereqs_ok f m && vlan_ok m f.
Definition tlv_sendable (m : ofl_match) (t : ofl_match_tlv) : bool :=
  existsb (fun f => (f_header f =? header t) && sendable_as m t f) all_fields.

Record sendable (m : ofl_match) : Prop := {
  sendable_wf : m_wf m;
  sendable_headers : NoDup (header <$> tlvs m);
  sendable_fields : forallb (tlv_sendable m) (tlvs m) = true;
  sendable_length : mlength m = length (flat_map put_value (tlvs m));
  sendable_size : mlength m < 65528 }.

Lemma all_maskable f : f ∈ all_fields -> OXM_HASMASK (f_header f) && negb (maskable f) = false.
Proof.
  intros Hf%list_elem_of_In. assert (H : forallb (fun f => negb (OXM_HASMASK (f_header f) && negb (maskable f))) all_fields = true)
    by (by vm_compute).
  rewrite forallb_forall in H. apply H in Hf. by apply negb_true_iff in Hf.
Qed.

Lemma all_lengths f : f ∈ all_fields -> 0 < OXM_LENGTH (f_header f) <= 255 /\ f_header f <> 0.
Proof.
  intros Hf%list_elem_of_In.
  assert (H : forallb (fun f => (0 <? OXM_LENGTH (f_header f)) && (OXM_LENGTH (f_header f) <=? 255) && negb (f_header f =? 0)) all_fields = true)
    by (by vm_compute).
  rewrite forallb_forall in H. apply H in Hf. lia.
Qed.

Lemma byte_bools l : forallb (fun b => (0 <=? b) && (b <? 256)) l = true -> bytes_ok l.
Proof.
  intros H. apply Forall_forall. intros b Hb%list_elem_of_In. rewrite forallb_forall in H. apply H in Hb. unfold byte_ok, in_range. lia.
Qed.

Lemma header_read f rest v :
  f ∈ all_fields -> take 4 (put_value (TLV (f_header f) v) ++ rest) = oxm_put_header (f_header f) ->
  ntohl (rd32 (put_value (TLV (f_header f) v) ++ rest)) = f_header f.
Proof.
  intros Hf E. unfold rd32. rewrite E. unfold oxm_put_header. rewrite le_load_store, wrap_small by apply bswap_range.
  apply bswap_involutive. pose proof all_fields_range as Hr. rewrite Forall_forall in Hr. by apply Hr.
Qed.

Section pull.
Context (m : ofl_match) (Hm : sendable m).

(** A field of the match passes the checks in a match that has the fields before it. *)
Lemma sent_entry_fine mi pre t post :
  sent m = pre ++ t :: post -> m_wf mi -> tlvs mi ≡ₚ pre ->
  exists f, f ∈ all_fields /\ t = TLV (f_header f) (value t) /\ decodable f = true /\ fine f (value t) = true /\
    Z.of_nat (length (value t)) = OXM_LENGTH (f_header f) /\ bytes_ok (value t) /\
    oxm_prereqs_ok f mi = true /\ vlan_ok mi f = true /\ check_oxm_dup mi f = false.
Proof using Hm.
  intros Hs Hwi Hpi. destruct Hm as [Hwf Hnd Hall _ _].
  assert (Hin : t ∈ tlvs m) by (rewrite <- sent_perm, Hs; apply elem_of_app; right; by left).
  rewrite forallb_forall in Hall. apply list_elem_of_In in Hin. apply Hall, existsb_exists in Hin as (f & Hfin & Hin).
  apply list_elem_of_In in Hfin. apply andb_prop in Hin as [Hfh Hin]. apply Z.eqb_eq in Hfh. unfold sendable_as in Hin.
  rewrite !andb_true_iff in Hin. destruct Hin as (((((Hd & Hfine) & Hlen) & Hb) & Hpre) & Hvl).
  apply Z.eqb_eq in Hlen. apply byte_bools in Hb.
  pose proof (all_needs_first f Hfin) as Hneed. unfold needs_first in Hneed. rewrite !andb_true_iff in Hneed.
  destruct Hneed as (((N1 & N2) & N3) & N4). destruct ranks_of as (R1 & R2 & R3 & R4).
  assert (Hsame : forall h, in_range 32 h -> (rank h < rank (f_header f))%nat -> tlvs_with_hash mi h = tlvs_with_hash m h)
    by (intros h Hh Hr; rewrite Hfh in Hr; by apply (search_same m Hwf Hnd mi pre t post)).
  exists f. split_and!; [exact Hfin | | exact Hd | exact Hfine | rewrite Hfh; exact Hlen | exact Hb | | |].
  - rewrite Hfh. by destruct t.
  - rewrite (prereqs_same f m mi); [exact Hpre | ..]; intros E; (apply Hsame; [split; by vm_compute |]).
    + rewrite R1. rewrite E in N1. by apply Nat.ltb_lt in N1.
    + apply Z.eqb_neq in E. rewrite R2. rewrite E in N2. by apply Nat.ltb_lt in N2.
    + apply Z.eqb_neq in E. rewrite R3. rewrite E in N3. by apply Nat.ltb_lt in N3.
  - unfold vlan_ok in *. destruct (f_header f =? OXM_OF_VLAN_PCP); [| done]. cbn [negb orb] in *. apply Nat.ltb_lt in N4.
    unfold vlan_present, get_oxm_value in *. rewrite Hsame; [exact Hvl | split; by vm_compute | by rewrite R4].
  - unfold check_oxm_dup. assert (Hr : in_range 32 (f_header f)) by (pose proof all_fields_range as Hr; rewrite Forall_forall in Hr; by apply Hr).
    rewrite block_with_hash by done. unfold block. rewrite filter_none; [done |]. intros x Hx Hxh.
    assert (Hn' : NoDup (header <$> sent m)) by (by rewrite sent_perm). rewrite Hs, fmap_app, fmap_cons in Hn'.
    apply NoDup_app in Hn' as (_ & Hdis & _). apply (Hdis (header x)); [apply list_elem_of_fmap_2; by rewrite <- Hpi |].
    rewrite Hxh, Hfh. by left.
Qed.

End pull.

(** Such a field is added. *)
Lemma pull_fine f mi v rest a :
  f ∈ all_fields -> decodable f = true -> fine f v = true -> Z.of_nat (length v) = OXM_LENGTH (f_header f) -> bytes_ok v ->
  oxm_prereqs_ok f mi = true -> vlan_ok mi f = true -> check_oxm_dup mi f = false ->
  pull_entry mi (put_value (TLV (f_header f) v) ++ rest) (f_header f) a = (match_put mi (f_header f) v (OXM_LENGTH (f_header f)), 0).
Proof.
  intros Hf Hd Hfine Hl Hb Hp Hv Hdup. unfold pull_entry. cbv zeta.
  assert (oxm_field_lookup (f_header f) = Some f) as -> by (pose proof all_fields_lookup as H; rewrite Forall_forall in H; by apply H).
  rewrite all_maskable, Hp, Hdup by exact Hf. cbn [negb].
  destruct (field_decodes f mi v rest (a + 4 + OXM_LENGTH (f_header f) / 2) Hf Hd Hb Hl Hfine Hv) as (_ & _ & E). exact E.
Qed.

Lemma entry_ok_here t rest left_ :
  Z.of_nat (length (put_value t)) = 4 + OXM_LENGTH (header t) -> 0 < OXM_LENGTH (header t) ->
  ntohl (rd32 (put_value t ++ rest)) = header t -> 0 <= left_ ->
  oxm_entry_ok (put_value t ++ rest) (length (put_value t) + left_) = header t.
Proof.
  intros Hl Hp Hh Hk. unfold oxm_entry_ok. cbv zeta. rewrite Hh. destruct (Z.leb_spec (length (put_value t) + left_) 4); [lia |].
  destruct (Z.eqb_spec (OXM_LENGTH (header t)) 0); [lia |].
  destruct (Z.ltb_spec (length (put_value t) + left_) (OXM_LENGTH (header t) + 4)); [lia | done].
Qed.

Lemma pull_sent m : sendable m -> forall post pre mi rest fuel a,
  sent m = pre ++ post -> m_wf mi -> tlvs mi ≡ₚ pre -> n (match_fields mi) + length post < 2 ^ 63 -> (length post <= fuel)%nat ->
  exists m', pull_loop fuel mi (flat_map put_value post ++ rest) (length (flat_map put_value post)) a = (m', 0) /\
    m_wf m' /\ tlvs m' ≡ₚ sent m.
Proof.
  intros Hm. induction post as [| t post IH]; intros pre mi rest fuel a Hs Hw Hp Hn Hf.
  { rewrite app_nil_r in Hs. exists mi. rewrite Hs. split; [| done]. destruct fuel; [done |]. done. }
  destruct fuel as [| fuel]; cbn [length] in *; [lia |].
  destruct (sent_entry_fine m Hm mi pre t post Hs Hw Hp) as (f & Hfin & Ht & Hd & Hfine & Hlen & Hb & Hpre & Hvl & Hdup).
  destruct (all_lengths f Hfin) as [Hl Hh0]. cbn [flat_map]. rewrite <- app_assoc, length_app, Nat2Z.inj_add.
  assert (Hh : header t = f_header f) by (by rewrite Ht).
  destruct (field_decodes f mi (value t) (flat_map put_value post ++ rest) 0 Hfin Hd Hb Hlen Hfine Hvl) as (E1 & E2 & _).
  pose proof (header_read f (flat_map put_value post ++ rest) (value t) Hfin E2) as E3.
  cbn [pull_loop]. rewrite <- Ht, <- Hh in E1. rewrite <- Ht, <- Hh in E3.
  rewrite entry_ok_here by (rewrite ?Hh in *; done || lia). cbv zeta. rewrite (proj2 (Z.eqb_neq _ _)) by (by rewrite Hh).
  pose proof (pull_fine f mi (value t) (flat_map put_value post ++ rest) a Hfin Hd Hfine Hlen Hb Hpre Hvl Hdup) as E4.
  rewrite <- Ht, <- Hh in E4. rewrite E4. cbn [Z.eqb negb]. rewrite Hh.
  rewrite Hh in E1. replace (Z.to_nat (4 + OXM_LENGTH (f_header f))) with (length (put_value t)) by lia. rewrite drop_app_length.
  replace (length (put_value t) + length (flat_map put_value post) - (4 + OXM_LENGTH (f_header f)))
    with (Z.of_nat (length (flat_map put_value post))) by lia.
  assert (Hr : in_range 32 (f_header f)) by (pose proof all_fields_range as Hr; rewrite Forall_forall in Hr; by apply Hr).
  destruct (match_put_wf mi (f_header f) (value t) (OXM_LENGTH (f_header f)) Hw Hr) as (W1 & W2 & W3); [lia |].
  apply (IH (pre ++ [t])); [by rewrite <- app_assoc | done | | lia | lia].
  rewrite W2, <- Ht, Hp. apply Permutation_cons_append.
Qed.

(** * Matches in messages *)

Import StructCodec.

(** The same fields in some order. *)
Definition same_match (m m' : ofl_match) : Prop := mlength m = mlength m' /\ tlvs m ≡ₚ tlvs m' /\ m_wf m'.

Lemma sent_size m : length (flat_map put_value (sent m)) = length (flat_map put_value (tlvs m)).
Proof. apply Permutation_length. by rewrite sent_perm. Qed.

Lemma match_pack_eq m :
  sendable m -> ofl_structs_match_pack m = be_store 2 1 ++ be_store 2 (mlength m + 4) ++ flat_map put_value (sent m).
Proof.
  intros Hm. pose proof (put_match_sent m (sendable_wf m Hm)) as [E1 [pad E2]]. cbv zeta in *. pose proof (sendable_length m Hm) as Hl.
  rewrite <- sent_size in Hl. unfold ofl_structs_match_pack. destruct (Z.eqb_spec (mlength m) 0) as [E | E]; cbn [negb].
  - destruct (flat_map put_value (sent m)) eqn:Ef; [| cbn [length] in Hl; lia]. by rewrite E.
  - destruct (oxm_put_match m) as [body n]. cbn [fst snd] in *. subst n body. rewrite <- Hl.
    rewrite Hl, Nat2Z.id, take_app_length. done.
Qed.

Lemma put_value_size m t : sendable m -> t ∈ sent m -> (4 < length (put_value t))%nat.
Proof.
  intros Hm Ht. rewrite sent_perm in Ht. pose proof (sendable_fields m Hm) as Hall. rewrite forallb_forall in Hall.
  apply list_elem_of_In, Hall, existsb_exists in Ht as (f & Hfin & Hin). apply list_elem_of_In in Hfin.
  apply andb_prop in Hin as [Hfh Hin]. apply Z.eqb_eq in Hfh. unfold sendable_as in Hin. rewrite !andb_true_iff in Hin.
  destruct Hin as (((((Hd & Hfine) & Hlen) & Hb) & Hpre) & Hvl). apply Z.eqb_eq in Hlen. rewrite <- Hfh in Hlen.
  destruct (field_decodes f m (value t) [] 0 Hfin Hd (byte_bools _ Hb) Hlen Hfine Hvl) as (E & _ & _).
  destruct (all_lengths f Hfin) as [Hl _]. destruct t as [h v]. cbn [header value] in *. subst h. lia.
Qed.

Lemma sent_count m : sendable m -> (5 * length (sent m) <= length (flat_map put_value (sent m)))%nat.
Proof.
  intros Hm. assert (H : forall t, t ∈ sent m -> (4 < length (put_value t))%nat) by (intros; by apply (put_value_size m)). revert H.
  induction (sent m) as [| t l IH]; intros H; [done |]. cbn [flat_map]. rewrite length_app. cbn [length].
  specialize (H t (list_elem_of_here _ _)) as H0.
  assert (5 * length l <= length (flat_map put_value l))%nat by (apply IH; intros; apply H; by right). lia.
Qed.

Lemma pull_match_sent m rest a :
  sendable m -> exists m', oxm_pull_match (flat_map put_value (sent m) ++ rest) (mlength m) a = (m', 0) /\ m_wf m' /\ tlvs m' ≡ₚ sent m.
Proof.
  intros Hm. pose proof (sendable_length m Hm) as Hl. rewrite <- sent_size in Hl. pose proof (sent_count m Hm). pose proof (sendable_size m Hm).
  unfold oxm_pull_match. rewrite length_app. destruct (Z.ltb_spec (Z.of_nat (length (flat_map put_value (sent m)) + length rest)) (mlength m)); [lia |].
  rewrite Hl. apply (pull_sent m Hm (sent m) []); [done | apply match_init_wf | by rewrite (proj2 match_init_wf) | | lia].
  change (n (match_fields ofl_structs_match_init)) with 0. lia.
Qed.

Lemma match_pack_length m : sendable m -> Z.of_nat (length (ofl_structs_match_pack m)) = mlength m + 4.
Proof.
  intros Hm. rewrite match_pack_eq by done. pose proof (sendable_length m Hm) as Hl. rewrite <- sent_size in Hl. autorewrite with wire. lia.
Qed.

(** What is left after the match and its padding. *)
Lemma match_padding l : 0 <= l -> 0 <= ROUND_UP (l + 4) 8 /\ l + 4 <= ROUND_UP (l + 4) 8 < l + 12 /\ ROUND_UP (l + 4) 8 mod 8 = 0.
Proof. intros H. unfold ROUND_UP. Z.to_euclidean_division_equations. lia. Qed.

(** What is left is the length without that of the match and its padding, whatever it was. *)
Lemma match_back m rest len a :
  sendable m ->
  exists m', ofl_structs_match_unpack (ofl_structs_match_pack m ++ rest) len a = Ok (m', u64 (len - ROUND_UP (mlength m + 4) 8)) /\ same_match m m'.
Proof.
  intros Hm. pose proof (sendable_length m Hm) as Hl. rewrite <- sent_size in Hl. pose proof (sendable_size m Hm).
  pose proof (sent_count m Hm) as Hc. destruct (match_padding (mlength m)) as (P1 & P2 & _); [lia |]. rewrite match_pack_eq by done.
  assert (Hf : fits 2 (mlength m + 4) = true) by (apply range_fits; lia). unfold ofl_structs_match_unpack. rewrite <- !app_assoc.
  set (bytes := be_store 2 1 ++ _). assert (get 2 bytes 0 = Ok 1) as -> by (unfold bytes; read_field).
  assert (get 2 bytes 2 = Ok (mlength m + 4)) as -> by (unfold bytes; read_field). cbn [rbind Z.eqb Pos.eqb].
  unfold ofl_structs_oxm_match_unpack. cbv zeta.
  destruct (Z.ltb_spec 8 (mlength m + 4)) as [Hb | Hb].
  - replace (mlength m + 4 - 4) with (mlength m) by lia. unfold rd, bytes. rewrite !length_app, !be_store_length.
    destruct (Nat.leb_spec (4 + Z.to_nat (mlength m)) (2 + (2 + (length (flat_map put_value (sent m)) + length rest)))); [| lia].
    cbn [rbind]. unfold slice. rewrite (app_assoc (be_store 2 1)), (drop_app_exact (be_store 2 1 ++ _)) by (by autorewrite with wire).
    replace (Z.to_nat (mlength m)) with (length (flat_map put_value (sent m))) by lia. rewrite take_app_length, firstn_all.
    destruct (pull_match_sent m [] a Hm) as (m' & E & W & T). rewrite app_nil_r in E.
    rewrite E. cbn [Z.eqb]. rewrite (wrap_small 16) by (unfold in_range; lia).
    eexists. split; [reflexivity |]. split; [done |]. split; [| exact W]. change (tlvs m ≡ₚ tlvs m'). by rewrite T, sent_perm.
  - cbn [rbind Z.eqb]. eexists. split; [reflexivity |]. assert (sent m = []) as E by (destruct (sent m); [done | cbn [length] in Hc; lia]).
    rewrite E in Hl. split; [exact Hl |]. split; [| apply match_init_wf]. rewrite <- sent_perm, E. by rewrite (proj2 match_init_wf).
Qed.

Lemma match_roundtrip m rest len a :
  sendable m -> ROUND_UP (mlength m + 4) 8 <= len < 2 ^ 32 ->
  exists m', ofl_structs_match_unpack (ofl_structs_match_pack m ++ rest) len a = Ok (m', len - ROUND_UP (mlength m + 4) 8) /\ same_match m m'.
Proof.
  intros Hm Hlen. destruct (match_back m rest len a Hm) as (m' & E & Hs). exists m'. split; [| exact Hs]. rewrite E.
  pose proof (sendable_length m Hm). destruct (match_padding (mlength m)) as (P1 & _ & _); [lia |].
  by rewrite wrap_small by (unfold in_range; lia).
Qed.

(** A match that is packed is read back with the same fields and length, whatever follows it,
    and what is left is what comes after its padding. *)
Theorem match_wire_roundtrip m rest len a :
  sendable m -> ROUND_UP (mlength m + 4) 8 <= len < 2 ^ 32 ->
  Z.of_nat (length (ofl_structs_match_pack m)) = mlength m + 4 /\
  exists m', ofl_structs_match_unpack (ofl_structs_match_pack m ++ rest) len a = Ok (m', len - ROUND_UP (mlength m + 4) 8) /\ same_match m m'.
Proof. intros Hm Hlen. split; [by apply match_pack_length | by apply match_roundtrip]. Qed.

(** * An example *)

(** Packets from port 3 of TCP to 10.0.0.0/8. *)
Definition demo_fields : list (Z * list Z) :=
  [(OXM_OF_IPV4_DST_W, [10; 0; 0; 0; 255; 0; 0; 0]); (OXM_OF_TCP_DST, le_store 2 80); (OXM_OF_IN_PORT, le_store 4 3);
   (OXM_OF_ETH_TYPE, le_store 2 0x800); (OXM_OF_IP_PROTO, [6])].
Definition demo_match : ofl_match :=
  fold_left (fun m x => match_put m (fst x) (snd x) (OXM_LENGTH (fst x))) demo_fields ofl_structs_match_init.

Lemma puts_wf l m :
  m_wf m -> Forall (fun x : Z * list Z => in_range 32 (fst x)) l -> n (match_fields m) + length l < 2 ^ 64 ->
  m_wf (fold_left (fun m x => match_put m (fst x) (snd x) (OXM_LENGTH (fst x))) l m).
Proof.
  revert m. induction l as [| x l IH]; intros m Hm Hl Hn; [done |]. apply Forall_cons in Hl as [Hx Hl]. cbn [fold_left length] in *.
  destruct (match_put_wf m (fst x) (snd x) (OXM_LENGTH (fst x)) Hm Hx) as (W & _ & E); [lia |]. apply IH; [done | done | lia].
Qed.

Lemma demo_sendable : sendable demo_match.
Proof.
  split.
  - apply puts_wf; [apply match_init_wf | unfold in_range; apply (bool_decide_unpack _); by vm_compute | done].
  - apply (bool_decide_unpack _). by vm_compute.
  - by vm_compute.
  - by vm_compute.
  - by vm_compute.
Qed.

Lemma match_wire_roundtrip_witness :
  Z.of_nat (length (ofl_structs_match_pack demo_match)) = mlength demo_match + 4 /\
  exists m', ofl_structs_match_unpack (ofl_structs_match_pack demo_match ++ [1; 2]) 100 0 = Ok (m', 52) /\ same_match demo_match m'.
Proof. apply (match_wire_roundtrip demo_match [1; 2] 100 0); [apply demo_sendable | split; by vm_compute]. Defined.
