(* ===== verification/MsgCodec.v ===== *)
(** Messages on the wire (oflib/ofl-messages-pack.c, ofl-messages-unpack.c and the experimenter
    messages of oflib-exp): their structures, and every message both ways. *)
From S2P Require Import Prelude HMap Oxm OflTypes Wire ActCodec Meter Group Ports FlowTable StructCodec.
Open Scope Z_scope.
Open Scope wire_scope.

Module MsgCodec.
Import ActCodec StructCodec.

(** * Messages *)

(** The messages that are only a header. *)
Inductive plain := HELLO | FEATURES_REQUEST | GET_CONFIG_REQUEST | GET_ASYNC_REQUEST | BARRIER_REQUEST | BARRIER_REPLY.

(** [struct ofl_msg_features_reply] *)
Record features := SwitchFeatures { datapath_id : Z; n_buffers : Z; n_tables : Z; auxiliary_id : Z; capabilities : Z }.
(** [struct ofl_config] *)
Record switch_config := Config { cfg_flags : Z; cfg_miss_send_len : Z }.
(** [struct ofl_async_config], for masters and equals and for slaves. *)
Record async_config := Async { packet_in_mask : Z * Z; port_status_mask : Z * Z; flow_removed_mask : Z * Z }.
(** [struct ofl_msg_packet_in] *)
Record packet_in := PIn { pi_buffer_id : Z; pi_total_len : Z; pi_reason : Z; pi_table_id : Z; pi_cookie : Z; pi_match : ofl_match; pi_data : list Z }.
(** [struct ofl_msg_packet_out] *)
Record packet_out := POut { po_buffer_id : Z; po_in_port : Z; po_actions : list ofl_action; po_data : list Z }.
(** [struct ofl_msg_port_mod] with the advertised features. *)
Record port_mod := PortMod { pmod : Ports.port_mod; advertise : Z }.
(** [struct ofl_msg_table_mod] *)
Record table_mod := TableMod { tm_table_id : Z; tm_config : Z }.
(** [struct ofl_msg_meter_mod]; a band of an unknown type is a pointer that was not set. *)
Record meter_msg := MeterMod { mt_command : Z; mt_flags : Z; mt_meter_id : Z; mt_bands : list (option Meter.meter_band) }.
(** [struct ofl_msg_multipart_request_flow] *)
Record flow_request := FlowRequest { rq_table_id : Z; rq_out_port : Z; rq_out_group : Z; rq_cookie : Z; rq_cookie_mask : Z; rq_match : ofl_match }.

(** The multipart requests, by their types. A request about table features without a body has no
    array. *)
Inductive mp_request :=
  | Rq_desc | Rq_flow (r : flow_request) | Rq_aggregate (r : flow_request) | Rq_table | Rq_port_stats (port : Z)
  | Rq_queue (port queue : Z) | Rq_group (group : Z) | Rq_group_desc | Rq_group_features | Rq_meter (meter : Z)
  | Rq_meter_config (meter : Z) | Rq_meter_features | Rq_table_features (l : option (list table_features)) | Rq_port_desc | Rq_experimenter.

(** [struct ofl_msg_reply_desc]: the memory of each string. *)
Record desc := Desc { mfr_desc : list Z; hw_desc : list Z; sw_desc : list Z; serial_num : list Z; dp_desc : list Z }.
(** [struct ofl_msg_multipart_reply_group_features] *)
Record group_features := GroupFeatures { gf_types : Z; gf_capabilities : Z; gf_max_groups : list Z; gf_actions : list Z }.
(** [struct ofl_meter_features] *)
Record meter_features := MeterFeatures { max_meter : Z; band_types : Z; mf_capabilities : Z; max_bands : Z; max_color : Z }.
(** [struct ofl_meter_config] as it is received. *)
Record meter_conf := MeterConf { mc_flags : Z; mc_meter_id : Z; mc_bands : list (option Meter.meter_band) }.

Inductive mp_reply :=
  | Rp_desc (d : desc) | Rp_flow (l : list FlowTable.flow_stats) | Rp_aggregate (packets bytes flows : Z)
  | Rp_table (l : list table_stats) | Rp_port_stats (l : list Ports.ofl_port_stats) | Rp_queue (l : list Ports.ofl_queue_stats)
  | Rp_group (l : list Group.group_stats) | Rp_group_desc (l : list Group.group_desc) | Rp_group_features (f : group_features)
  | Rp_meter (l : list Meter.meter_stats) | Rp_meter_config (l : list meter_conf) | Rp_meter_features (f : meter_features)
  | Rp_table_features (l : list table_features) | Rp_port_desc (l : list Ports.ofl_port) | Rp_experimenter.

(** The experimenter messages of oflib-exp. *)
Inductive exp_msg :=
  | Exp_queue (delete : bool) (port : Z) (q : packet_queue)
  | Exp_set_desc (s : list Z)
  | Exp_role (reply : bool) (role : Z).

Inductive ofl_msg :=
  | M_plain (p : plain)
  | M_error (type code : Z) (data : list Z)
  | M_echo (reply : bool) (data : list Z)
  | M_experimenter (e : exp_msg)
  | M_features_reply (f : features)
  | M_get_config_reply (c : switch_config)
  | M_set_config (c : switch_config)
  | M_packet_in (p : packet_in)
  | M_flow_removed (r : FlowTable.flow_removed)
  | M_port_status (s : Ports.port_status)
  | M_packet_out (p : packet_out)
  | M_flow_mod (f : FlowTable.flow_mod)
  | M_group_mod (g : Group.group_mod)
  | M_port_mod (p : port_mod)
  | M_table_mod (t : table_mod)
  | M_multipart_request (flags : Z) (r : mp_request)
  | M_multipart_reply (flags : Z) (r : mp_reply)
  | M_queue_get_config_request (port : Z)
  | M_queue_get_config_reply (port : Z) (l : list packet_queue)
  | M_role (reply : bool) (role generation_id : Z)
  | M_async (reply : bool) (c : async_config)
  | M_meter_mod (m : meter_msg).

(** [enum ofp_type] *)
Definition plain_type (p : plain) : Z :=
  match p with HELLO => 0 | FEATURES_REQUEST => 5 | GET_CONFIG_REQUEST => 7 | BARRIER_REQUEST => 20 | BARRIER_REPLY => 21 | GET_ASYNC_REQUEST => 26 end.
Definition msg_type (msg : ofl_msg) : Z :=
  match msg with
  | M_plain p => plain_type p | M_error _ _ _ => 1 | M_echo reply _ => if reply then 3 else 2 | M_experimenter _ => 4
  | M_features_reply _ => 6 | M_get_config_reply _ => 8 | M_set_config _ => 9 | M_packet_in _ => 10 | M_flow_removed _ => 11
  | M_port_status _ => 12 | M_packet_out _ => 13 | M_flow_mod _ => 14 | M_group_mod _ => 15 | M_port_mod _ => 16
  | M_table_mod _ => 17 | M_multipart_request _ _ => 18 | M_multipart_reply _ _ => 19 | M_queue_get_config_request _ => 22
  | M_queue_get_config_reply _ _ => 23 | M_role reply _ _ => if reply then 25 else 24 | M_async reply _ => if reply then 27 else 28
  | M_meter_mod _ => 29
  end.
(** [enum ofp_multipart_types] *)
Definition request_type (r : mp_request) : Z :=
  match r with
  | Rq_desc => 0 | Rq_flow _ => 1 | Rq_aggregate _ => 2 | Rq_table => 3 | Rq_port_stats _ => 4 | Rq_queue _ _ => 5 | Rq_group _ => 6
  | Rq_group_desc => 7 | Rq_group_features => 8 | Rq_meter _ => 9 | Rq_meter_config _ => 10 | Rq_meter_features => 11
  | Rq_table_features _ => 12 | Rq_port_desc => 13 | Rq_experimenter => 0xffff
  end.
Definition reply_type (r : mp_reply) : Z :=
  match r with
  | Rp_desc _ => 0 | Rp_flow _ => 1 | Rp_aggregate _ _ _ => 2 | Rp_table _ => 3 | Rp_port_stats _ => 4 | Rp_queue _ => 5 | Rp_group _ => 6
  | Rp_group_desc _ => 7 | Rp_group_features _ => 8 | Rp_meter _ => 9 | Rp_meter_config _ => 10 | Rp_meter_features _ => 11
  | Rp_table_features _ => 12 | Rp_port_desc _ => 13 | Rp_experimenter => 0xffff
  end.

Definition OFP_VERSION : Z := 4.
Definition OPENFLOW_VENDOR_ID : Z := 0x26e1.
Definition NX_VENDOR_ID : Z := 0x2320.
Definition OFL_ERROR : Z := 0xffffffff.
Definition OFPET_HELLO_FAILED : Z := 0.
Definition OFPBRC_BAD_MULTIPART : Z := 2.
Definition OFPBRC_BAD_EXPERIMENTER : Z := 3.
Definition OFPGMFC_BAD_TYPE : Z := 10.
Definition OFPGMFC_BAD_COMMAND : Z := 11.
Definition OFPMMFC_INVALID_METER : Z := 2.
Definition OFPMMFC_BAD_COMMAND : Z := 4.
Definition OFPMMFC_BAD_FLAGS : Z := 5.
Definition OFPQOFC_BAD_PORT : Z := 0.
Definition OFPET_QUEUE_OP_FAILED : Z := 9.
Definition OFPGT_INDIRECT : Z := 2.
Definition OFPGT_FF : Z := 3.
Definition OFPGC_DELETE : Z := 2.
Definition OFPMC_DELETE : Z := 2.
Definition OFPM_MAX : Z := 0xffff0000.
Definition OFPTT_ALL : Z := 0xff.
Definition NO_BUFFER : Z := 0xffffffff.
Definition bad_len : Z := bad_request OFPBRC_BAD_LEN.

Section codec.
(** What new memory holds. *)
Context (junk : nat -> Z).

(** * Packing

    A function gives what it writes after the header of the message, which [ofl_msg_pack] writes. *)

(** The elements of an array of pointers, all of which are set. *)
Definition set_ptrs {A} (l : list (option A)) : res (list A) := match mapM id l with Some l => Ok l | None => Oob end.

Definition ofl_msg_pack_error (type code : Z) (data : list Z) : res (list Z) := Ok (be_store 2 type ++ be_store 2 code ++ data).
Definition ofl_msg_pack_echo (data : list Z) : res (list Z) := Ok data.
Definition ofl_msg_pack_role_request (role generation_id : Z) : res (list Z) :=
  Ok (be_store 4 role ++ zeros 4 ++ be_store 8 generation_id).
Definition ofl_msg_pack_features_reply (f : features) : res (list Z) :=
  Ok (be_store 8 (datapath_id f) ++ be_store 4 (n_buffers f) ++ be_store 1 (n_tables f) ++ be_store 1 (auxiliary_id f) ++
      zeros 2 ++ be_store 4 (capabilities f) ++ zeros 4).
Definition ofl_msg_pack_get_config_reply (c : switch_config) : res (list Z) :=
  Ok (be_store 2 (cfg_flags c) ++ be_store 2 (cfg_miss_send_len c)).
Definition ofl_msg_pack_set_config (c : switch_config) : res (list Z) :=
  Ok (be_store 2 (cfg_flags c) ++ be_store 2 (cfg_miss_send_len c)).

Definition ofl_msg_pack_packet_in (p : packet_in) : res (list Z) :=
  mt <- match_region junk 24 (pi_match p);;
  Ok (be_store 4 (pi_buffer_id p) ++ be_store 2 (pi_total_len p) ++ be_store 1 (pi_reason p) ++ be_store 1 (pi_table_id p) ++
      be_store 8 (pi_cookie p) ++ mt ++ zeros 2 ++ pi_data p).

(** The hard timeout is not written. *)
Definition ofl_msg_pack_flow_removed (r : FlowTable.flow_removed) : res (list Z) :=
  let s := FlowTable.r_stats r in
  mt <- match_region junk 48 (FlowTable.fmatch s);;
  Ok (be_store 8 (FlowTable.cookie s) ++ be_store 2 (FlowTable.priority s) ++ be_store 1 (FlowTable.reason r) ++
      be_store 1 (FlowTable.f_table_id s) ++ be_store 4 (FlowTable.duration_sec s) ++ be_store 4 (FlowTable.duration_nsec s) ++
      be_store 2 (FlowTable.idle_timeout s) ++ fresh junk 2 ++ be_store 8 (FlowTable.packet_count s) ++
      be_store 8 (FlowTable.byte_count s) ++ mt).

Definition ofl_msg_pack_port_status (s : Ports.port_status) : res (list Z) :=
  Ok (be_store 1 (Ports.reason s) ++ zeros 7 ++ ofl_structs_port_pack (Ports.desc s)).

(** A write into the memory of the message. *)
Definition put (mem : list Z) (off : nat) (bs : list Z) : res (list Z) :=
  if (off + length bs <=? length mem)%nat then Ok (patch off bs mem) else Oob.

(** An action of a packet-out at [ptr]. The function is given the start of the message in place
    of that of the action, and puts the value of a set-field after the header of the message. *)
Definition put_action (mem : list Z) (ptr : nat) (a : ofl_action) : res (list Z * nat) :=
  match a with
  | Act_set_field f =>
      let n := OXM_LENGTH (header f) in
      let alen := 8 + ROUND_UP n 8 in
      mem <- put mem ptr (be_store 2 (act_type a) ++ be_store 2 alen ++ be_store 4 (header f));;
      mem <- match swaps (header f) with Some s => put mem 0 (in_order s (take (Z.to_nat n) (value f))) | None => Ok mem end;;
      mem <- put mem (Z.to_nat n) (zeros (Z.to_nat (ROUND_UP n 8 - n)));;
      Ok (mem, (ptr + Z.to_nat (u16 alen))%nat)
  | _ =>
      let bs := ofl_actions_pack junk a in
      mem <- put mem ptr bs;; Ok (mem, (ptr + length bs)%nat)
  end.
Fixpoint put_actions (mem : list Z) (ptr : nat) (acts : list ofl_action) : res (list Z * nat) :=
  match acts with
  | [] => Ok (mem, ptr)
  | a :: acts => '(mem, ptr) <- put_action mem ptr a;; put_actions mem ptr acts
  end.

Definition ofl_msg_pack_packet_out (p : packet_out) : res (list Z) :=
  let act_len := ofl_actions_ofp_total_len (po_actions p) in
  let mem := fresh junk (Z.to_nat (u64 (24 + act_len + length (po_data p)) - 8)) in
  mem <- put mem 0 (be_store 4 (po_buffer_id p) ++ be_store 4 (po_in_port p) ++ be_store 2 act_len ++ zeros 6);;
  '(mem, ptr) <- put_actions mem 16 (po_actions p);;
  put mem ptr (po_data p).

Definition ofl_msg_pack_flow_mod (f : FlowTable.flow_mod) : res (list Z) :=
  mt <- match_region junk 48 (FlowTable.m_match f);;
  Ok (be_store 8 (FlowTable.m_cookie f) ++ be_store 8 (FlowTable.m_cookie_mask f) ++ be_store 1 (FlowTable.m_table_id f) ++
      be_store 1 (FlowTable.m_command f) ++ be_store 2 (FlowTable.m_idle_timeout f) ++ be_store 2 (FlowTable.m_hard_timeout f) ++
      be_store 2 (FlowTable.m_priority f) ++ be_store 4 (FlowTable.m_buffer_id f) ++ be_store 4 (FlowTable.m_out_port f) ++
      be_store 4 (FlowTable.m_out_group f) ++ be_store 2 (FlowTable.m_flags f) ++ zeros 2 ++ mt ++
      pack_instructions junk (FlowTable.insts (FlowTable.m_instructions f))).

Definition ofl_msg_pack_group_mod (g : Group.group_mod) : res (list Z) :=
  Ok (be_store 2 (Group.gm_command g) ++ be_store 1 (Group.gm_type g) ++ zeros 1 ++ be_store 4 (Group.gm_group_id g) ++
      pack_buckets junk (Group.gm_buckets g)).

Definition ofl_msg_pack_port_mod (p : port_mod) : res (list Z) :=
  Ok (be_store 4 (Ports.pm_port_no (pmod p)) ++ zeros 4 ++ take 6 (Ports.pm_hw_addr (pmod p)) ++ zeros 2 ++
      be_store 4 (Ports.pm_config (pmod p)) ++ be_store 4 (Ports.pm_mask (pmod p)) ++ be_store 4 (advertise p) ++ zeros 4).

Definition ofl_msg_pack_table_mod (t : table_mod) : res (list Z) :=
  Ok (be_store 1 (tm_table_id t) ++ zeros 3 ++ be_store 4 (tm_config t)).

Definition ofl_msg_pack_meter_mod (m : meter_msg) : res (list Z) :=
  bands <- set_ptrs (mt_bands m);;
  Ok (be_store 2 (mt_command m) ++ be_store 2 (mt_flags m) ++ be_store 4 (mt_meter_id m) ++ pack_bands bands).

Definition pair_bytes (p : Z * Z) : list Z := be_store 4 (fst p) ++ be_store 4 (snd p).
Definition ofl_msg_pack_async_config (c : async_config) : res (list Z) :=
  Ok (pair_bytes (packet_in_mask c) ++ pair_bytes (port_status_mask c) ++ pair_bytes (flow_removed_mask c)).

(** ** Multipart requests, after the header of the multipart *)

(** The buffer has as many bytes after the fixed part as the match has in its length. *)
Definition ofl_msg_pack_multipart_request_flow (r : flow_request) : res (list Z) :=
  mt <- region junk (Z.to_nat (8 + mlength (rq_match r))) (ofl_structs_match_pack (rq_match r));;
  Ok (be_store 1 (rq_table_id r) ++ zeros 3 ++ be_store 4 (rq_out_port r) ++ be_store 4 (rq_out_group r) ++ zeros 4 ++
      be_store 8 (rq_cookie r) ++ be_store 8 (rq_cookie_mask r) ++ mt).
Definition ofl_msg_pack_multipart_request_port (port : Z) : res (list Z) := Ok (be_store 4 port ++ zeros 4).
Definition ofl_msg_pack_multipart_request_queue (port queue : Z) : res (list Z) := Ok (be_store 4 port ++ be_store 4 queue).
Definition ofl_msg_pack_multipart_request_group (group : Z) : res (list Z) := Ok (be_store 4 group ++ zeros 4).
Definition ofl_msg_pack_meter_multipart_request (meter : Z) : res (list Z) := Ok (be_store 4 meter ++ zeros 4).
Definition ofl_msg_pack_multipart_request_table_features (l : list table_features) : res (list Z) :=
  let features_len := ofl_structs_table_features_ofp_total_len l in
  bs <- (if features_len =? 0 then Ok [] else pack_all (ofl_structs_table_features_pack junk) l);;
  region junk (Z.to_nat features_len) bs.

Definition pack_request_body (r : mp_request) : res (list Z) :=
  match r with
  | Rq_desc | Rq_table | Rq_group_desc | Rq_group_features | Rq_meter_features | Rq_port_desc => Ok []
  | Rq_flow r | Rq_aggregate r => ofl_msg_pack_multipart_request_flow r
  | Rq_port_stats port => ofl_msg_pack_multipart_request_port port
  | Rq_queue port queue => ofl_msg_pack_multipart_request_queue port queue
  | Rq_group group => ofl_msg_pack_multipart_request_group group
  | Rq_meter meter | Rq_meter_config meter => ofl_msg_pack_meter_multipart_request meter
  | Rq_table_features l => ofl_msg_pack_multipart_request_table_features (default [] l)
  | Rq_experimenter => Err (-1)
  end.
Definition ofl_msg_pack_multipart_request (flags : Z) (r : mp_request) : res (list Z) :=
  body <- pack_request_body r;;
  Ok (be_store 2 (request_type r) ++ be_store 2 flags ++ zeros 4 ++ body).

(** ** Multipart replies *)

Definition ofl_msg_pack_multipart_reply_desc (d : desc) : res (list Z) :=
  mfr <- rd (mfr_desc d) 0 256;; hw <- rd (hw_desc d) 0 256;; sw <- rd (sw_desc d) 0 256;;
  serial <- rd (serial_num d) 0 32;; dp <- rd (dp_desc d) 0 256;;
  Ok (mfr ++ hw ++ sw ++ serial ++ dp).
Definition ofl_msg_pack_multipart_reply_flow (l : list FlowTable.flow_stats) : res (list Z) := pack_all (ofl_structs_flow_stats_pack junk) l.
Definition ofl_msg_pack_multipart_reply_aggregate (packets bytes flows : Z) : res (list Z) :=
  Ok (be_store 8 packets ++ be_store 8 bytes ++ be_store 4 flows ++ zeros 4).
Definition ofl_msg_pack_multipart_reply_table (l : list table_stats) : res (list Z) := Ok (packs ofl_structs_table_stats_pack l).
Definition ofl_msg_pack_multipart_reply_port (l : list Ports.ofl_port_stats) : res (list Z) := Ok (packs ofl_structs_port_stats_pack l).
Definition ofl_msg_pack_multipart_reply_queue (l : list Ports.ofl_queue_stats) : res (list Z) := Ok (packs ofl_structs_queue_stats_pack l).
Definition ofl_msg_pack_multipart_reply_group (l : list Group.group_stats) : res (list Z) := Ok (packs ofl_structs_group_stats_pack l).
Definition ofl_msg_pack_multipart_reply_group_desc (l : list Group.group_desc) : res (list Z) :=
  Ok (packs (ofl_structs_group_desc_stats_pack junk) l).
Definition ofl_msg_pack_multipart_reply_group_features (f : group_features) : res (list Z) :=
  Ok (be_store 4 (gf_types f) ++ be_store 4 (gf_capabilities f) ++ flat_map (be_store 4) (take 4 (gf_max_groups f)) ++
      flat_map (be_store 4) (take 4 (gf_actions f))).
Definition ofl_msg_pack_multipart_reply_table_features (l : list table_features) : res (list Z) :=
  let features_len := ofl_structs_table_features_ofp_total_len l in
  bs <- (if features_len =? 0 then Ok [] else pack_all (ofl_structs_table_features_pack junk) l);;
  region junk (Z.to_nat features_len) bs.
Definition ofl_msg_pack_multipart_reply_meter_stats (l : list Meter.meter_stats) : res (list Z) := Ok (packs ofl_structs_meter_stats_pack l).
Definition pack_meter_conf (c : meter_conf) : res (list Z) :=
  bands <- set_ptrs (mc_bands c);; Ok (ofl_structs_meter_conf_pack (Meter.MConfig (mc_flags c) (mc_meter_id c) bands)).
Definition ofl_msg_pack_multipart_reply_meter_conf (l : list meter_conf) : res (list Z) := pack_all pack_meter_conf l.
Definition ofl_msg_pack_multipart_reply_port_status_desc (l : list Ports.ofl_port) : res (list Z) := Ok (packs ofl_structs_port_pack l).
Definition ofl_msg_pack_multipart_reply_meter_features (f : meter_features) : res (list Z) :=
  Ok (be_store 4 (max_meter f) ++ be_store 4 (band_types f) ++ be_store 4 (mf_capabilities f) ++ be_store 1 (max_bands f) ++
      be_store 1 (max_color f) ++ zeros 2).

Definition pack_reply_body (r : mp_reply) : res (list Z) :=
  match r with
  | Rp_desc d => ofl_msg_pack_multipart_reply_desc d
  | Rp_flow l => ofl_msg_pack_multipart_reply_flow l
  | Rp_aggregate p b f => ofl_msg_pack_multipart_reply_aggregate p b f
  | Rp_table l => ofl_msg_pack_multipart_reply_table l
  | Rp_table_features l => ofl_msg_pack_multipart_reply_table_features l
  | Rp_port_stats l => ofl_msg_pack_multipart_reply_port l
  | Rp_queue l => ofl_msg_pack_multipart_reply_queue l
  | Rp_group l => ofl_msg_pack_multipart_reply_group l
  | Rp_group_desc l => ofl_msg_pack_multipart_reply_group_desc l
  | Rp_group_features f => ofl_msg_pack_multipart_reply_group_features f
  | Rp_meter l => ofl_msg_pack_multipart_reply_meter_stats l
  | Rp_meter_config l => ofl_msg_pack_multipart_reply_meter_conf l
  | Rp_meter_features f => ofl_msg_pack_multipart_reply_meter_features f
  | Rp_port_desc l => ofl_msg_pack_multipart_reply_port_status_desc l
  | Rp_experimenter => Err (-1)
  end.
Definition ofl_msg_pack_multipart_reply (flags : Z) (r : mp_reply) : res (list Z) :=
  body <- pack_reply_body r;;
  Ok (be_store 2 (reply_type r) ++ be_store 2 flags ++ zeros 4 ++ body).

(** ** Queue configuration and experimenter messages *)

Definition ofl_msg_pack_queue_get_config_request (port : Z) : res (list Z) := Ok (be_store 4 port ++ zeros 4).
Definition ofl_msg_pack_queue_get_config_reply (port : Z) (l : list packet_queue) : res (list Z) :=
  qs <- pack_all (ofl_structs_packet_queue_pack junk) l;; Ok (be_store 4 port ++ zeros 4 ++ qs).

Definition queue_subtype (delete : bool) : Z := if delete then 1 else 0.
Definition role_subtype (reply : bool) : Z := if reply then 11 else 10.
Definition ofl_exp_openflow_msg_pack (e : exp_msg) : res (list Z) :=
  match e with
  | Exp_queue delete port q =>
      body <- ofl_structs_packet_queue_pack junk q;;
      Ok (be_store 4 OPENFLOW_VENDOR_ID ++ be_store 4 (queue_subtype delete) ++ be_store 4 port ++ fresh junk 4 ++ body)
  | Exp_set_desc s => Ok (be_store 4 OPENFLOW_VENDOR_ID ++ be_store 4 2 ++ strncpy 256 s)
  | Exp_role _ _ => Err (-1)
  end.
Definition ofl_exp_nicira_msg_pack (e : exp_msg) : res (list Z) :=
  match e with
  | Exp_role reply role => Ok (be_store 4 NX_VENDOR_ID ++ be_store 4 (role_subtype reply) ++ be_store 4 role)
  | _ => Err (-1)
  end.
Definition ofl_exp_msg_pack (e : exp_msg) : res (list Z) :=
  match e with Exp_role _ _ => ofl_exp_nicira_msg_pack e | _ => ofl_exp_openflow_msg_pack e end.

(** ** All messages *)

Definition pack_body (msg : ofl_msg) : res (list Z) :=
  match msg with
  | M_plain _ => Ok []
  | M_error type code data => ofl_msg_pack_error type code data
  | M_echo _ data => ofl_msg_pack_echo data
  | M_experimenter e => ofl_exp_msg_pack e
  | M_features_reply f => ofl_msg_pack_features_reply f
  | M_get_config_reply c => ofl_msg_pack_get_config_reply c
  | M_set_config c => ofl_msg_pack_set_config c
  | M_packet_in p => ofl_msg_pack_packet_in p
  | M_flow_removed r => ofl_msg_pack_flow_removed r
  | M_port_status s => ofl_msg_pack_port_status s
  | M_async _ c => ofl_msg_pack_async_config c
  | M_packet_out p => ofl_msg_pack_packet_out p
  | M_flow_mod f => ofl_msg_pack_flow_mod f
  | M_group_mod g => ofl_msg_pack_group_mod g
  | M_port_mod p => ofl_msg_pack_port_mod p
  | M_table_mod t => ofl_msg_pack_table_mod t
  | M_meter_mod m => ofl_msg_pack_meter_mod m
  | M_multipart_request flags r => ofl_msg_pack_multipart_request flags r
  | M_multipart_reply flags r => ofl_msg_pack_multipart_reply flags r
  | M_queue_get_config_request port => ofl_msg_pack_queue_get_config_request port
  | M_queue_get_config_reply port l => ofl_msg_pack_queue_get_config_reply port l
  | M_role _ role generation_id => ofl_msg_pack_role_request role generation_id
  end.

(** The header goes in front of what the message wrote. *)
Definition with_header (type xid : Z) (body : list Z) : list Z :=
  be_store 1 OFP_VERSION ++ be_store 1 type ++ be_store 2 (8 + length body) ++ be_store 4 xid ++ body.
Definition ofl_msg_pack (msg : ofl_msg) (xid : Z) : res (list Z) :=
  body <- pack_body msg;; Ok (with_header (msg_type msg) xid body).

(** * Unpacking

    The memory [m] is that of the whole message, [len] what is left of its length. Matches are
    copied to the address [addr], instructions to an array at [at_]. *)
Context (addr : Z) (at_ : positive).

(** [memcpy] of [len] bytes at an offset, when there are any. *)
Definition copy (m : list Z) (off len : Z) : res (list Z) :=
  if off + len <=? length m then Ok (slice (Z.to_nat off) (Z.to_nat len) m) else Oob.

Definition ofl_msg_unpack_error (m : list Z) (len : Z) : res (ofl_msg * Z) :=
  refuse (len <? 12) OFL_ERROR;;;
  type <- get 2 m 8;; code <- get 2 m 10;;
  data <- copy m 12 (len - 12);; Ok (M_error type code data, 0).

Definition ofl_msg_unpack_echo (reply : bool) (m : list Z) (len : Z) : res (ofl_msg * Z) :=
  data <- copy m 8 (len - 8);; Ok (M_echo reply data, 0).

Definition ofl_msg_unpack_role_request (reply : bool) (m : list Z) (len : Z) : res (ofl_msg * Z) :=
  refuse (len <? 24) bad_len;;;
  role <- get 4 m 8;; generation_id <- get 8 m 16;; Ok (M_role reply role generation_id, len - 24).

(** A message that is too short is only logged. *)
Definition ofl_msg_unpack_features_reply (m : list Z) (len : Z) : res (ofl_msg * Z) :=
  dpid <- get 8 m 8;; buffers <- get 4 m 16;; tables <- get 1 m 20;; aux <- get 1 m 21;; cap <- get 4 m 24;;
  Ok (M_features_reply (SwitchFeatures dpid buffers tables aux cap), u64 (len - 32)).

Definition unpack_config (m : list Z) (len : Z) : res (switch_config * Z) :=
  refuse (len <? 12) bad_len;;;
  miss <- get 2 m 10;; flags <- get 2 m 8;; Ok (Config flags miss, len - 12).
Definition ofl_msg_unpack_get_config_reply (m : list Z) (len : Z) : res (ofl_msg * Z) :=
  '(c, len) <- unpack_config m len;; Ok (M_get_config_reply c, len).
Definition ofl_msg_unpack_set_config (m : list Z) (len : Z) : res (ofl_msg * Z) :=
  '(c, len) <- unpack_config m len;; Ok (M_set_config c, len).

Definition get_pair (m : list Z) (off : nat) : res (Z * Z) := a <- get 4 m off;; b <- get 4 m (off + 4);; Ok (a, b).
Definition ofl_msg_unpack_async_config (reply : bool) (m : list Z) (len : Z) : res (ofl_msg * Z) :=
  refuse (len <? 32) bad_len;;;
  packet_in <- get_pair m 8;; port_status <- get_pair m 16;; flow_removed <- get_pair m 24;;
  Ok (M_async reply (Async packet_in port_status flow_removed), len - 32).

(** The match of a packet-in, whose error is not looked at; the pointer to the match is not set
    when its type is unknown. *)
Definition unpack_any_match (m : list Z) (len : Z) : res (ofl_match * Z) :=
  type <- get 2 m 0;;
  if type =? 1 then
    n <- get 2 m 2;;
    buf <- (if 8 <? n then rd m 4 (Z.to_nat (n - 4)) else Ok []);;
    let '(r, len, _) := ofl_structs_oxm_match_unpack n buf len addr in Ok (r, len)
  else Oob.
Definition ofl_msg_unpack_packet_in (m : list Z) (len : Z) : res (ofl_msg * Z) :=
  refuse (len <? 32) bad_len;;;
  table <- get 1 m 15;;
  refuse (table =? PIPELINE_TABLES) (bad_request OFPBRC_BAD_TABLE_ID);;;
  buffer <- get 4 m 8;; total <- get 2 m 12;; reason <- get 1 m 14;; cookie <- get 8 m 16;;
  '(mt, len) <- unpack_any_match (drop 24 m) (len - 24);;
  let len := u64 (len - 2) in
  data <- copy m (ROUND_UP (28 + mlength mt) 8 + 2) len;;
  Ok (M_packet_in (PIn buffer total reason table cookie mt data), 0).

(** The flags of the flow are not set. *)
Definition ofl_msg_unpack_flow_removed (m : list Z) (len : Z) : res (ofl_msg * Z) :=
  refuse (len <? 48) OFL_ERROR;;;
  table <- get 1 m 19;;
  refuse (PIPELINE_TABLES <=? table) (bad_request OFPBRC_BAD_TABLE_ID);;;
  reason <- get 1 m 18;; sec <- get 4 m 20;; nsec <- get 4 m 24;; prio <- get 2 m 16;; idle <- get 2 m 28;;
  cookie <- get 8 m 8;; packets <- get 8 m 32;; bytes <- get 8 m 40;;
  '(mt, len) <- ofl_structs_match_unpack (drop 48 m) (len - 48) addr;;
  Ok (M_flow_removed (FlowTable.FRemoved reason
        (FlowTable.FStats table sec nsec prio idle 0 (be_load (fresh junk 2)) cookie packets bytes mt (FlowTable.Insts at_ []))), len).

Definition ofl_msg_unpack_port_status (m : list Z) (len : Z) : res (ofl_msg * Z) :=
  refuse (len <? 80) bad_len;;;
  reason <- get 1 m 8;;
  '(p, len) <- ofl_structs_port_unpack (drop 16 m) (len - 16);;
  Ok (M_port_status (Ports.PStatus reason p), len).

(** An action that is refused frees the message and goes on with it. *)
Definition freed {A} (c : res A) : res A := match c with Err _ => Oob | _ => c end.
Definition ofl_msg_unpack_packet_out (m : list Z) (len : Z) : res (ofl_msg * Z) :=
  refuse (len <? 24) bad_len;;;
  buffer <- get 4 m 8;; n <- get 2 m 16;;
  refuse (negb (buffer =? NO_BUFFER) && negb (len =? 24 + n)) bad_len;;;
  let len := len - 24 in
  in_port <- get 4 m 12;;
  refuse (len <? n) bad_len;;;
  k <- ofl_utils_count_ofp_actions (drop 24 m) n;;
  '(acts, len) <- freed (unpack_actions junk k (drop 24 m) len);;
  data <- copy m (24 + n) len;;
  Ok (M_packet_out (POut buffer in_port acts data), 0).

Definition ofl_msg_unpack_flow_mod (m : list Z) (len : Z) : res (ofl_msg * Z) :=
  refuse (len <? 48) bad_len;;;
  let len := len - 48 in
  table <- get 1 m 24;; command <- get 1 m 25;;
  refuse ((PIPELINE_TABLES <=? table) && ((negb (command =? 3) || negb (command =? 4)) && negb (table =? OFPTT_ALL)))
    (bad_request OFPBRC_BAD_TABLE_ID);;;
  cookie <- get 8 m 8;; mask <- get 8 m 16;; idle <- get 2 m 26;; hard <- get 2 m 28;; prio <- get 2 m 30;;
  buffer <- get 4 m 32;; port <- get 4 m 36;; group <- get 4 m 40;; flags <- get 2 m 44;;
  '(mt, len) <- ofl_structs_match_unpack (drop 48 m) len addr;;
  let tail := drop (Z.to_nat (ROUND_UP (52 + mlength mt) 8)) m in
  k <- ofl_utils_count_ofp_instructions tail len;;
  '(ins, len) <- unpack_instructions junk k tail len;;
  Ok (M_flow_mod (FlowTable.FMod cookie mask table command idle hard prio buffer port group flags mt (FlowTable.Insts at_ ins)), len).

(** The type is one byte whose halves of a short are swapped. *)
Definition ofl_msg_unpack_group_mod (m : list Z) (len : Z) : res (ofl_msg * Z) :=
  refuse (len <? 16) bad_len;;;
  let len := len - 16 in
  command <- get 2 m 8;;
  refuse (OFPGC_DELETE <? command) (bad_request OFPGMFC_BAD_COMMAND);;;
  type <- get 1 m 10;;
  refuse ((OFPGT_FF <? htons type) && (htons type <? 128)) (bad_request OFPGMFC_BAD_TYPE);;;
  id <- get 4 m 12;;
  refuse ((OFPG_MAX <? id) && negb ((command =? OFPGC_DELETE) && (id =? OFPG_ALL)))
    (ofl_error OFPET_GROUP_MOD_FAILED OFPGMFC_INVALID_GROUP);;;
  k <- ofl_utils_count_ofp_buckets (drop 16 m) len;;
  refuse ((command =? OFPGC_DELETE) && (0 <? k)%nat) (ofl_error OFPET_GROUP_MOD_FAILED OFPGMFC_INVALID_GROUP);;;
  refuse ((type =? OFPGT_INDIRECT) && negb (k =? 1)%nat) (ofl_error OFPET_GROUP_MOD_FAILED OFPGMFC_INVALID_GROUP);;;
  '(bs, len) <- unpack_buckets junk type k (drop 16 m) len;;
  Ok (M_group_mod (Group.GMod command type id bs), len).

Definition ofl_msg_unpack_meter_mod (m : list Z) (len : Z) : res (ofl_msg * Z) :=
  refuse (len <? 16) bad_len;;;
  let len := len - 16 in
  command <- get 2 m 8;;
  refuse (OFPMC_DELETE <? command) (bad_request OFPMMFC_BAD_COMMAND);;;
  flags <- get 2 m 10;;
  refuse (1 <? Z.shiftr flags 3) (bad_request OFPMMFC_BAD_FLAGS);;;
  id <- get 4 m 12;;
  refuse ((OFPM_MAX <? id) && negb ((command =? OFPMC_DELETE) && (id =? OFPM_ALL)))
    (ofl_error OFPET_METER_MOD_FAILED OFPMMFC_INVALID_METER);;;
  k <- ofl_utils_count_ofp_meter_bands (drop 16 m) len;;
  '(bs, len) <- unpack_bands k (drop 16 m) len;;
  Ok (M_meter_mod (MeterMod command flags id bs), len).

Definition ofl_msg_unpack_port_mod (m : list Z) (len : Z) : res (ofl_msg * Z) :=
  refuse (len <? 40) bad_len;;;
  port <- get 4 m 8;; hw <- rd m 16 6;; config <- get 4 m 24;; mask <- get 4 m 28;; advertise <- get 4 m 32;;
  Ok (M_port_mod (PortMod (Ports.PMod port hw config mask) advertise), len - 40).

Definition ofl_msg_unpack_table_mod (m : list Z) (len : Z) : res (ofl_msg * Z) :=
  refuse (len <? 16) bad_len;;;
  table <- get 1 m 8;;
  refuse (PIPELINE_TABLES <=? table) (bad_request OFPBRC_BAD_TABLE_ID);;;
  config <- get 4 m 12;; Ok (M_table_mod (TableMod table config), len - 16).

(** ** Multipart requests *)

Definition ofl_msg_unpack_multipart_request_flow (m : list Z) (len : Z) : res (flow_request * Z) :=
  refuse (len <? 32) bad_len;;;
  table <- get 1 m 16;;
  refuse (negb (table =? OFPTT_ALL) && (PIPELINE_TABLES <=? table)) (bad_request OFPBRC_BAD_TABLE_ID);;;
  port <- get 4 m 20;; group <- get 4 m 24;; cookie <- get 8 m 32;; mask <- get 8 m 40;;
  '(mt, len) <- ofl_structs_match_unpack (drop 48 m) (len - 32) addr;;
  Ok (FlowRequest table port group cookie mask mt, len).

Definition bad_request_port (port : Z) : bool := (port =? 0) || (OFPP_MAX <? port) && negb (port =? OFPP_ANY).
Definition ofl_msg_unpack_multipart_request_port (m : list Z) (len : Z) : res (mp_request * Z) :=
  refuse (len <? 8) bad_len;;;
  port <- get 4 m 16;;
  refuse (bad_request_port port) bad_len;;;
  Ok (Rq_port_stats port, len - 8).

(** The length is left as it is. *)
Definition ofl_msg_unpack_multipart_request_empty (r : mp_request) (len : Z) : res (mp_request * Z) := Ok (r, len).

Definition ofl_msg_unpack_multipart_request_table_features (m : list Z) (len : Z) : res (mp_request * Z) :=
  if len =? 0 then Ok (Rq_table_features None, len) else
  k <- ofl_utils_count_ofp_table_features (drop 16 m) len;;
  '(l, len) <- unpack_features k (drop 16 m) len;;
  Ok (Rq_table_features (Some l), len).

Definition ofl_msg_unpack_multipart_request_queue (m : list Z) (len : Z) : res (mp_request * Z) :=
  refuse (len <? 8) bad_len;;;
  port <- get 4 m 16;;
  refuse (bad_request_port port) bad_len;;;
  queue <- get 4 m 20;; Ok (Rq_queue port queue, len - 8).

Definition ofl_msg_unpack_multipart_request_group (m : list Z) (len : Z) : res (mp_request * Z) :=
  refuse (len <? 8) bad_len;;; group <- get 4 m 16;; Ok (Rq_group group, len - 8).
Definition ofl_msg_unpack_meter_multipart_request (m : list Z) (len : Z) : res (Z * Z) :=
  refuse (len <? 8) bad_len;;; meter <- get 4 m 16;; Ok (meter, len - 8).

Definition ofl_msg_unpack_multipart_request (m : list Z) (len : Z) : res (ofl_msg * Z) :=
  refuse (len <? 16) bad_len;;;
  let len := len - 16 in
  type <- get 2 m 8;;
  '(r, len) <-
    (if type =? 0 then ofl_msg_unpack_multipart_request_empty Rq_desc len
     else if type =? 1 then '(r, len) <- ofl_msg_unpack_multipart_request_flow m len;; Ok (Rq_flow r, len)
     else if type =? 2 then '(r, len) <- ofl_msg_unpack_multipart_request_flow m len;; Ok (Rq_aggregate r, len)
     else if type =? 3 then ofl_msg_unpack_multipart_request_empty Rq_table len
     else if type =? 12 then ofl_msg_unpack_multipart_request_table_features m len
     else if type =? 4 then ofl_msg_unpack_multipart_request_port m len
     else if type =? 5 then ofl_msg_unpack_multipart_request_queue m len
     else if type =? 6 then ofl_msg_unpack_multipart_request_group m len
     else if type =? 7 then ofl_msg_unpack_multipart_request_empty Rq_group_desc len
     else if type =? 8 then ofl_msg_unpack_multipart_request_empty Rq_group_features len
     else if type =? 9 then '(id, len) <- ofl_msg_unpack_meter_multipart_request m len;; Ok (Rq_meter id, len)
     else if type =? 10 then '(id, len) <- ofl_msg_unpack_meter_multipart_request m len;; Ok (Rq_meter_config id, len)
     else if type =? 11 then ofl_msg_unpack_multipart_request_empty Rq_meter_features len
     else if type =? 13 then ofl_msg_unpack_multipart_request_empty Rq_port_desc len
     else Err (bad_request OFPBRC_BAD_MULTIPART));;
  flags <- get 2 m 10;;
  Ok (M_multipart_request flags r, len).

(** ** Multipart replies *)

(** The memory of a string that is copied with its zero. *)
Definition get_string (m : list Z) (off : nat) : res (list Z) := s <- rd_string m off;; Ok (s ++ [0]).
Definition ofl_msg_unpack_reply_desc (m : list Z) (len : Z) : res (mp_reply * Z) :=
  refuse (len <? 1056) bad_len;;;
  mfr <- get_string m 16;; hw <- get_string m 272;; sw <- get_string m 528;; serial <- get_string m 784;; dp <- get_string m 816;;
  Ok (Rp_desc (Desc mfr hw sw serial dp), len - 1056).

(** The replies that are a number of items, of a size of their own or of the same size. *)
Definition items {A} (unp : list Z -> Z -> res (A * Z)) (next : list Z -> res Z) (count : list Z -> Z -> res nat)
    (m : list Z) (len : Z) : res (list A * Z) :=
  k <- count (drop 16 m) len;; unpack_seq unp next k (drop 16 m) len.
Definition fixed_items {A} (unp : list Z -> Z -> res (A * Z)) (size : Z) (count : Z -> Z) (m : list Z) (len : Z) : res (list A * Z) :=
  unpack_fixed unp size (count len) (drop 16 m) len.

Definition ofl_msg_unpack_multipart_reply_flow (m : list Z) (len : Z) : res (mp_reply * Z) :=
  '(l, len) <- items (ofl_structs_flow_stats_unpack junk addr at_) (fun m => get 2 m 0) ofl_utils_count_ofp_flow_stats m len;;
  Ok (Rp_flow l, len).
Definition ofl_msg_unpack_multipart_reply_aggregate (m : list Z) (len : Z) : res (mp_reply * Z) :=
  refuse (len <? 24) bad_len;;;
  packets <- get 8 m 16;; bytes <- get 8 m 24;; flows <- get 4 m 32;; Ok (Rp_aggregate packets bytes flows, len - 24).
Definition ofl_msg_unpack_multipart_reply_table (m : list Z) (len : Z) : res (mp_reply * Z) :=
  '(l, len) <- fixed_items ofl_structs_table_stats_unpack 24 ofl_utils_count_ofp_table_stats m len;; Ok (Rp_table l, len).
Definition ofl_msg_unpack_multipart_reply_port (m : list Z) (len : Z) : res (mp_reply * Z) :=
  '(l, len) <- fixed_items ofl_structs_port_stats_unpack 112 ofl_utils_count_ofp_port_stats m len;; Ok (Rp_port_stats l, len).
Definition ofl_msg_unpack_multipart_reply_queue (m : list Z) (len : Z) : res (mp_reply * Z) :=
  '(l, len) <- fixed_items ofl_structs_queue_stats_unpack 40 ofl_utils_count_ofp_queue_stats m len;; Ok (Rp_queue l, len).
Definition ofl_msg_unpack_multipart_reply_group (m : list Z) (len : Z) : res (mp_reply * Z) :=
  '(l, len) <- items ofl_structs_group_stats_unpack (fun m => get 2 m 0) ofl_utils_count_ofp_group_stats m len;; Ok (Rp_group l, len).
Definition ofl_msg_unpack_multipart_reply_group_desc (m : list Z) (len : Z) : res (mp_reply * Z) :=
  '(l, len) <- items (ofl_structs_group_desc_stats_unpack junk) (fun m => get 2 m 0) ofl_utils_count_ofp_group_desc_stats m len;;
  Ok (Rp_group_desc l, len).
Fixpoint get_words (n : nat) (m : list Z) (off : nat) : res (list Z) :=
  match n with O => Ok [] | S n => w <- get 4 m off;; ws <- get_words n m (off + 4);; Ok (w :: ws) end.
Definition ofl_msg_unpack_multipart_reply_group_features (m : list Z) (len : Z) : res (mp_reply * Z) :=
  refuse (len <? 40) bad_len;;;
  types <- get 4 m 16;; cap <- get 4 m 20;; groups <- get_words 4 m 24;; actions <- get_words 4 m 40;;
  Ok (Rp_group_features (GroupFeatures types cap groups actions), len - 40).
Definition ofl_msg_unpack_multipart_reply_table_features (m : list Z) (len : Z) : res (mp_reply * Z) :=
  k <- ofl_utils_count_ofp_table_features (drop 16 m) len;;
  '(l, len) <- unpack_features k (drop 16 m) len;; Ok (Rp_table_features l, len).
Definition ofl_msg_unpack_multipart_reply_meter_stats (m : list Z) (len : Z) : res (mp_reply * Z) :=
  '(l, len) <- items (ofl_structs_meter_stats_unpack junk) (fun m => get 2 m 4) ofl_utils_count_ofp_meter_stats m len;; Ok (Rp_meter l, len).
Definition unpack_meter_conf (m : list Z) (len : Z) : res (meter_conf * Z) :=
  '(flags, id, bands, len) <- ofl_structs_meter_config_unpack m len;; Ok (MeterConf flags id bands, len).
Definition ofl_msg_unpack_multipart_reply_meter_config (m : list Z) (len : Z) : res (mp_reply * Z) :=
  '(l, len) <- items unpack_meter_conf (fun m => get 2 m 0) ofl_utils_count_ofp_meter_config m len;; Ok (Rp_meter_config l, len).
Definition ofl_msg_unpack_multipart_reply_port_desc (m : list Z) (len : Z) : res (mp_reply * Z) :=
  '(l, len) <- fixed_items ofl_structs_port_unpack 64 ofl_utils_count_ofp_ports m len;; Ok (Rp_port_desc l, len).
Definition ofl_msg_unpack_multipart_reply_meter_features (m : list Z) (len : Z) : res (mp_reply * Z) :=
  refuse (len <? 16) bad_len;;;
  meters <- get 4 m 16;; types <- get 4 m 20;; cap <- get 4 m 24;; bands <- get 1 m 28;; color <- get 1 m 29;;
  Ok (Rp_meter_features (MeterFeatures meters types cap bands color), len - 16).

Definition ofl_msg_unpack_multipart_reply (m : list Z) (len : Z) : res (ofl_msg * Z) :=
  refuse (len <? 16) bad_len;;;
  let len := len - 16 in
  type <- get 2 m 8;;
  '(r, len) <-
    (if type =? 0 then ofl_msg_unpack_reply_desc m len
     else if type =? 1 then ofl_msg_unpack_multipart_reply_flow m len
     else if type =? 2 then ofl_msg_unpack_multipart_reply_aggregate m len
     else if type =? 3 then ofl_msg_unpack_multipart_reply_table m len
     else if type =? 12 then ofl_msg_unpack_multipart_reply_table_features m len
     else if type =? 4 then ofl_msg_unpack_multipart_reply_port m len
     else if type =? 5 then ofl_msg_unpack_multipart_reply_queue m len
     else if type =? 6 then ofl_msg_unpack_multipart_reply_group m len
     else if type =? 7 then ofl_msg_unpack_multipart_reply_group_desc m len
     else if type =? 8 then ofl_msg_unpack_multipart_reply_group_features m len
     else if type =? 9 then ofl_msg_unpack_multipart_reply_meter_stats m len
     else if type =? 10 then ofl_msg_unpack_multipart_reply_meter_config m len
     else if type =? 11 then ofl_msg_unpack_multipart_reply_meter_features m len
     else if type =? 13 then ofl_msg_unpack_multipart_reply_port_desc m len
     else Err (bad_request OFPBRC_BAD_MULTIPART));;
  flags <- get 2 m 10;;
  Ok (M_multipart_reply flags r, len).

(** ** Queue configuration *)

(** The length is compared with that of another structure, and no port is above the largest. *)
Definition ofl_msg_unpack_queue_get_config_request (m : list Z) (len : Z) : res (ofl_msg * Z) :=
  refuse (len <? 8) bad_len;;;
  port <- get 4 m 8;;
  refuse ((port =? 0) || (OFPP_ANY <? port)) (ofl_error OFPET_QUEUE_OP_FAILED OFPQOFC_BAD_PORT);;;
  Ok (M_queue_get_config_request port, u64 (len - 16)).

Definition ofl_msg_unpack_queue_get_config_reply (m : list Z) (len : Z) : res (ofl_msg * Z) :=
  refuse (len <? 16) bad_len;;;
  port <- get 4 m 8;;
  '(l, len) <- items ofl_structs_packet_queue_unpack (fun m => get 2 m 8) ofl_utils_count_ofp_packet_queues m (len - 16);;
  Ok (M_queue_get_config_reply port l, len).

(** ** Experimenter messages *)

Definition ofl_exp_openflow_msg_unpack (m : list Z) (len : Z) : res (exp_msg * Z) :=
  refuse (len <? 16) bad_len;;;
  subtype <- get 4 m 12;;
  if (subtype =? 0) || (subtype =? 1) then
    refuse (len <? 24) bad_len;;;
    port <- get 4 m 16;;
    '(q, len) <- ofl_structs_packet_queue_unpack (drop 24 m) (len - 24);;
    Ok (Exp_queue (subtype =? 1) port q, len)
  else if subtype =? 2 then
    refuse (len <? 272) bad_len;;;
    s <- get_string m 16;; Ok (Exp_set_desc s, len - 272)
  else Err (bad_request OFPBRC_BAD_EXPERIMENTER).

Definition ofl_exp_nicira_msg_unpack (m : list Z) (len : Z) : res (exp_msg * Z) :=
  refuse (len <? 16) bad_len;;;
  subtype <- get 4 m 12;;
  if (subtype =? 10) || (subtype =? 11) then
    refuse (len <? 20) bad_len;;;
    role <- get 4 m 16;; Ok (Exp_role (subtype =? 11) role, len - 20)
  else Err (bad_request OFPBRC_BAD_EXPERIMENTER).

Definition ofl_exp_msg_unpack (m : list Z) (len : Z) : res (exp_msg * Z) :=
  refuse (len <? 16) bad_len;;;
  vendor <- get 4 m 8;;
  if vendor =? OPENFLOW_VENDOR_ID then ofl_exp_openflow_msg_unpack m len
  else if vendor =? NX_VENDOR_ID then ofl_exp_nicira_msg_unpack m len
  else Err (bad_request OFPBRC_BAD_EXPERIMENTER).

(** ** All messages *)

Definition ofl_msg_unpack_empty (p : plain) (m : list Z) (len : Z) : res (ofl_msg * Z) := Ok (M_plain p, len - 8).
Definition unpack_exp (m : list Z) (len : Z) : res (ofl_msg * Z) := '(e, len) <- ofl_exp_msg_unpack m len;; Ok (M_experimenter e, len).

(** The function of a type of messages. *)
Definition unpack_as (type : Z) : option (list Z -> Z -> res (ofl_msg * Z)) :=
  match type with
  | 0 => Some (ofl_msg_unpack_empty HELLO)
  | 1 => Some ofl_msg_unpack_error
  | 2 => Some (ofl_msg_unpack_echo false)
  | 3 => Some (ofl_msg_unpack_echo true)
  | 4 => Some unpack_exp
  | 5 => Some (ofl_msg_unpack_empty FEATURES_REQUEST)
  | 6 => Some ofl_msg_unpack_features_reply
  | 7 => Some (ofl_msg_unpack_empty GET_CONFIG_REQUEST)
  | 8 => Some ofl_msg_unpack_get_config_reply
  | 9 => Some ofl_msg_unpack_set_config
  | 10 => Some ofl_msg_unpack_packet_in
  | 11 => Some ofl_msg_unpack_flow_removed
  | 12 => Some ofl_msg_unpack_port_status
  | 26 => Some (ofl_msg_unpack_empty GET_ASYNC_REQUEST)
  | 27 => Some (ofl_msg_unpack_async_config true)
  | 28 => Some (ofl_msg_unpack_async_config false)
  | 13 => Some ofl_msg_unpack_packet_out
  | 14 => Some ofl_msg_unpack_flow_mod
  | 15 => Some ofl_msg_unpack_group_mod
  | 16 => Some ofl_msg_unpack_port_mod
  | 17 => Some ofl_msg_unpack_table_mod
  | 18 => Some ofl_msg_unpack_multipart_request
  | 19 => Some ofl_msg_unpack_multipart_reply
  | 20 => Some (ofl_msg_unpack_empty BARRIER_REQUEST)
  | 21 => Some (ofl_msg_unpack_empty BARRIER_REPLY)
  | 24 => Some (ofl_msg_unpack_role_request false)
  | 25 => Some (ofl_msg_unpack_role_request true)
  | 22 => Some ofl_msg_unpack_queue_get_config_request
  | 23 => Some ofl_msg_unpack_queue_get_config_reply
  | 29 => Some ofl_msg_unpack_meter_mod
  | _ => None
  end.

(** The transaction id, when it was set, and the message with what is left of its length, which
    is only logged. *)
Definition ofl_msg_unpack (buf : list Z) : option Z * res (ofl_msg * Z) :=
  let len := Z.of_nat (length buf) in
  if len <? 8 then (Some 0, Err bad_len) else
  if negb (be_load (slice 0 1 buf) =? OFP_VERSION) then (None, Err (ofl_error OFPET_HELLO_FAILED 0)) else
  let xid := Some (be_load (slice 4 4 buf)) in
  if negb (len =? be_load (slice 2 2 buf)) then (xid, Err bad_len) else
  match unpack_as (be_load (slice 1 1 buf)) with
  | Some unpack => (xid, unpack buf len)
  | None => (xid, Err (bad_request OFPGMFC_BAD_TYPE))
  end.

End codec.
End MsgCodec.
