(* ===== verification/MsgWire.v ===== *)
(** Messages that are sent are received as they were (oflib/ofl-messages-pack.c and
    ofl-messages-unpack.c), and what happens to those that are not. *)
From S2P Require Import Prelude HMap Oxm OflTypes Wire ActCodec Meter Group Ports FlowTable StructCodec StructWire MatchWire MsgCodec.
Open Scope Z_scope.
Open Scope wire_scope.

Module MsgWire.
Import ActCodec StructCodec StructWire MsgCodec.

Section wire.
Context (junk : nat -> Z) (addr : Z) (at_ : positive).

(** * What is received *)

(** The flow statistics that are received for those that are sent: the fields of the match in
    some order, and the instructions in another array. *)
Definition same_flow (s s' : FlowTable.flow_stats) : Prop :=
  exists mt, same_match (FlowTable.fmatch s) mt /\
    s' = FlowTable.FStats (FlowTable.f_table_id s) (FlowTable.duration_sec s) (FlowTable.duration_nsec s) (FlowTable.priority s)
           (FlowTable.idle_timeout s) (FlowTable.hard_timeout s) (FlowTable.flags s) (FlowTable.cookie s) (FlowTable.packet_count s)
           (FlowTable.byte_count s) mt (FlowTable.Insts at_ (FlowTable.insts (FlowTable.instructions s))).
Definition same_request (r r' : flow_request) : Prop :=
  exists mt, same_match (rq_match r) mt /\
    r' = FlowRequest (rq_table_id r) (rq_out_port r) (rq_out_group r) (rq_cookie r) (rq_cookie_mask r) mt.

(** The memory of a description that is received: the string in the memory that was sent. *)
Definition as_string (n : nat) (mem : list Z) : list Z := match c_string (take n mem) with Some s => s ++ [0] | None => [] end.
Definition same_desc (d : desc) : desc :=
  Desc (as_string 256 (mfr_desc d)) (as_string 256 (hw_desc d)) (as_string 256 (sw_desc d)) (as_string 32 (serial_num d))
    (as_string 256 (dp_desc d)).

(** The message itself: two matches are the same when they have the same fields, in whatever
    order of the hash map, two arrays of instructions when they have the same instructions, and a
    text is what is before its zero. *)
Definition same_message (msg msg' : ofl_msg) : Prop :=
  match msg with
  | M_multipart_reply flags (Rp_desc d) => msg' = M_multipart_reply flags (Rp_desc (same_desc d))
  | M_packet_in p => exists mt, same_match (pi_match p) mt /\
      msg' = M_packet_in (PIn (pi_buffer_id p) (pi_total_len p) (pi_reason p) (pi_table_id p) (pi_cookie p) mt (pi_data p))
  | M_flow_mod f => exists mt, same_match (FlowTable.m_match f) mt /\
      msg' = M_flow_mod (FlowTable.FMod (FlowTable.m_cookie f) (FlowTable.m_cookie_mask f) (FlowTable.m_table_id f)
        (FlowTable.m_command f) (FlowTable.m_idle_timeout f) (FlowTable.m_hard_timeout f) (FlowTable.m_priority f)
        (FlowTable.m_buffer_id f) (FlowTable.m_out_port f) (FlowTable.m_out_group f) (FlowTable.m_flags f) mt
        (FlowTable.Insts at_ (FlowTable.insts (FlowTable.m_instructions f))))
  | M_multipart_request flags (Rq_flow r) => exists r', same_request r r' /\ msg' = M_multipart_request flags (Rq_flow r')
  | M_multipart_request flags (Rq_aggregate r) => exists r', same_request r r' /\ msg' = M_multipart_request flags (Rq_aggregate r')
  | M_multipart_reply flags (Rp_flow l) => exists l', Forall2 same_flow l l' /\ msg' = M_multipart_reply flags (Rp_flow l')
  | _ => msg' = msg
  end.

(** Of a flow-removed the hard timeout is taken for zero, the flags are those of memory that is not
    written, and there are no instructions. *)
Definition received (msg msg' : ofl_msg) : Prop :=
  match msg with
  | M_flow_removed r => let s := FlowTable.r_stats r in exists mt, same_match (FlowTable.fmatch s) mt /\
      msg' = M_flow_removed (FlowTable.FRemoved (FlowTable.reason r)
        (FlowTable.FStats (FlowTable.f_table_id s) (FlowTable.duration_sec s) (FlowTable.duration_nsec s) (FlowTable.priority s)
           (FlowTable.idle_timeout s) 0 (be_load (fresh junk 2)) (FlowTable.cookie s) (FlowTable.packet_count s)
           (FlowTable.byte_count s) mt (FlowTable.Insts at_ [])))
  | _ => same_message msg msg'
  end.


(** The requests whose match is not padded, and is taken for longer or shorter than it is. *)
Definition unpadded (msg : ofl_msg) : bool :=
  match msg with M_multipart_request _ (Rq_flow _) | M_multipart_request _ (Rq_aggregate _) => true | _ => false end.

(** A message that is packed, and that the function of its type takes apart after any header. *)
Definition carried (msg : ofl_msg) : Prop :=
  exists unp body, unpack_as junk addr at_ (msg_type msg) = Some unp /\ pack_body junk msg = Ok body /\
    forall h, length h = 8%nat -> 8 + length body < 2 ^ 16 ->
      exists msg' left, unp (h ++ body ++ []) (8 + length body) = Ok (msg', left) /\ received msg msg' /\
        (unpadded msg = false -> left = 0).

Lemma msg_type_fits msg : fits 1 (msg_type msg) = true.
Proof. destruct msg; try done; [by destruct p | by destruct reply ..]. Qed.

Lemma carried_roundtrip msg xid :
  carried msg -> fits 4 xid = true ->
  exists bs, ofl_msg_pack junk msg xid = Ok bs /\
    (length bs < 2 ^ 16 -> exists msg' left, ofl_msg_unpack junk addr at_ bs = (Some xid, Ok (msg', left)) /\ received msg msg' /\
       (unpadded msg = false -> left = 0)).
Proof.
  intros (unp & body & Eu & Ep & Hu) Hx. unfold ofl_msg_pack. rewrite Ep. cbn [rbind]. eexists. split; [reflexivity |]. intros Hl.
  assert (El : Z.of_nat (length (with_header (msg_type msg) xid body)) = 8 + length body) by (unfold with_header; autorewrite with wire; lia).
  rewrite El in Hl. destruct (Hu (be_store 1 OFP_VERSION ++ be_store 1 (msg_type msg) ++ be_store 2 (8 + length body) ++ be_store 4 xid))
    as (msg' & left' & E & R & L); [by autorewrite with wire | done |]. exists msg', left'. split; [| done].
  unfold ofl_msg_unpack. rewrite El. destruct (Z.ltb_spec (8 + length body) 8); [lia |]. rewrite app_nil_r, <- !app_assoc in E.
  assert (Hf : fits 2 (8 + length body) = true) by (apply range_fits; lia). pose proof (msg_type_fits msg) as Ht.
  assert (G : forall n off z, get n (with_header (msg_type msg) xid body) off = Ok z -> be_load (slice off n (with_header (msg_type msg) xid body)) = z)
    by (intros n off z Hg; by apply get_Ok in Hg as [_ ->]).
  rewrite (G 1%nat 0%nat OFP_VERSION), (G 4%nat 4%nat xid), (G 2%nat 2%nat (8 + length body)), (G 1%nat 1%nat (msg_type msg));
    [| unfold with_header; read_field ..].
  rewrite !Z.eqb_refl. cbn [negb]. rewrite Eu. f_equal. exact E.
Qed.

(** * Messages of fields *)

(** Begins a round trip: the function and the bytes are found by computation, the length is
    that of the fields. *)
Ltac begin_msg :=
  eexists _, _; split; [reflexivity |]; split; [reflexivity |]; intros h Hh Hb;
  match goal with |- context [8 + Z.of_nat (length ?b)] =>
    let n := fresh "n" in let E := fresh "En" in
    remember (8 + Z.of_nat (length b)) as n eqn:E; autorewrite with wire in E; rewrite ?Nat2Z.inj_add in E; cbn [Z.of_nat Z.add Pos.of_succ_nat Pos.succ Pos.add Pos.add_carry] in E
  end; rewrite <- ?app_assoc.
Ltac end_msg := first [reflexivity | do 2 f_equal; lia].














(** * Messages with lists *)


Lemma drop_past (a b : list Z) off k : length a = k -> (k <=? off)%nat = true -> drop off (a ++ b) = drop (off - k) b.
Proof. intros <- H. apply Nat.leb_le in H. by rewrite drop_app_ge. Qed.
(** Goes over the fields to an offset. *)
Ltac drop_to := repeat (erewrite drop_past; [| known_length | reflexivity]; cbn [Nat.sub]); rewrite drop_0.







(** * Messages with a match *)

(** The match with its padding, in a structure whose fields before it are a multiple of eight. *)
Lemma match_region_ok (k : Z) m :
  sendable m -> 0 <= k -> k mod 8 = 0 ->
  exists pad, match_region junk k m = Ok (ofl_structs_match_pack m ++ pad) /\
    Z.of_nat (length (ofl_structs_match_pack m ++ pad)) = ROUND_UP (mlength m + 4) 8 /\ ROUND_UP (k + 4 + mlength m) 8 = k + ROUND_UP (mlength m + 4) 8.
Proof.
  intros Hm Hk H8. pose proof (match_pack_length m Hm) as Hl. pose proof (sendable_length m Hm) as Hs.
  destruct (match_padding (mlength m)) as (P1 & P2 & _); [lia |].
  assert (R : ROUND_UP (k + 4 + mlength m) 8 = k + ROUND_UP (mlength m + 4) 8).
  { unfold ROUND_UP. rewrite !Z.quot_div_nonneg by lia. apply Z.mod_divide in H8 as [q ->]; [| lia].
    replace (q * 8 + 4 + mlength m + (8 - 1)) with (q * 8 + (mlength m + 4 + (8 - 1))) by lia. rewrite Z.div_add_l by lia. lia. }
  unfold match_region, match_space. rewrite R. replace (Z.to_nat (k + _ - k)) with (Z.to_nat (ROUND_UP (mlength m + 4) 8)) by (f_equal; lia).
  unfold region. destruct (Nat.leb_spec (length (ofl_structs_match_pack m)) (Z.to_nat (ROUND_UP (mlength m + 4) 8))); [| lia].
  eexists. split; [reflexivity |]. split; [| done]. unfold fresh. rewrite length_app, length_map, length_seq. lia.
Qed.









Definition flow_removed_ok (r : FlowTable.flow_removed) : Prop :=
  let s := FlowTable.r_stats r in
  fits 1 (FlowTable.reason r) && fits 8 (FlowTable.cookie s) && fits 2 (FlowTable.priority s) && fits 1 (FlowTable.f_table_id s) &&
  negb (PIPELINE_TABLES <=? FlowTable.f_table_id s) && fits 4 (FlowTable.duration_sec s) && fits 4 (FlowTable.duration_nsec s) &&
  fits 2 (FlowTable.idle_timeout s) && fits 8 (FlowTable.packet_count s) && fits 8 (FlowTable.byte_count s) = true /\
  sendable (FlowTable.fmatch s).

Lemma fresh_length n : length (fresh junk n) = n.
Proof. unfold fresh. by rewrite length_map, length_seq. Qed.

Lemma flow_removed_carried r : flow_removed_ok r -> carried (M_flow_removed r).
Proof.
  intros [Hf Hm]. split_fields. set (s := FlowTable.r_stats r) in *. destruct (match_region_ok 48 _ Hm) as (pad & E & Hl & HR); [lia | done |].
  unfold carried. cbn [pack_body]. unfold ofl_msg_pack_flow_removed. fold s. rewrite E. cbn [rbind]. begin_msg. rewrite length_app in Hl.
  rewrite fresh_length in En. pose proof (fresh_length 2) as Hj.
  destruct (match_roundtrip (FlowTable.fmatch s) (pad ++ []) (n - 48) addr Hm) as (mt & Em & Hs); [lia |].
  eexists (M_flow_removed (FlowTable.FRemoved _ (FlowTable.FStats _ _ _ _ _ _ _ _ _ _ mt _))), 0.
  split; [| split; [exists mt; split; [exact Hs | reflexivity] | done]].
  unfold ofl_msg_unpack_flow_removed. wire. drop_to. rewrite Em. cbn [rbind]. end_msg.
Qed.



(** * Multipart messages with a number of items *)















(** ** Requests *)





(** ** Replies *)















(** * Packet-outs *)







(** * Queues and experimenter messages *)








(** * All messages *)




(** What is received for a flow-removed. *)
Lemma flow_removed_received r xid :
  flow_removed_ok r -> fits 4 xid = true ->
  exists bs, ofl_msg_pack junk (M_flow_removed r) xid = Ok bs /\
    (length bs < 2 ^ 16 -> exists msg', ofl_msg_unpack junk addr at_ bs = (Some xid, Ok (msg', 0)) /\ received (M_flow_removed r) msg').
Proof.
  intros Hr Hx. destruct (carried_roundtrip _ xid (flow_removed_carried r Hr) Hx) as (bs & E & H). exists bs. split; [exact E |]. intros Hl.
  destruct (H Hl) as (msg' & left & U & R & L). exists msg'. by rewrite U, (L eq_refl).
Qed.


End wire.

(** * An example *)




End MsgWire.
