(* ===== verification/MsgSafe.v ===== *)
(** What the switch does with any bytes that it receives as a message (oflib/ofl-messages-unpack.c):
    when taking them apart ends, what an accepted message guarantees to the tables, and the
    messages that are mishandled. *)
From S2P Require Import Prelude HMap Oxm OflTypes Wire ActCodec Meter Group Ports FlowTable StructCodec StructWire MatchWire MsgCodec MsgWire.
Open Scope Z_scope.
Open Scope wire_scope.

Module MsgSafe.
Import ActCodec StructCodec StructWire MsgCodec.

(** * Ending *)

Definition ends {A} (c : res A) : Prop := c <> Loop.

Lemma ends_bind {A B} (c : res A) (k : A -> res B) : ends c -> (forall x, ends (k x)) -> ends (rbind c k).
Proof. unfold ends. destruct c; try done. intros _ H. apply H. Qed.
Lemma ends_get n m off : ends (get n m off).
Proof. unfold ends, get, rd. by destruct (off + n <=? length m)%nat. Qed.
Lemma ends_rd m off n : ends (rd m off n).
Proof. unfold ends, rd. by destruct (off + n <=? length m)%nat. Qed.
Lemma ends_refuse b e : ends (refuse b e).
Proof. by destruct b. Qed.
Lemma ends_copy m off len : ends (copy m off len).
Proof. unfold ends, copy. by destruct (off + len <=? length m). Qed.
Lemma ends_seq {A} (unp : list Z -> Z -> res (A * Z)) next count m len :
  (forall m len, ends (unp m len)) -> (forall m, ends (next m)) -> ends (unpack_seq unp next count m len).
Proof.
  intros Hu Hn. revert m len. induction count as [| count IH]; intros m len; [done |]. cbn [unpack_seq].
  apply ends_bind; [apply Hu |]. intros [a l]. apply ends_bind; [apply Hn |]. intros k. by apply ends_bind; [apply IH | intros []].
Qed.
Lemma ends_count_stats at_ low m len : 1 <= low -> ends (count_stats at_ low m len).
Proof. intros H. apply count_items_ends. intros k Hk. lia. Qed.
Lemma ends_string m off : ends (get_string m off).
Proof. unfold get_string, rd_string. by destruct (c_string (drop off m)). Qed.
Lemma ends_freed {A} (c : res A) : ends c -> ends (freed c).
Proof. by destruct c. Qed.

Create HintDb ends.
#[export] Hint Resolve ends_get ends_rd ends_refuse ends_copy ends_count_stats ends_string ends_freed : ends.

(** Goes through the steps of a function. *)
Ltac ends :=
  repeat first
    [ match goal with |- forall _, _ => intro end
    | solve [auto with ends lia]
    | apply ends_bind
    | apply ends_seq
    | match goal with |- ends (match ?x with _ => _ end) => destruct x end
    | match goal with |- ends (Ok _) => discriminate | |- ends (Err _) => discriminate | |- ends Oob => discriminate end ].

Section ends.
Context (junk : nat -> Z) (addr : Z) (at_ : positive).

Lemma action_ends m len : ends (ofl_actions_unpack junk m len).
Proof.
  unfold ofl_actions_unpack, unpack_output, unpack_num, unpack_push, unpack_group, unpack_set_field. ends.
Qed.
Lemma match_ends m len : ends (ofl_structs_match_unpack m len addr).
Proof. unfold ofl_structs_match_unpack. ends. Qed.
Lemma any_match_ends m len : ends (unpack_any_match addr m len).
Proof. unfold unpack_any_match. ends. Qed.
Lemma actions_ends k m len : ends (unpack_actions junk k m len).
Proof. unfold unpack_actions. apply ends_seq; [apply action_ends | ends]. Qed.
Lemma count_actions_ends m len : ends (ofl_utils_count_ofp_actions m len).
Proof. apply count_items_ends. intros; lia. Qed.
Lemma count_buckets_ends m len : ends (ofl_utils_count_ofp_buckets m len).
Proof. apply count_items_ends. intros; lia. Qed.
Lemma count_bands_ends m len : ends (ofl_utils_count_ofp_meter_bands m len).
Proof. apply count_items_ends. intros; lia. Qed.
Lemma count_props_ends m len : ends (ofl_utils_count_ofp_queue_props m len).
Proof. apply count_items_ends. intros; lia. Qed.
Hint Resolve match_ends any_match_ends actions_ends count_actions_ends count_buckets_ends count_bands_ends count_props_ends : ends.

Lemma buckets_ends type k m len : ends (unpack_buckets junk type k m len).
Proof. unfold unpack_buckets, ofl_structs_bucket_unpack. ends. Qed.
Lemma bands_ends k m len : ends (unpack_bands k m len).
Proof. unfold unpack_bands, ofl_structs_meter_band_unpack. ends. Qed.
Lemma port_ends m len : ends (ofl_structs_port_unpack m len).
Proof. unfold ofl_structs_port_unpack, rd_string. ends. Qed.
Lemma queue_ends m len : ends (ofl_structs_packet_queue_unpack m len).
Proof.
  unfold ofl_structs_packet_queue_unpack. ends. unfold queue_prop_or_not.
  assert (ends (ofl_structs_queue_prop_unpack m0 len0)) as H by (unfold ofl_structs_queue_prop_unpack; ends).
  destruct (ofl_structs_queue_prop_unpack m0 len0) as [[] | | |]; done.
Qed.
Hint Resolve buckets_ends bands_ends port_ends queue_ends : ends.
Lemma exp_ends m len : ends (unpack_exp m len).
Proof.
  unfold unpack_exp, ofl_exp_msg_unpack, ofl_exp_openflow_msg_unpack, ofl_exp_nicira_msg_unpack. ends.
Qed.
Hint Resolve exp_ends : ends.

(** ** Multiparts *)

Lemma fixed_items_end {A} (unp : list Z -> Z -> res (A * Z)) size count m len :
  (forall m len, ends (unp m len)) -> ends (fixed_items unp size count m len).
Proof. intros H. unfold fixed_items, unpack_fixed. by apply ends_seq. Qed.
Lemma items_end {A} (unp : list Z -> Z -> res (A * Z)) next count m len :
  (forall m len, ends (count m len)) -> (forall m len, ends (unp m len)) -> (forall m, ends (next m)) -> ends (items unp next count m len).
Proof. intros Hc Hu Hn. unfold items. apply ends_bind; [apply Hc | intros k; by apply ends_seq]. Qed.
Lemma words_end n m off : ends (get_words n m off).
Proof. revert off. induction n as [| n IH]; intros off; [done |]. cbn [get_words]. apply ends_bind; [apply ends_get |]. intros w. by apply ends_bind; [apply IH |]. Qed.
Lemma meter_conf_end m len : ends (unpack_meter_conf m len).
Proof. unfold unpack_meter_conf, ofl_structs_meter_config_unpack. ends. Qed.
Hint Resolve words_end meter_conf_end : ends.

Definition FLOW_REPLY : Z := 1.
Definition TABLE_FEATURES : Z := 12.
(** The messages with lists of instructions: flow-mods, features of tables, and replies with
    flow statistics. *)
Definition has_instructions (buf : list Z) : bool :=
  let type := be_load (slice 1 1 buf) in let part := be_load (slice 8 2 buf) in
  (type =? 14) || (type =? 18) && (part =? TABLE_FEATURES) || (type =? 19) && ((part =? FLOW_REPLY) || (part =? TABLE_FEATURES)).

Lemma request_ends m len : be_load (slice 8 2 m) <> TABLE_FEATURES -> ends (ofl_msg_unpack_multipart_request addr m len).
Proof.
  intros Ht. unfold ofl_msg_unpack_multipart_request. apply ends_bind; [apply ends_refuse |]. intros _. cbv zeta.
  destruct (get 2 m 8) as [t | | |] eqn:E; [| done | done | by apply ends_get in E]. apply get_Ok in E as [_ ->]. cbn [rbind].
  unfold TABLE_FEATURES in Ht. apply Z.eqb_neq in Ht. rewrite Ht. clear Ht.
  unfold ofl_msg_unpack_multipart_request_empty, ofl_msg_unpack_multipart_request_flow, ofl_msg_unpack_multipart_request_port,
    ofl_msg_unpack_multipart_request_queue, ofl_msg_unpack_multipart_request_group, ofl_msg_unpack_meter_multipart_request. ends.
Qed.

Lemma reply_ends m len :
  be_load (slice 8 2 m) <> FLOW_REPLY -> be_load (slice 8 2 m) <> TABLE_FEATURES -> ends (ofl_msg_unpack_multipart_reply junk addr at_ m len).
Proof.
  intros Hf Ht. unfold ofl_msg_unpack_multipart_reply. apply ends_bind; [apply ends_refuse |]. intros _. cbv zeta.
  destruct (get 2 m 8) as [t | | |] eqn:E; [| done | done | by apply ends_get in E]. apply get_Ok in E as [_ ->]. cbn [rbind].
  unfold FLOW_REPLY, TABLE_FEATURES in *. apply Z.eqb_neq in Hf, Ht. rewrite Hf, Ht. clear Hf Ht.
  unfold ofl_msg_unpack_reply_desc, ofl_msg_unpack_multipart_reply_aggregate, ofl_msg_unpack_multipart_reply_table,
    ofl_msg_unpack_multipart_reply_port, ofl_msg_unpack_multipart_reply_queue, ofl_msg_unpack_multipart_reply_group,
    ofl_msg_unpack_multipart_reply_group_desc, ofl_msg_unpack_multipart_reply_group_features, ofl_msg_unpack_multipart_reply_meter_stats,
    ofl_msg_unpack_multipart_reply_meter_config, ofl_msg_unpack_multipart_reply_port_desc, ofl_msg_unpack_multipart_reply_meter_features,
    ofl_structs_table_stats_unpack, ofl_structs_port_stats_unpack, ofl_structs_queue_stats_unpack, ofl_structs_group_stats_unpack,
    ofl_structs_group_desc_stats_unpack, ofl_structs_meter_stats_unpack, ofl_structs_bucket_counter_unpack, ofl_structs_meter_band_stats_unpack,
    unpack_fixed, ofl_utils_count_ofp_group_stats, ofl_utils_count_ofp_group_desc_stats, ofl_utils_count_ofp_meter_stats, ofl_utils_count_ofp_meter_config.
  ends.
  all: first [apply fixed_items_end | apply items_end]; ends.
Qed.

Lemma unpack_as_ends unp m len :
  unpack_as junk addr at_ (be_load (slice 1 1 m)) = Some unp -> has_instructions m = false -> ends (unp m len).
Proof.
  unfold has_instructions. cbv zeta. intros E H. remember (be_load (slice 1 1 m)) as type.
  assert (Ht : 0 <= type <= 29) by (destruct type as [| p | p]; [lia | | done]; repeat (destruct p as [p | p |]; try done); lia).
  assert (Hin : In type (map Z.of_nat (seq 0 30))) by (apply in_map_iff; exists (Z.to_nat type); split; [lia | apply in_seq; lia]). clear Ht Heqtype.
  cbv in Hin. repeat (destruct Hin as [<- | Hin]; [try done; injection E as <- |]); try done; cbn [Z.eqb Pos.eqb orb andb] in H.
  all: try (rewrite orb_false_r in H; apply request_ends; by apply Z.eqb_neq).
  all: try (apply orb_false_elim in H as [H1 H2]; apply reply_ends; by apply Z.eqb_neq).
  all: clear; unfold ofl_msg_unpack_empty, ofl_msg_unpack_error, ofl_msg_unpack_echo, ofl_msg_unpack_features_reply, ofl_msg_unpack_get_config_reply,
    ofl_msg_unpack_set_config, unpack_config, ofl_msg_unpack_packet_in, ofl_msg_unpack_flow_removed, ofl_msg_unpack_port_status, ofl_msg_unpack_async_config, get_pair,
    ofl_msg_unpack_packet_out, ofl_msg_unpack_group_mod, ofl_msg_unpack_port_mod, ofl_msg_unpack_table_mod, ofl_msg_unpack_role_request,
    ofl_msg_unpack_queue_get_config_request, ofl_msg_unpack_queue_get_config_reply, ofl_msg_unpack_meter_mod, items, ofl_utils_count_ofp_packet_queues.
  all: ends.
Qed.

End ends.

(** C20. No loop of taking a message apart goes on for ever, whatever the bytes of the message
    are, unless it is a flow-mod, has features of tables or is a reply with flow statistics: those have lists of
    instructions. Ending is not safety: it may be by a read outside of the message. *)
Theorem msg_unpack_ends junk addr at_ buf :
  snd (ofl_msg_unpack junk addr at_ buf) = Loop -> has_instructions buf = true.
Proof.
  unfold ofl_msg_unpack. intros H. destruct (has_instructions _) eqn:Ht; [done |]. exfalso. revert H.
  repeat match goal with |- context [if ?b then _ else _] => destruct b; [done |] end.
  destruct (unpack_as junk addr at_ _) eqn:E; [| done]. cbn [snd]. by apply (unpack_as_ends _ _ _ _ _ _ E).
Qed.

(** * What is accepted *)

Lemma seq_all {A} (P : A -> Prop) (unp : list Z -> Z -> res (A * Z)) next k : forall m len l len',
  bytes_ok m -> (forall m len a len', bytes_ok m -> unp m len = Ok (a, len') -> P a) ->
  unpack_seq unp next k m len = Ok (l, len') -> Forall P l /\ length l = k.
Proof.
  induction k as [| k IH]; intros m len l len' Hm HP H; cbn [unpack_seq] in H; [by injection H as <- _ |].
  destruct (unp m len) as [[a len1] | | |] eqn:Ea; [| done ..]. cbn [rbind] in H. destruct (next m) as [n | | |]; [| done ..]. cbn [rbind] in H.
  destruct (unpack_seq unp next k _ len1) as [[l1 len2] | | |] eqn:El; [| done ..]. injection H as <- _.
  destruct (IH _ _ _ _ (Forall_drop _ _ _ Hm) HP El) as [H1 H2]. split; [| cbn; lia]. constructor; [by eapply HP | done].
Qed.

Lemma count_bound more at_ low step e fuel : forall m len n k, count_ofp more at_ low step e fuel m len n = Ok k -> (k <= n + fuel)%nat.
Proof.
  induction fuel as [| fuel IH]; intros m len n k; cbn [count_ofp]; destruct (more len); try done; try (intros [= <-]; lia).
  destruct (get 2 m at_); [| done ..]. cbn [rbind]. destruct (refuse _ _); [| done ..]. cbn [rbind]. intros H. apply IH in H. lia.
Qed.

(** A bucket of a message: the weight is a short, the groups it names are numbers of groups. *)
Lemma bucket_decoded junk type m len b len' :
  bytes_ok m -> ofl_structs_bucket_unpack junk type m len = Ok (b, len') ->
  in_range 16 (weight b) /\ forall g, g ∈ Group.action_groups (b_actions b) -> 0 <= g <= OFPG_MAX.
Proof.
  intros Hm H. unfold ofl_structs_bucket_unpack in H. unstep. cbv zeta in H. unstep. destruct x8 as [acts blen]. unstep. injection H as <- _.
  cbn [weight b_actions]. split; [by apply (get_fits _ _ _ _ Hm), fits_range in E2 |]. intros g Hg.
  destruct (seq_all (fun a => act_ok a = true \/ exists f, a = Act_set_field f /\ swaps (header f) = None) _ _ _ _ _ _ _
    (Forall_drop _ 16 _ Hm) (actions_unpack_valid junk) E8) as [Ha _].
  unfold Group.action_groups in Hg. apply list_elem_of_In, in_flat_map in Hg as (a & Hin & Hg). rewrite Forall_forall in Ha.
  specialize (Ha a (proj2 (list_elem_of_In _ _) Hin)). destruct a; try done. destruct Hg as [<- | []]. destruct Ha as [Ha | (f & ? & _)]; [| done].
  cbn [act_ok] in Ha. apply split_ok in Ha as [H1 H2]. apply fits_range in H1. apply negb_true_iff, Z.ltb_ge in H2. unfold in_range in H1. lia.
Qed.

(** C21. What the group table relies on: a group-mod that is accepted has a command, a group number
    below the largest unless it deletes, weights that are shorts, buckets whose groups are numbers of
    groups, one bucket when it is indirect and none when it deletes. *)
Theorem group_mod_decoded junk m len g len' :
  bytes_ok m -> Z.of_nat (length m) < 2 ^ 16 -> ofl_msg_unpack_group_mod junk m len = Ok (M_group_mod g, len') ->
  Group.group_mod_ok g /\ 0 <= Group.gm_command g <= 2 /\
  (Group.gm_command g = OFPGC_DELETE -> Group.gm_buckets g = []) /\
  (Group.gm_type g = OFPGT_INDIRECT -> length (Group.gm_buckets g) = 1%nat).
Proof.
  intros Hm Hl H. unfold ofl_msg_unpack_group_mod in H. unstep. cbv zeta in H. unstep. destruct x9 as [bs l]. injection H as <- _.
  destruct (seq_all (fun b => in_range 16 (weight b) /\ forall g, g ∈ Group.action_groups (b_actions b) -> 0 <= g <= OFPG_MAX) _ _ _ _ _ _ _
    (Forall_drop _ 16 _ Hm) (bucket_decoded junk x2) E9) as [Hb Hk].
  pose proof E0 as Hc. pose proof E4 as Hi. apply (get_fits _ _ _ _ Hm), fits_range in Hc. apply (get_fits _ _ _ _ Hm), fits_range in Hi.
  apply Z.ltb_ge in E1. unfold in_range in *. cbn [Group.gm_command Group.gm_type Group.gm_buckets].
  split; [| split; [change OFPGC_DELETE with 2 in E1; lia | split]].
  - split; cbn [Group.gm_group_id Group.gm_command Group.gm_buckets].
    + lia.
    + apply andb_false_iff in E5 as [E5 | E5]; [left; by apply Z.ltb_ge in E5 |]. apply negb_false_iff, split_ok in E5 as [E5 _]. apply Z.eqb_eq in E5. by right.
    + unfold Group.weights_ok. eapply Forall_impl; [exact Hb | by intros ? []].
    + unfold ofl_utils_count_ofp_buckets, count_items in E6. apply count_bound in E6. rewrite length_drop in E6. lia.
    + intros g Hg. unfold Group.bucket_groups in Hg. apply list_elem_of_In, in_flat_map in Hg as (b & Hin & Hg). rewrite Forall_forall in Hb.
      apply (Hb b); by apply list_elem_of_In.
  - intros ->. cbn in E7. destruct bs; [done |]. cbn in Hk. subst. done.
  - intros ->. cbn in E8. apply negb_false_iff, Nat.eqb_eq in E8. lia.
Qed.

(** * Messages that are mishandled *)


(** An accepted header, an empty match, and zeros. *)
Definition hang_message : list Z :=
  [4; 14; 0; 64; 0; 0; 0; 9] ++ zeros 40 ++ [0; 1; 0; 4] ++ zeros 12.

Lemma msg_unpack_ends_witness : has_instructions hang_message = true.
Proof. apply (msg_unpack_ends (fun _ => 0) 0 1 hang_message). by vm_compute. Defined.

Lemma put_ok mem off bs : (off + length bs <= length mem)%nat -> put mem off bs = Ok (patch off bs mem).
Proof. intros H. unfold put. by destruct (Nat.leb_spec (off + length bs) (length mem)); [| lia]. Qed.
Lemma take_patch_after n off bs mem : (n <= off)%nat -> (off <= length mem)%nat -> take n (patch off bs mem) = take n mem.
Proof. intros H H'. unfold patch. rewrite take_app_le by (rewrite length_take; lia). rewrite take_take. f_equal. lia. Qed.
Lemma take_patch_here bs mem : take (length bs) (patch 0 bs mem) = bs.
Proof. unfold patch. rewrite take_0, app_nil_l. apply take_app_length. Qed.

(** The value of a set-field of a packet-out is written over the number of the buffer at the
    start of the message, and not into the action. *)
Theorem packet_out_set_field junk buffer port h v data :
  act_ok (Act_set_field (TLV h v)) = true -> Z.of_nat (length data) < 2 ^ 32 ->
  exists body, ofl_msg_pack_packet_out junk (POut buffer port [Act_set_field (TLV h v)] data) = Ok body /\
    take (length v) body = field_bytes junk h v.
Proof.
  intros Ha Hd. pose proof Ha as Ha'. cbn [act_ok] in Ha'. apply split_ok in Ha' as [Ha' _].
  apply split_ok in Ha' as [Ha' H0]. apply split_ok in Ha' as [_ H1]. apply Z.eqb_eq in H0. apply bool_decide_eq_true in H1 as [sw Hs].
  pose proof (swaps_length h sw Hs) as Hn. destruct (round_up_bound (OXM_LENGTH h)) as [Hr _]; [lia |].
  set (n := OXM_LENGTH h) in *. set (r := ROUND_UP n 8) in *.
  unfold ofl_msg_pack_packet_out. cbn [po_actions po_buffer_id po_in_port po_data].
  assert (Ht : ofl_actions_ofp_total_len [Act_set_field (TLV h v)] = 8 + r).
  { unfold ofl_actions_ofp_total_len. cbn [fold_left ofl_actions_ofp_len header]. fold n r. apply wrap_small. unfold in_range. lia. }
  rewrite Ht. cbv zeta. rewrite wrap_small by (unfold in_range; lia).
  set (mem0 := fresh junk _). assert (L0 : Z.of_nat (length mem0) = 24 + r + length data) by (unfold mem0; rewrite MsgWire.fresh_length; lia).
  rewrite put_ok by (autorewrite with wire; lia). cbn [rbind]. set (mem1 := patch 0 _ mem0).
  assert (L1 : length mem1 = length mem0) by (apply patch_length; autorewrite with wire; lia).
  unfold put_actions, put_action. cbn [header value act_type]. fold n. fold r. cbv zeta. rewrite put_ok by (autorewrite with wire; lia). cbn [rbind].
  set (mem2 := patch 16 _ mem1). assert (L2 : length mem2 = length mem1) by (apply patch_length; autorewrite with wire; lia).
  rewrite Hs. replace (Z.to_nat n) with (length v) by lia. rewrite take_ge by lia. rewrite put_ok by (rewrite in_order_length; lia). cbn [rbind].
  set (mem3 := patch 0 _ mem2). assert (L3 : length mem3 = length mem2) by (apply patch_length; rewrite in_order_length; lia).
  rewrite put_ok by (autorewrite with wire; lia). cbn [rbind]. set (mem4 := patch (length v) _ mem3).
  assert (L4 : length mem4 = length mem3) by (apply patch_length; autorewrite with wire; lia).
  rewrite wrap_small by (unfold in_range; lia). rewrite put_ok by lia. eexists. split; [reflexivity |].
  rewrite take_patch_after by lia. unfold mem4. rewrite take_patch_after by lia. unfold mem3. rewrite <- (in_order_length sw v) at 1.
  rewrite take_patch_here. unfold field_bytes. fold n. rewrite Hs. replace (Z.to_nat n) with (length v) by lia. by rewrite take_ge by lia.
Qed.

(** A packet-out that sets the destination address to 2:0:0:0:0:1. *)
Lemma packet_out_set_field_witness :
  exists body, ofl_msg_pack_packet_out (fun _ => 0) (POut 77 1 [Act_set_field (TLV OXM_OF_ETH_DST [2; 0; 0; 0; 0; 1])] []) = Ok body /\
    take 6 body = [2; 0; 0; 0; 0; 1].
Proof. apply (packet_out_set_field (fun _ => 0) 77 1 OXM_OF_ETH_DST [2; 0; 0; 0; 0; 1] []); [by vm_compute | done]. Defined.

(** A group-mod of the example. *)
Definition demo_group_message : list Z :=
  [4; 15; 0; 48; 0; 0; 0; 1; 0; 0; 2; 0; 0; 0; 0; 9; 0; 32; 0; 0; 255; 255; 255; 255; 255; 255; 255; 255; 0; 0; 0; 0;
   0; 0; 0; 16; 0; 0; 0; 3; 0; 0; 0; 0; 0; 0; 0; 0].
Lemma group_mod_decoded_witness :
  exists g, ofl_msg_unpack_group_mod (fun _ => 0) demo_group_message 48 = Ok (M_group_mod g, 0) /\
    Group.group_mod_ok g /\ 0 <= Group.gm_command g <= 2 /\ (Group.gm_command g = OFPGC_DELETE -> Group.gm_buckets g = []) /\
    (Group.gm_type g = OFPGT_INDIRECT -> length (Group.gm_buckets g) = 1%nat).
Proof.
  exists (Group.GMod 0 2 9 [Bucket 0 0xffffffff 0xffffffff [Act_output 3 0]]). split; [by vm_compute |].
  apply (group_mod_decoded (fun _ => 0) demo_group_message 48 _ 0); [| done | by vm_compute].
  unfold bytes_ok, in_range. apply (bool_decide_unpack _). by vm_compute.
Defined.

End MsgSafe.
