(* ===== verification/Datapath.v ===== *)
(** The state of the whole datapath (udatapath/datapath.h) and the computations on it:
    the packets that are allocated, the packet buffers, the flow tables with the groups
    and meters, the ports, the messages to the controllers and the globals of eHDDP. *)
From S2P Require Import Prelude HMap Oxm OflTypes MatchStd ActionSet Buffers Meter Group Ofpbuf Packet FlowTable.
From S2P Require Import DpActions Ports MacTable.
Open Scope Z_scope.

Module Datapath.

(** What the code around the datapath answers: the parser, the contents and addresses
    of new memory, the devices, the clock of the wall, and what [qsort] makes of an array of
    instructions: the comparison it is given is not one C asks for, so nothing is known of the order. *)
Class Env := {
  env_parser :: Packet.Parser;
  junk : nat -> Z;
  garbage_headers : Packet.protocols_std;
  garbage_miss : bool;
  malloc : nat -> Z;
  netdev_send : list Ports.frame -> Ports.portref -> Z -> list Z -> bool;
  device_of : string -> Ports.device;
  in4_of : string -> option Z;
  current_timestamp : Z;
  qsort : (ofl_instruction -> ofl_instruction -> Z) -> list ofl_instruction -> list ofl_instruction;
}.

(** A message to the controllers. [OFPT_PACKET_IN] has the bytes that go on the wire. *)
Inductive message :=
  | PacketIn (total_len reason table_id cookie buffer_id : Z) (data : list Z) (m : ofl_match)
  | PortStatus (p : Ports.port_status).

(** The globals of the eHDDP code (udatapath/udatapath.c). *)
Record ehddp := Ehddp {
  mac_heap : MacTable.heap; bt_table : MacTable.mac_to_port; learning_table : MacTable.mac_to_port;
  port_to_controller : Z; old_local_port : Z; old_local_port_MAC : list Z; time_no_move_local_port : Z;
  local_port_ok : bool; type_device_general : Z; ip_de_control_in_band : Z; ip_del_controlller : Z;
  time_start : Z; time_exploration : Z; convergence_time : Z; time_init_local_port : Z;
  num_pkt_ehddp_req : Z; num_pkt_ehddp_rep : Z; num_pkt_arp_req : Z; num_pkt_arp_rep : Z }.

Section state.
Context {G M : Type}.

(** [struct datapath] with the store of its packets. *)
Record datapath := DP {
  dp_id : Z; clock : Z; miss_send_len : Z; mallocs : nat; next_pkt : Buffers.pktref;
  packets : gmap Buffers.pktref Packet.packet; dp_buffers : Buffers.dp_buffers;
  tables : list FlowTable.flow_table; world : FlowTable.world G M; ports : Ports.ports;
  messages : list message; eh : ehddp }.

Definition with_mallocs (s : datapath) (n : nat) : datapath :=
  DP (dp_id s) (clock s) (miss_send_len s) n (next_pkt s) (packets s) (dp_buffers s) (tables s) (world s)
    (ports s) (messages s) (eh s).
Definition with_packets (s : datapath) (r : Buffers.pktref) (m : gmap Buffers.pktref Packet.packet) : datapath :=
  DP (dp_id s) (clock s) (miss_send_len s) (mallocs s) r m (dp_buffers s) (tables s) (world s)
    (ports s) (messages s) (eh s).
Definition with_buffers (s : datapath) (b : Buffers.dp_buffers) (m : gmap Buffers.pktref Packet.packet) : datapath :=
  DP (dp_id s) (clock s) (miss_send_len s) (mallocs s) (next_pkt s) m b (tables s) (world s)
    (ports s) (messages s) (eh s).
Definition with_tables (s : datapath) (t : list FlowTable.flow_table) (w : FlowTable.world G M) : datapath :=
  DP (dp_id s) (clock s) (miss_send_len s) (mallocs s) (next_pkt s) (packets s) (dp_buffers s) t w
    (ports s) (messages s) (eh s).
Definition with_ports (s : datapath) (p : Ports.ports) : datapath :=
  DP (dp_id s) (clock s) (miss_send_len s) (mallocs s) (next_pkt s) (packets s) (dp_buffers s) (tables s) (world s)
    p (messages s) (eh s).
Definition with_message (s : datapath) (m : message) : datapath :=
  DP (dp_id s) (clock s) (miss_send_len s) (mallocs s) (next_pkt s) (packets s) (dp_buffers s) (tables s) (world s)
    (ports s) (messages s ++ [m]) (eh s).
Definition with_ehddp (s : datapath) (e : ehddp) : datapath :=
  DP (dp_id s) (clock s) (miss_send_len s) (mallocs s) (next_pkt s) (packets s) (dp_buffers s) (tables s) (world s)
    (ports s) (messages s) e.

(** [time_msec()] and [time_now()] are read from one clock. *)
Definition time_msec (s : datapath) : Z := clock s.
Definition time_now (s : datapath) : Z := clock s / 1000.

(** * Computations *)

(** A computation ends with a result, or reads or writes memory that is not there
    ([Fault]), or has not ended when its fuel does ([Fuel]). *)
Inductive outcome (A : Type) := Done (x : A) | Fault | Fuel.
Arguments Done {A}. Arguments Fault {A}. Arguments Fuel {A}.

Definition run (A : Type) : Type := datapath -> outcome (A * datapath).

Definition ret {A} (x : A) : run A := fun s => Done (x, s).
Definition bind {A B} (c : run A) (k : A -> run B) : run B :=
  fun s => match c s with Done (x, s') => k x s' | Fault => Fault | Fuel => Fuel end.
Definition fault {A} : run A := fun _ => Fault.
Definition out_of_fuel {A} : run A := fun _ => Fuel.
Definition gets {A} (f : datapath -> A) : run A := fun s => Done (f s, s).
Definition modify (f : datapath -> datapath) : run () := fun s => Done (tt, f s).
Definition lift {A} (x : option A) : run A := fun s => match x with Some y => Done (y, s) | None => Fault end.
Definition when (b : bool) (c : run ()) : run () := if b then c else ret tt.

End state.
Arguments datapath : clear implicits.
Arguments outcome : clear implicits.
Arguments Done {A}. Arguments Fault {A}. Arguments Fuel {A}.

Declare Scope run_scope.
Delimit Scope run_scope with run.
Notation "x <- c ;; k" := (bind c (fun x => k)) (at level 62, c at next level, right associativity,
  format "x  <-  c ;;  '/' k") : run_scope.
Notation "' p <- c ;; k" := (bind c (fun x => let p := x in k)) (at level 62, p strict pattern,
  c at next level, right associativity) : run_scope.
Notation "c ;;; k" := (bind c (fun _ => k)) (at level 62, right associativity, format "c ;;;  '/' k") : run_scope.
Open Scope run_scope.

Section memory.
Context {G M : Type} `{!Env}.
Abbreviation Run := (run (G := G) (M := M)).

(** ** Packets *)

Definition get_pkt (r : Buffers.pktref) : Run Packet.packet := fun s =>
  match packets s !! r with Some p => Done (p, s) | None => Fault end.

Definition put_pkt (r : Buffers.pktref) (p : Packet.packet) : Run () := fun s =>
  match packets s !! r with
  | Some _ => Done (tt, with_packets s (next_pkt s) (<[r := p]> (packets s)))
  | None => Fault
  end.

Definition edit_pkt (r : Buffers.pktref) (f : Packet.packet -> Packet.packet) : Run () :=
  p <- get_pkt r;; put_pkt r (f p).

Definition alloc_pkt (p : Packet.packet) : Run Buffers.pktref := fun s =>
  let r := next_pkt s in
  Done (r, with_packets s (Pos.succ r) (<[r := p]> (packets s))).

(** The address of the next block of memory. *)
Definition fresh_addr : Run Z := fun s => Done (malloc (mallocs s), with_mallocs s (S (mallocs s))).

Definition packet_create (port : Z) (buf : Ofpbuf.ofpbuf) (out : bool) : Run Buffers.pktref :=
  alloc_pkt (Packet.packet_create port buf out garbage_headers garbage_miss).

Definition packet_clone (r : Buffers.pktref) : Run Buffers.pktref :=
  p <- get_pkt r;; a <- fresh_addr;;
  c <- lift (Packet.packet_clone junk p a garbage_headers garbage_miss);;
  alloc_pkt c.

Definition packet_destroy (r : Buffers.pktref) : Run () := fun s =>
  match Buffers.packet_destroy (dp_buffers s) (packets s) r (time_now s) with
  | Some (b, st) => Done (tt, with_buffers s b st)
  | None => Fault
  end.

Definition dp_buffers_save (r : Buffers.pktref) : Run () := fun s =>
  match Buffers.dp_buffers_save (dp_buffers s) (packets s) r (time_now s) with
  | Some (b, st, _) => Done (tt, with_buffers s b st)
  | None => Fault
  end.

Definition dp_buffers_retrieve (id : Z) : Run (option Buffers.pktref) := fun s =>
  match Buffers.dp_buffers_retrieve (dp_buffers s) (packets s) id with
  | Some (b, st, r) => Done (r, with_buffers s b st)
  | None => Fault
  end.

Definition dp_send_message (m : message) : Run () := modify (fun s => with_message s m).

(** The [n] bytes at an address of the packet, as an integer of the host. *)
Definition rd (r : Buffers.pktref) (addr : Z) (n : nat) : Run Z :=
  p <- get_pkt r;; bs <- lift (Ofpbuf.load (Packet.buffer p) addr n);; ret (le_load bs).
Definition rd_bytes (r : Buffers.pktref) (addr : Z) (n : nat) : Run (list Z) :=
  p <- get_pkt r;; lift (Ofpbuf.load (Packet.buffer p) addr n).
Definition wr_bytes (r : Buffers.pktref) (addr : Z) (bs : list Z) : Run () :=
  p <- get_pkt r;; b <- lift (Ofpbuf.store (Packet.buffer p) addr bs);;
  put_pkt r (Packet.with_buffer p b).

(** ** Ports *)

Definition dp_ports_output (buf : list Z) (port queue : Z) : Run () :=
  modify (fun s => with_ports s (Ports.dp_ports_output netdev_send (ports s) buf port queue)).

Definition dp_ports_output_all (buf : list Z) (in_port : Z) (flood : bool) : Run () := fun s =>
  match Ports.dp_ports_output_all netdev_send (ports s) buf in_port flood with
  | Some ps => Done (tt, with_ports s ps)
  | None => Fault
  end.

End memory.

End Datapath.
