(* ===== verification/Forward.v ===== *)
(** Forwarding a packet: action lists and output (udatapath/dp_actions.c), action sets
    (action_set.c) and groups (group_entry.c, group_table.c). A packet that is sent back to
    the tables and a group that is reached through an action are arguments of the
    functions that call them; the groups are tied together with fuel. *)
From S2P Require Import Prelude HMap Oxm OflTypes MatchStd ActionSet Buffers Meter Group Ofpbuf Packet FlowTable.
From S2P Require Import DpActions Ports MacTable Datapath.
Open Scope Z_scope.

Module Forward.
Import Datapath.

Definition OFPR_NO_MATCH : Z := 0.
Definition OFPR_ACTION : Z := 1.
Definition OFPCML_NO_BUFFER : Z := 0xffff.
(** The cookie of a packet that no flow sent. *)
Definition NO_COOKIE : Z := 0xffffffffffffffff.

Section forward.
Context {G M : Type} `{!IdTable G Group.group_entry} `{!IdTable M Meter.meter_entry} `{!Env}.
Abbreviation Run := (run (G := G) (M := M)).
Abbreviation pktref := Buffers.pktref.

Definition dp_execute_action (r : pktref) (a : ofl_action) : Run () :=
  p <- get_pkt r;; at_ <- fresh_addr;;
  p' <- lift (DpActions.dp_execute_action junk p a at_);;
  put_pkt r p'.

Section output.
(** [pipeline_process_packet] on a copy of the packet. *)
Context (resubmit : pktref -> Run ()).

(** The message of [OFPP_CONTROLLER]: [max_len] bytes and the buffer, or the whole packet. *)
Definition output_controller (r : pktref) (max_len cookie : Z) : Run () :=
  miss <- gets miss_send_len;;
  when (negb (miss =? OFPCML_NO_BUFFER)) (dp_buffers_save r);;;
  edit_pkt r (fun p => if Packet.valid (Packet.handle_std p) then p else Packet.packet_handle_std_validate p);;;
  p <- get_pkt r;;
  let size := Ofpbuf.size (Packet.buffer p) in
  let len := if miss =? OFPCML_NO_BUFFER then size else Z.min max_len size in
  dp_send_message
    (PacketIn size (if Packet.table_miss (Packet.handle_std p) then OFPR_NO_MATCH else OFPR_ACTION)
       (Packet.table_id p) cookie
       (if miss =? OFPCML_NO_BUFFER then Buffers.NO_BUFFER else Packet.buffer_id p)
       (take (Z.to_nat len) (Ofpbuf.bytes (Packet.buffer p))) (Packet.hmatch (Packet.handle_std p))).

(** [send_packet_to_controller] (pipeline.c) *)
Definition send_packet_to_controller (r : pktref) (table_id reason : Z) : Run () :=
  miss <- gets miss_send_len;;
  when (negb (miss =? OFPCML_NO_BUFFER)) (dp_buffers_save r);;;
  p <- get_pkt r;;
  let size := Ofpbuf.size (Packet.buffer p) in
  let len := if miss =? OFPCML_NO_BUFFER then size else Z.min miss size in
  dp_send_message
    (PacketIn size reason table_id NO_COOKIE
       (if miss =? OFPCML_NO_BUFFER then Buffers.NO_BUFFER else Packet.buffer_id p)
       (take (Z.to_nat len) (Ofpbuf.bytes (Packet.buffer p))) (Packet.hmatch (Packet.handle_std p))).

Definition dp_actions_output_port (r : pktref) (out_port out_queue max_len cookie : Z) : Run () :=
  p <- get_pkt r;;
  let buf := Ofpbuf.bytes (Packet.buffer p) in
  if out_port =? OFPP_TABLE then
    if Packet.packet_out p then
      c <- packet_clone r;;
      edit_pkt c (fun p => Packet.with_packet_out p false);;;
      resubmit c
    else ret tt
  else if out_port =? OFPP_IN_PORT then dp_ports_output buf (Packet.in_port p) 0
  else if out_port =? OFPP_CONTROLLER then output_controller r max_len cookie
  else if (out_port =? OFPP_FLOOD) || (out_port =? OFPP_ALL)
  then dp_ports_output_all buf (Packet.in_port p) (out_port =? OFPP_FLOOD)
  else dp_ports_output buf out_port out_queue.

(** [group_table_execute] *)
Context (execute_group : pktref -> Z -> Run ()).

(** What an action left to do: a group, on a copy of the packet, or an output. *)
Definition after_action (r : pktref) (cookie : Z) : Run () :=
  p <- get_pkt r;;
  if negb (Packet.out_group p =? OFPG_ANY) then
    put_pkt r (Packet.with_out p OFPG_ANY (Packet.out_port p) (Packet.out_port_max_len p));;;
    c <- packet_clone r;;
    execute_group c (Packet.out_group p)
  else if negb (Packet.out_port p =? OFPP_ANY) then
    put_pkt r (Packet.with_out_queue (Packet.with_out p (Packet.out_group p) OFPP_ANY 0) 0);;;
    dp_actions_output_port r (Packet.out_port p) (Packet.out_queue p) (Packet.out_port_max_len p) cookie
  else ret tt.

Fixpoint dp_execute_action_list (r : pktref) (actions : list ofl_action) (cookie : Z) : Run () :=
  match actions with
  | [] => ret tt
  | a :: rest =>
      dp_execute_action r a;;;
      after_action r cookie;;;
      dp_execute_action_list r rest cookie
  end.

(** The loop of [action_set_execute]: each entry is executed and leaves the set. *)
Fixpoint run_set (r : pktref) (l : list ActionSet.action_set_entry) : Run () :=
  match l with
  | [] => ret tt
  | e :: rest =>
      dp_execute_action r (ActionSet.action e);;;
      edit_pkt r (fun p => Packet.with_action_set p rest);;;
      run_set r rest
  end.

(** [action_set_execute] takes the packet over. *)
Definition action_set_execute (r : pktref) (cookie : Z) : Run () :=
  p <- get_pkt r;;
  run_set r (Packet.action_set p);;;
  edit_pkt r (fun p => Packet.with_action_set p (ActionSet.action_set_clear_actions (Packet.action_set p)));;;
  p <- get_pkt r;;
  if negb (Packet.out_group p =? OFPG_ANY) then
    put_pkt r (Packet.with_out p OFPG_ANY (Packet.out_port p) (Packet.out_port_max_len p));;;
    execute_group r (Packet.out_group p)
  else if negb (Packet.out_port p =? OFPP_ANY) then
    put_pkt r (Packet.with_out_queue (Packet.with_out p (Packet.out_group p) OFPP_ANY 0) 0);;;
    dp_actions_output_port r (Packet.out_port p) (Packet.out_queue p) (Packet.out_port_max_len p) cookie;;;
    packet_destroy r
  else packet_destroy r.

End output.

(** * Groups *)

Section groups.
(** [action_set_execute] *)
Context (execute_set : pktref -> Z -> Run ()).

(** The writes through the pointer to the group. *)
Definition edit_group (id : Z) (f : Group.group_entry -> Group.group_entry) : Run () :=
  modify (fun s => with_tables s (tables s) (FlowTable.update_group (world s) id f)).

(** The actions of bucket [i] go into the set of the packet, and the set is executed. *)
Definition execute_bucket (id : Z) (i : nat) (b : ofl_bucket) (r : pktref) : Run () :=
  edit_pkt r (fun p => Packet.with_action_set p
    (ActionSet.action_set_write_actions (Packet.action_set p) (b_actions b)));;;
  p <- get_pkt r;;
  edit_group id (fun e => Group.count_bucket e i (Ofpbuf.size (Packet.buffer p)));;;
  execute_set r NO_COOKIE.

Fixpoint execute_all_loop (id : Z) (i : nat) (bs : list ofl_bucket) (r : pktref) : Run () :=
  match bs with
  | [] => ret tt
  | b :: bs => c <- packet_clone r;; execute_bucket id i b c;;; execute_all_loop id (S i) bs r
  end.

Definition execute_all (id : Z) (e : Group.group_entry) (r : pktref) : Run () :=
  execute_all_loop id 0 (Group.buckets (Group.desc e)) r;;; packet_destroy r.

(** The bucket with a number, or none. *)
Definition execute_chosen (id : Z) (e : Group.group_entry) (b : Z) (r : pktref) : Run () :=
  if negb (b =? Group.NO_BUCKET) then
    bucket <- lift (Group.buckets (Group.desc e) !! Z.to_nat b);;
    execute_bucket id (Z.to_nat b) bucket r
  else packet_destroy r.

Definition with_wrr (e : Group.group_entry) (d : Group.wrr_data) : Group.group_entry :=
  Group.GEntry (Group.desc e) (Group.stats e) (Group.g_created e) (Some d) (Group.flow_refs e).

Definition execute_select (id : Z) (e : Group.group_entry) (r : pktref) : Run () :=
  d <- lift (Group.data e);;
  let '(d', b) := Group.select_from_select_group (Group.buckets (Group.desc e)) d in
  edit_group id (fun e => with_wrr e d');;;
  execute_chosen id e b r.

Definition execute_indirect (id : Z) (e : Group.group_entry) (r : pktref) : Run () :=
  match Group.buckets (Group.desc e) with
  | b :: _ => execute_bucket id 0 b r
  | [] => packet_destroy r
  end.

(** The configuration and state of a port, for the liveness of a bucket. *)
Definition port_config_state (ps : Ports.ports) (no : Z) : option (Z * Z) :=
  ref ← Ports.dp_ports_lookup ps no; p ← Ports.port_at ps ref;
  Some (Ports.config (Ports.conf p), Ports.state (Ports.conf p)).

Definition execute_ff (id : Z) (e : Group.group_entry) (r : pktref) : Run () :=
  ps <- gets ports;;
  b <- lift (Group.select_from_ff_group (port_config_state ps) (Group.buckets (Group.desc e)));;
  execute_chosen id e b r.

Definition group_entry_execute (id : Z) (e : Group.group_entry) (r : pktref) : Run () :=
  let type := Group.g_type (Group.desc e) in
  if type =? Group.OFPGT_ALL then execute_all id e r
  else if type =? Group.OFPGT_SELECT then execute_select id e r
  else if type =? Group.OFPGT_INDIRECT then execute_indirect id e r
  else if type =? Group.OFPGT_FF then execute_ff id e r
  else packet_destroy r.

End groups.

(** [group_table_execute]; an unknown group leaves the packet allocated. [resubmit] is for the
    outputs of the buckets, the fuel bounds the depth of groups within groups. *)
Fixpoint group_table_execute (resubmit : pktref -> Run ()) (fuel : nat) (r : pktref) (id : Z) : Run () :=
  w <- gets world;;
  match Group.group_table_find (FlowTable.groups w) id with
  | None => ret tt
  | Some e =>
      match fuel with
      | O => out_of_fuel
      | S fuel =>
          group_entry_execute (action_set_execute resubmit (group_table_execute resubmit fuel)) id e r
      end
  end.

(** * Meters *)

(** The remark of the DSCP of a packet, as [meter_entry_apply] does it. *)
Definition remark (p : Packet.packet) (prec_level : Z) : option Packet.packet :=
  let p := Packet.packet_handle_std_validate p in
  if negb (Packet.valid (Packet.handle_std p)) then Some p
  else
    let b := Packet.buffer p in
    let pr := Packet.proto (Packet.handle_std p) in
    b' ← (if negb (Packet.ipv4 pr =? 0) then
            ihl ← Ofpbuf.load b (Packet.ipv4 pr) 1;
            tos ← Ofpbuf.load b (Packet.ipv4 pr + 1) 1;
            csum ← Ofpbuf.load b (Packet.ipv4 pr + 10) 2;
            let h := Meter.remark_ipv4 (Meter.IPv4 (le_load ihl) (le_load tos) (le_load csum)) prec_level in
            b1 ← Ofpbuf.store b (Packet.ipv4 pr + 10) (le_store 2 (Meter.ip_csum h));
            Ofpbuf.store b1 (Packet.ipv4 pr + 1) (le_store 1 (Meter.ip_tos h))
          else if negb (Packet.ipv6 pr =? 0) then
            w ← Ofpbuf.load b (Packet.ipv6 pr) 4;
            Ofpbuf.store b (Packet.ipv6 pr) (le_store 4 (Meter.remark_ipv6 (le_load w) prec_level))
          else Some b);
    Some (Packet.with_valid (Packet.with_buffer p b') false).

(** [meter_table_apply]: whether the packet is still there. *)
Definition meter_table_apply (r : pktref) (meter_id : Z) : Run bool :=
  p <- get_pkt r;;
  w <- gets world;;
  '(t, p', drop) <- lift (Meter.meter_table_apply (fun p => Ofpbuf.size (Packet.buffer p)) remark
                            (FlowTable.meters w) p meter_id);;
  modify (fun s => with_tables s (tables s) (FlowTable.with_meters (world s) t));;;
  put_pkt r p';;;
  if drop : bool then packet_destroy r;;; ret false else ret true.

End forward.

End Forward.
