(* ===== verification/Ehddp.v ===== *)
(** The eHDDP protocol of the switch: its packets (udatapath/packet.c), the exploration and
    the replies, the choice of the local port, and the forwarding of ARP and unknown
    unicast frames by learning (pipeline.c, dp_ports.c). *)
From S2P Require Import Prelude HMap Oxm OflTypes MatchStd ActionSet Buffers Meter Group Ofpbuf Packet FlowTable.
From S2P Require Import DpActions Ports MacTable Datapath Forward.
Open Scope Z_scope.

Module Ehddp.
Import Datapath Forward.

Definition ETH_TYPE_EHDDP : Z := 0xffaa.
Definition ETH_TYPE_EHDDP_INV : Z := 0xaaff.
Definition ETH_TYPE_CHANGE_LOCAL_PORT : Z := 0xffbb.
Definition ETH_TYPE_ARP : Z := 0x0806.
Definition ETH_TYPE_ARP_INV : Z := 0x0608.
Definition EHDDP_MAX_ELEMENTS : Z := 31.
Definition NODO_NO_SDN : Z := 2.
Definition NODO_SDN_CONFIG : Z := 3.
Definition BT_TIME_PKT : Z := 4500.
Definition LT_TIME : Z := 4500.
Definition Time_wait_local_port : Z := 3.
Definition LEN_EHDDP_PORT_PKT : nat := 47.
(** [sizeof(struct eth_header) + sizeof(struct ehddp_header)] *)
Definition LEN_EHDDP_REPLY : nat := 14 + 631.

(** The offsets in [struct eth_header], [struct ehddp_header] and [struct arp_eth_header]. *)
Definition eth_dst : Z := 0.
Definition eth_src : Z := 6.
Definition eth_type : Z := 12.
Definition opcode : Z := 1.
Definition num_devices : Z := 2.
Definition num_sec : Z := 3.
Definition previous_size_mac : Z := 11.
Definition nxt_mac : Z := 12.
Definition num_ack : Z := 18.
Definition last_mac : Z := 26.
Definition src_mac : Z := 32.
Definition time_block : Z := 38.
(** The arrays of 31 elements: after [configurations] and [type_devices]. *)
Definition ids : Z := 135.
Definition ar_op : Z := 6.
Definition ar_spa : Z := 14.
Definition ar_tpa : Z := 24.

(** * The globals *)

(** The fields of [ehddp], one by one. *)
Definition with_tables_of (e : ehddp) (h : MacTable.heap) (bt lt : MacTable.mac_to_port) : ehddp :=
  Ehddp h bt lt (port_to_controller e) (old_local_port e) (old_local_port_MAC e) (time_no_move_local_port e)
    (local_port_ok e) (type_device_general e) (ip_de_control_in_band e) (ip_del_controlller e) (time_start e)
    (time_exploration e) (convergence_time e) (time_init_local_port e) (num_pkt_ehddp_req e)
    (num_pkt_ehddp_rep e) (num_pkt_arp_req e) (num_pkt_arp_rep e).
Definition with_local (e : ehddp) (to_ctl old : Z) (mac : list Z) (no_move : Z) (ok : bool) (init : Z) : ehddp :=
  Ehddp (mac_heap e) (bt_table e) (learning_table e) to_ctl old mac no_move
    ok (type_device_general e) (ip_de_control_in_band e) (ip_del_controlller e) (time_start e)
    (time_exploration e) (convergence_time e) init (num_pkt_ehddp_req e)
    (num_pkt_ehddp_rep e) (num_pkt_arp_req e) (num_pkt_arp_rep e).
Definition with_times (e : ehddp) (start explo conv : Z) : ehddp :=
  Ehddp (mac_heap e) (bt_table e) (learning_table e) (port_to_controller e) (old_local_port e)
    (old_local_port_MAC e) (time_no_move_local_port e) (local_port_ok e) (type_device_general e)
    (ip_de_control_in_band e) (ip_del_controlller e) start explo conv (time_init_local_port e)
    (num_pkt_ehddp_req e) (num_pkt_ehddp_rep e) (num_pkt_arp_req e) (num_pkt_arp_rep e).
(** The four counters are [int]. *)
Definition count_pkt (e : ehddp) (req rep arp_req arp_rep : Z) : ehddp :=
  Ehddp (mac_heap e) (bt_table e) (learning_table e) (port_to_controller e) (old_local_port e)
    (old_local_port_MAC e) (time_no_move_local_port e) (local_port_ok e) (type_device_general e)
    (ip_de_control_in_band e) (ip_del_controlller e) (time_start e) (time_exploration e)
    (convergence_time e) (time_init_local_port e) (num_pkt_ehddp_req e + req)
    (num_pkt_ehddp_rep e + rep) (num_pkt_arp_req e + arp_req) (num_pkt_arp_rep e + arp_rep).

Section ehddp.
Context {G M : Type} `{!IdTable G Group.group_entry} `{!IdTable M Meter.meter_entry} `{!Env}.
Abbreviation Run := (run (G := G) (M := M)).
Abbreviation pktref := Buffers.pktref.

Definition edit_ehddp (f : ehddp -> ehddp) : Run () := modify (fun s => with_ehddp s (f (eh s))).

(** ** The two tables of addresses *)

Inductive which := BT | LT.
Definition table_of (w : which) (e : ehddp) : MacTable.mac_to_port :=
  match w with BT => bt_table e | LT => learning_table e end.
Definition set_table (w : which) (e : ehddp) (h : MacTable.heap) (t : MacTable.mac_to_port) : ehddp :=
  match w with BT => with_tables_of e h t (learning_table e) | LT => with_tables_of e h (bt_table e) t end.

Definition table_add (w : which) (mac : list Z) (port time nsec : Z) : Run () :=
  s <- gets id;;
  '(h, t, _) <- lift (MacTable.mac_to_port_add (mac_heap (eh s)) (table_of w (eh s)) mac (u16 port)
                       (signed 32 time) nsec (time_msec s));;
  edit_ehddp (fun e => set_table w e h t).

Definition table_update (w : which) (mac : list Z) (port time nsec : Z) : Run () :=
  s <- gets id;;
  '(h, _) <- lift (MacTable.mac_to_port_update (mac_heap (eh s)) (table_of w (eh s)) mac (u16 port)
                    (signed 32 time) nsec (time_msec s));;
  edit_ehddp (fun e => set_table w e h (table_of w e)).

Definition table_refresh (w : which) (mac : list Z) (time nsec : Z) : Run () :=
  s <- gets id;;
  '(h, _) <- lift (MacTable.mac_to_port_time_refresh (mac_heap (eh s)) (table_of w (eh s)) mac time nsec
                    (time_msec s));;
  edit_ehddp (fun e => set_table w e h (table_of w e)).

Definition table_port (w : which) (mac : list Z) (nsec : Z) : Run Z :=
  s <- gets id;;
  lift (MacTable.mac_to_port_found_port (mac_heap (eh s)) (table_of w (eh s)) mac nsec (time_msec s)).

(** ** The headers of a packet *)

Definition headers (r : pktref) : Run Packet.protocols_std :=
  p <- get_pkt r;; ret (Packet.proto (Packet.handle_std p)).
Definition eth_at (r : pktref) (off : Z) : Run Z := h <- headers r;; ret (Packet.eth h + off).
Definition ehddp_at (r : pktref) (off : Z) : Run Z := h <- headers r;; ret (Packet.ehddp h + off).
Definition arp_at (r : pktref) (off : Z) : Run Z := h <- headers r;; ret (Packet.arp h + off).
Definition rd_eth_type (r : pktref) : Run Z := a <- eth_at r eth_type;; rd r a 2.
Definition rd_eth_mac (r : pktref) (off : Z) : Run (list Z) := a <- eth_at r off;; rd_bytes r a 6.
Definition rd_ehddp (r : pktref) (off : Z) (n : nat) : Run Z := a <- ehddp_at r off;; rd r a n.
Definition rd_ehddp_mac (r : pktref) (off : Z) : Run (list Z) := a <- ehddp_at r off;; rd_bytes r a 6.
Definition rd_arp (r : pktref) (off : Z) (n : nat) : Run Z := a <- arp_at r off;; rd r a n.

Definition is_ehddp_type (t : Z) : bool := (t =? ETH_TYPE_EHDDP) || (t =? ETH_TYPE_EHDDP_INV).
Definition is_arp_type (t : Z) : bool := (t =? ETH_TYPE_ARP) || (t =? ETH_TYPE_ARP_INV).
Definition eth_addr_is_multicast (ea : list Z) : bool := negb (Z.land (nth 0 ea 0) 1 =? 0).
Definition eth_addr_is_broadcast (ea : list Z) : bool :=
  fold_left Z.land ea 0xff =? 0xff.

(** * Packets *)

(** [ofpbuf_put] on the buffer of the packet: the buffer may move. *)
Definition put_bytes (r : pktref) (bs : list Z) : Run () :=
  p <- get_pkt r;; a <- fresh_addr;;
  '(b, _) <- lift (Ofpbuf.ofpbuf_put junk (Packet.buffer p) bs a);;
  put_pkt r (Packet.with_buffer p b).

Fixpoint put_all (r : pktref) (chunks : list (list Z)) : Run () :=
  match chunks with [] => ret tt | c :: rest => put_bytes r c;;; put_all r rest end.

(** The same for a buffer that is not yet in a packet. *)
Fixpoint fill (b : Ofpbuf.ofpbuf) (chunks : list (list Z)) : Run Ofpbuf.ofpbuf :=
  match chunks with
  | [] => ret b
  | c :: rest => a <- fresh_addr;; '(b, _) <- lift (Ofpbuf.ofpbuf_put junk b c a);; fill b rest
  end.

(** The record of one device: its configuration, type, identifier and ports. *)
Definition hop (type_device id in_port out_port : Z) : list (list Z) :=
  [[0x7f]; le_store 2 (htons type_device); le_store 8 (MacTable.bigtolittle64 id);
   le_store 4 (htonl in_port); le_store 4 (htonl out_port)].

(** [type_device] of this switch. *)
Definition own_type (e : ehddp) : Z :=
  if (type_device_general e =? 1) || (type_device_general e =? 3) then NODO_SDN_CONFIG else NODO_NO_SDN.

(** The bytes of a reply; the numbers are as they were in the request. *)
Definition reply_chunks (id : Z) (mac_dst : list Z) (in_port out_port type_device num_device sec ack block : Z) : list (list Z) :=
  let device_mac := Ports.eth_addr_from_uint64 id in
  [mac_dst; device_mac; le_store 2 (MacTable.bigtolittle16 ETH_TYPE_EHDDP);
   [0x01]; [0x02]; [u8 num_device]; le_store 8 sec; [0x06]; mac_dst; le_store 8 ack; device_mac; device_mac;
   le_store 4 block] ++ hop type_device id in_port out_port.

(** [create_ehddp_reply_packet]. The two headers are memory of their own that nothing reads. *)
Definition create_ehddp_reply_packet (mac_dst : list Z) (in_port out_port type_device num_device sec ack block : Z) : Run pktref :=
  dpid <- gets dp_id;; a <- fresh_addr;;
  buf <- fill (Ofpbuf.ofpbuf_new junk LEN_EHDDP_REPLY a)
           (reply_chunks dpid mac_dst in_port out_port type_device num_device sec ack block);;
  r <- packet_create in_port buf false;;
  e <- fresh_addr;; h <- fresh_addr;;
  edit_pkt r (fun p =>
    let hd := Packet.handle_std p in
    let pr := Packet.proto hd in
    let pr := Packet.Protocols e (Packet.eth_snap pr) (Packet.vlan pr) (Packet.vlan_last pr) (Packet.mpls pr)
                (Packet.pbb pr) (Packet.ipv4 pr) (Packet.ipv6 pr) (Packet.arp pr) (Packet.tcp pr) (Packet.udp pr)
                (Packet.sctp pr) (Packet.icmp pr) h (Packet.ehddp_notify pr) in
    Packet.packet_handle_std_validate
      (Packet.with_handle p (Packet.Handle pr (Packet.hmatch hd) (Packet.valid hd) (Packet.table_miss hd))));;;
  ret r.

(** The loop of [num_repetido]: how many of the identifiers from index [i] are this switch's. *)
Fixpoint repeated_loop (r : pktref) (i : Z) (n : nat) (id : Z) : Run Z :=
  match n with
  | O => ret 0
  | S n =>
      x <- rd_ehddp r (ids + 8 * i) 8;;
      k <- repeated_loop r (i + 1) n id;;
      ret ((if x =? id then 1 else 0) + k)
  end.

Definition num_repetido (r : pktref) : Run Z :=
  n <- rd_ehddp r num_devices 1;; id <- gets dp_id;; repeated_loop r 0 (Z.to_nat n) id.

(** Where the next address comes from: bytes of the caller or the packet itself. *)
Inductive mac_source := Own (bs : list Z) | InPacket (addr : Z).
Definition read_source (r : pktref) (m : mac_source) : Run (list Z) :=
  match m with Own bs => ret bs | InPacket a => rd_bytes r a 6 end.

(** [update_data_msg] adds the record of this switch. The header pointers are those from
    before the buffer grew. *)
Definition update_data_msg (r : pktref) (out_port : Z) (nxt : mac_source) : Run Z :=
  n <- rd_ehddp r num_devices 1;;
  let num_elements := u16 (n + 1) in
  rep <- (if EHDDP_MAX_ELEMENTS <? num_elements then ret 1 else num_repetido r);;
  if 0 <? u16 rep then ret num_elements
  else
    dpid <- gets dp_id;; e <- gets eh;; p <- get_pkt r;;
    let out_port := if 255 <? out_port then 255 else out_port in
    put_all r (hop (own_type e) dpid (Packet.in_port p) out_port);;;
    op <- rd_ehddp r opcode 1;;
    when (op =? 2) (m <- read_source r nxt;; a <- eth_at r eth_dst;; wr_bytes r a m);;;
    a <- ehddp_at r num_devices;; wr_bytes r a [u8 num_elements];;;
    a <- ehddp_at r previous_size_mac;; wr_bytes r a [0x06];;;
    a <- ehddp_at r last_mac;; wr_bytes r a (Ports.eth_addr_from_uint64 dpid);;;
    m <- read_source r nxt;; a <- ehddp_at r nxt_mac;; wr_bytes r a m;;;
    edit_pkt r (fun p => Packet.packet_handle_std_validate (Packet.with_valid (Packet.with_packet_out p false) false));;;
    ret 0.

(** The bytes of the message about a new local port. The address is read as 16 bytes from
    a variable of 4: the rest is what lies behind it. *)
Definition string_bytes (s : string) : list Z := map (fun c => Z.of_nat (Ascii.nat_of_ascii c)) (String.list_ascii_of_string s).

Definition local_port_chunks (ip port : Z) (port_name : string) (mac : list Z) (old time : Z) : list (list Z) :=
  [repeat 0xff 6; mac; le_store 2 (MacTable.bigtolittle16 ETH_TYPE_CHANGE_LOCAL_PORT); le_store 4 port;
   [u8 (length (string_bytes port_name))]; string_bytes port_name;
   le_store 4 ip ++ map junk (seq 0 12); mac; le_store 4 old; le_store 8 time].

(** [create_ehddp_new_localport_packet_UAH] *)
Definition create_ehddp_new_localport_packet_UAH (port : Z) (port_name : string) (mac : list Z) (old time : Z) : Run pktref :=
  e <- gets eh;; a <- fresh_addr;;
  buf <- fill (Ofpbuf.ofpbuf_new junk LEN_EHDDP_PORT_PKT a)
           (local_port_chunks (ip_de_control_in_band e) port port_name mac old time);;
  packet_create port buf false.

(** [send_new_localport_packet_UAH]; the packet stays allocated. *)
Definition send_new_localport_packet_UAH (port : Z) (port_name : string) (mac : list Z) (old time : Z) : Run () :=
  r <- create_ehddp_new_localport_packet_UAH port port_name mac old time;;
  edit_pkt r (fun p => if Packet.valid (Packet.handle_std p) then p else Packet.packet_handle_std_validate p);;;
  p <- get_pkt r;;
  dp_send_message
    (PacketIn (Ofpbuf.size (Packet.buffer p)) OFPR_ACTION (Packet.table_id p) NO_COOKIE Buffers.NO_BUFFER
       (Ofpbuf.bytes (Packet.buffer p)) (Packet.hmatch (Packet.handle_std p))).

(** * The local port *)

Definition notify_ports (l : list Ports.port_status) : Run () :=
  fold_left (fun c m => c;;; dp_send_message (PortStatus m)) l (ret tt).

(** [dp_ports_add_local] with the message about the new port. *)
Definition dp_ports_add_local (netdev_name : string) : Run Z :=
  s <- gets id;;
  let '(ps, err, mac, out) := Ports.dp_ports_add_local (ports s) (dp_id s) netdev_name (time_msec s)
                                (device_of netdev_name) (old_local_port_MAC (eh s)) in
  modify (fun s => with_ports s ps);;;
  edit_ehddp (fun e => with_local e (port_to_controller e) (old_local_port e) mac (time_no_move_local_port e)
                         (local_port_ok e) (time_init_local_port e));;;
  notify_ports out;;;
  if err =? 0 then
    edit_ehddp (fun e => with_local e (port_to_controller e) (old_local_port e) (old_local_port_MAC e)
                           (time_no_move_local_port e) (local_port_ok e) (time_msec s));;;
    send_new_localport_packet_UAH OFPP_LOCAL netdev_name (Ports.eth_addr_from_uint64 (dp_id s))
      (old_local_port (eh s)) (time_msec s);;;
    ret 0
  else ret err.

(** [configure_new_local_port_ehddp_UAH]: the port that was configured, 0 or -1. *)
Definition configure_new_local_port_ehddp_UAH (mac : list Z) (old time : Z) : Run Z :=
  s <- gets id;;
  match MacTable.inicio (bt_table (eh s)) with
  | None => ret (-1)
  | Some l =>
      c <- lift (mac_heap (eh s) !! l);;
      match Ports.dp_ports_lookup (ports s) (MacTable.port_in (MacTable.ent c)) with
      | None => ret 0
      | Some ref =>
          p <- lift (Ports.port_at (ports s) ref);;
          let conf := Ports.conf p in
          err <- dp_ports_add_local (Ports.name conf);;
          if negb (err =? 0) then ret 0
          else match in4_of (Ports.name conf) with
               | None => ret 0
               | Some _ =>
                   send_new_localport_packet_UAH (Ports.port_no conf) (Ports.name conf) mac old time;;;
                   ret (signed 32 (Ports.port_no conf))
               end
      end
  end.

(** The loop of [ehddp_mod_local_port] over the ports: whether the local port could not be
    configured. In that case a local port that was made is freed while the datapath and its
    list of ports still refer to it, which is a [Fault] here. *)
Fixpoint local_port_loop (r : pktref) (in_port : Z) (l : list Ports.portref) : Run bool :=
  match l with
  | [] => ret false
  | ref :: l =>
      s <- gets id;;
      p <- lift (Ports.port_at (ports s) ref);;
      if in_port =? Ports.port_no (Ports.conf p) then
        match Ports.local_port (ports s) with
        | Some _ => ret false
        | None =>
            sec <- rd_ehddp r num_sec 8;;
            res <- configure_new_local_port_ehddp_UAH (Ports.eth_addr_from_uint64 (dp_id s))
                     (old_local_port (eh s)) (MacTable.bigtolittle64 sec);;
            if res =? 0 then
              ps <- gets ports;;
              match Ports.local_port ps with Some _ => fault | None => ret true end
            else
              edit_ehddp (fun e => with_local e (port_to_controller e) (u32 res) (old_local_port_MAC e)
                                     (time_no_move_local_port e) (local_port_ok e) (time_init_local_port e));;;
              ps <- gets ports;;
              '(_, out) <- lift (Ports.dp_ports_handle_port_mod_UAH ps (Ports.port_no (Ports.conf p)));;
              notify_ports out;;;
              edit_ehddp (fun e => with_local e (port_to_controller e) (old_local_port e) (old_local_port_MAC e)
                                     (time_no_move_local_port e) false (time_init_local_port e));;;
              ret false
        end
      else local_port_loop r in_port l
  end.

(** Whether the local port may be moved again. *)
Definition may_move (now no_move : Z) : bool :=
  (no_move =? 0) || (u64 (now + Time_wait_local_port) <? no_move).

(** [ehddp_mod_local_port]: 1 for the first copy of a request, 0 for another, 255 when the
    local port could not be configured. *)
Definition ehddp_mod_local_port (r : pktref) : Run Z :=
  t <- rd_eth_type r;; dpid <- gets dp_id;;
  if is_ehddp_type t && ((1 <? dpid) && (dpid <? 1000)) then
    op <- rd_ehddp r opcode 1;;
    if op =? 1 then
      edit_ehddp (fun e => count_pkt e 1 0 0 0);;;
      mac <- rd_ehddp_mac r src_mac;; sec <- rd_ehddp r num_sec 8;; p <- get_pkt r;;
      blk <- rd_ehddp r time_block 4;;
      result <- table_port BT mac sec;;
      if result <=? 0 then
        edit_ehddp (fun e => with_local e (signed 32 (Packet.in_port p)) (old_local_port e) (old_local_port_MAC e)
                               (time_no_move_local_port e) (local_port_ok e) (time_init_local_port e));;;
        (if result =? -1 then table_add BT mac (Packet.in_port p) (htonl blk) sec
         else table_update BT mac (Packet.in_port p) (htonl blk) sec);;;
        s <- gets id;;
        if negb (type_device_general (eh s) =? 2) && may_move (time_msec s) (time_no_move_local_port (eh s)) then
          failed <- local_port_loop r (Packet.in_port p) (Ports.port_list (ports s));;
          if failed : bool then ret 255
          else
            edit_ehddp (fun e => with_local e (port_to_controller e) (old_local_port e) (old_local_port_MAC e)
                                   (u64 (time_msec s + Time_wait_local_port)) (local_port_ok e) (time_init_local_port e));;;
            ret 1
        else ret 1
      else table_add BT mac (Packet.in_port p) (htonl blk) sec;;; ret 0
    else ret 0
  else ret 0.

(** * Requests and replies *)

Section sending.
Context (resubmit : pktref -> Run ()).
Abbreviation output := (dp_actions_output_port resubmit).

(** [creator_ehddp_reply_packets] *)
Definition creator_ehddp_reply_packets (r : pktref) : Run () :=
  e <- gets eh;; p <- get_pkt r;;
  mac <- rd_eth_mac r eth_src;; sec <- rd_ehddp r num_sec 8;;
  ack <- rd_ehddp r num_ack 8;; blk <- rd_ehddp r time_block 4;;
  reply <- create_ehddp_reply_packet mac (Packet.in_port p) (Packet.in_port p) (own_type e) 1 sec ack blk;;
  output reply (Packet.in_port p) (Packet.out_queue p) (Packet.out_port_max_len p) NO_COOKIE;;;
  edit_ehddp (fun e => count_pkt e 0 1 0 0);;;
  packet_destroy reply.

(** [handle_ehddp_request_packets]: the first copy goes on, another is answered. *)
Definition handle_ehddp_request_packets (r : pktref) (resent : Z) : Run () :=
  ps <- gets ports;;
  num_ports <- lift (Ports.num_port_available ps);;
  p <- get_pkt r;;
  blk <- rd_ehddp r time_block 4;;
  (if resent =? 1 then
     mac <- rd_eth_mac r eth_src;; sec <- rd_ehddp r num_sec 8;;
     table_update BT mac (Packet.in_port p) (htonl blk) sec
   else ret tt);;;
  if (num_ports =? 1) || (resent =? 0) then creator_ehddp_reply_packets r
  else if resent =? 1 then
    c <- packet_clone r;;
    send_packet_to_controller r (Packet.table_id p) OFPR_NO_MATCH;;;
    packet_destroy c;;;
    a <- ehddp_at r nxt_mac;;
    update_data_msg r OFPP_FLOOD (InPacket a);;;
    p <- get_pkt r;;
    output r OFPP_FLOOD (Packet.out_queue p) (Packet.out_port_max_len p) NO_COOKIE
  else ret tt.

(** [handle_ehddp_reply_packets]: the reply goes on to where the request came from. *)
Definition handle_ehddp_reply_packets (r : pktref) : Run () :=
  nxt <- rd_ehddp_mac r nxt_mac;; sec <- rd_ehddp r num_sec 8;;
  out_port <- table_port BT nxt sec;;
  if out_port <? 1 then ret tt
  else
    s <- gets id;;
    '(pos, mac) <- lift (MacTable.mac_to_port_found_mac_position (mac_heap (eh s)) (bt_table (eh s)) 1 (time_msec s));;
    if pos <? 0 then ret tt
    else
      n <- update_data_msg r out_port (Own (match mac with Some m => m | None => repeat 0 6 end));;
      if n =? 0 then
        p <- get_pkt r;;
        output r out_port (Packet.out_queue p) (Packet.out_port_max_len p) NO_COOKIE;;;
        edit_ehddp (fun e => count_pkt e 0 1 0 0)
      else ret tt.

(** The times of the exploration. [current_timestamp() - time_start] is unsigned, [abs] takes
    an [int]. *)
Definition exploration_times (e : ehddp) (sec now : Z) : ehddp :=
  if (time_start e =? 0) || (sec =? time_start e) then
    let start := MacTable.bigtolittle64 sec in
    with_times e start now (u64 (Z.abs (signed 32 (u64 (now - start)))))
  else e.

(** [select_ehddp_packets]: whether the packet is not for eHDDP. *)
Definition select_ehddp_packets (r : pktref) (resent : Z) : Run bool :=
  t <- rd_eth_type r;; dpid <- gets dp_id;;
  if is_ehddp_type t && (1 <? dpid) then
    op <- rd_ehddp r opcode 1;;
    (if op =? 1 then
       sec <- rd_ehddp r num_sec 8;;
       edit_ehddp (fun e => exploration_times e sec current_timestamp);;;
       handle_ehddp_request_packets r resent
     else if op =? 2 then handle_ehddp_reply_packets r
     else ret tt);;;
    ret false
  else ret true.

(** * Learning *)

(** [arp_path_send_unicast] *)
Definition arp_path_send_unicast (r : pktref) (out_port : Z) : Run () :=
  if 0 <? out_port then
    ps <- gets ports;;
    p <- lift (Ports.port_at ps (Ports.PSlot (Z.to_nat out_port)));;
    if Ports.state (Ports.conf p) =? Ports.OFPPS_LIVE then
      mac <- rd_eth_mac r eth_dst;;
      table_refresh LT mac LT_TIME 0;;;
      p <- get_pkt r;;
      output r out_port (Packet.out_queue p) (Packet.out_port_max_len p) NO_COOKIE
    else ret tt
  else ret tt.

(** A broadcast ARP frame: it is learned, or dropped when it comes in through another port than
    the first copy; then it goes to the controller and is flooded. *)
Definition arp_broadcast (r : pktref) (src : list Z) (port_of_mac : Z) : Run () :=
  p <- get_pkt r;;
  let forward :=
    e <- gets eh;;
    when (negb (type_device_general e =? 2))
      (c <- packet_clone r;; send_packet_to_controller r (Packet.table_id p) OFPR_NO_MATCH;;; packet_destroy c);;;
    tpa <- rd_arp r ar_tpa 4;;
    if negb (tpa =? ip_del_controlller e) then
      p <- get_pkt r;;
      output r OFPP_FLOOD (Packet.out_queue p) (Packet.out_port_max_len p) NO_COOKIE
    else ret tt in
  if (port_of_mac =? -1) || (port_of_mac =? 0) then table_add LT src (Packet.in_port p) BT_TIME_PKT 0;;; forward
  else if u32 port_of_mac =? Packet.in_port p then table_refresh LT src BT_TIME_PKT 0;;; forward
  else ret tt.

(** What a unicast ARP reply teaches. *)
Definition arp_unicast (r : pktref) (src : list Z) (port_of_mac : Z) : Run () :=
  op <- rd_arp r ar_op 2;;
  if htons op =? 2 then
    p <- get_pkt r;;
    if port_of_mac =? -1 then table_add LT src (Packet.in_port p) LT_TIME 0
    else
      s <- gets id;;
      late <- lift (MacTable.mac_to_port_check_timeout (mac_heap (eh s)) (learning_table (eh s)) src (time_msec s));;
      if late =? 1 then table_update LT src (Packet.in_port p) LT_TIME 0 else table_refresh LT src LT_TIME 0
  else ret tt.

(** [pipeline_arp_path] *)
Definition pipeline_arp_path (r : pktref) : Run () :=
  s <- gets id;;
  src <- rd_eth_mac r eth_src;;
  let mine := match Ports.local_port (ports s) with
              | Some lp => bool_decide (src = Ports.etheraddr (Ports.dev lp))
              | None => false
              end in
  if mine then ret tt
  else
    t <- rd_eth_type r;;
    dst <- rd_eth_mac r eth_dst;;
    let unicast := port <- table_port LT dst 0;; arp_path_send_unicast r port in
    if is_arp_type t then
      port <- table_port LT src 0;;
      if eth_addr_is_broadcast dst || eth_addr_is_multicast dst then arp_broadcast r src port
      else arp_unicast r src port;;; unicast
    else unicast.

End sending.

End ehddp.

End Ehddp.
