(* ===== verification/Pipeline.v ===== *)
(** The pipeline (udatapath/pipeline.c): a packet through the flow tables, the flow and
    table messages, and the time limit on the work a packet can cause. *)
From S2P Require Import Prelude HMap Oxm OflTypes MatchStd ActionSet Buffers Meter Group Ofpbuf Packet FlowTable.
From S2P Require Import DpActions Ports MacTable Datapath Forward Ehddp.
Open Scope Z_scope.

Module Pipeline.
Import Datapath Forward Ehddp.

Definition PIPELINE_TABLES : Z := 64.
Definition OFPR_INVALID_TTL : Z := 2.
Definition OFPBIC_UNSUP_INST : Z := 1.
Definition OFPBAC_MATCH_INCONSISTENT : Z := 10.
Definition OFPCR_ROLE_SLAVE : Z := 3.
Definition OFPBRC_IS_SLAVE : Z := 10.
(** The Ethernet type of IPv6 as it is read on the host. *)
Definition ETH_TYPE_IPV6_INV : Z := 56710.

Definition is_table_miss (e : FlowTable.flow_entry) : bool :=
  (FlowTable.priority (FlowTable.stats e) =? 0) && (mlength (FlowTable.fmatch (FlowTable.stats e)) <=? 4).

(** The loop of the write-metadata instruction over the fields with the hash of the metadata. *)
Definition write_metadata (m : ofl_match) (metadata mask : Z) : ofl_match :=
  Match (mlength m)
    (hmap_update (match_fields m) (fun h f =>
       if h =? hash_int OXM_OF_METADATA 0 then
         let v := Z.lor (Z.land (rd64 (value f)) (compl 64 mask)) (Z.land metadata mask) in
         TLV (header f) (le_store 8 v ++ drop 8 (value f))
       else f)).

(** * Sorting the instructions *)

Definition is_apply (i : ofl_instruction) : bool := inst_type i =? 4.
Definition is_clear (i : ofl_instruction) : bool := inst_type i =? 5.

(** [inst_compare], which answers 1 or 0. *)
Definition inst_compare (i1 i2 : ofl_instruction) : Z :=
  if (is_apply i1 && is_clear i2) || (is_clear i1 && is_apply i2) then Z.b2z (inst_type i2 <? inst_type i1)
  else Z.b2z (inst_type i1 <? inst_type i2).

Section pipeline.
Context {G M : Type} `{!IdTable G Group.group_entry} `{!IdTable M Meter.meter_entry} `{!Env}.
Abbreviation Run := (run (G := G) (M := M)).

Definition inst_sort (l : list ofl_instruction) : list ofl_instruction := qsort inst_compare l.
Abbreviation pktref := Buffers.pktref.

(** * A packet through the tables *)

Section process.
Context (resubmit : pktref -> Run ()) (group_fuel : nat).
Abbreviation execute_group := (group_table_execute resubmit group_fuel).

(** [execute_entry]: whether the packet is still there, and the next table. *)
Fixpoint execute_insts (r : pktref) (cookie : Z) (l : list ofl_instruction) (next : option Z) : Run (bool * option Z) :=
  match l with
  | [] => ret (true, next)
  | i :: rest =>
      match i with
      | Inst_goto_table t => execute_insts r cookie rest (Some t)
      | Inst_write_metadata md mask =>
          edit_pkt r (fun p =>
            let p := Packet.packet_handle_std_validate p in
            let h := Packet.handle_std p in
            Packet.with_handle p (Packet.Handle (Packet.proto h) (write_metadata (Packet.hmatch h) md mask)
                                    (Packet.valid h) (Packet.table_miss h)));;;
          execute_insts r cookie rest next
      | Inst_write_actions acts =>
          edit_pkt r (fun p => Packet.with_action_set p (ActionSet.action_set_write_actions (Packet.action_set p) acts));;;
          execute_insts r cookie rest next
      | Inst_apply_actions acts =>
          dp_execute_action_list resubmit execute_group r acts cookie;;;
          execute_insts r cookie rest next
      | Inst_clear_actions =>
          edit_pkt r (fun p => Packet.with_action_set p (ActionSet.action_set_clear_actions (Packet.action_set p)));;;
          execute_insts r cookie rest next
      | Inst_meter m =>
          alive <- meter_table_apply r m;;
          if alive : bool then execute_insts r cookie rest next else ret (false, next)
      | Inst_experimenter _ => execute_insts r cookie rest next
      end
  end.

(** [flow_table_lookup] in the table with a number. *)
Definition lookup_in (r : pktref) (t : Z) : Run (option FlowTable.flow_entry) :=
  s <- gets id;;
  ft <- lift (tables s !! Z.to_nat t);;
  p <- get_pkt r;;
  let '(ft', p', e) := FlowTable.flow_table_lookup ft p (time_msec s) in
  modify (fun s => with_tables s (<[Z.to_nat t := ft']> (tables s)) (world s));;;
  put_pkt r p';;;
  ret e.

(** The loop of [pipeline_process_packet] from table [t]. *)
Fixpoint tables_loop (fuel : nat) (r : pktref) (resent : Z) (t : Z) : Run () :=
  match fuel with
  | O => out_of_fuel
  | S fuel =>
      edit_pkt r (fun p => Packet.with_table_id p t);;;
      e <- lookup_in r t;;
      match e with
      | Some e =>
          edit_pkt r (fun p =>
            let h := Packet.handle_std p in
            Packet.with_handle p (Packet.Handle (Packet.proto h) (Packet.hmatch h) (Packet.valid h) (is_table_miss e)));;;
          '(alive, next) <- execute_insts r (FlowTable.cookie (FlowTable.stats e))
                              (FlowTable.insts (FlowTable.instructions (FlowTable.stats e))) None;;
          if negb alive then ret tt
          else match next with
               | None => action_set_execute resubmit execute_group r NO_COOKIE
               | Some t' => tables_loop fuel r resent t'
               end
      | None =>
          other <- select_ehddp_packets resubmit r resent;;
          when other (pipeline_arp_path resubmit r);;;
          packet_destroy r
      end
  end.

(** The ARP frames about the address of the in-band control. *)
Definition arp_control (r : pktref) : Run () :=
  t <- rd_eth_type r;;
  when (is_arp_type t)
    (e <- gets eh;;
     op <- rd_arp r ar_op 2;;
     if htons op =? 1 then
       tpa <- rd_arp r ar_tpa 4;;
       when (tpa =? ip_de_control_in_band e)
         (edit_ehddp (fun e => count_pkt e 0 0 1 0);;; pipeline_arp_path resubmit r)
     else when (htons op =? 2)
       (spa <- rd_arp r ar_spa 4;;
        when (spa =? ip_de_control_in_band e) (edit_ehddp (fun e => count_pkt e 0 0 0 1)))).

(** The body of [pipeline_process_packet]. *)
Definition process_packet (table_fuel : nat) (r : pktref) : Run () :=
  p <- get_pkt r;;
  '(p, ttl_ok) <- lift (Packet.packet_handle_std_is_ttl_valid p);;
  put_pkt r p;;;
  if negb ttl_ok then
    send_packet_to_controller r 0 OFPR_INVALID_TTL;;; packet_destroy r
  else
    multicast <- (if negb (Packet.udp (Packet.proto (Packet.handle_std p)) =? 0)
                  then dst <- rd_eth_mac r eth_dst;; ret (eth_addr_is_multicast dst) else ret false);;
    ipv6 <- (if multicast : bool then ret true else t <- rd_eth_type r;; ret (t =? ETH_TYPE_IPV6_INV));;
    if ipv6 : bool
    then packet_destroy r
    else
      resent <- ehddp_mod_local_port r;;
      arp_control r;;;
      tables_loop table_fuel r resent 0.

End process.

(** [pipeline_process_packet]. A packet that is sent back to the tables is a copy that may not be
    sent back again: [depth] is 1 for any packet. *)
Fixpoint pipeline_process_packet (depth group_fuel table_fuel : nat) (r : pktref) : Run () :=
  process_packet
    (match depth with
     | O => fun _ => out_of_fuel
     | S d => pipeline_process_packet d group_fuel table_fuel
     end) group_fuel table_fuel r.

(** * Messages *)

Definition port_exists (ps : Ports.ports) (no : Z) : bool :=
  match Ports.dp_ports_lookup ps no with Some _ => true | None => false end.
Definition group_exists (w : FlowTable.world G M) (id : Z) : bool :=
  match Group.group_table_find (FlowTable.groups w) id with Some _ => true | None => false end.

(** [dp_actions_check_set_field_req]; [None] is a field of no known header. *)
Fixpoint dp_actions_check_set_field_req (m : ofl_match) (acts : list ofl_action) : option Z :=
  match acts with
  | [] => Some 0
  | Act_set_field f :: rest =>
      d ← oxm_field_lookup (header f);
      if (mlength m =? 0) && negb (fst (dl_type d) =? 0) then Some (ofl_error OFPET_BAD_ACTION OFPBAC_MATCH_INCONSISTENT)
      else if negb (oxm_prereqs_ok d m) then Some (ofl_error OFPET_BAD_ACTION OFPBAC_MATCH_INCONSISTENT)
      else dp_actions_check_set_field_req m rest
  | _ :: rest => dp_actions_check_set_field_req m rest
  end.

(** The loop of [pipeline_handle_flow_mod] over the sorted instructions. *)
Fixpoint check_insts (s : datapath G M) (m : FlowTable.flow_mod) (l : list ofl_instruction) : option Z :=
  match l with
  | [] => Some 0
  | i :: rest =>
      err ← match i with
            | Inst_apply_actions acts | Inst_write_actions acts =>
                let e := Group.dp_actions_validate (port_exists (ports s)) (group_exists (world s)) acts in
                if e =? 0 then dp_actions_check_set_field_req (FlowTable.m_match m) acts else Some e
            | _ => Some 0
            end;
      if negb (err =? 0) then Some err
      else if (FlowTable.m_table_id m =? PIPELINE_TABLES - 1) && (inst_type i =? 1)
      then Some (ofl_error OFPET_BAD_INSTRUCTION OFPBIC_UNSUP_INST)
      else check_insts s m rest
  end.

(** [flow_table_flow_mod] on one of the tables; the new entry is at [at_]. *)
Definition mod_table (m : FlowTable.flow_mod) (at_ : FlowTable.flowref) (t : Z) : Run (Z * bool) :=
  s <- gets id;;
  ft <- lift (tables s !! Z.to_nat t);;
  '(w, ft', err, _, insts_kept) <- lift (FlowTable.flow_table_flow_mod (world s) ft m at_ (time_msec s));;
  modify (fun s => with_tables s (<[Z.to_nat t := ft']> (tables s)) w);;;
  ret (err, insts_kept).

(** A delete in all the tables ends at the first error. *)
Fixpoint mod_all_tables (m : FlowTable.flow_mod) (at_ : FlowTable.flowref) (n : nat) (t : Z) : Run Z :=
  match n with
  | O => ret 0
  | S n =>
      '(err, _) <- mod_table m at_ t;;
      if negb (err =? 0) then ret err else mod_all_tables m at_ n (t + 1)
  end.

Definition with_sorted (m : FlowTable.flow_mod) : FlowTable.flow_mod :=
  FlowTable.FMod (FlowTable.m_cookie m) (FlowTable.m_cookie_mask m) (FlowTable.m_table_id m) (FlowTable.m_command m)
    (FlowTable.m_idle_timeout m) (FlowTable.m_hard_timeout m) (FlowTable.m_priority m) (FlowTable.m_buffer_id m)
    (FlowTable.m_out_port m) (FlowTable.m_out_group m) (FlowTable.m_flags m) (FlowTable.m_match m)
    (FlowTable.Insts (FlowTable.insts_at (FlowTable.m_instructions m)) (inst_sort (FlowTable.insts (FlowTable.m_instructions m)))).

Definition free_insts (m : FlowTable.flow_mod) (kept : bool) : Run () :=
  if kept then ret tt
  else
    s <- gets id;;
    w <- lift (FlowTable.free_instructions (world s) (FlowTable.m_instructions m));;
    modify (fun s => with_tables s (tables s) w).

(** [pipeline_handle_flow_mod] *)
Definition pipeline_handle_flow_mod (process : pktref -> Run ()) (m : FlowTable.flow_mod) (role : Z)
    (at_ : FlowTable.flowref) : Run Z :=
  if role =? OFPCR_ROLE_SLAVE then ret (ofl_error OFPET_BAD_REQUEST OFPBRC_IS_SLAVE)
  else
    let m := with_sorted m in
    s <- gets id;;
    err <- lift (check_insts s m (FlowTable.insts (FlowTable.m_instructions m)));;
    if negb (err =? 0) then ret err
    else if FlowTable.m_table_id m =? 0xff then
      if (FlowTable.m_command m =? FlowTable.OFPFC_DELETE) || (FlowTable.m_command m =? FlowTable.OFPFC_DELETE_STRICT) then
        err <- mod_all_tables m at_ (Z.to_nat PIPELINE_TABLES) 0;;
        if negb (err =? 0) then ret err else free_insts m false;;; ret 0
      else ret (FlowTable.flow_error FlowTable.OFPFMFC_BAD_TABLE_ID)
    else
      '(err, insts_kept) <- mod_table m at_ (FlowTable.m_table_id m);;
      if negb (err =? 0) then ret err
      else
        (if ((FlowTable.m_command m =? FlowTable.OFPFC_ADD) || (FlowTable.m_command m =? FlowTable.OFPFC_MODIFY) ||
             (FlowTable.m_command m =? FlowTable.OFPFC_MODIFY_STRICT)) &&
            negb (FlowTable.m_buffer_id m =? Buffers.NO_BUFFER)
         then
           r <- dp_buffers_retrieve (FlowTable.m_buffer_id m);;
           match r with Some r => process r | None => ret tt end
         else ret tt);;;
        free_insts m insts_kept;;;
        ret 0.

(** [pipeline_timeout] over the tables from [t]. *)
Fixpoint pipeline_timeout (n : nat) (t : Z) : Run () :=
  match n with
  | O => ret tt
  | S n =>
      s <- gets id;;
      ft <- lift (tables s !! Z.to_nat t);;
      '(w, ft') <- lift (FlowTable.flow_table_timeout (world s) ft (time_msec s));;
      modify (fun s => with_tables s (<[Z.to_nat t := ft']> (tables s)) w);;;
      pipeline_timeout n (t + 1)
  end.

End pipeline.

(** * Timeouts *)

Section timeouts.
Context {G M : Type} `{!IdTable G Group.group_entry} `{!IdTable M Meter.meter_entry} `{!Env}.
Abbreviation dp := (datapath G M).

Definition array (e : FlowTable.flow_entry) : positive := FlowTable.insts_at (FlowTable.instructions (FlowTable.stats e)).

(** The tables are well formed, their arrays of instructions are allocated, and no two tables
    share one. *)
Record tables_ok (w : FlowTable.world G M) (ts : list FlowTable.flow_table) : Prop := {
  tb_ok : Forall FlowTable.table_ok ts;
  tb_owned : Forall (fun t => FlowTable.owned w (FlowTable.match_entries t)) ts;
  tb_apart (i j : nat) t t' e e' : ts !! i = Some t -> ts !! j = Some t' -> i <> j ->
    e ∈ FlowTable.match_entries t -> e' ∈ FlowTable.match_entries t' -> array e <> array e' }.

(** What the timeout leaves of a table. *)
Definition survivors (now : Z) (t : FlowTable.flow_table) : list FlowTable.flow_entry :=
  filter (fun e => FlowTable.idle_expired e now = false)
    (filter (fun e => FlowTable.hard_expired e now = false) (FlowTable.match_entries t)).

(** The flows that expired and asked for it are reported. *)
Definition reported (now : Z) (w : FlowTable.world G M) (t : FlowTable.flow_table) : Prop :=
  forall e, e ∈ FlowTable.match_entries t -> FlowTable.send_removed e = true ->
    (FlowTable.hard_expired e now = true ->
       FlowTable.FRemoved FlowTable.OFPRR_HARD_TIMEOUT (FlowTable.stats (FlowTable.flow_entry_update e now)) ∈ FlowTable.sent w) /\
    (FlowTable.hard_expired e now = false -> FlowTable.idle_expired e now = true ->
       FlowTable.FRemoved FlowTable.OFPRR_IDLE_TIMEOUT (FlowTable.stats (FlowTable.flow_entry_update e now)) ∈ FlowTable.sent w).

Lemma table_timeout w t now :
  FlowTable.table_ok t -> FlowTable.owned w (FlowTable.match_entries t) ->
  exists w' t', FlowTable.flow_table_timeout w t now = Some (w', t') /\ FlowTable.table_ok t' /\
    FlowTable.owned w' (FlowTable.match_entries t') /\ FlowTable.match_entries t' = survivors now t /\
    (exists msgs, FlowTable.sent w' = FlowTable.sent w ++ msgs) /\ reported now w' t.
Proof.
  intros Hok Hown. destruct (FlowTable.flow_table_timeout_spec w t now Hok Hown)
    as (w' & t' & hard & idle & E & Hok' & Hown' & Hh & Hi & Hm & Hs).
  exists w', t'. split_and!; [done.. | by eexists |]. intros e He Hsend. rewrite Hs.
  assert (Hin : forall why l, e ∈ l -> FlowTable.FRemoved why (FlowTable.stats (FlowTable.flow_entry_update e now)) ∈
    flat_map (FlowTable.removed_msg why now) l).
  { intros why l Hl. apply list_elem_of_In, in_flat_map. exists e. split; [by apply list_elem_of_In |].
    unfold FlowTable.removed_msg. rewrite Hsend. by left. }
  rewrite !elem_of_app. split.
  - intros Hx. right. left. apply Hin. rewrite Hh. by apply list_elem_of_filter.
  - intros Hx Hy. right. right. apply Hin. rewrite Hi. by do 2 (apply list_elem_of_filter; split; [done |]).
Qed.

Lemma survivors_sub now t e : e ∈ survivors now t -> e ∈ FlowTable.match_entries t.
Proof. by intros [_ [_ ?]%list_elem_of_filter]%list_elem_of_filter. Qed.

(** One table has been dealt with. *)
Lemma tables_ok_step w ts (i : nat) t w' t' now :
  tables_ok w ts -> ts !! i = Some t -> FlowTable.flow_table_timeout w t now = Some (w', t') ->
  FlowTable.table_ok t' -> FlowTable.owned w' (FlowTable.match_entries t') ->
  FlowTable.match_entries t' = survivors now t -> tables_ok w' (<[i := t']> ts).
Proof.
  intros [H1 H2 H3] Hi E Hok' Hown' Hm. apply FlowTable.flow_table_timeout_spares in E.
  assert (Hlook : forall j x, <[i := t']> ts !! j = Some x -> (j = i /\ x = t') \/ (j <> i /\ ts !! j = Some x)).
  { intros j x. rewrite list_lookup_insert_Some. naive_solver. }
  split.
  - by apply Forall_insert.
  - apply Forall_lookup. intros j x [[-> ->] | [Hj Hx]]%Hlook; [done |].
    rewrite Forall_lookup in H2. specialize (H2 j x Hx). unfold FlowTable.owned in *. rewrite Forall_forall in H2 |- *.
    intros e He. apply E; [by apply H2 |]. intros e' He'. by apply (H3 i j t x e' e).
  - intros j k x x' e e' Hj Hk Hne He He'. apply Hlook in Hj as [[-> ->] | [Hj Hx]], Hk as [[-> ->] | [Hk Hx']]; [done | ..].
    + rewrite Hm in He. apply survivors_sub in He. by apply (H3 i k t x' e e').
    + rewrite Hm in He'. apply survivors_sub in He'. by apply (H3 j i x t e e').
    + by apply (H3 j k x x' e e').
Qed.

Lemma pipeline_timeout_run n : forall (t : nat) (s : dp),
  tables_ok (world s) (tables s) -> (t + n = length (tables s))%nat ->
  exists s', pipeline_timeout n t s = Done (tt, s') /\ tables_ok (world s') (tables s') /\
    length (tables s') = length (tables s) /\
    (exists msgs, FlowTable.sent (world s') = FlowTable.sent (world s) ++ msgs) /\
    (forall j x, tables s !! j = Some x -> (j < t)%nat -> tables s' !! j = Some x) /\
    (forall j x, tables s !! j = Some x -> (t <= j)%nat ->
       exists x', tables s' !! j = Some x' /\ FlowTable.match_entries x' = survivors (clock s) x /\
         reported (clock s) (world s') x).
Proof.
  induction n as [| n IH]; intros t s Hok Hlen; cbn [pipeline_timeout].
  { exists s. split_and!; [done.. | by exists []; rewrite app_nil_r | done |].
    intros j x Hj%lookup_lt_Some Ht. lia. }
  destruct (lookup_lt_is_Some_2 (tables s) t) as [x Hx]; [lia |].
  unfold bind, gets, id, lift, modify. rewrite Nat2Z.id, Hx.
  pose proof (tb_ok _ _ Hok) as Ho. rewrite Forall_lookup in Ho. pose proof (tb_owned _ _ Hok) as Hw. rewrite Forall_lookup in Hw.
  destruct (table_timeout (world s) x (time_msec s) (Ho t x Hx) (Hw t x Hx)) as (w' & x' & E & Hok' & Hown' & Hm & (msgs & Hs) & Hr).
  rewrite E. set (s1 := with_tables s _ _).
  assert (Hok1 : tables_ok (world s1) (tables s1)) by (by eapply tables_ok_step).
  destruct (IH (S t) s1 Hok1) as (s' & Er & Hok2 & Hl2 & (msgs' & Hs') & Hold & Hnew); [cbn; rewrite length_insert; lia |].
  exists s'. replace (t + 1) with (Z.of_nat (S t)) by lia. split; [exact Er |].
  subst s1. cbn [with_tables tables world clock] in *. rewrite length_insert in Hl2. split_and!; [done.. | | |].
  - exists (msgs ++ msgs'). by rewrite Hs', Hs, app_assoc.
  - intros j y Hj Hlt. apply Hold; [| lia]. by rewrite list_lookup_insert_ne by lia.
  - intros j y Hj Hle. destruct (Nat.eq_dec j t) as [-> | Hne].
    + rewrite Hx in Hj. injection Hj as <-. exists x'. split; [| split; [done |]].
      * apply Hold; [| lia]. apply list_lookup_insert_eq. by apply lookup_lt_Some in Hx.
      * intros e He Hsend. destruct (Hr e He Hsend) as [R1 R2]. rewrite Hs'.
        split; intros; apply elem_of_app; left; auto.
    + destruct (Hnew j y) as (y' & ? & ? & ?); [by rewrite list_lookup_insert_ne by done | lia |]. by exists y'.
Qed.

(** C10. No expired flow stays. The periodic call of [pipeline_timeout] goes through all the
    tables, leaves in each exactly the flows that have not expired, in their order, and
    reports to the controllers every expired flow that asked for it, without reading or
    freeing an array twice. *)
Theorem pipeline_timeout_clears (s : dp) :
  tables_ok (world s) (tables s) -> Z.of_nat (length (tables s)) = PIPELINE_TABLES ->
  exists s', pipeline_timeout (Z.to_nat PIPELINE_TABLES) 0 s = Done (tt, s') /\
    tables_ok (world s') (tables s') /\
    Forall2 (fun t t' => FlowTable.match_entries t' = survivors (clock s) t /\ reported (clock s) (world s') t)
      (tables s) (tables s').
Proof.
  intros Hok Hlen. destruct (pipeline_timeout_run (Z.to_nat PIPELINE_TABLES) 0 s Hok) as (s' & E & Hok' & Hl & _ & _ & Hn); [lia |].
  exists s'. split; [exact E |]. split; [done |]. apply Forall2_lookup. intros i.
  destruct (tables s !! i) as [x |] eqn:Hi.
  - destruct (Hn i x Hi ltac:(lia)) as (x' & -> & ? & ?). by constructor.
  - apply lookup_ge_None in Hi. rewrite lookup_ge_None_2 by lia. constructor.
Qed.

End timeouts.

End Pipeline.
