(* ===== verification/Progress.v ===== *)
(** Every packet is dealt with in bounded work: the groups have no loops, the tables go
    forward, and a packet is sent back to the tables at most once. A computation that keeps
    the groups and the instructions of the flows as they are, and makes no packet that may be
    sent back, is followed through the whole pipeline. *)
From S2P Require Import Prelude HMap Oxm OflTypes MatchStd ActionSet Buffers Meter Group Ofpbuf Packet FlowTable.
From S2P Require Import DpActions Ports MacTable Datapath Forward Ehddp Pipeline.
Open Scope Z_scope.

Module Progress.
Import Datapath Forward Ehddp Pipeline.

(** What bounds the work: the buckets of the groups, and the instructions of the flows of each
    table. *)
Record shape := Shape {
  sh_groups : gmap Z (list ofl_bucket); sh_tables : list (list (list ofl_instruction)) }.

Definition entry_insts (e : FlowTable.flow_entry) : list ofl_instruction :=
  FlowTable.insts (FlowTable.instructions (FlowTable.stats e)).

Section progress.
Context {G M : Type} `{!IdTable G Group.group_entry} `{!IdTable M Meter.meter_entry} `{!Env}.
Abbreviation Run := (run (G := G) (M := M)).
Abbreviation dp := (datapath G M).
Abbreviation pktref := Buffers.pktref.

Definition group_map (s : dp) : gmap Z Group.group_entry := tbl_map (Group.entries (FlowTable.groups (world s))).

(** The datapath has the shape, and the next packet is new. *)
Record inv (sh : shape) (s : dp) : Prop := {
  inv_tbl : tbl_ok (Group.entries (FlowTable.groups (world s)));
  inv_groups : (fun e => Group.buckets (Group.desc e)) <$> group_map s = sh_groups sh;
  inv_tables : map (fun t => map entry_insts (FlowTable.match_entries t)) (tables s) = sh_tables sh;
  inv_fresh r p : packets s !! r = Some p -> (r < next_pkt s)%positive }.

(** No packet that existed starts to be one that may be sent back. *)
Record evolves (s s' : dp) : Prop := {
  ev_next : (next_pkt s <= next_pkt s')%positive;
  ev_quiet r p' : packets s' !! r = Some p' -> (r < next_pkt s)%positive -> Packet.packet_out p' = true ->
    exists p, packets s !! r = Some p /\ Packet.packet_out p = true }.

Lemma evolves_refl s : evolves s s.
Proof. split; [lia | eauto]. Qed.

Lemma evolves_trans s1 s2 s3 : evolves s1 s2 -> evolves s2 s3 -> evolves s1 s3.
Proof.
  intros [Hn Hq] [Hn' Hq']. split; [lia |]. intros r p' Hp' Hr Ho.
  destruct (Hq' r p' Hp') as (p & Hp & Hop); [lia | done |]. by apply (Hq r p).
Qed.

(** A computation from a state that satisfies [P] ends, and what it ends with satisfies [Q]. *)
Definition ends {A} (sh : shape) (s : dp) (Q : A -> dp -> Prop) (o : outcome (A * dp)) : Prop :=
  match o with
  | Done (x, s') => inv sh s' /\ evolves s s' /\ Q x s'
  | Fault => True
  | Fuel => False
  end.

Definition ok {A} (sh : shape) (P : dp -> Prop) (c : Run A) (Q : A -> dp -> Prop) : Prop :=
  forall s, inv sh s -> P s -> ends sh s Q (c s).

(** ** Rules *)

Section rules.
Context {sh : shape}.

Lemma ok_ret {A} (P : dp -> Prop) (x : A) : ok sh P (ret x) (fun y s => y = x /\ P s).
Proof. intros s Hi HP. split; [done |]. split; [apply evolves_refl | done]. Qed.

Lemma ok_bind {A B} P (c : Run A) R (k : A -> Run B) Q :
  ok sh P c R -> (forall x, ok sh (R x) (k x) Q) -> ok sh P (bind c k) Q.
Proof.
  intros Hc Hk s Hi HP. specialize (Hc s Hi HP). unfold bind. destruct (c s) as [[x s1] | |]; [| done | done].
  destruct Hc as (Hi1 & He1 & HR). specialize (Hk x s1 Hi1 HR). destruct (k x s1) as [[y s2] | |]; [| done | done].
  destruct Hk as (Hi2 & He2 & HQ). split; [done |]. split; [by eapply evolves_trans | done].
Qed.

Lemma ok_conseq {A} (P P' : dp -> Prop) (c : Run A) (Q Q' : A -> dp -> Prop) :
  (forall s, P s -> P' s) -> (forall x s, Q' x s -> Q x s) -> ok sh P' c Q' -> ok sh P c Q.
Proof.
  intros HP HQ Hc s Hi Hs. specialize (Hc s Hi (HP s Hs)). destruct (c s) as [[x s1] | |]; [| done | done].
  destruct Hc as (? & ? & ?). split_and!; auto.
Qed.

Lemma ok_pure {A} (P : dp -> Prop) (c : Run A) Q (X : Prop) : (X -> ok sh P c Q) -> ok sh (fun s => X /\ P s) c Q.
Proof. intros Hx s Hi [HX HP]. by apply Hx. Qed.

End rules.

(** ** Packets that may not be sent back *)

(** With [b] false, packet [r] may not be sent back. *)
Definition quiet (b : bool) (r : pktref) (s : dp) : Prop :=
  (r < next_pkt s)%positive /\
  (b = false -> forall p, packets s !! r = Some p -> Packet.packet_out p = false).

Lemma quiet_evolves b r s s' : evolves s s' -> quiet b r s -> quiet b r s'.
Proof.
  intros [Hn Hq] [Hr Hb]. split; [lia |]. intros Hf p' Hp'. destruct (Packet.packet_out p') eqn:E; [| done].
  destruct (Hq r p' Hp' Hr E) as (p & Hp & Ho). rewrite (Hb Hf p Hp) in Ho. done.
Qed.

(** A computation that needs to know only that of one packet. *)
Definition acts (sh : shape) (b : bool) (r : pktref) {A} (c : Run A) : Prop := ok sh (quiet b r) c (fun _ _ => True).

(** A computation that needs to know nothing. *)
Definition plain (sh : shape) {A} (c : Run A) : Prop := ok sh (fun _ => True) c (fun _ _ => True).

Section plain.
Context {sh : shape}.

Lemma plain_ok {A} P (c : Run A) : plain sh c -> ok sh P c (fun _ _ => True).
Proof. apply ok_conseq; done. Qed.

Lemma plain_acts {A} b r (c : Run A) : plain sh c -> acts sh b r c.
Proof. apply plain_ok. Qed.

Lemma acts_ok {A} b r (c : Run A) : acts sh b r c -> ok sh (quiet b r) c (fun _ => quiet b r).
Proof.
  intros Hc s Hi Hq. specialize (Hc s Hi Hq). destruct (c s) as [[x s1] | |]; [| done | done].
  destruct Hc as (? & ? & _). split_and!; [done.. | by eapply quiet_evolves].
Qed.

Lemma acts_bind {A B} b r (c : Run A) (k : A -> Run B) :
  acts sh b r c -> (forall x, acts sh b r (k x)) -> acts sh b r (bind c k).
Proof. intros Hc Hk. eapply ok_bind; [by apply acts_ok | done]. Qed.

Lemma plain_bind {A B} (c : Run A) (k : A -> Run B) : plain sh c -> (forall x, plain sh (k x)) -> plain sh (bind c k).
Proof. intros Hc Hk. eapply ok_bind; [exact Hc | done]. Qed.

Lemma plain_ret {A} (x : A) : plain sh (ret x).
Proof. eapply ok_conseq; [.. | apply (ok_ret (fun _ => True))]; done. Qed.
Lemma plain_gets {A} (f : dp -> A) : plain sh (gets f).
Proof. intros s Hi _. split; [done |]. split; [apply evolves_refl | done]. Qed.
Lemma plain_lift {A} (x : option A) : plain sh (lift x).
Proof. intros s Hi _. unfold lift. destruct x; [| done]. split; [done |]. split; [apply evolves_refl | done]. Qed.
Lemma plain_fault {A} : plain sh (fault (A := A)).
Proof. by intros s Hi _. Qed.

(** A change that leaves the groups, the tables and the packets alone. *)
Definition spares (f : dp -> dp) : Prop := forall s,
  FlowTable.groups (world (f s)) = FlowTable.groups (world s) /\ tables (f s) = tables s /\
  packets (f s) = packets s /\ next_pkt (f s) = next_pkt s.

Lemma spares_inv f s : spares f -> inv sh s -> inv sh (f s) /\ evolves s (f s).
Proof.
  intros Hf [H1 H2 H3 H4]. destruct (Hf s) as (Eg & Et & Ep & En). split.
  - split; unfold group_map; by rewrite ?Eg, ?Et, ?Ep, ?En.
  - split; rewrite ?Ep, ?En; [lia | eauto].
Qed.

Lemma plain_modify f : spares f -> plain sh (modify f).
Proof. intros Hf s Hi _. destruct (spares_inv f s Hf Hi). by split_and!. Qed.

End plain.

(** ** Packets *)

(** What is known of packet [r], if it is there. *)
Definition at_pkt (r : pktref) (phi : Packet.packet -> Prop) (s : dp) : Prop :=
  forall p, packets s !! r = Some p -> phi p.

(** No packet of the new store may be sent back that could not before. *)
Definition no_louder (st st' : gmap pktref Packet.packet) : Prop :=
  forall r p', st' !! r = Some p' -> exists p, st !! r = Some p /\ Packet.packet_out p' = Packet.packet_out p.

Section packets.
Context {sh : shape}.

Lemma inv_store s n st :
  inv sh s -> (forall r p, st !! r = Some p -> (r < n)%positive) -> inv sh (with_packets s n st).
Proof. intros [H1 H2 H3 H4] Hn. by split. Qed.

Lemma put_inv s r p p' :
  inv sh s -> packets s !! r = Some p -> (Packet.packet_out p' = true -> Packet.packet_out p = true) ->
  inv sh (with_packets s (next_pkt s) (<[r := p']> (packets s))) /\
  evolves s (with_packets s (next_pkt s) (<[r := p']> (packets s))).
Proof.
  intros Hi Hp Ho. split.
  - apply inv_store; [done |]. intros r' q. rewrite lookup_insert_Some. intros [[<- _] | [_ Hq]];
      by eapply (inv_fresh sh s Hi).
  - split; cbn; [lia |]. intros r' q. rewrite lookup_insert_Some. intros [[<- <-] | [_ Hq]] _ Hl; eauto.
Qed.

Lemma ok_get P r : ok sh P (get_pkt r) (fun p s => packets s !! r = Some p /\ P s).
Proof.
  intros s Hi HP. unfold get_pkt. destruct (packets s !! r) eqn:E; [| done].
  split; [done |]. split; [apply evolves_refl | done].
Qed.

Lemma ok_put r p p' :
  (Packet.packet_out p' = true -> Packet.packet_out p = true) ->
  ok sh (fun s => packets s !! r = Some p) (put_pkt r p') (fun _ s => packets s !! r = Some p').
Proof.
  intros Ho s Hi Hp. unfold put_pkt. rewrite Hp. destruct (put_inv s r p p' Hi Hp Ho) as [? ?].
  split_and!; [done.. |]. apply lookup_insert_eq.
Qed.

Lemma plain_get r : plain sh (get_pkt r).
Proof. eapply ok_conseq; [.. | apply (ok_get (fun _ => True))]; done. Qed.

(** An edit that keeps a packet from being sent back, with what it makes of the packet. *)
Lemma ok_edit r f (phi psi : Packet.packet -> Prop) :
  (forall p, Packet.packet_out (f p) = true -> Packet.packet_out p = true) -> (forall p, phi p -> psi (f p)) ->
  ok sh (at_pkt r phi) (edit_pkt r f) (fun _ => at_pkt r psi).
Proof.
  intros Ho Hf. eapply ok_bind; [apply ok_get |]. intros p s Hi [Hp Hphi].
  pose proof (ok_put r p (f p) (Ho p) s Hi Hp) as Hput. destruct (put_pkt r (f p) s) as [[u s'] | |]; [| done | done].
  destruct Hput as (? & ? & Hp'). split_and!; [done.. |]. intros q Hq. rewrite Hp' in Hq. injection Hq as <-.
  by apply Hf, Hphi.
Qed.

Lemma plain_edit r f :
  (forall p, Packet.packet_out (f p) = true -> Packet.packet_out p = true) -> plain sh (edit_pkt r f).
Proof.
  intros Ho. eapply ok_conseq; [.. | apply (ok_edit r f (fun _ => True) (fun _ => True) Ho)]; by try intros ? ? ?.
Qed.

Lemma ok_alloc p : ok sh (fun _ => True) (alloc_pkt p) (fun r s => packets s !! r = Some p).
Proof.
  intros s Hi _. unfold alloc_pkt, ends. split; [| split].
  - apply inv_store; [done |]. intros r q. rewrite lookup_insert_Some.
    intros [[<- _] | [_ Hq%(inv_fresh sh s Hi)]]; lia.
  - split; cbn; [lia |]. intros r q. rewrite lookup_insert_Some. intros [[<- _] | [_ Hq]] Hlt Hl; [lia | eauto].
  - cbn. apply lookup_insert_eq.
Qed.

(** A change of the buffers that frees packets or changes their identifiers. *)
Lemma buffers_inv s b st : inv sh s -> no_louder (packets s) st -> inv sh (with_buffers s b st) /\ evolves s (with_buffers s b st).
Proof.
  intros [H1 H2 H3 H4] Hn. split; [split; try done | split; [apply Pos.le_refl |]]; cbn.
  - intros r p Hp. destruct (Hn r p Hp) as (q & Hq & _). by apply (H4 r q).
  - intros r p Hp _ Ho. destruct (Hn r p Hp) as (q & Hq & E). exists q. split; [done | by rewrite <- E].
Qed.

Lemma plain_fresh_addr : plain sh fresh_addr.
Proof. intros s Hi _. destruct (spares_inv (sh := sh) (fun s => with_mallocs s (S (mallocs s))) s) as [? ?]; [done.. |]. by split_and!. Qed.

End packets.

Lemma no_louder_refl st : no_louder st st.
Proof. intros r p Hp. by exists p. Qed.

Lemma no_louder_trans a b c : no_louder a b -> no_louder b c -> no_louder a c.
Proof.
  intros H1 H2 r p Hp. destruct (H2 r p Hp) as (q & Hq & E). destruct (H1 r q Hq) as (q' & Hq' & E').
  exists q'. split; [done | congruence].
Qed.

Lemma no_louder_delete st r : no_louder st (delete r st).
Proof. intros r' p [_ Hp]%lookup_delete_Some. by exists p. Qed.

Lemma no_louder_set_id st st' r id : Buffers.set_buffer_id st r id = Some st' -> no_louder st st'.
Proof.
  unfold Buffers.set_buffer_id. destruct (st !! r) as [p |] eqn:E; [| done]. cbn. intros [= <-] r' p'.
  rewrite lookup_insert_Some. intros [[<- <-] | [_ Hp]]; [by exists p | by exists p'].
Qed.

Lemma no_louder_destroy b st r now b' st' : Buffers.packet_destroy b st r now = Some (b', st') -> no_louder st st'.
Proof.
  unfold Buffers.packet_destroy. destruct (st !! r) as [p |]; [| done]. cbn.
  destruct (_ =? _); [intros [= <- <-]; apply no_louder_delete |].
  destruct (Buffers.dp_buffers_is_alive _ _ _); intros [= <- <-]; [apply no_louder_refl | apply no_louder_delete].
Qed.

Lemma no_louder_save b st r now b' st' id : Buffers.dp_buffers_save b st r now = Some (b', st', id) -> no_louder st st'.
Proof.
  unfold Buffers.dp_buffers_save. destruct (st !! r) as [p |]; [| done]. cbn [mbind option_bind].
  destruct (_ && _); [intros [= <- <- <-]; apply no_louder_refl |].
  set (idx := Z.land _ _). destruct (Buffers.pkt _) as [old |].
  - destruct (_ <? _); [intros [= <- <- <-]; apply no_louder_refl |].
    destruct (Buffers.set_buffer_id st old Buffers.NO_BUFFER) as [st1 |] eqn:E1; [| done]. cbn [mbind option_bind].
    destruct (Buffers.packet_destroy _ st1 old now) as [[b2 st2] |] eqn:E2; [| done]. cbn [mbind option_bind].
    destruct (Buffers.set_buffer_id st2 r _) as [st3 |] eqn:E3; [| done]. cbn. intros [= <- <- <-].
    apply no_louder_set_id in E1, E3. apply no_louder_destroy in E2. by do 2 (eapply no_louder_trans; [done |]).
  - destruct (Buffers.set_buffer_id st r _) as [st3 |] eqn:E3; [| done]. cbn. intros [= <- <- <-].
    by apply no_louder_set_id in E3.
Qed.

Create HintDb progress.
#[local] Hint Resolve plain_ret plain_gets plain_lift plain_fault plain_get plain_fresh_addr : progress.

(** Takes a computation apart, down to steps that are known. *)
Ltac step :=
  lazymatch goal with
  | |- plain _ (bind _ _) => apply plain_bind; [| intros ?]
  | |- acts _ _ _ (bind _ _) => apply acts_bind; [| intros ?]
  | |- plain _ (when ?b _) => unfold when
  | |- acts _ _ _ (when ?b _) => unfold when
  | |- plain _ (if ?b then _ else _) => destruct b
  | |- acts _ _ _ (if ?b then _ else _) => destruct b
  | |- plain _ (match ?x with _ => _ end) => destruct x
  | |- acts _ _ _ (match ?x with _ => _ end) => destruct x
  | |- plain _ (let _ := _ in _) => cbv zeta
  | |- acts _ _ _ (let _ := _ in _) => cbv zeta
  | |- plain _ _ => solve [eauto with progress]
  | |- acts _ _ _ _ => solve [eauto with progress | apply plain_acts; eauto with progress]
  end.
Ltac steps := repeat step.

Section effects.
Context {sh : shape}.

Lemma plain_destroy r : plain sh (packet_destroy r).
Proof.
  intros s Hi _. unfold packet_destroy. destruct (Buffers.packet_destroy _ _ _ _) as [[b st] |] eqn:E; [| done].
  apply no_louder_destroy in E. destruct (buffers_inv s b st Hi E). by split_and!.
Qed.

Lemma plain_save r : plain sh (dp_buffers_save r).
Proof.
  intros s Hi _. unfold dp_buffers_save. destruct (Buffers.dp_buffers_save _ _ _ _) as [[[b st] id] |] eqn:E; [| done].
  apply no_louder_save in E. destruct (buffers_inv s b st Hi E). by split_and!.
Qed.

Lemma plain_send_message m : plain sh (dp_send_message m).
Proof. by apply plain_modify. Qed.

Lemma plain_ports_output buf no q : plain sh (dp_ports_output buf no q).
Proof. by apply plain_modify. Qed.

Lemma plain_ports_output_all buf no f : plain sh (dp_ports_output_all buf no f).
Proof.
  intros s Hi _. unfold dp_ports_output_all. destruct (Ports.dp_ports_output_all _ _ _ _ _) as [ps |]; [| done].
  destruct (spares_inv (sh := sh) (fun s => with_ports s ps) s) as [? ?]; [done.. |]. by split_and!.
Qed.

Lemma plain_edit_ehddp f : plain sh (edit_ehddp f).
Proof. by apply plain_modify. Qed.

(** The packet is read, something is computed from it, and it is written back. *)
Lemma plain_rewrite {A} r (m : Packet.packet -> Run A) (f : Packet.packet -> A -> Packet.packet) :
  (forall p s, match m p s with
               | Done (_, s') => exists g, spares g /\ s' = g s | Fault => True | Fuel => False end) ->
  (forall p x, Packet.packet_out (f p x) = true -> Packet.packet_out p = true) ->
  plain sh (p <- get_pkt r;; x <- m p;; put_pkt r (f p x)).
Proof.
  intros Hm Ho s Hi _. unfold get_pkt, bind. destruct (packets s !! r) as [p |] eqn:Hp; [| done].
  specialize (Hm p s). destruct (m p s) as [[x s'] | |]; [| done | done].
  destruct Hm as (g & Hg & ->). destruct (spares_inv g s Hg Hi) as [Hi' He'].
  destruct (Hg s) as (_ & _ & Ep & _). unfold put_pkt. rewrite Ep, Hp.
  destruct (put_inv (g s) r p (f p x) Hi') as [Hi2 He2]; [by rewrite Ep | apply Ho |]. rewrite Ep in Hi2, He2.
  split_and!; [done | by eapply evolves_trans | done].
Qed.

End effects.

#[local] Hint Resolve plain_destroy plain_save plain_send_message plain_ports_output plain_ports_output_all
  plain_edit_ehddp : progress.

Section reading.
Context {sh : shape}.

Lemma plain_rd r a n : plain sh (rd r a n).
Proof. unfold rd. steps. Qed.
Lemma plain_rd_bytes r a n : plain sh (rd_bytes r a n).
Proof. unfold rd_bytes. steps. Qed.
Lemma plain_wr_bytes r a bs : plain sh (wr_bytes r a bs).
Proof.
  unfold wr_bytes. apply (plain_rewrite r (fun p => lift (Ofpbuf.store (Packet.buffer p) a bs)) Packet.with_buffer).
  - intros p s. unfold lift. destruct (Ofpbuf.store _ _ _); [| done]. by exists id.
  - done.
Qed.
Lemma plain_put_bytes r bs : plain sh (put_bytes r bs).
Proof.
  intros s Hi _. unfold put_bytes, get_pkt, bind, fresh_addr, lift. destruct (packets s !! r) as [p |] eqn:Hp; [| done].
  destruct (Ofpbuf.ofpbuf_put _ _ _ _) as [[b q] |]; [| done]. unfold put_pkt. cbn. rewrite Hp.
  destruct (spares_inv (sh := sh) (fun s => with_mallocs s (S (mallocs s))) s) as [Hi' He']; [done | done |].
  destruct (put_inv _ r p (Packet.with_buffer p b) Hi') as [Hi2 He2]; [done | done |].
  split_and!; [done | by eapply evolves_trans | done].
Qed.
Lemma plain_put_all r l : plain sh (put_all r l).
Proof. induction l; cbn; [apply plain_ret |]. apply plain_bind; [apply plain_put_bytes | done]. Qed.
Lemma plain_fill b l : plain sh (fill b l).
Proof. revert b. induction l as [| c l IH]; intros b; cbn; steps; eauto. Qed.

End reading.

#[local] Hint Resolve plain_rd plain_rd_bytes plain_wr_bytes plain_put_bytes plain_put_all plain_fill : progress.

(** ** Actions *)

(** What decides where a packet goes next. *)
Definition same_ctl (p p' : Packet.packet) : Prop :=
  Packet.packet_out p' = Packet.packet_out p /\ Packet.action_set p' = Packet.action_set p /\
  Packet.out_group p' = Packet.out_group p.

Lemma same_ctl_refl p : same_ctl p p.
Proof. done. Qed.
Lemma same_ctl_trans p q r : same_ctl p q -> same_ctl q r -> same_ctl p r.
Proof. unfold same_ctl. intuition congruence. Qed.

Lemma validate_ctl p : same_ctl p (Packet.packet_handle_std_validate p).
Proof.
  unfold Packet.packet_handle_std_validate. destruct (Packet.valid _); [done |].
  destruct (Packet.nblink_packet_parse _ _) as [[m pr] []]; done.
Qed.

Lemma run_ctl p c p' : DpActions.run p c = Some p' -> same_ctl p p'.
Proof. unfold DpActions.run. destruct (c _) as [[u b] |]; [| done]. by intros [= <-]. Qed.

Lemma run_valid_ctl p c p' :
  (q ← DpActions.run p c; Some (Packet.with_valid q false)) = Some p' -> same_ctl p p'.
Proof.
  destruct (DpActions.run p c) as [q |] eqn:E; [| done]. intros [= <-]. apply run_ctl in E.
  eapply same_ctl_trans; [exact E | done].
Qed.

(** The steps of an action keep what decides where the packet goes. *)
Ltac ctl :=
  repeat match goal with
    | |- context [if ?b then _ else _] => destruct b
    | |- Some _ = Some _ -> _ => intros [= <-]
    | |- DpActions.run _ _ = Some _ -> _ => intros ?%run_ctl
    | |- (_ ← DpActions.run _ _; Some (Packet.with_valid _ false)) = Some _ -> _ => intros ?%run_valid_ctl
    | |- same_ctl ?p (Packet.packet_handle_std_validate ?p) => apply validate_ctl
    | |- same_ctl _ (Packet.with_handle _ _) => eapply same_ctl_trans; [apply validate_ctl | done]
    | H : same_ctl (Packet.packet_handle_std_validate _) ?q |- same_ctl _ ?q =>
        eapply same_ctl_trans; [apply validate_ctl | exact H]
    end.

(** An action changes the group the packet goes to only when it is a group action. *)
Lemma execute_action_ctl p a at_ p' :
  DpActions.dp_execute_action junk p a at_ = Some p' ->
  Packet.packet_out p' = Packet.packet_out p /\ Packet.action_set p' = Packet.action_set p /\
  Packet.out_group p' = match a with Act_group g => g | _ => Packet.out_group p end.
Proof.
  assert (Hx : same_ctl p p' -> Packet.packet_out p' = Packet.packet_out p /\
    Packet.action_set p' = Packet.action_set p /\ Packet.out_group p' = Packet.out_group p) by done.
  destruct a; cbn [DpActions.dp_execute_action]; try (by intros [= <-]); intros E; apply Hx; revert E.
  all: unfold DpActions.copy_ttl_out, DpActions.copy_ttl_in, DpActions.set_mpls_ttl, DpActions.dec_mpls_ttl,
    DpActions.push_vlan, DpActions.pop_vlan, DpActions.push_mpls, DpActions.pop_mpls, DpActions.set_nw_ttl,
    DpActions.dec_nw_ttl, DpActions.set_field, DpActions.push_pbb, DpActions.pop_pbb; cbv zeta; ctl.
Qed.

(** ** Forwarding *)

Definition clean (p : Packet.packet) : Prop := Packet.action_set p = [] /\ Packet.out_group p = OFPG_ANY.

Section forwarding.
Context {sh : shape}.

Lemma ok_quiet {A} b r P (c : Run A) Q :
  ok sh P c Q -> ok sh (fun s => quiet b r s /\ P s) c (fun x s => quiet b r s /\ Q x s).
Proof.
  intros Hc s Hi [Hq HP]. specialize (Hc s Hi HP). destruct (c s) as [[x s1] | |]; [| done | done].
  destruct Hc as (? & ? & ?). split_and!; [done.. | by eapply quiet_evolves | done].
Qed.

Lemma ok_execute_action r a (phi : Packet.packet -> Prop) :
  ok sh (at_pkt r phi) (dp_execute_action r a)
    (fun _ => at_pkt r (fun p' => exists p, phi p /\ Packet.action_set p' = Packet.action_set p /\
       Packet.out_group p' = match a with Act_group g => g | _ => Packet.out_group p end)).
Proof.
  intros s Hi HP. unfold dp_execute_action, get_pkt, bind, fresh_addr, lift.
  destruct (packets s !! r) as [p |] eqn:Hp; [| done].
  destruct (DpActions.dp_execute_action _ _ _ _) as [p' |] eqn:E; [| done].
  apply execute_action_ctl in E as (Ho & Has & Hg). unfold put_pkt. cbn. rewrite Hp.
  destruct (spares_inv (sh := sh) (fun s => with_mallocs s (S (mallocs s))) s) as [Hi' He']; [done | done |].
  destruct (put_inv _ r p p' Hi') as [Hi2 He2]; [done | by rewrite Ho |].
  split_and!; [done | by eapply evolves_trans |]. intros q Hq. cbn in Hq. rewrite lookup_insert_eq in Hq.
  injection Hq as <-. exists p. split; [by apply HP | done].
Qed.

Lemma plain_execute_action r a : plain sh (dp_execute_action r a).
Proof. eapply ok_conseq; [.. | apply (ok_execute_action r a (fun _ => True))]; by try intros ? ? ?. Qed.

Lemma ok_clone b r : ok sh (quiet b r) (packet_clone r) (fun c s => quiet b c s /\ at_pkt c clean s).
Proof.
  intros s Hi [Hr Hq]. unfold packet_clone, get_pkt, bind, fresh_addr, lift.
  destruct (packets s !! r) as [p |] eqn:Hp; [| done].
  destruct (Packet.packet_clone _ _ _ _ _) as [c |] eqn:E; [| done].
  destruct (spares_inv (sh := sh) (fun s => with_mallocs s (S (mallocs s))) s) as [Hi' He']; [done | done |].
  pose proof (ok_alloc c _ Hi' I) as Ha. cbv beta in Ha. destruct (alloc_pkt c _) as [[c' s2] | |] eqn:Ea; [| done | done].
  destruct Ha as (Hi2 & He2 & Hc). split; [done |]. split; [by eapply evolves_trans |].
  unfold Packet.packet_clone in E. destruct (Ofpbuf.ofpbuf_clone _ _ _) as [bf |]; [| done]. injection E as <-.
  destruct (validate_ctl (Packet.with_handle
    (Packet.Pkt bf (Packet.in_port p) ActionSet.action_set_create (Packet.packet_out p) OFPG_ANY OFPP_ANY 0 0
       (Packet.table_id p) Packet.NO_BUFFER (Packet.Handle garbage_headers ofl_structs_match_init false garbage_miss))
    (Packet.Handle garbage_headers ofl_structs_match_init false garbage_miss))) as (Ho & Has & Hg).
  split; [split |].
  - by eapply (inv_fresh sh s2 Hi2).
  - intros Hb q Hq'. rewrite Hc in Hq'. injection Hq' as <-. unfold Packet.packet_handle_std_clone.
    rewrite Ho. cbn. by apply Hq.
  - intros q Hq'. rewrite Hc in Hq'. injection Hq' as <-. done.
Qed.

Lemma plain_clone r : plain sh (packet_clone r).
Proof.
  intros s Hi _. destruct (packets s !! r) as [p |] eqn:Hp.
  - assert (Hq : quiet true r s) by (split; [by eapply (inv_fresh sh s Hi) | done]).
    pose proof (ok_clone true r s Hi Hq) as Hc. destruct (packet_clone r s) as [[c s'] | |]; [| done | done].
    by destruct Hc as (? & ? & _).
  - unfold packet_clone, get_pkt, bind. by rewrite Hp.
Qed.

Lemma plain_edit_validate r :
  plain sh (edit_pkt r (fun p => if Packet.valid (Packet.handle_std p) then p else Packet.packet_handle_std_validate p)).
Proof.
  apply plain_edit. intros p. destruct (Packet.valid _); [done |]. by destruct (validate_ctl p) as (-> & _ & _).
Qed.

Lemma plain_output_controller r n c : plain sh (output_controller r n c).
Proof. unfold output_controller. pose proof plain_edit_validate. steps. Qed.

Lemma plain_send_controller r t w : plain sh (send_packet_to_controller r t w).
Proof. unfold send_packet_to_controller. steps. Qed.

End forwarding.

#[local] Hint Resolve plain_execute_action plain_clone plain_edit_validate plain_output_controller
  plain_send_controller : progress.

Section outputs.
Context {sh : shape} (b : bool) (resubmit : pktref -> Run ()).
(** A copy is sent back only from a packet that may be, and the copy may not. *)
Context (Hres : b = true -> forall c, acts sh false c (resubmit c)).

Lemma acts_output r port q n c : acts sh b r (dp_actions_output_port resubmit r port q n c).
Proof.
  unfold dp_actions_output_port. eapply ok_bind; [apply ok_get |]. intros p. cbv zeta beta.
  destruct (port =? OFPP_TABLE).
  - destruct (Packet.packet_out p) eqn:Ho; [| apply plain_ok, plain_ret].
    destruct b.
    2: { intros s Hi [Hp [_ Hq]]. rewrite (Hq eq_refl p Hp) in Ho. done. }
    eapply ok_bind; [eapply ok_conseq; [| | apply (ok_clone true r)]; [by intros s [_ ?] | done] |]. intros cp.
    eapply ok_bind with (R := fun _ => quiet false cp); [| intros _; by apply Hres].
    eapply ok_conseq; [| | apply (ok_quiet true cp), (ok_edit cp _ (fun _ => True) (fun p => Packet.packet_out p = false))].
    + intros s [? _]. split; [done | by intros ? ?].
    + intros x s [[? _] Ha]. split; [done | by intros _].
    + done.
    + done.
  - apply plain_ok. steps.
Qed.

Lemma ok_put_quiet r p p' :
  Packet.packet_out p' = Packet.packet_out p ->
  ok sh (fun s => packets s !! r = Some p /\ quiet b r s) (put_pkt r p')
    (fun _ s => quiet b r s /\ packets s !! r = Some p').
Proof.
  intros Ho. eapply ok_conseq; [| | apply (ok_quiet b r), (ok_put r p p')]; [| done | by rewrite Ho].
  by intros s [? ?].
Qed.

Section actions.
(** The groups an action may lead to, and that they end. *)
Context (execute_group : pktref -> Z -> Run ()) (good : Z -> Prop).
Context (Hgroup : forall c g, good g ->
  ok sh (fun s => quiet b c s /\ at_pkt c clean s) (execute_group c g) (fun _ _ => True)).

Definition out_good (p : Packet.packet) : Prop := Packet.out_group p = OFPG_ANY \/ good (Packet.out_group p).
Definition set_good (p : Packet.packet) : Prop :=
  out_good p /\ forall e g, e ∈ Packet.action_set p -> ActionSet.action e = Act_group g -> good g.

Lemma acts_after_action r c : (forall g, good g) -> acts sh b r (after_action resubmit execute_group r c).
Proof.
  intros Hall. unfold after_action. eapply ok_bind; [apply ok_get |]. intros p.
  destruct (negb (Packet.out_group p =? OFPG_ANY)).
  - eapply ok_bind; [by apply ok_put_quiet |]. intros [].
    eapply ok_bind; [eapply ok_conseq; [| | apply (ok_clone b r)]; [by intros s [? _] | done] |].
    intros cp. by apply Hgroup.
  - destruct (negb (Packet.out_port p =? OFPP_ANY)); [| apply plain_ok, plain_ret].
    eapply ok_bind; [by apply ok_put_quiet |]. intros [].
    eapply ok_conseq; [| | apply acts_output]; [by intros s [? _] | done].
Qed.

Lemma acts_action_list r l c : (forall g, good g) -> acts sh b r (dp_execute_action_list resubmit execute_group r l c).
Proof.
  intros Hall. induction l as [| a l IH]; cbn [dp_execute_action_list]; [apply plain_acts, plain_ret |].
  pose proof (acts_after_action r c Hall). steps.
Qed.

Lemma ok_run_set r l :
  (forall e g, e ∈ l -> ActionSet.action e = Act_group g -> good g) ->
  ok sh (at_pkt r out_good) (run_set r l) (fun _ => at_pkt r out_good).
Proof.
  induction l as [| e l IH]; intros Hl; cbn [run_set].
  - eapply ok_conseq; [| | apply (ok_ret (at_pkt r out_good))]; [done | by intros ? ? [_ ?]].
  - eapply ok_bind; [apply ok_execute_action |]. intros [].
    eapply ok_bind; [apply (ok_edit r _ _ out_good) |].
    + done.
    + intros p' (p & Hp & _ & Hg). unfold out_good. cbn. rewrite Hg.
      destruct (ActionSet.action e) eqn:E; try done. right. apply (Hl e); [by left | done].
    + intros []. apply IH. intros e' g He'. apply Hl. by right.
Qed.

(** An action set ends when the groups of its actions do. *)
Lemma ok_action_set r c :
  ok sh (fun s => quiet b r s /\ at_pkt r set_good s) (action_set_execute resubmit execute_group r c) (fun _ _ => True).
Proof.
  unfold action_set_execute. eapply ok_bind; [apply ok_get |]. intros p.
  eapply ok_bind with (R := fun _ s => quiet b r s /\ at_pkt r out_good s).
  { intros s Hi (Hp & Hq & Hg). destruct (Hg p Hp) as [Ho Hs].
    apply (ok_quiet b r _ _ _ (ok_run_set r _ Hs)); [done |]. split; [done |]. intros q Hq'. by apply Hg. }
  intros []. eapply ok_bind; [apply (ok_quiet b r), (ok_edit r _ out_good (fun p => Packet.action_set p = [] /\ out_good p)) |].
  { done. }
  { intros q Hq. split; [apply ActionSet.clear_actions_nil | exact Hq]. }
  intros []. eapply ok_bind; [apply ok_get |]. intros q. cbv beta.
  destruct (Z.eqb_spec (Packet.out_group q) OFPG_ANY) as [E | E]; cbn [negb].
  - destruct (negb (Packet.out_port q =? OFPP_ANY)); [| apply plain_ok, plain_destroy].
    eapply ok_bind; [eapply ok_conseq; [| | by apply (ok_put_quiet r q)]; [by intros s (? & ? & _) | done] |].
    intros []. eapply ok_bind; [eapply ok_conseq; [| | apply acts_output]; [by intros s [? _] | done] |].
    intros []. apply plain_ok, plain_destroy.
  - intros s Hi (Hp & Hq & Hg). destruct (Hg q Hp) as [Has [Ho | Ho]]; [done |].
    assert (ok sh (fun s => packets s !! r = Some q /\ quiet b r s)
      (put_pkt r (Packet.with_out q OFPG_ANY (Packet.out_port q) (Packet.out_port_max_len q));;;
       execute_group r (Packet.out_group q)) (fun _ _ => True)) as Hx; [| by apply Hx].
    eapply ok_bind; [by apply ok_put_quiet |]. intros [].
    eapply ok_conseq; [| | by apply Hgroup]; [| done]. intros s' [? Hp']. split; [done |].
    intros p' Hp''. rewrite Hp' in Hp''. injection Hp'' as <-. done.
Qed.

End actions.

End outputs.

(** ** Groups *)

Section groups.
Context {sh : shape} (b : bool).

(** A write to a group that keeps its buckets. *)
Lemma plain_edit_group id f :
  (forall e, Group.buckets (Group.desc (f e)) = Group.buckets (Group.desc e)) -> plain sh (edit_group id f).
Proof.
  intros Hf s Hi _. pose proof Hi as [H1 H2 H3 H4]. unfold edit_group, modify, FlowTable.update_group.
  destruct (Group.group_table_find _ id) as [e |] eqn:Ee.
  2: { destruct (spares_inv (sh := sh) (fun s => with_tables s (tables s) (world s)) s) as [? ?]; [done.. |]. by split_and!. }
  unfold Group.group_table_find in Ee. apply tbl_find_sound in Ee; [| done].
  destruct (tbl_update_map (Group.entries (FlowTable.groups (world s))) (fun h x => if h =? id then f e else x) H1)
    as [Hok Hmap].
  split_and!; [split; try done | split; [apply Pos.le_refl | cbn; by eauto] | done].
  rewrite <- H2. unfold group_map. cbn. apply map_eq. intros i. rewrite !lookup_fmap, Hmap.
  destruct (Z.eqb_spec i id) as [-> |]; [rewrite Ee; cbn; by rewrite Hf |].
  by destruct (tbl_map _ !! i).
Qed.

Lemma write_actions_elem l set e : e ∈ ActionSet.action_set_write_actions set l -> e ∈ set \/ ActionSet.action e ∈ l.
Proof.
  unfold ActionSet.action_set_write_actions. revert set. induction l as [| a l IH]; intros set He; [by left |].
  cbn in He. apply IH in He as [He | He]; [| by right; right].
  unfold ActionSet.action_set_write_action in He. clear IH. induction set as [| x set IHs]; cbn in He.
  - apply list_elem_of_singleton in He as ->. right. by left.
  - assert (Hc : forall y m, e ∈ y :: m -> e = y \/ e ∈ m) by (intros y m; by rewrite elem_of_cons).
    destruct (_ =? _).
    + destruct (ActionSet.action x); try (apply Hc in He as [-> | He]; [by right; left | by left; right]).
      cbn in He. destruct a; try (apply Hc in He as [-> | He]; [by right; left | by left; right]).
      destruct (_ =? _); apply Hc in He as [-> | He]; [by right; left | by left; right | by left; left |].
      apply IHs in He as [? | ?]; [by left; right | by right].
    + destruct (_ <? _); apply Hc in He as [-> | He]; [by right; left | by left | by left; left |].
      apply IHs in He as [? | ?]; [by left; right | by right].
Qed.

(** One bucket, when the set of its actions ends. *)
Lemma ok_execute_bucket execute_set good id i bk r :
  (forall r c, ok sh (fun s => quiet b r s /\ at_pkt r (set_good good) s) (execute_set r c) (fun _ _ => True)) ->
  (forall g, g ∈ Group.action_groups (b_actions bk) -> good g) ->
  ok sh (fun s => quiet b r s /\ at_pkt r clean s) (execute_bucket execute_set id i bk r) (fun _ _ => True).
Proof.
  intros Hset Hgood. unfold execute_bucket.
  eapply ok_bind; [apply (ok_quiet b r), (ok_edit r _ clean (set_good good)) |].
  - done.
  - intros p [Has Hg]. split; [left; exact Hg |]. cbn. intros e g He Ea.
    apply write_actions_elem in He as [He | He]; [rewrite Has in He; by apply elem_of_nil in He |].
    apply Hgood. unfold Group.action_groups. rewrite Ea in He. apply list_elem_of_In in He.
    apply list_elem_of_In, in_flat_map. exists (Act_group g). split; [done | by left].
  - intros []. eapply ok_bind; [apply ok_get |]. intros p.
    eapply ok_bind with (R := fun _ s => quiet b r s /\ at_pkt r (set_good good) s); [| intros []; apply Hset].
    intros s Hi (Hp & Hq & Hg).
    pose proof (plain_edit_group id (fun e => Group.count_bucket e i (Ofpbuf.size (Packet.buffer p))) (fun _ => eq_refl) s Hi I) as Hx.
    unfold edit_group, modify in *. destruct Hx as (? & He & _). split; [done |]. split; [done |].
    split; [by eapply quiet_evolves | exact Hg].
Qed.

Section entry.
Context (execute_set : pktref -> Z -> Run ()) (good : Z -> Prop) (id : Z) (e : Group.group_entry).
Context (Hset : forall r c, ok sh (fun s => quiet b r s /\ at_pkt r (set_good good) s) (execute_set r c) (fun _ _ => True)).
Context (Hgood : forall g, g ∈ Group.bucket_groups (Group.buckets (Group.desc e)) -> good g).

Lemma bucket_good bk : bk ∈ Group.buckets (Group.desc e) -> forall g, g ∈ Group.action_groups (b_actions bk) -> good g.
Proof.
  intros Hb g Hg. apply Hgood. unfold Group.bucket_groups. apply list_elem_of_In, in_flat_map.
  exists bk. split; by apply list_elem_of_In.
Qed.

Lemma acts_execute_all_loop r bs i :
  (forall bk, bk ∈ bs -> bk ∈ Group.buckets (Group.desc e)) -> acts sh b r (execute_all_loop execute_set id i bs r).
Proof.
  revert i. induction bs as [| bk bs IH]; intros i Hin; cbn [execute_all_loop]; [apply plain_acts, plain_ret |].
  eapply ok_bind; [eapply ok_conseq; [| | apply (ok_quiet b r), (ok_clone b r)]; [by intros s ?; split | done] |].
  intros c. eapply ok_bind; [apply (ok_quiet b r), (ok_execute_bucket _ good); [done | apply bucket_good, Hin; by left] |].
  intros []. eapply ok_conseq; [| | apply IH]; [by intros s [? _] | done | intros; apply Hin; by right].
Qed.

Lemma ok_execute_chosen n r :
  ok sh (fun s => quiet b r s /\ at_pkt r clean s) (execute_chosen execute_set id e n r) (fun _ _ => True).
Proof.
  unfold execute_chosen. destruct (negb _); [| apply plain_ok, plain_destroy].
  destruct (Group.buckets (Group.desc e) !! Z.to_nat n) as [bk |] eqn:E; [| by intros s Hi _].
  intros s Hi HP. unfold bind, lift. cbn. apply (ok_execute_bucket _ good); [done | | done | done].
  apply bucket_good. by apply list_elem_of_lookup_2 in E.
Qed.

Lemma ok_group_entry r :
  ok sh (fun s => quiet b r s /\ at_pkt r clean s) (group_entry_execute execute_set id e r) (fun _ _ => True).
Proof.
  unfold group_entry_execute. cbv zeta. repeat (destruct (_ =? _)).
  - unfold execute_all. eapply ok_bind; [eapply ok_conseq; [| | apply (acts_execute_all_loop r _ 0)]; [by intros s [? _] | done | done] |].
    intros []. apply plain_ok, plain_destroy.
  - unfold execute_select. destruct (Group.data e) as [d |]; [| by intros s Hi _]. intros s Hi HP.
    unfold bind at 1, lift. destruct (Group.select_from_select_group _ _) as [d' n].
    pose proof (plain_edit_group id (fun e => with_wrr e d') (fun _ => eq_refl) s Hi I) as Hx.
    unfold bind, edit_group, modify in *. destruct Hx as (Hi' & He' & _). destruct HP as [Hq Hc].
    pose proof (ok_execute_chosen n r _ Hi' (conj (quiet_evolves _ _ _ _ He' Hq) Hc)) as Hx.
    destruct (execute_chosen _ _ _ _ _ _) as [[u s'] | |]; [| done | done].
    destruct Hx as (? & ? & _). split_and!; [done | by eapply evolves_trans | done].
  - unfold execute_indirect. pose proof bucket_good as Hb.
    destruct (Group.buckets (Group.desc e)) as [| bk bs]; [apply plain_ok, plain_destroy |].
    apply (ok_execute_bucket _ good); [done |]. apply Hb. by left.
  - unfold execute_ff. intros s Hi HP. unfold bind, gets, lift.
    destruct (Group.select_from_ff_group _ _); [| done]. by apply ok_execute_chosen.
  - apply plain_ok, plain_destroy.
Qed.

End entry.

Section fuel.
Context (resubmit : pktref -> Run ()) (Hres : b = true -> forall c, acts sh false c (resubmit c)).
Context (Hac : Group.acyclic (fun id => sh_groups sh !! id)).
Abbreviation edge := (Group.edge (fun id => sh_groups sh !! id)).

(** The groups on the way to this one are different: there are no more of them than groups. *)
Lemma path_bound seen id bs :
  NoDup seen -> (forall x, x ∈ seen -> is_Some (sh_groups sh !! x) /\ tc edge x id) ->
  sh_groups sh !! id = Some bs -> (length seen < size (sh_groups sh))%nat.
Proof.
  intros Hnd Hseen Hid.
  assert (Hn : id ∉ seen) by (intros Hin; destruct (Hseen id Hin) as [_ Hc]; by apply (Hac id)).
  assert (NoDup (id :: seen)) as Hnd' by (by apply NoDup_cons).
  assert (length (id :: seen) <= size (dom (sh_groups sh)))%nat as Hle.
  { rewrite <- (size_list_to_set (C := gset Z)) by done. apply subseteq_size. intros x Hx.
    apply elem_of_list_to_set, elem_of_cons in Hx as [-> | Hx]; apply elem_of_dom; [by eexists |].
    by destruct (Hseen x Hx). }
  rewrite size_dom in Hle. cbn [length] in Hle. lia.
Qed.

(** With as much fuel as there are groups, a group ends. *)
Lemma ok_group_table fuel seen r id :
  NoDup seen -> (forall x, x ∈ seen -> is_Some (sh_groups sh !! x) /\ tc edge x id) ->
  (size (sh_groups sh) <= fuel + length seen)%nat ->
  ok sh (fun s => quiet b r s /\ at_pkt r clean s) (group_table_execute resubmit fuel r id) (fun _ _ => True).
Proof.
  revert seen r id. induction fuel as [| fuel IH]; intros seen r id Hnd Hseen Hsize s Hi HP;
    cbn [group_table_execute]; unfold bind, gets; destruct (Group.group_table_find _ id) as [e |] eqn:Ee;
    try (split_and!; [done | apply evolves_refl | done]);
    (assert (He : sh_groups sh !! id = Some (Group.buckets (Group.desc e)))
      by (rewrite <- (inv_groups sh s Hi), lookup_fmap; unfold group_map;
          apply tbl_find_sound in Ee; [by rewrite Ee | by destruct Hi]));
    pose proof (path_bound seen id _ Hnd Hseen He) as Hlt; [lia |].
  refine (ok_group_entry _ (fun g => edge id g) id e _ _ r s Hi HP).
  - intros r' c. apply ok_action_set; [done |]. intros c' g Hg.
    apply (IH (id :: seen)); [| | cbn [length]; lia].
    + apply NoDup_cons. split; [| done]. intros Hin. destruct (Hseen id Hin) as [_ Hc]. by apply (Hac id).
    + intros x [-> | Hx]%elem_of_cons; [split; [by eexists | by apply tc_once] |].
      destruct (Hseen x Hx) as [? Hc]. split; [done |]. by eapply tc_r.
  - intros g Hg. unfold Group.edge, Group.succs. by rewrite He.
Qed.

Lemma ok_any_group c g :
  ok sh (fun s => quiet b c s /\ at_pkt c clean s) (group_table_execute resubmit (size (sh_groups sh)) c g) (fun _ _ => True).
Proof. apply (ok_group_table _ []); [apply NoDup_nil_2 | by intros x ?%not_elem_of_nil | cbn; lia]. Qed.

End fuel.

End groups.

(** ** eHDDP *)

Section ehddp.
Context {sh : shape}.

Lemma plain_table_add w m p t n : plain sh (table_add w m p t n).
Proof. unfold table_add. steps. Qed.
Lemma plain_table_update w m p t n : plain sh (table_update w m p t n).
Proof. unfold table_update. steps. Qed.
Lemma plain_table_refresh w m t n : plain sh (table_refresh w m t n).
Proof. unfold table_refresh. steps. Qed.
Lemma plain_table_port w m n : plain sh (table_port w m n).
Proof. unfold table_port. steps. Qed.
Lemma plain_rd_eth_type r : plain sh (rd_eth_type r).
Proof. unfold rd_eth_type, eth_at, headers. steps. Qed.
Lemma plain_rd_eth_mac r o : plain sh (rd_eth_mac r o).
Proof. unfold rd_eth_mac, eth_at, headers. steps. Qed.
Lemma plain_eth_at r o : plain sh (eth_at r o).
Proof. unfold eth_at, headers. steps. Qed.
Lemma plain_ehddp_at r o : plain sh (ehddp_at r o).
Proof. unfold ehddp_at, headers. steps. Qed.
Lemma plain_rd_ehddp r o n : plain sh (rd_ehddp r o n).
Proof. unfold rd_ehddp, ehddp_at, headers. steps. Qed.
Lemma plain_rd_ehddp_mac r o : plain sh (rd_ehddp_mac r o).
Proof. unfold rd_ehddp_mac, ehddp_at, headers. steps. Qed.
Lemma plain_rd_arp r o n : plain sh (rd_arp r o n).
Proof. unfold rd_arp, arp_at, headers. steps. Qed.
Lemma plain_read_source r m : plain sh (read_source r m).
Proof. unfold read_source. steps. Qed.

(** A packet the switch makes itself may not be sent back. *)
Lemma ok_create port buf : ok sh (fun _ => True) (packet_create port buf false) (fun r s => quiet false r s).
Proof.
  intros s Hi _. unfold packet_create. pose proof (ok_alloc (Packet.packet_create port buf false garbage_headers garbage_miss) s Hi I) as Ha.
  destruct (alloc_pkt _ s) as [[c s2] | |]; [| done | done]. destruct Ha as (Hi2 & He2 & Hc).
  split; [done |]. split; [done |]. split; [by eapply (inv_fresh sh s2 Hi2) |].
  intros _ p Hp. rewrite Hc in Hp. injection Hp as <-. unfold Packet.packet_create, Packet.packet_handle_std_create.
  by destruct (validate_ctl (Packet.with_handle (Packet.Pkt buf port ActionSet.action_set_create false OFPG_ANY OFPP_ANY 0 0 0
    Packet.NO_BUFFER (Packet.Handle garbage_headers ofl_structs_match_init false garbage_miss))
    (Packet.Handle garbage_headers ofl_structs_match_init false garbage_miss))) as (-> & _ & _).
Qed.

Lemma plain_create port buf : plain sh (packet_create port buf false).
Proof. eapply ok_conseq; [| | apply ok_create]; done. Qed.

End ehddp.

#[local] Hint Resolve plain_table_add plain_table_update plain_table_refresh plain_table_port plain_rd_eth_type
  plain_rd_eth_mac plain_eth_at plain_ehddp_at plain_rd_ehddp plain_rd_ehddp_mac plain_rd_arp plain_read_source
  plain_create : progress.

Section ehddp_packets.
Context {sh : shape}.

Lemma plain_repeated_loop r i n id : plain sh (repeated_loop r i n id).
Proof. revert i. induction n; intros i; cbn [repeated_loop]; steps; auto. Qed.
Lemma plain_num_repetido r : plain sh (num_repetido r).
Proof. unfold num_repetido. pose proof plain_repeated_loop. steps. Qed.

Lemma plain_edit_revalidate r :
  plain sh (edit_pkt r (fun p => Packet.packet_handle_std_validate (Packet.with_valid (Packet.with_packet_out p false) false))).
Proof.
  apply plain_edit. intros p. destruct (validate_ctl (Packet.with_valid (Packet.with_packet_out p false) false)) as (-> & _ & _).
  done.
Qed.

Lemma plain_update_data_msg r o m : plain sh (update_data_msg r o m).
Proof. unfold update_data_msg. pose proof plain_num_repetido. pose proof plain_edit_revalidate. steps. Qed.

(** The reply is a new packet. *)
Lemma ok_create_reply mac i o t n sec ack blk :
  ok sh (fun _ => True) (create_ehddp_reply_packet mac i o t n sec ack blk) (fun r s => quiet false r s).
Proof.
  unfold create_ehddp_reply_packet. eapply ok_bind; [apply plain_gets |]. intros dpid.
  eapply ok_bind; [apply plain_fresh_addr |]. intros a. eapply ok_bind; [apply plain_fill |]. intros buf.
  eapply ok_bind; [apply ok_create |]. intros r.
  assert (Hq : forall A (c : Run A), plain sh c -> ok sh (quiet false r) c (fun _ => quiet false r))
    by (intros; by apply acts_ok, plain_acts).
  eapply ok_bind; [apply Hq, plain_fresh_addr |]. intros e. eapply ok_bind; [apply Hq, plain_fresh_addr |]. intros h.
  eapply ok_bind; [apply Hq, plain_edit |].
  - intros p. match goal with |- Packet.packet_out (Packet.packet_handle_std_validate ?q) = true -> _ =>
      by destruct (validate_ctl q) as (-> & _ & _) end.
  - intros []. eapply ok_conseq; [| | apply (ok_ret (quiet false r))]; [done | by intros x s [-> ?]].
Qed.

Lemma plain_notify l : plain sh (notify_ports l).
Proof.
  unfold notify_ports. assert (Hx : forall c, plain sh c ->
    plain sh (fold_left (fun c m => c;;; dp_send_message (PortStatus m)) l c)) by (induction l; intros; cbn; auto; apply IHl; steps).
  apply Hx, plain_ret.
Qed.

Lemma plain_send_localport p n m o t : plain sh (send_new_localport_packet_UAH p n m o t).
Proof.
  unfold send_new_localport_packet_UAH, create_ehddp_new_localport_packet_UAH. steps.
Qed.

Lemma plain_add_local n : plain sh (dp_ports_add_local n).
Proof.
  unfold dp_ports_add_local. pose proof plain_notify. pose proof plain_send_localport.
  apply plain_bind; [apply plain_gets |]. intros s. destruct (Ports.dp_ports_add_local _ _ _ _ _ _) as [[[ps err] mac] out].
  apply plain_bind; [by apply plain_modify |]. intros []. steps.
Qed.

Lemma plain_configure m o t : plain sh (configure_new_local_port_ehddp_UAH m o t).
Proof. unfold configure_new_local_port_ehddp_UAH. pose proof plain_add_local. pose proof plain_send_localport. steps. Qed.

Lemma plain_local_port_loop r i l : plain sh (local_port_loop r i l).
Proof.
  pose proof plain_configure. pose proof plain_notify. induction l as [| ref l IH]; cbn [local_port_loop]; steps.
Qed.

Lemma plain_mod_local_port r : plain sh (ehddp_mod_local_port r).
Proof. unfold ehddp_mod_local_port. pose proof plain_local_port_loop. steps. Qed.

End ehddp_packets.

#[local] Hint Resolve plain_update_data_msg plain_mod_local_port : progress.

Section ehddp_sending.
Context {sh : shape} (b : bool) (resubmit : pktref -> Run ()).
Context (Hres : b = true -> forall c, acts sh false c (resubmit c)).

Lemma quiet_weaken r s : quiet false r s -> quiet b r s.
Proof. intros [Hr Hq]. split; [done |]. intros _. by apply Hq. Qed.

Lemma acts_creator r : acts sh b r (creator_ehddp_reply_packets resubmit r).
Proof.
  unfold creator_ehddp_reply_packets. apply plain_acts.
  do 6 (apply plain_bind; [steps | intros ?]).
  eapply ok_bind; [eapply ok_conseq; [| | apply ok_create_reply]; [done | intros c s; apply quiet_weaken] |].
  intros c. eapply ok_bind; [apply acts_output; exact Hres |]. intros []. apply plain_ok. steps.
Qed.

Lemma acts_request r resent : acts sh b r (handle_ehddp_request_packets resubmit r resent).
Proof.
  unfold handle_ehddp_request_packets. pose proof (acts_creator r). pose proof (acts_output b resubmit Hres). steps.
Qed.

Lemma acts_reply r : acts sh b r (handle_ehddp_reply_packets resubmit r).
Proof. unfold handle_ehddp_reply_packets. pose proof (acts_output b resubmit Hres). steps. Qed.

Lemma acts_select r resent : acts sh b r (select_ehddp_packets resubmit r resent).
Proof. unfold select_ehddp_packets. pose proof (acts_request r). pose proof (acts_reply r). steps. Qed.

Lemma acts_unicast r port : acts sh b r (arp_path_send_unicast resubmit r port).
Proof. unfold arp_path_send_unicast. pose proof (acts_output b resubmit Hres). steps. Qed.

Lemma acts_arp_broadcast r src port : acts sh b r (arp_broadcast resubmit r src port).
Proof. unfold arp_broadcast. pose proof (acts_output b resubmit Hres). steps. Qed.

Lemma acts_arp_unicast r src port : acts sh b r (arp_unicast r src port).
Proof. unfold arp_unicast. steps. Qed.

Lemma acts_arp_path r : acts sh b r (pipeline_arp_path resubmit r).
Proof.
  unfold pipeline_arp_path. pose proof (acts_unicast r). pose proof (acts_arp_broadcast r).
  pose proof (acts_arp_unicast r). steps.
Qed.

(** ** The tables *)

Context (Hac : Group.acyclic (fun id => sh_groups sh !! id)).
Abbreviation group_fuel := (size (sh_groups sh)).

Lemma acts_list r l c : acts sh b r (dp_execute_action_list resubmit (group_table_execute resubmit group_fuel) r l c).
Proof.
  apply (acts_action_list b resubmit Hres _ (fun _ => True)); [| done].
  intros c' g _. by apply ok_any_group.
Qed.

Lemma remark_out p n p' : remark p n = Some p' -> Packet.packet_out p' = Packet.packet_out p.
Proof.
  unfold remark. cbv zeta. destruct (validate_ctl p) as (Ho & _ & _).
  destruct (negb (Packet.valid _)); [by intros [= <-] |].
  match goal with |- (?x ≫= _) = _ -> _ => destruct x end; [| done]. cbn. by intros [= <-].
Qed.

(** A meter may change the bytes of a packet, not where it may go. *)
Lemma meter_out (t : Meter.meter_table M) p m t' p' drop :
  Meter.meter_table_apply (fun p => Ofpbuf.size (Packet.buffer p)) remark t p m = Some (t', p', drop) ->
  Packet.packet_out p' = Packet.packet_out p.
Proof.
  unfold Meter.meter_table_apply. destruct (Meter.meter_table_find _ _) as [e |]; [| by intros [= _ <- _]].
  destruct (Meter.meter_entry_apply _ _ _ _) as [[[e1 p1] d1] |] eqn:E1; [| done]. cbn. intros [= _ <- _].
  unfold Meter.meter_entry_apply in E1. destruct (Meter.choose_band _ _) as [e2 b2].
  destruct (_ =? _); [by injection E1 as _ <- _ |].
  destruct (nth_error _ _) as [[] |]; cbn in E1; try by injection E1 as _ <- _.
  destruct (remark p _) as [p2 |] eqn:E2; [| done]. cbn in E1. injection E1 as _ <- _. by apply remark_out in E2.
Qed.

Lemma plain_meter r m : plain sh (meter_table_apply r m).
Proof.
  intros s Hi _. unfold meter_table_apply, get_pkt, bind, gets, lift.
  destruct (packets s !! r) as [p |] eqn:Hp; [| done].
  destruct (Meter.meter_table_apply _ _ _ _ _) as [[[t p'] drop] |] eqn:E; [| done].
  apply meter_out in E as Ho.
  destruct (spares_inv (sh := sh) (fun s => with_tables s (tables s) (FlowTable.with_meters (world s) t)) s) as [Hi' He'];
    [done | done |].
  unfold modify, put_pkt. cbn. rewrite Hp.
  destruct (put_inv _ r p p' Hi') as [Hi2 He2]; [done | by rewrite Ho |].
  destruct drop; cbn; [| split_and!; [done | by eapply evolves_trans | done]].
  pose proof (plain_destroy r _ Hi2 I) as Hd. cbn in Hd. destruct (packet_destroy r _) as [[[] s3] | |]; [| done | done].
  destruct Hd as (? & ? & _). cbn. split_and!; [done | | done]. eapply evolves_trans; [exact He' |]. by eapply evolves_trans.
Qed.

(** The next table is one the instructions name. *)
Lemma ok_execute_insts r c l next :
  ok sh (quiet b r) (execute_insts resubmit group_fuel r c l next)
    (fun '(_, n) s => quiet b r s /\ (n = next \/ exists t, n = Some t /\ Inst_goto_table t ∈ l)).
Proof.
  revert next. induction l as [| i l IH]; intros next; cbn [execute_insts].
  { eapply ok_conseq; [| | apply (ok_ret (quiet b r))]; [done |]. intros [a n] s [[= -> ->] ?]. split; [done | by left]. }
  assert (Hx : forall next', ok sh (quiet b r) (execute_insts resubmit group_fuel r c l next')
    (fun '(_, n) s => quiet b r s /\ (n = next' \/ exists t, n = Some t /\ Inst_goto_table t ∈ i :: l))).
  { intros next'. eapply ok_conseq; [| | apply (IH next')]; [done |]. intros [a n] s [? Hn]. split; [done |].
    destruct Hn as [? | (t & ? & ?)]; [by left |]. right. exists t. split; [done | by right]. }
  assert (Hs : forall A (k : Run A) (f : A -> Run (bool * option Z)) Q, acts sh b r k ->
    (forall x, ok sh (quiet b r) (f x) Q) -> ok sh (quiet b r) (bind k f) Q)
    by (intros; eapply ok_bind; [by apply acts_ok | done]).
  destruct i as [t | md mask | acts0 | acts0 | | m | ex].
  - eapply ok_conseq; [| | apply (Hx (Some t))]; [done |]. intros [a n] s [? Hn]. split; [done |].
    destruct Hn as [-> | ?]; [| by right]. right. exists t. split; [done | by left].
  - apply Hs; [| intros []; apply Hx]. apply plain_acts, plain_edit. intros p. cbn.
    by destruct (validate_ctl p) as (-> & _ & _).
  - apply Hs; [| intros []; apply Hx]. by apply plain_acts, plain_edit.
  - apply Hs; [apply acts_list | intros []; apply Hx].
  - apply Hs; [| intros []; apply Hx]. by apply plain_acts, plain_edit.
  - apply Hs; [apply plain_acts, plain_meter |]. intros []; [apply Hx |].
    eapply ok_conseq; [| | apply (ok_ret (quiet b r))]; [done |]. intros [a n] s [[= -> ->] ?]. split; [done | by left].
  - apply Hx.
Qed.

(** A lookup changes the counters of one entry, and what was parsed of the packet. *)
Lemma lookup_loop_keeps p now l :
  let '(p', l', e) := FlowTable.lookup_loop p now l in
  same_ctl p p' /\ map entry_insts l' = map entry_insts l /\
  forall x, e = Some x -> entry_insts x ∈ map entry_insts l.
Proof.
  revert p. induction l as [| x l IH]; intros p; cbn [FlowTable.lookup_loop]; [split_and!; [apply same_ctl_refl | done | done] |].
  assert (Hm : same_ctl p (fst (Packet.packet_handle_std_match p (FlowTable.fmatch (FlowTable.stats x))))).
  { unfold Packet.packet_handle_std_match. destruct (Packet.valid _); [apply same_ctl_refl |].
    pose proof (validate_ctl p). by destruct (Packet.valid _). }
  destruct (Packet.packet_handle_std_match _ _) as [p1 []]; cbn [fst] in Hm.
  - split_and!; [done | done |]. intros y [= <-]. by left.
  - specialize (IH p1). destruct (FlowTable.lookup_loop p1 now l) as [[p2 l2] e2]. destruct IH as (H1 & H2 & H3).
    split_and!; [by eapply same_ctl_trans | cbn; by rewrite H2 |]. intros y Hy. right. by apply H3.
Qed.

Lemma ok_lookup r t :
  ok sh (quiet b r) (lookup_in r t)
    (fun e s => quiet b r s /\ forall x, e = Some x -> exists l, sh_tables sh !! Z.to_nat t = Some l /\ entry_insts x ∈ l).
Proof.
  intros s Hi Hq. unfold lookup_in, bind, gets, lift, get_pkt, modify, put_pkt, id.
  destruct (tables s !! Z.to_nat t) as [ft |] eqn:Et; [| done].
  destruct (packets s !! r) as [p |] eqn:Ep; [| done]. unfold FlowTable.flow_table_lookup.
  pose proof (lookup_loop_keeps p (time_msec s) (FlowTable.match_entries ft)) as Hk.
  destruct (FlowTable.lookup_loop _ _ _) as [[p' l'] e]. destruct Hk as (Hc & Hl & He). cbn.
  rewrite Ep. set (ft' := FlowTable.FTable _ _ _ _ _ _).
  assert (Hi' : inv sh (with_tables s (<[Z.to_nat t:=ft']> (tables s)) (world s))).
  { destruct Hi as [H1 H2 H3 H4]. split; try done. rewrite <- H3. cbn. rewrite list_fmap_insert.
    apply list_insert_id. by rewrite list_lookup_fmap, Et; cbn; rewrite Hl. }
  destruct (put_inv _ r p p' Hi') as [Hi2 He2]; [done | destruct Hc as (-> & _ & _); done |].
  assert (He' : evolves s (with_packets s (next_pkt s) (<[r:=p']> (packets s)))) by (destruct He2; split; assumption).
  split; [done |]. split; [destruct He'; split; assumption |].
  split; [destruct (quiet_evolves b r _ _ He' Hq); split; assumption |].
  intros x ->. exists (map entry_insts (FlowTable.match_entries ft)). split; [| by apply He].
  rewrite <- (inv_tables sh s Hi), list_lookup_fmap, Et. done.
Qed.

(** The instructions of a table name only tables after it. *)
Definition goes_forward (sh : shape) : Prop :=
  forall t l insts t', sh_tables sh !! t = Some l -> insts ∈ l -> Inst_goto_table t' ∈ insts ->
    Z.of_nat t < t' < length (sh_tables sh).

Context (Hfwd : goes_forward sh).

Lemma acts_action_set r c :
  acts sh b r (action_set_execute resubmit (group_table_execute resubmit group_fuel) r c).
Proof.
  eapply ok_conseq; [| | apply (ok_action_set b resubmit Hres _ (fun _ => True))]; [| done |].
  - intros s Hq. split; [done |]. intros p Hp. split; [by right | done].
  - intros c' g _. by apply ok_any_group.
Qed.

(** A packet that no entry matches. *)
Lemma acts_miss r resent :
  acts sh b r (other <- select_ehddp_packets resubmit r resent;;
               when other (pipeline_arp_path resubmit r);;; packet_destroy r).
Proof. pose proof (acts_select r resent). pose proof (acts_arp_path r). steps. Qed.

(** From each table there are at most as many lookups as tables left. *)
Lemma acts_tables (fuel : nat) r resent t :
  0 <= t < length (sh_tables sh) -> length (sh_tables sh) <= fuel + t ->
  acts sh b r (tables_loop resubmit group_fuel fuel r resent t).
Proof.
  revert t. induction fuel as [| fuel IH]; intros t Ht Hf; [lia |]. cbn [tables_loop].
  apply acts_bind; [by apply plain_acts, plain_edit | intros _].
  eapply ok_bind; [apply ok_lookup |]. intros e. destruct e as [e |].
  2: { eapply ok_conseq; [| | apply (acts_miss r resent)]; [by intros s [? _] | done]. }
  intros s Hi [Hq He]. destruct (He e eq_refl) as (l & Hl & Hin). clear He. revert s Hi Hq.
  change (acts sh b r (edit_pkt r (fun p => let h := Packet.handle_std p in
    Packet.with_handle p (Packet.Handle (Packet.proto h) (Packet.hmatch h) (Packet.valid h) (is_table_miss e)));;;
    '(alive, next) <- execute_insts resubmit group_fuel r (FlowTable.cookie (FlowTable.stats e)) (entry_insts e) None;;
    if negb alive then ret tt
    else match next with
         | None => action_set_execute resubmit (group_table_execute resubmit group_fuel) r NO_COOKIE
         | Some t' => tables_loop resubmit group_fuel fuel r resent t'
         end)).
  apply acts_bind; [by apply plain_acts, plain_edit | intros _].
  eapply ok_bind; [apply ok_execute_insts |]. intros [alive next] s Hi [Hq Hn].
  destruct alive; cbn [negb]; [| by apply (plain_ret tt)].
  destruct next as [t' |]; [| by apply acts_action_set].
  destruct Hn as [? | (t1 & [= <-] & Hg)]; [done |]. destruct (Hfwd _ _ _ _ Hl Hin Hg) as [Hlt Hlen].
  apply IH; [lia | lia | done | done].
Qed.

Lemma acts_arp_control r : acts sh b r (arp_control resubmit r).
Proof. unfold arp_control. pose proof (acts_arp_path r). steps. Qed.

Lemma is_ttl_valid_ctl p p' v : Packet.packet_handle_std_is_ttl_valid p = Some (p', v) -> same_ctl p p'.
Proof.
  unfold Packet.packet_handle_std_is_ttl_valid. pose proof (validate_ctl p) as Hc. set (q := Packet.packet_handle_std_validate p) in *.
  match goal with |- (?x ≫= _) = _ -> _ => destruct x as [[] |] end; cbn [mbind option_bind negb]; [| by intros [= <- _] | done].
  match goal with |- (?x ≫= _) = _ -> _ => destruct x as [] end; cbn; [by intros [= <- _] | done].
Qed.

Lemma acts_process (table_fuel : nat) r :
  (0 < length (sh_tables sh) <= table_fuel)%nat -> acts sh b r (process_packet resubmit group_fuel table_fuel r).
Proof.
  intros Hlen. unfold process_packet. eapply ok_bind; [apply ok_get |]. intros p. intros s Hi Hp.
  unfold bind at 1, lift. destruct (Packet.packet_handle_std_is_ttl_valid p) as [[p' v] |] eqn:E; [| done].
  apply is_ttl_valid_ctl in E as (Ho & _ & _). revert s Hi Hp.
  match goal with |- forall s, inv sh s -> _ -> ends sh s ?Q (?c s) =>
    change (ok sh (fun s => packets s !! r = Some p /\ quiet b r s) c Q) end.
  eapply ok_bind; [apply ok_put_quiet; exact Ho |]. intros [].
  eapply ok_conseq with (P' := quiet b r); [by intros s [? _] | by intros ? ? Hx; exact Hx |].
  pose proof (acts_arp_control r). assert (forall resent, acts sh b r (tables_loop resubmit group_fuel table_fuel r resent 0))
    by (intros; apply acts_tables; lia).
  match goal with |- ok sh _ ?c _ => change (acts sh b r c) end. steps.
Qed.

End ehddp_sending.

(** ** Any packet *)

Lemma acts_pipeline (sh : shape) (table_fuel : nat) r :
  Group.acyclic (fun id => sh_groups sh !! id) -> goes_forward sh -> (0 < length (sh_tables sh) <= table_fuel)%nat ->
  acts sh true r (pipeline_process_packet 1 (size (sh_groups sh)) table_fuel r).
Proof.
  intros Hac Hfwd Hlen. cbn [pipeline_process_packet]. apply acts_process; [| done..].
  intros _ c. by apply acts_process.
Qed.

(** The flows of each table go only to tables after it. *)
Definition tables_forward (ts : list FlowTable.flow_table) : Prop :=
  forall (t : nat) ft e t', ts !! t = Some ft -> e ∈ FlowTable.match_entries ft ->
    Inst_goto_table t' ∈ entry_insts e -> Z.of_nat t < t' < length ts.

(** What a datapath keeps: the groups have no loop, there are all the tables and their flows
    go forward, and the next packet is new. *)
Record datapath_ok (s : dp) : Prop := {
  dk_groups : Group.table_ok (FlowTable.groups (world s));
  dk_tables : Z.of_nat (length (tables s)) = PIPELINE_TABLES;
  dk_forward : tables_forward (tables s);
  dk_fresh r p : packets s !! r = Some p -> (r < next_pkt s)%positive }.

Definition shape_of (s : dp) : shape :=
  Shape ((fun e => Group.buckets (Group.desc e)) <$> group_map s)
    (map (fun t => map entry_insts (FlowTable.match_entries t)) (tables s)).

Lemma shape_inv s : datapath_ok s -> inv (shape_of s) s.
Proof. intros [H1 H2 H3 H4]. by split; [apply H1 | ..]. Qed.

Lemma shape_forward s : tables_forward (tables s) -> goes_forward (shape_of s).
Proof.
  intros Hf t l insts t'. cbn. rewrite length_map. rewrite list_lookup_fmap. intros Hl Hin Hg.
  destruct (tables s !! t) as [ft |] eqn:Et; [| done]. injection Hl as <-.
  apply list_elem_of_fmap in Hin as (e & -> & He). by apply (Hf t ft e).
Qed.

Lemma shape_acyclic s : Group.acyclic (Group.buckets_of (group_map s)) -> Group.acyclic (fun id => sh_groups (shape_of s) !! id).
Proof. apply Group.acyclic_sub. intros i j. unfold Group.edge, Group.succs, Group.buckets_of. cbn. by rewrite lookup_fmap. Qed.

(** C1. Every packet is dealt with in bounded work. As the groups have no loop, the flows go
    forward through the 64 tables, and a packet that was sent back to the tables may not be
    sent back again, a packet that is handed to the pipeline never makes it run on: as many
    nested groups as there are groups, 64 lookups and one packet sent back are enough. The
    groups keep their buckets and the flows their instructions, so this holds of the next one. *)
Theorem pipeline_terminates s r :
  datapath_ok s -> is_Some (packets s !! r) ->
  match pipeline_process_packet 1 (size (group_map s)) 64 r s with
  | Done (_, s') => shape_of s' = shape_of s /\ forall r' p, packets s' !! r' = Some p -> (r' < next_pkt s')%positive
  | Fault => True
  | Fuel => False
  end.
Proof.
  intros Hok [p Hp]. pose proof (shape_inv s Hok) as Hi.
  pose proof (acts_pipeline (shape_of s) 64 r) as Hx. unfold group_map in *. cbn [shape_of sh_groups] in Hx.
  rewrite map_size_fmap in Hx. pose proof (Hx (shape_acyclic s (Group.tok_acyclic _ (dk_groups s Hok)))
    (shape_forward s (dk_forward s Hok))) as Hy. clear Hx.
  assert (Hr : quiet true r s) by (split; [by eapply (dk_fresh s Hok) | done]).
  pose proof (dk_tables s Hok) as Hl. unfold PIPELINE_TABLES in Hl.
  specialize (Hy ltac:(cbn; rewrite length_map; lia) s Hi Hr).
  destruct (pipeline_process_packet _ _ _ _ _) as [[u s'] | |]; [| done | done].
  destruct Hy as ([_ Hg Ht Hf] & _ & _). split; [| done]. unfold shape_of at 1. by rewrite Hg, Ht.
Qed.


End progress.

(** * Examples *)

(** A parser that finds the Ethernet header and no fields. *)
#[local] Instance demo_env : Env := {|
  env_parser := fun buf _ => (ofl_structs_match_init, Packet.Protocols (Ofpbuf.data buf) 0 0 0 0 0 0 0 0 0 0 0 0 0 0, true);
  junk := fun _ => 0; garbage_headers := FlowTable.no_headers; garbage_miss := false;
  malloc := fun n => 4096 * (n + 1); netdev_send := fun _ _ _ _ => true;
  device_of := fun _ => Ports.demo_device; in4_of := fun _ => None; current_timestamp := 0; qsort := fun _ l => l |}.

Definition demo_frame : list Z :=
  [2; 0; 0; 0; 0; 9; 2; 0; 0; 0; 0; 8; 8; 0] ++ repeat 7 46.
Definition demo_packet : Packet.packet :=
  Packet.packet_create 3 (Ofpbuf.Buf 100 demo_frame 100 60 0 0 0 0) false FlowTable.no_headers false.

Definition demo_flow (a : positive) (insts : list ofl_instruction) : FlowTable.flow_table :=
  FlowTable.FTable
    [FlowTable.new_entry a (FlowTable.FMod 0 0 0 FlowTable.OFPFC_ADD 0 0 5 0xffffffff OFPP_ANY OFPG_ANY 0
       ofl_structs_match_init (FlowTable.Insts a insts)) 1000] [] [] 1 0 0.

Definition demo_ehddp : ehddp :=
  Ehddp ∅ MacTable.mac_to_port_new MacTable.mac_to_port_new 0 0 [] 0 false 1 0 0 0 0 0 0 0 0 0 0.

Definition demo_dp (ts : list FlowTable.flow_table) : datapath (hmap Group.group_entry) (hmap Meter.meter_entry) :=
  DP 7 5000 128 0 2 {[1%positive := demo_packet]} Buffers.dp_buffers_create ts
    (FlowTable.World (Group.GTable 0 tbl_empty 0) (Meter.MTable 0 tbl_empty 0) ∅ []) Ports.demo_ports [] demo_ehddp.

(** The first table writes an output to its action set and goes on to the second. *)
Definition demo_tables : list FlowTable.flow_table :=
  demo_flow 1 [Inst_write_actions [Act_output 2 0]; Inst_goto_table 5] :: repeat FlowTable.flow_table_create 4 ++
  demo_flow 2 [Inst_apply_actions [Act_output 1 0]] :: repeat FlowTable.flow_table_create 58.


(** Whether the flows of the tables, the first with number [t] of [n], go forward. *)
Fixpoint forwardb (n t : Z) (ts : list FlowTable.flow_table) : bool :=
  match ts with
  | [] => true
  | ft :: ts =>
      forallb (fun e => forallb (fun i => match i with Inst_goto_table t' => (t <? t') && (t' <? n) | _ => true end)
                          (entry_insts e)) (FlowTable.match_entries ft) && forwardb n (t + 1) ts
  end.

Lemma forwardb_sound n t ts :
  forwardb n t ts = true -> forall (k : nat) ft e t', ts !! k = Some ft -> e ∈ FlowTable.match_entries ft ->
  Inst_goto_table t' ∈ entry_insts e -> t + k < t' < n.
Proof.
  revert t. induction ts as [| ft0 ts IH]; intros t Hb k ft e t' Hk He Hg; [done |].
  cbn in Hb. apply andb_true_iff in Hb as [Hb Hbs]. destruct k as [| k].
  - injection Hk as ->. rewrite forallb_forall in Hb. apply list_elem_of_In in He. specialize (Hb e He).
    rewrite forallb_forall in Hb. apply list_elem_of_In in Hg. specialize (Hb _ Hg). cbn in Hb. lia.
  - specialize (IH _ Hbs k ft e t' Hk He Hg). lia.
Qed.

Lemma demo_dp_ok : datapath_ok (demo_dp demo_tables).
Proof.
  split; [apply (Group.empty_group_table_ok (T := hmap Group.group_entry)) | done | |].
  - intros t ft e t' Ht He Hg. by apply (forwardb_sound 64 0 demo_tables eq_refl t ft e).
  - intros r p Hp. cbn in Hp. apply lookup_singleton_Some in Hp as [<- _]. done.
Defined.

(** The ports the frames went out of, and how many packets are left. *)
Definition sent_on {A G M} (o : outcome (A * datapath G M)) : option (list Ports.portref * nat) :=
  match o with Done (_, s) => Some (map Ports.f_port (Ports.wire (ports s)), size (packets s)) | _ => None end.

Lemma pipeline_terminates_witness :
  exists s', pipeline_process_packet 1 0 64 1%positive (demo_dp demo_tables) = Done (tt, s') /\
    shape_of s' = shape_of (demo_dp demo_tables) /\
    map Ports.f_port (Ports.wire (ports s')) = [Ports.PSlot 1; Ports.PSlot 2] /\ packets s' = ∅.
Proof.
  assert (Hrun : sent_on (pipeline_process_packet 1 0 64 1%positive (demo_dp demo_tables)) =
    Some ([Ports.PSlot 1; Ports.PSlot 2], 0%nat)) by (by vm_compute).
  pose proof (pipeline_terminates (demo_dp demo_tables) 1%positive demo_dp_ok ltac:(by eexists)) as Ht.
  change (size (group_map (demo_dp demo_tables))) with 0%nat in Ht.
  destruct (pipeline_process_packet 1 0 64 1%positive (demo_dp demo_tables)) as [[[] s'] | |]; [| done | done].
  destruct Ht as [Hs _]. exists s'. injection Hrun as Hw Hz. split_and!; [done | exact Hs | exact Hw |].
  by apply map_size_empty_inv.
Defined.

(** ** A flow that goes to its own table *)

(** Such a flow, when it matches every packet, keeps the pipeline running. *)
Lemma goto_own_table `{!IdTable G Group.group_entry} `{!IdTable M Meter.meter_entry} `{!Env}
    resubmit group_fuel (fuel : nat) r resent (s : datapath G M) ft e rest p :
  tables s !! 0%nat = Some ft -> FlowTable.match_entries ft = e :: rest ->
  FlowTable.fmatch (FlowTable.stats e) = ofl_structs_match_init -> entry_insts e = [Inst_goto_table 0] ->
  packets s !! r = Some p -> Packet.valid (Packet.handle_std p) = true ->
  tables_loop resubmit group_fuel fuel r resent 0 s = Fuel.
Proof.
  revert s ft e p. induction fuel as [| fuel IH]; intros s ft e p Ht Hm Hf Hg Hp Hv; [done |].
  cbn [tables_loop]. unfold edit_pkt, lookup_in, bind, gets, get_pkt, put_pkt, lift, modify, id.
  change (Z.to_nat 0) with 0%nat.
  repeat (first [rewrite Hp | rewrite Ht | rewrite lookup_insert_eq]; cbn -[lookup insert tables_loop FlowTable.flow_table_lookup]).
  unfold FlowTable.flow_table_lookup. rewrite Hm. cbn [FlowTable.lookup_loop].
  unfold Packet.packet_handle_std_match. cbn [Packet.with_table_id Packet.handle_std]. rewrite Hv, Hf.
  cbn -[lookup insert tables_loop].
  repeat (rewrite lookup_insert_eq; cbn -[lookup insert tables_loop]).
  unfold entry_insts in Hg. rewrite Hg. cbn -[lookup insert tables_loop]. eapply IH; cbn -[lookup insert].
  - rewrite list_lookup_insert_eq; [done |]. by apply lookup_lt_Some in Ht.
  - done.
  - exact Hf.
  - exact Hg.
  - apply lookup_insert_eq.
  - exact Hv.
Qed.

(** A flow of the first table that goes to the first table is accepted, and then the packets
    it matches never leave the tables. *)
Definition self_goto : FlowTable.flow_mod :=
  FlowTable.FMod 0 0 0 FlowTable.OFPFC_ADD 0 0 5 0xffffffff OFPP_ANY OFPG_ANY 0 ofl_structs_match_init
    (FlowTable.Insts 1 [Inst_goto_table 0]).

Lemma self_goto_loops :
  exists s', pipeline_handle_flow_mod (fun _ => ret tt) self_goto 0 9%positive
               (demo_dp (repeat FlowTable.flow_table_create 64)) = Done (0, s') /\
  forall resubmit group_fuel table_fuel resent,
    tables_loop resubmit group_fuel table_fuel 1%positive resent 0 s' = Fuel.
Proof.
  eexists. split; [vm_compute; reflexivity |]. intros. by eapply goto_own_table.
Qed.

(** ** A flow that has been idle *)

Definition demo_idle : datapath (hmap Group.group_entry) (hmap Meter.meter_entry) :=
  let s := demo_dp (FlowTable.demo_table :: repeat FlowTable.flow_table_create 63) in
  DP (dp_id s) 20000 (miss_send_len s) (mallocs s) (next_pkt s) (packets s) (dp_buffers s) (tables s) FlowTable.demo_world
    (ports s) [] (eh s).

Lemma demo_idle_ok : tables_ok (world demo_idle) (tables demo_idle).
Proof.
  assert (Hin : forall (i : nat) t e, tables demo_idle !! i = Some t -> e ∈ FlowTable.match_entries t -> i = 0%nat /\ e = FlowTable.demo_entry).
  { intros [| i] t e Ht He; cbn [demo_idle tables demo_dp] in Ht.
    - injection Ht as <-. by apply list_elem_of_singleton in He.
    - change ((FlowTable.demo_table :: ?l) !! S i) with (l !! i) in Ht.
      apply list_elem_of_lookup_2, list_elem_of_In, repeat_spec in Ht as ->. by apply not_elem_of_nil in He. }
  split.
  - constructor; [apply FlowTable.demo_table_ok |]. apply Forall_forall. intros t Ht%list_elem_of_In%repeat_spec.
    subst t. apply FlowTable.table_ok_create.
  - apply Forall_lookup. intros i t Ht. apply Forall_forall. intros e He.
    destruct (Hin i t e Ht He) as [_ ->]. by apply (bool_decide_unpack _).
  - intros i j t t' e e' Hi Hj Hne He He'. destruct (Hin i t e Hi He) as [-> _], (Hin j t' e' Hj He') as [-> _]. done.
Defined.

Lemma pipeline_timeout_clears_witness :
  exists s', pipeline_timeout 64 0 demo_idle = Done (tt, s') /\
    (FlowTable.match_entries <$> tables s' !! 0%nat) = Some [] /\ length (FlowTable.sent (world s')) = 1%nat.
Proof.
  destruct (pipeline_timeout_clears demo_idle demo_idle_ok eq_refl) as (s' & E & _ & Hf).
  exists s'. split; [exact E |]. split.
  - destruct (Forall2_lookup_l _ _ _ 0%nat FlowTable.demo_table Hf eq_refl) as (t' & -> & Hm & _). cbn. rewrite Hm. by vm_compute.
  - assert (Hx : match pipeline_timeout 64 0 demo_idle with Done (_, s') => length (FlowTable.sent (world s')) | _ => 0%nat end = 1%nat)
      by (by vm_compute). change (Z.to_nat PIPELINE_TABLES) with 64%nat in E. by rewrite E in Hx.
Defined.

End Progress.
