(* ===== verification/Explore.v ===== *)
(** The exploration of the network by eHDDP: of the copies of a request that go through the pipeline
    of a switch, one is passed on and the others are answered, while its entry is valid. *)
From S2P Require Import Prelude HMap Oxm OflTypes MatchStd ActionSet Buffers Meter Group Ofpbuf Packet FlowTable.
From S2P Require Import DpActions Ports MacTable Datapath Forward Ehddp Pipeline Progress.
Open Scope Z_scope.

Module Explore.
Import Datapath Forward Ehddp.

Section explore.
Context {G M : Type} `{!IdTable G Group.group_entry} `{!IdTable M Meter.meter_entry} `{!Env}.
Abbreviation Run := (run (G := G) (M := M)).
Abbreviation dp := (datapath G M).
Abbreviation pktref := Buffers.pktref.

(** ** Computations that leave the tables of addresses and the packets there are alone *)

(** The first table has no entries, as in a switch that has not been configured yet. *)
Definition bare (s : dp) : Prop := exists ft rest, tables s = ft :: rest /\ FlowTable.match_entries ft = [].

Record calm (s s' : dp) : Prop := {
  calm_bare : bare s -> bare s';
  calm_heap : mac_heap (eh s') = mac_heap (eh s);
  calm_bt : bt_table (eh s') = bt_table (eh s);
  calm_id : dp_id s' = dp_id s;
  calm_next : (next_pkt s <= next_pkt s')%positive;
  calm_packets r p : (r < next_pkt s)%positive -> packets s !! r = Some p -> packets s' !! r = Some p }.

Definition calms {A} (c : Run A) : Prop := forall s x s', c s = Done (x, s') -> calm s s'.

Lemma calm_refl s : calm s s.
Proof. by split. Qed.

Lemma calm_trans s1 s2 s3 : calm s1 s2 -> calm s2 s3 -> calm s1 s3.
Proof.
  intros [H0 H1 H2 H3 H4 H5] [K0 K1 K2 K3 K4 K5]. split; [by auto | congruence.. | lia |].
  intros r p Hr Hp. apply K5; [lia | by apply H5].
Qed.

Lemma calms_bind {A B} (c : Run A) (k : A -> Run B) : calms c -> (forall x, calms (k x)) -> calms (bind c k).
Proof.
  intros Hc Hk s y s'. unfold bind. destruct (c s) as [[x s1] | |] eqn:E; [| done | done]. intros E'.
  eapply calm_trans; [by eapply Hc | by eapply Hk].
Qed.

Lemma calms_ret {A} (x : A) : calms (ret x).
Proof. intros s y s' [= _ <-]. apply calm_refl. Qed.
Lemma calms_gets {A} (f : dp -> A) : calms (gets f).
Proof. intros s y s' [= _ <-]. apply calm_refl. Qed.
Lemma calms_lift {A} (x : option A) : calms (lift x).
Proof. intros s y s'. unfold lift. destruct x; [| done]. intros [= _ <-]. apply calm_refl. Qed.
Lemma calms_fault {A} : calms (fault (A := A)).
Proof. by intros s y s'. Qed.
Lemma calms_get r : calms (get_pkt r).
Proof. intros s y s'. unfold get_pkt. destruct (packets s !! r); [| done]. intros [= _ <-]. apply calm_refl. Qed.
Lemma calms_modify f : (forall s, calm s (f s)) -> calms (modify f).
Proof. intros Hf s y s' [= _ <-]. apply Hf. Qed.
Lemma calms_fresh : calms fresh_addr.
Proof. intros s y s' [= _ <-]. by split. Qed.
Lemma calms_send m : calms (dp_send_message m).
Proof. apply calms_modify. by split. Qed.

Create HintDb explore.
#[local] Hint Resolve calms_ret calms_gets calms_lift calms_fault calms_get calms_fresh calms_send : explore.

Ltac calm_step :=
  lazymatch goal with
  | |- calms (bind _ _) => apply calms_bind; [| intros ?]
  | |- calms (if ?b then _ else _) => destruct b
  | |- calms (match ?x with _ => _ end) => destruct x
  | |- calms (let _ := _ in _) => cbv zeta
  | |- calms _ => solve [eauto with explore]
  end.
Ltac calm_steps := repeat calm_step.

Lemma calms_fill b l : calms (fill b l).
Proof. revert b. induction l as [| c l IH]; intros b; cbn [fill]; calm_steps. Qed.
#[local] Hint Resolve calms_fill : explore.

Lemma calms_assoc {A B C} (c : Run A) (k : A -> Run B) (j : B -> Run C) :
  calms (bind c (fun x => bind (k x) j)) -> calms (bind (bind c k) j).
Proof.
  intros Hc s y s' E. apply (Hc s y s'). unfold bind in *. destruct (c s) as [[x s1] | |]; [done.. | done].
Qed.

(** What is done with a new packet changes no other. *)
Lemma calms_new {A} port buf f (k : Packet.packet -> Run A) :
  (forall p, calms (k p)) ->
  calms (r <- packet_create port buf false;; edit_pkt r f;;; p <- get_pkt r;; k p).
Proof.
  intros Hk s y s'. unfold packet_create, alloc_pkt, edit_pkt, get_pkt, put_pkt, bind.
  set (q := Packet.packet_create _ _ _ _ _). cbn [with_packets packets].
  repeat (rewrite lookup_insert_eq; cbn [with_packets packets next_pkt]).
  intros E. eapply calm_trans; [| by eapply Hk].
  split; cbn -[lookup insert]; [done.. | lia |].
  intros r q' Hr Hq. rewrite !lookup_insert_ne by lia. done.
Qed.

(** The message about a local port is made of a packet of its own. *)
Lemma calms_send_localport p n m o t : calms (send_new_localport_packet_UAH p n m o t).
Proof.
  unfold send_new_localport_packet_UAH, create_ehddp_new_localport_packet_UAH.
  repeat (apply calms_assoc; apply calms_bind; [eauto with explore | intros ?]).
  apply calms_new. eauto with explore.
Qed.
#[local] Hint Resolve calms_send_localport : explore.

Lemma calms_notify l : calms (notify_ports l).
Proof.
  unfold notify_ports. assert (Hx : forall c, calms c ->
    calms (fold_left (fun c m => c;;; dp_send_message (PortStatus m)) l c))
    by (induction l; intros; cbn; auto; apply IHl; calm_steps).
  apply Hx, calms_ret.
Qed.

(** A change of the globals that are not tables. *)
Lemma calms_edit_ehddp f :
  (forall e, mac_heap (f e) = mac_heap e /\ bt_table (f e) = bt_table e) -> calms (edit_ehddp f).
Proof. intros Hf. apply calms_modify. intros s. destruct (Hf (eh s)). by split. Qed.
#[local] Hint Resolve calms_notify : explore.
#[local] Hint Extern 3 (calms (edit_ehddp _)) => (apply calms_edit_ehddp; done) : explore.
#[local] Hint Extern 3 (calms (modify _)) => (apply calms_modify; by split) : explore.

Lemma calms_add_local n : calms (dp_ports_add_local n).
Proof.
  unfold dp_ports_add_local. apply calms_bind; [apply calms_gets |]. intros s.
  destruct (Ports.dp_ports_add_local _ _ _ _ _ _) as [[[ps err] mac] out]. calm_steps.
Qed.
#[local] Hint Resolve calms_add_local : explore.

Lemma calms_rd_ehddp r o n : calms (rd_ehddp r o n).
Proof. unfold rd_ehddp, ehddp_at, headers, rd. calm_steps. Qed.
#[local] Hint Resolve calms_rd_ehddp : explore.

Lemma calms_local_port_loop r i l : calms (local_port_loop r i l).
Proof.
  assert (forall m o t, calms (configure_new_local_port_ehddp_UAH m o t))
    by (intros; unfold configure_new_local_port_ehddp_UAH; calm_steps).
  induction l as [| ref l IH]; cbn [local_port_loop]; calm_steps.
Qed.

(** ** Requests *)

(** [len] bytes at an offset from a header of the packet. *)
Definition at_eth (p : Packet.packet) (off : Z) (len : nat) : option (list Z) :=
  Ofpbuf.load (Packet.buffer p) (Packet.eth (Packet.proto (Packet.handle_std p)) + off) len.
Definition at_ehddp (p : Packet.packet) (off : Z) (len : nat) : option (list Z) :=
  Ofpbuf.load (Packet.buffer p) (Packet.ehddp (Packet.proto (Packet.handle_std p)) + off) len.

(** The packet was parsed to a request of eHDDP with this origin, number and block time: it has an
    Ethernet and an eHDDP header and no other, and [src] and [ack] are in it. *)
Record request (p : Packet.packet) (src mac : list Z) (sec ack blk : Z) : Prop := {
  rq_valid : Packet.valid (Packet.handle_std p) = true;
  rq_only : Packet.mpls (Packet.proto (Packet.handle_std p)) = 0 /\ Packet.ipv4 (Packet.proto (Packet.handle_std p)) = 0 /\
            Packet.udp (Packet.proto (Packet.handle_std p)) = 0;
  rq_type : exists b, at_eth p eth_type 2 = Some b /\ is_ehddp_type (le_load b) = true;
  rq_src : at_eth p eth_src 6 = Some src;
  rq_opcode : exists b, at_ehddp p opcode 1 = Some b /\ le_load b = 1;
  rq_mac : at_ehddp p src_mac 6 = Some mac;
  rq_sec : exists b, at_ehddp p num_sec 8 = Some b /\ le_load b = sec;
  rq_ack : exists b, at_ehddp p num_ack 8 = Some b /\ le_load b = ack;
  rq_block : exists b, at_ehddp p time_block 4 = Some b /\ le_load b = blk }.

Lemma bind_eq {A B} (c : Run A) (k : A -> Run B) s x s' : c s = Done (x, s') -> bind c k s = k x s'.
Proof. intros E. unfold bind. by rewrite E. Qed.

Lemma get_pkt_eq (s : dp) r p : packets s !! r = Some p -> get_pkt r s = Done (p, s).
Proof. intros Hp. unfold get_pkt. by rewrite Hp. Qed.

Ltac reads := unfold at_eth, at_ehddp; intros Hp Hb; unfold rd_eth_type, rd_eth_mac, rd_ehddp, rd_ehddp_mac, eth_at, ehddp_at, headers, rd, rd_bytes, get_pkt, lift, bind, ret;
  rewrite Hp; cbv beta iota; rewrite Hp; by rewrite Hb.
Lemma rd_eth_type_eq (s : dp) r p b : packets s !! r = Some p -> at_eth p eth_type 2 = Some b -> rd_eth_type r s = Done (le_load b, s).
Proof. reads. Qed.
Lemma rd_eth_mac_eq (s : dp) r p o b : packets s !! r = Some p -> at_eth p o 6 = Some b -> rd_eth_mac r o s = Done (b, s).
Proof. reads. Qed.
Lemma rd_ehddp_eq (s : dp) r p o n b : packets s !! r = Some p -> at_ehddp p o n = Some b -> rd_ehddp r o n s = Done (le_load b, s).
Proof. reads. Qed.
Lemma rd_ehddp_mac_eq (s : dp) r p o b : packets s !! r = Some p -> at_ehddp p o 6 = Some b -> rd_ehddp_mac r o s = Done (b, s).
Proof. reads. Qed.

Definition counted (s : dp) : dp := with_ehddp s (count_pkt (eh s) 1 0 0 0).

(** What is done with a request, when the reads are over. *)
Lemma request_run s r src mac sec ack blk p :
  let port := Packet.in_port p in
  packets s !! r = Some p -> request p src mac sec ack blk -> 1 < dp_id s < 1000 ->
  ehddp_mod_local_port r s =
  (result <- table_port BT mac sec;;
   if result <=? 0 then
     edit_ehddp (fun e => with_local e (signed 32 port) (old_local_port e) (old_local_port_MAC e)
                            (time_no_move_local_port e) (local_port_ok e) (time_init_local_port e));;;
     (if result =? -1 then table_add BT mac port (htonl blk) sec
      else table_update BT mac port (htonl blk) sec);;;
     s <- gets id;;
     if negb (type_device_general (eh s) =? 2) && may_move (time_msec s) (time_no_move_local_port (eh s)) then
       failed <- local_port_loop r port (Ports.port_list (ports s));;
       if failed : bool then ret 255
       else
         edit_ehddp (fun e => with_local e (port_to_controller e) (old_local_port e) (old_local_port_MAC e)
                                (u64 (time_msec s + Time_wait_local_port)) (local_port_ok e) (time_init_local_port e));;;
         ret 1
     else ret 1
   else table_add BT mac port (htonl blk) sec;;; ret 0) (counted s).
Proof.
  intros port Hp [_ _ (bt & Ht & Et) _ (bo & Ho & Eo) Hm (bs & Hs & Es) _ (bb & Hb & Eb)] [Hid1 Hid2]. subst sec blk.
  unfold ehddp_mod_local_port. assert (Hpc : packets (counted s) !! r = Some p) by exact Hp.
  erewrite bind_eq by (by eapply rd_eth_type_eq). erewrite bind_eq by reflexivity. rewrite Et.
  assert ((1 <? dp_id s) && (dp_id s <? 1000) = true) as -> by lia. cbn [andb].
  erewrite bind_eq by (by eapply rd_ehddp_eq). rewrite Eo. cbn [Z.eqb Pos.eqb].
  erewrite bind_eq by reflexivity.
  erewrite bind_eq by (by eapply rd_ehddp_mac_eq). erewrite bind_eq by (by eapply rd_ehddp_eq).
  erewrite bind_eq by (by apply get_pkt_eq). erewrite bind_eq by (by eapply rd_ehddp_eq). done.
Qed.


(** ** The first copy and the others *)

(** The entries of the exploration, with ports. *)
Record explored (s : dp) (es : list (MacTable.loc * MacTable.mac_port_time)) : Prop := {
  ex_rep : MacTable.rep (mac_heap (eh s)) (bt_table (eh s)) es;
  ex_ports : Forall (fun x => 0 <= MacTable.port_in x.2) es }.

(** There is an entry of the origin with the number, valid up to [until]. *)
Definition seen (mac : list Z) (sec until : Z) (s : dp) : Prop :=
  exists es l e, explored s es /\ MacTable.first_mac mac es = Some (l, e) /\
    MacTable.num_sec e = sec /\ until <= MacTable.valid_time_entry e /\ 0 < MacTable.port_in e.

Lemma seen_calm mac sec until s s' : calm s s' -> seen mac sec until s -> seen mac sec until s'.
Proof.
  intros Hc (es & l & e & [Hr Hp] & Hx). exists es, l, e. split; [| done].
  split; [by rewrite (calm_heap _ _ Hc), (calm_bt _ _ Hc) | done].
Qed.

Lemma table_port_eq s es mac sec :
  explored s es ->
  table_port BT mac sec s =
    Done (match MacTable.first_mac mac es with
          | Some (_, e) => if (clock s <=? MacTable.valid_time_entry e) && (MacTable.num_sec e =? sec)
                           then MacTable.port_in e else 0
          | None => -1
          end, s).
Proof.
  intros [Hr _]. unfold table_port, bind, gets, lift, id. cbn [table_of].
  by rewrite (MacTable.found_port_spec _ _ es mac sec (time_msec s) Hr).
Qed.

Lemma table_add_eq s es mac port time sec :
  explored s es ->
  exists s' l, table_add BT mac port time sec s = Done (tt, s') /\
    explored s' (es ++ [(l, MacTable.MPT (take 6 mac) (u16 port) (MacTable.valid_until (clock s) (signed 32 time)) true sec)]) /\
    packets s' = packets s /\ next_pkt s' = next_pkt s /\ dp_id s' = dp_id s /\ tables s' = tables s /\ ports s' = ports s /\ clock s' = clock s /\
    type_device_general (eh s') = type_device_general (eh s).
Proof.
  intros [Hr Hp]. unfold table_add, bind, gets, lift, id. cbn [table_of].
  destruct (MacTable.mac_add_rep _ _ es mac (u16 port) (signed 32 time) sec (time_msec s) Hr) as (h' & t' & l & -> & Hr').
  eexists _, l. split; [done |]. split; [| done]. split; [exact Hr' |].
  apply Forall_app. split; [done |]. constructor; [| done]. cbn. pose proof (wrap_range 16 ltac:(lia) port) as [? ?]. lia.
Qed.

Lemma table_update_eq s es mac port time sec l e :
  explored s es -> MacTable.first_mac mac es = Some (l, e) ->
  exists s' es1 es2, table_update BT mac port time sec s = Done (tt, s') /\
    es = es1 ++ (l, e) :: es2 /\
    explored s' (es1 ++ (l, MacTable.updated (u16 port) (signed 32 time) sec (clock s) e) :: es2) /\
    packets s' = packets s /\ next_pkt s' = next_pkt s /\ dp_id s' = dp_id s /\ tables s' = tables s /\ ports s' = ports s /\ clock s' = clock s /\
    type_device_general (eh s') = type_device_general (eh s).
Proof.
  intros [Hr Hp] Hf. unfold table_update, bind, gets, lift, id. cbn [table_of].
  pose proof (MacTable.update_spec _ _ es mac (u16 port) (signed 32 time) sec (time_msec s) Hr) as Hu. rewrite Hf in Hu.
  destruct Hu as (h' & es1 & es2 & Hes & -> & Hr').
  eexists _, es1, es2. split; [done |]. split; [done |]. split; [| done]. split; [exact Hr' |].
  rewrite Hes in Hp. apply Forall_app in Hp as [? Hp]. apply Forall_cons in Hp as [_ ?].
  apply Forall_app. split; [done |]. constructor; [| done]. cbn. pose proof (wrap_range 16 ltac:(lia) port) as [? ?]. lia.
Qed.

(** The packets that were there still are. *)
Definition steady (s s' : dp) : Prop :=
  dp_id s' = dp_id s /\ (bare s -> bare s') /\ (next_pkt s <= next_pkt s')%positive /\
  forall r p, (r < next_pkt s)%positive -> packets s !! r = Some p -> packets s' !! r = Some p.

Lemma calm_steady s s' : calm s s' -> steady s s'.
Proof. intros [H0 _ _ H1 H2 H3]. done. Qed.

Lemma steady_trans s1 s2 s3 : steady s1 s2 -> steady s2 s3 -> steady s1 s3.
Proof.
  intros (H1 & H0 & H2 & H3) (K1 & K0 & K2 & K3). split; [congruence |]. split; [by auto |]. split; [lia |].
  intros r p Hr Hp. apply K3; [lia | by apply H3].
Qed.

Lemma same_steady s s' :
  packets s' = packets s -> next_pkt s' = next_pkt s -> dp_id s' = dp_id s -> tables s' = tables s -> steady s s'.
Proof. intros Hp Hn Hd Ht. split; [done |]. unfold bare. rewrite Hn, Hp, Ht. split; [done |]. split; [lia | done]. Qed.

(** What follows the entry in the table. *)
Definition settle (r : pktref) (port : Z) : Run Z :=
  s <- gets id;;
  if negb (type_device_general (eh s) =? 2) && may_move (time_msec s) (time_no_move_local_port (eh s)) then
    failed <- local_port_loop r port (Ports.port_list (ports s));;
    if failed : bool then ret 255
    else
      edit_ehddp (fun e => with_local e (port_to_controller e) (old_local_port e) (old_local_port_MAC e)
                             (u64 (time_msec s + Time_wait_local_port)) (local_port_ok e) (time_init_local_port e));;;
      ret 1
  else ret 1.
Lemma settle_calm r port : calms (settle r port).
Proof. pose proof calms_local_port_loop. unfold settle. calm_steps. Qed.
Lemma settle_result r port s x s' : settle r port s = Done (x, s') -> x <> 0.
Proof.
  unfold settle, bind at 1, gets. cbv beta. destruct (_ && _); [| by intros [= <- _]].
  unfold bind at 1. destruct (local_port_loop _ _ _ _) as [[[] ?] | |]; [by intros [= <- _] | | done | done]. by intros [= <- _].
Qed.
Lemma calms_rest r port s x s' : settle r port s = Done (x, s') -> calm s s' /\ x <> 0.
Proof. intros E. split; [by eapply settle_calm | by eapply settle_result]. Qed.

Lemma take_mac_eqb mac : MacTable.mac_eqb (take 6 mac) mac = true.
Proof. apply bool_decide_eq_true_2. unfold MacTable.ETH_ADDR_LEN. by rewrite take_idemp. Qed.

(** The entry of a request that is added or updated is the one that is found. *)
Lemma enter_seen s es mac sec blk port :
  explored s es -> 0 < port < 2 ^ 16 ->
  exists s', (if match MacTable.first_mac mac es with Some _ => false | None => true end
              then table_add BT mac port (htonl blk) sec else table_update BT mac port (htonl blk) sec) s = Done (tt, s') /\
    steady s s' /\ seen mac sec (MacTable.valid_until (clock s) (signed 32 (htonl blk))) s'.
Proof.
  intros Hx Hport. assert (Hu : u16 port = port) by (apply wrap_small; unfold in_range; lia).
  destruct (MacTable.first_mac mac es) as [[l e] |] eqn:Hf.
  - destruct (table_update_eq s es mac port (htonl blk) sec l e Hx Hf) as (s' & es1 & es2 & E & Hes & Hx' & ? & ? & ? & ? & _).
    exists s'. split; [done |]. split; [by apply same_steady |].
    eexists _, l, _. split; [exact Hx' |]. apply MacTable.first_mac_split in Hf as (Hm & es1' & es2' & Hes' & Hn).
    destruct (MacTable.rep_split _ _ _ _ _ _ _ _ _ (ex_rep _ _ Hx) Hes Hes') as [-> ->].
    rewrite MacTable.first_mac_app, Hn. unfold MacTable.first_mac. cbn. rewrite Hm. split; [done |].
    cbn. rewrite Hu. split_and!; [done | lia | lia].
  - destruct (table_add_eq s es mac port (htonl blk) sec Hx) as (s' & l & E & Hx' & ? & ? & ? & ? & _).
    exists s'. split; [done |]. split; [by apply same_steady |].
    eexists _, l, _. split; [exact Hx' |]. rewrite MacTable.first_mac_app, Hf. unfold MacTable.first_mac. cbn.
    rewrite take_mac_eqb. split; [done |]. cbn. rewrite Hu. split_and!; [done | lia | lia].
Qed.

Lemma explored_counted s es : explored s es -> explored (counted s) es.
Proof. by intros [? ?]. Qed.

(** A copy of a request that has been seen is only put into the table. *)
Lemma request_again s r src mac sec ack blk p until :
  packets s !! r = Some p -> request p src mac sec ack blk -> 1 < dp_id s < 1000 -> seen mac sec until s -> clock s <= until ->
  exists s', ehddp_mod_local_port r s = Done (0, s') /\ packets s' = packets s /\ next_pkt s' = next_pkt s /\ dp_id s' = dp_id s /\
    tables s' = tables s /\ ports s' = ports s /\ clock s' = clock s /\ type_device_general (eh s') = type_device_general (eh s) /\ seen mac sec until s'.
Proof.
  intros Hp Hrq Hid (es & l & e & Hx & Hf & Hs & Hv & Hpo) Hc. rewrite (request_run s r src mac sec ack blk p Hp Hrq Hid).
  apply explored_counted in Hx. erewrite bind_eq by (by apply (table_port_eq _ es)). rewrite Hf.
  change (clock (counted s)) with (clock s). rewrite Hs, Z.eqb_refl.
  assert (clock s <=? MacTable.valid_time_entry e = true) as -> by lia. cbn [andb].
  assert (MacTable.port_in e <=? 0 = false) as -> by lia.
  destruct (table_add_eq (counted s) es mac (Packet.in_port p) (htonl blk) sec Hx) as (s' & l' & E & Hx' & Hpk & Hn & Hd & Ht & Hps & Hcl & Hty).
  erewrite bind_eq by exact E. exists s'. split; [done |]. split_and!; try done.
  eexists _, l, e. split; [exact Hx' |]. rewrite MacTable.first_mac_app, Hf. done.
Qed.

(** Any copy; a result other than 0 is for the first one. *)
Lemma request_any s es r src mac sec ack blk p x s' :
  packets s !! r = Some p -> request p src mac sec ack blk -> 1 < dp_id s < 1000 -> explored s es -> 0 < Packet.in_port p < 2 ^ 16 ->
  ehddp_mod_local_port r s = Done (x, s') ->
  steady s s' /\ (exists es', explored s' es') /\
  (x = 0 -> ports s' = ports s /\ type_device_general (eh s') = type_device_general (eh s)) /\
  (x <> 0 -> seen mac sec (MacTable.valid_until (clock s) (signed 32 (htonl blk))) s').
Proof.
  intros Hp Hrq Hid Hx Hport. rewrite (request_run s r src mac sec ack blk p Hp Hrq Hid).
  apply explored_counted in Hx. erewrite bind_eq by (by apply (table_port_eq _ es)).
  set (result := match MacTable.first_mac mac es with Some _ => _ | None => _ end).
  destruct (Z.leb_spec result 0) as [Hle | Hgt].
  - erewrite bind_eq by reflexivity. set (s1 := with_ehddp (counted s) _).
    assert (Hx1 : explored s1 es) by (by destruct Hx).
    destruct (enter_seen s1 es mac sec blk (Packet.in_port p) Hx1 Hport) as (s2 & E & Hst & Hseen).
    assert (Hb : (result =? -1) = match MacTable.first_mac mac es with Some _ => false | None => true end).
    { subst result. destruct (MacTable.first_mac mac es) as [[l e] |] eqn:Hf; [| done].
      apply MacTable.first_mac_split in Hf as (_ & es1 & es2 & -> & _).
      pose proof (ex_ports _ _ Hx) as Hpo. apply Forall_app in Hpo as [_ Hpo]. apply Forall_cons in Hpo as [Hpo _]. cbn in Hpo.
      destruct (_ && _); lia. }
    rewrite Hb. erewrite bind_eq by exact E. intros E'. apply calms_rest in E' as [Hc Hx0].
    split; [eapply steady_trans; [| by apply calm_steady]; eapply steady_trans; [| exact Hst]; by apply same_steady |].
    change (clock s1) with (clock s) in Hseen. apply (seen_calm _ _ _ _ _ Hc) in Hseen.
    split; [destruct Hseen as (es' & _ & _ & ? & _); by exists es' |]. split; [done | done].
  - destruct (table_add_eq (counted s) es mac (Packet.in_port p) (htonl blk) sec Hx) as (s2 & l' & E & Hx' & Hpk & Hn & Hd & Ht & Hps & _ & Hty).
    erewrite bind_eq by exact E. intros [= <- <-]. split; [by apply same_steady |]. split; [by eexists |]. split; [done | done].
Qed.

(** ** The answer *)

Section answer.
Context (resubmit : pktref -> Run ()) (malloc_pos : forall n, 0 < malloc n).

Lemma fill_run chunks : forall b (s : dp), Ofpbuf.buf_ok b ->
  exists b' n, fill b chunks s = Done (b', with_mallocs s n) /\ Ofpbuf.bytes b' = Ofpbuf.bytes b ++ concat chunks.
Proof using malloc_pos.
  induction chunks as [| c l IH]; intros b s Hb; cbn [fill concat].
  - exists b, (mallocs s). rewrite app_nil_r. split; [by destruct s | done].
  - erewrite bind_eq by reflexivity. destruct (Ofpbuf.put_spec junk b c (malloc (mallocs s)) Hb (malloc_pos _)) as (b1 & E & Hb1 & Hbs & _).
    unfold bind at 1, lift. rewrite E. destruct (IH b1 (with_mallocs s (S (mallocs s))) Hb1) as (b' & n & E' & Hb').
    exists b', n. rewrite E'. split; [by destruct s |]. by rewrite Hb', Hbs, app_assoc.
Qed.

(** The bytes of the answer to a request. *)
Definition answer (s : dp) (p : Packet.packet) (src : list Z) (sec ack blk : Z) : list Z :=
  concat (reply_chunks (dp_id s) src (Packet.in_port p) (Packet.in_port p) (own_type (eh s)) 1 sec ack blk).

Lemma validate_id q : Packet.buffer_id (Packet.packet_handle_std_validate q) = Packet.buffer_id q.
Proof. unfold Packet.packet_handle_std_validate. destruct (Packet.valid _); [done |]. destruct (Packet.nblink_packet_parse _ _) as [[m pr] []]; done. Qed.

(** A state that differs in the ports, the counters of eHDDP and the addresses in use. *)
Record sent (s s' : dp) (ps : Ports.ports) : Prop := {
  se_ports : ports s' = ps; se_id : dp_id s' = dp_id s; se_clock : clock s' = clock s; se_tables : tables s' = tables s;
  se_heap : mac_heap (eh s') = mac_heap (eh s); se_bt : bt_table (eh s') = bt_table (eh s);
  se_type : type_device_general (eh s') = type_device_general (eh s);
  se_packets r : (r < next_pkt s)%positive -> packets s' !! r = packets s !! r }.

Lemma edit_pkt_eq (s : dp) r p f : packets s !! r = Some p -> edit_pkt r f s = Done (tt, with_packets s (next_pkt s) (<[r := f p]> (packets s))).
Proof. intros Hp. unfold edit_pkt, bind, get_pkt, put_pkt. by rewrite Hp, Hp. Qed.
Lemma output_eq (s : dp) r q port queue max c : packets s !! r = Some q -> 0 < port < 2 ^ 16 ->
  dp_actions_output_port resubmit r port queue max c s =
  Done (tt, with_ports s (Ports.dp_ports_output netdev_send (ports s) (Ofpbuf.bytes (Packet.buffer q)) port queue)).
Proof.
  intros Hq Hport. unfold dp_actions_output_port. erewrite bind_eq by (by apply get_pkt_eq).
  unfold OFPP_TABLE, OFPP_IN_PORT, OFPP_CONTROLLER, OFPP_FLOOD, OFPP_ALL.
  repeat (rewrite (proj2 (Z.eqb_neq _ _)) by lia; cbn [orb]). done.
Qed.
Lemma destroy_eq (s : dp) r q : packets s !! r = Some q -> Packet.buffer_id q = Packet.NO_BUFFER ->
  packet_destroy r s = Done (tt, with_buffers s (dp_buffers s) (delete r (packets s))).
Proof. intros Hq Hi. unfold packet_destroy, Buffers.packet_destroy. rewrite Hq. cbn [mbind option_bind]. change (Buffers.buffer_id q) with (Packet.buffer_id q). by rewrite Hi. Qed.

(** The reply, a new packet. *)
Lemma create_reply_run (s : dp) src port1 port2 ty n sec ack blk :
  exists s' q, create_ehddp_reply_packet src port1 port2 ty n sec ack blk s = Done (next_pkt s, s') /\
    packets s' = <[next_pkt s := q]> (packets s) /\ ports s' = ports s /\ dp_id s' = dp_id s /\ clock s' = clock s /\ tables s' = tables s /\ eh s' = eh s /\
    Ofpbuf.bytes (Packet.buffer q) = concat (reply_chunks (dp_id s) src port1 port2 ty n sec ack blk) /\ Packet.buffer_id q = Packet.NO_BUFFER.
Proof using malloc_pos.
  unfold create_ehddp_reply_packet. do 2 erewrite bind_eq by reflexivity.
  destruct (fill_run (reply_chunks (dp_id s) src port1 port2 ty n sec ack blk)
    (Ofpbuf.ofpbuf_new junk LEN_EHDDP_REPLY (malloc (mallocs s))) (with_mallocs s (S (mallocs s)))) as (b & k & E & Hbytes).
  { apply Ofpbuf.new_ok, malloc_pos. }
  rewrite (proj2 (Ofpbuf.new_ok junk LEN_EHDDP_REPLY _ (malloc_pos _))), app_nil_l in Hbytes.
  erewrite bind_eq by exact E. do 3 erewrite bind_eq by reflexivity.
  erewrite bind_eq by (apply edit_pkt_eq; cbn [packets with_packets with_mallocs]; apply lookup_insert_eq).
  eexists _, _. split; [reflexivity |]. cbn [packets with_packets with_mallocs ports dp_id clock tables eh].
  rewrite insert_insert_eq. split; [reflexivity |]. split_and!; [done.. | |].
  - rewrite Packet.validate_buffer. cbn -[Packet.packet_create]. unfold Packet.packet_create, Packet.packet_handle_std_create. by rewrite Packet.validate_buffer.
  - rewrite validate_id. cbn -[Packet.packet_create]. unfold Packet.packet_create, Packet.packet_handle_std_create. by rewrite validate_id.
Qed.

(** [creator_ehddp_reply_packets] answers through the port the request came in. *)
Lemma reply_run s r p src mac sec ack blk :
  packets s !! r = Some p -> request p src mac sec ack blk -> 0 < Packet.in_port p < 2 ^ 16 ->
  exists s', creator_ehddp_reply_packets resubmit r s = Done (tt, s') /\
    sent s s' (Ports.dp_ports_output netdev_send (ports s) (answer s p src sec ack blk) (Packet.in_port p) (Packet.out_queue p)).
Proof using malloc_pos.
  intros Hp [_ _ _ Hsrc _ _ (bs & Hs & Es) (ba & Ha & Ea) (bb & Hb & Eb)] Hport. subst sec ack blk. unfold creator_ehddp_reply_packets.
  erewrite bind_eq by reflexivity. erewrite bind_eq by (by apply get_pkt_eq). erewrite bind_eq by (by eapply rd_eth_mac_eq).
  do 3 erewrite bind_eq by (by eapply rd_ehddp_eq).
  destruct (create_reply_run s src (Packet.in_port p) (Packet.in_port p) (own_type (eh s)) 1 (le_load bs) (le_load ba) (le_load bb))
    as (s1 & q & E & Hpk & Hps & Hid & Hcl & Ht & He & Hbytes & Hbid).
  erewrite bind_eq by exact E.
  assert (Hq : packets s1 !! next_pkt s = Some q) by (rewrite Hpk; apply lookup_insert_eq).
  erewrite bind_eq by (by apply output_eq). erewrite bind_eq by reflexivity.
  erewrite destroy_eq by done. eexists. split; [reflexivity |].
  split; cbn [ports with_buffers with_ports with_ehddp edit_ehddp dp_id clock tables eh packets count_pkt mac_heap bt_table type_device_general]; try done.
  - by rewrite Hps, Hbytes.
  - by rewrite He.
  - by rewrite He.
  - by rewrite He.
  - intros r' Hr'. rewrite Hpk, delete_insert_eq, lookup_delete_ne by lia. done.
Qed.
End answer.

(** ** The way of a request through the pipeline *)

Section way.
Context (resubmit : pktref -> Run ()) (group_fuel table_fuel : nat).

Lemma put_same (s : dp) r p : packets s !! r = Some p -> put_pkt r p s = Done (tt, s).
Proof. intros Hp. unfold put_pkt. rewrite Hp, insert_id by done. by destruct s. Qed.

Lemma request_process s r p src mac sec ack blk :
  packets s !! r = Some p -> request p src mac sec ack blk ->
  Pipeline.process_packet resubmit group_fuel table_fuel r s =
  (x <- ehddp_mod_local_port r;; Pipeline.arp_control resubmit r;;; Pipeline.tables_loop resubmit group_fuel table_fuel r x 0) s.
Proof.
  intros Hp [Hv (Hm & Hi & Hu) (bt & Ht & Et) _ _ _ _ _ _]. unfold Pipeline.process_packet.
  erewrite bind_eq by (by apply get_pkt_eq).
  assert (Htt : Packet.packet_handle_std_is_ttl_valid p = Some (p, true)).
  { unfold Packet.packet_handle_std_is_ttl_valid, Packet.packet_handle_std_validate. rewrite Hv, Hm, Hi. done. }
  rewrite Htt. erewrite bind_eq by reflexivity. cbv beta iota. erewrite bind_eq by (by apply put_same). cbn [negb].
  rewrite Hu. cbn [Z.eqb negb]. erewrite bind_eq by reflexivity. unfold bind at 1. unfold bind at 1. erewrite rd_eth_type_eq by done.
  unfold ret at 1. assert (le_load bt =? Pipeline.ETH_TYPE_IPV6_INV = false) as ->; [| done].
  unfold is_ehddp_type, ETH_TYPE_EHDDP, ETH_TYPE_EHDDP_INV, Pipeline.ETH_TYPE_IPV6_INV in *. lia.
Qed.

Lemma times_keep e x now :
  mac_heap (exploration_times e x now) = mac_heap e /\ bt_table (exploration_times e x now) = bt_table e /\
  type_device_general (exploration_times e x now) = type_device_general e.
Proof. unfold exploration_times. by destruct (_ || _). Qed.

(** What is left alone on the way to the handler. *)
Record onway (s s' : dp) (r : pktref) : Prop := {
  ow_bare : bare s'; ow_id : dp_id s' = dp_id s; ow_clock : clock s' = clock s; ow_ports : ports s' = ports s; ow_next : next_pkt s' = next_pkt s;
  ow_heap : mac_heap (eh s') = mac_heap (eh s); ow_bt : bt_table (eh s') = bt_table (eh s);
  ow_type : type_device_general (eh s') = type_device_general (eh s) }.

Lemma request_handled s r p src mac sec ack blk x :
  packets s !! r = Some p -> request p src mac sec ack blk -> 1 < dp_id s -> bare s ->
  exists s' p', onway s s' r /\ packets s' !! r = Some p' /\ request p' src mac sec ack blk /\ Packet.in_port p' = Packet.in_port p /\
    Packet.out_queue p' = Packet.out_queue p /\ Packet.buffer_id p' = Packet.buffer_id p /\
    (Pipeline.arp_control resubmit r;;; Pipeline.tables_loop resubmit group_fuel (S table_fuel) r x 0) s =
    (handle_ehddp_request_packets resubmit r x;;; packet_destroy r) s'.
Proof.
  intros Hp Hrq Hid (ft & rest & Ht & Hft). pose proof Hrq as [Hv Ho (bt & Hty & Et) Hsrc (bo & Hop & Eo) Hm (bs & Hs & Es) Hack Hblk].
  unfold Pipeline.arp_control. unfold bind at 1. erewrite bind_eq by (by eapply rd_eth_type_eq).
  assert (is_arp_type (le_load bt) = false) as ->.
  { unfold is_ehddp_type, is_arp_type, ETH_TYPE_EHDDP, ETH_TYPE_EHDDP_INV, ETH_TYPE_ARP, ETH_TYPE_ARP_INV in *. lia. }
  unfold when at 1, ret at 1. cbn [Pipeline.tables_loop]. erewrite bind_eq by (by apply edit_pkt_eq).
  set (p' := Packet.with_table_id p 0). set (s1 := with_packets s _ _).
  assert (Hp1 : packets s1 !! r = Some p') by (subst s1; cbn [packets with_packets]; apply lookup_insert_eq).
  unfold Pipeline.lookup_in. unfold bind at 1. erewrite bind_eq by reflexivity. unfold id. change (tables s1) with (tables s). rewrite Ht.
  cbn [Z.to_nat lookup list_lookup]. erewrite bind_eq by reflexivity. erewrite bind_eq by (by apply get_pkt_eq).
  unfold FlowTable.flow_table_lookup. rewrite Hft. cbn [FlowTable.lookup_loop]. erewrite bind_eq by reflexivity.
  set (s2 := with_tables s1 _ _). assert (Hp2 : packets s2 !! r = Some p') by exact Hp1.
  erewrite bind_eq by (by apply put_same). unfold ret at 1.
  assert (Hrq' : request p' src mac sec ack blk) by (destruct Hrq; by split).
  unfold select_ehddp_packets. unfold bind at 1. erewrite bind_eq by (eapply rd_eth_type_eq; [exact Hp2 | exact Hty]).
  erewrite bind_eq by reflexivity. rewrite Et. change (dp_id s2) with (dp_id s). rewrite (proj2 (Z.ltb_lt _ _) Hid). cbn [andb].
  unfold bind at 1. erewrite rd_ehddp_eq; [| exact Hp2 | exact Hop]. rewrite Eo. cbn [Z.eqb Pos.eqb]. unfold bind at 1. unfold bind at 1.
  erewrite rd_ehddp_eq; [| exact Hp2 | exact Hs]. erewrite bind_eq by reflexivity. set (s3 := with_ehddp s2 _).
  exists s3, p'. split; [| split; [exact Hp2 | split; [exact Hrq' | split_and!; [done.. |]]]].
  - split; try done; try apply times_keep. eexists _, _. split; [subst s3 s2; cbn; rewrite Ht; reflexivity | done].
  - unfold bind. destruct (handle_ehddp_request_packets resubmit r x s3) as [[u s4] | |]; done.
Qed.
End way.

(** ** Computations that leave the tables alone *)

Record same (s s' : dp) : Prop := {
  sm_heap : mac_heap (eh s') = mac_heap (eh s); sm_bt : bt_table (eh s') = bt_table (eh s);
  sm_id : dp_id s' = dp_id s; sm_tables : tables s' = tables s }.
Definition sames {A} (c : Run A) : Prop := forall s x s', c s = Done (x, s') -> same s s'.

Lemma same_trans s1 s2 s3 : same s1 s2 -> same s2 s3 -> same s1 s3.
Proof. intros [] []. split; congruence. Qed.
Lemma sames_bind {A B} (c : Run A) (k : A -> Run B) : sames c -> (forall x, sames (k x)) -> sames (bind c k).
Proof.
  intros Hc Hk s y s'. unfold bind. destruct (c s) as [[x s1] | |] eqn:E; [| done | done]. intros E'.
  eapply same_trans; [by eapply Hc | by eapply Hk].
Qed.
Lemma sames_ret {A} (x : A) : sames (ret x).
Proof. by intros s y s' [= _ <-]. Qed.
Lemma sames_gets {A} (f : dp -> A) : sames (gets f).
Proof. by intros s y s' [= _ <-]. Qed.
Lemma sames_lift {A} (x : option A) : sames (lift x).
Proof. intros s y s'. unfold lift. destruct x; [| done]. by intros [= _ <-]. Qed.
Lemma sames_get r : sames (get_pkt r).
Proof. intros s y s'. unfold get_pkt. destruct (packets s !! r); [| done]. by intros [= _ <-]. Qed.
Lemma sames_put r p : sames (put_pkt r p).
Proof. intros s y s'. unfold put_pkt. destruct (packets s !! r); [| done]. by intros [= _ <-]. Qed.
Lemma sames_alloc p : sames (alloc_pkt p).
Proof. by intros s y s' [= _ <-]. Qed.
Lemma sames_fresh : sames fresh_addr.
Proof. by intros s y s' [= _ <-]. Qed.
Lemma sames_modify f : (forall s, same s (f s)) -> sames (modify f).
Proof. intros Hf s y s' [= _ <-]. apply Hf. Qed.
Lemma sames_destroy r : sames (packet_destroy r).
Proof. intros s y s'. unfold packet_destroy. destruct (Buffers.packet_destroy _ _ _ _) as [[] |]; [| done]. by intros [= _ <-]. Qed.
Lemma sames_save r : sames (dp_buffers_save r).
Proof. intros s y s'. unfold dp_buffers_save. destruct (Buffers.dp_buffers_save _ _ _ _) as [[[] ] |]; [| done]. by intros [= _ <-]. Qed.
Lemma sames_output_all b p f : sames (dp_ports_output_all b p f).
Proof. intros s y s'. unfold dp_ports_output_all. destruct (Ports.dp_ports_output_all _ _ _ _); [| done]. by intros [= _ <-]. Qed.
Lemma sames_send m : sames (dp_send_message m).
Proof. by apply sames_modify. Qed.
#[local] Hint Resolve sames_ret sames_gets sames_lift sames_get sames_put sames_alloc sames_fresh sames_destroy sames_save sames_output_all sames_send : explore.

Ltac same_step :=
  lazymatch goal with
  | |- sames (bind _ _) => apply sames_bind; [| intros ?]
  | |- sames (if ?b then _ else _) => destruct b
  | |- sames (match ?x with _ => _ end) => destruct x
  | |- sames (let _ := _ in _) => cbv zeta
  | |- sames (when ?b _) => unfold when; destruct b
  | |- sames _ => solve [eauto with explore]
  end.
Ltac same_steps := repeat same_step.

Lemma sames_edit r f : sames (edit_pkt r f).
Proof. unfold edit_pkt. same_steps. Qed.
Lemma sames_rd r a n : sames (rd r a n).
Proof. unfold rd. same_steps. Qed.
Lemma sames_rd_bytes r a n : sames (rd_bytes r a n).
Proof. unfold rd_bytes. same_steps. Qed.
Lemma sames_wr r a b : sames (wr_bytes r a b).
Proof. unfold wr_bytes. same_steps. Qed.
#[local] Hint Resolve sames_edit sames_rd sames_rd_bytes sames_wr : explore.
Lemma sames_ehddp_at r o : sames (ehddp_at r o).
Proof. unfold ehddp_at, headers. same_steps. Qed.
Lemma sames_eth_at r o : sames (eth_at r o).
Proof. unfold eth_at, headers. same_steps. Qed.
Lemma sames_clone r : sames (packet_clone r).
Proof. unfold packet_clone. same_steps. Qed.
Lemma sames_source r m : sames (read_source r m).
Proof. unfold read_source. same_steps. Qed.
#[local] Hint Resolve sames_ehddp_at sames_eth_at sames_clone sames_source : explore.
Lemma sames_rd_ehddp r o n : sames (rd_ehddp r o n).
Proof. unfold rd_ehddp. same_steps. Qed.
#[local] Hint Resolve sames_rd_ehddp : explore.
Lemma sames_put_all r l : sames (put_all r l).
Proof. induction l as [| c l IH]; cbn [put_all]; unfold put_bytes; same_steps. Qed.
Lemma sames_repeated r n i k : sames (repeated_loop r i n k).
Proof. revert i. induction n as [| n IH]; intros i; cbn [repeated_loop]; same_steps. Qed.
#[local] Hint Resolve sames_put_all sames_repeated : explore.
Lemma sames_update r port m : sames (update_data_msg r port m).
Proof. unfold update_data_msg, num_repetido. same_steps. Qed.
Lemma sames_controller r t m : sames (send_packet_to_controller r t m).
Proof. unfold send_packet_to_controller. same_steps. Qed.
Lemma sames_flood resubmit r q m c : sames (dp_actions_output_port resubmit r OFPP_FLOOD q m c).
Proof. unfold dp_actions_output_port. change (OFPP_FLOOD =? OFPP_TABLE) with false. change (OFPP_FLOOD =? OFPP_IN_PORT) with false.
  change (OFPP_FLOOD =? OFPP_CONTROLLER) with false. change (OFPP_FLOOD =? OFPP_FLOOD) with true. cbn [orb]. same_steps. Qed.
#[local] Hint Resolve sames_update sames_controller sames_flood : explore.

(** ** A request that was taken *)

(** The request is in the table, and the switch is still one that gets no further than the first table. *)
Definition taken (mac : list Z) (sec until : Z) (s : dp) : Prop := seen mac sec until s /\ bare s /\ 1 < dp_id s < 1000.

Lemma explored_same s s' es : mac_heap (eh s') = mac_heap (eh s) -> bt_table (eh s') = bt_table (eh s) -> explored s es -> explored s' es.
Proof. intros Hh Hb [Hr Hp]. split; [by rewrite Hh, Hb | done]. Qed.
Lemma seen_same mac sec until s s' : mac_heap (eh s') = mac_heap (eh s) -> bt_table (eh s') = bt_table (eh s) -> seen mac sec until s -> seen mac sec until s'.
Proof. intros Hh Hb (es & l & e & Hx & Hr). exists es, l, e. split; [by eapply explored_same | done]. Qed.
Lemma taken_same mac sec until s s' : same s s' -> taken mac sec until s -> taken mac sec until s'.
Proof.
  intros [Hh Hb Hi Ht] (Hs & Hba & Hid). split; [by eapply seen_same |]. unfold bare in *. rewrite Ht, Hi. done.
Qed.

(** The second entry of the request, under the address of the frame, does not hide the first. *)
Lemma update_keeps_seen mac sec until s mac' port time u s' :
  0 < port < 2 ^ 16 -> seen mac sec until s -> table_update BT mac' port time sec s = Done (u, s') ->
  seen mac sec until s' /\ dp_id s' = dp_id s /\ tables s' = tables s.
Proof.
  intros Hport (es & l & e & Hx & Hf & Hs & Hv & Hp) E. assert (Hu : u16 port = port) by (apply wrap_small; unfold in_range; lia).
  destruct (MacTable.first_mac mac' es) as [[l' e'] |] eqn:Hf'.
  - destruct (table_update_eq s es mac' port time sec l' e' Hx Hf') as (s1 & es1 & es2 & E1 & Hes & Hx' & _ & _ & Hd & Ht & _).
    rewrite E1 in E. injection E as <- <-. split; [| done]. rewrite Hes, MacTable.first_mac_app in Hf.
    rewrite Hu in Hx'. set (upd := MacTable.updated _ _ _ _ e') in Hx'.
    assert (Hnew : exists l2 e2, MacTable.first_mac mac (es1 ++ (l', upd) :: es2) = Some (l2, e2) /\
      MacTable.num_sec e2 = sec /\ until <= MacTable.valid_time_entry e2 /\ 0 < MacTable.port_in e2).
    { rewrite MacTable.first_mac_app. destruct (MacTable.first_mac mac es1) as [x |]; [by exists l, e; rewrite Hf |].
      unfold MacTable.first_mac in *. cbn [List.find snd] in *. change (MacTable.Mac upd) with (MacTable.Mac e').
      destruct (MacTable.mac_eqb (MacTable.Mac e') mac); [| by exists l, e].
      injection Hf as -> ->. exists l, upd. split; [done |]. cbn. split; [done |]. split; lia. }
    destruct Hnew as (l2 & e2 & ?). by exists (es1 ++ (l', upd) :: es2), l2, e2.
  - unfold table_update, bind, gets, lift, id in E. cbn [table_of] in E.
    pose proof (MacTable.update_spec _ _ es mac' (u16 port) (signed 32 time) sec (time_msec s) (ex_rep _ _ Hx)) as Hup. rewrite Hf' in Hup.
    rewrite Hup in E. injection E as <- <-. split; [| done]. exists es, l, e. split; [by destruct Hx | done].
Qed.

Lemma handled_first resubmit (malloc_pos : forall n, 0 < malloc n) s r p src mac sec ack blk until x u s' :
  packets s !! r = Some p -> request p src mac sec ack blk -> 0 < Packet.in_port p < 2 ^ 16 -> taken mac sec until s ->
  handle_ehddp_request_packets resubmit r x s = Done (u, s') -> taken mac sec until s'.
Proof.
  intros Hp Hrq Hport Hs. pose proof Hrq as [_ _ _ Hsrc _ _ (bs & Hsec & Es) _ (bb & Hb & Eb)]. unfold handle_ehddp_request_packets.
  erewrite bind_eq by reflexivity. unfold bind at 1, lift at 1. destruct (Ports.num_port_available (ports s)) as [n |]; [| done].
  erewrite bind_eq by (by apply get_pkt_eq). erewrite bind_eq by (by eapply rd_ehddp_eq). unfold bind at 1.
  assert (Hup : forall s1, (if x =? 1 then mac <- rd_eth_mac r eth_src;; sec <- rd_ehddp r num_sec 8;;
     table_update BT mac (Packet.in_port p) (htonl (le_load bb)) sec else ret tt) s = Done (tt, s1) -> taken mac sec until s1 /\ packets s1 = packets s).
  { intros s1. destruct (x =? 1); [| by intros [= <-]]. erewrite bind_eq by (by eapply rd_eth_mac_eq). erewrite bind_eq by (by eapply rd_ehddp_eq).
    rewrite Es. intros E. destruct Hs as (Hse & Hba & Hid). destruct (update_keeps_seen mac sec until s _ _ _ _ _ Hport Hse E) as (Hse' & Hd & Ht).
    unfold taken, bare in *. rewrite Hd, Ht. split; [done |]. unfold table_update, bind, gets, lift in E. destruct (MacTable.mac_to_port_update _ _ _ _ _ _ _) as [[] |]; [| done].
    injection E as <-. done. }
  match type of Hup with forall s1, ?c s = _ -> _ => destruct (c s) as [[[] s1] | |] eqn:E1 end; [| done | done]. destruct (Hup s1 eq_refl) as [Hs1 Hp1]. clear Hup E1.
  rewrite <- Hp1 in Hp. destruct ((n =? 1) || (x =? 0)).
  - destruct (reply_run resubmit malloc_pos s1 r p src mac sec ack blk Hp Hrq Hport) as (s2 & -> & [_ Hi _ Ht Hh Hb' _ _]). intros [= _ <-].
    eapply taken_same; [| exact Hs1]. by split.
  - assert (Hx : sames (if x =? 1 then c <- packet_clone r;; send_packet_to_controller r (Packet.table_id p) OFPR_NO_MATCH;;; packet_destroy c;;;
      a <- ehddp_at r nxt_mac;; update_data_msg r OFPP_FLOOD (InPacket a);;; p <- get_pkt r;;
      dp_actions_output_port resubmit r OFPP_FLOOD (Packet.out_queue p) (Packet.out_port_max_len p) NO_COOKIE else ret tt)) by same_steps.
    intros E. eapply taken_same; [by eapply Hx | done].
Qed.

(** A further copy is answered. *)
Lemma handled_again resubmit (s : dp) r p src mac sec ack blk :
  packets s !! r = Some p -> request p src mac sec ack blk -> 0 < Packet.in_port p < 2 ^ 16 ->
  handle_ehddp_request_packets resubmit r 0 s =
  match Ports.num_port_available (ports s) with Some _ => creator_ehddp_reply_packets resubmit r s | None => Fault end.
Proof.
  intros Hp Hrq Hport. pose proof Hrq as [_ _ _ _ _ _ _ _ (bb & Hb & Eb)]. unfold handle_ehddp_request_packets.
  erewrite bind_eq by reflexivity. unfold bind at 1, lift at 1. destruct (Ports.num_port_available (ports s)) as [n |]; [| done].
  erewrite bind_eq by (by apply get_pkt_eq). erewrite bind_eq by (by eapply rd_ehddp_eq). cbn [Z.eqb]. erewrite bind_eq by reflexivity.
  by rewrite orb_true_r.
Qed.

(** ** Any number of copies *)

Definition set_clock (s : dp) (now : Z) : dp :=
  DP (dp_id s) now (miss_send_len s) (mallocs s) (next_pkt s) (packets s) (dp_buffers s) (tables s) (world s)
    (ports s) (messages s) (eh s).

(** A frame comes in through a port that is open at some time ([process_buffer] of dp_ports.c); the
    states before and after. *)
Record arrival := Arrival { a_time : Z; a_port : Z; a_frame : Ofpbuf.ofpbuf }.
Definition parsed (a : arrival) : Packet.packet := Packet.packet_create (a_port a) (a_frame a) false garbage_headers garbage_miss.

Section receive.
Context (depth group_fuel table_fuel : nat).
Definition receive (a : arrival) : Run (dp * dp) :=
  modify (fun s => set_clock s (a_time a));;;
  before <- gets id;;
  r <- packet_create (a_port a) (a_frame a) false;;
  Pipeline.pipeline_process_packet depth group_fuel (S table_fuel) r;;;
  after <- gets id;;
  ret (before, after).
Fixpoint receive_all (l : list arrival) : Run (list (dp * dp)) :=
  match l with
  | [] => ret []
  | a :: l => x <- receive a;; xs <- receive_all l;; ret (x :: xs)
  end.
End receive.

(** A copy of the request, while the block of every copy lasts to [until]. *)
Definition copy (mac : list Z) (sec until : Z) (a : arrival) : Prop :=
  exists src ack blk, request (parsed a) src mac sec ack blk /\ 0 < a_port a < 2 ^ 16 /\
    a_time a <= until <= MacTable.valid_until (a_time a) (signed 32 (htonl blk)).

(** The port of this number, when it is up. *)
Definition open_port (ps : Ports.ports) (no : Z) : option Ports.portref :=
  r ← Ports.dp_ports_lookup ps no; p ← Ports.port_at ps r; if Ports.flag (Ports.config (Ports.conf p)) Ports.OFPPC_PORT_DOWN then None else Some r.

(** All that goes out is the answer to the sender, through the port of the copy, when that is up. *)
Definition answered (a : arrival) (x : dp * dp) : Prop :=
  exists src mac sec ack blk sent, request (parsed a) src mac sec ack blk /\
    Ports.wire (ports x.2) = Ports.wire (ports x.1) ++
      match open_port (ports x.1) (a_port a) with
      | Some r => [Ports.Frame r 0 (concat (reply_chunks (dp_id x.1) src (a_port a) (a_port a) (own_type (eh x.1)) 1 sec ack blk)) sent]
      | None => []
      end.

Lemma parsed_fields a : Packet.in_port (parsed a) = a_port a /\ Packet.out_queue (parsed a) = 0 /\ Packet.buffer_id (parsed a) = Packet.NO_BUFFER.
Proof.
  unfold parsed, Packet.packet_create, Packet.packet_handle_std_create, Packet.packet_handle_std_validate. cbn.
  destruct (Packet.nblink_packet_parse _ _) as [[m pr] []]; done.
Qed.

Lemma output_wire ps buf no : exists sent, Ports.wire (Ports.dp_ports_output netdev_send ps buf no 0) =
  Ports.wire ps ++ match open_port ps no with Some r => [Ports.Frame r 0 buf sent] | None => [] end.
Proof.
  unfold Ports.dp_ports_output, open_port. destruct (Ports.dp_ports_lookup ps no) as [r |]; [| exists true; by rewrite app_nil_r]. cbn [mbind option_bind].
  destruct (Ports.port_at ps r) as [p |]; [| exists true; by rewrite app_nil_r]. cbn [mbind option_bind].
  destruct (Ports.flag _ _); [exists true; by rewrite app_nil_r |]. eexists. cbn [Z.eqb]. unfold Ports.send_on. cbn [Ports.wire].
  f_equal. by destruct r.
Qed.

(** Sending changes no link. *)
Lemma output_available ps buf no q : Ports.num_port_available (Ports.dp_ports_output netdev_send ps buf no q) = Ports.num_port_available ps.
Proof.
  assert (Hx : forall ps', Ports.ports_num ps' = Ports.ports_num ps ->
    (forall n, (fun p => Ports.state (Ports.conf p)) <$> mjoin (Ports.slots ps' !! n) = (fun p => Ports.state (Ports.conf p)) <$> mjoin (Ports.slots ps !! n)) ->
    Ports.num_port_available ps' = Ports.num_port_available ps).
  { intros ps' Hn Hs. unfold Ports.num_port_available. rewrite Hn. f_equal. generalize 1%nat. induction (Z.to_nat _) as [| k IH]; intros i; [done |].
    cbn [Ports.inactive_loop]. rewrite IH. specialize (Hs i). destruct (mjoin (Ports.slots ps' !! i)), (mjoin (Ports.slots ps !! i)); try done. cbn in *. injection Hs as Hs. by rewrite Hs. }
  unfold Ports.dp_ports_output. destruct (Ports.dp_ports_lookup ps no) as [r |]; [| done]. destruct (Ports.port_at ps r) as [p |] eqn:Hp; [| done].
  assert (Hset : forall p2 cls b, Ports.conf p2 = Ports.conf p ->
    Ports.num_port_available (Ports.Ports (Ports.slots (Ports.set_port ps r p2)) (Ports.local_port (Ports.set_port ps r p2)) (Ports.port_list (Ports.set_port ps r p2))
      (Ports.ports_num (Ports.set_port ps r p2)) (Ports.wire (Ports.set_port ps r p2) ++ [Ports.Frame r cls buf b])) = Ports.num_port_available ps).
  { intros p2 cls b Hc. apply Hx; [by destruct r |]. intros n. destruct r as [i |]; cbn; [| done]. cbn in Hp.
    destruct (decide (i = n)) as [-> | Hne]; [| by rewrite list_lookup_insert_ne].
    destruct (Ports.slots ps !! n) as [o |] eqn:Eo; [| done]. rewrite list_lookup_insert_eq by (by eapply lookup_lt_Some). cbn in *. rewrite Hp. cbn. by rewrite Hc. }
  destruct (Ports.flag _ _); [done |]. destruct (q =? 0); [by apply Hset |]. destruct (Ports.dp_ports_lookup_queue p q); [| done].
  unfold Ports.send_on. apply Hset. by destruct (netdev_send _ _ _ _).
Qed.

Section copies.
Context (depth group_fuel table_fuel : nat) (malloc_pos : forall n, 0 < malloc n).
Abbreviation recv := (receive depth group_fuel table_fuel).
Abbreviation recv_all := (receive_all depth group_fuel table_fuel).
Abbreviation resubmit := (match depth with O => fun _ => out_of_fuel | S d => Pipeline.pipeline_process_packet d group_fuel (S table_fuel) end).

(** A frame up to the choice of its handling. *)
Definition enter (s : dp) (a : arrival) : dp :=
  let s := set_clock s (a_time a) in with_packets s (Pos.succ (next_pkt s)) (<[next_pkt s := parsed a]> (packets s)).
Lemma receive_run s a src mac sec ack blk : request (parsed a) src mac sec ack blk ->
  recv a s = (x <- ehddp_mod_local_port (next_pkt s);;
    (Pipeline.arp_control resubmit (next_pkt s);;; Pipeline.tables_loop resubmit group_fuel (S table_fuel) (next_pkt s) x 0);;;
    after <- gets id;; ret (set_clock s (a_time a), after)) (enter s a).
Proof.
  intros Hrq. unfold receive. erewrite bind_eq by reflexivity. erewrite bind_eq by reflexivity. erewrite bind_eq by reflexivity.
  assert (Hp : packets (enter s a) !! next_pkt s = Some (parsed a)) by (unfold enter; cbn [packets with_packets set_clock next_pkt]; apply lookup_insert_eq).
  unfold bind at 1. replace (Pipeline.pipeline_process_packet depth group_fuel (S table_fuel) (next_pkt s))
    with (Pipeline.process_packet resubmit group_fuel (S table_fuel) (next_pkt s)) by (by destruct depth).
  rewrite (request_process resubmit group_fuel (S table_fuel) (enter s a) (next_pkt s) (parsed a) src mac sec ack blk Hp Hrq).
  unfold bind. destruct (ehddp_mod_local_port _ _) as [[x s1] | |]; done.
Qed.

(** The copy is answered when the exploration has not taken it for the first one. *)
Lemma answered_run s0 s a src mac sec ack blk :
  request (parsed a) src mac sec ack blk -> 0 < a_port a < 2 ^ 16 -> 1 < dp_id s -> bare s ->
  packets s !! next_pkt s0 = Some (parsed a) -> (next_pkt s0 < next_pkt s)%positive ->
  ports s = ports s0 -> dp_id s = dp_id s0 -> type_device_general (eh s) = type_device_general (eh s0) -> 
  match Ports.num_port_available (ports s0) with
  | None => (Pipeline.arp_control resubmit (next_pkt s0);;; Pipeline.tables_loop resubmit group_fuel (S table_fuel) (next_pkt s0) 0 0) s = Fault
  | Some n => exists s', (Pipeline.arp_control resubmit (next_pkt s0);;; Pipeline.tables_loop resubmit group_fuel (S table_fuel) (next_pkt s0) 0 0) s = Done (tt, s') /\
      answered a (set_clock s0 (a_time a), s') /\ mac_heap (eh s') = mac_heap (eh s) /\ bt_table (eh s') = bt_table (eh s) /\ bare s' /\ dp_id s' = dp_id s /\
      Ports.num_port_available (ports s') = Some n
  end.
Proof using malloc_pos.
  intros Hrq Hport Hid Hba Hp Hlt Hps Hids Hty. destruct (parsed_fields a) as (Hin & Hq & Hb).
  destruct (request_handled resubmit group_fuel table_fuel s _ _ src mac sec ack blk 0 Hp Hrq Hid Hba) as (s1 & p1 & Hw & Hp1 & Hrq1 & Hin1 & Hq1 & Hb1 & ->).
  destruct Hw as [Wb Wi Wc Wp Wn Wh Wt Wty]. assert (Hport1 : 0 < Packet.in_port p1 < 2 ^ 16) by (by rewrite Hin1, Hin).
  pose proof (handled_again resubmit s1 _ p1 src mac sec ack blk Hp1 Hrq1 Hport1) as Hh. rewrite Wp, Hps in Hh.
  destruct (Ports.num_port_available (ports s0)) as [n |] eqn:En; [| unfold bind at 1; by rewrite Hh].
  unfold bind at 1. rewrite Hh.
  destruct (reply_run resubmit malloc_pos s1 _ p1 src mac sec ack blk Hp1 Hrq1 Hport1) as (s2 & -> & [Sp Si Sc St Sh Sb Sty Spk]).
  rewrite <- Wn in Hlt. erewrite destroy_eq; [| rewrite Spk by done; exact Hp1 | by rewrite Hb1, Hb].
  eexists. split; [reflexivity |]. cbn [with_buffers eh dp_id ports tables]. split; [| split_and!].
  - destruct (output_wire (ports s1) (answer s1 p1 src sec ack blk) (Packet.in_port p1)) as [sent Hw].
    exists src, mac, sec, ack, blk, sent. split; [done |]. cbn [fst snd with_buffers set_clock ports dp_id eh]. rewrite Sp, Hq1, Hq, Hw, Wp, Hps.
    unfold answer, own_type. by rewrite Hin1, Hin, Wi, Wty, Hids, Hty.
  - by rewrite Sh.
  - by rewrite Sb.
  - unfold bare in *. cbn [with_buffers tables]. by rewrite St.
  - by rewrite Si.
  - by rewrite Sp, output_available, Wp, Hps.
Qed.

(** One copy of a request that was taken. *)
Lemma receive_seen s a mac sec until :
  taken mac sec until s -> copy mac sec until a ->
  match Ports.num_port_available (ports s) with
  | None => recv a s = Fault
  | Some n => exists x s', recv a s = Done (x, s') /\ answered a x /\ taken mac sec until s' /\ Ports.num_port_available (ports s') = Some n
  end.
Proof using malloc_pos.
  intros (Hs & Hb & Hid) (src & ack & blk & Hrq & Hport & Hnow). rewrite (receive_run s a src mac sec ack blk Hrq).
  assert (Hp : packets (enter s a) !! next_pkt s = Some (parsed a)) by (unfold enter; cbn [packets with_packets set_clock next_pkt]; apply lookup_insert_eq).
  destruct (request_again (enter s a) (next_pkt s) src mac sec ack blk (parsed a) until Hp Hrq) as (s1 & E & Hpk & Hnx & Hd & Ht & Hps & _ & Hty & Hs1);
    [done | by eapply seen_same; [| | exact Hs] | cbn; lia |].
  erewrite !bind_eq by exact E.
  assert (Hd1 : 1 < dp_id s1) by (rewrite Hd; cbn; lia). assert (Hb1 : bare s1) by (unfold bare in *; by rewrite Ht).
  assert (Hp1 : packets s1 !! next_pkt s = Some (parsed a)) by (by rewrite Hpk). assert (Hlt : (next_pkt s < next_pkt s1)%positive) by (rewrite Hnx; cbn; lia).
  pose proof (answered_run s s1 a src mac sec ack blk Hrq Hport Hd1 Hb1 Hp1 Hlt Hps Hd Hty) as Ha.
  destruct (Ports.num_port_available (ports s)) as [n |]; [| unfold bind at 1; by rewrite Ha].
  destruct Ha as (s' & E' & Ha & Hh & Hbt & Hba & Hd' & Hn').
  erewrite bind_eq by exact E'. eexists _, _. split; [reflexivity |]. split; [exact Ha |]. split; [| done].
  split; [by eapply seen_same |]. split; [done |]. rewrite Hd', Hd. exact Hid.
Qed.

(** Any copy: it is answered, or taken. *)
Lemma receive_any s es a mac sec until x s' :
  explored s es -> bare s -> 1 < dp_id s < 1000 -> copy mac sec until a -> recv a s = Done (x, s') ->
  (exists es', explored s' es') /\ bare s' /\ 1 < dp_id s' < 1000 /\ (answered a x \/ taken mac sec until s').
Proof using malloc_pos.
  intros Hx Hb Hid (src & ack & blk & Hrq & Hport & Hnow). rewrite (receive_run s a src mac sec ack blk Hrq).
  destruct (parsed_fields a) as (Hin & Hq & Hbid).
  assert (Hp : packets (enter s a) !! next_pkt s = Some (parsed a)) by (unfold enter; cbn [packets with_packets set_clock next_pkt]; apply lookup_insert_eq).
  unfold bind at 1. destruct (ehddp_mod_local_port (next_pkt s) (enter s a)) as [[y s1] | |] eqn:E; [| done | done].
  destruct (request_any (enter s a) es (next_pkt s) src mac sec ack blk (parsed a) y s1 Hp Hrq) as ((Hd & Hba & Hnx & Hpk) & (es' & Hx1) & H0 & H1);
    [done | by eapply explored_same; [| | exact Hx] | by rewrite Hin | exact E |].
  assert (Hp1 : packets s1 !! next_pkt s = Some (parsed a)) by (apply Hpk; [cbn; lia | done]). cbn in Hd, Hnx.
  assert (Hb1 : bare s1) by (by apply Hba). unfold bind at 1.
  destruct (decide (y = 0)) as [-> | Hy].
  - destruct (H0 eq_refl) as [Hps Hty]. pose proof (answered_run s s1 a src mac sec ack blk Hrq Hport) as Ha.
    destruct (Ports.num_port_available (ports s)); [| rewrite Ha by (done || (rewrite ?Hd; lia)); done].
    destruct Ha as (s2 & -> & Ha & Hh & Hbt & Hba2 & Hd2 & _); [rewrite Hd; lia | done | done | lia | done.. |]. intros [= <- <-].
    split; [exists es'; by eapply explored_same |]. split; [done |]. split; [by rewrite Hd2, Hd | by left].
  - specialize (H1 Hy). assert (Htk : taken mac sec until s1).
    { split; [| split; [done | by rewrite Hd]]. destruct H1 as (es2 & l & e & ? & ? & ? & Hv & ?). exists es2, l, e. split_and!; try done. change (clock (enter s a)) with (a_time a) in Hv. lia. }
    destruct (request_handled resubmit group_fuel table_fuel s1 _ _ src mac sec ack blk y Hp1 Hrq) as (s2 & p2 & Hw & Hp2 & Hrq2 & Hin2 & Hq2 & Hb2 & ->); [rewrite Hd; lia | done |].
    destruct Hw as [Wb Wi Wc Wp Wn Wh Wt Wty]. unfold bind at 1.
    destruct (handle_ehddp_request_packets resubmit (next_pkt s) y s2) as [[u s3] | |] eqn:E3; [| done | done].
    assert (Htk3 : taken mac sec until s3).
    { eapply (handled_first resubmit malloc_pos s2 _ p2 src mac sec ack blk until y u s3 Hp2 Hrq2); [by rewrite Hin2, Hin | | exact E3].
      destruct Htk as (Hse & _ & ?). split; [by eapply seen_same |]. split; [done | by rewrite Wi]. }
    destruct (packet_destroy (next_pkt s) s3) as [[u4 s4] | |] eqn:E4; [| done | done]. intros [= <- <-].
    apply (taken_same _ _ _ _ _ (sames_destroy _ _ _ _ E4)) in Htk3. pose proof Htk3 as ((es4 & _ & _ & ? & _) & ? & ?).
    split; [by exists es4 |]. split; [done |]. split; [done | by right].
Qed.

Lemma receive_all_seen l : forall s mac sec until,
  taken mac sec until s -> is_Some (Ports.num_port_available (ports s)) -> Forall (copy mac sec until) l ->
  exists xs s', recv_all l s = Done (xs, s') /\ Forall2 answered l xs.
Proof using malloc_pos.
  induction l as [| a l IH]; intros s mac sec until Hs Hn Hl; cbn [receive_all]; [by exists [], s |].
  apply Forall_cons in Hl as [Ha Hl]. pose proof (receive_seen s a mac sec until Hs Ha) as Hr. destruct Hn as [n Hn]. rewrite Hn in Hr.
  destruct Hr as (x & s1 & E & Hx & Hs1 & Hn1).
  erewrite bind_eq by exact E. destruct (IH s1 mac sec until Hs1 ltac:(by eexists) Hl) as (xs & s2 & E2 & Hxs). erewrite bind_eq by exact E2.
  exists (x :: xs), s2. split; [done |]. by constructor.
Qed.

Lemma receive_all_taken l : forall s mac sec until xs s',
  taken mac sec until s -> Forall (copy mac sec until) l -> recv_all l s = Done (xs, s') -> Forall2 answered l xs.
Proof using malloc_pos.
  intros s mac sec until xs s' Hs Hl E. destruct (Ports.num_port_available (ports s)) as [n |] eqn:En.
  - destruct (receive_all_seen l s mac sec until Hs ltac:(by eexists) Hl) as (ys & s2 & E2 & H2). rewrite E2 in E. by injection E as <- _.
  - destruct l as [| a l]; [by injection E as <- _ |]. exfalso. apply Forall_cons in Hl as [Ha _].
    pose proof (receive_seen s a mac sec until Hs Ha) as Hr. rewrite En in Hr. cbn [receive_all] in E. unfold bind at 1 in E. by rewrite Hr in E.
Qed.

(** At most one of any number of copies is not answered. *)
Lemma receive_all_once l : forall s es mac sec until xs s',
  explored s es -> bare s -> 1 < dp_id s < 1000 -> Forall (copy mac sec until) l -> recv_all l s = Done (xs, s') ->
  length xs = length l /\ exists k, forall i a x, l !! i = Some a -> xs !! i = Some x -> i <> k -> answered a x.
Proof using malloc_pos.
  induction l as [| a l IH]; intros s es mac sec until xs s' Hx Hb Hid Hl; cbn [receive_all]; [intros [= <- _]; split; [done | by exists 0%nat] |].
  apply Forall_cons in Hl as [Ha Hl]. unfold bind at 1. destruct (recv a s) as [[x s1] | |] eqn:E; [| done | done].
  unfold bind at 1. destruct (recv_all l s1) as [[ys s2] | |] eqn:E2; [| done | done]. intros [= <- <-].
  destruct (receive_any s es a mac sec until x s1 Hx Hb Hid Ha E) as ((es' & Hx1) & Hb1 & Hid1 & Hor).
  destruct (IH s1 es' mac sec until ys s2 Hx1 Hb1 Hid1 Hl E2) as [Hlen [k Hk]]. split; [cbn; by f_equal |]. destruct Hor as [Han | Htk].
  - exists (S k). intros [| i] b y; cbn; [by intros [= <-] [= <-] | intros Hi Hy Hne; apply (Hk i); [done | done | congruence]].
  - exists 0%nat. pose proof (receive_all_taken l s1 mac sec until ys s2 Htk Hl E2) as Hall.
    intros [| i] b y; [done |]. cbn. intros Hi Hy _. by eapply Forall2_lookup_lr.
Qed.
End copies.

(** C2. One copy of a request is passed on. The copies of one exploration request come in through
    whatever ports, in whatever order, and go through the whole pipeline of a switch whose first
    table has no entries and whose number is one the code handles (2 to 999), while the block of
    each copy lasts beyond the last. Of all of them at most one has any other effect on the wire
    than its answer: one frame, the reply with the number of the request and the record of this
    switch, to the sender through the port the copy came in, when that port is up. And when the
    request was taken, every further copy is dealt with and answered so, without any fault, as
    long as the ports that are counted are there. So an exploration does not circulate in a
    network with loops. *)
Theorem request_passed_once depth group_fuel table_fuel s l mac sec until :
  (forall n, 0 < malloc n) -> Forall (copy mac sec until) l ->
  (forall es xs s', explored s es -> bare s -> 1 < dp_id s < 1000 -> receive_all depth group_fuel table_fuel l s = Done (xs, s') ->
     length xs = length l /\ exists k, forall i a x, l !! i = Some a -> xs !! i = Some x -> i <> k -> answered a x) /\
  (taken mac sec until s -> is_Some (Ports.num_port_available (ports s)) ->
     exists xs s', receive_all depth group_fuel table_fuel l s = Done (xs, s') /\ Forall2 answered l xs).
Proof.
  intros Hm Hl. split; [intros es xs s' Hx Hb Hid E; by eapply receive_all_once |]. intros Ht Hn. by eapply receive_all_seen.
Qed.

End explore.

(** * An example *)

(** A parser that finds the Ethernet and the eHDDP header. *)
#[local] Instance demo_env : Env := {|
  env_parser := fun buf _ => (ofl_structs_match_init, Packet.Protocols (Ofpbuf.data buf) 0 0 0 0 0 0 0 0 0 0 0 0 (Ofpbuf.data buf + 14) 0, true);
  junk := fun _ => 0; garbage_headers := FlowTable.no_headers; garbage_miss := false;
  malloc := fun n => 4096 * (n + 1); netdev_send := fun _ _ _ _ => true;
  device_of := fun _ => Ports.demo_device; in4_of := fun _ => None; current_timestamp := 0; qsort := fun _ l => l |}.

(** A request of [02:00:00:00:00:08] with number 7 and a block of 5 seconds, in a buffer with room. *)
Definition demo_request : list Z :=
  repeat 0xff 6 ++ [2; 0; 0; 0; 0; 8; 0xff; 0xaa; 1; 1; 0; 7; 0; 0; 0; 0; 0; 0; 0; 6] ++ repeat 0 20 ++
  [2; 0; 0; 0; 0; 8; 0; 0; 0x13; 0x88].
Definition demo_copy (now port : Z) : arrival := Arrival now port (Ofpbuf.Buf 100 (demo_request ++ repeat 0 600) 100 56 0 0 0 0).
Definition demo_copies : list arrival := [demo_copy 1000 2; demo_copy 1200 1; demo_copy 4999 3].
Definition demo_explorer : datapath (hmap Group.group_entry) (hmap Meter.meter_entry) := Progress.demo_dp (repeat FlowTable.flow_table_create 64).

Lemma demo_copies_ok : Forall (copy [2; 0; 0; 0; 0; 8] 7 5000) demo_copies.
Proof.
  repeat constructor; (eexists [2; 0; 0; 0; 0; 8], 0, 0x88130000; split; [split; [by vm_compute | by vm_compute |
    eexists; split; by vm_compute | by vm_compute | eexists; split; by vm_compute | by vm_compute |
    eexists; split; by vm_compute | eexists; split; by vm_compute | eexists; split; by vm_compute] | by vm_compute]).
Qed.

Lemma demo_malloc n : 0 < malloc n.
Proof. unfold malloc, demo_env. lia. Qed.

(** The ports each copy makes frames go out of. *)
Definition frames_of {G M A} (o : outcome (list (datapath G M * datapath G M) * A)) : option (list (list Ports.portref)) :=
  match o with
  | Done (xs, _) => Some (map (fun x => map Ports.f_port (drop (length (Ports.wire (ports x.1))) (Ports.wire (ports x.2)))) xs)
  | _ => None
  end.
Lemma demo_explored : frames_of (receive_all 1 0 63 demo_copies demo_explorer) = Some [[Ports.PSlot 1; Ports.PSlot 3]; [Ports.PSlot 1]; [Ports.PSlot 3]].
Proof. by vm_compute. Qed.

(** The first copy is flooded, the others are answered. *)
Lemma request_passed_once_witness :
  exists xs s', receive_all 1 0 63 demo_copies demo_explorer = Done (xs, s') /\
    frames_of (receive_all 1 0 63 demo_copies demo_explorer) = Some [[Ports.PSlot 1; Ports.PSlot 3]; [Ports.PSlot 1]; [Ports.PSlot 3]] /\
    exists k, forall i a x, demo_copies !! i = Some a -> xs !! i = Some x -> i <> k -> answered a x.
Proof.
  pose proof demo_explored as Hrun. destruct (receive_all 1 0 63 demo_copies demo_explorer) as [[xs s'] | |] eqn:E; [| discriminate Hrun | discriminate Hrun].
  exists xs, s'. split; [reflexivity |]. split; [exact Hrun |].
  refine (proj2 (proj1 (request_passed_once 1 0 63 demo_explorer demo_copies _ _ _ demo_malloc demo_copies_ok) [] xs s' _ _ _ E)).
  - split; [exact (MacTable.rep_new _) | constructor].
  - eexists _, _. split; reflexivity.
  - split; reflexivity.
Defined.
End Explore.
