(* ===== verification/Remotes.v ===== *)
(** The controllers of a datapath (udatapath/datapath.c): their connections, roles and
    asynchronous configurations, the messages that are sent to them, and the loops that talk to
    them and accept new ones. What the messages do to the rest of the datapath is an argument. *)
From S2P Require Import Prelude OflTypes Wire Ports FlowTable StructCodec State Rconn MsgCodec.
Open Scope Z_scope.
Open Scope prog_scope.

Definition OFPCR_ROLE_NOCHANGE : Z := 0.
Definition OFPCR_ROLE_EQUAL : Z := 1.
Definition OFPCR_ROLE_MASTER : Z := 2.
Definition OFPCR_ROLE_SLAVE : Z := 3.
Definition OFPET_ROLE_REQUEST_FAILED : Z := 11.
Definition OFPRRFC_STALE : Z := 0.
Definition OFPRRFC_BAD_ROLE : Z := 2.
Definition TXQ_LIMIT : Z := 128.

Module Remotes.
Import Rconn.


(** * State *)

Abbreviation rref := positive.
Abbreviation lref := positive.

(** MAIN_CONNECTION and PTIN_CONNECTION. *)
Inductive conn_id := MAIN | PTIN.
#[global] Instance conn_id_eq_dec : EqDecision conn_id.
Proof. solve_decision. Defined.

(** [struct remote]. No callback is ever installed ([cb_dump]). The multipart request that is
    waiting for its other parts is kept with its transaction id. *)
Record remote := Remote {
  main : rconn;
  aux : option rconn;
  n_txq : Z;
  role : Z;
  config : MsgCodec.async_config;
  mp_req_msg : option MsgCodec.mp_request;
  mp_req_xid : Z }.
Definition set_role (v : Z) (r : remote) : remote :=
  Remote (main r) (aux r) (n_txq r) v (config r) (mp_req_msg r) (mp_req_xid r).
Definition set_config (v : MsgCodec.async_config) (r : remote) : remote :=
  Remote (main r) (aux r) (n_txq r) (role r) v (mp_req_msg r) (mp_req_xid r).
Definition set_mp (v : option MsgCodec.mp_request) (xid : Z) (r : remote) : remote :=
  Remote (main r) (aux r) (n_txq r) (role r) (config r) v xid.

(** [struct sender] *)
Record sender := Sender { s_remote : rref; s_conn : conn_id; s_xid : Z }.

(** The part of [struct datapath] that has to do with the controllers: the list of remotes, the
    listeners with those of the auxiliary connections. With it the calls on connections so
    far, the number of connections asked for, the time, and the rest of the datapath. *)
Record control (D : Type) := Control {
  remotes : list (rref * remote);
  generation_id : Z;
  listeners : list (lref * option lref);
  next_remote : rref;
  vcalls : list vcall;
  accepts : nat;
  clock : Z;
  rest : D }.
Arguments Control {D}. Arguments remotes {D}. Arguments generation_id {D}. Arguments listeners {D}.
Arguments next_remote {D}. Arguments vcalls {D}. Arguments accepts {D}. Arguments clock {D}. Arguments rest {D}.

Section state.
Context {D : Type}.

Definition set_remotes (v : list (rref * remote)) (s : control D) : control D :=
  Control v (generation_id s) (listeners s) (next_remote s) (vcalls s) (accepts s) (clock s) (rest s).
Definition set_generation_id (v : Z) (s : control D) : control D :=
  Control (remotes s) v (listeners s) (next_remote s) (vcalls s) (accepts s) (clock s) (rest s).
Definition set_listeners (v : list (lref * option lref)) (s : control D) : control D :=
  Control (remotes s) (generation_id s) v (next_remote s) (vcalls s) (accepts s) (clock s) (rest s).
Definition set_vcalls (v : list vcall) (s : control D) : control D :=
  Control (remotes s) (generation_id s) (listeners s) (next_remote s) v (accepts s) (clock s) (rest s).
Definition set_accepts (v : nat) (s : control D) : control D :=
  Control (remotes s) (generation_id s) (listeners s) (next_remote s) (vcalls s) v (clock s) (rest s).
Definition set_clock (v : Z) (s : control D) : control D :=
  Control (remotes s) (generation_id s) (listeners s) (next_remote s) (vcalls s) (accepts s) v (rest s).
Definition set_rest (v : D) (s : control D) : control D :=
  Control (remotes s) (generation_id s) (listeners s) (next_remote s) (vcalls s) (accepts s) (clock s) v.

(** The remote behind a pointer. *)
Fixpoint find (r : rref) (l : list (rref * remote)) : option remote :=
  match l with
  | [] => None
  | (r', x) :: l => if Pos.eqb r r' then Some x else find r l
  end.
Definition alter (f : remote -> remote) (r : rref) (l : list (rref * remote)) : list (rref * remote) :=
  map (fun p => if Pos.eqb r (fst p) then (fst p, f (snd p)) else p) l.

Definition the_remote (r : rref) : prog (control D) remote := x <- pget (fun s => find r (remotes s));; plift x.
Definition upd_remote (r : rref) (f : remote -> remote) : prog (control D) unit :=
  pmod (fun s => set_remotes (alter f r (remotes s)) s).

(** The part of the datapath that [dp_new] sets up. *)
Definition dp_new (t : Z) (d : D) : control D := Control [] (u64 (-1)) [] 1%positive [] 0 t d.

(** * Operations on a connection of a remote *)

(** The counter of the packets that are queued, [n_txq] of the remote, which its two connections
    share. *)
Definition txq_counter : cref := 1%positive.

Definition rconn_of (c : conn_id) (x : remote) : option rconn :=
  match c with MAIN => Some (main x) | PTIN => aux x end.
Definition set_rconn (c : conn_id) (rc : rconn) (n : Z) (x : remote) : remote :=
  match c with
  | MAIN => Remote rc (aux x) n (role x) (config x) (mp_req_msg x) (mp_req_xid x)
  | PTIN => Remote (main x) (Some rc) n (role x) (config x) (mp_req_msg x) (mp_req_xid x)
  end.

(** A connection of a remote with its counter, the calls so far and the time. *)
Definition link_of (rc : rconn) (n : Z) (s : control D) : link :=
  Link rc {[ txq_counter := n ]} (vcalls s) (clock s).

Definition on_conn {A} (r : rref) (c : conn_id) (p : prog link A) : prog (control D) A :=
  x <- the_remote r;;
  rc <- plift (rconn_of c x);;
  l <- pget (link_of rc (n_txq x));;
  '(y, l') <- plift (p l);;
  upd_remote r (set_rconn c (Rconn.rc l') (counters l' !!! txq_counter));;;
  pmod (set_vcalls (calls l'));;;
  pret y.

Context `{!Vconn}.

(** * Sending *)

(** The connection that a message takes. *)
Definition chosen (c : conn_id) (x : remote) : conn_id :=
  match c, aux x with
  | PTIN, Some a => if rconn_is_connected (main x) && rconn_is_connected a then PTIN else MAIN
  | _, _ => MAIN
  end.
Definition send_openflow_buffer_to_remote (bs : list Z) (c : conn_id) (r : rref) : prog (control D) Z :=
  x <- the_remote r;; on_conn r (chosen c x) (rconn_send_with_limit bs txq_counter TXQ_LIMIT).

Context (junk : nat -> Z).

(** [buffer->size] goes to the header; a buffer shorter than a header is an assertion that fails. *)
Definition update_openflow_length (bs : list Z) : option (list Z) :=
  if (length bs <? 8)%nat then None else Some (take 2 bs ++ be_store 2 (length bs) ++ drop 4 bs).

(** A reason that has a bit in a mask, where the bit is not set. *)
Definition disabled (reasons mask reason : Z) : bool := (reason <? reasons) && negb (Z.testbit mask reason).

Definition OFPT_PACKET_IN : Z := 10.
Definition OFPT_FLOW_REMOVED : Z := 11.
Definition OFPT_PORT_STATUS : Z := 12.

(** Whether a message goes to a remote when it goes to all of them; the reasons are read at their
    places in [struct ofp_packet_in], [struct ofp_port_status] and [struct ofp_flow_removed]. The
    case of a port status falls through to that of a removed flow. *)
Definition wants (bs : list Z) (x : remote) : option bool :=
  let cfg := config x in
  let flow_removed := reason ← bs !! 18%nat; Some (negb (disabled 5 (MsgCodec.flow_removed_mask cfg).1 reason)) in
  type ← bs !! 1%nat;
  if (role x =? OFPCR_ROLE_EQUAL) || (role x =? OFPCR_ROLE_MASTER) then
    if type =? OFPT_PACKET_IN then
      reason ← bs !! 14%nat; Some (negb (disabled 3 (MsgCodec.packet_in_mask cfg).1 reason))
    else if type =? OFPT_PORT_STATUS then
      reason ← bs !! 8%nat; if disabled 3 (MsgCodec.port_status_mask cfg).1 reason then Some false else flow_removed
    else if type =? OFPT_FLOW_REMOVED then flow_removed
    else Some true
  else if (role x =? OFPCR_ROLE_SLAVE) && negb (type =? OFPT_PORT_STATUS) then Some false
  else reason ← bs !! 8%nat; Some (negb (disabled 3 (MsgCodec.port_status_mask cfg).2 reason)).

Definition send_prev (bs : list Z) (c : conn_id) (prev : option rref) : prog (control D) unit :=
  match prev with Some p => send_openflow_buffer_to_remote bs c p;;; pret tt | None => pret tt end.

(** The loop over the remotes: a message goes to a remote when the next one is found that wants
    it, and to the last one after the loop. *)
Fixpoint broadcast (bs : list Z) (c : conn_id) (rs : list rref) (prev : option rref) : prog (control D) unit :=
  match rs with
  | [] => send_prev bs c prev
  | r :: rs =>
      x <- the_remote r;;
      w <- plift (wants bs x);;
      if w then send_prev bs c prev;;; broadcast bs c rs (Some r) else broadcast bs c rs prev
  end.

Definition send_openflow_buffer (bs : list Z) (c : conn_id) (to : option sender) : prog (control D) Z :=
  bs <- plift (update_openflow_length bs);;
  match to with
  | Some s => send_openflow_buffer_to_remote bs c (s_remote s)
  | None => rs <- pget (fun s => map fst (remotes s));; broadcast bs c rs None;;; pret 0
  end.

Definition dp_send_message (msg : MsgCodec.ofl_msg) (to : option sender) : prog (control D) Z :=
  match MsgCodec.ofl_msg_pack junk msg (match to with Some s => s_xid s | None => 0 end) with
  | Ok bs =>
      let c := match to with Some s => s_conn s | None => MAIN end in
      let c := if MsgCodec.msg_type msg =? OFPT_PACKET_IN then PTIN else c in
      send_openflow_buffer bs c to
  | Err e => pret e
  | _ => pfail
  end.

(** * Roles and asynchronous messages *)

(** [generation_id >= 0] holds of every unsigned number. *)
Definition stale (cur new : Z) : bool := 2 ^ 63 <=? u64 (new - cur).
Definition dp_check_generation_id (new : Z) : prog (control D) Z :=
  cur <- pget generation_id;;
  if stale cur new then pret (ofl_error OFPET_ROLE_REQUEST_FAILED OFPRRFC_STALE)
  else pmod (set_generation_id new);;; pret 0.

Definition demote (x : remote) : remote := if role x =? OFPCR_ROLE_MASTER then set_role OFPCR_ROLE_SLAVE x else x.

Definition role_reply (r g : Z) (s : sender) : prog (control D) Z :=
  dp_send_message (MsgCodec.M_role true r g) (Some s);;; pret 0.

Definition dp_handle_role_request (req gen : Z) (s : sender) : prog (control D) Z :=
  if req =? OFPCR_ROLE_NOCHANGE then
    x <- the_remote (s_remote s);; g <- pget generation_id;; role_reply (role x) g s
  else if req =? OFPCR_ROLE_EQUAL then
    upd_remote (s_remote s) (set_role OFPCR_ROLE_EQUAL);;; role_reply req gen s
  else if req =? OFPCR_ROLE_MASTER then
    error <- dp_check_generation_id gen;;
    if negb (error =? 0) then pret error else
    pmod (fun st => set_remotes (map (prod_map id demote) (remotes st)) st);;;
    upd_remote (s_remote s) (set_role OFPCR_ROLE_MASTER);;; role_reply req gen s
  else if req =? OFPCR_ROLE_SLAVE then
    error <- dp_check_generation_id gen;;
    if negb (error =? 0) then pret error else
    upd_remote (s_remote s) (set_role OFPCR_ROLE_SLAVE);;; role_reply req gen s
  else pret (ofl_error OFPET_ROLE_REQUEST_FAILED OFPRRFC_BAD_ROLE).

(** GET_ASYNC_REQUEST, and SET_ASYNC with its configuration. *)
Definition dp_handle_async_request (set : option MsgCodec.async_config) (s : sender) : prog (control D) Z :=
  match set with
  | None =>
      x <- the_remote (s_remote s);;
      dp_send_message (MsgCodec.M_async true (config x)) (Some s);;; pret 0
  | Some c => upd_remote (s_remote s) (set_config c);;; pret 0
  end.

(** * Remotes *)

(** The configuration of a new remote: each byte of the masks is set. *)
Definition all_messages : MsgCodec.async_config :=
  MsgCodec.Async (0x07070707, 0x07070707) (0x07070707, 0x07070707) (0x1f1f1f1f, 0x1f1f1f1f).

Definition remote_create (rc : rconn) (rc_aux : option rconn) : prog (control D) unit :=
  pmod (fun s => Control (remotes s ++ [(next_remote s, Remote rc rc_aux 0 OFPCR_ROLE_EQUAL all_messages None 0)])
    (generation_id s) (listeners s) (Pos.succ (next_remote s)) (vcalls s) (accepts s) (clock s) (rest s)).

Definition remote_destroy (r : rref) : prog (control D) unit :=
  x <- the_remote r;;
  match aux x with Some _ => on_conn r PTIN rconn_destroy | None => pret tt end;;;
  on_conn r MAIN rconn_destroy;;;
  pmod (fun s => set_remotes (filter (fun p => fst p <> r) (remotes s)) s).

(** [rconn_new_from_vconn] *)
Definition rconn_new_from_vconn (nm : string) (v : vref) : prog (control D) rconn :=
  l <- pget (fun s => Link (rconn_create (clock s) 60 0) ∅ (vcalls s) (clock s));;
  '(_, l') <- plift (rconn_connect_unreliably nm v l);;
  pmod (set_vcalls (calls l'));;; pret (Rconn.rc l').

(** * Talking to the remotes *)

(** What a message does to the datapath ([handle_control_msg]), and where the matches and
    instructions of a message that is received are stored. *)
Context (handle_control_msg : MsgCodec.ofl_msg -> sender -> prog (control D) Z).
Context (addr : control D -> Z) (at_ : control D -> positive).

(** A message that was received on a connection: an error is answered with the message. *)
Definition process (r : rref) (c : conn_id) (bs : list Z) : prog (control D) unit :=
  a <- pget addr;; p <- pget at_;;
  let '(xid, m) := MsgCodec.ofl_msg_unpack junk a p bs in
  let s := Sender r c (default 0 xid) in
  error <- match m with Ok (msg, _) => handle_control_msg msg s | Err e => pret e | _ => pfail end;;
  pwhen (negb (error =? 0))
    (dp_send_message (MsgCodec.M_error (ofl_error_type error) (ofl_error_code error) bs) (Some s);;; pret tt).

Fixpoint recv_loop (n : nat) (r : rref) (c : conn_id) : prog (control D) unit :=
  match n with
  | O => pret tt
  | S n =>
      buffer <- on_conn r c rconn_recv;;
      match buffer with
      | None => pret tt
      | Some bs => process r c bs;;; recv_loop n r c
      end
  end.

Definition remote_rconn_run (r : rref) (c : conn_id) : prog (control D) unit :=
  on_conn r c (Rconn.perform Run);;; recv_loop 50 r c.

Definition remote_run (r : rref) : prog (control D) unit :=
  remote_rconn_run r MAIN;;;
  x <- the_remote r;;
  if negb (rconn_is_alive (main x)) then remote_destroy r
  else match aux x with
       | None => pret tt
       | Some a => if rconn_is_alive a then remote_rconn_run r PTIN else pret tt
       end.

(** [LIST_FOR_EACH_SAFE] of [dp_run]: a remote may only take itself out of the list. *)
Definition talk_to_remotes : prog (control D) unit :=
  rs <- pget (fun s => map fst (remotes s));;
  fold_right (fun r k => remote_run r;;; k) (pret tt) rs.

(** * Accepting connections *)

(** What [pvconn_accept] gives: an error, or 0 and a connection. *)
Context (accept_result : nat -> lref -> Z * vref).

Definition pvconn_accept (l : lref) : prog (control D) (Z * vref) :=
  n <- pget accepts;; pmod (set_accepts (S n));;; pret (accept_result n l).

(** An accepted connection, with an auxiliary one if that is there too. *)
Definition accept_aux (l_aux : option lref) : prog (control D) (option rconn) :=
  match l_aux with
  | None => pret None
  | Some la =>
      '(e, va) <- pvconn_accept la;;
      if e =? 0 then a <- rconn_new_from_vconn "passive_aux" va;; pret (Some a) else pret None
  end.
Definition accepted (v : vref) (l_aux : option lref) : prog (control D) unit :=
  rc_aux <- accept_aux l_aux;;
  rc <- rconn_new_from_vconn "passive" v;;
  remote_create rc rc_aux.

(** The loop over the listeners; one that fails is replaced by the last of the array. *)
Fixpoint accept_loop (n : nat) (i : nat) : prog (control D) unit :=
  match n with
  | O => pret tt
  | S n =>
      ls <- pget listeners;;
      match ls !! i with
      | None => pret tt
      | Some (l, l_aux) =>
          '(e, v) <- pvconn_accept l;;
          if e =? 0 then accepted v l_aux;;; accept_loop n (S i)
          else if negb (e =? EAGAIN) then
            pmod (set_listeners (take (length ls - 1) (<[i := default (l, l_aux) (last ls)]> ls)));;;
            accept_loop n i
          else accept_loop n (S i)
      end
  end.
Definition accept_connections : prog (control D) unit := ls <- pget listeners;; accept_loop (length ls) 0.

Definition dp_add_pvconn (l : lref) (l_aux : option lref) : prog (control D) unit :=
  pmod (fun s => set_listeners (listeners s ++ [(l, l_aux)]) s).

End state.

(** * Invariant *)

Section facts.
Context {D : Type} `{!Vconn} (junk : nat -> Z).

(** What the counters are beyond the queue of a connection: the other connection of the remote has
    the rest of its counter. *)
Definition share (b : Z) : cref -> Z := fun c => if decide (c = txq_counter) then b else inhabitant.
Definition backlog (o : option rconn) : Z := match o with Some rc => queued txq_counter (txq rc) | None => 0 end.
(** Only messages that the counter of the remote counts. *)
Definition unmixed (rc : rconn) : Prop := forall c, c <> txq_counter -> queued c (txq rc) = 0.
Definition sound (t b n : Z) (rc : rconn) : Prop :=
  good t (share b) (Link rc {[ txq_counter := n ]} [] t) /\ unmixed rc.

(** The connections of a remote are in good order, and its counter is the number of its messages
    that are queued, which is limited. *)
Record fit (t : Z) (x : remote) : Prop := {
  fit_main : sound t (backlog (aux x)) (n_txq x) (main x);
  fit_aux : forall a, aux x = Some a -> sound t (backlog (Some (main x))) (n_txq x) a;
  fit_limit : n_txq x <= TXQ_LIMIT }.

Definition roles (l : list (rref * remote)) : list Z := map (fun p => role (snd p)) l.
Definition masters (l : list (rref * remote)) : nat := length (filter (fun z => z = OFPCR_ROLE_MASTER) (roles l)).

Record inv (rs : list rref) (s : control D) : Prop := {
  inv_refs : map fst (remotes s) = rs;
  inv_nodup : NoDup rs;
  inv_fresh : Forall (fun r => (r < next_remote s)%positive) rs;
  inv_clock : 0 <= clock s < 2 ^ 31;
  inv_fit : Forall (fun p => fit (clock s) (snd p)) (remotes s);
  inv_roles : Forall (fun z => OFPCR_ROLE_EQUAL <= z <= OFPCR_ROLE_SLAVE) (roles (remotes s));
  inv_master : (masters (remotes s) <= 1)%nat }.

(** ** Operations on connections *)

(** An operation that keeps a connection in order, adds only messages of this counter, and keeps
    to the limit. *)
Record safe {A} (p : prog link A) : Prop := {
  safe_good t base l : good t base l -> exists y l', p l = Some (y, l') /\ good t base l';
  safe_within c : c <> txq_counter -> preserved (within c 0) p;
  safe_limit t base l y l' : good t base l -> p l = Some (y, l') ->
    counters l !!! txq_counter <= TXQ_LIMIT -> counters l' !!! txq_counter <= TXQ_LIMIT }.

Lemma safe_queueless {A} (p : prog link A) :
  (forall t base l, good t base l -> exists y l', p l = Some (y, l') /\ good t base l') ->
  (forall c n, preserved (within c n) p) -> safe p.
Proof.
  intros Hg Hw. split; [done | auto |]. intros t base l y l' Hl E Hn.
  destruct (Hg t base l Hl) as (y2 & l2 & E2 & Hl2). rewrite E in E2. injection E2 as <- <-.
  pose proof (fr_balance _ _ _ (gd_frame _ _ _ Hl) txq_counter) as B.
  pose proof (fr_balance _ _ _ (gd_frame _ _ _ Hl2) txq_counter) as B2. unfold balance in *.
  assert (within txq_counter (queued txq_counter (txq (Rconn.rc l))) l') as Hw'; [| unfold within in Hw'; lia].
  eapply Hw; [| exact E]. unfold within. lia.
Qed.

Lemma safe_run : safe (Rconn.perform Run).
Proof.
  apply safe_queueless.
  - intros t base l Hl. destruct (perform_good t base Run l Hl) as (l' & E & Hl'). by exists tt, l'.
  - intros c n. cbn [Rconn.perform]. preserved_tac. apply within_rconn_run.
Qed.

Lemma safe_recv : safe rconn_recv.
Proof. apply safe_queueless; [by apply good_rconn_recv | apply within_rconn_recv]. Qed.

Lemma safe_send bs : safe (rconn_send_with_limit bs txq_counter TXQ_LIMIT).
Proof.
  unfold rconn_send_with_limit. split.
  - intros t base l Hl. unfold pbind, pget. destruct (_ <=? _); [by eexists _, l |]. by apply good_rconn_send.
  - intros c Hc. apply preserved_bind; [apply preserved_get |]. intros n. destruct (_ <=? _); [apply preserved_ret |].
    apply within_rconn_send_other. by intros [= <-].
  - intros t base l y l' Hl. unfold pbind, pget. destruct (Z.leb_spec TXQ_LIMIT (counters l !!! txq_counter)); [by intros [= <- <-] |].
    intros E _. destruct (good_rconn_send t base bs (Some txq_counter) l Hl) as (y2 & l2 & E2 & Hl2).
    rewrite E in E2. injection E2 as <- <-.
    pose proof (fr_balance _ _ _ (gd_frame _ _ _ Hl) txq_counter) as B.
    pose proof (fr_balance _ _ _ (gd_frame _ _ _ Hl2) txq_counter) as B2. unfold balance in *.
    eapply (within_rconn_send txq_counter (queued txq_counter (txq (Rconn.rc l)))) in E; [| unfold within; lia].
    rewrite decide_True in E by done. unfold within in E. lia.
Qed.

Lemma close_all ms : forall (c : prog link unit),
  (forall t base l, good t base l -> exists y l', c l = Some (y, l') /\ good t base l') -> (forall k n, preserved (within k n) c) ->
  let d := fold_left (fun c v => c;;; vconn_close (Some v)) ms c in
  (forall t base l, good t base l -> exists y l', d l = Some (y, l') /\ good t base l') /\ (forall k n, preserved (within k n) d).
Proof.
  induction ms as [| m ms IH]; intros c Hc Hw; [done |]. cbn [fold_left]. apply IH.
  - intros t base l Hl. destruct (Hc t base l Hl) as (y & l1 & E & Hl1). unfold pbind. rewrite E. eexists _, _. split; [done |]. by apply good_call.
  - intros k n. apply preserved_bind; [done |]. intros _. apply within_close.
Qed.

(** Emptying the queue keeps a connection in order. *)
Lemma good_flush t base l : good t base l -> exists l', flush_queue l = Some (tt, l') /\ good t base l'.
Proof.
  intros [Hf Hl Hb Hi].
  destruct (total_flush t base (fun r => match state r with S_VOID | S_BACKOFF => vconn r = None | _ => is_Some (vconn r) end /\
    (state r = S_BACKOFF -> 1 <= backoff r /\ reliable r = true) /\ (state r = S_IDLE -> 1 <= probe_interval r)) (fun _ H => H) l)
    as ([] & l' & E & Hf' & (H1 & H2 & H3) & _); [done |].
  by exists l'.
Qed.

Lemma safe_destroy : safe rconn_destroy.
Proof.
  apply safe_queueless; unfold rconn_destroy.
  - intros t base l Hl. unfold the. unfold pbind at 1, pget at 1. unfold pbind at 1.
    destruct (total_close (good t base) (vconn (Rconn.rc l)) (fun l c H => good_call t base c l H) l Hl) as ([] & l1 & E1 & Hl1). rewrite E1.
    destruct (good_flush t base l1 Hl1) as (l2 & E2 & Hl2). unfold pbind at 1. rewrite E2. unfold pbind, pget.
    apply close_all; [intros; by eexists _, _ | intros; apply preserved_ret | done].
  - intros c n. preserved_tac; [apply within_close | apply within_flush |].
    apply close_all; [intros; by eexists _, _ | intros; apply preserved_ret].
Qed.

(** ** Connections of a remote *)

Lemma share_counter b : share b txq_counter = b.
Proof. unfold share. by rewrite decide_True. Qed.

Lemma sound_count t b n rc : sound t b n rc -> n = b + queued txq_counter (txq rc).
Proof.
  intros [Hg _]. pose proof (fr_balance _ _ _ (gd_frame _ _ _ Hg) txq_counter) as B. unfold balance in B. cbn [counters Rconn.rc] in B.
  rewrite lookup_total_singleton_eq, share_counter in B. lia.
Qed.

(** Only the counter is kept of the counters, and none of the calls. *)
Lemma sound_repack t b b' n l :
  good t (share b) l -> unmixed (Rconn.rc l) -> n = b' + queued txq_counter (txq (Rconn.rc l)) -> sound t b' n (Rconn.rc l).
Proof.
  intros [[F1 F2 F3 F4 F5 F6 F7 F8] Hl Hb Hi] Hu Hn. split; [| done]. split; [| done..]. split; try done.
  intros c. unfold balance, share. cbn [counters Rconn.rc]. case_decide as Hc.
  - subst c. rewrite lookup_total_singleton_eq. lia.
  - rewrite lookup_total_singleton_ne by auto. rewrite (Hu c Hc). lia.
Qed.

Lemma sound_other t b b' n n' rc : sound t b n rc -> n' = b' + queued txq_counter (txq rc) -> sound t b' n' rc.
Proof. intros [Hg Hu] Hn. by eapply (sound_repack t b b' n' (Link rc _ _ _)). Qed.

Lemma sound_later t t' b n rc : sound t b n rc -> t <= t' < 2 ^ 31 -> sound t' b n rc.
Proof. intros [Hg Hu] Ht. split; [| done]. by apply (good_later t t') in Hg. Qed.

Lemma sound_step {A} t b n rc (p : prog link A) k :
  sound t b n rc -> n <= TXQ_LIMIT -> safe p ->
  exists y l', p (Link rc {[ txq_counter := n ]} k t) = Some (y, l') /\
    sound t b (counters l' !!! txq_counter) (Rconn.rc l') /\ counters l' !!! txq_counter <= TXQ_LIMIT.
Proof.
  intros [Hg Hu] Hn [S1 S2 S3]. set (l := Link _ _ k _).
  assert (Hl : good t (share b) l) by (destruct Hg as [[F1 F2 F3 F4 F5 F6 F7 F8] Hl Hb Hi]; split; [by split | done..]).
  destruct (S1 t _ l Hl) as (y & l' & E & Hl'). exists y, l'. split; [done |]. split.
  - apply (sound_repack t b b); [done | |].
    + intros c Hc. assert (within c 0 l') as Hw; [| unfold within in Hw; pose proof (queued_nonneg c (txq (Rconn.rc l'))); lia].
      eapply S2; [done | | exact E]. unfold within. cbn. rewrite (Hu c Hc). lia.
    + pose proof (fr_balance _ _ _ (gd_frame _ _ _ Hl') txq_counter) as B. unfold balance in B. rewrite share_counter in B. lia.
  - eapply S3; [exact Hl | exact E |]. cbn [counters l]. by rewrite lookup_total_singleton_eq.
Qed.

Lemma fit_step {A} t x c rc (p : prog link A) k :
  fit t x -> rconn_of c x = Some rc -> safe p ->
  exists y l', p (Link rc {[ txq_counter := n_txq x ]} k t) = Some (y, l') /\
    fit t (set_rconn c (Rconn.rc l') (counters l' !!! txq_counter) x).
Proof.
  intros [Hm Ha Hn] Hc Hp. destruct c; cbn in Hc.
  - injection Hc as <-. destruct (sound_step t _ _ _ p k Hm Hn Hp) as (y & l' & E & Hs & Hn'). exists y, l'. split; [done |].
    split; [done | | done]. cbn. intros a Ea. eapply sound_other; [by apply Ha |].
    apply sound_count in Hs. rewrite Ea in Hs. cbn in *. lia.
  - pose proof (Ha rc Hc) as Hr. destruct (sound_step t _ _ _ p k Hr Hn Hp) as (y & l' & E & Hs & Hn'). exists y, l'. split; [done |].
    split; [| by intros a [= <-] | done]. cbn. eapply sound_other; [exact Hm |]. apply sound_count in Hs. cbn in *. lia.
Qed.

Lemma fit_later t t' x : fit t x -> t <= t' < 2 ^ 31 -> fit t' x.
Proof. intros [Hm Ha Hn] Ht. split; [by eapply sound_later | | done]. intros a Ea. eapply sound_later; [by apply Ha | done]. Qed.

(** ** The list of remotes *)

Lemma fst_alter f r l : map fst (alter f r l) = map fst l.
Proof. unfold alter. rewrite map_map. apply map_ext. intros []. by case_match. Qed.

Lemma find_fst r l : r ∈ map fst l -> is_Some (find r l).
Proof.
  induction l as [| [r' x] l IH]; cbn; [by intros ?%elem_of_nil |]. destruct (Pos.eqb_spec r r'); [by eexists |].
  intros [? | ?]%elem_of_cons; [done | by apply IH].
Qed.

Lemma find_elem r x l : find r l = Some x -> (r, x) ∈ l.
Proof.
  induction l as [| [r' y] l IH]; cbn; [done |]. destruct (Pos.eqb_spec r r') as [<- |]; [intros [= ->]; by left |].
  intros Hf. right. by apply IH.
Qed.

Lemma elem_find r x l : NoDup (map fst l) -> (r, x) ∈ l -> find r l = Some x.
Proof.
  induction l as [| [r' y] l IH]; cbn; [by intros _ ?%elem_of_nil |]. intros [Hn Hd]%NoDup_cons [[= <- <-] | Hin]%elem_of_cons.
  - by rewrite Pos.eqb_refl.
  - destruct (Pos.eqb_spec r r') as [<- |]; [| by apply IH]. destruct Hn. by apply (list_elem_of_fmap_2 fst _ (r, x)).
Qed.

Lemma find_alter f r r' l : find r' (alter f r l) = if Pos.eqb r r' then f <$> find r' l else find r' l.
Proof.
  induction l as [| [k x] l IH]; cbn; [by case_match |].
  destruct (Pos.eqb_spec r k) as [-> | Hk]; cbn; destruct (Pos.eqb_spec r' k) as [-> | Hk']; rewrite ?IH, ?Pos.eqb_refl; try done.
  rewrite (proj2 (Pos.eqb_neq r k)); done.
Qed.

Lemma roles_alter f r l : (forall x, find r l = Some x -> role (f x) = role x) -> NoDup (map fst l) -> roles (alter f r l) = roles l.
Proof.
  intros Hf Hd. unfold roles, alter. rewrite map_map. apply map_ext_in. intros [k x] Hin. cbn.
  destruct (Pos.eqb_spec r k) as [-> |]; [| done]. cbn. apply Hf, elem_find; [done |]. by apply list_elem_of_In.
Qed.

Lemma Forall_alter_at (P : remote -> Prop) f r l :
  Forall (fun p => P (snd p)) l -> NoDup (map fst l) -> (forall x, find r l = Some x -> P (f x)) -> Forall (fun p => P (snd p)) (alter f r l).
Proof.
  intros Hl Hd Hf. unfold alter. apply Forall_map. rewrite Forall_forall in *. intros [k x] Hin. cbn in *.
  destruct (Pos.eqb_spec r k) as [-> |]; [cbn; apply Hf; by apply elem_find | by apply (Hl (k, x))].
Qed.

Lemma inv_find rs s r : inv rs s -> r ∈ rs -> exists x, find r (remotes s) = Some x /\ fit (clock s) x.
Proof.
  intros [<- ? ? ? Hfit ? ?] Hr. destruct (find_fst r (remotes s) Hr) as [x Hx]. exists x. split; [done |].
  rewrite Forall_forall in Hfit. apply (Hfit (r, x)). by apply find_elem.
Qed.

Lemma inv_alter rs s r f :
  inv rs s -> (forall x, find r (remotes s) = Some x -> fit (clock s) (f x) /\ role (f x) = role x) ->
  inv rs (set_remotes (alter f r (remotes s)) s).
Proof.
  intros [H1 H2 H3 H4 H5 H6 H7] Hf. assert (Hd : NoDup (map fst (remotes s))) by by rewrite H1.
  assert (Hro : roles (alter f r (remotes s)) = roles (remotes s)) by (apply roles_alter; [intros x Hx; by apply Hf | done]).
  split; cbn [remotes set_remotes clock next_remote]; [by rewrite fst_alter | done | done | done | | by rewrite Hro | unfold masters; by rewrite Hro].
  apply Forall_alter_at; [done | done |]. intros x Hx. by apply Hf.
Qed.

(** An operation on a connection, with what becomes of the remote and of the others. *)
Lemma on_conn_step {A} rs s r x c rc (p : prog link A) :
  inv rs s -> find r (remotes s) = Some x -> fit (clock s) x -> rconn_of c x = Some rc -> safe p ->
  exists y l', p (link_of rc (n_txq x) s) = Some (y, l') /\
    on_conn r c p s = Some (y, set_vcalls (calls l') (set_remotes (alter (set_rconn c (Rconn.rc l') (counters l' !!! txq_counter)) r (remotes s)) s)) /\
    inv rs (set_vcalls (calls l') (set_remotes (alter (set_rconn c (Rconn.rc l') (counters l' !!! txq_counter)) r (remotes s)) s)).
Proof.
  intros Hi Hx Hfit Hc Hp. destruct (fit_step (clock s) x c rc p (vcalls s) Hfit Hc Hp) as (y & l' & E & Hf').
  exists y, l'. split; [done |]. split.
  - unfold on_conn, the_remote, upd_remote, pbind, pget, plift, pmod, pret. rewrite Hx, Hc. unfold link_of. by rewrite E.
  - assert (inv rs (set_remotes (alter (set_rconn c (Rconn.rc l') (counters l' !!! txq_counter)) r (remotes s)) s)) as [];
      [| by split].
    apply inv_alter; [done |]. intros x' Hx'. rewrite Hx in Hx'. injection Hx' as <-. split; [done | by destruct c].
Qed.

(** * Sending *)

(** A message that is given once to a connection of a remote, after some calls. *)
Definition sent (bs : list Z) (c : conn_id) (k : list vcall) (t : Z) (x : remote) : option remote :=
  rc ← rconn_of (chosen c x) x;
  p ← rconn_send_with_limit bs txq_counter TXQ_LIMIT (Link rc {[ txq_counter := n_txq x ]} k t);
  Some (set_rconn (chosen c x) (Rconn.rc p.2) (counters p.2 !!! txq_counter) x).
Definition delivered (bs : list Z) (c : conn_id) (t : Z) (x x' : remote) : Prop := exists k, sent bs c k t x = Some x'.

(** Only remotes and calls differ. *)
Definition only_remotes (s s' : control D) : Prop := exists k l, s' = set_vcalls k (set_remotes l s).

Lemma only_remotes_refl s : only_remotes s s.
Proof. exists (vcalls s), (remotes s). by destruct s. Qed.
Lemma only_remotes_trans s1 s2 s3 : only_remotes s1 s2 -> only_remotes s2 s3 -> only_remotes s1 s3.
Proof. intros (k & l & ->) (k' & l' & ->). by exists k', l'. Qed.
Lemma only_remotes_clock s s' : only_remotes s s' -> clock s' = clock s.
Proof. by intros (k & l & ->). Qed.

Lemma chosen_there c x : is_Some (rconn_of (chosen c x) x).
Proof. destruct c; [by eexists |]. unfold chosen. destruct (aux x) as [a |] eqn:Ea; [| by eexists]. case_match; cbn; [rewrite Ea |]; by eexists. Qed.

Lemma send_step rs s r bs c :
  inv rs s -> r ∈ rs -> exists e s' x x', send_openflow_buffer_to_remote bs c r s = Some (e, s') /\ inv rs s' /\ only_remotes s s' /\
    roles (remotes s') = roles (remotes s) /\ find r (remotes s) = Some x /\ find r (remotes s') = Some x' /\
    delivered bs c (clock s) x x' /\ forall r', r' <> r -> find r' (remotes s') = find r' (remotes s).
Proof.
  intros Hi Hr. destruct (inv_find rs s r Hi Hr) as (x & Hx & Hfit). destruct (chosen_there c x) as [rc Hrc].
  destruct (on_conn_step rs s r x (chosen c x) rc _ Hi Hx Hfit Hrc (safe_send bs)) as (y & l' & E & Eo & Hi').
  eexists y, _, x, _. split; [| split; [exact Hi' |]].
  { unfold send_openflow_buffer_to_remote, the_remote, pbind at 1 2, pget at 1, plift at 1. by rewrite Hx. }
  split; [by eexists _, _ |]. split.
  { cbn. apply roles_alter; [intros; by destruct (chosen c x) |]. pose proof (inv_refs _ _ Hi) as ->. apply Hi. }
  split; [done |]. split; [cbn; rewrite find_alter, Pos.eqb_refl, Hx; cbn; done |]. split.
  - exists (vcalls s). unfold sent. rewrite Hrc. cbn [mbind option_bind]. unfold link_of in E. by rewrite E.
  - intros r' Hne. cbn. rewrite find_alter. by rewrite (proj2 (Pos.eqb_neq r r')) by auto.
Qed.

(** ** To all *)

Definition gets (bs : list Z) (prev : option rref) (rs : list rref) (r : rref) (x : remote) : Prop :=
  prev = Some r \/ r ∈ rs /\ wants bs x = Some true.

(** What a broadcast does from a state to another: each remote that gets the message has it once,
    the others are as before. *)
Definition spread (bs : list Z) (c : conn_id) (prev : option rref) (rs : list rref) (s s' : control D) : Prop :=
  only_remotes s s' /\ roles (remotes s') = roles (remotes s) /\
  forall r x, find r (remotes s) = Some x -> exists x', find r (remotes s') = Some x' /\
    (gets bs prev rs r x -> delivered bs c (clock s) x x') /\ (~ gets bs prev rs r x -> x' = x).

Lemma send_prev_step rs s bs c prev :
  inv rs s -> (forall p, prev = Some p -> p ∈ rs) ->
  exists s', send_prev bs c prev s = Some (tt, s') /\ inv rs s' /\ spread bs c prev [] s s'.
Proof.
  intros Hi Hp. destruct prev as [p |]; cbn [send_prev].
  - destruct (send_step rs s p bs c Hi (Hp p eq_refl)) as (e & s' & x & x' & E & Hi' & Ho & Hro & Hx & Hx' & Hd & Hne).
    exists s'. unfold pbind. rewrite E. split; [done |]. split; [done |]. split; [done |]. split; [done |].
    intros r y Hy. destruct (decide (r = p)) as [-> | Hrp].
    + exists x'. split; [done |]. rewrite Hx in Hy. injection Hy as <-. split; [done |]. intros []. by left.
    + exists y. rewrite Hne by done. split; [done |]. split; [| done]. intros [[= ->] | [[]%elem_of_nil _]]. done.
  - exists s. split; [done |]. split; [done |]. split; [apply only_remotes_refl |]. split; [done |].
    intros r x Hx. exists x. split; [done |]. split; [| done]. intros [[=] | [[]%elem_of_nil _]].
Qed.

Lemma spread_cons bs c prev r rs x s s1 s2 :
  find r (remotes s) = Some x -> wants bs x = Some true -> r ∉ rs -> (forall p, prev = Some p -> p ∉ r :: rs) ->
  spread bs c prev [] s s1 -> spread bs c (Some r) rs s1 s2 -> spread bs c prev (r :: rs) s s2.
Proof.
  intros Hx Ew Hr Hp (Ho1 & Hro1 & H1) (Ho2 & Hro2 & H2).
  split; [by eapply only_remotes_trans |]. split; [by rewrite Hro2 |]. intros r0 x0 Hx0.
  destruct (H1 r0 x0 Hx0) as (x1 & Hx1 & Hg1 & Hn1). destruct (H2 r0 x1 Hx1) as (x2 & Hx2 & Hg2 & Hn2).
  rewrite (only_remotes_clock _ _ Ho1) in Hg2. exists x2. split; [done |].
  destruct (decide (prev = Some r0)) as [Hprev | Hprev].
  - pose proof (Hp r0 Hprev) as Hnot. rewrite Hn2; [split; [intros _; apply Hg1; by left | intros []; by left] |].
    intros [[= ->] | [Hin _]]; apply Hnot; [by left | by right].
  - assert (x1 = x0) as -> by (apply Hn1; intros [? | [[]%elem_of_nil _]]; done). split.
    + intros [? | [[-> | Hin]%elem_of_cons Hw]]; [done | apply Hg2; by left | apply Hg2; by right].
    + intros Hng. apply Hn2. intros [[= ->] | [Hin Hw]]; apply Hng; right.
      * split; [by left | by simplify_eq].
      * split; [by right | done].
Qed.

Lemma spread_skip bs c prev r rs x s s' :
  find r (remotes s) = Some x -> wants bs x = Some false -> spread bs c prev rs s s' -> spread bs c prev (r :: rs) s s'.
Proof.
  intros Hx Ew (Ho & Hro & Hs). split; [done |]. split; [done |]. intros r0 x0 Hx0. destruct (Hs r0 x0 Hx0) as (x' & Hx' & Hg & Hn).
  exists x'. split; [done |]. assert (gets bs prev (r :: rs) r0 x0 <-> gets bs prev rs r0 x0) as ->; [| done].
  unfold gets. rewrite elem_of_cons. split; [| tauto]. intros [? | [[-> | ?] Hw]]; [by left | by simplify_eq | by right].
Qed.

Lemma broadcast_step bs c rs : (forall x, is_Some (wants bs x)) -> forall rs' prev s,
  inv rs s -> NoDup rs' -> (forall r, r ∈ rs' -> r ∈ rs) -> (forall p, prev = Some p -> p ∈ rs /\ p ∉ rs') ->
  exists s', broadcast bs c rs' prev s = Some (tt, s') /\ inv rs s' /\ spread bs c prev rs' s s'.
Proof.
  intros Hw. induction rs' as [| r rs' IH]; intros prev s Hi Hd Hin Hp; cbn [broadcast].
  { apply send_prev_step; [done |]. intros p Ep. by apply Hp. }
  apply NoDup_cons in Hd as [Hr Hd]. assert (Hin' : forall r', r' ∈ rs' -> r' ∈ rs) by (intros r' Hr'; apply Hin; by right).
  destruct (inv_find rs s r Hi) as (x & Hx & _); [apply Hin; by left |]. destruct (Hw x) as [w Ew].
  unfold the_remote, pbind at 1 2, pget at 1, plift at 1. rewrite Hx. unfold pbind at 1, plift at 1. rewrite Ew. destruct w.
  - destruct (send_prev_step rs s bs c prev Hi) as (s1 & E1 & Hi1 & Hs1); [intros p Ep; by apply Hp |].
    destruct (IH (Some r) s1 Hi1 Hd Hin') as (s2 & E2 & Hi2 & Hs2); [intros p [= <-]; split; [apply Hin; by left | done] |].
    exists s2. unfold pbind. rewrite E1. split; [done |]. split; [done |].
    eapply spread_cons; [done | done | done | | done | done]. intros p Ep. by apply Hp.
  - destruct (IH prev s Hi Hd Hin') as (s2 & E2 & Hi2 & Hs2).
    { intros p Ep. destruct (Hp p Ep) as [? Hnot]. split; [done |]. intros ?. apply Hnot. by right. }
    exists s2. split; [done |]. split; [done |]. by eapply spread_skip.
Qed.

Lemma wants_read bs x : (19 <= length bs)%nat -> is_Some (wants bs x).
Proof.
  intros Hl. unfold wants. 
  destruct (lookup_lt_is_Some_2 bs 1) as [y1 ->]; [lia |]. destruct (lookup_lt_is_Some_2 bs 14) as [y2 ->]; [lia |].
  destruct (lookup_lt_is_Some_2 bs 8) as [y3 ->]; [lia |]. destruct (lookup_lt_is_Some_2 bs 18) as [y4 ->]; [lia |].
  cbn [mbind option_bind]. repeat case_match; by eexists.
Qed.

(** ** Messages *)

(** The length in the header of a message that was packed is already that of its bytes. *)
Lemma packed_length msg xid bs : MsgCodec.ofl_msg_pack junk msg xid = Ok bs -> update_openflow_length bs = Some bs.
Proof.
  unfold MsgCodec.ofl_msg_pack. destruct (MsgCodec.pack_body junk msg) as [body | | |]; try done. intros [= <-].
  unfold update_openflow_length, MsgCodec.with_header. rewrite !length_app, !be_store_length.
  destruct (Nat.ltb_spec (1 + (1 + (2 + (4 + length body)))) 8); [lia |]. f_equal.
  destruct (be_store 1 MsgCodec.OFP_VERSION) as [| b1 []] eqn:E1; try (pose proof (be_store_length 1 MsgCodec.OFP_VERSION); rewrite E1 in *; done).
  destruct (be_store 1 (MsgCodec.msg_type msg)) as [| b2 []] eqn:E2; try (pose proof (be_store_length 1 (MsgCodec.msg_type msg)); rewrite E2 in *; done).
  cbn [app take drop]. f_equal. f_equal. rewrite take_0, app_nil_l.
  replace (Z.of_nat (1 + (1 + (2 + (4 + length body))))) with (8 + Z.of_nat (length body)) by lia. f_equal.
Qed.

(** A reply goes to the remote of the sender. *)
Lemma reply_step rs s msg sd bs :
  inv rs s -> s_remote sd ∈ rs -> MsgCodec.ofl_msg_pack junk msg (s_xid sd) = Ok bs ->
  exists e s' x x' c, dp_send_message junk msg (Some sd) s = Some (e, s') /\ inv rs s' /\ only_remotes s s' /\
    roles (remotes s') = roles (remotes s) /\ find (s_remote sd) (remotes s) = Some x /\ find (s_remote sd) (remotes s') = Some x' /\
    delivered bs c (clock s) x x' /\ forall r', r' <> s_remote sd -> find r' (remotes s') = find r' (remotes s).
Proof.
  intros Hi Hr Hbs. unfold dp_send_message. rewrite Hbs. unfold send_openflow_buffer. rewrite (packed_length _ _ _ Hbs).
  set (c := if _ =? _ then _ else _). destruct (send_step rs s (s_remote sd) bs c Hi Hr) as (e & s' & x & x' & Hs).
  by exists e, s', x, x', c.
Qed.

Lemma delivered_same bs c t x x' : delivered bs c t x x' -> role x' = role x /\ config x' = config x.
Proof.
  intros [k Hk]. unfold sent in Hk. destruct (rconn_of _ _); [| done]. cbn [mbind option_bind] in Hk.
  destruct (rconn_send_with_limit _ _ _ _); [| done]. injection Hk as <-. by destruct (chosen c x).
Qed.

(** * Roles *)

Lemma inv_remotes rs s l :
  inv rs s -> map fst l = rs -> Forall (fun p => fit (clock s) (snd p)) l ->
  Forall (fun z => OFPCR_ROLE_EQUAL <= z <= OFPCR_ROLE_SLAVE) (roles l) -> (masters l <= 1)%nat -> inv rs (set_remotes l s).
Proof. by intros [H1 H2 H3 H4 H5 H6 H7] Hl Hf Hr Hm. Qed.

Lemma fit_set_role t z x : fit t x -> fit t (set_role z x).
Proof. by intros []. Qed.
Lemma fit_set_config t z x : fit t x -> fit t (set_config z x).
Proof. by intros []. Qed.

Lemma fit_demote t x : fit t x -> fit t (demote x).
Proof. unfold demote. case_match; [apply fit_set_role | done]. Qed.

Lemma masters_demoted l : masters (map (prod_map id demote) l) = 0%nat.
Proof.
  unfold masters, roles. induction l as [| [r x] l IH]; [done |]. cbn [map]. rewrite filter_cons_False; [done |].
  cbn. unfold demote. destruct (Z.eqb_spec (role x) OFPCR_ROLE_MASTER); cbn; [done | done].
Qed.

Lemma alter_absent f r l : r ∉ map fst l -> alter f r l = l.
Proof.
  induction l as [| [k x] l IH]; [done |]. cbn. intros [Hk Hl]%not_elem_of_cons.
  rewrite (proj2 (Pos.eqb_neq r k)) by done. f_equal. by apply IH.
Qed.

Lemma masters_set_role z r l :
  NoDup (map fst l) -> (masters (alter (set_role z) r l) <= masters l + (if decide (z = OFPCR_ROLE_MASTER) then 1 else 0))%nat.
Proof.
  unfold masters. induction l as [| [k x] l IH]; cbn [map]; [cbn; lia |]. intros [Hk Hd]%NoDup_cons. cbn [alter map roles fst snd].
  destruct (Pos.eqb_spec r k) as [-> |]; cbn [snd].
  - fold (alter (set_role z) k l). rewrite alter_absent by done. rewrite !filter_cons. cbn [role set_role snd].
    unfold roles in *. case_decide; case_decide; cbn [length]; lia.
  - specialize (IH Hd). unfold roles, alter in *. rewrite !filter_cons. repeat case_decide; cbn [length] in *; lia.
Qed.

(** The role of a remote after a request of [me] that was accepted. *)
Definition new_role (req : Z) (me r : rref) (old : Z) : Z :=
  if Pos.eqb me r then (if req =? OFPCR_ROLE_NOCHANGE then old else req)
  else if (req =? OFPCR_ROLE_MASTER) && (old =? OFPCR_ROLE_MASTER) then OFPCR_ROLE_SLAVE else old.

(** What [s1] has of [s] after the roles have changed and before the reply. *)
Definition rerole (req : Z) (me : rref) (s s1 : control D) : Prop :=
  forall r x, find r (remotes s) = Some x -> find r (remotes s1) = Some (set_role (new_role req me r (role x)) x).

Lemma set_role_same x : set_role (role x) x = x.
Proof. by destruct x. Qed.

Lemma rerole_nochange me s : rerole OFPCR_ROLE_NOCHANGE me s s.
Proof. intros r x Hx. unfold new_role. cbn. destruct (Pos.eqb me r); by rewrite set_role_same. Qed.

Lemma rerole_alter req me s g :
  req <> OFPCR_ROLE_NOCHANGE -> req <> OFPCR_ROLE_MASTER ->
  rerole req me s (set_remotes (alter (set_role req) me (remotes s)) (set_generation_id g s)).
Proof.
  intros H0 H2 r x Hx. cbn. rewrite find_alter, Hx. unfold new_role. destruct (Pos.eqb me r).
  - by rewrite (proj2 (Z.eqb_neq req _)).
  - rewrite (proj2 (Z.eqb_neq req OFPCR_ROLE_MASTER)) by done. cbn. by rewrite set_role_same.
Qed.

Lemma find_map f r l : find r (map (prod_map id f) l) = f <$> find r l.
Proof. induction l as [| [k x] l IH]; [done |]. cbn. by destruct (Pos.eqb r k). Qed.

Lemma rerole_master me s g :
  rerole OFPCR_ROLE_MASTER me s
    (set_remotes (alter (set_role OFPCR_ROLE_MASTER) me (map (prod_map id demote) (remotes s))) (set_generation_id g s)).
Proof.
  intros r x Hx. cbn. rewrite find_alter, find_map, Hx. unfold new_role, demote. cbn.
  destruct (Pos.eqb me r); destruct (role x =? OFPCR_ROLE_MASTER); cbn; try done. by rewrite set_role_same.
Qed.

Lemma inv_generation rs s g : inv rs s -> inv rs (set_generation_id g s).
Proof. by intros []. Qed.

Lemma inv_set_role rs s me z :
  inv rs s -> OFPCR_ROLE_EQUAL <= z <= OFPCR_ROLE_SLAVE -> (masters (remotes s) + (if decide (z = OFPCR_ROLE_MASTER) then 1 else 0) <= 1)%nat ->
  inv rs (set_remotes (alter (set_role z) me (remotes s)) s).
Proof.
  intros Hi Hz Hm. pose proof (inv_refs _ _ Hi) as Hrs. apply inv_remotes; [done | by rewrite fst_alter | | |].
  - apply Forall_alter_at; [apply Hi | rewrite Hrs; apply Hi |]. intros x Hx. apply fit_set_role.
    pose proof (inv_fit _ _ Hi) as Hf. rewrite Forall_forall in Hf. apply (Hf (me, x)). by apply find_elem.
  - unfold roles, alter. rewrite map_map. apply Forall_map. eapply Forall_impl; [apply Forall_map, (inv_roles _ _ Hi) |].
    intros [k x] Hx. cbn in *. by destruct (Pos.eqb me k).
  - pose proof (masters_set_role z me (remotes s)) as Hz'. rewrite Hrs in Hz'. specialize (Hz' (inv_nodup _ _ Hi)). lia.
Qed.

Lemma inv_demoted rs s : inv rs s -> inv rs (set_remotes (map (prod_map id demote) (remotes s)) s).
Proof.
  intros Hi. apply inv_remotes; [done | | | | rewrite masters_demoted; lia].
  - rewrite map_map. rewrite <- (inv_refs _ _ Hi). by apply map_ext; intros [].
  - apply Forall_map. eapply Forall_impl; [apply (inv_fit _ _ Hi) |]. intros [r x] Hx. by apply fit_demote.
  - unfold roles. rewrite map_map. apply Forall_map. eapply Forall_impl; [apply Forall_map, (inv_roles _ _ Hi) |].
    intros [k x] Hx. cbn in *. unfold demote. case_match; [| done]. cbn. unfold OFPCR_ROLE_EQUAL, OFPCR_ROLE_SLAVE. lia.
Qed.

(** The reply to a request that was accepted, from the state with the new roles. *)
Lemma role_reply_step rs s req rp gp sd s1 :
  inv rs s1 -> s_remote sd ∈ rs -> rerole req (s_remote sd) s s1 -> clock s1 = clock s ->
  exists s' bs c, role_reply junk rp gp sd s1 = Some (0, s') /\ inv rs s' /\ only_remotes s1 s' /\
    MsgCodec.ofl_msg_pack junk (MsgCodec.M_role true rp gp) (s_xid sd) = Ok bs /\
    forall r x, find r (remotes s) = Some x -> exists x', find r (remotes s') = Some x' /\ role x' = new_role req (s_remote sd) r (role x) /\
      let y := set_role (new_role req (s_remote sd) r (role x)) x in
      if Pos.eqb r (s_remote sd) then delivered bs c (clock s) y x' else x' = y.
Proof.
  intros Hi Hr Hro Hc. unfold role_reply.
  destruct (reply_step rs s1 (MsgCodec.M_role true rp gp) sd _ Hi Hr eq_refl) as (e & s' & x & x' & c & E & Hi' & Ho & _ & Hx & Hx' & Hd & Hne).
  exists s', (MsgCodec.with_header 25 (s_xid sd) (be_store 4 rp ++ zeros 4 ++ be_store 8 gp)), c.
  unfold pbind. rewrite E. split; [done |]. split; [done |]. split; [done |]. split; [done |].
  intros r y Hy. pose proof (Hro r y Hy) as Hy1. destruct (Pos.eqb_spec r (s_remote sd)) as [-> | Hrs].
  - rewrite Hx in Hy1. injection Hy1 as ->. exists x'. split; [done |]. rewrite <- Hc. split; [| done].
    by apply delivered_same in Hd as [-> _].
  - eexists. rewrite Hne by done. split; [exact Hy1 |]. done.
Qed.

(** What a request to change the role of [sd] gives, as an error word and a state. *)
Definition role_spec (req gen : Z) (sd : sender) (s : control D) (e : Z) (s' : control D) : Prop :=
  let checked := (req =? OFPCR_ROLE_MASTER) || (req =? OFPCR_ROLE_SLAVE) in
  if negb (existsb (Z.eqb req) [OFPCR_ROLE_NOCHANGE; OFPCR_ROLE_EQUAL; OFPCR_ROLE_MASTER; OFPCR_ROLE_SLAVE]) then
    e = ofl_error OFPET_ROLE_REQUEST_FAILED OFPRRFC_BAD_ROLE /\ s' = s
  else if checked && stale (generation_id s) gen then
    e = ofl_error OFPET_ROLE_REQUEST_FAILED OFPRRFC_STALE /\ s' = s
  else
    e = 0 /\ generation_id s' = (if checked then gen else generation_id s) /\
    exists me bs c, find (s_remote sd) (remotes s) = Some me /\
      MsgCodec.ofl_msg_pack junk (if req =? OFPCR_ROLE_NOCHANGE then MsgCodec.M_role true (role me) (generation_id s)
                                  else MsgCodec.M_role true req gen) (s_xid sd) = Ok bs /\
      forall r x, find r (remotes s) = Some x -> exists x', find r (remotes s') = Some x' /\ role x' = new_role req (s_remote sd) r (role x) /\
        let y := set_role (new_role req (s_remote sd) r (role x)) x in
        if Pos.eqb r (s_remote sd) then delivered bs c (clock s) y x' else x' = y.

Lemma role_accepted rs s req gen sd me rp gp s1 :
  existsb (Z.eqb req) [OFPCR_ROLE_NOCHANGE; OFPCR_ROLE_EQUAL; OFPCR_ROLE_MASTER; OFPCR_ROLE_SLAVE] = true ->
  (req =? OFPCR_ROLE_MASTER) || (req =? OFPCR_ROLE_SLAVE) = false \/ stale (generation_id s) gen = false ->
  find (s_remote sd) (remotes s) = Some me ->
  (rp, gp) = (if req =? OFPCR_ROLE_NOCHANGE then (role me, generation_id s) else (req, gen)) ->
  generation_id s1 = (if (req =? OFPCR_ROLE_MASTER) || (req =? OFPCR_ROLE_SLAVE) then gen else generation_id s) ->
  inv rs s1 -> s_remote sd ∈ rs -> rerole req (s_remote sd) s s1 -> clock s1 = clock s ->
  exists e s', role_reply junk rp gp sd s1 = Some (e, s') /\ inv rs s' /\ role_spec req gen sd s e s'.
Proof.
  intros Hreq Hst Hme Hrep Hgen Hi Hr Hro Hc.
  destruct (role_reply_step rs s req rp gp sd s1 Hi Hr Hro Hc) as (s' & bs & c & E & Hi' & Ho & Hbs & Hall).
  exists 0, s'. split; [done |]. split; [done |]. unfold role_spec. rewrite Hreq. cbn [negb].
  assert (((req =? OFPCR_ROLE_MASTER) || (req =? OFPCR_ROLE_SLAVE)) && stale (generation_id s) gen = false) as ->
    by (destruct Hst as [-> | ->]; [done | apply andb_false_r]).
  split; [done |]. split; [destruct Ho as (k & l & ->); done |]. exists me, bs, c. split; [done |]. split; [| done].
  destruct (req =? OFPCR_ROLE_NOCHANGE); injection Hrep as -> ->; done.
Qed.

(** C12. A request to change a role always ends. A role that does not exist and, for masters and slaves, a generation that is older
    than the last one are refused and nothing changes. Otherwise the sender has the role it asked
    for, the remote that was master before becomes a slave when a master was asked for, the other
    roles stay, and the reply with the role goes to the sender alone. *)
Theorem role_request rs s req gen sd :
  inv rs s -> s_remote sd ∈ rs ->
  exists e s', dp_handle_role_request junk req gen sd s = Some (e, s') /\ inv rs s' /\ role_spec req gen sd s e s'.
Proof.
  intros Hi Hr. destruct (inv_find rs s _ Hi Hr) as (me & Hme & _).
  assert (Hok : forall z rp gp s1, req = z -> existsb (Z.eqb z) [OFPCR_ROLE_NOCHANGE; OFPCR_ROLE_EQUAL; OFPCR_ROLE_MASTER; OFPCR_ROLE_SLAVE] = true -> _)
    by (intros z rp gp s1 <- Hz; exact (role_accepted rs s req gen sd me rp gp s1 Hz)).
  unfold dp_handle_role_request, dp_check_generation_id, the_remote, upd_remote.
  destruct (Z.eqb_spec req OFPCR_ROLE_NOCHANGE) as [E0 |].
  { unfold pbind, pget, plift. rewrite Hme. subst req. apply (Hok _ _ _ s eq_refl); (done || by left || apply rerole_nochange). }
  destruct (Z.eqb_spec req OFPCR_ROLE_EQUAL) as [E1 |].
  { unfold pbind, pmod. subst req. apply (Hok _ _ _ _ eq_refl); try done; [by left | | by apply (rerole_alter _ _ s (generation_id s))].
    apply inv_set_role; [done | done |]. rewrite decide_False by done. pose proof (inv_master _ _ Hi). lia. }
  destruct (Z.eqb_spec req OFPCR_ROLE_MASTER) as [E2 |].
  { subst req. unfold pbind, pget, pret, pmod. destruct (stale (generation_id s) gen) eqn:Hs.
    { eexists _, s. split; [done |]. split; [done |]. unfold role_spec. cbn. rewrite Hs. done. }
    cbn. apply (Hok _ _ _ _ eq_refl); try done; [by right | | apply rerole_master].
    apply (inv_set_role rs (set_remotes _ (set_generation_id gen s))); [by apply (inv_demoted rs (set_generation_id gen s)), inv_generation | done |].
    cbn [remotes set_remotes]. rewrite masters_demoted, decide_True by done. lia. }
  destruct (Z.eqb_spec req OFPCR_ROLE_SLAVE) as [E3 |].
  { subst req. unfold pbind, pget, pret, pmod. destruct (stale (generation_id s) gen) eqn:Hs.
    { eexists _, s. split; [done |]. split; [done |]. unfold role_spec. cbn. rewrite Hs. done. }
    cbn. apply (Hok _ _ _ _ eq_refl); try done; [by right | | by apply rerole_alter].
    apply (inv_set_role rs (set_generation_id gen s)); [by apply inv_generation | done |]. rewrite decide_False by done. pose proof (inv_master _ _ Hi). cbn [remotes set_generation_id]. lia. }
  eexists _, s. split; [done |]. split; [done |]. unfold role_spec. cbn [existsb].
  rewrite !(proj2 (Z.eqb_neq req _)) by done. done.
Qed.

(** * Asynchronous messages *)

Definition full_access (x : remote) : bool := (role x =? OFPCR_ROLE_EQUAL) || (role x =? OFPCR_ROLE_MASTER).

(** The asynchronous messages, with a reason that OpenFlow defines. *)
Definition asynchronous (msg : MsgCodec.ofl_msg) : Prop :=
  match msg with
  | MsgCodec.M_packet_in p => 0 <= MsgCodec.pi_reason p < 3
  | MsgCodec.M_flow_removed r => 0 <= FlowTable.reason r < 5
  | MsgCodec.M_port_status st => 0 <= Ports.reason st < 3
  | _ => False
  end.

(** Whether a remote has the reason of a message enabled, as OpenFlow says: in the first mask of the kind
    of message for the roles equal and master, in the second for slaves. *)
Definition subscribed (msg : MsgCodec.ofl_msg) (x : remote) : bool :=
  let mask (m : Z * Z) := if full_access x then m.1 else m.2 in
  match msg with
  | MsgCodec.M_packet_in p => Z.testbit (mask (MsgCodec.packet_in_mask (config x))) (MsgCodec.pi_reason p)
  | MsgCodec.M_flow_removed r => Z.testbit (mask (MsgCodec.flow_removed_mask (config x))) (FlowTable.reason r)
  | MsgCodec.M_port_status st => Z.testbit (mask (MsgCodec.port_status_mask (config x))) (Ports.reason st)
  | _ => false
  end.

(** The messages a remote is not given although it may be subscribed: a slave all but port statuses, and another
    remote a port status whose port number has as third byte the number of a reason of a removed flow that the
    remote has disabled. *)
Definition overlooked (msg : MsgCodec.ofl_msg) (x : remote) : bool :=
  match msg with
  | MsgCodec.M_port_status st =>
      full_access x && disabled 5 (MsgCodec.flow_removed_mask (config x)).1 (Ports.port_no (Ports.desc st) / 256 mod 256)
  | _ => negb (full_access x)
  end.

Lemma disabled_small n mask z : 0 <= z < n -> disabled n mask z = negb (Z.testbit mask z).
Proof. intros Hz. unfold disabled. by rewrite (proj2 (Z.ltb_lt z n)) by lia. Qed.

Lemma wants_subscribed msg xid bs x :
  asynchronous msg -> OFPCR_ROLE_EQUAL <= role x <= OFPCR_ROLE_SLAVE -> MsgCodec.ofl_msg_pack junk msg xid = Ok bs ->
  wants bs x = Some (subscribed msg x && negb (overlooked msg x)).
Proof.
  unfold OFPCR_ROLE_EQUAL, OFPCR_ROLE_SLAVE. intros Ha Hr.
  assert (Hsl : full_access x = false -> (role x =? OFPCR_ROLE_SLAVE) = true).
  { unfold full_access, OFPCR_ROLE_EQUAL, OFPCR_ROLE_MASTER, OFPCR_ROLE_SLAVE. lia. }
  unfold MsgCodec.ofl_msg_pack. destruct (MsgCodec.pack_body junk msg) as [body | | |] eqn:Eb; try done. intros [= <-].
  unfold wants. fold (full_access x). destruct msg; try done; cbn [asynchronous subscribed overlooked MsgCodec.pack_body] in *.
  - unfold MsgCodec.ofl_msg_pack_packet_in in Eb. destruct (StructCodec.match_region junk 24 _); try done. injection Eb as <-.
    cbn -[Z.div Z.modulo Z.testbit full_access disabled OFPCR_ROLE_SLAVE]. change (10 mod 256) with 10. rewrite (Z.mod_small (MsgCodec.pi_reason p)), (disabled_small 3 _ (MsgCodec.pi_reason p)) by lia. rewrite negb_involutive.
    destruct (full_access x); [by rewrite andb_true_r |]. by rewrite Hsl, andb_false_r.
  - unfold MsgCodec.ofl_msg_pack_flow_removed in Eb. destruct (StructCodec.match_region junk 48 _); try done. injection Eb as <-.
    cbn -[Z.div Z.modulo Z.testbit full_access disabled OFPCR_ROLE_SLAVE]. change (11 mod 256) with 11. rewrite (Z.mod_small (FlowTable.reason r)), !(disabled_small 5) by lia. rewrite negb_involutive.
    destruct (full_access x); [by rewrite andb_true_r |]. by rewrite Hsl, andb_false_r.
  - injection Eb as <-. cbn -[Z.div Z.modulo Z.testbit full_access disabled OFPCR_ROLE_SLAVE]. change (12 mod 256) with 12.
    rewrite (Z.mod_small (Ports.reason s)), !(disabled_small 3) by lia. rewrite !negb_involutive.
    destruct (full_access x); [by destruct (Z.testbit _ (Ports.reason s)) |]. by rewrite Hsl, andb_true_r.
Qed.

Lemma asynchronous_long msg xid bs : asynchronous msg -> MsgCodec.ofl_msg_pack junk msg xid = Ok bs -> (19 <= length bs)%nat.
Proof.
  intros Ha. unfold MsgCodec.ofl_msg_pack. destruct (MsgCodec.pack_body junk msg) as [body | | |] eqn:Eb; try done. intros [= <-].
  unfold MsgCodec.with_header. rewrite !length_app, !be_store_length. destruct msg; try done; cbn [asynchronous MsgCodec.pack_body] in *.
  - unfold MsgCodec.ofl_msg_pack_packet_in in Eb. destruct (StructCodec.match_region junk 24 _); try done. injection Eb as <-. cbn [length]. lia.
  - unfold MsgCodec.ofl_msg_pack_flow_removed in Eb. destruct (StructCodec.match_region junk 48 _); try done. injection Eb as <-. cbn [length]. lia.
  - injection Eb as <-. cbn [length]. unfold StructCodec.ofl_structs_port_pack. rewrite length_app, be_store_length. lia.
Qed.

(** The connection of the messages that go to all. *)
Definition async_conn (msg : MsgCodec.ofl_msg) : conn_id := if MsgCodec.msg_type msg =? OFPT_PACKET_IN then PTIN else MAIN.

(** C13. An asynchronous message that can be packed goes out, whatever the connections answer: a remote that is
    subscribed to it, by its role and its masks as OpenFlow has them, is given it, that is, its bytes are handed
    to its connection by one call of [rconn_send_with_limit], unless it is [overlooked]; every other remote is left
    as it was, in particular none is given a message it is not subscribed to. Roles and counts stay in
    order. *)
Theorem asynchronous_once rs s msg bs :
  inv rs s -> asynchronous msg -> MsgCodec.ofl_msg_pack junk msg 0 = Ok bs ->
  exists s', dp_send_message junk msg None s = Some (0, s') /\ inv rs s' /\ only_remotes s s' /\
    forall r x, find r (remotes s) = Some x -> exists x', find r (remotes s') = Some x' /\
      if subscribed msg x && negb (overlooked msg x) then delivered bs (async_conn msg) (clock s) x x' else x' = x.
Proof.
  intros Hi Ha Hbs. unfold dp_send_message. rewrite Hbs. fold (async_conn msg). unfold send_openflow_buffer.
  rewrite (packed_length _ _ _ Hbs). unfold pbind at 1 2, plift at 1, pget at 1. rewrite (inv_refs _ _ Hi).
  destruct (broadcast_step bs (async_conn msg) rs (fun x => wants_read bs x (asynchronous_long _ _ _ Ha Hbs)) rs None s)
    as (s' & E & Hi' & (Ho & _ & Hs)); [done | apply Hi | done | done |].
  exists s'. unfold pbind. rewrite E. split; [done |]. split; [done |]. split; [done |].
  intros r x Hx. destruct (Hs r x Hx) as (x' & Hx' & Hg & Hn). exists x'. split; [done |].
  assert (Hin : (r, x) ∈ remotes s) by by apply find_elem.
  assert (Hw : wants bs x = Some (subscribed msg x && negb (overlooked msg x))).
  { apply (wants_subscribed msg 0); [done | | done]. pose proof (inv_roles _ _ Hi) as Hro. unfold roles in Hro.
    rewrite Forall_map, Forall_forall in Hro. apply (Hro (r, x) Hin). }
  destruct (subscribed msg x && negb (overlooked msg x)).
  - apply Hg. right. split; [| done]. rewrite <- (inv_refs _ _ Hi). by apply (list_elem_of_fmap_2 fst _ (r, x)).
  - apply Hn. intros [[=] | [_ ?]]. by simplify_eq.
Qed.

(** * Running *)

Lemma inv_lift rs r : preserved (inv rs) (the_remote r).
Proof. unfold the_remote. preserved_tac. Qed.
Hint Resolve inv_lift : preserved.

Lemma inv_on_conn {A} rs r c (p : prog link A) : safe p -> preserved (inv rs) (on_conn r c p).
Proof.
  intros Hp s y s' Hi. destruct (find r (remotes s)) as [x |] eqn:Hx; [| unfold on_conn, the_remote, pbind, pget; by rewrite Hx].
  destruct (rconn_of c x) as [rc |] eqn:Hc; [| unfold on_conn, the_remote, pbind, pget, plift; by rewrite Hx, Hc].
  assert (Hfit : fit (clock s) x).
  { pose proof (inv_fit _ _ Hi) as Hf. rewrite Forall_forall in Hf. apply (Hf (r, x)). by apply find_elem. }
  destruct (on_conn_step rs s r x c rc p Hi Hx Hfit Hc Hp) as (y' & l' & _ & -> & Hi'). by intros [= <- <-].
Qed.
Hint Resolve inv_on_conn safe_run safe_recv safe_send safe_destroy : preserved.

Lemma inv_send_to rs bs c r : preserved (inv rs) (send_openflow_buffer_to_remote bs c r).
Proof. unfold send_openflow_buffer_to_remote. preserved_tac. Qed.
Hint Resolve inv_send_to : preserved.
Lemma inv_send_prev rs bs c prev : preserved (inv rs) (send_prev bs c prev).
Proof. unfold send_prev. preserved_tac. Qed.
Hint Resolve inv_send_prev : preserved.
Lemma inv_broadcast rs bs c rs' : forall prev, preserved (inv rs) (broadcast bs c rs' prev).
Proof. induction rs' as [| r rs' IH]; intros prev; cbn [broadcast]; preserved_tac. Qed.
Hint Resolve inv_broadcast : preserved.
Lemma inv_send_message rs msg to : preserved (inv rs) (dp_send_message junk msg to).
Proof. unfold dp_send_message, send_openflow_buffer. preserved_tac. Qed.
Hint Resolve inv_send_message : preserved.

Lemma inv_role_request rs req gen sd : s_remote sd ∈ rs -> preserved (inv rs) (dp_handle_role_request junk req gen sd).
Proof. intros Hr s e s' Hi E. destruct (role_request rs s req gen sd Hi Hr) as (e2 & s2 & E2 & Hi2 & _). by simplify_eq. Qed.

Lemma inv_set_config rs r c : preserved (inv rs) (upd_remote r (set_config c)).
Proof.
  apply preserved_mod. intros s Hi. apply inv_alter; [done |]. intros x Hx. split; [| done]. apply fit_set_config.
  pose proof (inv_fit _ _ Hi) as Hf. rewrite Forall_forall in Hf. apply (Hf (r, x)). by apply find_elem.
Qed.
Hint Resolve inv_set_config : preserved.

Lemma inv_set_mp rs r m xid : preserved (inv rs) (upd_remote (D := D) r (set_mp m xid)).
Proof.
  apply preserved_mod. intros s Hi. apply inv_alter; [done |]. intros x Hx. split; [| done].
  pose proof (inv_fit _ _ Hi) as Hf. rewrite Forall_forall in Hf. specialize (Hf (r, x) (find_elem _ _ _ Hx)). by destruct Hf.
Qed.

Lemma inv_async_request rs set sd : preserved (inv rs) (dp_handle_async_request junk set sd).
Proof. unfold dp_handle_async_request. preserved_tac. Qed.

(** The id before the first one is not told apart from a real one: as long as no generation was
    accepted, a controller that asks to be master or slave with a generation from
    2^63 - 1 to 2^64 - 2 is refused as stale. *)
Theorem first_generation_stale t (d : D) (s : control D) gen sd :
  generation_id s = generation_id (dp_new t d) -> 2 ^ 63 - 1 <= gen < 2 ^ 64 - 1 ->
  forall req, req = OFPCR_ROLE_MASTER \/ req = OFPCR_ROLE_SLAVE ->
  dp_handle_role_request junk req gen sd s = Some (ofl_error OFPET_ROLE_REQUEST_FAILED OFPRRFC_STALE, s).
Proof.
  intros Hg Hgen req Hreq. cbn in Hg.
  assert (Hs : stale (generation_id s) gen = true).
  { rewrite Hg. unfold stale, u64, wrap. change (-1 mod 2 ^ 64) with (2 ^ 64 - 1).
    replace (gen - (2 ^ 64 - 1)) with (gen + 1 + (-1) * 2 ^ 64) by lia. rewrite Z.mod_add, Z.mod_small by lia. lia. }
  destruct Hreq as [-> | ->]; unfold dp_handle_role_request, dp_check_generation_id, pbind, pget; cbn -[stale ofl_error]; by rewrite Hs.
Qed.

(** A port status is lost to a controller that has every port status enabled, when it does not want
    to hear of flows that time out and the port number is below 256. *)
Theorem port_status_lost st xid bs x :
  0 <= Ports.reason st < 3 -> 0 <= Ports.port_no (Ports.desc st) < 256 -> full_access x = true ->
  Z.testbit (MsgCodec.flow_removed_mask (config x)).1 0 = false ->
  MsgCodec.ofl_msg_pack junk (MsgCodec.M_port_status st) xid = Ok bs -> wants bs x = Some false.
Proof.
  intros Hr Hp Hf Hm Hbs. rewrite (wants_subscribed (MsgCodec.M_port_status st) xid); [| done | | done].
  - cbn [overlooked]. rewrite Hf, Z.div_small by lia. change (0 mod 256) with 0. rewrite disabled_small by lia.
    by rewrite Hm, andb_false_r.
  - unfold full_access, OFPCR_ROLE_EQUAL, OFPCR_ROLE_MASTER, OFPCR_ROLE_SLAVE in *. lia.
Qed.

End facts.

#[local] Hint Resolve inv_lift inv_on_conn safe_run safe_recv safe_send safe_destroy inv_send_to inv_send_prev inv_broadcast inv_send_message
  inv_set_config : preserved.

Section running.
Context {D : Type} `{!Vconn} (junk : nat -> Z).
Context (handle_control_msg : MsgCodec.ofl_msg -> sender -> prog (control D) Z).
Context (addr : control D -> Z) (at_ : control D -> positive).
(** What the messages do keeps the remotes in order. *)
Context (handler_keeps : forall rs msg sd, s_remote sd ∈ rs -> preserved (inv rs) (handle_control_msg msg sd)).

Lemma inv_process rs r c bs : r ∈ rs -> preserved (inv rs) (process junk handle_control_msg addr at_ r c bs).
Proof. intros Hr. unfold process. preserved_tac. Qed.

Lemma inv_recv_loop rs n r c : r ∈ rs -> preserved (inv rs) (recv_loop junk handle_control_msg addr at_ n r c).
Proof. intros Hr. induction n as [| n IH]; cbn [recv_loop]; preserved_tac. by apply inv_process. Qed.

Lemma inv_rconn_run rs r c : r ∈ rs -> preserved (inv rs) (remote_rconn_run junk handle_control_msg addr at_ r c).
Proof. intros Hr. unfold remote_rconn_run. preserved_tac. by apply inv_recv_loop. Qed.

Lemma Forall_kept {A} (P Q : A -> Prop) `{!forall x, Decision (Q x)} l : Forall P l -> Forall P (filter Q l).
Proof. rewrite !Forall_forall. intros Hl x [_ Hx]%list_elem_of_filter. by apply Hl. Qed.

(** A remote that is destroyed is taken out of the list. *)
Lemma inv_removed rs r (s : control D) :
  inv rs s -> inv (filter (fun r' => r' <> r) rs) (set_remotes (filter (fun p => fst p <> r) (remotes s)) s).
Proof.
  intros [H1 H2 H3 H4 H5 H6 H7].
  split; cbn [remotes set_remotes clock next_remote]; [| by apply NoDup_filter | by apply Forall_kept | done | by apply Forall_kept | |].
  - subst rs. clear. induction (remotes s) as [| [k x] l IH]; [done |]. cbn [map]. rewrite !filter_cons. cbn.
    case_decide; cbn; by rewrite IH.
  - unfold roles in *. rewrite Forall_map in *. by apply Forall_kept.
  - etrans; [| exact H7]. unfold masters, roles. clear. induction (remotes s) as [| [k x] l IH]; [done |].
    rewrite filter_cons. cbn [fst map snd]. case_decide; cbn [map snd]; rewrite !filter_cons; repeat case_decide; cbn [length]; lia.
Qed.

(** Remotes may only leave. *)
Definition at_least (l : list rref) (s : control D) : Prop := exists rs, inv rs s /\ forall r, r ∈ l -> r ∈ rs.

Lemma inv_destroy rs r (s : control D) y s' :
  inv rs s -> remote_destroy r s = Some (y, s') -> inv (filter (fun r' => r' <> r) rs) s'.
Proof.
  intros Hi. unfold remote_destroy, pbind. destruct (the_remote r s) as [[x s1] |] eqn:E1; [| done].
  pose proof (inv_lift rs r s x s1 Hi E1) as Hi1. set (k := match aux x with Some _ => _ | None => _ end).
  assert (Hk : preserved (inv rs) k) by (unfold k; preserved_tac).
  destruct (k s1) as [[[] s2] |] eqn:E2; [| done]. pose proof (Hk _ _ _ Hi1 E2) as Hi2.
  destruct (on_conn r MAIN rconn_destroy s2) as [[[] s3] |] eqn:E3; [| done]. intros [= <- <-]. apply inv_removed.
  exact (inv_on_conn rs r MAIN _ safe_destroy _ _ _ Hi2 E3).
Qed.

Lemma run_one rs r s y s' : inv rs s -> r ∈ rs -> remote_run junk handle_control_msg addr at_ r s = Some (y, s') -> inv rs s' \/ inv (filter (fun r' => r' <> r) rs) s'.
Proof.
  intros Hi Hr. unfold remote_run, the_remote. unfold pbind at 1. destruct (remote_rconn_run junk handle_control_msg addr at_ r MAIN s) as [[[] s1] |] eqn:E1; [| done].
  pose proof (inv_rconn_run rs r MAIN Hr s _ _ Hi E1) as Hi1. unfold pbind, pget, plift.
  destruct (find r (remotes s1)) as [x |]; [| done]. destruct (rconn_is_alive (main x)); cbn [negb].
  - intros E. left. destruct (aux x) as [a |]; [| by injection E as <- <-]. destruct (rconn_is_alive a); [| by injection E as <- <-].
    by eapply (inv_rconn_run rs r PTIN).
  - intros E. right. by eapply inv_destroy.
Qed.

Lemma talk_loop l : NoDup l -> forall s y s', at_least l s -> fold_right (fun r k => remote_run junk handle_control_msg addr at_ r;;; k) (pret tt) l s = Some (y, s') -> at_least [] s'.
Proof.
  induction l as [| r l IH]; cbn [fold_right]; [by intros _ s y s' Hs [= <- <-] |].
  intros [Hr Hd]%NoDup_cons s y s' (rs & Hi & Hl). unfold pbind. destruct (remote_run junk handle_control_msg addr at_ r s) as [[[] s1] |] eqn:E1; [| done].
  apply IH; [done |]. destruct (run_one rs r s tt s1 Hi) as [Hi1 | Hi1]; [apply Hl; by left | done | |].
  - exists rs. split; [done |]. intros r' Hr'. apply Hl. by right.
  - eexists. split; [exact Hi1 |]. intros r' Hr'. apply list_elem_of_filter. split; [by intros -> | apply Hl; by right].
Qed.

Lemma inv_talk rs s y s' : inv rs s -> talk_to_remotes junk handle_control_msg addr at_ s = Some (y, s') -> exists rs', inv rs' s'.
Proof.
  intros Hi. unfold talk_to_remotes. unfold pbind at 1, pget at 1. rewrite (inv_refs _ _ Hi). intros E.
  destruct (talk_loop rs (inv_nodup _ _ Hi) s y s') as (rs' & Hi' & _); [by exists rs | done |]. by exists rs'.
Qed.

End running.

Section sanity.
Context {D : Type}.

Definition sane (s : control D) : Prop := exists rs, inv rs s.

Lemma sane_fit (s : control D) :
  sane s -> (masters (remotes s) <= 1)%nat /\
  forall r x, find r (remotes s) = Some x -> OFPCR_ROLE_EQUAL <= role x <= OFPCR_ROLE_SLAVE /\
    n_txq x = queued txq_counter (txq (main x)) + backlog (aux x) /\ n_txq x <= TXQ_LIMIT.
Proof.
  intros [rs Hi]. split; [apply Hi |]. intros r x Hx. apply find_elem in Hx.
  pose proof (inv_fit _ _ Hi) as Hf. pose proof (inv_roles _ _ Hi) as Hr. unfold roles in Hr.
  rewrite Forall_map in Hr. rewrite Forall_forall in Hf, Hr. specialize (Hf _ Hx). specialize (Hr _ Hx). cbn in *.
  split; [done |]. split; [| apply Hf]. pose proof (sound_count _ _ _ _ (fit_main _ _ Hf)). lia.
Qed.

End sanity.

(** ** New connections *)

Section accepting.
Context {D : Type} `{!Vconn} (accept_result : nat -> lref -> Z * vref).

Lemma new_sound nm v (s : control D) :
  0 <= clock s < 2 ^ 31 -> exists rc, rconn_new_from_vconn nm v s = Some (rc, set_vcalls (vcalls s) s) /\ sound (clock s) 0 0 rc.
Proof.
  intros Ht. unfold rconn_new_from_vconn, pbind, pget, plift, pmod, pret. cbn. eexists. split; [done |]. split; [| done].
  split; [| cbn; by eexists | done | done]. split; try solve [cbn; (done || lia)]. intros c. unfold balance, share. cbn [counters Rconn.rc txq].
  case_decide as Hc; [subst c; by rewrite lookup_total_singleton_eq |]. by rewrite lookup_total_singleton_ne by auto.
Qed.

Lemma inv_create rs rc rc_aux (s : control D) y s' :
  inv rs s -> sound (clock s) 0 0 rc -> (forall a, rc_aux = Some a -> sound (clock s) 0 0 a) ->
  remote_create rc rc_aux s = Some (y, s') -> inv (rs ++ [next_remote s]) s'.
Proof.
  intros [H1 H2 H3 H4 H5 H6 H7] Hm Ha [= <- <-].
  assert (Hq : queued txq_counter (txq rc) = 0) by (apply sound_count in Hm; lia).
  split; cbn -[masters roles Z.le].
  - rewrite map_app. cbn. by rewrite H1.
  - apply NoDup_app. split; [done |]. split; [| apply NoDup_singleton].
    intros r Hr ->%list_elem_of_singleton. rewrite Forall_forall in H3. specialize (H3 _ Hr). lia.
  - apply Forall_app. split; [| by repeat constructor; lia]. eapply Forall_impl; [exact H3 |]. cbn. lia.
  - done.
  - apply Forall_app. split; [done |]. constructor; [| done]. cbn. split; cbn; [| | unfold TXQ_LIMIT; lia].
    + destruct rc_aux as [a |]; [| done]. cbn. pose proof (sound_count _ _ _ _ (Ha a eq_refl)). by replace (queued _ _) with 0 by lia.
    + intros a Ea. rewrite Hq. by apply Ha.
  - unfold roles in *. rewrite map_app. apply Forall_app. split; [done |]. repeat constructor; cbn; unfold OFPCR_ROLE_EQUAL, OFPCR_ROLE_SLAVE; lia.
  - unfold masters, roles in *. rewrite map_app, filter_app, length_app. cbn [map snd role]. rewrite filter_cons_False, filter_nil by done. cbn [length]. lia.
Qed.

Lemma inv_accepts rs n (s : control D) : inv rs s -> inv rs (set_accepts n s).
Proof. by intros []. Qed.
Lemma inv_listeners rs l (s : control D) : inv rs s -> inv rs (set_listeners l s).
Proof. by intros []. Qed.
Lemma inv_vcalls rs k (s : control D) : inv rs s -> inv rs (set_vcalls k s).
Proof. by intros []. Qed.

Lemma new_step rs nm v (s : control D) :
  inv rs s -> exists rc s', rconn_new_from_vconn nm v s = Some (rc, s') /\ inv rs s' /\ clock s' = clock s /\
    listeners s' = listeners s /\ sound (clock s) 0 0 rc.
Proof.
  intros Hi. destruct (new_sound nm v s (inv_clock _ _ Hi)) as (rc & E & Hs). eexists rc, _. split; [exact E |].
  split; [by apply inv_vcalls |]. done.
Qed.

Lemma accepted_step v la (s : control D) : sane s -> exists s', accepted accept_result v la s = Some (tt, s') /\ sane s' /\ listeners s' = listeners s.
Proof.
  intros [rs Hi]. unfold accepted.
  assert (exists o s1, accept_aux accept_result la s = Some (o, s1) /\ inv rs s1 /\ clock s1 = clock s /\ listeners s1 = listeners s /\ forall a, o = Some a -> sound (clock s) 0 0 a)
    as (o & s1 & E1 & Hi1 & Hc1 & Hl1 & Ha).
  { unfold accept_aux. destruct la as [la |]; [| by exists None, s]. unfold pvconn_accept, pbind, pget, pmod, pret.
    destruct (accept_result (accepts s) la) as [e va]. destruct (e =? 0); [| exists None; eexists; split; [done |]; split; [by apply inv_accepts | done]].
    destruct (new_step rs "passive_aux" va (set_accepts (S (accepts s)) s)) as (rc & s' & E & Hi' & Hc & Hl & Hs); [by apply inv_accepts |].
    rewrite E. exists (Some rc), s'. split; [done |]. split; [done |]. split; [done |]. split; [done |]. by intros a [= <-]. }
  unfold pbind. rewrite E1. destruct (new_step rs "passive" v s1 Hi1) as (rc & s2 & E2 & Hi2 & Hc2 & Hl2 & Hs). rewrite E2.
  eexists. split; [done |]. split; [| by rewrite <- Hl1, <- Hl2]. eexists. eapply (inv_create rs rc o s2); [done | by rewrite Hc2 | | done].
  intros a Ea. rewrite Hc2, Hc1. by apply Ha.
Qed.

(** The loop over the listeners ends: each turn goes on or has one listener less. *)
Lemma accept_loop_ends n : forall i (s : control D),
  sane s -> (length (listeners s) - i <= n)%nat ->
  exists s', sane s' /\ forall m, accept_loop accept_result (n + m) i s = Some (tt, s').
Proof.
  induction n as [| n IH]; intros i s Hs Hn.
  { exists s. split; [done |]. intros []; [done |]. cbn [Nat.add accept_loop]. unfold pbind, pget. by rewrite lookup_ge_None_2 by lia. }
  destruct (listeners s !! i) as [[l la] |] eqn:El.
  2: { exists s. split; [done |]. intros m. cbn [Nat.add accept_loop]. unfold pbind, pget. by rewrite El. }
  pose proof (lookup_lt_Some _ _ _ El) as Hlt. destruct (accept_result (accepts s) l) as [e v] eqn:Ea.
  set (s1 := set_accepts (S (accepts s)) s). assert (Hs1 : sane s1) by (destruct Hs as [rs Hi]; exists rs; by apply inv_accepts).
  destruct (e =? 0) eqn:E0; [| destruct (e =? EAGAIN) eqn:E1].
  - destruct (accepted_step v la s1 Hs1) as (s2 & E2 & Hs2 & Hl2).
    destruct (IH (S i) s2 Hs2) as (s3 & Hs3 & E3); [rewrite Hl2; cbn; lia |]. exists s3. split; [done |]. intros m.
    cbn [Nat.add accept_loop]. unfold pvconn_accept, pbind, pget, pmod, pret. rewrite El, Ea, E0. fold s1. by rewrite E2.
  - destruct (IH (S i) s1 Hs1) as (s3 & Hs3 & E3); [cbn; lia |]. exists s3. split; [done |]. intros m.
    cbn [Nat.add accept_loop]. unfold pvconn_accept, pbind, pget, pmod, pret. rewrite El, Ea, E0, E1. apply E3.
  - set (s2 := set_listeners (take (length (listeners s) - 1) (<[i := default (l, la) (last (listeners s))]> (listeners s))) s1).
    destruct (IH i s2) as (s3 & Hs3 & E3).
    { destruct Hs1 as [rs Hi]. exists rs. by apply inv_listeners. }
    { unfold s2. cbn. rewrite length_take, length_insert. lia. }
    exists s3. split; [done |]. intros m.
    cbn [Nat.add accept_loop]. unfold pvconn_accept, pbind, pget, pmod, pret. rewrite El, Ea, E0, E1. apply E3.
Qed.

Lemma accept_total (s : control D) : sane s -> exists s', accept_connections accept_result s = Some (tt, s') /\ sane s'.
Proof.
  intros Hs. destruct (accept_loop_ends (length (listeners s)) 0 s Hs) as (s' & Hs' & E); [lia |].
  exists s'. split; [| done]. unfold accept_connections, pbind, pget. specialize (E 0%nat). by rewrite Nat.add_0_r in E.
Qed.

Lemma inv_tick rs t (s : control D) : inv rs s -> clock s <= t < 2 ^ 31 -> inv rs (set_clock t s).
Proof.
  intros [H1 H2 H3 H4 H5 H6 H7] Ht. split; cbn; try done; [lia |]. eapply Forall_impl; [exact H5 |].
  intros p Hp. by apply (fit_later (clock s)).
Qed.

End accepting.

(** * All states *)

Section states.
Context {D : Type} `{!Vconn} (junk : nat -> Z).
Context (handle_control_msg : MsgCodec.ofl_msg -> sender -> prog (control D) Z).
Context (addr : control D -> Z) (at_ : control D -> positive) (accept_result : nat -> lref -> Z * vref).

(** The states that a datapath comes to: time passes, listeners are added, the remotes are
    talked to, connections are accepted, messages are sent, and other things change. *)
Inductive reachable : control D -> Prop :=
  | R_new t d : 0 <= t < 2 ^ 31 -> reachable (dp_new t d)
  | R_tick t s : reachable s -> clock s <= t < 2 ^ 31 -> reachable (set_clock t s)
  | R_listen l la s s' : reachable s -> dp_add_pvconn l la s = Some (tt, s') -> reachable s'
  | R_talk s s' : reachable s -> talk_to_remotes junk handle_control_msg addr at_ s = Some (tt, s') -> reachable s'
  | R_accept s s' : reachable s -> accept_connections accept_result s = Some (tt, s') -> reachable s'
  | R_send msg to e s s' : reachable s -> dp_send_message junk msg to s = Some (e, s') -> reachable s'
  | R_rest d s : reachable s -> reachable (set_rest d s).

Context (handler_keeps : forall rs msg sd, s_remote sd ∈ rs -> preserved (inv rs) (handle_control_msg msg sd)).

Lemma reachable_sane s : reachable s -> sane s.
Proof.
  induction 1 as [t d Ht | t s _ [rs Hi] Ht | l la s s' _ [rs Hi] E | s s' _ [rs Hi] E | s s' _ Hs E | msg to e s s' _ [rs Hi] E | d s _ [rs Hi]].
  - exists []. split; try done; by constructor.
  - exists rs. by apply inv_tick.
  - injection E as <-. exists rs. by apply inv_listeners.
  - by eapply inv_talk.
  - destruct (accept_total accept_result s Hs) as (s2 & E2 & Hs2). by simplify_eq.
  - exists rs. by eapply inv_send_message.
  - exists rs. by destruct Hi.
Qed.

End states.

(** * An example *)

(** Two controllers that connect; the first asks to be master with generation 5, then the second
    with generation 6 and once more with generation 4. *)
Definition demo_role (gen : Z) : list Z := MsgCodec.with_header 24 9 (be_store 4 2 ++ zeros 4 ++ be_store 8 gen).
Definition received_on (v : vref) (cs : list vcall) : nat :=
  length (filter (fun c => match c with VRecv v' _ => Pos.eqb v v' | _ => false end = true) cs).
#[local] Instance demo_conns : Vconn := {
  open_result _ _ := (EAGAIN, 1%positive, false);
  connect_result _ _ := 0;
  send_result _ _ _ := 0;
  recv_result cs v :=
    match v, received_on v cs with
    | 1%positive, 0%nat => (0, demo_role 5)
    | 2%positive, 0%nat => (0, demo_role 6)
    | 2%positive, 1%nat => (0, demo_role 4)
    | _, _ => (EAGAIN, [])
    end;
  random_uint32 _ := 7 }.

Definition demo_junk : nat -> Z := fun _ => 0.
Definition demo_handle (msg : MsgCodec.ofl_msg) (sd : sender) : prog (control unit) Z :=
  match msg with
  | MsgCodec.M_role false req gen => dp_handle_role_request demo_junk req gen sd
  | MsgCodec.M_async false c => dp_handle_async_request demo_junk (Some c) sd
  | _ => pret (ofl_error 1 1)
  end.
Definition demo_accept (n : nat) (l : lref) : Z * vref := (0, l).

Lemma demo_handle_keeps rs msg sd : s_remote sd ∈ rs -> preserved (inv rs) (demo_handle msg sd).
Proof.
  intros Hr. destruct msg as [| | | | | | | | | | | | | | | | | | | [] | [] |]; cbn [demo_handle]; try apply preserved_ret.
  - by apply inv_role_request.
  - apply inv_async_request.
Qed.

Definition demo_start : control unit := set_listeners [(1%positive, None); (2%positive, None)] (dp_new 1000 tt).
Definition run_to {A} (p : prog (control unit) A) (s : control unit) : control unit := match p s with Some (_, s') => s' | None => s end.
Definition demo_both : control unit := run_to (accept_connections demo_accept) demo_start.
Definition demo_talk : prog (control unit) unit := talk_to_remotes demo_junk demo_handle (fun _ => 0) (fun _ => 1%positive).
Definition demo_end : control unit := run_to demo_talk demo_both.

Lemma demo_reachable_both : reachable demo_junk demo_handle (fun _ => 0) (fun _ => 1%positive) demo_accept demo_both.
Proof.
  apply (R_accept _ _ _ _ _ demo_start); [| vm_compute; reflexivity].
  apply (R_listen _ _ _ _ _ 2%positive None (set_listeners [(1%positive, None)] (dp_new 1000 tt))); [| reflexivity].
  apply (R_listen _ _ _ _ _ 1%positive None (dp_new 1000 tt)); [| reflexivity]. apply R_new. lia.
Qed.

(** The second controller is master and the first its slave; the old generation was refused. *)
Lemma demo_roles : roles (remotes demo_end) = [OFPCR_ROLE_SLAVE; OFPCR_ROLE_MASTER] /\ generation_id demo_end = 6.
Proof. vm_compute. split; reflexivity. Qed.

Lemma demo_both_inv : inv [1%positive; 2%positive] demo_both.
Proof.
  destruct (reachable_sane _ _ _ _ _ demo_handle_keeps _ demo_reachable_both) as [rs Hi].
  pose proof (inv_refs _ _ Hi) as Hr. vm_compute in Hr. by subst rs.
Qed.

Definition demo_sender : sender := Sender 2 MAIN 77.

Lemma role_request_witness :
  exists e s', dp_handle_role_request demo_junk 2 6 demo_sender demo_both = Some (e, s') /\ inv [1%positive; 2%positive] s' /\
    role_spec demo_junk 2 6 demo_sender demo_both e s'.
Proof. apply (role_request demo_junk [1%positive; 2%positive] demo_both 2 6 demo_sender demo_both_inv). set_solver. Defined.

Definition demo_port : Ports.ofl_port := Ports.PDesc 3 [2; 0; 0; 0; 0; 3] "s1-eth3" 0 0 0 0 0 0 0 0.
Definition demo_status : MsgCodec.ofl_msg := MsgCodec.M_port_status (Ports.PStatus 2 demo_port).
Definition demo_status_bytes : list Z := match MsgCodec.ofl_msg_pack demo_junk demo_status 0 with Ok bs => bs | _ => [] end.

Lemma asynchronous_once_witness :
  exists s', dp_send_message demo_junk demo_status None demo_both = Some (0, s') /\ inv [1%positive; 2%positive] s' /\ only_remotes demo_both s' /\
    forall r x, find r (remotes demo_both) = Some x -> exists x', find r (remotes s') = Some x' /\
      if subscribed demo_status x && negb (overlooked demo_status x) then delivered demo_status_bytes (async_conn demo_status) (clock demo_both) x x' else x' = x.
Proof.
  apply (asynchronous_once demo_junk [1%positive; 2%positive] demo_both demo_status demo_status_bytes demo_both_inv); [cbn; lia | vm_compute; reflexivity].
Defined.

Lemma first_generation_stale_witness :
  dp_handle_role_request demo_junk OFPCR_ROLE_MASTER (2 ^ 63) demo_sender demo_both = Some (ofl_error OFPET_ROLE_REQUEST_FAILED OFPRRFC_STALE, demo_both).
Proof. apply (first_generation_stale demo_junk 1000 tt demo_both (2 ^ 63) demo_sender); [vm_compute; reflexivity | lia | by left]. Defined.

(** A controller that wants all packet-ins and port statuses and no removed flows. *)
Definition demo_quiet : remote := Remote (rconn_create 1000 60 0) None 0 OFPCR_ROLE_EQUAL (MsgCodec.Async (7, 7) (7, 7) (0, 0)) None 0.

Lemma port_status_lost_witness : wants demo_status_bytes demo_quiet = Some false.
Proof. apply (port_status_lost demo_junk (Ports.PStatus 2 demo_port) 0); [cbn; lia | cbn; lia | reflexivity | reflexivity | vm_compute; reflexivity]. Defined.

End Remotes.
