(* ===== verification/Control.v ===== *)
(** The messages of the controllers (udatapath/dp_control.c and dp_exp.c, with the handlers of
    pipeline.c, group_table.c and meter_table.c that answer requests): what each message does to
    the datapath and what is sent back, on the remotes of the datapath. *)
From S2P Require Import Prelude HMap Oxm OflTypes MatchStd Buffers Meter Group Ofpbuf Packet FlowTable DpActions Ports MacTable.
From S2P Require Import Datapath Forward Ehddp Pipeline Progress Wire StructCodec State Rconn MsgCodec Remotes.
Open Scope Z_scope.
Open Scope prog_scope.

Module Control.
Import Remotes.

Definition PIPELINE_TABLES : nat := 64.
Definition OFPBRC_BAD_TYPE : Z := 1.
Definition OFPBRC_BAD_EXPERIMENTER : Z := 3.
Definition OFPBRC_BUFFER_EMPTY : Z := 7.
Definition OFPBRC_IS_SLAVE : Z := 10.
Definition OFPBRC_BAD_PACKET : Z := 12.
Definition OFPBRC_MULTIPART_BUFFER_OVERFLOW : Z := 13.
Definition OFPET_TABLE_FEATURES_FAILED : Z := 13.
Definition OFPTFFC_BAD_TABLE : Z := 0.
Definition OFPTFFC_BAD_ARGUMENT : Z := 4.
Definition OFPC_FRAG_DROP : Z := 1.
Definition OFPC_FRAG_MASK : Z := 3.
Definition OFPMPF_MORE : Z := 1.
Definition DESC_STR_LEN : nat := 256.

Definition bad_request (code : Z) : Z := ofl_error OFPET_BAD_REQUEST code.

(** DP_SUPPORTED_CAPABILITIES *)
Definition DP_SUPPORTED_CAPABILITIES : Z := Z.lor 1 (Z.lor 2 (Z.lor 4 (Z.lor 8 64))).
(** DP_SUPPORTED_ACTIONS: each action is shifted by its type, but it is its place in the list that is shifted. *)
Definition DP_SUPPORTED_ACTIONS : Z :=
  fold_left (fun acc p => Z.lor acc (Z.shiftl (fst p) (snd p)))
    [(1, 0); (2, 11); (3, 12); (4, 15); (5, 16); (6, 17); (7, 18); (8, 19); (9, 20); (10, 21); (11, 22); (12, 23); (13, 24)] 0.
(** DP_SUPPORTED_GROUPS: the types themselves, not their bits. *)
Definition DP_SUPPORTED_GROUPS : Z := Z.lor 0 (Z.lor 1 (Z.lor 2 3)).
Definition DP_SUPPORTED_GROUP_CAPABILITIES : Z := 1.

(** The features of the group table and of the meter table ([group_table_create] and
    [meter_table_create]). *)
Definition group_table_features : MsgCodec.group_features :=
  MsgCodec.GroupFeatures DP_SUPPORTED_GROUPS DP_SUPPORTED_GROUP_CAPABILITIES (replicate 4 255) (replicate 4 DP_SUPPORTED_ACTIONS).
Definition meter_table_features : MsgCodec.meter_features := MsgCodec.MeterFeatures 256 1 (Z.lor 1 (Z.lor 4 8)) 16 8.

(** * The features of the tables (udatapath/flow_table.c) *)

Definition oxm_ids : list Z :=
  [OXM_OF_IN_PORT; OXM_OF_IN_PHY_PORT; OXM_OF_METADATA; OXM_OF_ETH_DST;
   OXM_OF_ETH_SRC; OXM_OF_ETH_TYPE; OXM_OF_VLAN_VID; OXM_OF_VLAN_PCP; OXM_OF_IP_DSCP;
   OXM_OF_IP_ECN; OXM_OF_IP_PROTO; OXM_OF_IPV4_SRC; OXM_OF_IPV4_DST; OXM_OF_TCP_SRC;
   OXM_OF_TCP_DST; OXM_OF_UDP_SRC; OXM_OF_UDP_DST; OXM_OF_SCTP_SRC; OXM_OF_SCTP_DST;
   OXM_OF_ICMPV4_TYPE; OXM_OF_ICMPV4_CODE; OXM_OF_ARP_OP; OXM_OF_ARP_SPA; OXM_OF_ARP_TPA;
   OXM_OF_ARP_SHA; OXM_OF_ARP_THA; OXM_OF_IPV6_SRC; OXM_OF_IPV6_DST; OXM_OF_IPV6_FLABEL;
   OXM_OF_ICMPV6_TYPE; OXM_OF_ICMPV6_CODE; OXM_OF_IPV6_ND_TARGET; OXM_OF_IPV6_ND_SLL;
   OXM_OF_IPV6_ND_TLL; OXM_OF_MPLS_LABEL; OXM_OF_MPLS_TC; OXM_OF_MPLS_BOS; OXM_OF_PBB_ISID;
   OXM_OF_TUNNEL_ID; OXM_OF_IPV6_EXTHDR;
   OXM_OF_EHDDP_FLAGS; OXM_OF_EHDDP_OPCODE; OXM_OF_EHDDP_NUM_DEVICE; OXM_OF_EHDDP_NUM_SEC;
   OXM_OF_EHDDP_PRE_MAC_SIZ; OXM_OF_EHDDP_PRE_MAC; OXM_OF_EHDDP_NUM_ACK; OXM_OF_EHDDP_SRC_MAC;
   OXM_OF_EHDDP_LAS_MAC; OXM_OF_EHDDP_TIM_BLO; OXM_OF_EHDDP_CONFIG;
   OXM_OF_EHDDP_TYPE_DEVICE; OXM_OF_EHDDP_IDS; OXM_OF_EHDDP_IN_PORTS; OXM_OF_EHDDP_OUT_PORTS].
Definition wildcarded : list Z :=
  [OXM_OF_METADATA; OXM_OF_ETH_DST; OXM_OF_ETH_SRC; OXM_OF_VLAN_VID; OXM_OF_IPV4_SRC;
   OXM_OF_IPV4_DST; OXM_OF_ARP_SPA; OXM_OF_ARP_TPA; OXM_OF_ARP_SHA; OXM_OF_ARP_THA; OXM_OF_IPV6_SRC;
   OXM_OF_IPV6_DST; OXM_OF_IPV6_FLABEL; OXM_OF_PBB_ISID; OXM_OF_TUNNEL_ID; OXM_OF_IPV6_EXTHDR].
(** OFPIT_GOTO_TABLE to OFPIT_METER. *)
Definition instructions : list Z := [1; 2; 3; 4; 5; 6].
Definition instructions_nogoto : list Z := [2; 3; 4; 5; 6].
Definition actions : list (Z * Z) :=
  map (fun t => (t, 4)) [0; 11; 12; 15; 16; 17; 18; 19; 20; 21; 22; 23; 24; 25; 26; 27].

(** [ofl_structs_table_features_properties_ofp_len]; an instruction takes no bytes. *)
Definition ofl_structs_table_features_properties_ofp_len (b : StructCodec.prop_body) : Z :=
  match b with
  | StructCodec.Prop_instructions ids => if existsb (Z.eqb 0xffff) ids then ofl_error 3 1 else 4
  | StructCodec.Prop_next_tables ids => 4 + length ids
  | StructCodec.Prop_actions ids => 4 + fold_left (fun n a => n + (if fst a =? 0xffff then 8 else 4)) ids 0
  | StructCodec.Prop_oxm ids => 4 + 4 * length ids
  end.

Definition flow_table_create_property (type table_id : Z) : StructCodec.table_prop :=
  let body :=
    if type <=? 1 then StructCodec.Prop_instructions (if table_id <? Z.of_nat PIPELINE_TABLES - 1 then instructions else instructions_nogoto)
    else if type <=? 3 then
      StructCodec.Prop_next_tables (map (fun i => u8 (table_id + 1 + Z.of_nat i)) (seq 0 (Z.to_nat (Z.of_nat PIPELINE_TABLES - 1 - table_id))))
    else if type <=? 7 then StructCodec.Prop_actions actions
    else if type =? 10 then StructCodec.Prop_oxm wildcarded
    else StructCodec.Prop_oxm oxm_ids in
  StructCodec.TableProp type (u16 (ofl_structs_table_features_properties_ofp_len body)) body.

(** The types from OFPTFPT_INSTRUCTIONS to OFPTFPT_APPLY_SETFIELD_MISS; those after MATCH and
    WILDCARDS do not exist. *)
Definition flow_table_features (table_id : Z) : list StructCodec.table_prop :=
  map (fun t => flow_table_create_property t table_id) [0; 1; 2; 3; 4; 5; 6; 7; 8; 10; 12; 13; 14; 15].

(** The digits of a number below 100, as [ds_put_format] writes them. *)
Definition digits (n : Z) : list Z := if n <? 10 then [48 + n] else [48 + n / 10; 48 + n mod 10].

(** The features that [flow_table_create] sets up; the length is not set. *)
Definition new_features (junk_length table_id : Z) : StructCodec.table_features :=
  StructCodec.Features junk_length table_id (str_bytes "table_" ++ digits table_id ++ [0])
    0xffffffffffffffff 0xffffffffffffffff 3 FlowTable.FLOW_TABLE_MAX_ENTRIES (flow_table_features table_id).

(** * State *)

(** The rest of [struct datapath], with the features of the tables and which of them are disabled,
    the strings that describe it, and the globals of the handlers of messages (udatapath.c).
    The lines that are written to the file of statistics are kept. *)
Record switch (G M : Type) := Switch {
  dp : Datapath.datapath G M;
  config_flags : Z;
  descs : MsgCodec.desc;
  features : list StructCodec.table_features;
  disabled : list bool;
  conection_status_ofp_controller : Z;
  time_connect_to_contoller : Z;
  controller_connected : bool;
  log_escrito : bool;
  log : list (list Z);
  last_timeout : Z }.
Arguments Switch {G M}. Arguments dp {G M}. Arguments config_flags {G M}. Arguments descs {G M}. Arguments features {G M}.
Arguments disabled {G M}. Arguments conection_status_ofp_controller {G M}. Arguments time_connect_to_contoller {G M}.
Arguments controller_connected {G M}. Arguments log_escrito {G M}. Arguments log {G M}. Arguments last_timeout {G M}.

Lemma fresh_back (X : gset positive) r : r ∉ X -> (X ∪ {[ r ]}) ∖ {[ r ]} = X.
Proof. set_solver. Qed.

Section control.
Context {G M : Type} `{!IdTable G Group.group_entry} `{!IdTable M Meter.meter_entry} `{!Datapath.Env} `{!Rconn.Vconn}.
Abbreviation Sw := (switch G M).
Abbreviation Ctl := (prog (control Sw)).
Abbreviation Run := (Datapath.run (G := G) (M := M)).

Definition set_dp (v : Datapath.datapath G M) (s : Sw) : Sw :=
  Switch v (config_flags s) (descs s) (features s) (disabled s) (conection_status_ofp_controller s) (time_connect_to_contoller s)
    (controller_connected s) (log_escrito s) (log s) (last_timeout s).
Definition set_flags (v : Z) (s : Sw) : Sw :=
  Switch (dp s) v (descs s) (features s) (disabled s) (conection_status_ofp_controller s) (time_connect_to_contoller s)
    (controller_connected s) (log_escrito s) (log s) (last_timeout s).
Definition set_descs (v : MsgCodec.desc) (s : Sw) : Sw :=
  Switch (dp s) (config_flags s) v (features s) (disabled s) (conection_status_ofp_controller s) (time_connect_to_contoller s)
    (controller_connected s) (log_escrito s) (log s) (last_timeout s).
Definition set_features (v : list StructCodec.table_features) (d : list bool) (s : Sw) : Sw :=
  Switch (dp s) (config_flags s) (descs s) v d (conection_status_ofp_controller s) (time_connect_to_contoller s)
    (controller_connected s) (log_escrito s) (log s) (last_timeout s).
Definition set_connection (status time : Z) (connected : bool) (s : Sw) : Sw :=
  Switch (dp s) (config_flags s) (descs s) (features s) (disabled s) status time connected (log_escrito s) (log s) (last_timeout s).
Definition set_log (escrito : bool) (l : list (list Z)) (s : Sw) : Sw :=
  Switch (dp s) (config_flags s) (descs s) (features s) (disabled s) (conection_status_ofp_controller s) (time_connect_to_contoller s)
    (controller_connected s) escrito l (last_timeout s).

Definition set_timeout (v : Z) (s : Sw) : Sw :=
  Switch (dp s) (config_flags s) (descs s) (features s) (disabled s) (conection_status_ofp_controller s) (time_connect_to_contoller s)
    (controller_connected s) (log_escrito s) (log s) v.

(** Something of the switch, and a change of it. *)
Definition sw {A} (f : Sw -> A) : Ctl A := pget (fun s => f (rest s)).
Definition upd_sw (f : Sw -> Sw) : Ctl unit := pmod (fun s => set_rest (f (rest s)) s).

(** ** Messages to all *)

Definition to_all (msg : MsgCodec.ofl_msg) : Ctl unit := dp_send_message Datapath.junk msg None;;; pret tt.
Fixpoint all_to_all (msgs : list MsgCodec.ofl_msg) : Ctl unit :=
  match msgs with
  | [] => pret tt
  | m :: msgs => to_all m;;; all_to_all msgs
  end.

Definition message_of (m : Datapath.message) : MsgCodec.ofl_msg :=
  match m with
  | Datapath.PacketIn total_len reason table_id cookie buffer_id data mt =>
      MsgCodec.M_packet_in (MsgCodec.PIn buffer_id total_len reason table_id cookie mt data)
  | Datapath.PortStatus p => MsgCodec.M_port_status p
  end.

(** A computation of the datapath; what it gives to [dp_send_message] goes to the remotes. No
    computation sends both removed flows and other messages. *)
Definition run_dp {A} (c : Run A) : Ctl A :=
  d <- sw dp;;
  match c d with
  | Datapath.Done (x, d') =>
      upd_sw (set_dp d');;;
      all_to_all (map MsgCodec.M_flow_removed
        (drop (length (FlowTable.sent (Datapath.world d))) (FlowTable.sent (Datapath.world d'))));;;
      all_to_all (map message_of (drop (length (Datapath.messages d)) (Datapath.messages d')));;;
      pret x
  | _ => pfail
  end.

Definition reply (msg : MsgCodec.ofl_msg) (s : sender) : Ctl Z := dp_send_message Datapath.junk msg (Some s);;; pret 0.
Definition reply_stats (r : MsgCodec.mp_reply) (s : sender) : Ctl Z := reply (MsgCodec.M_multipart_reply 0 r) s.

(** An array of pointers of which not all are set cannot be sent. *)
Definition filled {A} (r : Ports.reply A) : option (list A) :=
  if Ports.stats_num r =? length (Ports.entries r) then Some (Ports.entries r) else None.

(** * Handlers (udatapath/dp_control.c) *)

Definition handle_control_barrier_request (s : sender) : Ctl Z := reply (MsgCodec.M_plain MsgCodec.BARRIER_REPLY) s.

Definition conn_number (c : conn_id) : Z := match c with MAIN => 0 | PTIN => 1 end.

Definition handle_control_features_request (s : sender) : Ctl Z :=
  d <- sw dp;;
  reply (MsgCodec.M_features_reply
    (MsgCodec.SwitchFeatures (Datapath.dp_id d) (Buffers.dp_buffers_size (Datapath.dp_buffers d)) (Z.of_nat PIPELINE_TABLES)
       (conn_number (s_conn s)) DP_SUPPORTED_CAPABILITIES)) s.

Definition handle_control_get_config_request (s : sender) : Ctl Z :=
  fl <- sw config_flags;; d <- sw dp;;
  reply (MsgCodec.M_get_config_reply (MsgCodec.Config fl (Datapath.miss_send_len d))) s.

Definition with_miss_send_len (n : Z) (d : Datapath.datapath G M) : Datapath.datapath G M :=
  Datapath.DP (Datapath.dp_id d) (Datapath.clock d) n (Datapath.mallocs d) (Datapath.next_pkt d) (Datapath.packets d)
    (Datapath.dp_buffers d) (Datapath.tables d) (Datapath.world d) (Datapath.ports d) (Datapath.messages d) (Datapath.eh d).

Definition handle_control_set_config (c : MsgCodec.switch_config) : Ctl Z :=
  let fl := Z.land (MsgCodec.cfg_flags c) OFPC_FRAG_MASK in
  let fl := if negb (Z.land fl OFPC_FRAG_MASK =? 0) && negb (Z.land fl OFPC_FRAG_MASK =? OFPC_FRAG_DROP)
            then Z.lor (Z.land fl (compl 16 OFPC_FRAG_MASK)) OFPC_FRAG_DROP else fl in
  upd_sw (set_flags fl);;;
  upd_sw (fun s => set_dp (with_miss_send_len (MsgCodec.cfg_miss_send_len c) (dp s)) s);;;
  pret 0.

Definition handle_control_echo_request (data : list Z) (s : sender) : Ctl Z := reply (MsgCodec.M_echo true data) s.

Definition handle_control_stats_request_desc (s : sender) : Ctl Z := d <- sw descs;; reply_stats (MsgCodec.Rp_desc d) s.

(** ** Packets from the controllers *)

(** Whether the file of statistics can be opened, and the fuel of the pipeline. *)
Context (log_opens : bool) (depth group_fuel table_fuel : nat).

Definition process_packet : Buffers.pktref -> Run () := Pipeline.pipeline_process_packet depth group_fuel table_fuel.

(** [log_uah_estadisticos] appends a line of numbers. *)
Definition log_uah_estadisticos : Ctl unit :=
  d <- sw dp;; t <- sw time_connect_to_contoller;;
  let e := Datapath.eh d in
  pwhen log_opens (upd_sw (fun s => set_log (log_escrito s)
    (log s ++ [[signed 32 (u32 (Datapath.dp_id d)); t; Datapath.convergence_time e; Datapath.num_pkt_ehddp_req e; Datapath.num_pkt_ehddp_rep e;
                Datapath.num_pkt_arp_req e; Datapath.num_pkt_arp_rep e; Datapath.time_exploration e; Datapath.time_start e]]) s)).

Definition with_time_start (t : Z) (e : Datapath.ehddp) : Datapath.ehddp :=
  Datapath.Ehddp (Datapath.mac_heap e) (Datapath.bt_table e) (Datapath.learning_table e) (Datapath.port_to_controller e)
    (Datapath.old_local_port e) (Datapath.old_local_port_MAC e) (Datapath.time_no_move_local_port e) (Datapath.local_port_ok e)
    (Datapath.type_device_general e) (Datapath.ip_de_control_in_band e) (Datapath.ip_del_controlller e) t
    (Datapath.time_exploration e) (Datapath.convergence_time e) (Datapath.time_init_local_port e) (Datapath.num_pkt_ehddp_req e)
    (Datapath.num_pkt_ehddp_rep e) (Datapath.num_pkt_arp_req e) (Datapath.num_pkt_arp_rep e).

(** The first eHDDP packet that a controller sends to switch 1 starts the clock of the exploration. *)
Definition mark_start (r : Buffers.pktref) : Ctl unit :=
  written <- sw log_escrito;; d <- sw dp;;
  if negb written && (Datapath.dp_id d =? 1) then
    t <- run_dp (Ehddp.rd_eth_type r);;
    pwhen (Ehddp.is_ehddp_type t)
      (upd_sw (fun s => set_dp (Datapath.with_ehddp (dp s) (with_time_start Datapath.current_timestamp (Datapath.eh (dp s)))) s);;;
       log_uah_estadisticos;;;
       upd_sw (fun s => set_log true (log s) s))
  else pret tt.

(** The actions of the message on the packet, which ends with them. *)
Definition packet_out_actions (p : MsgCodec.packet_out) (r : Buffers.pktref) : Ctl Z :=
  mark_start r;;;
  run_dp (Datapath.bind (Forward.dp_execute_action_list process_packet (Forward.group_table_execute process_packet group_fuel) r
            (MsgCodec.po_actions p) 0xffffffffffffffff) (fun _ => Datapath.packet_destroy r));;;
  pret 0.

Definition valid_actions (d : Datapath.datapath G M) (acts : list ofl_action) : Z :=
  Group.dp_actions_validate (Pipeline.port_exists (Datapath.ports d)) (Pipeline.group_exists (Datapath.world d)) acts.

Definition is_slave (s : sender) : Ctl bool := x <- the_remote (s_remote s);; pret (role x =? OFPCR_ROLE_SLAVE).

(** A packet of one byte (modulo 256) is the state of the connection, one of eight bytes the time of
    the connection. *)
Definition handle_control_packet_out (p : MsgCodec.packet_out) (s : sender) : Ctl Z :=
  slave <- is_slave s;;
  let data := MsgCodec.po_data p in
  if slave : bool then pret (bad_request OFPBRC_IS_SLAVE)
  else if u8 (length data) =? 1 then
    upd_sw (fun w => set_connection (nth 0 data 0) (time_connect_to_contoller w) (controller_connected w) w);;; pret 0
  else if Z.of_nat (length data) =? 8 then
    upd_sw (fun w => set_connection (conection_status_ofp_controller w) (le_load data) true w);;;
    d <- sw dp;; pwhen (1 <? Datapath.dp_id d) log_uah_estadisticos;;; pret 0
  else
    d <- sw dp;;
    let error := valid_actions d (MsgCodec.po_actions p) in
    if negb (error =? 0) then pret error
    else if MsgCodec.po_buffer_id p =? MsgCodec.NO_BUFFER then
      if Z.of_nat (length data) =? 0 then pret (bad_request OFPBRC_BAD_PACKET)
      else
        r <- run_dp (Datapath.bind Datapath.fresh_addr (fun a =>
               Datapath.packet_create (MsgCodec.po_in_port p)
                 (Ofpbuf.ofpbuf_put_uninit Datapath.junk (Ofpbuf.ofpbuf_use a data) (length data) a).1 true));;
        packet_out_actions p r
    else
      r <- run_dp (Datapath.dp_buffers_retrieve (MsgCodec.po_buffer_id p));;
      match r with
      | None => pret (bad_request OFPBRC_BUFFER_EMPTY)
      | Some r => packet_out_actions p r
      end.

(** ** Requests for statistics *)

Definition flow_request_of (r : MsgCodec.flow_request) : FlowTable.flow_request :=
  FlowTable.FReq (MsgCodec.rq_table_id r) (MsgCodec.rq_out_port r) (MsgCodec.rq_out_group r) (MsgCodec.rq_match r).

(** [flow_table_stats] over the tables from [t]; a table that does not exist is a read outside of
    the array. *)
Fixpoint tables_stats (q : FlowTable.flow_request) (n : nat) (t : nat) (found : list FlowTable.flow_stats) : Run (list FlowTable.flow_stats) :=
  match n with
  | O => Datapath.ret found
  | S n =>
      Datapath.bind (Datapath.gets id) (fun d =>
      Datapath.bind (Datapath.lift (Datapath.tables d !! t)) (fun ft =>
      let '(ft', found) := FlowTable.flow_table_stats ft q found (Datapath.time_msec d) in
      Datapath.bind (Datapath.modify (fun d => Datapath.with_tables d (<[t := ft']> (Datapath.tables d)) (Datapath.world d))) (fun _ =>
      tables_stats q n (S t) found)))
  end.

Definition pipeline_handle_stats_request_flow (r : MsgCodec.flow_request) (s : sender) : Ctl Z :=
  let q := flow_request_of r in
  l <- run_dp (if FlowTable.q_table_id q =? 0xff then tables_stats q PIPELINE_TABLES 0 []
               else tables_stats q 1 (Z.to_nat (FlowTable.q_table_id q)) []);;
  reply_stats (MsgCodec.Rp_flow l) s.

Definition pipeline_handle_stats_request_aggregate (r : MsgCodec.flow_request) (s : sender) : Ctl Z :=
  let q := flow_request_of r in
  d <- sw dp;;
  l <- plift (if FlowTable.q_table_id q =? 0xff then Some (take PIPELINE_TABLES (Datapath.tables d))
              else (fun t => [t]) <$> Datapath.tables d !! Z.to_nat (FlowTable.q_table_id q));;
  let '(packets, bytes, flows) := fold_left (fun acc t => FlowTable.flow_table_aggregate_stats t q acc) l (0, 0, 0) in
  reply_stats (MsgCodec.Rp_aggregate packets bytes flows) s.

Definition pipeline_handle_stats_request_table (s : sender) : Ctl Z :=
  d <- sw dp;;
  reply_stats (MsgCodec.Rp_table
    (imap (fun i t => StructCodec.TStats (Z.of_nat i) (FlowTable.active_count t) (FlowTable.lookup_count t) (FlowTable.matched_count t))
       (take PIPELINE_TABLES (Datapath.tables d)))) s.

(** A change of the groups or of the meters, and what it answers. *)
Definition on_groups {A} (f : Group.group_table G -> Group.group_table G * A) : Run A :=
  Datapath.bind (Datapath.gets id) (fun d =>
  let w := Datapath.world d in
  let '(g, x) := f (FlowTable.groups w) in
  Datapath.bind (Datapath.modify (fun d => Datapath.with_tables d (Datapath.tables d) (FlowTable.with_groups w g))) (fun _ => Datapath.ret x)).
Definition on_meters {A} (f : Meter.meter_table M -> Meter.meter_table M * A) : Run A :=
  Datapath.bind (Datapath.gets id) (fun d =>
  let w := Datapath.world d in
  let '(m, x) := f (FlowTable.meters w) in
  Datapath.bind (Datapath.modify (fun d => Datapath.with_tables d (Datapath.tables d) (FlowTable.with_meters w m))) (fun _ => Datapath.ret x)).

(** The array of a reply: the number it is allocated for, and what is written into it. *)
Definition stats_array {A B} (f : A -> B) (r : Z + Z * list A) (k : list B -> Ctl Z) : Ctl Z :=
  match r with
  | inl e => pret e
  | inr (n, l) => l <- plift (filled (Ports.Reply n l));; k (map f l)
  end.

Definition group_table_handle_stats_request_group (id : Z) (s : sender) : Ctl Z :=
  d <- sw dp;;
  r <- run_dp (on_groups (fun t => Group.group_table_handle_stats_request_group t id (Datapath.time_msec d)));;
  stats_array (fun x => x) r (fun l => reply_stats (MsgCodec.Rp_group l) s).

Definition group_table_handle_stats_request_group_desc (s : sender) : Ctl Z :=
  d <- sw dp;;
  stats_array (fun x => x) (inr (Group.group_table_handle_stats_request_group_desc (FlowTable.groups (Datapath.world d))))
    (fun l => reply_stats (MsgCodec.Rp_group_desc l) s).

Definition group_table_handle_stats_request_group_features (s : sender) : Ctl Z :=
  reply_stats (MsgCodec.Rp_group_features group_table_features) s.

Definition meter_table_handle_stats_request_meter (id : Z) (s : sender) : Ctl Z :=
  d <- sw dp;;
  r <- run_dp (on_meters (fun t => Meter.meter_table_handle_stats_request_meter t id (Datapath.time_msec d)));;
  stats_array (fun x => x) r (fun l => reply_stats (MsgCodec.Rp_meter l) s).

Definition meter_conf_of (c : Meter.meter_config) : MsgCodec.meter_conf :=
  MsgCodec.MeterConf (Meter.c_flags c) (Meter.c_meter_id c) (map Some (Meter.c_bands c)).
Definition meter_table_handle_stats_request_meter_conf (id : Z) (s : sender) : Ctl Z :=
  d <- sw dp;;
  stats_array meter_conf_of (Meter.meter_table_handle_stats_request_meter_conf (FlowTable.meters (Datapath.world d)) id)
    (fun l => reply_stats (MsgCodec.Rp_meter_config l) s).

Definition meter_table_handle_features_request (s : sender) : Ctl Z := reply_stats (MsgCodec.Rp_meter_features meter_table_features) s.

(** A change of the ports. *)
Definition on_ports {A} (f : Ports.ports -> option (Ports.ports * A)) : Run A :=
  Datapath.bind (Datapath.gets Datapath.ports) (fun ps =>
  Datapath.bind (Datapath.lift (f ps)) (fun '(ps', x) =>
  Datapath.bind (Datapath.modify (fun d => Datapath.with_ports d ps')) (fun _ => Datapath.ret x))).

Definition dp_ports_handle_stats_request_port (no : Z) (s : sender) : Ctl Z :=
  d <- sw dp;;
  r <- run_dp (on_ports (fun ps => Ports.dp_ports_handle_stats_request_port ps no (Datapath.time_msec d)));;
  l <- plift (filled r);; reply_stats (MsgCodec.Rp_port_stats l) s.

Definition dp_ports_handle_stats_request_queue (no queue : Z) (s : sender) : Ctl Z :=
  d <- sw dp;;
  r <- run_dp (on_ports (fun ps => Ports.dp_ports_handle_stats_request_queue ps no queue (Datapath.time_msec d)));;
  l <- plift (filled r);; reply_stats (MsgCodec.Rp_queue l) s.

Definition dp_ports_handle_port_desc_request (s : sender) : Ctl Z :=
  d <- sw dp;;
  r <- plift (Ports.dp_ports_handle_port_desc_request (Datapath.ports d));;
  l <- plift (filled r);; reply_stats (MsgCodec.Rp_port_desc l) s.

(** The one property of a queue that is set up. *)
Definition packet_queue_of (q : Ports.ofl_packet_queue) : StructCodec.packet_queue :=
  StructCodec.PacketQueue (Ports.pq_queue_id q) [Some (StructCodec.Prop_min_rate (Ports.min_rate q))].
Definition dp_ports_handle_queue_get_config_request (no : Z) (s : sender) : Ctl Z :=
  d <- sw dp;;
  r <- plift (Ports.dp_ports_handle_queue_get_config_request (Datapath.ports d) no);;
  match r with
  | inl e => pret e
  | inr (port, l) => l <- plift (filled l);; reply (MsgCodec.M_queue_get_config_reply port (map packet_queue_of l)) s
  end.

(** ** Modifications *)

Definition set_config_of (c : Z) (f : StructCodec.table_features) : StructCodec.table_features :=
  StructCodec.Features (StructCodec.tf_length f) (StructCodec.tf_table_id f) (StructCodec.tf_name f) (StructCodec.metadata_match f)
    (StructCodec.metadata_write f) c (StructCodec.max_entries f) (StructCodec.tf_props f).

Definition pipeline_handle_table_mod (m : MsgCodec.table_mod) (s : sender) : Ctl Z :=
  slave <- is_slave s;;
  if slave : bool then pret (bad_request OFPBRC_IS_SLAVE)
  else
    let c := MsgCodec.tm_config m in
    fs <- sw features;; ds <- sw disabled;;
    if MsgCodec.tm_table_id m =? 0xff then upd_sw (set_features (map (set_config_of c) fs) ds);;; pret 0
    else
      f <- plift (fs !! Z.to_nat (MsgCodec.tm_table_id m));;
      upd_sw (set_features (<[Z.to_nat (MsgCodec.tm_table_id m) := set_config_of c f]> fs) ds);;; pret 0.

(** Where the entry of a new flow is allocated. *)
Context (flow_at : Datapath.datapath G M -> FlowTable.flowref).

(** The instructions of the message are allocated by unpacking it; when the message is refused they
    are freed with it. *)
Definition with_live (d : Datapath.datapath G M) (l : gset positive) : Datapath.datapath G M :=
  let w := Datapath.world d in
  Datapath.with_tables d (Datapath.tables d) (FlowTable.World (FlowTable.groups w) (FlowTable.meters w) l (FlowTable.sent w)).
Definition flow_mod_run (m : FlowTable.flow_mod) (role : Z) : Run Z :=
  Datapath.bind (Datapath.modify (fun d =>
    with_live d (FlowTable.live (Datapath.world d) ∪ {[ FlowTable.insts_at (FlowTable.m_instructions m) ]}))) (fun _ =>
  Datapath.bind (Datapath.gets flow_at) (fun at_ =>
  Datapath.bind (Pipeline.pipeline_handle_flow_mod process_packet m role at_) (fun err =>
  Datapath.bind (if err =? 0 then Datapath.ret tt else Pipeline.free_insts m false) (fun _ => Datapath.ret err)))).
Definition handle_flow_mod (m : FlowTable.flow_mod) (s : sender) : Ctl Z :=
  x <- the_remote (s_remote s);; run_dp (flow_mod_run m (role x)).

(** The table of an entry, by its address. *)
Fixpoint table_with (r : FlowTable.flowref) (l : list FlowTable.flow_table) : option (nat * FlowTable.flow_table * FlowTable.flow_entry) :=
  match l with
  | [] => None
  | t :: l => match FlowTable.entry_at t r with
              | Some e => Some (0%nat, t, e)
              | None => (fun '(i, t, e) => (S i, t, e)) <$> table_with r l
              end
  end.
(** [flow_entry_remove] of the flows that refer to what is deleted; an entry that went with another
    reference is gone. *)
Fixpoint remove_flows (why : Z) (gone : list FlowTable.flowref) : Run () :=
  match gone with
  | [] => Datapath.ret tt
  | r :: gone =>
      Datapath.bind (Datapath.gets id) (fun d =>
      match table_with r (Datapath.tables d) with
      | None => remove_flows why gone
      | Some (i, t, e) =>
          Datapath.bind (Datapath.lift (FlowTable.flow_entry_remove (Datapath.world d) t e why (Datapath.time_msec d))) (fun '(w, t') =>
          Datapath.bind (Datapath.modify (fun d => Datapath.with_tables d (<[i := t']> (Datapath.tables d)) w)) (fun _ =>
          remove_flows why gone))
      end)
  end.

(** What a new group has in the fields that are not set. *)
Context (garbage : Z).

Definition group_mod_run (m : Group.group_mod) (role : Z) : Run Z :=
  Datapath.bind (Datapath.gets id) (fun d =>
  let w := Datapath.world d in
  Datapath.bind (Datapath.lift (Group.group_table_handle_group_mod (Pipeline.port_exists (Datapath.ports d)) (FlowTable.groups w) m role garbage))
    (fun '(g, err, gone) =>
  Datapath.bind (Datapath.modify (fun d => Datapath.with_tables d (Datapath.tables d) (FlowTable.with_groups w g))) (fun _ =>
  Datapath.bind (remove_flows FlowTable.OFPRR_GROUP_DELETE gone) (fun _ => Datapath.ret err)))).
Definition handle_group_mod (m : Group.group_mod) (s : sender) : Ctl Z :=
  x <- the_remote (s_remote s);; run_dp (group_mod_run m (role x)).

(** The pointer of a band of an unknown type was not set by unpacking the message; it is followed
    when the meter is added or modified. *)
Context (garbage_band : Meter.meter_band).
Definition meter_mod_run (m : MsgCodec.meter_msg) (role : Z) : Run Z :=
  let unset := existsb (fun b => bool_decide (b = None)) (MsgCodec.mt_bands m) in
  let m := Meter.MMod (MsgCodec.mt_command m) (MsgCodec.mt_flags m) (MsgCodec.mt_meter_id m) (map (default garbage_band) (MsgCodec.mt_bands m)) in
  Datapath.bind (Datapath.gets id) (fun d =>
  let w := Datapath.world d in
  Datapath.bind (Datapath.lift (Meter.meter_table_handle_meter_mod (FlowTable.meters w) m role (Datapath.time_msec d)))
    (fun '(t, err, gone) =>
  if unset && (err =? 0) && (Meter.mm_command m <=? 1) then Datapath.fault
  else
    Datapath.bind (Datapath.modify (fun d => Datapath.with_tables d (Datapath.tables d) (FlowTable.with_meters w t))) (fun _ =>
    Datapath.bind (remove_flows FlowTable.OFPRR_METER_DELETE gone) (fun _ => Datapath.ret err)))).
Definition handle_meter_mod (m : MsgCodec.meter_msg) (s : sender) : Ctl Z :=
  x <- the_remote (s_remote s);; run_dp (meter_mod_run m (role x)).

Definition send_statuses (l : list Ports.port_status) : Run () :=
  fold_right (fun p k => Datapath.bind (Datapath.dp_send_message (Datapath.PortStatus p)) (fun _ => k)) (Datapath.ret tt) l.
Definition port_mod_run (m : MsgCodec.port_mod) (role : Z) : Run Z :=
  Datapath.bind (on_ports (fun ps => (fun '(ps', err, l) => (ps', (err, l))) <$> Ports.dp_ports_handle_port_mod ps (MsgCodec.pmod m) role))
    (fun '(err, l) => Datapath.bind (send_statuses l) (fun _ => Datapath.ret err)).
Definition handle_port_mod (m : MsgCodec.port_mod) (s : sender) : Ctl Z :=
  x <- the_remote (s_remote s);; run_dp (port_mod_run m (role x)).

(** ** Experimenter messages (udatapath/dp_exp.c) *)

(** What the device answers to the set up of a queue. *)
Context (queue_setup : Ports.queue_msg -> Z).

(** [dp_set_dp_desc] *)
Definition set_dp_desc (s : list Z) (d : MsgCodec.desc) : MsgCodec.desc :=
  MsgCodec.Desc (MsgCodec.mfr_desc d) (MsgCodec.hw_desc d) (MsgCodec.sw_desc d) (MsgCodec.serial_num d)
    (take (DESC_STR_LEN - 1) (strncpy DESC_STR_LEN s) ++ [0]).
Definition dp_handle_set_desc (s : list Z) : Ctl Z := upd_sw (fun w => set_descs (set_dp_desc s (descs w)) w);;; pret 0.

(** The first property of the queue is taken for its minimum rate. *)
Definition queue_msg_of (port : Z) (q : StructCodec.packet_queue) : option Ports.queue_msg :=
  match StructCodec.pq_props q with
  | Some (StructCodec.Prop_min_rate r) :: _ | Some (StructCodec.Prop_max_rate r) :: _ => Some (Ports.QMsg port (StructCodec.pq_id q) r)
  | _ => None
  end.

Definition dp_exp_message (e : MsgCodec.exp_msg) : Ctl Z :=
  match e with
  | MsgCodec.Exp_queue false port q =>
      d <- sw dp;;
      match queue_msg_of port q with
      | Some m => run_dp (on_ports (fun ps => Ports.dp_ports_handle_queue_modify ps m (queue_setup m) (Datapath.time_msec d)))
      | None => if Pipeline.port_exists (Datapath.ports d) port then pfail else pret (Ports.queue_error Ports.OFPQOFC_BAD_PORT)
      end
  | MsgCodec.Exp_queue true port q =>
      run_dp (on_ports (fun ps => Some (Ports.dp_ports_handle_queue_delete ps (Ports.QMsg port (StructCodec.pq_id q) 0))))
  | MsgCodec.Exp_set_desc s => dp_handle_set_desc s
  | MsgCodec.Exp_role _ _ => pret (bad_request OFPBRC_BAD_EXPERIMENTER)
  end.

(** ** The features of the tables *)

Definition req_features (r : MsgCodec.mp_request) : option (list StructCodec.table_features) :=
  match r with MsgCodec.Rq_table_features l => l | _ => None end.

(** [ofl_msg_merge_multipart_request_table_features]: an array that is empty is not added. *)
Definition merge_features (orig l : option (list StructCodec.table_features)) : option (list StructCodec.table_features) :=
  match l with
  | Some (f :: fs) => Some (default [] orig ++ f :: fs)
  | _ => orig
  end.

(** The check of the order; the id to compare with stays 0. *)
Fixpoint check_features (last_table_id : Z) (l : list StructCodec.table_features) : Z :=
  match l with
  | [] => 0
  | f :: l =>
      if StructCodec.tf_table_id f <? last_table_id then ofl_error OFPET_TABLE_FEATURES_FAILED OFPTFFC_BAD_TABLE
      else if FlowTable.FLOW_TABLE_MAX_ENTRIES <? StructCodec.max_entries f then ofl_error OFPET_TABLE_FEATURES_FAILED OFPTFFC_BAD_ARGUMENT
      else check_features last_table_id l
  end.

(** All tables are disabled, and those of the request take their features and are enabled. *)
Definition install (fd : list StructCodec.table_features * list bool) (f : StructCodec.table_features) : list StructCodec.table_features * list bool :=
  let t := Z.to_nat (StructCodec.tf_table_id f) in (<[t := f]> (fst fd), <[t := false]> (snd fd)).
Definition install_features (l : list StructCodec.table_features) (fs : list StructCodec.table_features)
    : list StructCodec.table_features * list bool :=
  fold_left install l (fs, replicate PIPELINE_TABLES true).

(** The next table that is not disabled. *)
Fixpoint skip_disabled (n : nat) (ds : list bool) (t : nat) : nat :=
  match n with
  | O => t
  | S n => if (t <? PIPELINE_TABLES)%nat && nth t ds false then skip_disabled n ds (S t) else t
  end.

(** At most [k] tables from [t], and the table to go on with. *)
Fixpoint collect (k : nat) (ds : list bool) (t : nat) : list nat * nat :=
  match k with
  | O => ([], t)
  | S k =>
      let t := skip_disabled PIPELINE_TABLES ds t in
      if (PIPELINE_TABLES <=? t)%nat then ([], t)
      else let '(l, t') := collect k ds (S t) in (t :: l, t')
  end.

(** The replies of eight tables each, with whether there are more. *)
Fixpoint parts (fuel : nat) (ds : list bool) (t : nat) : list (list nat * bool) :=
  match fuel with
  | O => []
  | S fuel =>
      let '(l, t') := collect 8 ds t in
      (l, negb (t' =? PIPELINE_TABLES)%nat) :: (if (t' <? PIPELINE_TABLES)%nat then parts fuel ds t' else [])
  end.

Fixpoint reply_parts (ps : list (list nat * bool)) (s : sender) : Ctl unit :=
  match ps with
  | [] => pret tt
  | (ts, more) :: ps =>
      fs <- sw features;;
      l <- plift (mapM (fun t => fs !! t) ts);;
      dp_send_message Datapath.junk (MsgCodec.M_multipart_reply (if more : bool then OFPMPF_MORE else 0) (MsgCodec.Rp_table_features l)) (Some s);;;
      reply_parts ps s
  end.

(** The end of the handler, with the whole request. A request that came in parts and is refused is
    freed together with its last part, which it shares its properties with. *)
Definition finish_features (body : option (list StructCodec.table_features)) (shared : bool) (s : sender) : Ctl Z :=
  let error := match body with Some l => check_features 0 l | None => 0 end in
  match body with
  | Some l => if error =? 0 then fs <- sw features;; upd_sw (fun w => let '(f, d) := install_features l fs in set_features f d w) else pret tt
  | None => pret tt
  end;;;
  upd_remote (s_remote s) (set_mp None 0);;;
  if negb (error =? 0) then if shared then pfail else pret error
  else ds <- sw disabled;; reply_parts (parts (S PIPELINE_TABLES) ds 0) s;;; pret 0.

Definition pipeline_handle_stats_request_table_features_request (flags : Z) (l : option (list StructCodec.table_features)) (s : sender) : Ctl Z :=
  if existsb (fun f => Z.of_nat PIPELINE_TABLES <=? StructCodec.tf_table_id f) (default [] l)
  then pret (ofl_error OFPET_TABLE_FEATURES_FAILED OFPTFFC_BAD_TABLE)
  else
    x <- the_remote (s_remote s);;
    let more := negb (Z.land flags OFPMPF_MORE =? 0) in
    match mp_req_msg x with
    | Some saved =>
        if negb (s_xid s =? mp_req_xid x) then pret (bad_request OFPBRC_MULTIPART_BUFFER_OVERFLOW)
        else
          let merged := merge_features (req_features saved) l in
          upd_remote (s_remote s) (set_mp (Some (MsgCodec.Rq_table_features merged)) (mp_req_xid x));;;
          if more then pret 0
          else finish_features merged (negb (bool_decide (default [] l = []))) s
    | None =>
        if more then
          upd_remote (s_remote s) (set_mp (Some (MsgCodec.Rq_table_features (merge_features None l))) (s_xid s));;; pret 0
        else finish_features l false s
    end.

(** ** Dispatch *)

Definition handle_control_stats_request (flags : Z) (r : MsgCodec.mp_request) (s : sender) : Ctl Z :=
  match r with
  | MsgCodec.Rq_desc => handle_control_stats_request_desc s
  | MsgCodec.Rq_flow q => pipeline_handle_stats_request_flow q s
  | MsgCodec.Rq_aggregate q => pipeline_handle_stats_request_aggregate q s
  | MsgCodec.Rq_table => pipeline_handle_stats_request_table s
  | MsgCodec.Rq_table_features l => pipeline_handle_stats_request_table_features_request flags l s
  | MsgCodec.Rq_port_stats no => dp_ports_handle_stats_request_port no s
  | MsgCodec.Rq_queue no queue => dp_ports_handle_stats_request_queue no queue s
  | MsgCodec.Rq_group id => group_table_handle_stats_request_group id s
  | MsgCodec.Rq_group_desc => group_table_handle_stats_request_group_desc s
  | MsgCodec.Rq_group_features => group_table_handle_stats_request_group_features s
  | MsgCodec.Rq_meter id => meter_table_handle_stats_request_meter id s
  | MsgCodec.Rq_meter_config id => meter_table_handle_stats_request_meter_conf id s
  | MsgCodec.Rq_meter_features => meter_table_handle_features_request s
  | MsgCodec.Rq_port_desc => dp_ports_handle_port_desc_request s
  | MsgCodec.Rq_experimenter => pret (bad_request OFPBRC_BAD_EXPERIMENTER)
  end.

Definition handle_control_msg (msg : MsgCodec.ofl_msg) (s : sender) : Ctl Z :=
  match msg with
  | MsgCodec.M_plain MsgCodec.HELLO | MsgCodec.M_plain MsgCodec.BARRIER_REPLY | MsgCodec.M_echo true _ => pret 0
  | MsgCodec.M_plain MsgCodec.BARRIER_REQUEST => handle_control_barrier_request s
  | MsgCodec.M_plain MsgCodec.FEATURES_REQUEST => handle_control_features_request s
  | MsgCodec.M_plain MsgCodec.GET_CONFIG_REQUEST => handle_control_get_config_request s
  | MsgCodec.M_plain MsgCodec.GET_ASYNC_REQUEST => dp_handle_async_request Datapath.junk None s
  | MsgCodec.M_set_config c => handle_control_set_config c
  | MsgCodec.M_packet_out p => handle_control_packet_out p s
  | MsgCodec.M_flow_mod m => handle_flow_mod m s
  | MsgCodec.M_group_mod m => handle_group_mod m s
  | MsgCodec.M_port_mod m => handle_port_mod m s
  | MsgCodec.M_table_mod m => pipeline_handle_table_mod m s
  | MsgCodec.M_multipart_request flags r => handle_control_stats_request flags r s
  | MsgCodec.M_echo false data => handle_control_echo_request data s
  | MsgCodec.M_queue_get_config_request no => dp_ports_handle_queue_get_config_request no s
  | MsgCodec.M_role false req gen => dp_handle_role_request Datapath.junk req gen s
  | MsgCodec.M_meter_mod m => handle_meter_mod m s
  | MsgCodec.M_experimenter e => dp_exp_message e
  | MsgCodec.M_async false c => dp_handle_async_request Datapath.junk (Some c) s
  | MsgCodec.M_error _ _ _ | MsgCodec.M_features_reply _ | MsgCodec.M_get_config_reply _ | MsgCodec.M_packet_in _
  | MsgCodec.M_flow_removed _ | MsgCodec.M_port_status _ | MsgCodec.M_multipart_reply _ _ | MsgCodec.M_role true _ _
  | MsgCodec.M_queue_get_config_reply _ _ | MsgCodec.M_async true _ => pret (bad_request OFPBRC_BAD_TYPE)
  end.

(** * Running (udatapath/datapath.c, dp_ports.c) *)

(** What the devices show in one turn: the state of the link, the largest packet, and the packet
    that was received. *)
Record device_view := View { link : Ports.portref -> Ports.netdev_link_state; max_mtu : nat; received : Ports.portref -> option (list Z) }.

Definition process_buffer (p : Ports.sw_port) (buf : Ofpbuf.ofpbuf) : Run () :=
  if negb (Z.land (Ports.config (Ports.conf p)) (Z.lor Ports.OFPPC_NO_RECV Ports.OFPPC_PORT_DOWN) =? 0) then Datapath.ret tt
  else Datapath.bind (Datapath.packet_create (Ports.ps_port_no (Ports.stats p)) buf false) process_packet.

(** A packet on the interface of the local port ends the configuration of that port. *)
Definition local_port_seen (v : device_view) (name : string) (d : Datapath.datapath G M) : Datapath.datapath G M :=
  match Ports.local_port (Datapath.ports d) with
  | Some lp =>
      if bool_decide (name = Ports.name (Ports.conf lp)) && match link v Ports.PLocal with Ports.NETDEV_LINK_DOWN => false | _ => true end &&
         negb (Datapath.local_port_ok (Datapath.eh d))
      then Datapath.with_ehddp d
             (let e := Datapath.eh d in
              Datapath.Ehddp (Datapath.mac_heap e) (Datapath.bt_table e) (Datapath.learning_table e) (Datapath.port_to_controller e)
                (Datapath.old_local_port e) (Datapath.old_local_port_MAC e) (Datapath.time_no_move_local_port e) true
                (Datapath.type_device_general e) (Datapath.ip_de_control_in_band e) (Datapath.ip_del_controlller e) (Datapath.time_start e)
                (Datapath.time_exploration e) (Datapath.convergence_time e) (Datapath.time_init_local_port e) (Datapath.num_pkt_ehddp_req e)
                (Datapath.num_pkt_ehddp_rep e) (Datapath.num_pkt_arp_req e) (Datapath.num_pkt_arp_rep e))
      else d
  | None => d
  end.

(** The turn of one port. *)
Definition run_port (v : device_view) (r : Ports.portref) : Run () :=
  Datapath.bind (Datapath.gets Datapath.ports) (fun ps =>
  Datapath.bind (Datapath.lift (Ports.port_at ps r)) (fun p =>
  let p := Ports.with_conf p (Ports.link_change (Ports.conf p) (link v r)) in
  Datapath.bind (Datapath.modify (fun d => Datapath.with_ports d (Ports.set_port (Datapath.ports d) r p))) (fun _ =>
  if Ports.port_no (Ports.conf p) =? OFPP_LOCAL then Datapath.ret tt
  else
    match received v r with
    | None => Datapath.ret tt
    | Some bs =>
        Datapath.bind Datapath.fresh_addr (fun a =>
        Datapath.bind (Datapath.lift (b ← Ofpbuf.ofpbuf_new_with_headroom Datapath.junk (18 + max_mtu v) 130 a;
                                      fst <$> Ofpbuf.ofpbuf_put Datapath.junk b bs a)) (fun buf =>
        let p := Ports.with_stats p (Ports.count_rx (Ports.stats p) (Ofpbuf.size buf)) in
        Datapath.bind (Datapath.modify (fun d => Datapath.with_ports d (Ports.set_port (Datapath.ports d) r p))) (fun _ =>
        Datapath.bind (process_buffer p buf) (fun _ =>
        Datapath.modify (local_port_seen v (Ports.name (Ports.conf p)))))))
    end))).

Fixpoint run_ports (v : device_view) (l : list Ports.portref) : Run () :=
  match l with
  | [] => Datapath.ret tt
  | r :: l => Datapath.bind (run_port v r) (fun _ => run_ports v l)
  end.
Definition dp_ports_run (v : device_view) : Run () :=
  Datapath.bind (Datapath.gets (fun d => Ports.port_list (Datapath.ports d))) (run_ports v).

(** Once a second the meters get tokens and flows time out. *)
Definition timeouts : Run () :=
  Datapath.bind (Datapath.gets Datapath.time_msec) (fun t =>
  Datapath.bind (on_meters (fun m => (Meter.meter_table_add_tokens m t, tt))) (fun _ =>
  Pipeline.pipeline_timeout PIPELINE_TABLES 0)).

(** Where the matches and instructions of a message are stored, and what the listeners accept. *)
Context (addr : control Sw -> Z) (at_ : control Sw -> positive) (accept_result : nat -> lref -> Z * Rconn.vref).

Definition talk : Ctl unit := talk_to_remotes Datapath.junk handle_control_msg addr at_.

Definition dp_run (v : device_view) : Ctl unit :=
  now <- pget clock;; last <- sw last_timeout;;
  pwhen (negb (now =? last)) (upd_sw (set_timeout now);;; run_dp timeouts);;;
  run_dp (dp_ports_run v);;;
  talk;;;
  accept_connections accept_result.

(** The clock, in milliseconds. *)
Definition with_clock (t : Z) (d : Datapath.datapath G M) : Datapath.datapath G M :=
  Datapath.DP (Datapath.dp_id d) t (Datapath.miss_send_len d) (Datapath.mallocs d) (Datapath.next_pkt d) (Datapath.packets d)
    (Datapath.dp_buffers d) (Datapath.tables d) (Datapath.world d) (Datapath.ports d) (Datapath.messages d) (Datapath.eh d).
Definition advance (t : Z) (s : control Sw) : control Sw :=
  let t := Z.max (Datapath.clock (dp (rest s))) t in
  if t <? 1000 * 2 ^ 31 then set_clock (Z.max (clock s) (t / 1000)) (set_rest (set_dp (with_clock t (dp (rest s))) (rest s)) s) else s.

(** A run of the program: listeners are added, time passes and [dp_run] is called. *)
Inductive event := E_listen (l : lref) (la : option lref) | E_time (t : Z) | E_run (v : device_view).
Definition happen (e : event) : Ctl unit :=
  match e with
  | E_listen l la => dp_add_pvconn l la
  | E_time t => pmod (advance t)
  | E_run v => dp_run v
  end.
Fixpoint happenings (es : list event) : Ctl unit :=
  match es with
  | [] => pret tt
  | e :: es => happen e;;; happenings es
  end.

(** * The controllers stay in order *)

Lemma inv_sw {A} rs (f : Sw -> A) : preserved (inv rs) (sw f).
Proof. apply preserved_get. Qed.
Lemma inv_rest rs d (s : control Sw) : inv rs s -> inv rs (set_rest d s).
Proof. by intros []. Qed.
Lemma inv_upd_sw rs f : preserved (inv rs) (upd_sw f).
Proof. apply preserved_mod. intros s. apply inv_rest. Qed.
Lemma inv_is_slave rs s : preserved (inv rs) (is_slave s).
Proof. unfold is_slave. preserved_tac. apply inv_lift. Qed.
Hint Resolve inv_sw inv_upd_sw inv_is_slave inv_lift inv_send_message inv_set_mp : preserved.

Lemma inv_all_to_all rs msgs : preserved (inv rs) (all_to_all msgs).
Proof. induction msgs as [| m msgs IH]; cbn [all_to_all]; unfold to_all; preserved_tac. Qed.
Hint Resolve inv_all_to_all : preserved.

Lemma inv_run_dp {A} rs (c : Run A) : preserved (inv rs) (run_dp c).
Proof. unfold run_dp. preserved_tac. Qed.
Hint Resolve inv_run_dp : preserved.

Lemma inv_reply rs msg s : preserved (inv rs) (reply msg s).
Proof. unfold reply. preserved_tac. Qed.
Hint Resolve inv_reply : preserved.
Lemma inv_reply_stats rs r s : preserved (inv rs) (reply_stats r s).
Proof. unfold reply_stats. preserved_tac. Qed.
Hint Resolve inv_reply_stats : preserved.

Lemma inv_packet_out rs p s : preserved (inv rs) (handle_control_packet_out p s).
Proof. unfold handle_control_packet_out, packet_out_actions, mark_start, log_uah_estadisticos. preserved_tac. Qed.

Lemma inv_reply_parts rs ps s : preserved (inv rs) (reply_parts ps s).
Proof. induction ps as [| [ts more] ps IH]; cbn [reply_parts]; preserved_tac. Qed.
Hint Resolve inv_reply_parts : preserved.

Lemma inv_table_features rs flags l s : preserved (inv rs) (pipeline_handle_stats_request_table_features_request flags l s).
Proof. unfold pipeline_handle_stats_request_table_features_request, finish_features. preserved_tac. Qed.

Lemma inv_stats_array {A B} rs (f : A -> B) r k : (forall l, preserved (inv rs) (k l)) -> preserved (inv rs) (stats_array f r k).
Proof. intros Hk. unfold stats_array. preserved_tac. Qed.
Hint Resolve inv_packet_out inv_table_features inv_stats_array : preserved.

Lemma inv_stats_request rs flags r s : preserved (inv rs) (handle_control_stats_request flags r s).
Proof.
  destruct r; cbn [handle_control_stats_request]; try solve [preserved_tac];
    unfold handle_control_stats_request_desc, pipeline_handle_stats_request_flow, pipeline_handle_stats_request_aggregate,
      pipeline_handle_stats_request_table, dp_ports_handle_stats_request_port, dp_ports_handle_stats_request_queue,
      group_table_handle_stats_request_group, group_table_handle_stats_request_group_desc, group_table_handle_stats_request_group_features,
      meter_table_handle_stats_request_meter, meter_table_handle_stats_request_meter_conf, meter_table_handle_features_request,
      dp_ports_handle_port_desc_request; preserved_tac.
Qed.
Hint Resolve inv_stats_request : preserved.

(** Every message of a controller keeps the controllers in order. *)
Lemma handle_control_msg_keeps rs msg s : s_remote s ∈ rs -> preserved (inv rs) (handle_control_msg msg s).
Proof.
  intros Hs. destruct msg as [[] | | [] | [[] | |] | | | | | | | | | | | | | | | | [] | [] |]; cbn [handle_control_msg]; try solve [preserved_tac];
    try (by apply inv_role_request); try apply inv_async_request;
    unfold handle_control_barrier_request, handle_control_features_request, handle_control_get_config_request, handle_control_set_config,
      handle_control_echo_request, dp_exp_message, dp_handle_set_desc, handle_flow_mod, handle_group_mod, handle_port_mod, handle_meter_mod,
      pipeline_handle_table_mod, dp_ports_handle_queue_get_config_request; preserved_tac.
Qed.

(** ** Runs of the program *)

Lemma sane_preserved {A} (c : Ctl A) : (forall rs, preserved (inv rs) c) -> preserved sane c.
Proof. intros Hc s x s' [rs Hi] E. exists rs. by eapply Hc. Qed.

Lemma sane_talk : preserved sane talk.
Proof.
  intros s x s' [rs Hi] E. eapply (inv_talk Datapath.junk handle_control_msg addr at_); [| exact Hi | exact E].
  intros rs' msg sd. apply handle_control_msg_keeps.
Qed.

Lemma sane_accept : preserved sane (accept_connections (D := Sw) accept_result).
Proof.
  intros s x s' Hs E. destruct (accept_total accept_result s Hs) as (s2 & E2 & Hs2). rewrite E in E2. by injection E2 as -> ->.
Qed.

Lemma sane_advance t s : sane s -> sane (advance t s).
Proof.
  intros [rs Hi]. unfold advance. destruct (Z.ltb_spec (Z.max (Datapath.clock (dp (rest s))) t) (1000 * 2 ^ 31)); [| by exists rs].
  exists rs. apply inv_tick; [by apply inv_rest |]. cbn [clock set_rest]. pose proof (inv_clock _ _ Hi).
  assert (Z.max (Datapath.clock (dp (rest s))) t / 1000 < 2 ^ 31) by (apply Z.div_lt_upper_bound; lia). lia.
Qed.

Lemma sane_happen e : preserved sane (happen e).
Proof.
  destruct e as [l la | t | v]; cbn [happen].
  - apply sane_preserved. intros rs. apply preserved_mod. intros s. apply inv_listeners.
  - apply preserved_mod. apply sane_advance.
  - unfold dp_run. apply preserved_bind; [apply preserved_get |]. intros now. apply preserved_bind; [apply preserved_get |]. intros last.
    apply preserved_bind; [apply sane_preserved; intros rs; preserved_tac |]. intros _.
    apply preserved_bind; [apply sane_preserved; intros rs; preserved_tac |]. intros _.
    apply preserved_bind; [apply sane_talk |]. intros _. apply sane_accept.
Qed.

Lemma sane_happenings es : preserved sane (happenings es).
Proof. induction es as [| e es IH]; cbn [happenings]; [apply preserved_ret |]. apply preserved_bind; [apply sane_happen | done]. Qed.

(** C11. Whatever the controllers send, the devices receive and the connections answer, in whatever order and for however long the
    switch runs: at most one controller is master, and at no time has a controller more than 128
    messages waiting, which are those that its counter counts. *)
Theorem one_master t d es s :
  0 <= t < 2 ^ 31 -> happenings es (dp_new t d) = Some (tt, s) ->
  (masters (remotes s) <= 1)%nat /\
  forall r x, find r (remotes s) = Some x -> OFPCR_ROLE_EQUAL <= role x <= OFPCR_ROLE_SLAVE /\
    n_txq x = Rconn.queued txq_counter (Rconn.txq (main x)) + backlog (aux x) /\ n_txq x <= TXQ_LIMIT.
Proof.
  intros Ht E. apply sane_fit. refine (preserved_use _ _ _ _ _ (sane_happenings es) _ E).
  apply (reachable_sane Datapath.junk handle_control_msg addr at_ accept_result); [| by constructor].
  intros rs msg sd. apply handle_control_msg_keeps.
Qed.

(** * What a slave may not do *)

Lemma rest_same (s : control Sw) : set_rest (rest s) s = s.
Proof. by destruct s. Qed.
Lemma dp_same (w : Sw) : set_dp (dp w) w = w.
Proof. by destruct w. Qed.

(** A computation that leaves the datapath as it is. *)
Lemma run_dp_same {A} (c : Run A) x (s : control Sw) : c (dp (rest s)) = Datapath.Done (x, dp (rest s)) -> run_dp c s = Some (x, s).
Proof.
  intros E. unfold run_dp, sw, upd_sw, pbind, pget, pmod. rewrite E. rewrite !drop_all. cbn [map all_to_all].
  unfold pret. by rewrite dp_same, rest_same.
Qed.

Lemma tables_same (d : Datapath.datapath G M) : Datapath.with_tables d (Datapath.tables d) (Datapath.world d) = d.
Proof. by destruct d. Qed.
Lemma groups_same (w : FlowTable.world G M) : FlowTable.with_groups w (FlowTable.groups w) = w.
Proof. by destruct w. Qed.
Lemma meters_same (w : FlowTable.world G M) : FlowTable.with_meters w (FlowTable.meters w) = w.
Proof. by destruct w. Qed.
Lemma ports_same (d : Datapath.datapath G M) : Datapath.with_ports d (Datapath.ports d) = d.
Proof. by destruct d. Qed.

(** The messages that change what the switch does with packets. *)
Definition modifies (msg : MsgCodec.ofl_msg) : bool :=
  match msg with
  | MsgCodec.M_packet_out _ | MsgCodec.M_flow_mod _ | MsgCodec.M_group_mod _ | MsgCodec.M_port_mod _ | MsgCodec.M_table_mod _
  | MsgCodec.M_meter_mod _ => true
  | _ => false
  end.

(** The instructions of a flow mod are at a place of their own. *)
Definition fresh_instructions (msg : MsgCodec.ofl_msg) (w : Sw) : Prop :=
  match msg with
  | MsgCodec.M_flow_mod m => FlowTable.insts_at (FlowTable.m_instructions m) ∉ FlowTable.live (Datapath.world (dp w))
  | _ => True
  end.

Lemma live_back (d : Datapath.datapath G M) r :
  r ∉ FlowTable.live (Datapath.world d) ->
  with_live d ((FlowTable.live (Datapath.world d) ∪ {[ r ]}) ∖ {[ r ]}) = d.
Proof using Type.
  intros Hr. rewrite fresh_back by exact Hr. destruct d as [???????? w ???]. by destruct w.
Qed.

Lemma flow_mod_refused m (d : Datapath.datapath G M) :
  FlowTable.insts_at (FlowTable.m_instructions m) ∉ FlowTable.live (Datapath.world d) ->
  flow_mod_run m OFPCR_ROLE_SLAVE d = Datapath.Done (bad_request OFPBRC_IS_SLAVE, d).
Proof using Type.
  intros Hat. unfold flow_mod_run, Pipeline.pipeline_handle_flow_mod, Pipeline.free_insts, Datapath.bind, Datapath.modify, Datapath.gets,
    Datapath.lift, Datapath.ret.
  change (OFPCR_ROLE_SLAVE =? Pipeline.OFPCR_ROLE_SLAVE) with true.
  cbn -[bad_request union difference singleton]. change (ofl_error OFPET_BAD_REQUEST Pipeline.OFPBRC_IS_SLAVE =? 0) with false.
  unfold FlowTable.free_instructions. cbn -[bad_request union difference singleton elem_of].
  rewrite decide_True by (apply elem_of_union_r, elem_of_singleton; reflexivity). do 2 f_equal. exact (live_back d _ Hat).
Qed.

Lemma group_mod_refused m (d : Datapath.datapath G M) :
  group_mod_run m OFPCR_ROLE_SLAVE d = Datapath.Done (bad_request OFPBRC_IS_SLAVE, d).
Proof.
  unfold group_mod_run, Group.group_table_handle_group_mod. change (OFPCR_ROLE_SLAVE =? Group.OFPCR_ROLE_SLAVE) with true.
  unfold Datapath.bind, Datapath.gets, Datapath.lift, Datapath.modify, remove_flows, Datapath.ret, id.
  rewrite groups_same, tables_same. reflexivity.
Qed.
Lemma meter_mod_refused m (d : Datapath.datapath G M) :
  meter_mod_run m OFPCR_ROLE_SLAVE d = Datapath.Done (bad_request OFPBRC_IS_SLAVE, d).
Proof.
  unfold meter_mod_run, Meter.meter_table_handle_meter_mod. change (OFPCR_ROLE_SLAVE =? Meter.OFPCR_ROLE_SLAVE) with true.
  unfold Datapath.bind, Datapath.gets, Datapath.lift, Datapath.modify, remove_flows, Datapath.ret, id.
  change (ofl_error OFPET_BAD_REQUEST Meter.OFPBRC_IS_SLAVE =? 0) with false. rewrite andb_false_r. cbn [andb].
  rewrite meters_same, tables_same. reflexivity.
Qed.
Lemma port_mod_refused m (d : Datapath.datapath G M) :
  port_mod_run m OFPCR_ROLE_SLAVE d = Datapath.Done (bad_request OFPBRC_IS_SLAVE, d).
Proof.
  unfold port_mod_run, on_ports, Ports.dp_ports_handle_port_mod. change (OFPCR_ROLE_SLAVE =? Ports.OFPCR_ROLE_SLAVE) with true.
  unfold Datapath.bind, Datapath.gets, Datapath.lift, Datapath.modify, Datapath.ret. cbn. by rewrite ports_same.
Qed.

Lemma the_remote_found r x (s : control Sw) : find r (remotes s) = Some x -> the_remote r s = Some (x, s).
Proof. intros E. unfold the_remote, pbind, pget, plift. by rewrite E. Qed.

Lemma is_slave_spec sd x (s : control Sw) :
  find (s_remote sd) (remotes s) = Some x -> is_slave sd s = Some (role x =? OFPCR_ROLE_SLAVE, s).
Proof. intros E. unfold is_slave, pbind. by rewrite (the_remote_found _ _ _ E). Qed.

(** C14. The packet-outs and the flow, group, port, table and meter modifications of a controller in the slave
    role are refused, each with the error of a slave, and leave the switch, its controllers and their queues
    as they were. (Table features requests, switch configurations and the experimenter messages are not
    among them: the code does not look at the role there.) *)
Theorem slave_refused msg sd x (s : control Sw) :
  find (s_remote sd) (remotes s) = Some x -> role x = OFPCR_ROLE_SLAVE -> modifies msg = true ->
  fresh_instructions msg (rest s) ->
  handle_control_msg msg sd s = Some (bad_request OFPBRC_IS_SLAVE, s).
Proof using Type.
  intros E Er Hm Hf. pose proof (the_remote_found _ _ _ E) as T. pose proof (is_slave_spec _ _ _ E) as I.
  rewrite Er, Z.eqb_refl in I.
  destruct msg; try discriminate Hm; cbn [handle_control_msg];
    unfold handle_control_packet_out, handle_flow_mod, handle_group_mod, handle_port_mod, pipeline_handle_table_mod, handle_meter_mod, pbind;
    rewrite ?T, ?I, ?Er; try reflexivity; apply run_dp_same;
    auto using flow_mod_refused, group_mod_refused, meter_mod_refused, port_mod_refused.
Qed.

(** * Requests *)

(** ** Flow statistics *)








(** * Packets the controller cannot send *)

(** A packet-out whose data has eight bytes, or a length of 1 modulo 256, is not taken for a packet:
    whatever its actions are, they are not done, nothing is sent to a port or to a controller, and
    the controller gets no error. *)
Theorem packet_out_taken p sd x (s : control Sw) :
  find (s_remote sd) (remotes s) = Some x -> role x <> OFPCR_ROLE_SLAVE ->
  (length (MsgCodec.po_data p) mod 256 = 1)%nat \/ length (MsgCodec.po_data p) = 8%nat ->
  exists w, handle_control_msg (MsgCodec.M_packet_out p) sd s = Some (0, set_rest w s) /\
    dp w = dp (rest s) /\ config_flags w = config_flags (rest s) /\ features w = features (rest s).
Proof.
  intros E Hr Hl. cbn [handle_control_msg]. unfold handle_control_packet_out, pbind. rewrite (is_slave_spec _ _ _ E).
  apply Z.eqb_neq in Hr as ->.
  destruct (Z.eqb_spec (u8 (Z.of_nat (length (MsgCodec.po_data p)))) 1) as [H1 | H1].
  { eexists. split; [reflexivity | by destruct (rest s)]. }
  destruct Hl as [Hl | Hl].
  { destruct H1. unfold u8, wrap. change (2 ^ 8) with (Z.of_nat 256). by rewrite <- Nat2Z.inj_mod, Hl. }
  rewrite Hl. change (Z.of_nat 8 =? 8) with true. unfold sw, upd_sw, pget, pmod, pwhen, log_uah_estadisticos, sw, upd_sw, pget, pmod, pwhen, pbind, pret.
  cbn [rest set_rest].
  destruct (_ <? _); [destruct log_opens |]; (eexists; split; [reflexivity | by destruct (rest s)]).
Qed.

End control.

(** * The tables in the replies *)

(** The tables from [t] on that are not disabled. *)
Definition enabled_from (ds : list bool) (t : nat) : list nat :=
  filter (fun t => nth t ds false = false) (seq t (PIPELINE_TABLES - t)).

Lemma enabled_step ds t :
  (t < PIPELINE_TABLES)%nat -> enabled_from ds t = (if nth t ds false then [] else [t]) ++ enabled_from ds (S t).
Proof.
  intros Ht. unfold enabled_from. replace (PIPELINE_TABLES - t)%nat with (S (PIPELINE_TABLES - S t)) by lia.
  cbn [seq]. rewrite filter_cons. by destruct (nth t ds false).
Qed.

Lemma skip_disabled_spec n ds : forall t, (t <= PIPELINE_TABLES)%nat -> (PIPELINE_TABLES <= t + n)%nat ->
  let t' := skip_disabled n ds t in
  (t <= t' <= PIPELINE_TABLES)%nat /\ enabled_from ds t' = enabled_from ds t /\ ((t' < PIPELINE_TABLES)%nat -> nth t' ds false = false).
Proof.
  induction n as [| n IH]; intros t Ht Hn; cbn [skip_disabled].
  { split; [lia |]. split; [done | lia]. }
  destruct (Nat.ltb_spec t PIPELINE_TABLES) as [Hlt | Hge]; cbn [andb].
  2: { split; [lia |]. split; [done | lia]. }
  destruct (nth t ds false) eqn:E; [| done].
  destruct (IH (S t)) as (H1 & H2 & H3); [lia | lia |]. rewrite (enabled_step ds t), E by done. split; [lia |]. done.
Qed.

Lemma collect_spec ds k : forall t, (t <= PIPELINE_TABLES)%nat ->
  let '(l, t') := collect k ds t in
  (t <= t' <= PIPELINE_TABLES)%nat /\ l ++ enabled_from ds t' = enabled_from ds t /\ (length l <= k)%nat /\
  ((0 < k)%nat -> (t < PIPELINE_TABLES)%nat -> (t < t')%nat).
Proof.
  induction k as [| k IH]; intros t Ht; cbn [collect]; [naive_solver lia |].
  destruct (skip_disabled_spec PIPELINE_TABLES ds t Ht) as (H1 & H2 & H3); [lia |].
  set (u := skip_disabled PIPELINE_TABLES ds t) in *. cbn zeta.
  destruct (Nat.leb_spec PIPELINE_TABLES u) as [Hge | Hlt]; [naive_solver lia |].
  specialize (IH (S u)). destruct (collect k ds (S u)) as [l t']. destruct IH as (I1 & I2 & I3 & _); [lia |].
  split; [lia |]. split; [| split; [cbn; lia | lia]].
  rewrite <- H2, (enabled_step ds u), (H3 Hlt), <- I2 by done. done.
Qed.

Lemma parts_spec ds fuel : forall t, (t <= PIPELINE_TABLES)%nat -> (PIPELINE_TABLES - t < fuel)%nat ->
  concat (map fst (parts fuel ds t)) = enabled_from ds t /\ Forall (fun p => (length (fst p) <= 8)%nat) (parts fuel ds t) /\
  exists ps l, parts fuel ds t = ps ++ [(l, false)] /\ Forall (fun p => snd p = true) ps.
Proof.
  induction fuel as [| fuel IH]; intros t Ht Hf; [lia |]. cbn [parts]. pose proof (collect_spec ds 8 t Ht) as C.
  destruct (collect 8 ds t) as [l t']. destruct C as (C1 & C2 & C3 & C4).
  destruct (Nat.ltb_spec t' PIPELINE_TABLES) as [Hlt | Hge].
  - destruct (IH t') as (I1 & I2 & ps & l' & I3 & I4); [lia | specialize (C4 ltac:(lia)); lia |].
    cbn [map concat fst]. rewrite I1. split; [done |]. split; [by constructor |].
    exists ((l, negb (t' =? PIPELINE_TABLES)%nat) :: ps), l'. rewrite I3. split; [done |]. constructor; [| done].
    cbn [snd]. destruct (Nat.eqb_spec t' PIPELINE_TABLES); [lia | done].
  - cbn [map concat fst]. rewrite app_nil_r. rewrite <- C2. replace t' with PIPELINE_TABLES by lia.
    split; [unfold enabled_from; rewrite Nat.sub_diag; cbn; by rewrite app_nil_r |]. split; [by constructor; [| constructor] |].
    exists [], l. rewrite Nat.eqb_refl. done.
Qed.

(** C38. The features of the tables are sent in parts of at most eight: together they are the tables
    that are not disabled, each once and in order, and all parts but the last say that there are
    more. The bound on the number of parts is never reached. *)
Theorem feature_parts ds fuel :
  (PIPELINE_TABLES < fuel)%nat ->
  let ps := parts fuel ds 0 in
  concat (map fst ps) = filter (fun t => nth t ds false = false) (seq 0 PIPELINE_TABLES) /\
  Forall (fun p => (length (fst p) <= 8)%nat) ps /\
  exists before l, ps = before ++ [(l, false)] /\ Forall (fun p => snd p = true) before.
Proof. intros Hf. by apply (parts_spec ds fuel 0); [unfold PIPELINE_TABLES; lia | rewrite Nat.sub_0_r]. Qed.


(** * An example *)

(** The switch of the examples of [Progress], with the two controllers of the example of [Remotes]. *)
#[local] Existing Instance Progress.demo_env.
#[local] Existing Instance demo_conns.
Definition demo_switch : switch (HMap.hmap Group.group_entry) (HMap.hmap Meter.meter_entry) :=
  Switch (Progress.demo_dp Progress.demo_tables) 0 (MsgCodec.Desc [] [] [] [] []) (map (fun i => new_features 0 (Z.of_nat i)) (seq 0 PIPELINE_TABLES)) (repeat false PIPELINE_TABLES) 0 0 false false [] 0.
Definition demo_view : device_view := View (fun _ => Ports.NETDEV_LINK_NO_CHANGE) 1500 (fun _ => None).
(** Each controller connects once. *)
Definition demo_once (n : nat) (l : lref) : Z * Rconn.vref := if (n <? 2)%nat then (0, l) else (Rconn.EAGAIN, l).
Definition demo_happenings (es : list event) : prog (control (switch (HMap.hmap Group.group_entry) (HMap.hmap Meter.meter_entry))) unit :=
  happenings true 1 0 64 (fun _ => 9%positive) 0 (Meter.Band_drop 0 0) (fun _ => 0) (fun _ => 0) (fun _ => 9%positive) demo_once es.
Definition demo_events : list event :=
  [E_listen 1 None; E_listen 2 None; E_time 6000; E_run demo_view; E_time 7000; E_run demo_view].
Definition demo_state (es : list event) : control (switch (HMap.hmap Group.group_entry) (HMap.hmap Meter.meter_entry)) :=
  match demo_happenings es (dp_new 5 demo_switch) with Some (_, s) => s | None => dp_new 5 demo_switch end.
Definition demo_control : MsgCodec.ofl_msg -> sender -> prog (control (switch (HMap.hmap Group.group_entry) (HMap.hmap Meter.meter_entry))) Z :=
  handle_control_msg true 1 0 64 (fun _ => 9%positive) 0 (Meter.Band_drop 0 0) (fun _ => 0).

Definition demo_remote (r : rref) : remote := match find r (remotes (demo_state demo_events)) with Some x => x | None => demo_quiet end.

Lemma one_master_witness :
  let s := demo_state demo_events in
  (masters (remotes s) <= 1)%nat /\
  (forall r x, find r (remotes s) = Some x -> OFPCR_ROLE_EQUAL <= role x <= OFPCR_ROLE_SLAVE /\
     n_txq x = Rconn.queued txq_counter (Rconn.txq (main x)) + backlog (aux x) /\ n_txq x <= TXQ_LIMIT) /\
  roles (remotes s) = [OFPCR_ROLE_SLAVE; OFPCR_ROLE_MASTER].
Proof.
  cbn zeta. apply and_assoc. split; [| vm_compute; reflexivity].
  apply (one_master true 1 0 64 (fun _ => 9%positive) 0 (Meter.Band_drop 0 0) (fun _ => 0) (fun _ => 0) (fun _ => 9%positive) demo_once
           5 demo_switch demo_events); [lia | vm_compute; reflexivity].
Defined.

(** The first of the controllers is a slave; it asks for all meters to be removed. *)
Lemma slave_refused_witness :
  let s := demo_state demo_events in
  demo_control (MsgCodec.M_meter_mod (MsgCodec.MeterMod 2 0 0xffffffff [])) (Sender 1 MAIN 3) s = Some (bad_request OFPBRC_IS_SLAVE, s).
Proof.
  cbn zeta. unfold demo_control.
  apply (slave_refused true 1 0 64 (fun _ => 9%positive) 0 (Meter.Band_drop 0 0) (fun _ => 0) _ _ (demo_remote 1));
    [vm_compute; reflexivity | vm_compute; reflexivity | reflexivity | exact I].
Defined.




Lemma packet_out_taken_witness :
  let s := demo_state demo_events in
  exists w, demo_control (MsgCodec.M_packet_out (MsgCodec.POut 0xffffffff 1 [OflTypes.Act_output 2 0] [1; 2; 3; 4; 5; 6; 7; 8])) (Sender 2 MAIN 3) s = Some (0, set_rest w s) /\
    dp w = dp (rest s) /\ config_flags w = config_flags (rest s) /\ features w = features (rest s).
Proof.
  cbn zeta. apply (packet_out_taken true 1 0 64 (fun _ => 9%positive) 0 (Meter.Band_drop 0 0) (fun _ => 0) _ _ (demo_remote 2));
    [vm_compute; reflexivity | vm_compute; discriminate | by right].
Defined.

(** With no table disabled there are eight parts. *)
Lemma feature_parts_witness :
  let ps := parts 65 (repeat false 64) 0 in
  length ps = 8%nat /\ concat (map fst ps) = filter (fun t => nth t (repeat false 64) false = false) (seq 0 PIPELINE_TABLES) /\
  Forall (fun p => (length (fst p) <= 8)%nat) ps /\
  exists before l, ps = before ++ [(l, false)] /\ Forall (fun p => snd p = true) before.
Proof. cbn zeta. split; [vm_compute; reflexivity |]. apply (feature_parts (repeat false 64) 65). unfold PIPELINE_TABLES. lia. Defined.

End Control.
