(* ===== verification/Stp.v ===== *)
(** The spanning tree protocol of IEEE 802.1D (lib/stp.c): one bridge with its ports, timers and
    the BPDUs it sends and receives. Port numbers stand for pointers into the array of ports. *)
From S2P Require Import Prelude Wire State.
Open Scope Z_scope.
Open Scope prog_scope.

Module Stp.

Definition STP_DEFAULT_BRIDGE_PRIORITY : Z := 32768.
Definition STP_DEFAULT_PORT_PRIORITY : Z := 128.
Definition STP_MAX_PORTS : nat := 255.
Definition STP_TYPE_CONFIG : Z := 0x00.
Definition STP_TYPE_TCN : Z := 0x80.
Definition STP_CONFIG_TOPOLOGY_CHANGE_ACK : Z := 0x80.
Definition STP_CONFIG_TOPOLOGY_CHANGE : Z := 0x01.
Definition MESSAGE_AGE_INCREMENT : Z := 1.
Definition INT_MAX : Z := 2 ^ 31 - 1.

(** * Data *)

(** [enum stp_state]: one bit each, for tests with a mask. *)
Definition STP_DISABLED : Z := 1.
Definition STP_LISTENING : Z := 2.
Definition STP_LEARNING : Z := 4.
Definition STP_FORWARDING : Z := 8.
Definition STP_BLOCKING : Z := 16.

Record stp_timer := Timer { active : bool; value : Z }.
Definition stp_start_timer (v : Z) : stp_timer := Timer true v.
Definition stp_stop_timer (t : stp_timer) : stp_timer := Timer false (value t).

Record stp_port := Port {
  port_id : Z; state : Z; path_cost : Z;
  designated_root : Z; designated_cost : Z; designated_bridge : Z; designated_port : Z;
  topology_change_ack : bool; config_pending : bool; change_detection_enabled : bool;
  message_age_timer : stp_timer; forward_delay_timer : stp_timer; hold_timer : stp_timer;
  state_changed : bool }.

(** The three times of the protocol, in ticks of 1/256 s or in milliseconds. *)
Record times := Times { max_age : Z; hello_time : Z; forward_delay : Z }.

(** [struct stp]: the times in use, those of a root and those that were asked for; [sent] are the
    frames that were given to the [send_bpdu] function of the client, with their ports. *)
Record stp := Stp {
  bridge_id : Z; now : times; bridge : times; rq : times; elapsed_remainder : Z;
  stp_designated_root : Z; root_path_cost : Z; root_port : option nat;
  topology_change_detected : bool; topology_change : bool;
  hello_timer : stp_timer; tcn_timer : stp_timer; topology_change_timer : stp_timer;
  ports : list stp_port; first_changed_port : nat; sent : list (nat * list Z) }.

(** ** Changes of a port *)

Definition set_port_id (v : Z) (p : stp_port) : stp_port :=
  Port v (state p) (path_cost p) (designated_root p) (designated_cost p) (designated_bridge p) (designated_port p)
    (topology_change_ack p) (config_pending p) (change_detection_enabled p) (message_age_timer p) (forward_delay_timer p) (hold_timer p)
    (state_changed p).
Definition set_state (v : Z) (c : bool) (p : stp_port) : stp_port :=
  Port (port_id p) v (path_cost p) (designated_root p) (designated_cost p) (designated_bridge p) (designated_port p)
    (topology_change_ack p) (config_pending p) (change_detection_enabled p) (message_age_timer p) (forward_delay_timer p) (hold_timer p) c.
Definition set_path_cost (v : Z) (p : stp_port) : stp_port :=
  Port (port_id p) (state p) v (designated_root p) (designated_cost p) (designated_bridge p) (designated_port p)
    (topology_change_ack p) (config_pending p) (change_detection_enabled p) (message_age_timer p) (forward_delay_timer p) (hold_timer p)
    (state_changed p).
Definition set_designated (root cost br port : Z) (p : stp_port) : stp_port :=
  Port (port_id p) (state p) (path_cost p) root cost br port
    (topology_change_ack p) (config_pending p) (change_detection_enabled p) (message_age_timer p) (forward_delay_timer p) (hold_timer p)
    (state_changed p).
Definition set_pending (ack pending : bool) (p : stp_port) : stp_port :=
  Port (port_id p) (state p) (path_cost p) (designated_root p) (designated_cost p) (designated_bridge p) (designated_port p)
    ack pending (change_detection_enabled p) (message_age_timer p) (forward_delay_timer p) (hold_timer p) (state_changed p).
Definition set_detection (v : bool) (p : stp_port) : stp_port :=
  Port (port_id p) (state p) (path_cost p) (designated_root p) (designated_cost p) (designated_bridge p) (designated_port p)
    (topology_change_ack p) (config_pending p) v (message_age_timer p) (forward_delay_timer p) (hold_timer p) (state_changed p).
Definition set_timers (age delay hold : stp_timer) (p : stp_port) : stp_port :=
  Port (port_id p) (state p) (path_cost p) (designated_root p) (designated_cost p) (designated_bridge p) (designated_port p)
    (topology_change_ack p) (config_pending p) (change_detection_enabled p) age delay hold (state_changed p).
Definition set_age (t : stp_timer) (p : stp_port) : stp_port := set_timers t (forward_delay_timer p) (hold_timer p) p.
Definition set_delay (t : stp_timer) (p : stp_port) : stp_port := set_timers (message_age_timer p) t (hold_timer p) p.
Definition set_hold (t : stp_timer) (p : stp_port) : stp_port := set_timers (message_age_timer p) (forward_delay_timer p) t p.

(** ** Changes of the bridge *)

Definition set_bridge (id : Z) (s : stp) : stp :=
  Stp id (now s) (bridge s) (rq s) (elapsed_remainder s) (stp_designated_root s) (root_path_cost s) (root_port s)
    (topology_change_detected s) (topology_change s) (hello_timer s) (tcn_timer s) (topology_change_timer s) (ports s) (first_changed_port s) (sent s).
Definition set_times (cur br req : times) (s : stp) : stp :=
  Stp (bridge_id s) cur br req (elapsed_remainder s) (stp_designated_root s) (root_path_cost s) (root_port s)
    (topology_change_detected s) (topology_change s) (hello_timer s) (tcn_timer s) (topology_change_timer s) (ports s) (first_changed_port s) (sent s).
Definition set_remainder (v : Z) (s : stp) : stp :=
  Stp (bridge_id s) (now s) (bridge s) (rq s) v (stp_designated_root s) (root_path_cost s) (root_port s)
    (topology_change_detected s) (topology_change s) (hello_timer s) (tcn_timer s) (topology_change_timer s) (ports s) (first_changed_port s) (sent s).
Definition set_root (root cost : Z) (port : option nat) (s : stp) : stp :=
  Stp (bridge_id s) (now s) (bridge s) (rq s) (elapsed_remainder s) root cost port
    (topology_change_detected s) (topology_change s) (hello_timer s) (tcn_timer s) (topology_change_timer s) (ports s) (first_changed_port s) (sent s).
Definition set_change (detected change : bool) (s : stp) : stp :=
  Stp (bridge_id s) (now s) (bridge s) (rq s) (elapsed_remainder s) (stp_designated_root s) (root_path_cost s) (root_port s)
    detected change (hello_timer s) (tcn_timer s) (topology_change_timer s) (ports s) (first_changed_port s) (sent s).
Definition set_bridge_timers (hello tcn change : stp_timer) (s : stp) : stp :=
  Stp (bridge_id s) (now s) (bridge s) (rq s) (elapsed_remainder s) (stp_designated_root s) (root_path_cost s) (root_port s)
    (topology_change_detected s) (topology_change s) hello tcn change (ports s) (first_changed_port s) (sent s).
Definition set_ports (l : list stp_port) (s : stp) : stp :=
  Stp (bridge_id s) (now s) (bridge s) (rq s) (elapsed_remainder s) (stp_designated_root s) (root_path_cost s) (root_port s)
    (topology_change_detected s) (topology_change s) (hello_timer s) (tcn_timer s) (topology_change_timer s) l (first_changed_port s) (sent s).
Definition set_first (n : nat) (s : stp) : stp :=
  Stp (bridge_id s) (now s) (bridge s) (rq s) (elapsed_remainder s) (stp_designated_root s) (root_path_cost s) (root_port s)
    (topology_change_detected s) (topology_change s) (hello_timer s) (tcn_timer s) (topology_change_timer s) (ports s) n (sent s).
Definition set_sent (l : list (nat * list Z)) (s : stp) : stp :=
  Stp (bridge_id s) (now s) (bridge s) (rq s) (elapsed_remainder s) (stp_designated_root s) (root_path_cost s) (root_port s)
    (topology_change_detected s) (topology_change s) (hello_timer s) (tcn_timer s) (topology_change_timer s) (ports s) (first_changed_port s) l.

Abbreviation Br := (prog stp).

Definition whole : Br stp := fun s => Some (s, s).
Definition port_at (i : nat) : Br stp_port := p <- pget (fun s => ports s !! i);; plift p.
Definition upd_port (i : nat) (f : stp_port -> stp_port) : Br unit := pmod (fun s => set_ports (alter f i (ports s)) s).

Definition with_hello (t : stp_timer) : Br unit := pmod (fun s => set_bridge_timers t (tcn_timer s) (topology_change_timer s) s).
Definition with_tcn (t : stp_timer) : Br unit := pmod (fun s => set_bridge_timers (hello_timer s) t (topology_change_timer s) s).
Definition with_change_timer (t : stp_timer) : Br unit := pmod (fun s => set_bridge_timers (hello_timer s) (tcn_timer s) t s).
Definition stop_tcn : Br unit := t <- pget tcn_timer;; with_tcn (stp_stop_timer t).

(** A value of type [int]: an overflow is undefined. *)
Definition int_ok (z : Z) : bool := (- 2 ^ 31 <=? z) && (z <? 2 ^ 31).
Definition int (z : Z) : option Z := if int_ok z then Some z else None.

(** [FOR_EACH_ENABLED_PORT]: whether a port is enabled is looked up when the loop comes to it. *)
Fixpoint for_each_enabled_port (body : nat -> Br unit) (l : list nat) : Br unit :=
  match l with
  | [] => pret tt
  | i :: l => p <- port_at i;; pwhen (negb (state p =? STP_DISABLED)) (body i);;; for_each_enabled_port body l
  end.
Definition all_ports : list nat := seq 0 STP_MAX_PORTS.
Abbreviation for_each body := (for_each_enabled_port body all_ports).

(** * BPDUs *)

Record stp_config_bpdu := Config {
  flags : Z; root_id : Z; c_root_path_cost : Z; c_bridge_id : Z; c_port_id : Z; message_age : Z;
  c_max_age : Z; c_hello_time : Z; c_forward_delay : Z }.

Definition bpdu_header (type : Z) : list Z := be_store 2 0 ++ [0; type].
Definition config_bytes (c : stp_config_bpdu) : list Z :=
  bpdu_header STP_TYPE_CONFIG ++ [flags c] ++ be_store 8 (root_id c) ++ be_store 4 (c_root_path_cost c) ++ be_store 8 (c_bridge_id c) ++
  be_store 2 (c_port_id c) ++ be_store 2 (message_age c) ++ be_store 2 (c_max_age c) ++ be_store 2 (c_hello_time c) ++ be_store 2 (c_forward_delay c).
Definition read_config (m : list Z) : stp_config_bpdu :=
  Config (nth 4 m 0) (be_load (slice 5 8 m)) (be_load (slice 13 4 m)) (be_load (slice 17 8 m)) (be_load (slice 25 2 m))
    (be_load (slice 27 2 m)) (be_load (slice 29 2 m)) (be_load (slice 31 2 m)) (be_load (slice 33 2 m)).

Definition stp_eth_addr : list Z := [0x01; 0x80; 0xC2; 0x00; 0x00; 0x01].

(** The frame of a BPDU; its source address is filled in by the client. *)
Definition bpdu_frame (bpdu : list Z) : list Z :=
  stp_eth_addr ++ zeros 6 ++ be_store 2 (3 + Z.of_nat (length bpdu)) ++ [0x42; 0x42; 0x03] ++ bpdu.
Definition stp_send_bpdu (i : nat) (bpdu : list Z) : Br unit := pmod (fun s => set_sent (sent s ++ [(i, bpdu_frame bpdu)]) s).

(** * The procedures of the standard *)

Definition stp_is_root_bridge (s : stp) : bool := bridge_id s =? stp_designated_root s.
Definition stp_is_designated_port (s : stp) (p : stp_port) : bool :=
  (designated_bridge p =? bridge_id s) && (designated_port p =? port_id p).

(** [x |= htons(f)] on a byte and the test [x & htons(f)]. *)
Definition or_flag (x f : Z) : Z := u8 (Z.lor x (htons f)).
Definition has_flag (x f : Z) : bool := negb (Z.land x (htons f) =? 0).

Definition config_of (s : stp) (p : stp_port) (age : Z) : stp_config_bpdu :=
  let fl := if topology_change_ack p then or_flag 0 STP_CONFIG_TOPOLOGY_CHANGE_ACK else 0 in
  let fl := if topology_change s then or_flag fl STP_CONFIG_TOPOLOGY_CHANGE else fl in
  Config fl (stp_designated_root s) (root_path_cost s) (bridge_id s) (u16 (port_id p)) age
    (u16 (max_age (now s))) (u16 (hello_time (now s))) (u16 (forward_delay (now s))).

Definition stp_transmit_config (i : nat) : Br unit :=
  s <- whole;; p <- port_at i;;
  let root := stp_is_root_bridge s in
  match root, root_port s with
  | false, None => pret tt
  | _, r =>
      if active (hold_timer p) then upd_port i (fun p => set_pending (topology_change_ack p) true p)
      else
        age <- match root, r with
               | true, _ => pret 0
               | false, Some r => q <- port_at r;; a <- plift (int (value (message_age_timer q) + MESSAGE_AGE_INCREMENT));; pret (u16 a)
               | false, None => pfail
               end;;
        pwhen (age <? max_age (now s))
          (upd_port i (set_pending false false);;;
           stp_send_bpdu i (config_bytes (config_of s p age));;;
           upd_port i (set_hold (stp_start_timer 0)))
  end.

Definition stp_supersedes_port_info (s : stp) (p : stp_port) (c : stp_config_bpdu) : bool :=
  if negb (root_id c =? designated_root p) then root_id c <? designated_root p
  else if negb (c_root_path_cost c =? u32 (designated_cost p)) then c_root_path_cost c <? u32 (designated_cost p)
  else if negb (c_bridge_id c =? designated_bridge p) then c_bridge_id c <? designated_bridge p
  else negb (c_bridge_id c =? bridge_id s) || (c_port_id c <=? designated_port p).

Definition stp_record_config_information (i : nat) (c : stp_config_bpdu) : Br unit :=
  upd_port i (fun p => set_age (stp_start_timer (message_age c))
    (set_designated (root_id c) (signed 32 (c_root_path_cost c)) (c_bridge_id c) (c_port_id c) p)).

Definition stp_record_config_timeout_values (c : stp_config_bpdu) : Br unit :=
  pmod (fun s => set_change (topology_change_detected s) (has_flag (flags c) STP_CONFIG_TOPOLOGY_CHANGE)
    (set_times (Times (c_max_age c) (c_hello_time c) (c_forward_delay c)) (bridge s) (rq s) s)).

Definition stp_config_bpdu_generation : Br unit :=
  for_each (fun i => s <- whole;; p <- port_at i;; pwhen (stp_is_designated_port s p) (stp_transmit_config i)).

Definition stp_transmit_tcn : Br unit :=
  r <- pget root_port;;
  match r with None => pret tt | Some r => stp_send_bpdu r (bpdu_header STP_TYPE_TCN) end.

Definition stp_supersedes_root (root p : stp_port) : option bool :=
  p_cost ← int (designated_cost p + path_cost p);
  root_cost ← int (designated_cost root + path_cost root);
  Some (if negb (designated_root p =? designated_root root) then designated_root p <? designated_root root
        else if negb (p_cost =? root_cost) then p_cost <? root_cost
        else if negb (designated_bridge p =? designated_bridge root) then designated_bridge p <? designated_bridge root
        else if negb (designated_port p =? designated_port root) then designated_port p <? designated_port root
        else port_id p <? port_id root).

(** The loop of [stp_root_selection] over the enabled ports. *)
Fixpoint root_loop (l : list nat) (root : option nat) : Br (option nat) :=
  match l with
  | [] => pret root
  | i :: l =>
      s <- whole;; p <- port_at i;;
      if (state p =? STP_DISABLED) || stp_is_designated_port s p || (bridge_id s <=? designated_root p) then root_loop l root
      else match root with
           | None => root_loop l (Some i)
           | Some r => q <- port_at r;; better <- plift (stp_supersedes_root q p);; root_loop l (if better : bool then Some i else Some r)
           end
  end.
Definition stp_root_selection : Br unit :=
  root <- root_loop all_ports None;;
  match root with
  | None => pmod (fun s => set_root (bridge_id s) 0 None s)
  | Some r => p <- port_at r;; cost <- plift (int (designated_cost p + path_cost p));; pmod (set_root (designated_root p) (u32 cost) (Some r))
  end.

Definition stp_become_designated_port (i : nat) : Br unit :=
  s <- whole;;
  upd_port i (fun p => set_designated (stp_designated_root s) (signed 32 (root_path_cost s)) (bridge_id s) (port_id p) p).

(** The condition of [stp_designated_port_selection]. *)
Definition should_designate (s : stp) (p : stp_port) : bool :=
  stp_is_designated_port s p || negb (designated_root p =? stp_designated_root s) || (root_path_cost s <? u32 (designated_cost p)) ||
  ((root_path_cost s =? u32 (designated_cost p)) &&
   ((bridge_id s <? designated_bridge p) || ((bridge_id s =? designated_bridge p) && (port_id p <=? designated_port p)))).
Definition stp_designated_port_selection : Br unit :=
  for_each (fun i => s <- whole;; p <- port_at i;; pwhen (should_designate s p) (stp_become_designated_port i)).

Definition stp_configuration_update : Br unit := stp_root_selection;;; stp_designated_port_selection.

Definition stp_set_port_state (i : nat) (st : Z) : Br unit :=
  p <- port_at i;;
  if negb (st =? state p) && negb (state_changed p) then
    upd_port i (set_state st true);;; pmod (fun s => if (i <? first_changed_port s)%nat then set_first i s else s)
  else upd_port i (set_state st (state_changed p)).

Definition stp_topology_change_detection : Br unit :=
  s <- whole;;
  (if stp_is_root_bridge s then
     pmod (fun s => set_change (topology_change_detected s) true s);;; with_change_timer (stp_start_timer 0)
   else pwhen (negb (topology_change_detected s)) (stp_transmit_tcn;;; with_tcn (stp_start_timer 0)));;;
  pmod (fun s => set_change true (topology_change s) s).

Definition stp_topology_change_acknowledged : Br unit :=
  pmod (fun s => set_change false (topology_change s) s);;; stop_tcn.

Definition stp_make_forwarding (i : nat) : Br unit :=
  p <- port_at i;;
  pwhen (state p =? STP_BLOCKING) (stp_set_port_state i STP_LISTENING;;; upd_port i (set_delay (stp_start_timer 0))).

Definition stp_make_blocking (i : nat) : Br unit :=
  p <- port_at i;;
  pwhen (Z.land (state p) (Z.lor STP_DISABLED STP_BLOCKING) =? 0)
    (pwhen (negb (Z.land (state p) (Z.lor STP_FORWARDING STP_LEARNING) =? 0) && change_detection_enabled p) stp_topology_change_detection;;;
     stp_set_port_state i STP_BLOCKING;;;
     upd_port i (fun p => set_delay (stp_stop_timer (forward_delay_timer p)) p)).

Definition stp_port_state_selection : Br unit :=
  for_each (fun i =>
    s <- whole;; p <- port_at i;;
    if bool_decide (root_port s = Some i) then upd_port i (set_pending false false);;; stp_make_forwarding i
    else if stp_is_designated_port s p then
      upd_port i (fun p => set_age (stp_stop_timer (message_age_timer p)) p);;; stp_make_forwarding i
    else upd_port i (set_pending false false);;; stp_make_blocking i).

Definition stp_acknowledge_topology_change (i : nat) : Br unit :=
  upd_port i (fun p => set_pending true (config_pending p) p);;; stp_transmit_config i.

(** The values of a root bridge. *)
Definition use_bridge_times : Br unit := pmod (fun s => set_times (bridge s) (bridge s) (rq s) s).

Definition stp_become_root_bridge : Br unit :=
  use_bridge_times;;; stp_topology_change_detection;;; stop_tcn;;; stp_config_bpdu_generation;;; with_hello (stp_start_timer 0).

(** * Received BPDUs *)

Definition stp_received_config_bpdu (i : nat) (c : stp_config_bpdu) : Br unit :=
  if c_max_age c <=? message_age c then pret tt
  else
    s <- whole;; p <- port_at i;;
    pwhen (negb (state p =? STP_DISABLED))
      (let root := stp_is_root_bridge s in
       if stp_supersedes_port_info s p c then
         stp_record_config_information i c;;;
         stp_configuration_update;;; stp_port_state_selection;;;
         s <- whole;;
         pwhen (negb (stp_is_root_bridge s) && root)
           (with_hello (stp_stop_timer (hello_timer s));;;
            pwhen (topology_change_detected s)
              (with_change_timer (stp_stop_timer (topology_change_timer s));;; stp_transmit_tcn;;; with_tcn (stp_start_timer 0)));;;
         r <- pget root_port;;
         pwhen (bool_decide (r = Some i))
           (stp_record_config_timeout_values c;;; stp_config_bpdu_generation;;;
            pwhen (has_flag (flags c) STP_CONFIG_TOPOLOGY_CHANGE_ACK) stp_topology_change_acknowledged)
       else pwhen (stp_is_designated_port s p) (stp_transmit_config i)).

Definition stp_received_tcn_bpdu (i : nat) : Br unit :=
  s <- whole;; p <- port_at i;;
  pwhen (negb (state p =? STP_DISABLED) && stp_is_designated_port s p)
    (stp_topology_change_detection;;; stp_acknowledge_topology_change i).

Definition stp_received_bpdu (i : nat) (m : list Z) : Br unit :=
  p <- port_at i;;
  if (state p =? STP_DISABLED) || (length m <? 4)%nat || negb (be_load (slice 0 2 m) =? 0) then pret tt
  else
    let type := nth 3 m 0 in
    if type =? STP_TYPE_CONFIG then pwhen (negb (length m <? 35)%nat) (stp_received_config_bpdu i (read_config m))
    else if type =? STP_TYPE_TCN then pwhen (length m =? 4)%nat (stp_received_tcn_bpdu i)
    else pret tt.

(** * Timers *)

Definition stp_hello_timer_expiry : Br unit := stp_config_bpdu_generation;;; with_hello (stp_start_timer 0).

Definition stp_message_age_timer_expiry (i : nat) : Br unit :=
  root <- pget stp_is_root_bridge;;
  stp_become_designated_port i;;; stp_configuration_update;;; stp_port_state_selection;;;
  root' <- pget stp_is_root_bridge;;
  pwhen (root' && negb root) stp_become_root_bridge.

Definition stp_is_designated_for_some_port (s : stp) : bool :=
  existsb (fun p => negb (state p =? STP_DISABLED) && (designated_bridge p =? bridge_id s)) (ports s).

Definition stp_forward_delay_timer_expiry (i : nat) : Br unit :=
  p <- port_at i;;
  if state p =? STP_LISTENING then stp_set_port_state i STP_LEARNING;;; upd_port i (set_delay (stp_start_timer 0))
  else if state p =? STP_LEARNING then
    stp_set_port_state i STP_FORWARDING;;;
    s <- whole;;
    pwhen (stp_is_designated_for_some_port s && change_detection_enabled p) stp_topology_change_detection
  else pret tt.

Definition stp_tcn_timer_expiry : Br unit := stp_transmit_tcn;;; with_tcn (stp_start_timer 0).
Definition stp_topology_change_timer_expiry : Br unit := pmod (set_change false false).
Definition stp_hold_timer_expiry (i : nat) : Br unit := p <- port_at i;; pwhen (config_pending p) (stp_transmit_config i).

Definition stp_timer_expired (t : stp_timer) (elapsed timeout : Z) : option (stp_timer * bool) :=
  if active t then v ← int (value t + elapsed); Some (if timeout <=? v then (Timer false v, true) else (Timer true v, false))
  else Some (t, false).

Definition clamp (x min max : Z) : Z := if x <? min then min else if max <? x then max else x.
Definition ms_to_timer (ms : Z) : option Z := x ← int (ms * 0x100); Some (Z.quot x 1000).
Definition ms_to_timer_remainder (ms : Z) : option Z := x ← int (ms * 0x100); Some (Z.rem x 1000).
Definition timer_to_ms (t : Z) : option Z := x ← int (t * 1000); Some (Z.quot x 0x100).

(** The timer of a port runs on, and does something when it expires. *)
Definition run_port_timer (i : nat) (t : stp_port -> stp_timer) (set : stp_timer -> stp_port -> stp_port) (elapsed timeout : Z) (expiry : Br unit) : Br unit :=
  p <- port_at i;;
  r <- plift (stp_timer_expired (t p) elapsed timeout);;
  upd_port i (set (fst r));;; pwhen (snd r) expiry.

Definition age_ports (elapsed : Z) : Br unit :=
  for_each (fun i =>
    s <- whole;; run_port_timer i message_age_timer set_age elapsed (max_age (now s)) (stp_message_age_timer_expiry i)).
Definition delay_ports (elapsed : Z) : Br unit :=
  for_each (fun i =>
    s <- whole;;
    run_port_timer i forward_delay_timer set_delay elapsed (forward_delay (now s)) (stp_forward_delay_timer_expiry i);;;
    run_port_timer i hold_timer set_hold elapsed 256 (stp_hold_timer_expiry i)).

(** All timers, when some ticks have gone by. *)
Definition run_timers (elapsed : Z) : Br unit :=
  s <- whole;;
  r <- plift (stp_timer_expired (hello_timer s) elapsed (hello_time (now s)));;
  with_hello (fst r);;; pwhen (snd r) stp_hello_timer_expiry;;;
  s <- whole;;
  r <- plift (stp_timer_expired (tcn_timer s) elapsed (hello_time (bridge s)));;
  with_tcn (fst r);;; pwhen (snd r) stp_tcn_timer_expiry;;;
  s <- whole;;
  r <- plift (stp_timer_expired (topology_change_timer s) elapsed (max_age (now s) + forward_delay (now s)));;
  with_change_timer (fst r);;; pwhen (snd r) stp_topology_change_timer_expiry;;;
  age_ports elapsed;;; delay_ports elapsed.

Definition stp_tick (ms : Z) : Br unit :=
  rem <- pget elapsed_remainder;;
  ms <- plift (int (clamp ms 0 (INT_MAX - 1000) + rem));;
  elapsed <- plift (ms_to_timer ms);;
  rem <- plift (ms_to_timer_remainder ms);;
  pmod (set_remainder rem);;;
  if elapsed =? 0 then pret tt else run_timers elapsed.

(** * Configuration *)

Definition bridge_times (r : times) : option times :=
  let ht := clamp (hello_time r) 1000 10000 in
  let ma := clamp (max_age r) (Z.max (2 * (ht + 1000)) 6000) 40000 in
  let fd := clamp (forward_delay r) (Z.quot ma 2 + 1000) 30000 in
  h ← ms_to_timer ht; m ← ms_to_timer ma; f ← ms_to_timer fd; Some (Times m h f).
Definition stp_update_bridge_timers : Br unit :=
  s <- whole;;
  b <- plift (bridge_times (rq s));;
  pmod (set_times (if stp_is_root_bridge s then b else now s) b (rq s)).

Definition request (f : times -> times) : Br unit := pmod (fun s => set_times (now s) (bridge s) (f (rq s)) s);;; stp_update_bridge_timers.
Definition stp_set_hello_time (ms : Z) : Br unit := request (fun t => Times (max_age t) ms (forward_delay t)).
Definition stp_set_max_age (ms : Z) : Br unit := request (fun t => Times ms (hello_time t) (forward_delay t)).
Definition stp_set_forward_delay (ms : Z) : Br unit := request (fun t => Times (max_age t) (hello_time t) ms).

Definition set_bridge_id (new : Z) : Br unit :=
  s <- whole;;
  pwhen (negb (new =? bridge_id s))
    (for_each (fun i => s <- whole;; p <- port_at i;;
       pwhen (stp_is_designated_port s p)
         (upd_port i (fun p => set_designated (designated_root p) (designated_cost p) new (designated_port p) p)));;;
     pmod (set_bridge new);;; stp_configuration_update;;; stp_port_state_selection;;;
     root' <- pget stp_is_root_bridge;;
     pwhen (root' && negb (stp_is_root_bridge s)) stp_become_root_bridge).
Definition mac_bits : Z := 2 ^ 48 - 1.
Definition stp_set_bridge_id (id : Z) : Br unit :=
  s <- pget bridge_id;; set_bridge_id (Z.lor (Z.land s (u64 (Z.lnot mac_bits))) (Z.land id mac_bits)).
Definition stp_set_bridge_priority (pri : Z) : Br unit :=
  s <- pget bridge_id;; set_bridge_id (Z.lor (Z.land s mac_bits) (Z.shiftl pri 48)).

Definition stp_initialize_port (i : nat) (st : Z) : Br unit :=
  stp_become_designated_port i;;; stp_set_port_state i st;;;
  upd_port i (fun p => set_timers (stp_stop_timer (message_age_timer p)) (stp_stop_timer (forward_delay_timer p)) (stp_stop_timer (hold_timer p))
    (set_detection true (set_pending false false p))).

Definition stp_port_disable (i : nat) : Br unit :=
  p <- port_at i;;
  pwhen (negb (state p =? STP_DISABLED))
    (root <- pget stp_is_root_bridge;;
     stp_become_designated_port i;;; stp_set_port_state i STP_DISABLED;;;
     upd_port i (fun p => set_timers (stp_stop_timer (message_age_timer p)) (stp_stop_timer (forward_delay_timer p)) (hold_timer p)
       (set_pending false false p));;;
     stp_configuration_update;;; stp_port_state_selection;;;
     root' <- pget stp_is_root_bridge;;
     pwhen (root' && negb root) stp_become_root_bridge).

Definition stp_port_enable (i : nat) : Br unit :=
  p <- port_at i;;
  pwhen (state p =? STP_DISABLED) (stp_initialize_port i STP_BLOCKING;;; stp_port_state_selection).

(** A port with a new identifier: a designated port stays designated. *)
Definition reprioritized (s : stp) (new : Z) (p : stp_port) : stp_port :=
  set_port_id new (if stp_is_designated_port s p then set_designated (designated_root p) (designated_cost p) (designated_bridge p) new p else p).
Definition stp_port_set_priority (i : nat) (pri : Z) : Br unit :=
  s <- whole;; p <- port_at i;;
  let new := u16 (Z.lor (Z.land (port_id p) 0xff) (Z.shiftl pri 8)) in
  pwhen (negb (port_id p =? new))
    (upd_port i (reprioritized s new);;;
     p <- port_at i;;
     pwhen ((bridge_id s =? designated_bridge p) && (port_id p <? designated_port p))
       (stp_become_designated_port i;;; stp_port_state_selection)).

Definition stp_port_set_path_cost (i : nat) (cost : Z) : Br unit :=
  p <- port_at i;;
  pwhen (negb (path_cost p =? cost)) (upd_port i (set_path_cost cost);;; stp_configuration_update;;; stp_port_state_selection).

Definition stp_port_set_speed (i : nat) (speed : Z) : Br unit :=
  stp_port_set_path_cost i
    (if 10000 <=? speed then 2 else if 1000 <=? speed then 4 else if 100 <=? speed then 19 else if 16 <=? speed then 62
     else if 10 <=? speed then 100 else if 4 <=? speed then 250 else 19).

Definition stp_port_enable_change_detection (i : nat) : Br unit := upd_port i (set_detection true).
Definition stp_port_disable_change_detection (i : nat) : Br unit := upd_port i (set_detection false).

(** The search of [stp_get_changed_port] from a port on. *)
Definition stp_get_changed_port : Br (option nat) :=
  first <- pget first_changed_port;;
  l <- pget ports;;
  match list_find (fun p => state_changed p = true) (drop first l) with
  | Some (k, p) =>
      upd_port (first + k) (set_state (state p) false);;; pmod (set_first (S (first + k)));;; pret (Some (first + k)%nat)
  | None => pmod (set_first STP_MAX_PORTS);;; pret None
  end.

(** ** A new bridge *)

(** Memory as [xcalloc] gives it. *)
Definition zero_timer : stp_timer := Timer false 0.
Definition zero_port : stp_port := Port 0 0 0 0 0 0 0 false false false zero_timer zero_timer zero_timer false.
Definition zero_stp : stp :=
  Stp 0 (Times 0 0 0) (Times 0 0 0) (Times 0 0 0) 0 0 0 None false false zero_timer zero_timer zero_timer (replicate STP_MAX_PORTS zero_port) 0 [].

Definition init_port (i : nat) : Br unit :=
  upd_port i (fun p => set_path_cost 19 (set_port_id (Z.lor (Z.of_nat i + 1) (Z.shiftl STP_DEFAULT_PORT_PRIORITY 8)) p));;;
  stp_initialize_port i STP_DISABLED.
Fixpoint new_ports (l : list nat) : Br unit :=
  match l with
  | [] => pret tt
  | i :: l => init_port i;;; new_ports l
  end.

(** The fields of the bridge, then the ports. *)
Definition new_bridge (id : Z) : Br unit :=
  pmod (set_bridge id);;;
  pmod (fun s => set_times (now s) (bridge s) (Times 6000 2000 4000) s);;;
  stp_update_bridge_timers;;; use_bridge_times;;;
  pmod (set_root id 0 None);;; pmod (set_change false false);;;
  stop_tcn;;; pmod (fun s => set_bridge_timers (hello_timer s) (tcn_timer s) (stp_stop_timer (topology_change_timer s)) s);;;
  with_hello (stp_start_timer 0);;;
  pmod (set_first STP_MAX_PORTS).
(** The identifier of a bridge always has a priority. *)
Definition full_id (id : Z) : Z := if Z.shiftr id 48 =? 0 then Z.lor id (Z.shiftl STP_DEFAULT_BRIDGE_PRIORITY 48) else id.
Definition stp_create (id : Z) : option stp := snd <$> (new_bridge (full_id id);;; new_ports all_ports) zero_stp.

(** [stp_forward_in_state] and [stp_learn_in_state] *)
Definition stp_forward_in_state (st : Z) : bool := negb (Z.land st (Z.lor STP_DISABLED STP_FORWARDING) =? 0).
Definition stp_learn_in_state (st : Z) : bool := negb (Z.land st (Z.lor STP_DISABLED (Z.lor STP_LEARNING STP_FORWARDING)) =? 0).

(** * Loops *)

Lemma port_at_spec i s p : ports s !! i = Some p -> port_at i s = Some (p, s).
Proof. intros E. unfold port_at, pbind, pget, plift. by rewrite E. Qed.

Lemma set_ports_same s : set_ports (ports s) s = s.
Proof. by destruct s. Qed.
Lemma set_ports_twice l l' s : set_ports l (set_ports l' s) = set_ports l s.
Proof. done. Qed.

Lemma int_some z : - 2 ^ 31 <= z < 2 ^ 31 -> int z = Some z.
Proof. intros Hz. unfold int, int_ok. by rewrite (proj2 (Z.leb_le _ _)), (proj2 (Z.ltb_lt _ _)) by lia. Qed.
Lemma int_inv z y : int z = Some y -> y = z /\ - 2 ^ 31 <= z < 2 ^ 31.
Proof. unfold int, int_ok. destruct (Z.leb_spec (- 2 ^ 31) z), (Z.ltb_spec z (2 ^ 31)); cbn [andb]; intros [= <-]. lia. Qed.

Lemma alter_to {A} (f g : A -> A) i (l : list A) x : l !! i = Some x -> f x = g x -> alter f i l = alter g i l.
Proof.
  intros Hx E. apply list_eq. intros j. destruct (decide (i = j)) as [<- | Hne]; [| by rewrite !list_lookup_alter_ne].
  by rewrite !list_lookup_alter_eq, Hx; cbn; rewrite E.
Qed.
Lemma alter_same {A} (f : A -> A) i (l : list A) x : l !! i = Some x -> f x = x -> alter f i l = l.
Proof. intros Hx E. rewrite (alter_to f id i l x Hx E). by apply list_alter_id. Qed.

(** A loop that changes each enabled port by itself. *)
Definition each_enabled (g : stp_port -> stp_port) (l : list stp_port) : list stp_port :=
  map (fun p => if state p =? STP_DISABLED then p else g p) l.

Lemma for_each_map_from body (g : stp -> stp_port -> stp_port) n : forall k s,
  (forall i s p, ports s !! i = Some p -> state p <> STP_DISABLED -> body i s = Some (tt, set_ports (alter (g s) i (ports s)) s)) ->
  (forall l s p, g (set_ports l s) p = g s p) ->
  length (ports s) = (k + n)%nat ->
  for_each_enabled_port body (seq k n) s = Some (tt, set_ports (take k (ports s) ++ each_enabled (g s) (drop k (ports s))) s).
Proof.
  induction n as [| n IH]; intros k s Hb Hg Hl; cbn [seq for_each_enabled_port].
  { rewrite drop_ge, app_nil_r, take_ge by lia. unfold pret. by rewrite set_ports_same. }
  destruct (lookup_lt_is_Some_2 (ports s) k) as [p Hp]; [lia |]. unfold pbind at 1. rewrite (port_at_spec _ _ _ Hp).
  rewrite (drop_S _ p k Hp). unfold each_enabled at 1. cbn [map].
  destruct (Z.eqb_spec (state p) STP_DISABLED) as [Ed | Ed]; cbn [negb pwhen].
  - unfold pbind, pret. rewrite IH by (done || lia). do 3 f_equal.
    rewrite (take_S_r _ _ _ Hp), <- app_assoc. done.
  - unfold pbind. rewrite (Hb _ _ _ Hp Ed). rewrite IH; [| done | done | cbn; rewrite length_alter; lia].
    cbn [ports set_ports]. rewrite set_ports_twice. do 3 f_equal.
    rewrite drop_alter, decide_False by lia. rewrite (take_S_r _ _ (g s p)) by (by rewrite list_lookup_alter_eq, Hp).
    rewrite take_alter_ge by lia. rewrite <- app_assoc. do 2 f_equal. unfold each_enabled. apply map_ext. intros q. by rewrite Hg.
Qed.

Lemma for_each_map body (g : stp -> stp_port -> stp_port) s :
  (forall i s p, ports s !! i = Some p -> state p <> STP_DISABLED -> body i s = Some (tt, set_ports (alter (g s) i (ports s)) s)) ->
  (forall l s p, g (set_ports l s) p = g s p) ->
  length (ports s) = STP_MAX_PORTS ->
  for_each body s = Some (tt, set_ports (each_enabled (g s) (ports s)) s).
Proof. intros Hb Hg Hl. unfold all_ports. by rewrite (for_each_map_from body g STP_MAX_PORTS 0 s Hb Hg Hl). Qed.

(** The designated information of a port of which this bridge is the designated one. *)
Definition designate (s : stp) (p : stp_port) : stp_port :=
  set_designated (stp_designated_root s) (signed 32 (root_path_cost s)) (bridge_id s) (port_id p) p.

Lemma designated_selection_spec s :
  length (ports s) = STP_MAX_PORTS ->
  stp_designated_port_selection s =
  Some (tt, set_ports (each_enabled (fun p => if should_designate s p then designate s p else p) (ports s)) s).
Proof.
  intros Hl. unfold stp_designated_port_selection.
  refine (for_each_map _ (fun s p => if should_designate s p then designate s p else p) s _ (fun _ _ _ => eq_refl) Hl).
  intros i t p Hp _. unfold pbind, whole. rewrite (port_at_spec _ _ _ Hp). unfold pwhen.
  destruct (should_designate t p) eqn:E.
  - unfold stp_become_designated_port, pbind, whole, upd_port, pmod. do 3 f_equal. apply (alter_to _ _ _ _ p Hp). by rewrite E.
  - unfold pret. rewrite (alter_same _ _ _ p Hp) by (by rewrite E). by rewrite set_ports_same.
Qed.

(** * The choice of the root port *)

(** The order of the standard on what ports say about the root: lexicographic, less is better. *)
Fixpoint lex_lt (a b : list Z) : bool :=
  match a, b with
  | x :: a, y :: b => if x =? y then lex_lt a b else x <? y
  | _, _ => false
  end.
Lemma lex_irrefl a : lex_lt a a = false.
Proof. induction a as [| x a IH]; [done |]. cbn. by rewrite Z.eqb_refl. Qed.
Lemma lex_trans a : forall b c, lex_lt a b = true -> lex_lt b c = true -> lex_lt a c = true.
Proof.
  induction a as [| x a IH]; intros [| y b] [| z c]; cbn; try done.
  destruct (Z.eqb_spec x y) as [-> | Hxy].
  - destruct (Z.eqb_spec y z); [apply IH | done].
  - destruct (Z.eqb_spec y z) as [-> | Hyz].
    + intros Hlt _. destruct (Z.eqb_spec x z); [lia | done].
    + intros. destruct (Z.eqb_spec x z); lia.
Qed.
Lemma lex_total a : forall b, length a = length b -> lex_lt a b = false -> lex_lt b a = false -> a = b.
Proof.
  induction a as [| x a IH]; intros [| y b]; cbn; try done. intros [= Hl]. rewrite (Z.eqb_sym y x).
  destruct (Z.eqb_spec x y) as [-> | Hxy]; [| lia]. intros. f_equal. auto.
Qed.
(** What is not worse than something that is not worse. *)
Lemma lex_le_trans a b c : length a = length b -> length b = length c -> lex_lt b a = false -> lex_lt c b = false -> lex_lt c a = false.
Proof.
  intros H1 H2 Hba Hcb. destruct (lex_lt c a) eqn:E; [| done].
  destruct (lex_lt a b) eqn:Eab; [by rewrite (lex_trans c a b E Eab) in Hcb |].
  rewrite (lex_total b a) in Hcb; [congruence | done | done | done].
Qed.

Definition vector (p : stp_port) : list Z :=
  [designated_root p; designated_cost p + path_cost p; designated_bridge p; designated_port p; port_id p].

(** The ports that may become the root port. *)
Definition candidate (s : stp) (p : stp_port) : bool :=
  negb (state p =? STP_DISABLED) && negb (stp_is_designated_port s p) && (designated_root p <? bridge_id s).
Definition cost_ok (p : stp_port) : Prop := - 2 ^ 31 <= designated_cost p + path_cost p < 2 ^ 31.

Lemma supersedes_spec q p : cost_ok q -> cost_ok p -> stp_supersedes_root q p = Some (lex_lt (vector p) (vector q)).
Proof.
  intros Hq Hp. unfold stp_supersedes_root. rewrite (int_some _ Hp), (int_some _ Hq). cbn -[Z.eqb Z.ltb Z.add].
  repeat match goal with |- context [negb (?x =? ?y)] => destruct (Z.eqb_spec x y); cbn [negb]; try done end.
  f_equal. destruct (Z.ltb_spec (port_id p) (port_id q)), (Z.eqb_spec (port_id p) (port_id q)); try done; lia.
Qed.

(** [r] is the best of the candidates among the ports [l] and the port [root]. *)
Definition best_of (s : stp) (l : list nat) (root r : option nat) : Prop :=
  match r with
  | None => root = None /\ forall i p, i ∈ l -> ports s !! i = Some p -> candidate s p = false
  | Some r =>
      (root = Some r \/ r ∈ l) /\ exists p, ports s !! r = Some p /\ candidate s p = true /\
        forall i q, i ∈ l \/ root = Some i -> ports s !! i = Some q -> candidate s q = true -> lex_lt (vector q) (vector p) = false
  end.

Lemma best_skip s i p l root r : ports s !! i = Some p -> candidate s p = false -> best_of s l root r -> best_of s (i :: l) root r.
Proof.
  intros Hp Hc. destruct r as [r |]; cbn [best_of].
  - intros (Hr & q & Hq & Hcq & Hb). split; [set_solver |]. exists q. split_and!; [done | done |]. intros j qj Hj Hlj Hcj.
    apply (Hb j qj); [| done | done]. destruct Hj as [[-> | Hj]%elem_of_cons | Hj]; [congruence | by left | by right].
  - intros (-> & Hn). split; [done |]. intros j pj [-> | Hj]%elem_of_cons Hpj; [congruence | eauto].
Qed.

Lemma best_take s i p l root r :
  ports s !! i = Some p -> candidate s p = true ->
  (forall k q, root = Some k -> ports s !! k = Some q -> lex_lt (vector q) (vector p) = false) ->
  best_of s l (Some i) r -> best_of s (i :: l) root r.
Proof.
  intros Hp Hc Hroot. destruct r as [r |]; cbn [best_of]; [| intros []; done].
  intros (Hr & q & Hq & Hcq & Hb). split; [set_solver |]. exists q. split_and!; [done | done |]. intros j qj Hj Hlj Hcj.
  assert (Hi : lex_lt (vector p) (vector q) = false) by (apply (Hb i p); auto).
  destruct Hj as [[-> | Hj]%elem_of_cons | Hj]; [by simplify_eq | by apply (Hb j qj); auto |].
  apply (lex_le_trans (vector q) (vector p) (vector qj)); [done | done | done | by apply (Hroot j)].
Qed.

Lemma best_keep s i p l k q r :
  ports s !! i = Some p -> ports s !! k = Some q -> lex_lt (vector p) (vector q) = false -> candidate s q = true ->
  best_of s l (Some k) r -> best_of s (i :: l) (Some k) r.
Proof.
  intros Hp Hk Hlt Hc. destruct r as [r |]; cbn [best_of]; [| intros []; done].
  intros (Hr & p' & Hp' & Hcp & Hb). split; [set_solver |]. exists p'. split_and!; [done | done |]. intros j qj Hj Hlj Hcj.
  assert (Hq : lex_lt (vector q) (vector p') = false) by (apply (Hb k q); auto).
  destruct Hj as [[-> | Hj]%elem_of_cons | Hj]; [| by apply (Hb j qj); auto | by apply (Hb j qj); auto].
  rewrite Hp in Hlj. injection Hlj as <-. by apply (lex_le_trans (vector p') (vector q) (vector p)).
Qed.

Lemma root_loop_spec s l : forall root,
  (forall i, i ∈ l -> is_Some (ports s !! i)) ->
  (forall i p, ports s !! i = Some p -> candidate s p = true -> cost_ok p) ->
  (forall k, root = Some k -> exists q, ports s !! k = Some q /\ candidate s q = true) ->
  exists r, root_loop l root s = Some (r, s) /\ best_of s l root r.
Proof.
  induction l as [| i l IH]; intros root Hl Hc Hroot; cbn [root_loop].
  { exists root. split; [done |]. destruct root as [k |]; cbn [best_of].
    - destruct (Hroot k eq_refl) as (q & Hq & Hcq). split; [by left |]. exists q. split_and!; [done | done |]. intros j qj [?%elem_of_nil | [= <-]] Hj _; [done |].
      rewrite Hq in Hj. injection Hj as <-. apply lex_irrefl.
    - split; [done |]. by intros ?? ?%elem_of_nil. }
  destruct (Hl i) as [p Hp]; [set_solver |]. unfold pbind at 1, whole. unfold pbind at 1. rewrite (port_at_spec _ _ _ Hp).
  assert (Ec : (state p =? STP_DISABLED) || stp_is_designated_port s p || (bridge_id s <=? designated_root p) = negb (candidate s p)).
  { unfold candidate. rewrite !negb_andb, !negb_involutive. do 2 f_equal. destruct (Z.leb_spec (bridge_id s) (designated_root p)), (Z.ltb_spec (designated_root p) (bridge_id s)); (done || lia). }
  rewrite Ec. destruct (candidate s p) eqn:Hcp; cbn [negb].
  - destruct root as [k |].
    + destruct (Hroot k eq_refl) as (q & Hq & Hcq). unfold pbind. rewrite (port_at_spec _ _ _ Hq).
      rewrite supersedes_spec by eauto. unfold plift. destruct (lex_lt (vector p) (vector q)) eqn:Elt.
      * destruct (IH (Some i)) as (r & -> & Hb); [set_solver | done | by intros ? [= <-]; eauto |]. exists r. split; [done |].
        apply (best_take s i p); [done | done | | done]. intros k' q' [= <-] Hq'. rewrite Hq in Hq'. injection Hq' as <-.
        destruct (lex_lt (vector q) (vector p)) eqn:E2; [| done]. pose proof (lex_trans _ _ _ Elt E2) as E3. by rewrite lex_irrefl in E3.
      * destruct (IH (Some k)) as (r & -> & Hb); [set_solver | done | by intros ? [= <-]; eauto |]. exists r. split; [done |].
        by apply (best_keep s i p l k q).
    + destruct (IH (Some i)) as (r & -> & Hb); [set_solver | done | by intros ? [= <-]; eauto |]. exists r. split; [done |].
      by apply (best_take s i p).
  - destruct (IH root) as (r & -> & Hb); [set_solver | done | done |]. exists r. split; [done |]. by apply (best_skip s i p).
Qed.

(** What a choice of the root port makes the root and the cost of the bridge. *)
Definition root_info (s : stp) (r : option nat) : Z * Z :=
  match r ≫= (fun i => ports s !! i) with
  | Some p => (designated_root p, designated_cost p + path_cost p)
  | None => (bridge_id s, 0)
  end.
Definition rooted_at (s : stp) (r : option nat) : stp := set_root (fst (root_info s r)) (u32 (snd (root_info s r))) r s.
Definition redesignated (s : stp) : stp := set_ports (each_enabled (fun p => if should_designate s p then designate s p else p) (ports s)) s.

Lemma all_ports_in s i : length (ports s) = STP_MAX_PORTS -> i ∈ all_ports -> is_Some (ports s !! i).
Proof. intros Hl Hi. apply elem_of_seq in Hi. apply lookup_lt_is_Some_2. rewrite Hl. lia. Qed.

Lemma configuration_update_spec s :
  length (ports s) = STP_MAX_PORTS ->
  (forall i p, ports s !! i = Some p -> candidate s p = true -> cost_ok p) ->
  exists r, best_of s all_ports None r /\ stp_configuration_update s = Some (tt, redesignated (rooted_at s r)).
Proof.
  intros Hl Hc. destruct (root_loop_spec s all_ports None) as (r & E & Hb); [by intros i; apply all_ports_in | done | done |].
  exists r. split; [done |]. unfold stp_configuration_update, stp_root_selection. unfold pbind at 1 2. rewrite E.
  destruct r as [r |].
  - destruct Hb as (_ & p & Hp & Hcp & _). unfold pbind. rewrite (port_at_spec _ _ _ Hp). rewrite (int_some _ (Hc _ _ Hp Hcp)).
    cbn [plift pmod]. assert (Er : set_root (designated_root p) (u32 (designated_cost p + path_cost p)) (Some r) s = rooted_at s (Some r)).
    { unfold rooted_at, root_info. cbn [mbind option_bind]. by rewrite Hp. }
    unfold plift, pmod. rewrite Er. by apply designated_selection_spec.
  - by apply (designated_selection_spec (rooted_at s None)).
Qed.

(** * Invariants *)

Create HintDb stp.
#[local] Hint Resolve keeps_ret keeps_get : stp.

(** The largest path cost that is taken from others. *)
Definition COST_LIMIT : Z := 2 ^ 31 - 2 ^ 17.
Definition timer_ok (t : stp_timer) : Prop := 0 <= value t < 2 ^ 22 /\ (active t = true -> value t < 2 ^ 17).
Definition word (z : Z) : Prop := 0 <= z < 2 ^ 16.
Definition times_ok (t : times) : Prop := word (max_age t) /\ word (hello_time t) /\ word (forward_delay t).
Definition valid_state (st : Z) : Prop := st ∈ [STP_DISABLED; STP_LISTENING; STP_LEARNING; STP_FORWARDING; STP_BLOCKING].

Record port_ok (id : Z) (i : nat) (p : stp_port) : Prop := PortOk {
  po_id : word (port_id p) /\ Z.land (port_id p) 0xff = Z.of_nat i + 1;
  po_state : valid_state (state p);
  po_cost : word (path_cost p);
  po_age : timer_ok (message_age_timer p);
  po_delay : timer_ok (forward_delay_timer p);
  po_hold : timer_ok (hold_timer p);
  po_candidate : state p <> STP_DISABLED -> designated_bridge p <> id \/ designated_port p <> port_id p -> 0 <= designated_cost p <= COST_LIMIT }.

Definition port_ok_somewhere (i : nat) (p : stp_port) : Prop := exists id, port_ok id i p.

Record base (s : stp) : Prop := Base {
  b_ports : length (ports s) = STP_MAX_PORTS;
  b_each : forall i p, ports s !! i = Some p -> port_ok (bridge_id s) i p;
  b_now : times_ok (now s);
  b_bridge : times_ok (bridge s);
  b_rem : 0 <= elapsed_remainder s < 1000;
  b_cost : 0 <= root_path_cost s < 2 ^ 31;
  b_root : forall r, root_port s = Some r -> (r < STP_MAX_PORTS)%nat;
  b_hello : timer_ok (hello_timer s);
  b_tcn : timer_ok (tcn_timer s);
  b_change : timer_ok (topology_change_timer s) }.

Lemma timer_start v : 0 <= v < 2 ^ 17 -> timer_ok (stp_start_timer v).
Proof. unfold timer_ok. cbn. lia. Qed.
Lemma timer_stop t : timer_ok t -> timer_ok (stp_stop_timer t).
Proof. unfold timer_ok. cbn. intros []. split; [done | done]. Qed.
#[local] Hint Resolve timer_stop : stp.
Lemma timer_start0 : timer_ok (stp_start_timer 0).
Proof. apply timer_start. lia. Qed.
#[local] Hint Resolve timer_start0 : stp.

Lemma base_upd_port (i : nat) f s :
  (forall p, ports s !! i = Some p -> port_ok (bridge_id s) i p -> port_ok (bridge_id s) i (f p)) -> base s -> base (set_ports (alter f i (ports s)) s).
Proof.
  intros Hf []. constructor; try done; cbn; [by rewrite length_alter |].
  intros j p Hj. destruct (decide (i = j)) as [<- | Hne]; [| rewrite list_lookup_alter_ne in Hj by done; by apply b_each0].
  rewrite list_lookup_alter_eq in Hj. destruct (ports s !! i) as [q |] eqn:Eq; [| done]. injection Hj as <-. by apply Hf, b_each0.
Qed.

Lemma keeps_upd_port (i : nat) f : (forall id p, port_ok id i p -> port_ok id i (f p)) -> keeps base (upd_port i f).
Proof. intros Hf. apply keeps_mod. intros s. apply base_upd_port. auto. Qed.

Lemma base_send l s : base s -> base (set_sent l s).
Proof. intros []. by constructor. Qed.
Lemma base_change d c s : base s -> base (set_change d c s).
Proof. intros []. by constructor. Qed.
Lemma base_timers h t c s : timer_ok h -> timer_ok t -> timer_ok c -> base s -> base (set_bridge_timers h t c s).
Proof. intros ??? []. by constructor. Qed.
Lemma base_times a b r s : times_ok a -> times_ok b -> base s -> base (set_times a b r s).
Proof. intros ?? []. by constructor. Qed.
Lemma base_first n s : base s -> base (set_first n s).
Proof. intros []. by constructor. Qed.
#[local] Hint Resolve base_send base_change base_timers base_times base_first : stp.

(** Reading: what is read is known where it matters. *)
Lemma total_port {A} i (k : stp_port -> Br A) (P : stp -> Prop) Q :
  (i < STP_MAX_PORTS)%nat -> (forall s, P s -> base s) ->
  (forall p, port_ok_somewhere i p -> total (fun s => P s /\ ports s !! i = Some p) (k p) Q) -> total P (pbind (port_at i) k) Q.
Proof.
  intros Hi HP Hk s Hs. pose proof (HP s Hs) as Hb. destruct (lookup_lt_is_Some_2 (ports s) i) as [p Hp]; [rewrite (b_ports _ Hb); lia |].
  unfold pbind. rewrite (port_at_spec _ _ _ Hp). apply (Hk p); [| done]. exists (bridge_id s). by apply (b_each _ Hb).
Qed.
Lemma total_whole {A} (k : stp -> Br A) (P : stp -> Prop) Q : (forall s0, P s0 -> total (fun s => P s /\ s = s0) (k s0) Q) -> total P (pbind whole k) Q.
Proof. intros Hk s Hs. by apply (Hk s Hs s). Qed.

Lemma keeps_port {A} i (k : stp_port -> Br A) : (i < STP_MAX_PORTS)%nat -> (forall p, port_ok_somewhere i p -> keeps base (k p)) -> keeps base (pbind (port_at i) k).
Proof.
  intros Hi Hk. apply total_port; [done | done |]. intros p Hp. apply (total_conseq _ base _ _ (fun _ => base)); [by intros s [] | done |]. by apply Hk.
Qed.
Lemma keeps_whole {A} (k : stp -> Br A) : (forall s, base s -> keeps base (k s)) -> keeps base (pbind whole k).
Proof. intros Hk s Hs. by apply (Hk s Hs). Qed.
Lemma keeps_lift {A} (x : option A) : is_Some x -> keeps base (plift x).
Proof. intros [y ->] s Hs. by exists y, s. Qed.

(** Goes through the binds and branches of a computation that keeps [base]. *)
Ltac keeps_step :=
  first [ solve [eauto with stp]
        | match goal with |- keeps _ (pbind (port_at _) _) => apply keeps_port; [solve [eauto with stp] | intros ? ?] end
        | match goal with |- keeps _ (pbind whole _) => apply keeps_whole; intros ? ? end
        | match goal with |- keeps _ (pbind _ _) => apply keeps_bind; [| intros ?] end
        | match goal with |- keeps _ (pwhen _ _) => apply keeps_when end
        | match goal with |- keeps _ (match ?x with _ => _ end) => destruct x eqn:? end ].
Ltac keeps_tac := repeat keeps_step.


Lemma keeps_with_hello t : timer_ok t -> keeps base (with_hello t).
Proof. intros Ht. apply keeps_mod. intros s []. by constructor. Qed.
Lemma keeps_with_tcn t : timer_ok t -> keeps base (with_tcn t).
Proof. intros Ht. apply keeps_mod. intros s []. by constructor. Qed.
Lemma keeps_with_change t : timer_ok t -> keeps base (with_change_timer t).
Proof. intros Ht. apply keeps_mod. intros s []. by constructor. Qed.
#[local] Hint Resolve keeps_with_hello keeps_with_tcn keeps_with_change : stp.
Lemma keeps_stop_tcn : keeps base stop_tcn.
Proof. intros s Hs. exists tt. eexists. split; [reflexivity |]. destruct Hs. constructor; try done. by apply timer_stop. Qed.
Lemma keeps_send i m : keeps base (stp_send_bpdu i m).
Proof. apply keeps_mod. eauto with stp. Qed.
Lemma keeps_set_change f g : keeps base (pmod (fun s => set_change (f s) (g s) s)).
Proof. apply keeps_mod. eauto with stp. Qed.
#[local] Hint Resolve keeps_stop_tcn keeps_send keeps_set_change : stp.

(** Changes of a port that keep it in order. *)
Lemma port_ok_pending id i a b p : port_ok id i p -> port_ok id i (set_pending a b p).
Proof. intros []. by constructor. Qed.
Lemma port_ok_timers id i a d h p : timer_ok a -> timer_ok d -> timer_ok h -> port_ok id i p -> port_ok id i (set_timers a d h p).
Proof. intros ??? []. by constructor. Qed.
Lemma port_ok_state id i st c p : valid_state st -> (state p = STP_DISABLED -> st = STP_DISABLED) -> port_ok id i p -> port_ok id i (set_state st c p).
Proof. intros ?? []. constructor; try done. cbn. intros ?. apply po_candidate0. intros E. auto. Qed.
Lemma port_ok_detection id i v p : port_ok id i p -> port_ok id i (set_detection v p).
Proof. intros []. by constructor. Qed.
#[local] Hint Resolve port_ok_pending port_ok_timers port_ok_detection keeps_upd_port po_age po_delay po_hold : stp.

Lemma keeps_transmit_config i : (i < STP_MAX_PORTS)%nat -> keeps base (stp_transmit_config i).
Proof.
  intros Hi. unfold stp_transmit_config. apply keeps_whole. intros s Hs. apply keeps_port; [done |]. intros p _.
  assert (Ha : forall r, root_port s = Some r -> keeps base (q <- port_at r;; a <- plift (int (value (message_age_timer q) + MESSAGE_AGE_INCREMENT));; pret (u16 a))).
  { intros r Hr. apply keeps_port; [by apply (b_root _ Hs) |]. intros q [id Hq]. apply keeps_bind; [| intros; apply keeps_ret]. apply keeps_lift.
    rewrite int_some; [done |]. pose proof (po_age _ _ _ Hq) as [Hv _]. unfold MESSAGE_AGE_INCREMENT. lia. }
  assert (Hsend : forall m, keeps base (upd_port i (set_pending false false);;; stp_send_bpdu i m;;; upd_port i (set_hold (stp_start_timer 0)))).
  { intros m. apply keeps_bind; [eauto with stp |]. intros _. apply keeps_bind; [eauto with stp |]. intros _. apply keeps_upd_port. intros. unfold set_hold. eauto with stp. }
  destruct (stp_is_root_bridge s), (root_port s) as [r |] eqn:Er; keeps_tac.
Qed.
#[local] Hint Resolve keeps_transmit_config : stp.

Lemma keeps_for_each_in body l :
  (forall i, i ∈ l -> (i < STP_MAX_PORTS)%nat) -> (forall i, (i < STP_MAX_PORTS)%nat -> keeps base (body i)) -> keeps base (for_each_enabled_port body l).
Proof.
  intros Hl Hb. induction l as [| i l IH]; cbn [for_each_enabled_port]; [apply keeps_ret |].
  assert (Hi : (i < STP_MAX_PORTS)%nat) by (apply Hl; set_solver). apply keeps_port; [done |]. intros p _.
  apply keeps_bind; [apply keeps_when; auto |]. intros _. apply IH. intros j Hj. apply Hl. set_solver.
Qed.
Lemma all_ports_lt i : i ∈ all_ports -> (i < STP_MAX_PORTS)%nat.
Proof. intros Hi. apply elem_of_seq in Hi. lia. Qed.
Lemma in_all_ports i : (i < STP_MAX_PORTS)%nat -> i ∈ all_ports.
Proof. intros Hi. apply elem_of_seq. lia. Qed.
Lemma keeps_for_each body : (forall i, (i < STP_MAX_PORTS)%nat -> keeps base (body i)) -> keeps base (for_each body).
Proof. apply keeps_for_each_in, all_ports_lt. Qed.

Lemma keeps_config_generation : keeps base stp_config_bpdu_generation.
Proof. unfold stp_config_bpdu_generation. apply keeps_for_each. intros i Hi. keeps_tac. Qed.
Lemma keeps_transmit_tcn : keeps base stp_transmit_tcn.
Proof. unfold stp_transmit_tcn. keeps_tac. Qed.
#[local] Hint Resolve keeps_config_generation keeps_transmit_tcn : stp.
Lemma keeps_detection : keeps base stp_topology_change_detection.
Proof. unfold stp_topology_change_detection. keeps_tac. Qed.
Lemma keeps_acknowledged : keeps base stp_topology_change_acknowledged.
Proof. unfold stp_topology_change_acknowledged. keeps_tac. Qed.
Lemma keeps_use_bridge_times : keeps base use_bridge_times.
Proof. apply keeps_mod. intros s Hs. apply base_times; [apply (b_bridge _ Hs) .. | done]. Qed.
#[local] Hint Resolve keeps_detection keeps_acknowledged keeps_use_bridge_times : stp.
Lemma keeps_become_root : keeps base stp_become_root_bridge.
Proof. unfold stp_become_root_bridge. keeps_tac. Qed.
#[local] Hint Resolve keeps_become_root : stp.

(** The state of a port after [stp_set_port_state]. *)
Definition marked (i : nat) (st : Z) (p : stp_port) (s : stp) : stp :=
  let c := negb (st =? state p) && negb (state_changed p) in
  let s' := set_ports (alter (set_state st (c || state_changed p)) i (ports s)) s in
  if c && (i <? first_changed_port s)%nat then set_first i s' else s'.
Lemma set_port_state_spec i st s p : ports s !! i = Some p -> stp_set_port_state i st s = Some (tt, marked i st p s).
Proof.
  intros Hp. unfold stp_set_port_state, pbind, marked. rewrite (port_at_spec _ _ _ Hp).
  destruct (negb (st =? state p) && negb (state_changed p)); cbn [andb orb]; unfold upd_port, pmod; [| done].
  by destruct (i <? first_changed_port _)%nat.
Qed.
Lemma base_marked i st p s :
  (forall c, port_ok (bridge_id s) i (set_state st c p)) -> ports s !! i = Some p -> base s -> base (marked i st p s).
Proof.
  intros Hok Hp Hs. unfold marked.
  set (s' := set_ports _ s). assert (Hs' : base s') by (apply base_upd_port; [intros q Hq _; rewrite Hp in Hq; injection Hq as <-; apply Hok | done]).
  cbn zeta. match goal with |- base (if ?b then _ else _) => destruct b end; [by apply base_first | done].
Qed.

Lemma total_set_state (P : stp -> Prop) i st p (Q : unit -> stp -> Prop) :
  (forall s, P s -> ports s !! i = Some p) -> (forall s, P s -> Q tt (marked i st p s)) -> total P (stp_set_port_state i st) Q.
Proof. intros HP HQ s Hs. exists tt, (marked i st p s). split; [by apply set_port_state_spec, HP | auto]. Qed.

Lemma port_ok_enabled id i st c p : state p <> STP_DISABLED -> valid_state st -> port_ok id i p -> port_ok id i (set_state st c p).
Proof. intros Hne Hv. apply port_ok_state; [done |]. by intros ?. Qed.

Lemma keeps_set_enabled i st : (i < STP_MAX_PORTS)%nat -> valid_state st -> forall (k : Br unit),
  keeps base k -> forall p, port_ok_somewhere i p -> state p <> STP_DISABLED ->
  total (fun s => base s /\ ports s !! i = Some p) (stp_set_port_state i st;;; k) (fun _ => base).
Proof.
  intros Hi Hv k Hk p _ Hne. apply (total_bind _ _ (fun _ => base)); [| intros _; exact Hk].
  apply (total_set_state _ _ _ p); [by intros s [] |]. intros s [Hs Hp]. apply base_marked; [| done | done]. intros c.
  apply port_ok_enabled; [done | done | by apply (b_each _ Hs)].
Qed.

Lemma keeps_make_forwarding i : (i < STP_MAX_PORTS)%nat -> keeps base (stp_make_forwarding i).
Proof.
  intros Hi. unfold stp_make_forwarding. apply total_port; [done | done |]. intros p Hp. apply total_when.
  - intros E%Z.eqb_eq. apply keeps_set_enabled; [done | unfold valid_state; set_solver | | done | rewrite E; done].
    apply keeps_upd_port. intros. unfold set_delay. eauto with stp.
  - by intros _ s [].
Qed.

(** * Roles *)

(** What the roles of the ports depend on, and the states of the ports. *)
Definition link_of (p : stp_port) : Z * Z * Z := (port_id p, designated_bridge p, designated_port p).
Definition links (s : stp) : Z * option nat * list (Z * Z * Z) := (bridge_id s, root_port s, map link_of (ports s)).
Definition states (s : stp) : list Z := map state (ports s).
Definition still (L : Z * option nat * list (Z * Z * Z)) (T : list Z) (s : stp) : Prop := links s = L /\ states s = T.

Lemma map_alter_same {A B} (h : A -> B) f i (l : list A) : (forall x, h (f x) = h x) -> map h (alter f i l) = map h l.
Proof. intros Hf. apply list_eq. intros j. rewrite !list_lookup_fmap. destruct (decide (i = j)) as [<- | Hne]; [| by rewrite list_lookup_alter_ne].
  rewrite list_lookup_alter_eq. destruct (l !! i); cbn; [by rewrite Hf | done]. Qed.

Lemma still_upd_port L T i f : (forall p, link_of (f p) = link_of p /\ state (f p) = state p) -> preserved (still L T) (upd_port i f).
Proof.
  intros Hf. apply preserved_mod. intros s [<- <-]. unfold still, links, states. cbn. split; [f_equal |]; apply map_alter_same; intros p; apply Hf.
Qed.
Lemma still_port_at L T i : preserved (still L T) (port_at i).
Proof. unfold port_at. preserved_deep. Qed.
Lemma still_whole L T : preserved (still L T) whole.
Proof. by intros s x s' Hs [= <- <-]. Qed.
Lemma still_mod L T f : (forall s, links (f s) = links s /\ states (f s) = states s) -> preserved (still L T) (pmod f).
Proof. intros Hf. apply preserved_mod. intros s [<- <-]. apply Hf. Qed.
#[local] Hint Resolve still_port_at still_whole : preserved.
#[local] Hint Extern 1 (preserved (still _ _) (upd_port _ _)) => apply still_upd_port; done : preserved.
#[local] Hint Extern 1 (preserved (still _ _) (pmod _)) => apply still_mod; done : preserved.

Lemma still_send L T i m : preserved (still L T) (stp_send_bpdu i m).
Proof. unfold stp_send_bpdu. preserved_deep. Qed.
Lemma still_with_hello L T t : preserved (still L T) (with_hello t).
Proof. unfold with_hello. preserved_deep. Qed.
Lemma still_with_tcn L T t : preserved (still L T) (with_tcn t).
Proof. unfold with_tcn. preserved_deep. Qed.
Lemma still_with_change L T t : preserved (still L T) (with_change_timer t).
Proof. unfold with_change_timer. preserved_deep. Qed.
#[local] Hint Resolve still_send still_with_hello still_with_tcn still_with_change : preserved.
Lemma still_stop_tcn L T : preserved (still L T) stop_tcn.
Proof. unfold stop_tcn. preserved_deep. Qed.
Lemma still_transmit_config L T i : preserved (still L T) (stp_transmit_config i).
Proof. unfold stp_transmit_config. preserved_deep. Qed.
Lemma still_transmit_tcn L T : preserved (still L T) stp_transmit_tcn.
Proof. unfold stp_transmit_tcn. preserved_deep. Qed.
#[local] Hint Resolve still_stop_tcn still_transmit_config still_transmit_tcn : preserved.
Lemma still_for_each L T body l : (forall i, preserved (still L T) (body i)) -> preserved (still L T) (for_each_enabled_port body l).
Proof. intros Hb. induction l as [| i l IH]; cbn [for_each_enabled_port]; preserved_deep. Qed.
Lemma still_config_generation L T : preserved (still L T) stp_config_bpdu_generation.
Proof. unfold stp_config_bpdu_generation. apply still_for_each. intros i. preserved_deep. Qed.
Lemma still_detection L T : preserved (still L T) stp_topology_change_detection.
Proof. unfold stp_topology_change_detection. preserved_deep. Qed.
Lemma still_acknowledged L T : preserved (still L T) stp_topology_change_acknowledged.
Proof. unfold stp_topology_change_acknowledged. preserved_deep. Qed.
#[local] Hint Resolve still_config_generation still_detection still_acknowledged : preserved.
Lemma still_become_root L T : preserved (still L T) stp_become_root_bridge.
Proof. unfold stp_become_root_bridge, use_bridge_times. preserved_deep. Qed.
Lemma still_acknowledge L T i : preserved (still L T) (stp_acknowledge_topology_change i).
Proof. unfold stp_acknowledge_topology_change. preserved_deep. Qed.
#[local] Hint Resolve still_become_root still_acknowledge : preserved.

(** A computation that keeps the invariant and leaves the roles alone. *)
Lemma keeps_still {A} L T (c : Br A) : keeps base c -> preserved (still L T) c -> keeps (fun s => base s /\ still L T s) c.
Proof. intros Hk Hp s [Hs Ht]. destruct (Hk s Hs) as (x & s' & E & Hs'). exists x, s'. split; [done |]. split; [done |]. by apply (Hp s x s'). Qed.

(** ** The state of one port *)

Lemma links_marked i st p s : links (marked i st p s) = links s.
Proof.
  unfold marked. cbn zeta. match goal with |- links (if ?b then _ else _) = _ => destruct b end; unfold links; cbn; f_equal; by apply map_alter_same.
Qed.
Lemma states_alter i st c l : map state (alter (set_state st c) i l) = alter (fun _ => st) i (map state l).
Proof. apply list_eq. intros j. rewrite list_lookup_fmap. destruct (decide (i = j)) as [<- | Hne].
  - rewrite !list_lookup_alter_eq, list_lookup_fmap. by destruct (l !! i).
  - by rewrite !list_lookup_alter_ne, list_lookup_fmap. Qed.
Lemma states_marked i st p s : states (marked i st p s) = alter (fun _ => st) i (states s).
Proof.
  unfold marked. cbn zeta. match goal with |- states (if ?b then _ else _) = _ => destruct b end; unfold states; cbn; apply states_alter.
Qed.

(** Sets the state of an enabled port. *)
Lemma total_set_enabled L T i st t :
  T !! i = Some t -> t <> STP_DISABLED -> valid_state st ->
  total (fun s => base s /\ still L T s) (stp_set_port_state i st) (fun _ s => base s /\ still L (alter (fun _ => st) i T) s).
Proof.
  intros Ht Hne Hv s [Hs [HL HT]]. rewrite <- HT in Ht. unfold states in Ht. rewrite list_lookup_fmap in Ht.
  destruct (ports s !! i) as [p |] eqn:Hp; [| done]. injection Ht as Ht. exists tt, (marked i st p s).
  split; [by apply set_port_state_spec |]. split.
  - apply base_marked; [| done | done]. intros c. apply port_ok_enabled; [by rewrite Ht | done | by apply (b_each _ Hs)].
  - split; [by rewrite links_marked | by rewrite states_marked, HT].
Qed.

(** A loop that changes the state of each enabled port. *)
Definition stepped (F : nat -> Z -> Z) (k : nat) (T T' : list Z) : Prop :=
  length T' = length T /\
  forall i st, T !! i = Some st -> T' !! i = Some (if (k <=? i)%nat && negb (st =? STP_DISABLED) then F i st else st).

Lemma stepped_alter F k T t : T !! k = Some t -> t <> STP_DISABLED -> forall T', stepped F (S k) (alter (F k) k T) T' -> stepped F k T T'.
Proof.
  intros Hk Ht T' [Hl Hs]. split; [by rewrite Hl, length_alter |]. intros i st Hi.
  destruct (decide (k = i)) as [<- | Hne].
  - rewrite Hk in Hi. injection Hi as <-. rewrite (Hs k (F k t)) by (by rewrite list_lookup_alter_eq, Hk).
    destruct (Nat.leb_spec (S k) k); [lia |]. cbn [andb]. rewrite Nat.leb_refl. by apply Z.eqb_neq in Ht as ->.
  - rewrite (Hs i st) by (by rewrite list_lookup_alter_ne). do 2 f_equal.
    destruct (Nat.leb_spec (S k) i), (Nat.leb_spec k i); (done || lia).
Qed.
Lemma stepped_skip F k T : T !! k = Some STP_DISABLED -> forall T', stepped F (S k) T T' -> stepped F k T T'.
Proof.
  intros Hk T' [Hl Hs]. split; [done |]. intros i st Hi. rewrite (Hs i st Hi).
  destruct (Nat.leb_spec (S k) i), (Nat.leb_spec k i); try (done || lia). replace i with k in Hi by lia. rewrite Hk in Hi. by injection Hi as <-.
Qed.

Lemma for_each_states body F L n : forall k T,
  (forall i T t, (i < STP_MAX_PORTS)%nat -> T !! i = Some t -> t <> STP_DISABLED ->
     total (fun s => base s /\ still L T s) (body i) (fun _ s => base s /\ still L (alter (F i) i T) s)) ->
  (k + n = STP_MAX_PORTS)%nat ->
  total (fun s => base s /\ still L T s) (for_each_enabled_port body (seq k n)) (fun _ s => base s /\ exists T', still L T' s /\ stepped F k T T').
Proof.
  induction n as [| n IH]; intros k T Hb Hk; cbn [seq for_each_enabled_port].
  { intros s [Hs Ht]. exists tt, s. split; [done |]. split; [done |]. exists T. split; [done |]. split; [done |]. intros i st Hi.
    assert (i < k)%nat. { apply lookup_lt_Some in Hi. destruct Ht as [_ <-]. unfold states in Hi. rewrite length_map, (b_ports _ Hs) in Hi. lia. }
    by destruct (Nat.leb_spec k i); [lia |]. }
  apply total_port; [lia | by intros s [] |]. intros p _.
  destruct (Z.eqb_spec (state p) STP_DISABLED) as [Ed | Ed]; cbn [negb pwhen].
  - intros s [[Hs Ht] Hp]. unfold pbind, pret. destruct (IH (S k) T Hb ltac:(lia) s (conj Hs Ht)) as (x & s' & E & Hs' & T' & Ht' & Hst).
    exists x, s'. split; [done |]. split; [done |]. exists T'. split; [done |]. apply stepped_skip; [| done].
    destruct Ht as [_ <-]. unfold states. by rewrite list_lookup_fmap, Hp; cbn; rewrite Ed.
  - intros s [[Hs Ht] Hp]. assert (HT : T !! k = Some (state p)) by (destruct Ht as [_ <-]; unfold states; by rewrite list_lookup_fmap, Hp).
    destruct (Hb k T (state p) ltac:(lia) HT Ed s (conj Hs Ht)) as ([] & s1 & E1 & H1).
    destruct (IH (S k) (alter (F k) k T) Hb ltac:(lia) s1 H1) as (x & s' & E & Hs' & T' & Ht' & Hst).
    exists x, s'. unfold pbind. rewrite E1. split; [done |]. split; [done |]. exists T'. split; [done |]. by apply (stepped_alter F k T (state p)).
Qed.

(** ** The selection of states *)

Definition is_active (L : Z * option nat * list (Z * Z * Z)) (i : nat) : bool :=
  let '(id, r, l) := L in
  bool_decide (r = Some i) || match l !! i with Some (pid, br, port) => (br =? id) && (port =? pid) | None => false end.
Definition select_state (L : Z * option nat * list (Z * Z * Z)) (i : nat) (st : Z) : Z :=
  if is_active L i then (if st =? STP_BLOCKING then STP_LISTENING else st)
  else (if Z.land st (Z.lor STP_DISABLED STP_BLOCKING) =? 0 then STP_BLOCKING else st).

Lemma is_active_spec s i p : ports s !! i = Some p -> is_active (links s) i = bool_decide (root_port s = Some i) || stp_is_designated_port s p.
Proof. intros Hp. unfold is_active, links, stp_is_designated_port. by rewrite list_lookup_fmap, Hp. Qed.

Lemma still_state L T s i p t : still L T s -> ports s !! i = Some p -> T !! i = Some t -> state p = t.
Proof. intros [_ <-] Hp. unfold states. rewrite list_lookup_fmap, Hp. by intros [= <-]. Qed.

Lemma alter_const {A} (f : A -> A) i (l : list A) x : l !! i = Some x -> alter f i l = alter (fun _ => f x) i l.
Proof. intros Hx. by apply (alter_to f (fun _ => f x) i l x). Qed.

Lemma total_make_forwarding L T i t : (i < STP_MAX_PORTS)%nat -> T !! i = Some t ->
  total (fun s => base s /\ still L T s) (stp_make_forwarding i)
    (fun _ s => base s /\ still L (alter (fun st => if st =? STP_BLOCKING then STP_LISTENING else st) i T) s).
Proof.
  intros Hi HT. unfold stp_make_forwarding. apply total_port; [done | by intros s [] |]. intros p _ s [[Hs Ht] Hp].
  rewrite (still_state _ _ _ _ _ _ Ht Hp HT). unfold pwhen. destruct (Z.eqb_spec t STP_BLOCKING) as [-> | Hne].
  - rewrite (alter_const _ _ _ _ HT). cbn [Z.eqb]. revert s Hs Ht Hp. intros s Hs Ht _.
    apply (total_bind _ _ (fun _ s => base s /\ still L (alter (fun _ => STP_LISTENING) i T) s) (fun _ => upd_port i (set_delay (stp_start_timer 0))) _
             (total_set_enabled L T i STP_LISTENING _ HT ltac:(done) ltac:(unfold valid_state; set_solver))); [| done].
    intros _. apply keeps_still; [| apply still_upd_port; done]. apply keeps_upd_port. intros id q Hq. apply port_ok_timers; eauto with stp.
  - exists tt, s. split; [done |]. split; [done |]. rewrite (alter_same _ _ _ _ HT); [done |]. by apply Z.eqb_neq in Hne as ->.
Qed.

Lemma total_make_blocking L T i t : (i < STP_MAX_PORTS)%nat -> T !! i = Some t ->
  total (fun s => base s /\ still L T s) (stp_make_blocking i)
    (fun _ s => base s /\ still L (alter (fun st => if Z.land st (Z.lor STP_DISABLED STP_BLOCKING) =? 0 then STP_BLOCKING else st) i T) s).
Proof.
  intros Hi HT. unfold stp_make_blocking. apply total_port; [done | by intros s [] |]. intros p _ s [[Hs Ht] Hp].
  rewrite (still_state _ _ _ _ _ _ Ht Hp HT). unfold pwhen at 1. destruct (Z.land t (Z.lor STP_DISABLED STP_BLOCKING) =? 0) eqn:Em.
  - rewrite (alter_const _ _ _ _ HT). rewrite Em.
    assert (Hne : t <> STP_DISABLED) by (intros ->; done).
    apply (total_bind (fun s => base s /\ still L T s) _ (fun _ s => base s /\ still L T s)); [| | done].
    { apply keeps_still; [keeps_tac | preserved_deep]. }
    intros _. apply (total_bind _ _ _ _ _ (total_set_enabled L T i STP_BLOCKING _ HT Hne ltac:(unfold valid_state; set_solver))).
    intros _. apply keeps_still; [| apply still_upd_port; done]. apply keeps_upd_port. intros id q Hq. apply port_ok_timers; eauto with stp.
  - exists tt, s. split; [done |]. split; [done |]. rewrite (alter_same _ _ _ _ HT); [done |]. by rewrite Em.
Qed.

Lemma keeps_set_pending i a b : keeps base (upd_port i (set_pending a b)).
Proof. apply keeps_upd_port. intros. by apply port_ok_pending. Qed.
Lemma keeps_stop_age i : keeps base (upd_port i (fun p => set_age (stp_stop_timer (message_age_timer p)) p)).
Proof. apply keeps_upd_port. intros id q Hq. apply port_ok_timers; eauto with stp. Qed.

Lemma total_state_selection L T :
  total (fun s => base s /\ still L T s) stp_port_state_selection (fun _ s => base s /\ exists T', still L T' s /\ stepped (select_state L) 0 T T').
Proof.
  unfold stp_port_state_selection. apply for_each_states; [| done]. clear T. intros i T t Hi HT Hne. apply total_whole. intros s0 [_ Hs0].
  apply total_port; [done | by intros s [[] _] |]. intros p _ s [[[Hs Ht] ->] Hp].
  assert (Ea : is_active L i = bool_decide (root_port s0 = Some i) || stp_is_designated_port s0 p).
  { destruct Hs0 as [<- _]. by apply is_active_spec. }
  assert (Hf : forall c : Br unit, keeps base c -> (forall T, preserved (still L T) c) -> is_active L i = true ->
    total (fun s => base s /\ still L T s) (c;;; stp_make_forwarding i) (fun _ s => base s /\ still L (alter (select_state L i) i T) s)).
  { intros c Hc Hpc Hact. apply (total_bind _ _ (fun _ s => base s /\ still L T s)); [by apply keeps_still |]. intros _.
    unfold select_state. rewrite Hact. by apply (total_make_forwarding L T i t). }
  case_bool_decide; cbn [orb] in Ea.
  - apply (Hf (upd_port i (set_pending false false)) (keeps_set_pending _ _ _)); [| done | done]. intros. by apply still_upd_port.
  - destruct (stp_is_designated_port s0 p).
    + apply (Hf _ (keeps_stop_age i)); [| done | done]. intros. by apply still_upd_port.
    + apply (total_bind (fun s => base s /\ still L T s) _ (fun _ s => base s /\ still L T s)); [| | done].
      * apply keeps_still; [apply keeps_set_pending | by apply still_upd_port].
      * intros _. unfold select_state. rewrite Ea. by apply (total_make_blocking L T i t).
Qed.

(** A port that is not blocked is the root port or a designated port, and, if [exact], these are
    not blocked. *)
Definition roles (exact : bool) (s : stp) : Prop :=
  forall i st, states s !! i = Some st -> st <> STP_DISABLED ->
    (st <> STP_BLOCKING -> is_active (links s) i = true) /\ (exact = true -> is_active (links s) i = true -> st <> STP_BLOCKING).
(** The root port is enabled. *)
Definition rooted (s : stp) : Prop := forall r, root_port s = Some r -> exists st, states s !! r = Some st /\ st <> STP_DISABLED.
Definition tidy (exact : bool) (s : stp) : Prop := base s /\ rooted s /\ roles exact s.

Lemma still_self s : still (links s) (states s) s.
Proof. done. Qed.

Lemma states_valid s i st : base s -> states s !! i = Some st -> valid_state st.
Proof.
  intros Hs. unfold states. rewrite list_lookup_fmap. destruct (ports s !! i) as [p |] eqn:Hp; [| done]. intros [= <-]. by apply (po_state _ _ _ (b_each _ Hs _ _ Hp)).
Qed.

Lemma select_state_spec L i st : valid_state st -> st <> STP_DISABLED ->
  select_state L i st <> STP_DISABLED /\ (select_state L i st <> STP_BLOCKING <-> is_active L i = true).
Proof.
  unfold valid_state, select_state. intros Hv Hne.
  repeat (apply elem_of_cons in Hv as [-> | Hv]; [destruct (is_active L i); cbn; try done; split; try done; naive_solver |]). by apply elem_of_nil in Hv.
Qed.

Lemma total_selected :
  total (fun s => base s /\ rooted s) stp_port_state_selection (fun _ => tidy true).
Proof.
  intros s [Hs Hr]. destruct (total_state_selection (links s) (states s) s (conj Hs (still_self s))) as (x & s' & E & Hs' & T' & [HL HT] & Hl & Hst).
  exists x, s'. split; [done |].
  assert (Hback : forall i st', T' !! i = Some st' -> exists st, states s !! i = Some st /\ st' = (if negb (st =? STP_DISABLED) then select_state (links s) i st else st)).
  { intros i st' Hi. destruct (lookup_lt_is_Some_2 (states s) i) as [st Est]; [rewrite <- Hl; by apply lookup_lt_Some in Hi |].
    exists st. split; [done |]. rewrite (Hst _ _ Est) in Hi. cbn [Nat.leb andb] in Hi. congruence. }
  split; [done |]. split.
  - intros r Hrr. assert (Hr0 : root_port s = Some r) by (injection HL as _ Hr0 _; congruence).
    destruct (Hr r Hr0) as (st & Est & Hne). rewrite HT, (Hst _ _ Est). cbn [Nat.leb andb]. eexists. split; [done |].
    apply Z.eqb_neq in Hne as Hne'. rewrite Hne'. cbn [negb]. by apply select_state_spec; [apply (states_valid s r) |].
  - intros i st' Hi Hne. rewrite HL. rewrite HT in Hi. destruct (Hback i st' Hi) as (st & Est & E'). clear Hi.
    destruct (Z.eqb_spec st STP_DISABLED) as [E0 | Hnd]; cbn [negb] in E'; [congruence |]. subst st'.
    destruct (select_state_spec (links s) i st (states_valid _ _ _ Hs Est) Hnd) as [_ Hiff]. split; [apply Hiff | intros _; apply Hiff].
Qed.

(** ** Selecting again *)

Lemma designated_false s p : stp_is_designated_port s p = false -> designated_bridge p <> bridge_id s \/ designated_port p <> port_id p.
Proof.
  unfold stp_is_designated_port. destruct (Z.eqb_spec (designated_bridge p) (bridge_id s)); [| by left]. destruct (Z.eqb_spec (designated_port p) (port_id p)); [done | by right].
Qed.
Lemma designated_true s p : stp_is_designated_port s p = true -> designated_bridge p = bridge_id s /\ designated_port p = port_id p.
Proof. unfold stp_is_designated_port. intros [->%Z.eqb_eq ->%Z.eqb_eq]%andb_true_iff. done. Qed.

Lemma base_candidate s i p : base s -> ports s !! i = Some p -> candidate s p = true ->
  state p <> STP_DISABLED /\ 0 <= designated_cost p + path_cost p < 2 ^ 31.
Proof.
  intros Hs Hp. unfold candidate. intros [[Hd Hn]%andb_true_iff _]%andb_true_iff. apply negb_true_iff, Z.eqb_neq in Hd. apply negb_true_iff, designated_false in Hn.
  pose proof (b_each _ Hs _ _ Hp) as Ho. pose proof (po_candidate _ _ _ Ho Hd Hn) as Hc. pose proof (po_cost _ _ _ Ho) as Hpc.
  unfold word, COST_LIMIT in *. split; [done | lia].
Qed.

Lemma port_ok_designated id i root cost p : port_ok id i p -> port_ok id i (set_designated root cost id (port_id p) p).
Proof. intros []. constructor; try done. cbn. by intros _ [? | ?]. Qed.

Lemma base_redesignated s : base s -> base (redesignated s).
Proof.
  intros Hs. pose proof Hs as []. constructor; try done; cbn; [by unfold each_enabled; rewrite length_map |].
  intros i q. unfold each_enabled. rewrite list_lookup_fmap. destruct (ports s !! i) as [p |] eqn:Hp; [| done]. intros [= <-].
  pose proof (b_each0 _ _ Hp). destruct (state p =? STP_DISABLED); [done |]. destruct (should_designate s p); [by apply port_ok_designated | done].
Qed.
Lemma base_rooted_at s r : base s -> best_of s all_ports None r -> base (rooted_at s r).
Proof.
  intros Hs Hb. pose proof Hs as []. unfold rooted_at, root_info. destruct r as [r |]; cbn [mbind option_bind].
  - destruct Hb as (_ & p & Hp & Hc & _). rewrite Hp. destruct (base_candidate s r p Hs Hp Hc) as [_ Hcost]. constructor; try done; cbn.
    + unfold wrap. rewrite Z.mod_small by lia. lia.
    + intros r' [= <-]. rewrite <- b_ports0. by apply lookup_lt_Some in Hp.
  - constructor; try done; cbn; lia.
Qed.
Lemma states_redesignated s : states (redesignated s) = states s.
Proof.
  unfold states, redesignated, each_enabled. cbn. rewrite map_map. apply map_ext. intros p. destruct (state p =? STP_DISABLED); [done |]. by destruct (should_designate s p).
Qed.

Lemma total_configuration_update : total base stp_configuration_update (fun _ s => base s /\ rooted s).
Proof.
  intros s Hs. destruct (configuration_update_spec s (b_ports _ Hs)) as (r & Hb & E).
  { intros i p Hp Hc. destruct (base_candidate s i p Hs Hp Hc). unfold cost_ok. lia. }
  eexists _, _. split; [exact E |]. split; [by apply base_redesignated, base_rooted_at |].
  intros r' Hr. cbn in Hr. subst r. rewrite states_redesignated. destruct Hb as (_ & p & Hp & Hc & _).
  exists (state p). unfold states. cbn. rewrite list_lookup_fmap, Hp. split; [done |]. by apply (base_candidate s r' p Hs Hp Hc).
Qed.

Lemma total_reselect : total base (stp_configuration_update;;; stp_port_state_selection) (fun _ => tidy true).
Proof. apply (total_bind _ _ _ _ _ total_configuration_update). intros _. exact total_selected. Qed.

(** ** Computations that keep everything in order *)

Lemma tidy_weak e s : tidy true s -> tidy e s.
Proof. intros (Hb & Hr & Hro). split; [done |]. split; [done |]. intros i st Hi Hne. destruct (Hro i st Hi Hne) as [H1 H2]. split; [done | by intros _; apply H2]. Qed.
Lemma tidy_base e s : tidy e s -> base s.
Proof. by intros []. Qed.

Lemma rooted_states s : rooted s <-> (forall r, snd (fst (links s)) = Some r -> exists st, states s !! r = Some st /\ st <> STP_DISABLED).
Proof. done. Qed.
Lemma tidy_same e s s' : base s' -> links s' = links s -> states s' = states s -> tidy e s -> tidy e s'.
Proof.
  intros Hb HL HT (_ & Hr & Hro). split; [done |]. split; [| unfold roles; by rewrite HL, HT].
  apply rooted_states. rewrite HL, HT. by apply rooted_states.
Qed.
Lemma keeps_tidy {A} e (c : Br A) : keeps base c -> (forall L T, preserved (still L T) c) -> keeps (tidy e) c.
Proof.
  intros Hk Hp s Hs. destruct (Hk s (tidy_base _ _ Hs)) as (x & s' & E & Hb). exists x, s'. split; [done |].
  destruct (Hp _ _ s x s' (still_self s) E) as [HL HT]. by apply (tidy_same e s).
Qed.
Lemma total_weak {A} e (P : stp -> Prop) (c : Br A) : total P c (fun _ => tidy true) -> total P c (fun _ => tidy e).
Proof. apply total_conseq; [done |]. intros _ s. apply tidy_weak. Qed.
Lemma total_from_tidy {A} e (c : Br A) Q : total base c Q -> total (tidy e) c Q.
Proof. apply total_conseq; [| done]. intros s. apply tidy_base. Qed.

Lemma total_then {A B} e (P : stp -> Prop) (c : Br A) (k : A -> Br B) :
  total P c (fun _ => tidy true) -> (forall x, keeps (tidy true) (k x)) -> total P (pbind c k) (fun _ => tidy e).
Proof. intros Hc Hk. apply total_weak. by apply (total_bind _ _ _ _ _ Hc). Qed.

Record config_ok (c : stp_config_bpdu) : Prop := ConfigOk {
  co_cost : 0 <= c_root_path_cost c <= COST_LIMIT;
  co_age : word (message_age c); co_max : word (c_max_age c); co_hello : word (c_hello_time c); co_delay : word (c_forward_delay c) }.

Lemma signed32_small z : 0 <= z < 2 ^ 31 -> signed 32 z = z.
Proof. intros Hz. unfold signed, wrap. rewrite Z.mod_small by lia. destruct (Z.ltb_spec z (2 ^ (32 - 1))); lia. Qed.

Lemma keeps_record_information i c : config_ok c -> keeps base (stp_record_config_information i c).
Proof.
  intros []. apply keeps_upd_port. intros id p Hp. apply port_ok_timers; [| apply (po_delay _ _ _ Hp) | apply (po_hold _ _ _ Hp) |].
  - apply timer_start. unfold word in *. lia.
  - destruct Hp. constructor; try done. cbn. intros _ _. unfold COST_LIMIT in *. rewrite signed32_small; lia.
Qed.
Lemma keeps_record_timeouts c : config_ok c -> keeps base (stp_record_config_timeout_values c).
Proof. intros []. apply keeps_mod. intros s Hs. apply base_change, base_times; [done | by apply b_bridge | done]. Qed.
Lemma still_record_timeouts L T c : preserved (still L T) (stp_record_config_timeout_values c).
Proof. unfold stp_record_config_timeout_values. preserved_deep. Qed.
#[local] Hint Resolve keeps_record_information keeps_record_timeouts : stp.
#[local] Hint Resolve still_record_timeouts : preserved.

(** What is known of the state is given up but for [base] or [tidy]. *)
Ltac to_base := match goal with |- total ?P ?c ?Q => apply (total_conseq P base c Q Q); [intros ? ?Hpre; naive_solver eauto using tidy_base | done |] end.
Ltac to_tidy e := match goal with |- total ?P ?c ?Q => apply (total_conseq P (tidy e) c Q Q); [intros ? ?Hpre; naive_solver | done |] end.

(** After a change that keeps [base] the roles are chosen again. *)
Lemma total_change {A B} e (c : Br A) (k : unit -> Br B) :
  keeps base c -> (forall x, keeps (tidy true) (k x)) ->
  total base (c;;; stp_configuration_update;;; x <- stp_port_state_selection;; k x) (fun _ => tidy e).
Proof.
  intros Hc Hk. apply (total_bind _ _ (fun _ => base)); [exact Hc |]. intros _.
  apply (total_bind _ _ _ _ _ total_configuration_update). intros _. apply total_then; [exact total_selected | exact Hk].
Qed.

Lemma keeps_tidy_whole {A} e (k : stp -> Br A) : (forall s, base s -> keeps (tidy e) (k s)) -> keeps (tidy e) (pbind whole k).
Proof. intros Hk s Hs. by apply (Hk s (tidy_base _ _ Hs)). Qed.

Lemma keeps_received_config e i c : (i < STP_MAX_PORTS)%nat -> config_ok c -> keeps (tidy e) (stp_received_config_bpdu i c).
Proof.
  intros Hi Hc. unfold stp_received_config_bpdu. destruct (c_max_age c <=? message_age c); [apply keeps_ret |].
  apply keeps_tidy_whole. intros s0 Hs0. apply total_port; [done | apply tidy_base |]. intros p _. to_tidy e. apply keeps_when.
  destruct (stp_supersedes_port_info s0 p c).
  - apply total_from_tidy, total_change; [eauto with stp |]. intros _. apply keeps_tidy_whole. intros s [].
    apply keeps_bind; [apply keeps_tidy; [keeps_tac | intros; preserved_deep] |]. intros _.
    apply keeps_bind; [apply keeps_get |]. intros r. apply keeps_when, keeps_tidy; [keeps_tac | intros; preserved_deep].
  - apply keeps_tidy; [keeps_tac | intros; preserved_deep].
Qed.

Lemma keeps_acknowledge i : (i < STP_MAX_PORTS)%nat -> keeps base (stp_acknowledge_topology_change i).
Proof.
  intros Hi. unfold stp_acknowledge_topology_change. apply keeps_bind; [| intros _; eauto with stp]. apply keeps_upd_port. intros. by apply port_ok_pending.
Qed.
#[local] Hint Resolve keeps_acknowledge : stp.
Lemma keeps_received_tcn e i : (i < STP_MAX_PORTS)%nat -> keeps (tidy e) (stp_received_tcn_bpdu i).
Proof. intros Hi. unfold stp_received_tcn_bpdu. apply keeps_tidy; [keeps_tac | intros; preserved_deep]. Qed.

Lemma read_config_words m : bytes_ok m -> (35 <= length m)%nat ->
  word (message_age (read_config m)) /\ word (c_max_age (read_config m)) /\ word (c_hello_time (read_config m)) /\ word (c_forward_delay (read_config m)).
Proof.
  intros Hm Hl. assert (Hw : forall off, (off + 2 <= length m)%nat -> word (be_load (slice off 2 m))).
  { intros off Ho. pose proof (be_load_range (slice off 2 m)) as Hr. unfold in_range in Hr. rewrite slice_length in Hr by lia. apply Hr.
    by apply bytes_ok_slice. }
  cbn. split_and!; apply Hw; lia.
Qed.

Definition bpdu_ok (m : list Z) : Prop := bytes_ok m /\ be_load (slice 13 4 m) <= COST_LIMIT.

Lemma keeps_received_bpdu e i m : (i < STP_MAX_PORTS)%nat -> bpdu_ok m -> keeps (tidy e) (stp_received_bpdu i m).
Proof.
  intros Hi [Hm Hcost]. unfold stp_received_bpdu. apply total_port; [done | apply tidy_base |]. intros p _. to_tidy e.
  destruct (_ || _); [apply keeps_ret |]. destruct (_ =? STP_TYPE_CONFIG).
  - destruct (Nat.ltb_spec (length m) 35) as [| Hl]; [apply keeps_ret |]. cbn [negb pwhen]. apply keeps_received_config; [done |].
    destruct (read_config_words m Hm Hl) as (? & ? & ? & ?). constructor; try done. cbn. split; [| done].
    pose proof (be_load_range (slice 13 4 m)) as Hr. apply Hr. by apply bytes_ok_slice.
  - destruct (_ =? STP_TYPE_TCN); [| apply keeps_ret]. apply keeps_when, keeps_received_tcn, Hi.
Qed.

(** ** Ticks *)

Lemma total_become_designated (P : stp -> Prop) i : (forall s, P s -> base s) ->
  total P (stp_become_designated_port i) (fun _ s' => base s' /\ exists s, P s /\ s' = set_ports (alter (designate s) i (ports s)) s).
Proof.
  intros HP s Hs. exists tt, (set_ports (alter (designate s) i (ports s)) s). split; [done |]. split; [| eauto].
  apply base_upd_port; [| auto]. intros p _. apply port_ok_designated.
Qed.
Lemma keeps_become_designated i : keeps base (stp_become_designated_port i).
Proof. refine (total_conseq _ _ _ _ _ _ _ (total_become_designated base i _)); [done | by intros x s [] | done]. Qed.
#[local] Hint Resolve keeps_become_designated : stp.

Lemma keeps_age_expiry e i : keeps (tidy e) (stp_message_age_timer_expiry i).
Proof.
  unfold stp_message_age_timer_expiry. apply keeps_bind; [apply keeps_get |]. intros root. apply total_from_tidy, total_change; [eauto with stp |].
  intros _. apply keeps_bind; [apply keeps_get |]. intros root'. apply keeps_when, keeps_tidy; [eauto with stp | intros; preserved_deep].
Qed.

Lemma timer_expired_ok t el timeout : timer_ok t -> 0 <= el < 2 ^ 21 + 2 ^ 20 -> timeout < 2 ^ 17 ->
  exists t' b, stp_timer_expired t el timeout = Some (t', b) /\ timer_ok t'.
Proof.
  intros [Hv Ha] He Ho. unfold stp_timer_expired. destruct (active t) eqn:E; [| exists t, false; split; [done |]; split; [done |]; congruence].
  specialize (Ha eq_refl). rewrite int_some by lia. cbn [mbind option_bind]. destruct (Z.leb_spec timeout (value t + el)).
  - eexists _, _. split; [done |]. unfold timer_ok. cbn. split; [lia | done].
  - eexists _, _. split; [done |]. unfold timer_ok. cbn. lia.
Qed.

(** The loops over the ports keep [tidy]. *)
Lemma keeps_tidy_for_each e body : (forall i, (i < STP_MAX_PORTS)%nat -> keeps (tidy e) (body i)) -> keeps (tidy e) (for_each body).
Proof.
  intros Hb. assert (Hl : forall i, i ∈ all_ports -> (i < STP_MAX_PORTS)%nat) by apply all_ports_lt. revert Hl. generalize all_ports as l.
  induction l as [| i l IH]; intros Hl; cbn [for_each_enabled_port]; [apply keeps_ret |].
  apply total_port; [apply Hl; set_solver | apply tidy_base |]. intros p _. to_tidy e. apply keeps_bind; [apply keeps_when, Hb, Hl; set_solver |].
  intros _. apply IH. intros j Hj. apply Hl. set_solver.
Qed.

Lemma keeps_port_timer e i t set el timeout expiry :
  (i < STP_MAX_PORTS)%nat -> 0 <= el < 2 ^ 21 + 2 ^ 20 -> timeout < 2 ^ 17 ->
  (forall id p, port_ok id i p -> timer_ok (t p)) -> (forall id v p, timer_ok v -> port_ok id i p -> port_ok id i (set v p)) ->
  (forall v p, link_of (set v p) = link_of p /\ state (set v p) = state p) -> keeps (tidy e) expiry ->
  keeps (tidy e) (run_port_timer i t set el timeout expiry).
Proof.
  intros Hi Hel Hto Ht Hset Hst Hx. unfold run_port_timer. apply total_port; [done | apply tidy_base |]. intros p [id Hp]. to_tidy e.
  destruct (timer_expired_ok (t p) el timeout (Ht id p Hp) Hel Hto) as (v & b & -> & Hv).
  intros s Hs. unfold pbind at 1. cbn [plift]. revert s Hs. cbn [fst snd].
  apply keeps_bind; [apply keeps_tidy; [apply keeps_upd_port; auto | intros; by apply still_upd_port] |]. intros _. by apply keeps_when.
Qed.

Lemma total_advance e i p st : state p <> STP_DISABLED -> state p <> STP_BLOCKING -> valid_state st -> st <> STP_DISABLED -> st <> STP_BLOCKING ->
  total (fun s => tidy e s /\ ports s !! i = Some p) (stp_set_port_state i st) (fun _ => tidy e).
Proof.
  intros Hd Hb Hv Hd' Hb'. apply (total_set_state _ _ _ p); [by intros s [] |]. intros s [(Hs & Hr & Hro) Hp].
  assert (HT : states s !! i = Some (state p)) by (unfold states; by rewrite list_lookup_fmap, Hp).
  split; [apply base_marked; [| done | done]; intros c; apply port_ok_enabled; [done | done | by apply (b_each _ Hs)] |].
  assert (Hlook : forall j x, states (marked i st p s) !! j = Some x -> j = i /\ x = st \/ j <> i /\ states s !! j = Some x).
  { intros j x. rewrite states_marked. destruct (decide (i = j)) as [<- | Hne].
    - rewrite list_lookup_alter_eq, HT. intros [= <-]. by left.
    - rewrite list_lookup_alter_ne by done. right. done. }
  split.
  - apply rooted_states. rewrite links_marked, states_marked. intros r Hrr. destruct (Hr r Hrr) as (x & Hx & Hne).
    destruct (decide (i = r)) as [<- | Hir]; [rewrite list_lookup_alter_eq, Hx; eauto | rewrite list_lookup_alter_ne by done; eauto].
  - intros j x Hj Hne. rewrite links_marked. destruct (Hlook j x Hj) as [[-> ->] | [_ Hj']]; [| by apply Hro].
    destruct (Hro i _ HT Hd) as [Hact _]. split; [by intros _; apply Hact | by intros _ _].
Qed.

Lemma keeps_delay_expiry e i : (i < STP_MAX_PORTS)%nat -> keeps (tidy e) (stp_forward_delay_timer_expiry i).
Proof.
  intros Hi. unfold stp_forward_delay_timer_expiry. apply total_port; [done | apply tidy_base |]. intros p Hp.
  destruct (Z.eqb_spec (state p) STP_LISTENING) as [E | _]; [| destruct (Z.eqb_spec (state p) STP_LEARNING) as [E | _]].
  - apply (total_bind _ _ (fun _ => tidy e)).
    { apply total_advance; rewrite ?E; (done || (unfold valid_state; set_solver)). }
    intros _. apply keeps_tidy; [| intros; by apply still_upd_port]. apply keeps_upd_port. intros id q Hq. apply port_ok_timers; eauto with stp.
  - apply (total_bind _ _ (fun _ => tidy e)).
    { apply total_advance; rewrite ?E; (done || (unfold valid_state; set_solver)). }
    intros _. apply keeps_tidy_whole. intros s _. apply keeps_when, keeps_tidy; [eauto with stp | intros; preserved_deep].
  - to_tidy e. apply keeps_ret.
Qed.

Lemma still_hold_expiry L T i : preserved (still L T) (stp_hold_timer_expiry i).
Proof. unfold stp_hold_timer_expiry. preserved_deep. Qed.
Lemma keeps_hold_expiry e i : (i < STP_MAX_PORTS)%nat -> keeps (tidy e) (stp_hold_timer_expiry i).
Proof. intros Hi. apply keeps_tidy; [unfold stp_hold_timer_expiry; keeps_tac | intros; apply still_hold_expiry]. Qed.

Lemma keeps_age_ports e el : 0 <= el < 2 ^ 21 + 2 ^ 20 -> keeps (tidy e) (age_ports el).
Proof.
  intros Hel. unfold age_ports. apply keeps_tidy_for_each. intros i Hi. apply keeps_tidy_whole. intros s Hs.
  apply keeps_port_timer; try done; [destruct (b_now _ Hs) as [[]]; lia | intros id p; apply po_age | | apply keeps_age_expiry].
  intros id v p Hv Hp. apply port_ok_timers; eauto with stp.
Qed.
Lemma keeps_delay_ports e el : 0 <= el < 2 ^ 21 + 2 ^ 20 -> keeps (tidy e) (delay_ports el).
Proof.
  intros Hel. unfold delay_ports. apply keeps_tidy_for_each. intros i Hi. apply keeps_tidy_whole. intros s Hs. apply keeps_bind; [| intros _].
  - apply keeps_port_timer; try done; [destruct (b_now _ Hs) as (_ & _ & []); lia | intros id p; apply po_delay | | by apply keeps_delay_expiry].
    intros id v p Hv Hp. apply port_ok_timers; eauto with stp.
  - apply keeps_port_timer; try done; [intros id p; apply po_hold | | by apply keeps_hold_expiry].
    intros id v p Hv Hp. apply port_ok_timers; eauto with stp.
Qed.

Lemma keeps_bridge_timer e (t : stp -> stp_timer) (set : stp_timer -> Br unit) el (timeout : stp -> Z) (expiry : Br unit) :
  0 <= el < 2 ^ 21 + 2 ^ 20 -> (forall s, base s -> timer_ok (t s) /\ timeout s < 2 ^ 17) ->
  (forall v, timer_ok v -> keeps base (set v)) -> (forall L T v, preserved (still L T) (set v)) -> keeps (tidy e) expiry -> forall k : Br unit, keeps (tidy e) k ->
  keeps (tidy e) (s <- whole;; r <- plift (stp_timer_expired (t s) el (timeout s));; set (fst r);;; pwhen (snd r) expiry;;; k).
Proof.
  intros Hel Ht Hset Hst Hx k Hk. apply keeps_tidy_whole. intros s Hs. destruct (Ht s Hs) as [Hok Hto].
  destruct (timer_expired_ok (t s) el (timeout s) Hok Hel Hto) as (v & b & -> & Hv). intros s' Hs'. unfold pbind at 1. cbn [plift]. revert s' Hs'. cbn [fst snd].
  apply keeps_bind; [by apply keeps_tidy; auto |]. intros _. apply keeps_bind; [by apply keeps_when | by intros _].
Qed.

Lemma keeps_run_timers e el : 0 <= el < 2 ^ 21 + 2 ^ 20 -> keeps (tidy e) (run_timers el).
Proof.
  intros Hel. unfold run_timers.
  apply (keeps_bridge_timer e hello_timer with_hello el (fun s => hello_time (now s))); [done | | eauto with stp | eauto with preserved | |].
  { intros s Hs. split; [apply (b_hello _ Hs) |]. destruct (b_now _ Hs) as (_ & [] & _). lia. }
  { apply keeps_tidy; [unfold stp_hello_timer_expiry; keeps_tac | intros; unfold stp_hello_timer_expiry; preserved_deep]. }
  apply (keeps_bridge_timer e tcn_timer with_tcn el (fun s => hello_time (bridge s))); [done | | eauto with stp | eauto with preserved | |].
  { intros s Hs. split; [apply (b_tcn _ Hs) |]. destruct (b_bridge _ Hs) as (_ & [] & _). lia. }
  { apply keeps_tidy; [unfold stp_tcn_timer_expiry; keeps_tac | intros; unfold stp_tcn_timer_expiry; preserved_deep]. }
  apply (keeps_bridge_timer e topology_change_timer with_change_timer el (fun s => max_age (now s) + forward_delay (now s)));
    [done | | eauto with stp | eauto with preserved | |].
  { intros s Hs. split; [apply (b_change _ Hs) |]. destruct (b_now _ Hs) as ([] & _ & []). lia. }
  { apply keeps_tidy; [apply (keeps_mod base); intros s; apply base_change | intros; unfold stp_topology_change_timer_expiry; preserved_deep]. }
  apply keeps_bind; [by apply keeps_age_ports | intros _; by apply keeps_delay_ports].
Qed.

Definition tick_ok (ms : Z) : Prop := ms <= 8387000.
Lemma keeps_tick e ms : tick_ok ms -> keeps (tidy e) (stp_tick ms).
Proof.
  intros Hms s Hs. unfold stp_tick. unfold pbind at 1, pget. pose proof (b_rem _ (tidy_base _ _ Hs)) as Hrem.
  set (m := clamp ms 0 (INT_MAX - 1000)). assert (Hm : 0 <= m <= 8387000) by (unfold m, clamp, INT_MAX, tick_ok in *; destruct (Z.ltb_spec ms 0), (Z.ltb_spec (2 ^ 31 - 1 - 1000) ms); lia).
  unfold pbind at 1. rewrite int_some by lia. cbn [plift]. set (n := m + elapsed_remainder s) in *. assert (Hn : 0 <= n * 256 < 2 ^ 31) by lia.
  unfold pbind at 1 2, ms_to_timer, ms_to_timer_remainder. rewrite int_some by lia. cbn [plift mbind option_bind].
  set (el := Z.quot (n * 256) 1000). set (rm := Z.rem (n * 256) 1000).
  assert (Hel : 0 <= el < 2 ^ 21 + 2 ^ 20) by (unfold el; rewrite Z.quot_div_nonneg by lia; split; [apply Z.div_pos; lia | apply Z.div_lt_upper_bound; lia]).
  assert (Hrm : 0 <= rm < 1000) by (unfold rm; rewrite Z.rem_mod_nonneg by lia; apply Z.mod_pos_bound; lia).
  unfold pbind, pmod. assert (Hs' : tidy e (set_remainder rm s)).
  { apply (tidy_same e s); [| done | done | done]. destruct (tidy_base _ _ Hs). by constructor. }
  destruct (el =? 0); [by eexists _, _ | by apply keeps_run_timers].
Qed.

(** ** Configuration *)

Lemma ms_to_timer_small ms : 0 <= ms <= 40000 -> exists t, ms_to_timer ms = Some t /\ t = ms * 256 / 1000 /\ word t.
Proof.
  intros Hms. unfold ms_to_timer. rewrite int_some by lia. cbn [mbind option_bind]. eexists. split; [done |]. rewrite Z.quot_div_nonneg by lia.
  split; [done |]. unfold word. split; [apply Z.div_pos; lia | apply Z.div_lt_upper_bound; lia].
Qed.
Lemma clamp_range x lo hi : lo <= hi -> lo <= clamp x lo hi <= hi.
Proof. unfold clamp. intros. destruct (Z.ltb_spec x lo), (Z.ltb_spec hi x); lia. Qed.

(** The times of a root bridge, in milliseconds. *)
Record proper_ms (ht ma fd : Z) : Prop := ProperMs {
  pm_hello : 1000 <= ht <= 10000; pm_age : 6000 <= ma <= 40000; pm_delay : 4000 <= fd <= 30000;
  pm_age_hello : 2 * (ht + 1000) <= ma; pm_delay_age : ma - 1 <= 2 * (fd - 1000) }.
Lemma bridge_times_spec r : exists ht ma fd, proper_ms ht ma fd /\
  bridge_times r = Some (Times (ma * 256 / 1000) (ht * 256 / 1000) (fd * 256 / 1000)) /\
  times_ok (Times (ma * 256 / 1000) (ht * 256 / 1000) (fd * 256 / 1000)).
Proof.
  unfold bridge_times. pose proof (clamp_range (hello_time r) 1000 10000 ltac:(lia)) as Hh. set (ht := clamp (hello_time r) 1000 10000) in *.
  pose proof (clamp_range (max_age r) (Z.max (2 * (ht + 1000)) 6000) 40000 ltac:(lia)) as Hm. set (ma := clamp (max_age r) _ 40000) in *.
  assert (Hq : Z.quot ma 2 = ma / 2) by (apply Z.quot_div_nonneg; lia). rewrite Hq. pose proof (Z.div_mod ma 2 ltac:(lia)) as Hd. pose proof (Z.mod_pos_bound ma 2 ltac:(lia)).
  pose proof (clamp_range (forward_delay r) (ma / 2 + 1000) 30000 ltac:(lia)) as Hf. set (fd := clamp (forward_delay r) _ 30000) in *.
  exists ht, ma, fd. destruct (ms_to_timer_small ht) as (h & -> & -> & ?); [lia |]. destruct (ms_to_timer_small ma) as (m & -> & -> & ?); [lia |].
  destruct (ms_to_timer_small fd) as (f & -> & -> & ?); [lia |]. split; [constructor; lia |]. done.
Qed.
Lemma keeps_update_timers : keeps base stp_update_bridge_timers.
Proof.
  unfold stp_update_bridge_timers. apply keeps_whole. intros s0 Hs0. destruct (bridge_times_spec (rq s0)) as (ht & ma & fd & _ & -> & Ht).
  intros s Hs. unfold pbind. cbn [plift]. eexists _, _. split; [reflexivity |]. apply base_times; [| done | done]. destruct (stp_is_root_bridge s0); [done | by apply b_now].
Qed.
Lemma keeps_request e f : keeps (tidy e) (request f).
Proof.
  unfold request, stp_update_bridge_timers. apply keeps_tidy; [| intros; preserved_deep]. apply keeps_bind; [| intros _; apply keeps_update_timers].
  apply keeps_mod. intros s Hs. apply base_times; [apply (b_now _ Hs) | apply (b_bridge _ Hs) | done].
Qed.

(** A port whose designation is renamed with the bridge. *)
Definition renamed (new : Z) (s : stp) (p : stp_port) : stp_port :=
  if stp_is_designated_port s p then set_designated (designated_root p) (designated_cost p) new (designated_port p) p else p.
Lemma rename_loop_spec new s : length (ports s) = STP_MAX_PORTS ->
  for_each (fun i => s <- whole;; p <- port_at i;;
    pwhen (stp_is_designated_port s p) (upd_port i (fun p => set_designated (designated_root p) (designated_cost p) new (designated_port p) p))) s =
  Some (tt, set_ports (each_enabled (renamed new s) (ports s)) s).
Proof.
  intros Hl. refine (for_each_map _ (renamed new) s _ (fun _ _ _ => eq_refl) Hl). intros i t p Hp _. unfold pbind, whole. rewrite (port_at_spec _ _ _ Hp).
  unfold pwhen, renamed. destruct (stp_is_designated_port t p) eqn:E.
  - unfold upd_port, pmod. do 3 f_equal. apply (alter_to _ _ _ _ p Hp). by rewrite E.
  - unfold pret. rewrite (alter_same _ _ _ p Hp) by (by rewrite E). by rewrite set_ports_same.
Qed.
Lemma base_renamed new s : base s -> base (set_bridge new (set_ports (each_enabled (renamed new s) (ports s)) s)).
Proof.
  intros Hs. pose proof Hs as []. constructor; try done; cbn; [by unfold each_enabled; rewrite length_map |].
  intros i q. unfold each_enabled. rewrite list_lookup_fmap. destruct (ports s !! i) as [p |] eqn:Hp; [| done]. intros [= <-].
  pose proof (b_each0 _ _ Hp) as []. destruct (Z.eqb_spec (state p) STP_DISABLED) as [Ed | Ed]; [by constructor |].
  unfold renamed. destruct (stp_is_designated_port s p) eqn:E.
  - apply designated_true in E as [_ E]. constructor; try done. cbn. by intros _ [? | ?].
  - apply designated_false in E. constructor; try done. auto.
Qed.
Lemma keeps_set_bridge_id e new : keeps (tidy e) (set_bridge_id new).
Proof.
  unfold set_bridge_id. apply keeps_tidy_whole. intros s0 _. apply keeps_when, total_from_tidy. intros s Hs.
  unfold pbind at 1. rewrite (rename_loop_spec new s (b_ports _ Hs)). unfold pbind at 1, pmod.
  apply (total_bind base _ _ _ _ total_configuration_update); [| by apply base_renamed]. intros _. apply total_then; [exact total_selected |]. intros _.
  apply keeps_bind; [apply keeps_get |]. intros root'. apply keeps_when, keeps_tidy; [eauto with stp | intros; preserved_deep].
Qed.

(** A port as [stp_initialize_port] leaves it. *)
Definition fresh (s : stp) (st : Z) (c : bool) (p : stp_port) : stp_port :=
  set_timers (stp_stop_timer (message_age_timer p)) (stp_stop_timer (forward_delay_timer p)) (stp_stop_timer (hold_timer p))
    (set_detection true (set_pending false false (set_state st c (designate s p)))).

Lemma set_first_same s : set_first (first_changed_port s) s = s.
Proof. by destruct s. Qed.
Lemma marked_spec i st p s : exists c n, marked i st p s = set_first n (set_ports (alter (set_state st c) i (ports s)) s).
Proof.
  unfold marked. cbn zeta. eexists (_ || _). match goal with |- context [if ?b then _ else _] => destruct b end; [by eexists |].
  exists (first_changed_port s). by rewrite <- (set_first_same (set_ports _ s)) at 1.
Qed.

Lemma initialize_spec i st s p : ports s !! i = Some p ->
  exists c n, stp_initialize_port i st s = Some (tt, set_first n (set_ports (alter (fresh s st c) i (ports s)) s)).
Proof.
  intros Hp. unfold stp_initialize_port. unfold pbind at 1, stp_become_designated_port. unfold pbind at 1, whole. cbn [upd_port pmod].
  unfold pbind at 1. rewrite (set_port_state_spec i st _ (designate s p)) by (cbn; by rewrite list_lookup_alter_eq, Hp).
  match goal with |- context [marked i st ?q ?t] => destruct (marked_spec i st q t) as (c & n & ->) end. exists c, n. unfold upd_port, pmod. cbn [ports set_first set_ports].
  do 2 f_equal. rewrite !list_alter_alter_eq. done.
Qed.

Lemma port_ok_fresh s i st c p : valid_state st -> port_ok (bridge_id s) i p -> port_ok (bridge_id s) i (fresh s st c p).
Proof.
  intros Hv Hp. unfold fresh. apply port_ok_timers; [apply timer_stop, (po_age _ _ _ Hp) | apply timer_stop, (po_delay _ _ _ Hp) | apply timer_stop, (po_hold _ _ _ Hp) |].
  apply port_ok_detection, port_ok_pending. destruct Hp. constructor; try done. cbn. by intros _ [? | ?].
Qed.

Lemma states_upd s i f : (forall p, ports s !! i = Some p -> state (f p) = state p) -> states (set_ports (alter f i (ports s)) s) = states s.
Proof.
  intros Hf. unfold states. cbn. apply list_eq. intros j. rewrite !list_lookup_fmap. destruct (decide (i = j)) as [<- | Hne]; [| by rewrite list_lookup_alter_ne].
  rewrite list_lookup_alter_eq. destruct (ports s !! i) as [p |]; [cbn; by rewrite Hf | done].
Qed.

Lemma keeps_enable e i : (i < STP_MAX_PORTS)%nat -> keeps (tidy e) (stp_port_enable i).
Proof.
  intros Hi. unfold stp_port_enable. apply total_port; [done | apply tidy_base |]. intros p _. apply total_when; [| by intros _ s []].
  intros Ed%Z.eqb_eq. apply (total_bind _ _ (fun _ s => base s /\ rooted s)); [| intros _; apply total_weak, total_selected].
  intros s [(Hs & Hr & _) Hp]. destruct (initialize_spec i STP_BLOCKING s p Hp) as (c & n & ->). eexists _, _. split; [done |]. split.
  - apply base_first, base_upd_port; [| done]. intros q _. apply port_ok_fresh. unfold valid_state. set_solver.
  - intros r Hrr. cbn in Hrr. destruct (Hr r Hrr) as (st & Est & Hne). exists st. split; [| done]. unfold states in *. cbn. rewrite list_lookup_fmap in *.
    rewrite list_lookup_alter_ne; [done |]. intros <-. rewrite Hp in Est. injection Est as <-. done.
Qed.

Lemma keeps_disable e i : (i < STP_MAX_PORTS)%nat -> keeps (tidy e) (stp_port_disable i).
Proof.
  intros Hi. unfold stp_port_disable. apply total_port; [done | apply tidy_base |]. intros p _. apply total_when; [| by intros _ s []].
  intros _. apply (total_conseq _ (fun s => base s /\ ports s !! i = Some p) _ _ (fun _ => tidy e)); [by intros s [[] ?] | done |].
  apply (total_bind _ _ (fun _ s => base s /\ ports s !! i = Some p)); [by intros s Hs; eexists _, _ |]. intros root.
  apply (total_bind _ _ (fun _ s => base s /\ is_Some (ports s !! i))).
  { intros s [Hs Hp]. eexists _, _. split; [reflexivity |]. split; [| cbn; rewrite list_lookup_alter_eq, Hp; by eexists].
    apply base_upd_port; [| done]. intros q _. apply port_ok_designated. }
  intros _. apply (total_bind _ _ (fun _ => base)).
  { intros s [Hs [q Hq]]. eexists _, _. split; [by apply (set_port_state_spec _ _ _ q) |]. apply base_marked; [| done | done]. intros c.
    apply port_ok_state; [unfold valid_state; set_solver | done | by apply (b_each _ Hs)]. }
  intros _. apply total_change; [| intros _].
  - apply keeps_upd_port. intros id q Hq. apply port_ok_timers; [apply timer_stop, (po_age _ _ _ Hq) | apply timer_stop, (po_delay _ _ _ Hq) | apply (po_hold _ _ _ Hq) |].
    by apply port_ok_pending.
  - apply keeps_bind; [apply keeps_get |]. intros root'. apply keeps_when, keeps_tidy; [eauto with stp | intros; preserved_deep].
Qed.

Lemma keeps_path_cost e i cost : (i < STP_MAX_PORTS)%nat -> word cost -> keeps (tidy e) (stp_port_set_path_cost i cost).
Proof.
  intros Hi Hc. unfold stp_port_set_path_cost. apply total_port; [done | apply tidy_base |]. intros p _. to_tidy e. apply keeps_when, total_from_tidy.
  apply (total_bind _ _ (fun _ => base)); [| intros _; apply total_weak, total_reselect]. apply keeps_upd_port. intros id q []. by constructor.
Qed.
Lemma keeps_speed e i speed : (i < STP_MAX_PORTS)%nat -> keeps (tidy e) (stp_port_set_speed i speed).
Proof. intros Hi. unfold stp_port_set_speed. apply keeps_path_cost; [done |]. repeat case_match; unfold word; lia. Qed.

Lemma new_id_spec pid pri : 0 <= pri < 256 ->
  let new := u16 (Z.lor (Z.land pid 0xff) (Z.shiftl pri 8)) in word new /\ Z.land new 0xff = Z.land pid 0xff.
Proof.
  intros Hp. cbn zeta. change 0xff with (Z.ones 8). rewrite !Z.land_ones by lia. set (a := pid mod 2 ^ 8). assert (Ha : 0 <= a < 2 ^ 8) by (apply Z.mod_pos_bound; lia).
  assert (E : Z.lor a (Z.shiftl pri 8) = a + pri * 2 ^ 8).
  { rewrite Z.shiftl_mul_pow2 by lia. assert (Hl : Z.land a (pri * 2 ^ 8) = 0).
    { rewrite <- Z.shiftl_mul_pow2 by lia. apply Z.bits_inj'. intros n Hn. rewrite Z.land_spec, Z.bits_0, Z.shiftl_spec by lia.
      destruct (Z.ltb_spec n 8); [rewrite (Z.testbit_neg_r pri) by lia; apply andb_false_r |].
      replace a with (a mod 2 ^ 8) by (apply Z.mod_small; lia). by rewrite Z.mod_pow2_bits_high by lia. }
    pose proof (Z.add_lor_land a (pri * 2 ^ 8)). lia. }
  rewrite E. unfold wrap, word. rewrite (Z.mod_small (a + pri * 2 ^ 8)) by lia. split; [lia |]. rewrite Z.mod_add, Z.mod_small by lia. done.
Qed.

Lemma port_ok_reprioritized s i new p : word new -> Z.land new 0xff = Z.of_nat i + 1 -> port_ok (bridge_id s) i p -> port_ok (bridge_id s) i (reprioritized s new p).
Proof.
  intros Hw Hl []. unfold reprioritized. destruct (stp_is_designated_port s p) eqn:E.
  - apply designated_true in E as [E1 E2]. constructor; try done. cbn. by intros _ [? | ?].
  - apply designated_false in E. constructor; try done. cbn. intros. by apply po_candidate0.
Qed.

Lemma links_lookup s i p : ports s !! i = Some p -> snd (links s) !! i = Some (link_of p).
Proof. intros Hp. unfold links. cbn. by rewrite list_lookup_fmap, Hp. Qed.

Lemma tidy_reprioritized s i p new : tidy false s -> ports s !! i = Some p -> word new -> Z.land new 0xff = Z.of_nat i + 1 ->
  tidy false (set_ports (alter (reprioritized s new) i (ports s)) s).
Proof.
  intros (Hs & Hr & Hro) Hp Hw Hl. set (s' := set_ports _ s).
  assert (HT : states s' = states s) by (apply states_upd; intros q _; unfold reprioritized; by destruct (stp_is_designated_port s q)).
  split; [by apply base_upd_port; [intros q _; apply port_ok_reprioritized |] |]. split; [intros r Hrr; rewrite HT; by apply Hr |].
  intros j st Hj Hne. rewrite HT in Hj. split; [| done]. intros Hb. destruct (Hro j st Hj Hne) as [Hact _]. specialize (Hact Hb).
  destruct (ports s !! j) as [q |] eqn:Hq; [| exfalso; revert Hj; unfold states; by rewrite list_lookup_fmap, Hq].
  destruct (decide (i = j)) as [<- | Hij].
  - rewrite Hp in Hq. injection Hq as <-. rewrite (is_active_spec s i p Hp) in Hact.
    rewrite (is_active_spec s' i (reprioritized s new p)) by (cbn; by rewrite list_lookup_alter_eq, Hp). cbn [root_port set_ports s'].
    destruct (bool_decide (root_port s = Some i)); [done |]. cbn [orb] in *. unfold reprioritized. rewrite Hact. apply designated_true in Hact as [E1 E2].
    unfold stp_is_designated_port. cbn. rewrite E1. by rewrite !Z.eqb_refl.
  - rewrite (is_active_spec s j q Hq) in Hact. by rewrite (is_active_spec s' j q) by (cbn; by rewrite list_lookup_alter_ne).
Qed.

Lemma keeps_priority i pri : (i < STP_MAX_PORTS)%nat -> 0 <= pri < 256 -> keeps (tidy false) (stp_port_set_priority i pri).
Proof.
  intros Hi Hpri. unfold stp_port_set_priority. apply total_whole. intros s0 Hs0. apply total_port; [done | by intros s [? _]; apply (tidy_base false) |].
  intros p [id Hok]. cbn zeta. apply total_when; [| by intros _ s [[] _]]. intros _.
  destruct (new_id_spec (port_id p) pri Hpri) as [Hw Hl]. pose proof (eq_trans Hl (proj2 (po_id _ _ _ Hok))) as Hl'.
  apply (total_bind _ _ (fun _ => tidy false)).
  { intros s [[Hs ->] Hp]. eexists _, _. split; [reflexivity |]. by apply (tidy_reprioritized s0 i p). }
  intros _. apply total_port; [done | apply tidy_base |]. intros q _. to_tidy false. apply keeps_when.
  apply (total_bind _ _ (fun _ s => base s /\ rooted s)); [| intros _; apply total_weak, total_selected].
  refine (total_conseq _ _ _ _ _ _ _ (total_become_designated (tidy false) i _)); [done | | apply tidy_base].
  intros _ s' (Hb & s & (_ & Hr & _) & ->). split; [done |]. intros r Hrr. rewrite states_upd by done. by apply Hr.
Qed.

Lemma keeps_set_detection e i v : keeps (tidy e) (upd_port i (set_detection v)).
Proof. apply keeps_tidy; [| intros; by apply still_upd_port]. apply keeps_upd_port. intros. by apply port_ok_detection. Qed.

Lemma keeps_get_changed e : keeps (tidy e) stp_get_changed_port.
Proof.
  intros s Hs. unfold stp_get_changed_port, pbind, pget. destruct (list_find _ _) as [[k p] |] eqn:E.
  - apply list_find_Some in E as (Hk & _ & _). rewrite lookup_drop in Hk. unfold upd_port, pmod, pret. eexists _, _. split; [reflexivity |].
    set (f := set_state (state p) false). set (j := (first_changed_port s + k)%nat) in *.
    assert (HT : states (set_ports (alter f j (ports s)) s) = states s) by (apply states_upd; intros q Hq; rewrite Hk in Hq; by injection Hq as <-).
    apply (tidy_same e s); [| | exact HT | done].
    + apply base_first, base_upd_port; [| by apply (tidy_base e)]. intros q Hq Hok. rewrite Hk in Hq. injection Hq as <-. by destruct Hok.
    + unfold links. cbn. f_equal. by apply map_alter_same.
  - unfold pmod, pret. eexists _, _. split; [reflexivity |]. apply (tidy_same e s); [apply base_first; by apply (tidy_base e) | done | done | done].
Qed.

(** * A running bridge *)

(** What a client can do with a bridge. *)
Inductive op :=
  | O_bpdu (i : nat) (m : list Z) | O_tick (ms : Z) | O_enable (i : nat) | O_disable (i : nat) | O_priority (i : nat) (pri : Z)
  | O_path_cost (i : nat) (cost : Z) | O_speed (i : nat) (speed : Z) | O_detection (i : nat) (on : bool) | O_bridge_id (id : Z) | O_bridge_priority (pri : Z)
  | O_hello_time (ms : Z) | O_max_age (ms : Z) | O_forward_delay (ms : Z) | O_changed.
Definition exec (o : op) : Br unit :=
  match o with
  | O_bpdu i m => stp_received_bpdu i m | O_tick ms => stp_tick ms | O_enable i => stp_port_enable i | O_disable i => stp_port_disable i
  | O_priority i pri => stp_port_set_priority i pri | O_path_cost i cost => stp_port_set_path_cost i cost | O_speed i speed => stp_port_set_speed i speed
  | O_detection i on => if on then stp_port_enable_change_detection i else stp_port_disable_change_detection i
  | O_bridge_id id => stp_set_bridge_id id | O_bridge_priority pri => stp_set_bridge_priority pri
  | O_hello_time ms => stp_set_hello_time ms | O_max_age ms => stp_set_max_age ms | O_forward_delay ms => stp_set_forward_delay ms
  | O_changed => stp_get_changed_port;;; pret tt
  end.
Fixpoint execs (os : list op) : Br unit :=
  match os with
  | [] => pret tt
  | o :: os => exec o;;; execs os
  end.

(** Ports exist, numbers have the width of their types, the path costs that are received stay away
    from the end of [int], and a tick is not longer than two hours and twenty minutes. *)
Definition op_ok (o : op) : Prop :=
  match o with
  | O_bpdu i m => (i < STP_MAX_PORTS)%nat /\ bpdu_ok m
  | O_tick ms => tick_ok ms
  | O_enable i | O_disable i | O_speed i _ | O_detection i _ => (i < STP_MAX_PORTS)%nat
  | O_priority i pri => (i < STP_MAX_PORTS)%nat /\ 0 <= pri < 256
  | O_path_cost i cost => (i < STP_MAX_PORTS)%nat /\ word cost
  | _ => True
  end.
Definition is_priority (o : op) : bool := match o with O_priority _ _ => true | _ => false end.

Lemma keeps_exec e o : op_ok o -> (is_priority o = true -> e = false) -> keeps (tidy e) (exec o).
Proof.
  destruct o; cbn [op_ok is_priority exec].
  - intros [Hi Hm] _. by apply keeps_received_bpdu.
  - intros Ht _. by apply keeps_tick.
  - intros Hi _. by apply keeps_enable.
  - intros Hi _. by apply keeps_disable.
  - intros [Hi Hp] He. rewrite He by done. by apply keeps_priority.
  - intros [Hi Hc] _. by apply keeps_path_cost.
  - intros Hi _. by apply keeps_speed.
  - intros Hi _. destruct on; apply keeps_set_detection.
  - intros _ _. apply keeps_bind; [apply keeps_get |]. intros b. apply keeps_set_bridge_id.
  - intros _ _. apply keeps_bind; [apply keeps_get |]. intros b. apply keeps_set_bridge_id.
  - intros _ _. apply keeps_request.
  - intros _ _. apply keeps_request.
  - intros _ _. apply keeps_request.
  - intros _ _. apply keeps_bind; [apply keeps_get_changed |]. intros _. apply keeps_ret.
Qed.
Lemma keeps_execs e os : Forall op_ok os -> (existsb is_priority os = true -> e = false) -> keeps (tidy e) (execs os).
Proof.
  induction 1 as [| o os Ho Hos IH]; intros He; cbn [execs]; [apply keeps_ret |]. cbn [existsb] in He.
  apply keeps_bind; [apply keeps_exec; [done |] | intros _; apply IH]; intros Hp; apply He; rewrite Hp; [done | apply orb_true_r].
Qed.

(** ** A new bridge *)

Definition first_id (i : nat) : Z := Z.lor (Z.of_nat i + 1) (Z.shiftl STP_DEFAULT_PORT_PRIORITY 8).
Lemma first_id_ok i : (i < STP_MAX_PORTS)%nat -> word (first_id i) /\ Z.land (first_id i) 0xff = Z.of_nat i + 1.
Proof.
  intros Hi. assert (H : forallb (fun i => (0 <=? first_id i) && (first_id i <? 2 ^ 16) && (Z.land (first_id i) 0xff =? Z.of_nat i + 1)) (seq 0 STP_MAX_PORTS) = true)
    by (vm_compute; reflexivity).
  rewrite forallb_forall in H. specialize (H i). rewrite <- list_elem_of_In, elem_of_seq in H. specialize (H ltac:(lia)).
  apply andb_true_iff in H as [[H1%Z.leb_le H2%Z.ltb_lt]%andb_true_iff H3%Z.eqb_eq]. done.
Qed.
Definition born (s : stp) (i : nat) (c : bool) : stp_port := fresh s STP_DISABLED c (set_path_cost 19 (set_port_id (first_id i) zero_port)).

Lemma new_port_spec i s : ports s !! i = Some zero_port -> exists c n, init_port i s = Some (tt, set_first n (set_ports (alter (fun _ => born s i c) i (ports s)) s)).
Proof.
  intros Hp. unfold init_port. unfold pbind at 1. unfold upd_port at 1, pmod at 1. fold (first_id i).
  set (t := set_ports _ s). destruct (initialize_spec i STP_DISABLED t (set_path_cost 19 (set_port_id (first_id i) zero_port))) as (c & n & ->).
  { unfold t. cbn. by rewrite list_lookup_alter_eq, Hp. }
  exists c, n. do 3 f_equal. unfold t. cbn [ports set_ports]. rewrite list_alter_alter_eq, set_ports_twice. f_equal. by apply (alter_to _ _ _ _ zero_port Hp).
Qed.

Lemma new_ports_spec n : forall k s, (k + n = STP_MAX_PORTS)%nat -> length (ports s) = STP_MAX_PORTS ->
  (forall i, (k <= i < STP_MAX_PORTS)%nat -> ports s !! i = Some zero_port) ->
  exists m l, new_ports (seq k n) s = Some (tt, set_first m (set_ports l s)) /\ length l = STP_MAX_PORTS /\
    forall i p, l !! i = Some p -> (i < k)%nat /\ ports s !! i = Some p \/ (k <= i)%nat /\ exists c, p = born s i c.
Proof.
  induction n as [| n IH]; intros k s Hk Hl Hz; cbn [seq new_ports].
  { exists (first_changed_port s), (ports s). unfold pret. rewrite set_ports_same, set_first_same. split; [done |]. split; [done |].
    intros i p Hp. left. split; [| done]. apply lookup_lt_Some in Hp. lia. }
  destruct (new_port_spec k s) as (c & m & E); [apply Hz; lia |]. unfold pbind. rewrite E. set (t := set_first m _).
  destruct (IH (S k) t) as (m' & l & -> & Hl' & Hs); [lia | cbn; by rewrite length_alter | |].
  { intros i Hi. cbn. rewrite list_lookup_alter_ne by lia. apply Hz. lia. }
  exists m', l. split; [done |]. split; [done |]. intros i p Hp. destruct (Hs i p Hp) as [[Hi Hpi] | [Hi [c' ->]]]; [| right; split; [lia | by exists c']].
  cbn in Hpi. destruct (decide (k = i)) as [<- | Hne].
  - rewrite list_lookup_alter_eq, Hz in Hpi by lia. injection Hpi as <-. right. split; [lia | by exists c].
  - rewrite list_lookup_alter_ne in Hpi by done. left. split; [lia | done].
Qed.

Lemma port_ok_born s i c : (i < STP_MAX_PORTS)%nat -> port_ok (bridge_id s) i (born s i c).
Proof.
  intros Hi. destruct (first_id_ok i Hi). assert (timer_ok zero_timer) by (unfold timer_ok; cbn; split; [lia | done]).
  constructor; cbn; try done. unfold valid_state. set_solver.
Qed.

Lemma new_bridge_spec id : new_bridge id zero_stp =
  Some (tt, Stp id (Times 1536 512 1024) (Times 1536 512 1024) (Times 6000 2000 4000) 0 id 0 None false false
    (Timer true 0) zero_timer zero_timer (replicate STP_MAX_PORTS zero_port) STP_MAX_PORTS []).
Proof. vm_compute. reflexivity. Qed.

Lemma create_spec id : exists s, stp_create id = Some s /\ bridge_id s = full_id id /\ tidy true s /\ (forall i st, states s !! i = Some st -> st = STP_DISABLED) /\
  stp_designated_root s = full_id id /\ root_port s = None /\ sent s = [].
Proof.
  unfold stp_create. unfold pbind at 1. rewrite new_bridge_spec. set (s0 := Stp (full_id id) _ _ _ _ _ _ _ _ _ _ _ _ _ _ _).
  destruct (new_ports_spec STP_MAX_PORTS 0 s0) as (m & l & E & Hl & Hp); [done | done | |].
  { intros i Hi. apply lookup_replicate_2. lia. }
  unfold all_ports. rewrite E. eexists. split; [reflexivity |]. split; [done |].
  assert (Hst : forall i st, map state l !! i = Some st -> st = STP_DISABLED).
  { intros i st. rewrite list_lookup_fmap. destruct (l !! i) as [p |] eqn:Ei; [| done]. intros [= <-]. destruct (Hp i p Ei) as [[] | [_ [c ->]]]; [lia | done]. }
  split; [| split; [exact Hst | split; [reflexivity | split; reflexivity]]]. assert (timer_ok zero_timer) by (unfold timer_ok; cbn; split; [lia | done]). split.
  - constructor; [exact Hl | | | | unfold s0; cbn; lia | unfold s0; cbn; lia | intros r [=] | apply timer_start0 | done | done].
    + intros i p Ei. destruct (Hp i p Ei) as [[] | [_ [c ->]]]; [lia |]. apply (port_ok_born s0). rewrite <- Hl. by apply lookup_lt_Some in Ei.
    + unfold s0, times_ok, word. cbn. lia.
    + unfold s0, times_ok, word. cbn. lia.
  - split; [intros r [=] |]. intros i st Hi Hne. by destruct Hne; apply (Hst i).
Qed.
#[local] Opaque stp_create all_ports.

(** * Theorems *)

Lemma tidy_port e s i p : tidy e s -> ports s !! i = Some p ->
  valid_state (state p) /\
  (state p <> STP_DISABLED -> state p <> STP_BLOCKING -> root_port s = Some i \/ stp_is_designated_port s p = true) /\
  (e = true -> state p <> STP_DISABLED -> root_port s = Some i \/ stp_is_designated_port s p = true -> state p <> STP_BLOCKING).
Proof.
  intros (Hs & _ & Hro) Hp. assert (HT : states s !! i = Some (state p)) by (unfold states; by rewrite list_lookup_fmap, Hp).
  pose proof (is_active_spec s i p Hp) as Ha. split; [by apply (states_valid s i) |].
  assert (Hiff : is_active (links s) i = true <-> root_port s = Some i \/ stp_is_designated_port s p = true)
    by (rewrite Ha, orb_true_iff, bool_decide_eq_true; done).
  split; [intros Hd Hb | intros He Hd Hr]; destruct (Hro i _ HT Hd) as [H1 H2]; [by apply Hiff, H1 | by apply H2; [| apply Hiff]].
Qed.

(** C18. Whatever is configured, whatever BPDUs with path costs up to 2^31 - 2^17 are received and whatever
    intervals of up to 8387 seconds are timed ([op_ok]), in any order, no operation of a bridge is undefined,
    and in every state a port that takes part in the protocol and is not blocked is the root port or a designated
    port. Unless the priority of a port was changed, these are not blocked either. The root port is never
    disabled. Beyond these bounds [int] overflows, see [bounds_needed]. *)
Theorem bridge_roles id os :
  Forall op_ok os ->
  exists s0 s, stp_create id = Some s0 /\ execs os s0 = Some (tt, s) /\
    (forall i p, ports s !! i = Some p ->
       valid_state (state p) /\
       (state p <> STP_DISABLED -> state p <> STP_BLOCKING -> root_port s = Some i \/ stp_is_designated_port s p = true) /\
       (existsb is_priority os = false -> state p <> STP_DISABLED ->
          root_port s = Some i \/ stp_is_designated_port s p = true -> state p <> STP_BLOCKING)) /\
    (forall r, root_port s = Some r -> exists p, ports s !! r = Some p /\ state p <> STP_DISABLED).
Proof.
  intros Hos. destruct (create_spec id) as (s0 & E & _ & Ht & _). exists s0. set (e := negb (existsb is_priority os)).
  destruct (keeps_execs e os Hos ltac:(unfold e; by intros ->) s0 (tidy_weak e _ Ht)) as ([] & s & E2 & Hs). exists s. split; [done |]. split; [done |]. split.
  - intros i p Hp. destruct (tidy_port e s i p Hs Hp) as (H1 & H2 & H3). split; [done |]. split; [done |]. intros Hn. apply H3. unfold e. by rewrite Hn.
  - intros r Hr. destruct Hs as (_ & Hroot & _). destruct (Hroot r Hr) as (st & Hst & Hne). unfold states in Hst. rewrite list_lookup_fmap in Hst.
    destruct (ports s !! r) as [p |]; [| done]. injection Hst as <-. exists p. split; [reflexivity | exact Hne].
Qed.

Lemma update_chooses s :
  base s ->
  exists s', stp_configuration_update s = Some (tt, s') /\
    (forall i p, ports s !! i = Some p -> candidate s p = true ->
       exists r q, root_port s' = Some r /\ ports s !! r = Some q /\ candidate s q = true /\ lex_lt (vector p) (vector q) = false) /\
    (root_port s' = None -> stp_designated_root s' = bridge_id s /\ root_path_cost s' = 0) /\
    (forall r q, root_port s' = Some r -> ports s !! r = Some q ->
       candidate s q = true /\ stp_designated_root s' = designated_root q /\ root_path_cost s' = designated_cost q + path_cost q) /\
    (forall i p, ports s !! i = Some p -> state p <> STP_DISABLED ->
       ports s' !! i = Some (if should_designate s' p then set_designated (stp_designated_root s') (root_path_cost s') (bridge_id s) (port_id p) p else p)).
Proof.
  intros Hs. destruct (configuration_update_spec s (b_ports _ Hs)) as (r & Hb & E).
  { intros i p Hp Hc. destruct (base_candidate s i p Hs Hp Hc). unfold cost_ok. lia. }
  pose proof (base_rooted_at s r Hs Hb) as Hs1. eexists. split; [exact E |]. cbn [root_port redesignated set_ports rooted_at set_root].
  split; [| split; [| split]].
  - intros i p Hp Hc. assert (Hin : i ∈ all_ports) by (apply in_all_ports; rewrite <- (b_ports _ Hs); by apply lookup_lt_Some in Hp). destruct r as [r |]; cbn [best_of] in Hb.
    + destruct Hb as (_ & q & Hq & Hcq & Hbest). exists r, q. split_and!; [done | done | done |]. apply (Hbest i p); [by left | done | done].
    + destruct Hb as [_ Hn]. by rewrite (Hn i p) in Hc.
  - intros ->. done.
  - intros r' q -> Hq. destruct Hb as (_ & q' & Hq' & Hc & _). rewrite Hq in Hq'. injection Hq' as <-. destruct (base_candidate s r' q Hs Hq Hc) as [_ Hcost].
    unfold redesignated, rooted_at, root_info. cbn [mbind option_bind]. rewrite Hq. cbn. split_and!; [done | done |]. unfold wrap. apply Z.mod_small. lia.
  - intros i p Hp Hne. unfold redesignated at 1. cbn [ports set_ports]. unfold each_enabled. rewrite list_lookup_fmap. cbn [ports rooted_at set_root]. rewrite Hp. cbn [fmap option_fmap option_map].
    apply Z.eqb_neq in Hne as ->. f_equal. change (should_designate (redesignated (rooted_at s r)) p) with (should_designate (rooted_at s r) p).
    destruct (should_designate (rooted_at s r) p); [| done]. unfold designate. rewrite signed32_small by apply (b_cost _ Hs1). done.
Qed.

(** C39. The choice of the root: the root of the bridge is the least of its own identifier and of what
    its enabled ports that are not designated heard; the root port is the one that comes first in
    the order of the standard, and the cost is that of the port plus what it heard. Afterwards a
    port on which the bridge has the better claim is designated and says what the bridge believes. *)
Theorem configuration_chooses s :
  base s ->
  exists s', stp_configuration_update s = Some (tt, s') /\
    (forall i p, ports s !! i = Some p -> candidate s p = true ->
       exists r q, root_port s' = Some r /\ ports s !! r = Some q /\ candidate s q = true /\ lex_lt (vector p) (vector q) = false) /\
    (root_port s' = None -> stp_designated_root s' = bridge_id s /\ root_path_cost s' = 0) /\
    (forall r q, root_port s' = Some r -> ports s !! r = Some q ->
       candidate s q = true /\ stp_designated_root s' = designated_root q /\ root_path_cost s' = designated_cost q + path_cost q) /\
    (forall i p, ports s !! i = Some p -> state p <> STP_DISABLED ->
       ports s' !! i = Some (if should_designate s' p then set_designated (stp_designated_root s') (root_path_cost s') (bridge_id s) (port_id p) p else p)).
Proof. exact (update_chooses s). Qed.

(** The times of a bridge that is root keep to the ranges of the standard, and to its relation of
    hello time and maximum age. The relation of forward delay and maximum age holds but for two
    ticks, which rounding takes. *)
Theorem bridge_times_proper r b :
  bridge_times r = Some b ->
  256 <= hello_time b <= 2560 /\ 1536 <= max_age b <= 10240 /\ 1024 <= forward_delay b <= 7680 /\
  2 * (hello_time b + 256) <= max_age b /\ max_age b - 2 <= 2 * (forward_delay b - 256).
Proof.
  destruct (bridge_times_spec r) as (ht & ma & fd & [] & -> & _). intros [= <-]. cbn [hello_time max_age forward_delay].
  pose proof (Z.div_mod (ht * 256) 1000 ltac:(lia)). pose proof (Z.mod_pos_bound (ht * 256) 1000 ltac:(lia)).
  pose proof (Z.div_mod (ma * 256) 1000 ltac:(lia)). pose proof (Z.mod_pos_bound (ma * 256) 1000 ltac:(lia)).
  pose proof (Z.div_mod (fd * 256) 1000 ltac:(lia)). pose proof (Z.mod_pos_bound (fd * 256) 1000 ltac:(lia)). lia.
Qed.
(** With a maximum age of 6004 ms asked for, twice the forward delay less a second is shorter than it. *)
Lemma delay_too_short : exists b, bridge_times (Times 6004 2000 4000) = Some b /\ 2 * (forward_delay b - 256) < max_age b.
Proof. eexists. split; [vm_compute; reflexivity |]. cbn. lia. Qed.

(** ** Time *)

Lemma tick_spec ms s : 0 <= ms <= 8387000 -> 0 <= elapsed_remainder s < 1000 ->
  let n := (ms + elapsed_remainder s) * 256 in
  stp_tick ms s = (if n / 1000 =? 0 then pret tt else run_timers (n / 1000)) (set_remainder (n mod 1000) s).
Proof.
  intros Hms Hr. cbn zeta. unfold stp_tick, pbind, pget. assert (Ec : clamp ms 0 (INT_MAX - 1000) = ms).
  { unfold clamp, INT_MAX. destruct (Z.ltb_spec ms 0), (Z.ltb_spec (2 ^ 31 - 1 - 1000) ms); lia. }
  rewrite Ec, int_some by lia. unfold plift, ms_to_timer, ms_to_timer_remainder. rewrite int_some by lia. cbn [mbind option_bind].
  rewrite Z.quot_div_nonneg, Z.rem_mod_nonneg by lia. reflexivity.
Qed.

(** What is left of the time after a tick is kept in 1/256 of a millisecond and taken for whole
    milliseconds: of two calls one millisecond apart, which are half a tick together, the second
    makes the timers run 65 ticks, a quarter of a second. Only intervals that are multiples of
    125 ms are timed right. *)
Theorem ticks_gained s :
  elapsed_remainder s = 0 ->
  stp_tick 1 s = Some (tt, set_remainder 256 s) /\
  stp_tick 1 (set_remainder 256 s) = run_timers 65 (set_remainder 792 s) /\
  (forall ms, 0 < ms <= 8387000 -> (125 | ms) -> stp_tick ms s = run_timers (ms * 256 / 1000) s).
Proof.
  intros Hr. assert (Hs : set_remainder 0 s = s) by (rewrite <- Hr; by destruct s). split; [| split].
  - rewrite tick_spec by lia. rewrite Hr. reflexivity.
  - rewrite tick_spec by (cbn; lia). reflexivity.
  - intros ms Hms [k ->]. rewrite tick_spec by lia. rewrite Hr, Z.add_0_r. replace (k * 125 * 256) with (k * 32 * 1000) by lia.
    rewrite Z.div_mul, Z.mod_mul, Hs by lia. destruct (Z.eqb_spec (k * 32) 0); [lia | done].
Qed.

(** ** BPDUs *)

Record config_fits (c : stp_config_bpdu) : Prop := ConfigFits {
  cf_root : fits 8 (root_id c) = true; cf_cost : fits 4 (c_root_path_cost c) = true; cf_bridge : fits 8 (c_bridge_id c) = true; cf_port : fits 2 (c_port_id c) = true;
  cf_age : fits 2 (message_age c) = true; cf_max : fits 2 (c_max_age c) = true; cf_hello : fits 2 (c_hello_time c) = true; cf_delay : fits 2 (c_forward_delay c) = true }.

Lemma load_last n z : fits n z = true -> be_load (slice 0 n (be_store n z)) = z.
Proof. intros Hz. rewrite <- (app_nil_r (be_store n z)). rewrite slice_first by apply be_store_length. rewrite be_load_store. by apply fits_wrap. Qed.
Lemma load_first n z b : fits n z = true -> be_load (slice 0 n (be_store n z ++ b)) = z.
Proof. intros Hz. rewrite slice_first by apply be_store_length. rewrite be_load_store. by apply fits_wrap. Qed.
Ltac skip_field := rewrite slice_app_r by (rewrite ?be_store_length; cbn; lia); rewrite ?be_store_length; cbn [length Nat.sub].
Ltac load_field := repeat skip_field; first [by apply load_first | by apply load_last].

(** A configuration that is sent is received as it was sent: 35 bytes, from which the same values
    are read. *)
Theorem config_roundtrip c : config_fits c -> length (config_bytes c) = 35%nat /\ nth 3 (config_bytes c) 0 = STP_TYPE_CONFIG /\ read_config (config_bytes c) = c.
Proof.
  intros []. destruct c as [f r co br p a m h d]. cbn [root_id c_root_path_cost c_bridge_id c_port_id message_age c_max_age c_hello_time c_forward_delay] in *.
  unfold config_bytes, bpdu_header. cbn [flags root_id c_root_path_cost c_bridge_id c_port_id message_age c_max_age c_hello_time c_forward_delay].
  change (be_store 2 0) with [0; 0]. cbn [app]. split; [cbn [length]; rewrite !length_app, !be_store_length; done |]. split; [done |].
  unfold read_config. f_equal; try done.
  all: repeat match goal with |- context [slice ?n ?k (?x :: ?l)] => change (slice n k (x :: l)) with (slice n k ([x] ++ l)); skip_field end; load_field.
Qed.

(** ** The flags *)

(** The flags of a configuration are one byte, and [htons] moves a flag to the upper byte of two:
    none is ever sent, and none that is received is seen. *)
Lemma flags_shifted x f : 0 <= x < 256 -> f = STP_CONFIG_TOPOLOGY_CHANGE_ACK \/ f = STP_CONFIG_TOPOLOGY_CHANGE -> or_flag x f = x /\ has_flag x f = false.
Proof.
  intros Hx Hf. assert (Eh : htons f = Z.shiftl f 8) by (destruct Hf as [-> | ->]; vm_compute; reflexivity).
  assert (Hl : Z.land x (Z.shiftl f 8) = 0).
  { apply Z.bits_inj'. intros n Hn. rewrite Z.land_spec, Z.bits_0, Z.shiftl_spec by lia. destruct (Z.ltb_spec n 8); [rewrite (Z.testbit_neg_r f) by lia; apply andb_false_r |].
    replace x with (x mod 2 ^ 8) by (apply Z.mod_small; lia). by rewrite Z.mod_pow2_bits_high by lia. }
  unfold or_flag, has_flag. rewrite Eh. split; [| by rewrite Hl].
  pose proof (Z.add_lor_land x (Z.shiftl f 8)) as E. rewrite Hl in E. replace (Z.lor x (Z.shiftl f 8)) with (x + f * 2 ^ 8) by (rewrite <- Z.shiftl_mul_pow2 by lia; lia).
  unfold wrap. rewrite Z.mod_add by lia. apply Z.mod_small. lia.
Qed.

Definition detected (s : stp) : Prop := topology_change_detected s = true.
#[local] Hint Extern 1 (preserved detected (upd_port _ _)) => apply preserved_mod; done : preserved.
#[local] Hint Extern 1 (preserved detected (pmod _)) => apply preserved_mod; done : preserved.
#[local] Hint Extern 1 (preserved detected (stp_send_bpdu _ _)) => apply preserved_mod; done : preserved.
#[local] Hint Extern 1 (preserved detected (with_hello _)) => apply preserved_mod; done : preserved.
#[local] Hint Extern 1 (preserved detected (with_tcn _)) => apply preserved_mod; done : preserved.
#[local] Hint Extern 1 (preserved detected (with_change_timer _)) => apply preserved_mod; done : preserved.
Lemma detected_port_at i : preserved detected (port_at i).
Proof. unfold port_at. preserved_deep. Qed.
Lemma detected_whole : preserved detected whole.
Proof. by intros s x s' Hs [= <- <-]. Qed.
#[local] Hint Resolve detected_port_at detected_whole : preserved.
Lemma detected_for_each body l : (forall i, preserved detected (body i)) -> preserved detected (for_each_enabled_port body l).
Proof. intros Hb. induction l as [| i l IH]; cbn [for_each_enabled_port]; preserved_deep. Qed.
Lemma detected_transmit_config i : preserved detected (stp_transmit_config i).
Proof. unfold stp_transmit_config. preserved_deep. Qed.
Lemma detected_transmit_tcn : preserved detected stp_transmit_tcn.
Proof. unfold stp_transmit_tcn. preserved_deep. Qed.
#[local] Hint Resolve detected_transmit_config detected_transmit_tcn : preserved.
Lemma detected_detection : preserved detected stp_topology_change_detection.
Proof. unfold stp_topology_change_detection. preserved_deep. Qed.
Lemma detected_set_state i st : preserved detected (stp_set_port_state i st).
Proof. unfold stp_set_port_state. preserved_deep. apply preserved_mod. intros s Hs. by destruct (i <? _)%nat. Qed.
#[local] Hint Resolve detected_detection detected_set_state : preserved.
Lemma detected_selection : preserved detected stp_port_state_selection.
Proof. unfold stp_port_state_selection. apply detected_for_each. intros i. unfold stp_make_forwarding, stp_make_blocking. preserved_deep. Qed.
Lemma detected_root_loop l : forall r, preserved detected (root_loop l r).
Proof. induction l as [| i l IH]; intros r; cbn [root_loop]; preserved_deep. Qed.
#[local] Hint Resolve detected_root_loop : preserved.
Lemma detected_update : preserved detected stp_configuration_update.
Proof.
  unfold stp_configuration_update, stp_root_selection, stp_designated_port_selection. apply preserved_bind; [preserved_deep |]. intros _.
  apply detected_for_each. intros i. unfold stp_become_designated_port. preserved_deep.
Qed.
Lemma detected_generation : preserved detected stp_config_bpdu_generation.
Proof. unfold stp_config_bpdu_generation. apply detected_for_each. intros i. preserved_deep. Qed.
#[local] Hint Extern 0 (preserved detected stp_port_state_selection) => exact detected_selection : preserved.
#[local] Hint Extern 0 (preserved detected stp_configuration_update) => exact detected_update : preserved.
#[local] Hint Extern 0 (preserved detected stp_config_bpdu_generation) => exact detected_generation : preserved.

(** C40. A topology change that was detected is never acknowledged: whatever is received, the bridge
    goes on to report it. No configuration that is sent has a flag. *)
Theorem changes_never_acknowledged i m s s' :
  bytes_ok m -> topology_change_detected s = true -> stp_received_bpdu i m s = Some (tt, s') ->
  topology_change_detected s' = true /\ forall t p age, flags (config_of t p age) = 0.
Proof.
  intros Hm Hd E. split.
  - revert Hd E. apply (preserved_use detected (stp_received_bpdu i m)). unfold stp_received_bpdu. preserved_deep.
    + unfold stp_received_config_bpdu, stp_record_config_information, stp_record_config_timeout_values. cbn [flags read_config].
      assert (Hf : 0 <= nth 4 m 0 < 256). { destruct (nth_in_or_default 4 m 0) as [Hin | ->]; [| lia]. unfold bytes_ok in Hm. rewrite Forall_forall in Hm. apply Hm, list_elem_of_In, Hin. }
      rewrite (proj2 (flags_shifted _ STP_CONFIG_TOPOLOGY_CHANGE_ACK Hf ltac:(by left))).
      change (pwhen false stp_topology_change_acknowledged) with (@pret stp unit tt). preserved_deep.
    + unfold stp_received_tcn_bpdu, stp_acknowledge_topology_change. preserved_deep.
  - intros t p age. unfold config_of. cbn [flags]. assert (H1 : or_flag 0 STP_CONFIG_TOPOLOGY_CHANGE_ACK = 0) by (vm_compute; reflexivity).
    assert (H2 : or_flag 0 STP_CONFIG_TOPOLOGY_CHANGE = 0) by (vm_compute; reflexivity). rewrite H1. destruct (topology_change_ack p), (topology_change t); done.
Qed.

(** ** Examples *)

(** A bridge with two ports, which hears of a better root on the first one. *)
Definition demo_config : stp_config_bpdu := Config 0 0x8000000000000010 0 0x8000000000000010 0x8001 0 5120 512 3840.
Definition demo_ops : list op := [O_enable 0; O_enable 1; O_bpdu 0 (config_bytes demo_config); O_tick 1000].
Definition demo_run (os : list op) : stp := match stp_create 0x20 with Some s => match execs os s with Some (_, s') => s' | None => s end | None => zero_stp end.

Lemma demo_bpdu_ok : bpdu_ok (config_bytes demo_config).
Proof. split; [repeat constructor; vm_compute; done | vm_compute; done]. Qed.
Lemma demo_ops_ok : Forall op_ok demo_ops.
Proof. repeat constructor; try (vm_compute; lia); try apply demo_bpdu_ok; vm_compute; done. Qed.

Lemma bridge_roles_witness :
  root_port (demo_run demo_ops) = Some 0%nat /\
  exists s0 s, stp_create 0x20 = Some s0 /\ execs demo_ops s0 = Some (tt, s) /\
    forall r, root_port s = Some r -> exists p, ports s !! r = Some p /\ state p <> STP_DISABLED.
Proof.
  split; [vm_compute; reflexivity |]. destruct (bridge_roles 0x20 demo_ops demo_ops_ok) as (s0 & s & H1 & H2 & _ & H3).
  exists s0, s. split; [exact H1 |]. split; [exact H2 | exact H3].
Defined.

(** A tick of more than 8388607 ms, or a path cost at the end of [int]. *)
Lemma bounds_needed :
  (s0 ← stp_create 0x20; execs [O_enable 0; O_tick 8388608] s0) = None /\
  (s0 ← stp_create 0x20; execs [O_enable 0; O_bpdu 0 (config_bytes (Config 0 0x10 (2 ^ 31 - 1) 0x10 0x8001 0 5120 512 3840))] s0) = None.
Proof. split; vm_compute; reflexivity. Qed.

Lemma demo_base s0 s : stp_create 0x20 = Some s0 -> execs demo_ops s0 = Some (tt, s) -> base s.
Proof.
  intros E E2. destruct (create_spec 0x20) as (s1 & E1 & _ & Ht & _). rewrite E1 in E. injection E as ->.
  destruct (keeps_execs true demo_ops demo_ops_ok ltac:(done) s0 Ht) as ([] & s2 & E3 & Hs). rewrite E3 in E2. injection E2 as ->. by apply (tidy_base true).
Qed.
Lemma configuration_chooses_witness : exists s0 s, stp_create 0x20 = Some s0 /\ execs demo_ops s0 = Some (tt, s) /\
  exists s', stp_configuration_update s = Some (tt, s') /\ (root_port s' = None -> stp_designated_root s' = bridge_id s /\ root_path_cost s' = 0).
Proof.
  destruct (create_spec 0x20) as (s0 & E & _ & Ht & _). destruct (keeps_execs true demo_ops demo_ops_ok ltac:(done) s0 Ht) as ([] & s & E2 & _).
  exists s0, s. split; [exact E |]. split; [exact E2 |]. destruct (configuration_chooses s (demo_base s0 s E E2)) as (s' & H1 & _ & H2 & _). exists s'. split; [exact H1 | exact H2].
Defined.

Lemma bridge_times_proper_witness : exists b, bridge_times (Times 20000 2000 15000) = Some b /\ 2 * (hello_time b + 256) <= max_age b.
Proof.
  exists (Times 5120 512 3840). split; [vm_compute; reflexivity |].
  apply (bridge_times_proper (Times 20000 2000 15000) (Times 5120 512 3840)). vm_compute. reflexivity.
Defined.

Lemma ticks_gained_witness : stp_tick 1 zero_stp = Some (tt, set_remainder 256 zero_stp).
Proof. apply (ticks_gained zero_stp). reflexivity. Defined.

Lemma demo_config_fits : config_fits demo_config.
Proof. by constructor. Qed.
Lemma config_roundtrip_witness : read_config (config_bytes demo_config) = demo_config.
Proof. apply (config_roundtrip demo_config demo_config_fits). Defined.

(** The acknowledgment of a topology change that the bridge has detected. *)
Definition demo_ack : list Z := config_bytes (Config STP_CONFIG_TOPOLOGY_CHANGE_ACK 0x8000000000000010 0 0x8000000000000010 0x8001 0 5120 512 3840).
Definition demo_changed : stp := match stp_topology_change_detection (demo_run demo_ops) with Some (_, s) => s | None => zero_stp end.
Lemma demo_ack_ok : bytes_ok demo_ack.
Proof. repeat constructor; vm_compute; done. Qed.
Definition demo_after : stp := match stp_received_bpdu 0 demo_ack demo_changed with Some (_, s) => s | None => zero_stp end.
Lemma demo_received : stp_received_bpdu 0 demo_ack demo_changed = Some (tt, demo_after).
Proof. vm_compute. reflexivity. Qed.
Lemma changes_never_acknowledged_witness : nth 4 demo_ack 0 = STP_CONFIG_TOPOLOGY_CHANGE_ACK /\ topology_change_detected demo_after = true.
Proof.
  split; [vm_compute; reflexivity |].
  apply (changes_never_acknowledged 0 demo_ack demo_changed demo_after demo_ack_ok); [vm_compute; reflexivity | exact demo_received].
Defined.
End Stp.
