(* ===== verification/StpNet.v ===== *)
(** Networks of bridges that run the spanning tree protocol: when nothing that is sent changes
    anything any more, the ports that forward make a tree. *)
From S2P Require Import Prelude Wire State Stp.
Open Scope Z_scope.

Module StpNet.
Import Stp.

(** Bridges, and the segment each of their ports is attached to. *)
Record network := Net { nodes : list stp; lan : nat -> nat -> nat }.

(** An enabled port of a bridge. *)
Definition on (N : network) (b i : nat) (s : stp) (p : stp_port) : Prop :=
  nodes N !! b = Some s /\ ports s !! i = Some p /\ state p <> STP_DISABLED.
(** A port that is designated by its own bridge: it sends the configurations on its segment. *)
Definition sends (N : network) (b i : nat) (s : stp) (p : stp_port) : Prop := on N b i s p /\ stp_is_designated_port s p = true.

(** What a port knows is what a configuration says. *)
Definition knows (p : stp_port) (c : stp_config_bpdu) : Prop :=
  designated_root p = root_id c /\ designated_cost p = c_root_path_cost c /\ designated_bridge p = c_bridge_id c /\ designated_port p = c_port_id c.

(** Nothing changes any more. Each bridge is in order and has made its choice; the identifiers are
    different; each configuration that is sent on a segment is known there or not better than what
    is known; and what is known and not from the bridge itself was sent by a port that still sends. *)
Record stable (N : network) : Prop := Stable {
  st_tidy : forall b s, nodes N !! b = Some s -> tidy false s;
  st_chosen : forall b s, nodes N !! b = Some s -> stp_configuration_update s = Some (tt, s);
  st_ids : forall b b' s s', nodes N !! b = Some s -> nodes N !! b' = Some s' -> bridge_id s = bridge_id s' -> b = b';
  st_cost : forall b i s p, on N b i s p -> 0 < path_cost p;
  st_heard : forall b i s p b' i' s' p' age, sends N b i s p -> on N b' i' s' p' -> lan N b i = lan N b' i' -> (b, i) <> (b', i') ->
    stp_supersedes_port_info s' p' (config_of s p age) = true -> knows p' (config_of s p age);
  st_known : forall b i s p, on N b i s p -> stp_is_designated_port s p = false ->
    exists b' i' s' p' age, sends N b' i' s' p' /\ lan N b' i' = lan N b i /\ (b', i') <> (b, i) /\ knows p (config_of s' p' age) }.

(** Bridges with ports on the same segment; the bridge above another one, to which its root port leads. *)
Definition neighbours (N : network) (b b' : nat) : Prop :=
  exists i s p i' s' p', on N b i s p /\ on N b' i' s' p' /\ lan N b i = lan N b' i'.
Definition uplink (N : network) (b b' : nat) : Prop :=
  exists r s p i' s' p', on N b r s p /\ root_port s = Some r /\ sends N b' i' s' p' /\ lan N b r = lan N b' i'.

(** A frame that comes in on one port of a bridge and goes out on another, and is received by
    another port of the segment. *)
Record transit := Hop { h_bridge : nat; h_in : nat; h_out : nat }.
Definition forwards (N : network) (b i : nat) : Prop := exists s p, on N b i s p /\ state p = STP_FORWARDING.
Definition hop_ok (N : network) (h : transit) : Prop := forwards N (h_bridge h) (h_in h) /\ forwards N (h_bridge h) (h_out h) /\ h_in h <> h_out h.
Definition linked (N : network) (h h' : transit) : Prop :=
  lan N (h_bridge h) (h_out h) = lan N (h_bridge h') (h_in h') /\ (h_bridge h, h_out h) <> (h_bridge h', h_in h').
Fixpoint path (N : network) (h : transit) (hs : list transit) : Prop :=
  match hs with
  | [] => True
  | h' :: hs => hop_ok N h' /\ linked N h h' /\ path N h' hs
  end.
Definition loop (N : network) (h : transit) (hs : list transit) : Prop := hop_ok N h /\ path N h (hs ++ [h]).

(** * One bridge *)

Section bridge.
Context (N : network) (HN : stable N).

Lemma node_base b s : nodes N !! b = Some s -> base s.
Proof using HN. intros Hb. by apply (tidy_base false), (st_tidy _ HN b). Qed.

(** The choice of a bridge that has made it. *)
Lemma chosen b s : nodes N !! b = Some s ->
  (forall i p, ports s !! i = Some p -> candidate s p = true ->
     exists r q, root_port s = Some r /\ ports s !! r = Some q /\ candidate s q = true /\ lex_lt (vector p) (vector q) = false) /\
  (root_port s = None -> stp_designated_root s = bridge_id s /\ root_path_cost s = 0) /\
  (forall r q, root_port s = Some r -> ports s !! r = Some q ->
     candidate s q = true /\ stp_designated_root s = designated_root q /\ root_path_cost s = designated_cost q + path_cost q) /\
  (forall i p, ports s !! i = Some p -> state p <> STP_DISABLED ->
     ports s !! i = Some (if should_designate s p then set_designated (stp_designated_root s) (root_path_cost s) (bridge_id s) (port_id p) p else p)).
Proof using HN.
  intros Hb. destruct (update_chooses s (node_base b s Hb)) as (s' & E & H). rewrite (st_chosen _ HN b s Hb) in E. injection E as <-. exact H.
Qed.

Lemma candidate_inv s p : candidate s p = true -> state p <> STP_DISABLED /\ stp_is_designated_port s p = false /\ designated_root p < bridge_id s.
Proof. unfold candidate. intros [[H1%negb_true_iff%Z.eqb_neq H2%negb_true_iff]%andb_true_iff H3%Z.ltb_lt]%andb_true_iff. done. Qed.

(** A port that sends says what its bridge believes. *)
Lemma sends_says b i s p : sends N b i s p ->
  designated_root p = stp_designated_root s /\ designated_cost p = root_path_cost s /\ designated_bridge p = bridge_id s /\ designated_port p = port_id p.
Proof using HN.
  intros [(Hb & Hp & Hne) Hd]. destruct (chosen b s Hb) as (_ & _ & _ & H4). specialize (H4 i p Hp Hne).
  assert (Hs : should_designate s p = true) by (unfold should_designate; by rewrite Hd). rewrite Hs, Hp in H4. injection H4 as H4.
  destruct (designated_true s p Hd) as [E1 E2]. split; [by rewrite H4 |]. split; [by rewrite H4 | done].
Qed.

(** On another port the bridge has the worse claim. *)
Lemma yields b i s p : on N b i s p -> stp_is_designated_port s p = false ->
  designated_root p = stp_designated_root s /\ 0 <= designated_cost p <= root_path_cost s.
Proof using HN.
  intros (Hb & Hp & Hne) Hd. destruct (chosen b s Hb) as (_ & _ & _ & H4). specialize (H4 i p Hp Hne).
  assert (Hs : should_designate s p = false).
  { destruct (should_designate s p) eqn:E; [| done]. rewrite Hp in H4. injection H4 as H4. rewrite H4 in Hd. unfold stp_is_designated_port in Hd. cbn in Hd. by rewrite !Z.eqb_refl in Hd. }
  pose proof (po_candidate _ _ _ (b_each _ (node_base b s Hb) i p Hp) Hne (designated_false s p Hd)) as Hc.
  unfold should_designate in Hs. rewrite Hd in Hs. cbn [orb] in Hs. apply orb_false_iff in Hs as [[Hr%negb_false_iff%Z.eqb_eq Hl%Z.ltb_ge]%orb_false_iff _].
  split; [done |]. unfold wrap, COST_LIMIT in *. rewrite Z.mod_small in Hl by lia. lia.
Qed.

Lemma port_root b i s p : on N b i s p -> designated_root p = stp_designated_root s.
Proof using HN. intros Ho. destruct (stp_is_designated_port s p) eqn:E; [by apply (sends_says b i s p) | by apply (yields b i s p)]. Qed.

(** The root port. *)
Lemma root_port_on b s r : nodes N !! b = Some s -> root_port s = Some r ->
  exists q, on N b r s q /\ stp_is_designated_port s q = false /\ root_path_cost s = designated_cost q + path_cost q /\ stp_designated_root s < bridge_id s.
Proof using HN.
  intros Hb Hr. destruct (chosen b s Hb) as (_ & _ & H3 & _). destruct (lookup_lt_is_Some_2 (ports s) r) as [q Hq].
  { rewrite (b_ports _ (node_base b s Hb)). by apply (b_root _ (node_base b s Hb)). }
  destruct (H3 r q Hr Hq) as (Hc & Hroot & Hcost). destruct (candidate_inv s q Hc) as (Hne & Hd & Hlt). exists q. split; [done |]. split; [done |]. split; [done |]. lia.
Qed.
Lemma root_le b s : nodes N !! b = Some s -> stp_designated_root s <= bridge_id s.
Proof using HN.
  intros Hb. destruct (root_port s) as [r |] eqn:Hr; [destruct (root_port_on b s r Hb Hr) as (q & _ & _ & _ & ?); lia |].
  destruct (chosen b s Hb) as (_ & H2 & _). destruct (H2 Hr). lia.
Qed.

(** * One segment *)

Lemma config_port b i s p age : on N b i s p -> c_port_id (config_of s p age) = port_id p.
Proof using HN.
  intros (Hb & Hp & _). cbn. destruct (proj1 (po_id _ _ _ (b_each _ (node_base b s Hb) i p Hp))). unfold wrap. by apply Z.mod_small.
Qed.
Lemma port_ids b s i i' p p' : nodes N !! b = Some s -> ports s !! i = Some p -> ports s !! i' = Some p' -> port_id p = port_id p' -> i = i'.
Proof using HN.
  intros Hb Hp Hp' E. pose proof (po_id _ _ _ (b_each _ (node_base b s Hb) i p Hp)) as [_ H1].
  pose proof (po_id _ _ _ (b_each _ (node_base b s Hb) i' p' Hp')) as [_ H2]. rewrite E in H1. lia.
Qed.

(** What a port that sends says is not better than what another one says. *)
Lemma not_better b i s p b' i' s' p' : sends N b i s p -> sends N b' i' s' p' -> lan N b i = lan N b' i' -> (b, i) <> (b', i') ->
  stp_supersedes_port_info s' p' (config_of s p 0) = false.
Proof using HN.
  intros Hs Hs' Hl Hne. destruct (stp_supersedes_port_info s' p' (config_of s p 0)) eqn:E; [| done]. exfalso. apply Hne.
  destruct (st_heard _ HN b i s p b' i' s' p' 0 Hs (proj1 Hs') Hl Hne E) as (_ & _ & Hb & Hpid).
  destruct (sends_says b' i' s' p' Hs') as (_ & _ & Hb' & Hpid'). rewrite (config_port b i s p 0 (proj1 Hs)) in Hpid. cbn in Hb.
  destruct Hs as [(Hn & Hp & _) _], Hs' as [(Hn' & Hp' & _) _]. assert (b = b') as <- by (apply (st_ids _ HN b b' s s'); congruence).
  f_equal. apply (port_ids b s i i' p p'); congruence.
Qed.

(** Of what ports that send say, one is better. *)
Lemma not_better_le s p b' i' s' p' : sends N b' i' s' p' -> stp_supersedes_port_info s' p' (config_of s p 0) = false ->
  lex_lt [stp_designated_root s; root_path_cost s; bridge_id s; u16 (port_id p)] [stp_designated_root s'; root_path_cost s'; bridge_id s'; port_id p'] = false.
Proof using HN.
  intros Hs'. destruct (sends_says b' i' s' p' Hs') as (E1 & E2 & E3 & E4). pose proof (b_cost _ (node_base b' s' (proj1 (proj1 Hs')))) as Hc.
  unfold stp_supersedes_port_info. rewrite E1, E2, E3, E4. cbn [root_id c_root_path_cost c_bridge_id c_port_id config_of].
  replace (u32 (root_path_cost s')) with (root_path_cost s') by (unfold wrap; rewrite Z.mod_small; lia). cbn [lex_lt].
  destruct (Z.eqb_spec (stp_designated_root s) (stp_designated_root s')); cbn [negb]; [| done].
  destruct (Z.eqb_spec (root_path_cost s) (root_path_cost s')); cbn [negb]; [| done].
  destruct (Z.eqb_spec (bridge_id s) (bridge_id s')); cbn [negb orb]; [| done].
  destruct (Z.eqb_spec (u16 (port_id p)) (port_id p')), (Z.leb_spec (u16 (port_id p)) (port_id p')), (Z.ltb_spec (u16 (port_id p)) (port_id p')); (done || lia).
Qed.

(** Only one port sends on a segment. *)
Lemma sender_unique b i s p b' i' s' p' : sends N b i s p -> sends N b' i' s' p' -> lan N b i = lan N b' i' -> (b, i) = (b', i').
Proof using HN.
  intros Hs Hs' Hl. destruct (decide ((b, i) = (b', i'))) as [| Hne]; [done |]. exfalso. apply Hne.
  pose proof (not_better_le s p b' i' s' p' Hs' (not_better b i s p b' i' s' p' Hs Hs' Hl Hne)) as H1.
  pose proof (not_better_le s' p' b i s p Hs (not_better b' i' s' p' b i s p Hs' Hs (eq_sym Hl) (not_eq_sym Hne))) as H2.
  rewrite (config_port b i s p 0 (proj1 Hs) : u16 (port_id p) = _) in H1. rewrite (config_port b' i' s' p' 0 (proj1 Hs') : u16 (port_id p') = _) in H2.
  eapply lex_total in H1 as [= _ _ Eb Ep]; [| reflexivity | exact H2]. destruct Hs as [(Hn & Hp & _) _], Hs' as [(Hn' & Hp' & _) _].
  assert (b = b') as <- by (apply (st_ids _ HN b b' s s'); congruence). f_equal. apply (port_ids b s i i' p p'); congruence.
Qed.

(** What the other ports know comes from the bridge that sends on their segment. *)
Lemma knows_sender b i s p b' i' s' p' : on N b i s p -> stp_is_designated_port s p = false -> sends N b' i' s' p' -> lan N b i = lan N b' i' ->
  designated_root p = stp_designated_root s' /\ designated_cost p = root_path_cost s'.
Proof using HN.
  intros Ho Hd Hs' Hl. destruct (st_known _ HN b i s p Ho Hd) as (b1 & i1 & s1 & p1 & age & Hs1 & Hl1 & _ & Hr & Hc & _).
  pose proof (sender_unique b1 i1 s1 p1 b' i' s' p' Hs1 Hs' ltac:(congruence)) as [= -> ->].
  destruct Hs1 as [(Hn1 & _) _], Hs' as [(Hn' & _) _]. rewrite Hn1 in Hn'. injection Hn' as <-. done.
Qed.
Lemma some_sender b i s p : on N b i s p -> exists b' i' s' p', sends N b' i' s' p' /\ lan N b' i' = lan N b i.
Proof using HN.
  intros Ho. destruct (stp_is_designated_port s p) eqn:Hd; [by exists b, i, s, p |].
  destruct (st_known _ HN b i s p Ho Hd) as (b1 & i1 & s1 & p1 & age & Hs1 & Hl1 & _). by exists b1, i1, s1, p1.
Qed.

(** The root port of a bridge leads to one that is nearer to the root. *)
Lemma root_port_up b s r b' i' s' p' : nodes N !! b = Some s -> root_port s = Some r -> sends N b' i' s' p' -> lan N b r = lan N b' i' ->
  stp_designated_root s = stp_designated_root s' /\ root_path_cost s' < root_path_cost s.
Proof using HN.
  intros Hb Hr Hs' Hl. destruct (root_port_on b s r Hb Hr) as (q & Ho & Hd & Hc & _).
  destruct (knows_sender b r s q b' i' s' p' Ho Hd Hs' Hl) as [E1 E2]. pose proof (st_cost _ HN b r s q Ho). rewrite <- (port_root b r s q Ho). lia.
Qed.

(** Bridges on one segment agree on the root. *)
Lemma neighbours_agree b b' s s' : nodes N !! b = Some s -> nodes N !! b' = Some s' -> neighbours N b b' -> stp_designated_root s = stp_designated_root s'.
Proof using HN.
  intros Hb Hb' (i & t & p & i' & t' & p' & Ho & Ho' & Hl). pose proof Ho as (Hn & _). pose proof Ho' as (Hn' & _). simplify_eq.
  destruct (some_sender b i s p Ho) as (b1 & i1 & s1 & p1 & Hs1 & Hl1).
  assert (Hall : forall b2 i2 s2 p2, on N b2 i2 s2 p2 -> lan N b2 i2 = lan N b1 i1 -> stp_designated_root s2 = stp_designated_root s1).
  { intros b2 i2 s2 p2 Ho2 Hl2. rewrite <- (port_root b2 i2 s2 p2 Ho2). destruct (stp_is_designated_port s2 p2) eqn:Hd; [| by apply (knows_sender b2 i2 s2 p2 b1 i1 s1 p1)].
    pose proof (sender_unique b2 i2 s2 p2 b1 i1 s1 p1 (conj Ho2 Hd) Hs1 Hl2) as [= -> ->]. destruct (proj1 Hs1) as (Hn1 & _). pose proof Ho2 as (Hn2 & _). rewrite Hn1 in Hn2. injection Hn2 as <-.
    by apply (port_root b1 i1 s1 p2). }
  rewrite (Hall b i s p Ho) by congruence. symmetry. by apply (Hall b' i' s' p' Ho'); congruence.
Qed.

(** * The network *)

(** From every bridge the root ports lead to the root. *)
Lemma leads_up b s : nodes N !! b = Some s ->
  exists b0 s0, rtc (uplink N) b b0 /\ nodes N !! b0 = Some s0 /\ root_port s0 = None /\ stp_designated_root s = bridge_id s0.
Proof using HN.
  remember (Z.to_nat (root_path_cost s)) as n eqn:En. revert b s En. induction n as [n IH] using lt_wf_ind. intros b s -> Hb.
  destruct (root_port s) as [r |] eqn:Hr.
  - destruct (root_port_on b s r Hb Hr) as (q & Ho & Hd & _). destruct (some_sender b r s q Ho) as (b' & i' & s' & p' & Hs' & Hl).
    destruct (root_port_up b s r b' i' s' p' Hb Hr Hs' ltac:(done)) as [Er Hc]. pose proof (proj1 (proj1 Hs')) as Hb'.
    pose proof (b_cost _ (node_base b s Hb)). pose proof (b_cost _ (node_base b' s' Hb')).
    destruct (IH (Z.to_nat (root_path_cost s')) ltac:(lia) b' s' eq_refl Hb') as (b0 & s0 & Hup & Hb0 & Hr0 & E0).
    exists b0, s0. split; [| by rewrite Er]. apply (rtc_l _ _ b'); [| done]. by exists r, s, q, i', s', p'.
  - destruct (chosen b s Hb) as (_ & H2 & _). destruct (H2 Hr) as [E _]. by exists b, s.
Qed.

Lemma connected_agree b b' s s' : nodes N !! b = Some s -> nodes N !! b' = Some s' -> rtc (neighbours N) b b' -> stp_designated_root s = stp_designated_root s'.
Proof using HN.
  intros Hb Hb' Hc. revert s Hb. induction Hc as [| b b1 b' Hstep _ IH]; intros s Hb; [congruence |].
  pose proof Hstep as (i & t & p & i' & s1 & p' & _ & (Hb1 & _) & _). rewrite (neighbours_agree b b1 s s1 Hb Hb1 Hstep). by apply IH.
Qed.

(** ** No loops *)

Definition by_root (h : transit) : Prop := exists s, nodes N !! h_bridge h = Some s /\ root_port s = Some (h_in h).
Definition cost (h : transit) : Z := match nodes N !! h_bridge h with Some s => root_path_cost s | None => 0 end.

Lemma forwards_role b i s : nodes N !! b = Some s -> forwards N b i -> root_port s = Some i \/ exists p, sends N b i s p.
Proof using HN.
  intros Hb (s' & p & Ho & Ef). pose proof Ho as (Hb' & Hp & Hne). rewrite Hb in Hb'. injection Hb' as <-.
  destruct (tidy_port false s i p (st_tidy _ HN b s Hb) Hp) as (_ & Hr & _). destruct Hr as [? | Hd]; [done | by rewrite Ef | by left | right]. by exists p.
Qed.
Lemma root_not_sends b i s p : root_port s = Some i -> sends N b i s p -> False.
Proof using HN.
  intros Hr [(Hb & Hp & Hne) Hd]. destruct (root_port_on b s i Hb Hr) as (q & (_ & Hq & _) & Hnd & _). congruence.
Qed.
Lemma hop_node h : hop_ok N h -> exists s, nodes N !! h_bridge h = Some s.
Proof. intros [(s & p & (Hb & _) & _) _]. by exists s. Qed.

(** A frame that came from above goes on downwards, and one that goes to a bridge from below came from below. *)
Lemma hop_down h h' : hop_ok N h -> hop_ok N h' -> linked N h h' -> by_root h -> by_root h' /\ cost h < cost h'.
Proof using HN.
  intros Hh Hh' [Hl Hne] (s & Hb & Hr). destruct Hh as (_ & Hout & Hio).
  destruct (forwards_role _ _ s Hb Hout) as [E | [p Hs]]; [by rewrite Hr in E; injection E |].
  destruct (hop_node h' Hh') as [s' Hb']. destruct Hh' as (Hin' & _ & _).
  destruct (forwards_role _ _ s' Hb' Hin') as [Hr' | [p' Hs']]; [| by destruct Hne; apply (sender_unique _ _ s p _ _ s' p')].
  split; [by exists s' |]. unfold cost. rewrite Hb, Hb'. by apply (root_port_up (h_bridge h') s' (h_in h') (h_bridge h) (h_out h) s p).
Qed.
Lemma hop_up h h' : hop_ok N h -> hop_ok N h' -> linked N h h' -> ~ by_root h' -> ~ by_root h /\ cost h' < cost h.
Proof using HN.
  intros Hh Hh' Hlk Hnr. split; [intros Hr; by destruct Hnr; apply (hop_down h h') |].
  destruct Hlk as [Hl Hne]. destruct (hop_node h Hh) as [s Hb]. destruct (hop_node h' Hh') as [s' Hb']. destruct Hh as (_ & Hout & _), Hh' as (Hin' & _ & _).
  destruct (forwards_role _ _ s' Hb' Hin') as [Hr' | [p' Hs']]; [by destruct Hnr; exists s' |].
  destruct (forwards_role _ _ s Hb Hout) as [Hr | [p Hs]]; [| by destruct Hne; apply (sender_unique _ _ s p _ _ s' p')].
  unfold cost. rewrite Hb, Hb'. by apply (root_port_up (h_bridge h) s (h_out h) (h_bridge h') (h_in h') s' p').
Qed.

Lemma path_down hs : forall h z, hop_ok N h -> path N h (hs ++ [z]) -> by_root h -> cost h < cost z.
Proof using HN.
  induction hs as [| h' hs IH]; intros h z Hh; cbn [app path]; intros (Hh' & Hlk & Hp) Hr; destruct (hop_down h _ Hh Hh' Hlk Hr) as [Hr' Hc]; [done |].
  specialize (IH h' z Hh' Hp Hr'). lia.
Qed.
Lemma path_up hs : forall h z, hop_ok N h -> path N h (hs ++ [z]) -> ~ by_root z -> ~ by_root h /\ cost z < cost h.
Proof using HN.
  induction hs as [| h' hs IH]; intros h z Hh; cbn [app path]; intros (Hh' & Hlk & Hp) Hr; [by apply hop_up |].
  destruct (IH h' z Hh' Hp Hr) as [Hr' Hc]. destruct (hop_up h h' Hh Hh' Hlk Hr') as [Hr0 Hc0]. split; [done | lia].
Qed.

Lemma by_root_dec h : by_root h \/ ~ by_root h.
Proof.
  unfold by_root. destruct (nodes N !! h_bridge h) as [s |]; [| right; by intros (s & ? & _)].
  destruct (decide (root_port s = Some (h_in h))); [left; by exists s | right; intros (s' & [= <-] & ?); done].
Qed.
Lemma no_loop h hs : ~ loop N h hs.
Proof using HN.
  intros [Hh Hp]. destruct (by_root_dec h) as [Hr | Hr]; [pose proof (path_down hs h h Hh Hp Hr); lia | destruct (path_up hs h h Hh Hp Hr); lia].
Qed.

End bridge.

(** C5. In a network where nothing changes any more, each bridge agrees with all bridges it is
    connected to on the one with the least identifier as the root, and its root ports lead there;
    each segment has one port that sends, and the ports that forward frames make no loop. *)
Theorem spanning_tree N :
  stable N ->
  (forall b s, nodes N !! b = Some s ->
     exists b0 s0, rtc (uplink N) b b0 /\ nodes N !! b0 = Some s0 /\ root_port s0 = None /\
       forall b' s', rtc (neighbours N) b b' -> nodes N !! b' = Some s' -> stp_designated_root s' = bridge_id s0 /\ bridge_id s0 <= bridge_id s') /\
  (forall b i s p, on N b i s p ->
     exists b' i', lan N b' i' = lan N b i /\ (exists s' p', sends N b' i' s' p') /\
       forall b1 i1 s1 p1, sends N b1 i1 s1 p1 -> lan N b1 i1 = lan N b i -> (b1, i1) = (b', i')) /\
  (forall h hs, ~ loop N h hs).
Proof.
  intros HN. split; [| split; [| intros h hs; by apply no_loop]].
  - intros b s Hb. destruct (leads_up N HN b s Hb) as (b0 & s0 & Hup & Hb0 & Hr0 & E). exists b0, s0. split; [done |]. split; [done |]. split; [done |].
    intros b' s' Hc Hb'. rewrite <- (connected_agree N HN b b' s s' Hb Hb' Hc). split; [done |].
    rewrite <- E, (connected_agree N HN b b' s s' Hb Hb' Hc). by apply (root_le N HN b').
  - intros b i s p Ho. destruct (some_sender N HN b i s p Ho) as (b' & i' & s' & p' & Hs' & Hl). exists b', i'. split; [done |]. split; [by exists s', p' |].
    intros b1 i1 s1 p1 Hs1 Hl1. apply (sender_unique N HN b1 i1 s1 p1 b' i' s' p'); [done | done | congruence].
Qed.

(** * Networks that run *)

(** All enabled ports, and the frames that wait to be sent. *)
Definition enabled (N : network) : list (nat * nat * stp * stp_port) :=
  concat (imap (fun b s => concat (imap (fun i p => if state p =? STP_DISABLED then [] else [(b, i, s, p)]) (ports s))) (nodes N)).
Definition frames (N : network) : list (nat * nat * list Z) := concat (imap (fun b s => map (fun '(i, m) => (b, i, drop 17 m)) (sent s)) (nodes N)).

Definition on_node (b : nat) (c : prog stp unit) (N : network) : option network :=
  s ← nodes N !! b; r ← c s; Some (Net (<[b := snd r]> (nodes N)) (lan N)).
(** A BPDU reaches all other ports of its segment, one after the other. *)
Fixpoint receive (b i : nat) (m : list Z) (l : list (nat * nat * stp * stp_port)) (N : network) : option network :=
  match l with
  | [] => Some N
  | (b', i', _, _) :: l =>
      N' ← (if (lan N b i =? lan N b' i')%nat && negb ((b =? b')%nat && (i =? i')%nat) then on_node b' (stp_received_bpdu i' m) N else Some N);
      receive b i m l N'
  end.
Fixpoint deliver (fs : list (nat * nat * list Z)) (N : network) : option network :=
  match fs with
  | [] => Some N
  | (b, i, m) :: fs => N' ← receive b i m (enabled N) N; deliver fs N'
  end.
Definition exchange (N : network) : option network := deliver (frames N) (Net (map (set_sent []) (nodes N)) (lan N)).
Fixpoint tick_all (n : nat) (ms : Z) (N : network) : option network :=
  match n with
  | O => Some N
  | S n => N' ← on_node n (stp_tick ms) N; tick_all n ms N'
  end.
(** Some seconds: in each, the timers run and what is sent is received, and what is then sent too. *)
Fixpoint seconds (n : nat) (N : network) : option network :=
  match n with
  | O => Some N
  | S n => N ← tick_all (length (nodes N)) 1000 N; N ← exchange N; N ← exchange N; N ← exchange N; seconds n N
  end.

(** * An example *)

(** ** Checking that a network is stable *)

Definition wordb (z : Z) : bool := (0 <=? z) && (z <? 2 ^ 16).
Definition timerb (t : stp_timer) : bool := (0 <=? value t) && (value t <? 2 ^ 22) && (negb (active t) || (value t <? 2 ^ 17)).
Definition timesb (t : times) : bool := wordb (max_age t) && wordb (hello_time t) && wordb (forward_delay t).
Definition validb (st : Z) : bool := existsb (Z.eqb st) [STP_DISABLED; STP_LISTENING; STP_LEARNING; STP_FORWARDING; STP_BLOCKING].
Definition portb (id : Z) (i : nat) (p : stp_port) : bool :=
  (wordb (port_id p) && (Z.land (port_id p) 0xff =? Z.of_nat i + 1)) && validb (state p) && wordb (path_cost p) &&
  timerb (message_age_timer p) && timerb (forward_delay_timer p) && timerb (hold_timer p) &&
  ((state p =? STP_DISABLED) || ((designated_bridge p =? id) && (designated_port p =? port_id p)) || ((0 <=? designated_cost p) && (designated_cost p <=? COST_LIMIT))).
Fixpoint forall_from {A} (f : nat -> A -> bool) (i : nat) (l : list A) : bool :=
  match l with
  | [] => true
  | x :: l => f i x && forall_from f (S i) l
  end.
Definition baseb (s : stp) : bool :=
  (length (ports s) =? STP_MAX_PORTS)%nat && forall_from (portb (bridge_id s)) 0 (ports s) && timesb (now s) && timesb (bridge s) &&
  ((0 <=? elapsed_remainder s) && (elapsed_remainder s <? 1000)) && ((0 <=? root_path_cost s) && (root_path_cost s <? 2 ^ 31)) &&
  match root_port s with Some r => (r <? STP_MAX_PORTS)%nat | None => true end &&
  timerb (hello_timer s) && timerb (tcn_timer s) && timerb (topology_change_timer s).
Definition roleb (L : Z * option nat * list (Z * Z * Z)) (i : nat) (st : Z) : bool :=
  (st =? STP_DISABLED) || (st =? STP_BLOCKING) || is_active L i.
Definition rootedb (s : stp) : bool :=
  match root_port s with Some r => match states s !! r with Some st => negb (st =? STP_DISABLED) | None => false end | None => true end.

Ltac bools := repeat match goal with
  | H : _ && _ = true |- _ => apply andb_true_iff in H as [? ?]
  | H : (_ <=? _) = true |- _ => apply Z.leb_le in H
  | H : (_ <? _) = true |- _ => apply Z.ltb_lt in H
  | H : (_ =? _) = true |- _ => apply Z.eqb_eq in H
  | H : (_ =? _)%nat = true |- _ => apply Nat.eqb_eq in H
  | H : (_ <? _)%nat = true |- _ => apply Nat.ltb_lt in H
  end.
Lemma wordb_ok z : wordb z = true -> word z.
Proof. unfold wordb, word. intros H. bools. lia. Qed.
Lemma timerb_ok t : timerb t = true -> timer_ok t.
Proof. unfold timerb, timer_ok. intros H. bools. split; [lia |]. intros Ha. rewrite Ha in *. cbn [negb orb] in *. bools. lia. Qed.
Lemma timesb_ok t : timesb t = true -> times_ok t.
Proof. unfold timesb, times_ok. intros H. bools. by split_and!; apply wordb_ok. Qed.
Lemma validb_ok st : validb st = true -> valid_state st.
Proof. unfold validb, valid_state. rewrite existsb_exists. intros (x & Hx & ->%Z.eqb_eq). by apply list_elem_of_In. Qed.
Lemma portb_ok id i p : portb id i p = true -> port_ok id i p.
Proof.
  unfold portb. intros H. bools. constructor; try by (apply wordb_ok || apply timerb_ok || apply validb_ok).
  - split; [by apply wordb_ok | done].
  - intros Hne Hd. rewrite orb_true_iff in *. destruct H0 as [H0 | H0]; bools; [| lia]. apply orb_true_iff in H0 as [H0 | H0]; bools; [done |]. naive_solver.
Qed.
Lemma forall_from_ok {A} (f : nat -> A -> bool) l : forall k, forall_from f k l = true -> forall i x, l !! i = Some x -> f (k + i)%nat x = true.
Proof.
  induction l as [| y l IH]; intros k; cbn [forall_from]; [done |]. intros H [| i] x; cbn; bools; [intros [= <-]; by rewrite Nat.add_0_r |].
  intros Hx. rewrite Nat.add_succ_r. by apply (IH (S k)).
Qed.
Lemma baseb_ok s : baseb s = true -> base s.
Proof.
  unfold baseb. intros H. bools. constructor; try by (apply timesb_ok || apply timerb_ok || lia).
  - intros i p Hp. apply portb_ok. by apply (forall_from_ok (portb (bridge_id s)) (ports s) 0).
  - intros r Hr. rewrite Hr in *. by bools.
Qed.
Lemma tidy_check s : baseb s && rootedb s && forall_from (roleb (links s)) 0 (states s) = true -> tidy false s.
Proof.
  intros H. bools. split; [by apply baseb_ok |]. split.
  - intros r Hr. unfold rootedb in *. rewrite Hr in *. destruct (states s !! r) as [st |]; [| done]. exists st. split; [done |]. by apply Z.eqb_neq, negb_true_iff.
  - intros i st Hi Hne. split; [| done]. intros Hb. pose proof (forall_from_ok (roleb (links s)) (states s) 0 H0 i st Hi) as Hr. unfold roleb in Hr. cbn [Nat.add] in Hr.
    apply Z.eqb_neq in Hne as Hne'. apply Z.eqb_neq in Hb as Hb'. by rewrite Hne', Hb' in Hr.
Qed.

Definition sendsb (s : stp) (p : stp_port) : bool := stp_is_designated_port s p.
Definition knowsb (p : stp_port) (c : stp_config_bpdu) : bool :=
  (designated_root p =? root_id c) && (designated_cost p =? c_root_path_cost c) && (designated_bridge p =? c_bridge_id c) && (designated_port p =? c_port_id c).
(** Two different ports of one segment. *)
Definition meetb (N : network) (e e' : nat * nat * stp * stp_port) : bool :=
  let '(b, i, _, _) := e in let '(b', i', _, _) := e' in (lan N b i =? lan N b' i')%nat && negb ((b =? b')%nat && (i =? i')%nat).
Definition costb (e : nat * nat * stp * stp_port) : bool := 0 <? path_cost (snd e).
Definition heardb (e e' : nat * nat * stp * stp_port) : bool :=
  let '(_, _, s, p) := e in let '(_, _, s', p') := e' in
  negb (sendsb s p && stp_supersedes_port_info s' p' (config_of s p 0)) || knowsb p' (config_of s p 0).
Definition knownb (e' e : nat * nat * stp * stp_port) : bool :=
  let '(_, _, s', p') := e' in sendsb s' p' && knowsb (snd e) (config_of s' p' 0).
Definition settledb (N : network) : bool :=
  let l := enabled N in
  forallb costb l && forallb (fun e => forallb (fun e' => negb (meetb N e e') || heardb e e') l) l &&
  forallb (fun e => sendsb (snd (fst e)) (snd e) || existsb (fun e' => meetb N e' e && knownb e' e) l) l.

Lemma enabled_on N b i s p : (b, i, s, p) ∈ enabled N <-> on N b i s p.
Proof.
  unfold enabled, on. rewrite list_elem_of_In, in_concat. split.
  - intros (l & Hl%list_elem_of_In & H). apply elem_of_lookup_imap in Hl as (b' & s' & -> & Hb). apply in_concat in H as (l' & Hl'%list_elem_of_In & H).
    apply elem_of_lookup_imap in Hl' as (i' & p' & -> & Hi). destruct (state p' =? STP_DISABLED) eqn:E; [done |]. apply Z.eqb_neq in E.
    destruct H as [[= <- <- <- <-] | []]. done.
  - intros (Hb & Hi & Hne). eexists. split; [apply list_elem_of_In, (elem_of_lookup_imap_2 _ _ _ b Hb) |].
    apply in_concat. eexists. split; [apply list_elem_of_In, (elem_of_lookup_imap_2 _ _ _ i Hi) |]. apply Z.eqb_neq in Hne. cbv beta. rewrite Hne. by left.
Qed.
Lemma knowsb_ok p c : knowsb p c = true -> knows p c.
Proof. unfold knowsb, knows. intros H. by bools. Qed.
Lemma meetb_spec N b i s p b' i' s' p' : meetb N (b, i, s, p) (b', i', s', p') = true <-> lan N b i = lan N b' i' /\ (b, i) <> (b', i').
Proof.
  unfold meetb. rewrite andb_true_iff, Nat.eqb_eq, negb_true_iff, andb_false_iff, !Nat.eqb_neq. split; intros [H1 H2]; (split; [done |]); [naive_solver |].
  destruct (decide (b = b')) as [-> |]; [right | by left]. naive_solver.
Qed.

Lemma stable_check N :
  (forall b s, nodes N !! b = Some s -> baseb s && rootedb s && forall_from (roleb (links s)) 0 (states s) = true /\ stp_configuration_update s = Some (tt, s)) ->
  NoDup (map bridge_id (nodes N)) -> settledb N = true -> stable N.
Proof.
  intros Hn Hid H. unfold settledb in H. bools. rewrite !forallb_forall in *. constructor.
  - intros b s Hb. by apply tidy_check, (Hn b).
  - intros b s Hb. by apply (Hn b).
  - intros b b' s s' Hb Hb' E. apply (NoDup_lookup _ b b' (bridge_id s) Hid); rewrite list_lookup_fmap; [by rewrite Hb | by rewrite Hb', E].
  - intros b i s p Ho%enabled_on%list_elem_of_In. by apply Z.ltb_lt, (H _ Ho).
  - intros b i s p b' i' s' p' age [Ho Hd] Ho' Hl Hne Hsup. pose proof (H1 _ (proj1 (list_elem_of_In _ _) (proj2 (enabled_on _ _ _ _ _) Ho))) as H1'.
    rewrite forallb_forall in H1'. specialize (H1' _ (proj1 (list_elem_of_In _ _) (proj2 (enabled_on _ _ _ _ _) Ho'))).
    rewrite (proj2 (meetb_spec N b i s p b' i' s' p') (conj Hl Hne)) in H1'. unfold heardb, sendsb in H1'. cbn [negb orb] in H1'.
    change (stp_supersedes_port_info s' p' (config_of s p age)) with (stp_supersedes_port_info s' p' (config_of s p 0)) in Hsup.
    rewrite Hd, Hsup in H1'. by apply knowsb_ok in H1'.
  - intros b i s p Ho Hd. pose proof (H0 _ (proj1 (list_elem_of_In _ _) (proj2 (enabled_on _ _ _ _ _) Ho))) as H2. cbn [fst snd] in H2.
    unfold sendsb at 1 in H2. rewrite Hd in H2. cbn [orb] in H2. apply existsb_exists in H2 as ([[[b' i'] s'] p'] & Hin & [Hm Hk]%andb_true_iff).
    apply list_elem_of_In, enabled_on in Hin. apply meetb_spec in Hm as [Hl Hne]. apply andb_true_iff in Hk as [Hd' Hk].
    exists b', i', s', p', 0. split; [done |]. split; [done |]. split; [done |]. by apply knowsb_ok.
Qed.

(** ** Three bridges in a triangle *)

Definition demo_bridge (id : Z) : stp :=
  match stp_create id with Some s => match execs [O_enable 0; O_enable 1] s with Some (_, s') => s' | None => s end | None => zero_stp end.
(** Segment 0 joins the bridges 0 and 1, segment 1 the bridges 1 and 2, segment 2 the bridges 2 and 0. *)
Definition demo_lan (b i : nat) : nat := match b, i with 0, 0 | 1, 0 => 0 | 1, 1 | 2, 0 => 1 | 2, 1 | 0, 1 => 2 | _, _ => 3 + b * 255 + i end%nat.
Definition demo_start : network := Net (map demo_bridge [0x10; 0x20; 0x30]) demo_lan.
Definition demo_net : network := default demo_start (seconds 12 demo_start).
Definition node (b : nat) : stp := default zero_stp (nodes demo_net !! b).

#[local] Opaque demo_net node.
Lemma demo_nodes : nodes demo_net = [node 0; node 1; node 2].
Proof. vm_compute. reflexivity. Qed.
Lemma demo_stable : stable demo_net.
Proof.
  apply stable_check.
  - intros b s Hb. rewrite demo_nodes in Hb. destruct b as [| [| [| b]]]; [apply Some_inj in Hb as <- .. | done]; (split; vm_compute; reflexivity).
  - rewrite demo_nodes. apply (bool_decide_unpack _). vm_compute. exact I.
  - vm_compute. reflexivity.
Qed.

Lemma spanning_tree_witness :
  map (fun s => (root_port s, take 2 (states s))) (nodes demo_net) =
    [(None, [STP_FORWARDING; STP_FORWARDING]); (Some 0%nat, [STP_FORWARDING; STP_FORWARDING]); (Some 1%nat, [STP_BLOCKING; STP_FORWARDING])] /\
  forall h hs, ~ loop demo_net h hs.
Proof.
  split; [vm_compute; reflexivity |]. destruct (spanning_tree demo_net demo_stable) as (_ & _ & H). exact H.
Defined.
End StpNet.
